(* ===== verification/_CoqProject ===== *)
-Q . S2P
Prelude.v
PyText.v
PyNum.v
PyTime.v
PyNet.v
PyJson.v
JsonText.v
Sha256.v
Policy.v
Decision.v
Signing.v
AuditLog.v
Effects.v
Store.v
SqliteAudit.v
Adapters.v
Https.v
Ownership.v
Blocklist.v
Transports.v
NftEnforcer.v
NftStack.v
Endpoint.v
Contracts.v
Sequences.v
Outbox.v
Enrichment.v
Registry.v
InferApi.v
Partitions.v
Promotion.v
FeatureEngine.v
Dataset.v
Labels.v
Evaluation.v
Pipeline.v
ModelFit.v
Compliance.v
PyRe.v
Fabric.v
FeatureWorker.v
WindowInv.v
Firewalls.v
Engine.v
EngineInv.v
EngineFrame.v
Service.v
ServiceInv.v
RegistryInv.v
TrainingInv.v
EnrichInv.v
DecisionRunner.v
ServiceConfig.v
Deploy.v
NetView.v
Lab.v
Entry.v
Sample.v
SampleWorkers.v
SampleTraining.v
ComplianceProps.v
FabricProps.v
RegistryProps.v
DeployProps.v
NetViewProps.v
LabProps.v
PolicyProps.v
EngineProps.v
BlocklistProps.v
AuditProps.v
NftProps.v
EnrichmentProps.v
TransportProps.v
RunnerProps.v
ServiceProps.v
FeatureProps.v
VectorProps.v
TrainingProps.v
