(* ===== verification/Prelude.v ===== *)
(** * The CompanyXYZ-NG response plane and its workers: a verification library

    The repository is a security operations stack.  Workers turn normalized network and endpoint
    events into feature vectors, queue each with its history, score them over an API that serves only
    approved models, and write anomalies to Elasticsearch; a decision runner turns an anomaly into a
    containment command when independent detections corroborate it; an orchestrator applies the
    command to firewalls or endpoints, verifies it, and takes it back.  Beside that path, the training
    side partitions the events of labelled runs, trains and evaluates candidates, and promotes one.
    Around both stand the tools that record compliance evidence, render the fabric and the Kubernetes
    settings, check the lock of images, show the network, and build and check the laboratory.  This
    development models the Python code of all of these and proves what an operator relies on.

    ** The parts and their files

    - Python itself.  [PyText] ([str], Latin-1), [PyNum] ([int], binary64 [float], its
      order), [PyTime] ([datetime] as microseconds; texts of instants sort as the instants do), [PyNet] ([ipaddress]), [PyJson] (documents and canonical JSON), [JsonText]
      ([json.loads], and that it reads canonical JSON back), [PyRe] ([re]: a backtracking matcher
      beside the relation it decides), [Sha256] ([hashlib], [hmac], [base64]).  [Effects] is the monad of stateful code that may raise:
      mutations made before an exception stay.
    - Policy and decisions.  [Policy] is [response/policy.py], [Decision] is [response/decision.py],
      [Signing] has the two authenticators ([response/decision.py], [response/signing.py]) behind the
      class [CommandAuthenticator].
    - The orchestrator.  [AuditLog] is [response/orchestrator/audit.py], [Store] is
      [response/orchestrator/store.py], [SqliteAudit] is [response/orchestrator/sqlite_audit.py],
      [Engine] is [response/orchestrator/engine.py].  [EngineInv] has the invariant of records and
      audit history, [EngineFrame] walks every method once for any property its primitive calls keep,
      and logs the adapters' calls.
    - Containment.  [Adapters], [Blocklist] ([response/adapters/]), [Ownership] and [Transports]
      ([response/transports/]), [NftEnforcer] ([docker/enforcer/nft_enforcer.py]), [Endpoint]
      ([docker/wazuh/active-response/cxyz_endpoint_isolation.py]).  [Firewalls] puts the blocklist
      adapter over owned peers and [NftStack] composes the nftables path from the adapter to [nft].
    - The services.  [Service] is [response/service/runner.py] and [api.py], [DecisionRunner] is
      [response/service/decision_runner.py], [ServiceConfig] is [response/service/config.py];
      [ServiceInv] holds their shared lemmas, those of the audit exporter with them.
    - The workers.  [Https] is [soc/workers/https.py], [common.py] and [response/transports/http.py];
      the lemmas on its scan with them; [Outbox], [Enrichment] and [FeatureWorker] are the files
      of [soc/workers/] of those names, [Contracts], [FeatureEngine] and [Sequences] those of
      [ai/features/]; [WindowInv] is the invariant of the window ledger, [EnrichInv] that of the outbox
      (a sent job is in the index) and of the feature cursor.
    - Serving.  [Registry] is [ai/models/registry.py] (which bytes may be deserialised), with
      the model-facing half of inference; [InferApi] is [ai/api/main.py]; [RegistryInv] has their lemmas.
    - Training.  [Partitions], [Dataset], [Promotion] and [Pipeline] are the files of [ai/training/]:
      the leakage gate, the dataset builder, promotion, the pipeline with its comparison; [Labels] and
      [Evaluation] are [ai/evaluation/].  [TrainingInv] has their lemmas.
      [ModelFit] is the fitting side of [ai/models/] (the preprocessing, the calibration and the
      artifact of the LSTM autoencoder).
    - Entry points.  [Entry] is [response/service/__main__.py], [soc/workers/export_events.py],
      [ai/features/export.py] and the loops of the other commands: which component a command builds,
      in which order, and what it does between two rounds.
    - Evidence.  [Compliance] is [compliance/]: the provenance of an artifact, its recording, the
      control map and the report.
    - The deployment.  [Fabric] is [scripts/render_fabric.py] and its neighbours: the topology, the
      addresses and the settings file; [Deploy] is the rendering of the settings and secrets of Path C
      and the checks of the image lock; [NetView] is [scripts/netviz.py], the parsers of the routing
      and firewall configurations and the server of the views; [Lab] is [scripts/try_linux.py], the stages
      that build and check the laboratory and the loop that runs them.
    - Samples.  [Sample], [SampleWorkers] and [SampleTraining] are small
      concrete deployments, on which the witnesses of the theorems evaluate.

    The definitions keep the names of the code.  A class is a record of its state, a method a
    computation of the monad [M] over it (or a function returning [result] when it has no state);
    a handler is translated whole, its checks in the order of the code.  What the code calls and does
    not contain is a parameter: an opener for HTTP, a runner for [nft], a validator for JSON Schema,
    Ed25519, the clocks.  Where a theorem needs such a parameter to keep its documented promises they
    are the laws of a class ([RawSetLaws], [NftLaws], [SearchLaws], [CreateLaws], [TimeLaws],
    [WorkerLaws], [BystanderLaws], [ObservedSearch], [HistoryNode], [ProvenanceLaws],
    [SafetensorsLaws], [NetworkLaws]), and the sample files have instances.  Two logics
    carry the stateful proofs: [keeps] (an invariant every primitive call keeps) and [returns] (what
    holds of a computation that gives a value).

    ** What is proved

    - [PolicyProps]: a catalog that loads is well formed; which errors loading may give; exactly which
      targets the protections let through; and a containment command exists only for a hybrid policy with
      enough independent, fresh corroboration; the order of the signals does not matter.
    - [AuditProps]: the journal is consistent and append only, a checkpoint is atomic
      whatever the commit does, an apply is claimed at most once, loading returns what was
      checkpointed, and the durable ledger refines the in-memory one.
    - [EngineProps]: over any sequence of submissions, passes, failures and restarts, the records agree
      with the audit history, an adapter applies a response at most once, a response is verified only
      with evidence, a duplicate changes nothing, and a storage failure stops the orchestrator.
    - [BlocklistProps], [NftProps], [TransportProps]: an address that was there before
      is never removed, a failed application is compensated, an applied one is in every kernel, the
      agent only ever issues three commands, the endpoint's markers follow its table, the polling and
      scanning loops end.
    - [ServiceProps]: a tick refines its plan for each mode, the safety of the engine
      holds of the whole service, intake takes only authenticated commands, exported events are stored
      and the exporter catches up, and which configurations load.
    - [RunnerProps]: a command is sent only after its decision is written, the cursor never passes an
      anomaly that is not settled, observe mode sends nothing.
    - [FeatureProps], [VectorProps], [EnrichmentProps]: the outbox loses no work; windows
      leave no gap, are read whole and are marked done only when delivered; vectors do not depend on
      the order of events, one per entity, within the bounds of the feature contract; the history a
      vector is served with is the sequence the model is trained on.
    - [EnrichmentProps]: a job marked sent is in the index, and the feature cursor never passes a vector
      that is not queued.
    - [RegistryProps]: only bytes whose digest a trusted, approved record names are deserialised, the
      models served are those, and the reply of the API is one the worker accepts; an artifact that is
      written is read back as the autoencoder that was fitted.
    - [TrainingProps]: accepted partitions share no event, run or
      session; a promoted model clears every floor of its policy and a retired one is refused
      afterwards; the threshold selected is the best within the false-positive budget; no attack window
      is trained on; what the pipeline writes is what the promotion reads.
    - [VectorProps], [ServiceProps], [RunnerProps] of the entry points: the vectors exported cover the
      capture, every event in the window of its instant; the response process is a run of the service
      whose safety [ServiceProps] proves; a decision loop keeps the order of decision and command.
    - [ComplianceProps]: a strict report passes only when every control has a current proof that
      passed; a recorded pass is bound to the tree it was recorded on; no proof serves two controls; a
      run that is recorded as passed is read as passed.
    - [FabricProps]: every interface of every node is on exactly one link, management stays out
      of band, an updated settings file is still read.
    - [DeployProps]: the settings of Path C are within their bounds, its secrets carry the settings
      and no placeholder, and a lock without objection pins every image the sources name.
    - [NetViewProps]: the view of a routing configuration does not depend on the secrets in it, and a
      request for a foreign host touches nothing.
    - [LabProps]: a stage runs only on top of stages that did not fail, a run that exits with 0 has no
      failed and no blocked stage, and a stage that passed ran all of its commands to an accepted end.

    ** Bounds and fuel

    Integers are unbounded as Python's are; words of SHA-256 are reduced modulo 2^32.  Text is Latin-1.
    Instants are whole microseconds (the clock of the Wazuh client, nanoseconds).  Some loops take
    fuel.  A scan with a limit [l] and pages of [p] hits takes [enough_pages], at most [l / p + 1]
    rounds, and [limited_scan_ends] shows that more fuel gives the same result; the scan
    of the decision runner and of the window reader are such scans.  The polling loop of the Wazuh
    client takes [timeout / poll + 1] rounds once its clock moves ([await_terminates]).  The catch-up
    of windows counts down from [max_windows], as the code does.  The feature-pull loop takes
    [pull_fuel], one round for each page there can be, the read of a capture [capture_fuel], and the
    star of a regular expression the length of the text, since every round of it has to consume.

    ** Not modelled

    - Ed25519, PEM parsing and key generation, TLS, sockets, file permissions, lock files, SQL text
      and schema scripts: libraries and the operating system.  A commit that fails or whose outcome is
      unknown is modelled (the [fault] lists).
    - Argument parsing, signals, threads, uvicorn, FastAPI routing, the metrics text and the Markdown of
      the compliance report: process wiring and presentation.  What the commands do with their arguments
      is in [Entry].
    - The numerical cores (the forests and networks, their training and scoring): calls into
      scikit-learn, torch and NumPy.  The code around them is modelled with a fitted model as a
      parameter.
    - Of [scripts/netviz.py], the curated descriptions of nodes and services, the pages and the live
      probes: constant data, and what [docker] answers.
    - [scripts/path_b_audit.py] and the static checks ([check_*_static.py], [security_static_checks.py]):
      they ask live nodes, or the text of other files, for fixed phrases, one after the other.  What they
      compute is the list of those phrases, and what the nodes answer is not in the repository.
    - Of [scripts/try_linux.py], what is printed, the two files of the report, and process groups.
    - The infrastructure files: configuration, which the modelled tools read as parameters.

    What is left of the Python code is of these kinds, or a short script that starts other programs. *)

From stdpp Require Export prelude strings gmap sorting.
From Stdlib Require Export ZArith Lia.
From Stdlib Require Ascii.
Export Stdlib.Strings.Ascii (ascii(..), ascii_of_N, N_of_ascii, ascii_of_nat, nat_of_ascii,
  ascii_nat_embedding, nat_ascii_bounded).
Export (notations) Stdlib.Strings.Ascii.

#[global] Set Default Goal Selector "!".
Open Scope Z_scope.
#[global] Arguments String.append : simpl nomatch.

(** * Python exceptions

    One constructor per exception class the modelled code raises or lets through.  The
    response-plane classes of [response/errors.py] all derive from [ValueError]
    ([is_value_error]), which decides what an [except ValueError] clause catches. *)
Inductive exn : Type :=
| PolicyError (msg : string)
| CorrelationRejected (msg : string)
| CommandRejected (msg : string)
| ValueError (msg : string)
| TypeError (msg : string)
| KeyError (key : string)
| OverflowError (msg : string)
| AssertionError
| RuntimeError (msg : string)
| IntegrityError (msg : string)
| OperationalError (msg : string)
| DeliveryError (code : string) (retryable : bool) (status : option Z)
| FeatureContractError (msg : string)
| FeatureSchemaError (msg : string)
| ConfigError (msg : string)
| AttributeError (name : string)
| IndexError (msg : string)
| OSError (msg : string)
| TimeoutExpired
| ScanLimitExceeded (limit : Z)
| ZeroDivisionError (msg : string)
| ModelProvenanceError (msg : string)
| LstmModelError (msg : string)
| LabelError (msg : string)
| EvaluationError (msg : string)
| DatasetBuildError (msg : string)
| JSONDecodeError (msg : string)
| SystemExit (msg : string)
| KeyboardInterrupt.

#[global] Instance exn_eq_dec : EqDecision exn.
Proof. solve_decision. Defined.

(** [isinstance(e, ValueError)]: the classes declared with [ValueError] as a base. *)
Definition is_value_error (e : exn) : bool :=
  match e with
  | PolicyError _ | CorrelationRejected _ | CommandRejected _ | ValueError _
  | FeatureContractError _ | FeatureSchemaError _ | ConfigError _
  | LabelError _ | EvaluationError _ | DatasetBuildError _ | JSONDecodeError _ => true
  | _ => false
  end.

(** [isinstance(e, RuntimeError)]. *)
Definition is_runtime_error (e : exn) : bool :=
  match e with
  | RuntimeError _ | DeliveryError _ _ _ | ScanLimitExceeded _ | ModelProvenanceError _ | LstmModelError _ => true
  | _ => false
  end.

(** What [except Exception] catches. *)
Definition is_exception (e : exn) : bool :=
  match e with
  | SystemExit _ | KeyboardInterrupt => false
  | _ => true
  end.

(** [str(exc)] for the classes whose message the code copies into records. *)
Definition exn_message (e : exn) : string :=
  match e with
  | PolicyError m | CorrelationRejected m | CommandRejected m | ValueError m | TypeError m
  | OverflowError m | RuntimeError m | IntegrityError m | OperationalError m
  | FeatureContractError m | FeatureSchemaError m | ConfigError m => m
  | KeyError m | AttributeError m | IndexError m | OSError m => m
  | ZeroDivisionError m | ModelProvenanceError m | LstmModelError m | LabelError m | EvaluationError m | DatasetBuildError m | JSONDecodeError m | SystemExit m => m
  | DeliveryError c _ _ => c
  | AssertionError | TimeoutExpired | ScanLimitExceeded _ | KeyboardInterrupt => ""
  end.

(** * Results of pure code that may raise *)
Inductive result (A : Type) : Type :=
| Ok (a : A)
| Err (e : exn).
Arguments Ok {A} a.
Arguments Err {A} e.

Definition rbind {A B} (m : result A) (k : A -> result B) : result B :=
  match m with
  | Ok a => k a
  | Err e => Err e
  end.

(** [if cond: raise e]. *)
Definition raise_if (cond : bool) (e : exn) : result unit :=
  if cond then Err e else Ok tt.

(** [try: m except <handled classes> as exc: handler exc]. *)
Definition try_except {A} (m : result A) (handled : exn -> bool) (h : exn -> result A) : result A :=
  match m with
  | Ok a => Ok a
  | Err e => if handled e then h e else Err e
  end.

Definition is_ok {A} (m : result A) : bool :=
  match m with
  | Ok _ => true
  | Err _ => false
  end.

Declare Scope py_scope.
Delimit Scope py_scope with py.
Notation "'let?' x := m 'in' k" := (rbind m (fun x => k))
  (at level 10, x binder, m at level 100, k at level 200) : py_scope.
Notation "m ;;? k" := (rbind m (fun _ => k))
  (at level 100, k at level 200, right associativity) : py_scope.
Open Scope py_scope.

(** [for item in items: ...] collecting one result per item; the first exception wins. *)
Fixpoint mapR {A B} (f : A -> result B) (l : list A) : result (list B) :=
  match l with
  | [] => Ok []
  | x :: r => let? y := f x in let? ys := mapR f r in Ok (y :: ys)
  end.

(** [mapR] with Python's [enumerate] index. *)
Fixpoint mapiR {A B} (f : Z -> A -> result B) (i : Z) (l : list A) : result (list B) :=
  match l with
  | [] => Ok []
  | x :: r => let? y := f i x in let? ys := mapiR f (i + 1) r in Ok (y :: ys)
  end.

(** A loop that threads an accumulator and may raise. *)
Fixpoint foldR {A B} (f : B -> A -> result B) (acc : B) (l : list A) : result B :=
  match l with
  | [] => Ok acc
  | x :: r => let? acc' := f acc x in foldR f acc' r
  end.

(** [any(f(x) for x in l)]: the first true one ends it. *)
Fixpoint existsR {A} (f : A -> result bool) (l : list A) : result bool :=
  match l with
  | [] => Ok false
  | x :: r => let? b := f x in if b then Ok true else existsR f r
  end.

(** Python's [sorted(l, key=...)] for a boolean order: a stable insertion sort. *)
Fixpoint insert_by {A} (le : A -> A -> bool) (x : A) (l : list A) : list A :=
  match l with
  | [] => [x]
  | y :: r => if le x y then x :: y :: r else y :: insert_by le x r
  end.

Fixpoint sort_by {A} (le : A -> A -> bool) (l : list A) : list A :=
  match l with
  | [] => []
  | x :: r => insert_by le x (sort_by le r)
  end.

(** Association lists: Python dicts with their insertion order kept. *)
Fixpoint assoc {A} (k : string) (l : list (string * A)) : option A :=
  match l with
  | [] => None
  | (k', v) :: r => if String.eqb k k' then Some v else assoc k r
  end.

(** [d[k] = v]: update in place, or append a new key at the end. *)
Fixpoint assoc_set {A} (k : string) (v : A) (l : list (string * A)) : list (string * A) :=
  match l with
  | [] => [(k, v)]
  | (k', v') :: r => if String.eqb k k' then (k', v) :: r else (k', v') :: assoc_set k v r
  end.

(** [d.pop(k, None)]. *)
Definition assoc_del {A} (k : string) (l : list (string * A)) : list (string * A) :=
  filter (fun kv => String.eqb k kv.1 = false) l.

(** Bounded quantification by evaluation, over [n] numbers from [z]. *)
Fixpoint all_from (p : Z -> bool) (n : nat) (z : Z) : bool :=
  match n with
  | O => true
  | S n' => p z && all_from p n' (z + 1)
  end.

(** * Lemmas and automation *)
Create HintDb py.

Lemma all_from_spec p n z k : all_from p n z = true -> z <= k < z + Z.of_nat n -> p k = true.
Proof.
  revert z. induction n as [|n IH]; intros z H Hk; simpl in *; [lia|].
  apply andb_prop in H as [Hz Hr].
  destruct (decide (k = z)) as [->|]; [done|]. apply (IH (z + 1)); [done|lia].
Qed.

Lemma rbind_Ok {A B} (m : result A) (k : A -> result B) b :
  rbind m k = Ok b <-> exists a, m = Ok a /\ k a = Ok b.
Proof.
  destruct m as [a|e]; simpl; split.
  - eauto.
  - by intros (a' & [= <-] & ?).
  - done.
  - by intros (? & ? & _).
Qed.

Lemma rbind_Err {A B} (m : result A) (k : A -> result B) e :
  rbind m k = Err e <-> m = Err e \/ exists a, m = Ok a /\ k a = Err e.
Proof.
  destruct m as [a|e']; simpl; split; eauto.
  - by intros [[=]|(? & [= <-] & ?)].
  - intros [= <-]. by left.
  - by intros [[= <-]|(? & [=] & _)].
Qed.

Lemma raise_if_Ok c e u : raise_if c e = Ok u <-> c = false.
Proof. by destruct c, u. Qed.

Lemma raise_seq_Ok {A} c e (m : result A) a : (raise_if c e ;;? m) = Ok a <-> c = false /\ m = Ok a.
Proof. destruct c; simpl; split; [discriminate|by intros [? _]|done|by intros [_ ?]]. Qed.

Lemma raise_if_Err c e e' : raise_if c e = Err e' <-> c = true /\ e = e'.
Proof.
  destruct c; simpl; split.
  - by intros [= <-].
  - by intros [_ ->].
  - done.
  - by intros [[=] _].
Qed.

Lemma try_except_Ok {A} (m : result A) p h a :
  try_except m p h = Ok a <->
  m = Ok a \/ exists e, m = Err e /\ p e = true /\ h e = Ok a.
Proof.
  destruct m as [a'|e]; simpl.
  { split; [by left|]. intros [?|(? & ? & _)]; [done|discriminate]. }
  destruct (p e) eqn:Hp; split.
  - intros; right; eauto.
  - intros [?|(? & [= <-] & _ & ?)]; [discriminate|done].
  - discriminate.
  - intros [?|(? & [= <-] & ? & _)]; [discriminate|congruence].
Qed.

Lemma is_ok_true {A} (m : result A) : is_ok m = true <-> exists a, m = Ok a.
Proof. destruct m as [a|e]; simpl; split; eauto; [discriminate|]. intros [? [=]]. Qed.

(** Turns [m = Ok a] for a composed computation into the facts about its steps. *)
Ltac ok_inv :=
  repeat match goal with
  | H : Ok _ = Ok _ |- _ => injection H as H
  | H : Err _ = Ok _ |- _ => discriminate H
  | H : Ok _ = Err _ |- _ => discriminate H
  | H : rbind _ _ = Ok _ |- _ => apply rbind_Ok in H; destruct H as (? & ? & H)
  | H : raise_if _ _ = Ok _ |- _ => apply raise_if_Ok in H
  | H : (if ?b then Err _ else _) = Ok _ |- _ => destruct b eqn:?
  | H : (if ?b then _ else Err _) = Ok _ |- _ => destruct b eqn:?
  | H : (let '(_, _) := ?p in _) = Ok _ |- _ => destruct p eqn:?
  | H : match ?x with _ => _ end = Ok _ |- _ => destruct x eqn:?
  end.

Ltac bool_inv :=
  repeat match goal with
  | H : _ && _ = true |- _ => apply andb_prop in H; destruct H
  | H : _ || _ = false |- _ => apply orb_false_elim in H; destruct H
  | H : negb _ = false |- _ => apply negb_false_iff in H
  | H : negb _ = true |- _ => apply negb_true_iff in H
  | H : String.eqb _ _ = true |- _ => apply String.eqb_eq in H
  | H : String.eqb _ _ = false |- _ => apply String.eqb_neq in H
  | H : bool_decide _ = true |- _ => apply bool_decide_eq_true in H
  | H : bool_decide _ = false |- _ => apply bool_decide_eq_false in H
  | H : Z.eqb _ _ = true |- _ => apply Z.eqb_eq in H
  | H : Z.eqb _ _ = false |- _ => apply Z.eqb_neq in H
  | H : Z.leb _ _ = true |- _ => apply Z.leb_le in H
  | H : Z.leb _ _ = false |- _ => apply Z.leb_gt in H
  | H : Z.ltb _ _ = true |- _ => apply Z.ltb_lt in H
  | H : Z.ltb _ _ = false |- _ => apply Z.ltb_ge in H
  end.

Lemma Forall2_elem_l {A B} (P : A -> B -> Prop) l k x : Forall2 P l k -> x ∈ l -> exists y, y ∈ k /\ P x y.
Proof.
  induction 1 as [|a b l k Hab _ IH]; intros Hx; [by apply elem_of_nil in Hx|]. apply elem_of_cons in Hx as [->|Hx].
  - exists b. by split; [left|].
  - destruct (IH Hx) as (y & Hy & HP). exists y. by split; [right|].
Qed.

Lemma Forall2_elem_r {A B} (P : A -> B -> Prop) l k y : Forall2 P l k -> y ∈ k -> exists x, x ∈ l /\ P x y.
Proof. intros H%Forall2_flip Hy. destruct (Forall2_elem_l _ _ _ _ H Hy) as (x & Hx & HP). by exists x. Qed.

Lemma mapR_Forall2 {A B} (f : A -> result B) l r :
  mapR f l = Ok r <-> Forall2 (fun x y => f x = Ok y) l r.
Proof.
  revert r. induction l as [|x l IH]; intros r; simpl.
  - split; [by intros [= <-]|]. by inversion 1.
  - rewrite rbind_Ok. setoid_rewrite rbind_Ok. split.
    + intros (y & Hy & ys & Hys & [= <-]). constructor; [done|by apply IH].
    + inversion 1 as [|? y ? ys Hy Hys]; subst. exists y. split; [done|].
      exists ys. by rewrite IH.
Qed.

Lemma mapR_length {A B} (f : A -> result B) l r : mapR f l = Ok r -> length r = length l.
Proof. intros H. apply mapR_Forall2 in H. symmetry. by eapply Forall2_length. Qed.

Lemma mapiR_Forall2 {A B} (f : Z -> A -> result B) i l r :
  mapiR f i l = Ok r -> Forall2 (fun x y => exists j, f j x = Ok y) l r.
Proof.
  revert i r. induction l as [|x l IH]; intros i r H; simpl in *; ok_inv; subst; [constructor|].
  constructor; eauto.
Qed.

Lemma mapR_Forall {A B} (f : A -> result B) (P : B -> Prop) l r :
  mapR f l = Ok r -> (forall x y, f x = Ok y -> P y) -> Forall P r.
Proof. intros H Hf. apply mapR_Forall2 in H. induction H; constructor; eauto. Qed.

Lemma mapiR_Forall {A B} (f : Z -> A -> result B) (P : B -> Prop) i l r :
  mapiR f i l = Ok r -> (forall j x y, f j x = Ok y -> P y) -> Forall P r /\ length r = length l.
Proof.
  intros H Hf. apply mapiR_Forall2 in H. split; [|symmetry; by eapply Forall2_length].
  induction H as [|x y ? ? (j & Hj)]; constructor; eauto.
Qed.

(** Rule of [foldR]: an invariant kept by every step holds of the result. *)
Lemma foldR_inv {A B} (P : B -> Prop) (f : B -> A -> result B) acc l r :
  P acc ->
  (forall b x b', x ∈ l -> P b -> f b x = Ok b' -> P b') ->
  foldR f acc l = Ok r -> P r.
Proof.
  revert acc. induction l as [|x l IH]; intros acc HP Hstep H; simpl in *; ok_inv; subst; [done|].
  eapply IH; [| |done].
  - eapply Hstep; [|done|done]. set_solver.
  - intros. eapply Hstep; [|done|done]. set_solver.
Qed.

Lemma foldR_app {A B} (f : B -> A -> result B) acc l1 l2 :
  foldR f acc (l1 ++ l2) = rbind (foldR f acc l1) (fun b => foldR f b l2).
Proof. revert acc. induction l1 as [|x l1 IH]; intros; simpl; [done|]. destruct (f acc x); simpl; auto. Qed.

Lemma NoDup_map_filter {A B} (f : A -> B) (p : A -> bool) l : NoDup (map f l) -> NoDup (map f (List.filter p l)).
Proof.
  induction l as [|x l IH]; cbn [map List.filter]; [done|]. intros Hnd. apply NoDup_cons in Hnd as [Hx Hnd].
  destruct (p x); cbn [map]; [|auto]. apply NoDup_cons. split; [|auto]. intros Hin. apply Hx.
  apply list_elem_of_In, in_map_iff in Hin as (y & Hy & Hin). rewrite <- Hy.
  apply filter_In in Hin as [Hin _]. apply list_elem_of_fmap_2. by apply list_elem_of_In.
Qed.

Lemma NoDup_map_inj {X Y} (f : X -> Y) l x y : NoDup (map f l) -> x ∈ l -> y ∈ l -> f x = f y -> x = y.
Proof.
  induction l as [|z l IH]; simpl; [set_solver|]. intros [Hz Hl]%NoDup_cons.
  intros [->|Hx]%elem_of_cons [->|Hy]%elem_of_cons Hf; [done|..].
  - exfalso. apply Hz. rewrite Hf. by apply list_elem_of_fmap_2.
  - exfalso. apply Hz. rewrite <- Hf. by apply list_elem_of_fmap_2.
  - by apply IH.
Qed.

Section sort_by.
Context {A : Type} (le : A -> A -> bool).

Lemma insert_by_perm x l : insert_by le x l ≡ₚ x :: l.
Proof.
  induction l as [|y l IH]; simpl; [done|]. destruct (le x y); [done|].
  rewrite IH. by constructor.
Qed.

Lemma sort_by_perm l : sort_by le l ≡ₚ l.
Proof. induction l as [|x l IH]; simpl; [done|]. rewrite insert_by_perm. by constructor. Qed.

Lemma sort_by_elem x l : x ∈ sort_by le l <-> x ∈ l.
Proof. by rewrite sort_by_perm. Qed.

Lemma sort_by_length l : length (sort_by le l) = length l.
Proof. by rewrite sort_by_perm. Qed.

Lemma sort_by_nil_iff l : sort_by le l = [] <-> l = [].
Proof.
  split; [|by intros ->]. intros H. apply length_zero_iff_nil.
  rewrite <- sort_by_length, H. done.
Qed.

Hypothesis le_total : forall x y, le x y = true \/ le y x = true.
Hypothesis le_trans : forall x y z, le x y = true -> le y z = true -> le x z = true.

Lemma insert_by_sorted x l :
  StronglySorted (fun a b => le a b = true) l ->
  StronglySorted (fun a b => le a b = true) (insert_by le x l).
Proof.
  induction 1 as [|y l Hl IH Hy]; simpl; [repeat constructor|].
  destruct (le x y) eqn:Hxy.
  - constructor; [by constructor|]. constructor; [done|].
    eapply Forall_impl; [done|]. simpl. eauto.
  - constructor; [done|]. rewrite insert_by_perm. constructor; [|done].
    destruct (le_total x y); congruence.
Qed.

Lemma sort_by_sorted l : StronglySorted (fun a b => le a b = true) (sort_by le l).
Proof. induction l; simpl; [constructor|]. by apply insert_by_sorted. Qed.

Lemma sort_by_id l : StronglySorted (fun a b => le a b = true) l -> sort_by le l = l.
Proof.
  induction 1 as [|x l Hl IH Hx]; simpl; [done|]. rewrite IH.
  destruct l as [|y l]; simpl; [done|]. apply Forall_cons_1 in Hx as [Hxy _]. by rewrite Hxy.
Qed.

(** The result of sorting does not depend on the order of the input when the
    order separates its elements. *)
Lemma sort_by_unique l1 l2 :
  (forall x y, x ∈ l1 -> y ∈ l1 -> le x y = true -> le y x = true -> x = y) ->
  l1 ≡ₚ l2 -> sort_by le l1 = sort_by le l2.
Proof.
  intros Hanti Hperm.
  assert (Hp : sort_by le l1 ≡ₚ sort_by le l2) by by rewrite !sort_by_perm.
  pose proof (sort_by_sorted l1) as H1. pose proof (sort_by_sorted l2) as H2.
  assert (Hanti' : forall x y, x ∈ sort_by le l1 -> y ∈ sort_by le l1 ->
    le x y = true -> le y x = true -> x = y).
  { intros x y. rewrite !sort_by_elem. apply Hanti. }
  revert Hp H1 H2 Hanti'. generalize (sort_by le l1) (sort_by le l2). clear.
  intros s1 s2 Hp H1. revert s2 Hp.
  induction H1 as [|x s1 Hs1 IH Hx]; intros s2 Hp H2 Hanti.
  { apply Permutation_nil in Hp. done. }
  destruct H2 as [|y s2 Hs2 Hy].
  { symmetry in Hp. apply Permutation_nil in Hp. done. }
  assert (x = y) as <-.
  { assert (x ∈ y :: s2) as Hxin by (rewrite <- Hp; set_solver).
    assert (y ∈ x :: s1) as Hyin by (rewrite Hp; set_solver).
    apply elem_of_cons in Hxin as [->|Hxin]; [done|].
    apply elem_of_cons in Hyin as [->|Hyin]; [done|].
    rewrite Forall_forall in Hx, Hy.
    apply Hanti; [set_solver|set_solver|eauto|eauto]. }
  f_equal. apply Permutation_cons_inv in Hp. apply IH; [done|done|].
  intros; apply Hanti; set_solver.
Qed.
End sort_by.

Section assoc.
Context {A : Type}.
Implicit Types (l : list (string * A)).

Lemma assoc_set_eq k v l : assoc k (assoc_set k v l) = Some v.
Proof.
  induction l as [|[k' v'] l IH]; simpl; [by rewrite String.eqb_refl|].
  destruct (String.eqb k k') eqn:E; simpl; by rewrite E.
Qed.

Lemma assoc_set_ne k k' v l : k <> k' -> assoc k' (assoc_set k v l) = assoc k' l.
Proof.
  intros Hne. induction l as [|[k0 v0] l IH]; simpl.
  - by rewrite (proj2 (String.eqb_neq k' k)) by congruence.
  - destruct (String.eqb_spec k k0) as [<-|]; simpl; [|by rewrite IH].
    by rewrite (proj2 (String.eqb_neq k' k)) by congruence.
Qed.

Lemma assoc_set_Forall (P : string * A -> Prop) k v l : P (k, v) -> Forall P l -> Forall P (assoc_set k v l).
Proof.
  intros Hv. induction 1 as [|[k' v'] l Hx Hl IH]; simpl; [by repeat constructor|].
  destruct (String.eqb_spec k k') as [<-|]; by constructor.
Qed.

Lemma assoc_elem k v l : assoc k l = Some v -> (k, v) ∈ l.
Proof.
  induction l as [|[k' v'] l IH]; simpl; [done|].
  destruct (String.eqb_spec k k') as [<-|]; [|set_solver]. intros [= ->]. set_solver.
Qed.

Lemma assoc_None k l : assoc k l = None <-> k ∉ l.*1.
Proof.
  induction l as [|[k' v'] l IH]; simpl; [set_solver|].
  destruct (String.eqb_spec k k') as [<-|]; set_solver.
Qed.

Lemma assoc_Some_NoDup k v l : NoDup l.*1 -> (k, v) ∈ l -> assoc k l = Some v.
Proof.
  induction l as [|[k' v'] l IH]; simpl; [set_solver|].
  rewrite NoDup_cons, elem_of_cons. intros [Hk Hl] [[= <- <-]|Hin]; [by rewrite String.eqb_refl|].
  destruct (String.eqb_spec k k') as [<-|]; [|by auto].
  exfalso. apply Hk, list_elem_of_fmap. by exists (k, v).
Qed.

Lemma assoc_perm k l1 l2 : NoDup l1.*1 -> l1 ≡ₚ l2 -> assoc k l1 = assoc k l2.
Proof.
  intros Hnd Hp. assert (Hnd2 : NoDup l2.*1) by by rewrite <- Hp.
  destruct (assoc k l1) eqn:E1.
  - symmetry. apply assoc_Some_NoDup; [done|]. rewrite <- Hp. by apply assoc_elem.
  - symmetry. rewrite assoc_None in *. by rewrite <- Hp.
Qed.
End assoc.
