(* ===== verification/PyText.v ===== *)
(** Python text: the [str] operations the modelled code uses.

    A Python string is modelled as a Rocq [string] whose characters are the code points
    U+0000 to U+00FF, so that case mapping, white space and UTF-8 encoding are the ones of
    that range (Latin-1).  Text outside the range is not modelled. *)

From S2P Require Import Prelude.

Definition code (a : ascii) : Z := Z.of_N (N_of_ascii a).
Definition chr (z : Z) : ascii := ascii_of_N (Z.to_N z).
Definition dquote : ascii := "034"%char.
Definition str1 (a : ascii) : string := String a "".

(** [len(s)]. *)
Definition str_len (s : string) : Z := Z.of_nat (String.length s).

Fixpoint str_map (f : ascii -> ascii) (s : string) : string :=
  match s with
  | EmptyString => EmptyString
  | String a r => String (f a) (str_map f r)
  end.

Fixpoint str_forallb (p : ascii -> bool) (s : string) : bool :=
  match s with
  | EmptyString => true
  | String a r => p a && str_forallb p r
  end.

Definition lower_char (a : ascii) : ascii :=
  let c := code a in
  if ((65 <=? c) && (c <=? 90)) || ((192 <=? c) && (c <=? 222) && negb (c =? 215))
  then chr (c + 32) else a.

(** [s.lower()]. *)
Definition py_lower : string -> string := str_map lower_char.

(** [s.upper()] of characters whose uppercase is one Latin-1 character (all but sharp s, micro and
    y with diaeresis). *)
Definition upper_char (a : ascii) : ascii :=
  let c := code a in
  if ((97 <=? c) && (c <=? 122)) || ((224 <=? c) && (c <=? 254) && negb (c =? 247)) then chr (c - 32) else a.

Definition py_upper : string -> string := str_map upper_char.

(** [c.isspace()]. *)
Definition is_space (a : ascii) : bool :=
  let c := code a in
  ((9 <=? c) && (c <=? 13)) || ((28 <=? c) && (c <=? 32)) || (c =? 133) || (c =? 160).

Fixpoint lstrip (s : string) : string :=
  match s with
  | EmptyString => EmptyString
  | String a r => if is_space a then lstrip r else s
  end.

Fixpoint rstrip_by (p : ascii -> bool) (s : string) : string :=
  match s with
  | EmptyString => EmptyString
  | String a r =>
      match rstrip_by p r with
      | EmptyString => if p a then EmptyString else str1 a
      | r' => String a r'
      end
  end.

Definition rstrip : string -> string := rstrip_by is_space.

(** [s.strip()]. *)
Definition strip (s : string) : string := lstrip (rstrip s).

(** [c in s] for a one-character [c]. *)
Definition str_has (c : ascii) (s : string) : bool := negb (str_forallb (fun a => negb (Ascii.eqb a c)) s).

(** [sub in s]. *)
Fixpoint str_contains (sub s : string) : bool :=
  String.prefix sub s ||
  match s with
  | EmptyString => false
  | String _ r => str_contains sub r
  end.

(** [s.startswith(p)] and [s.endswith(p)]. *)
Definition starts_with (p s : string) : bool := String.prefix p s.
Definition str_skip (n : nat) (s : string) : string := String.substring n (String.length s - n) s.
Definition str_take (n : nat) (s : string) : string := String.substring 0 n s.
(** [s[-n:]]. *)
Definition str_last (n : nat) (s : string) : string := str_skip (String.length s - n) s.
Definition ends_with (p s : string) : bool :=
  (String.length p <=? String.length s)%nat && String.eqb (str_last (String.length p) s) p.

(** [s.split(c)] for a one-character separator. *)
Fixpoint split_on (c : ascii) (s : string) : list string :=
  match s with
  | EmptyString => [""]
  | String a r =>
      if Ascii.eqb a c then "" :: split_on c r
      else match split_on c r with
           | w :: ws => String a w :: ws
           | [] => [str1 a]
           end
  end.

(** [s.partition(c)] as (before, found, after). *)
Fixpoint partition_on (c : ascii) (s : string) : string * bool * string :=
  match s with
  | EmptyString => ("", false, "")
  | String a r =>
      if Ascii.eqb a c then ("", true, r)
      else let '(x, f, y) := partition_on c r in (String a x, f, y)
  end.

(** [sep.join(parts)]. *)
Fixpoint str_join (sep : string) (parts : list string) : string :=
  match parts with
  | [] => ""
  | [x] => x
  | x :: r => x +:+ sep +:+ str_join sep r
  end.

(** [''.join(parts)]. *)
Definition concat_str (parts : list string) : string := foldr String.append "" parts.

(** [s.replace(c, t)] for a one-character [c]. *)
Fixpoint replace_char (c : ascii) (t : string) (s : string) : string :=
  match s with
  | EmptyString => ""
  | String a r => (if Ascii.eqb a c then t else str1 a) +:+ replace_char c t r
  end.

(** Code point order of Python's [<=] on strings. *)
Definition str_leb (a b : string) : bool := String.leb a b.

(** * Digits *)
Definition digit_char (d : Z) : ascii := if d <? 10 then chr (48 + d) else chr (87 + d).

Definition digit_val (a : ascii) : option Z :=
  let c := code a in
  if (48 <=? c) && (c <=? 57) then Some (c - 48)
  else if (97 <=? c) && (c <=? 102) then Some (c - 87)
  else if (65 <=? c) && (c <=? 70) then Some (c - 55)
  else None.

Definition is_ascii_digit (a : ascii) : bool := (48 <=? code a) && (code a <=? 57).

Fixpoint digits_aux (base : Z) (fuel : nat) (n : Z) (acc : string) : string :=
  match fuel with
  | O => acc
  | S f =>
      let acc' := String (digit_char (n mod base)) acc in
      if n <? base then acc' else digits_aux base f (n / base) acc'
  end.

(** Digits of a non-negative number; [log2] steps are enough for any base of at least 2. *)
Definition digits (base n : Z) : string := digits_aux base (S (Z.to_nat (Z.log2 n))) n "".

(** [str(n)] of an int, and the [%x] conversion. *)
Definition str_of_Z (n : Z) : string := if n <? 0 then "-" +:+ digits 10 (- n) else digits 10 n.
Definition hex_of_Z (n : Z) : string := digits 16 n.

(** Zero-padded decimal of a fixed width (a [%0wd] conversion of a number that fits). *)
Fixpoint dec_pad (w : nat) (n : Z) : string :=
  match w with
  | O => ""
  | S w' => dec_pad w' (n / 10) +:+ str1 (digit_char (n mod 10))
  end.

Fixpoint parse_acc (base acc : Z) (s : string) : option Z :=
  match s with
  | EmptyString => Some acc
  | String a r =>
      match digit_val a with
      | Some d => if d <? base then parse_acc base (acc * base + d) r else None
      | None => None
      end
  end.

(** The value of a non-empty string of digits of the base. *)
Definition parse_digits (base : Z) (s : string) : option Z :=
  match s with
  | EmptyString => None
  | _ => parse_acc base 0 s
  end.

(** [repr] of a string of code points up to U+00FF, and of a list of strings, as the error
    messages print them. *)
Definition repr_char (quote a : ascii) : string :=
  let c := code a in
  if Ascii.eqb a quote || Ascii.eqb a "\" then String "\" (str1 a)
  else if c =? 10 then "\n"
  else if c =? 13 then "\r"
  else if c =? 9 then "\t"
  else if (c <? 32) || ((127 <=? c) && (c <=? 160)) || (c =? 173)
  then "\x" +:+ str1 (digit_char (c / 16)) +:+ str1 (digit_char (c mod 16))
  else str1 a.

Fixpoint repr_chars (quote : ascii) (s : string) : string :=
  match s with
  | EmptyString => ""
  | String a r => repr_char quote a +:+ repr_chars quote r
  end.

Definition py_repr (s : string) : string :=
  let quote := if str_has "'" s && negb (str_has dquote s) then dquote else "'"%char in
  str1 quote +:+ repr_chars quote s +:+ str1 quote.

Definition py_repr_list (l : list string) : string := "[" +:+ str_join ", " (map py_repr l) +:+ "]".

(** [s.encode()] for code points up to U+00FF: UTF-8 bytes as integers. *)
Definition utf8_char (a : ascii) : list Z :=
  let c := code a in if c <? 128 then [c] else [192 + c / 64; 128 + c mod 64].

Fixpoint utf8 (s : string) : list Z :=
  match s with
  | EmptyString => []
  | String a r => utf8_char a ++ utf8 r
  end.

(** * Lemmas *)
Lemma app_nil_str s : s +:+ "" = s.
Proof. induction s as [|a s IH]; simpl; [done|]. by f_equal. Qed.

Lemma substring_all s : String.substring 0 (String.length s) s = s.
Proof. induction s as [|a s IH]; simpl; [done|]. by f_equal. Qed.

Lemma str_skip_0 s : str_skip 0 s = s.
Proof. unfold str_skip. by rewrite Nat.sub_0_r, substring_all. Qed.

Lemma str_skip_cons n a s : str_skip (S n) (String a s) = str_skip n s.
Proof. done. Qed.

Lemma app_assoc_str a b c : (a +:+ b) +:+ c = a +:+ (b +:+ c).
Proof. induction a as [|x a IH]; simpl; [done|]. by f_equal. Qed.

Lemma str_skip_app a b : str_skip (String.length a) (a +:+ b) = b.
Proof. induction a as [|x a IH]; [apply str_skip_0|]. exact IH. Qed.

Lemma str_length_app a b : String.length (a +:+ b) = (String.length a + String.length b)%nat.
Proof. induction a as [|x a IH]; [done|]. cbn. by rewrite IH. Qed.

(** The ends of two equal texts agree, when they are as long as each other. *)
Lemma str_app_end a b x y : a +:+ x = b +:+ y -> String.length x = String.length y -> x = y.
Proof.
  revert b. induction a as [|c a IH]; intros [|d b] H Hl; simpl in H.
  - done.
  - subst x. simpl in Hl. rewrite str_length_app in Hl. lia.
  - subst y. simpl in Hl. rewrite str_length_app in Hl. lia.
  - injection H as _ H. by eapply IH.
Qed.

Lemma ends_with_app a b : ends_with b (a +:+ b) = true.
Proof.
  unfold ends_with, str_last. rewrite str_length_app.
  assert ((String.length b <=? String.length a + String.length b)%nat = true) as -> by (apply Nat.leb_le; lia).
  replace (String.length a + String.length b - String.length b)%nat with (String.length a) by lia.
  rewrite str_skip_app. by apply String.eqb_eq.
Qed.

Lemma replace_char_app c t a b :
  replace_char c t (a +:+ b) = replace_char c t a +:+ replace_char c t b.
Proof. induction a as [|x a IH]; simpl; [done|]. by rewrite IH, app_assoc_str. Qed.

(** A decidable fact about all 256 characters is checked by enumeration. *)
Lemma all_ascii (p : ascii -> bool) :
  forallb (fun n => p (ascii_of_nat n)) (seq 0 256) = true -> forall a, p a = true.
Proof.
  intros H a. rewrite forallb_forall in H. rewrite <- (ascii_nat_embedding a).
  apply H, in_seq. split; [lia|]. simpl. apply nat_ascii_bounded.
Qed.

Lemma str_forallb_app p s t : str_forallb p (s +:+ t) = str_forallb p s && str_forallb p t.
Proof. induction s as [|a s IH]; simpl; [done|]. by rewrite IH, andb_assoc. Qed.

Lemma str_forallb_impl (p q : ascii -> bool) s :
  (forall a, p a = true -> q a = true) -> str_forallb p s = true -> str_forallb q s = true.
Proof.
  intros Hpq. induction s as [|a s IH]; simpl; [done|].
  rewrite !andb_true_iff. naive_solver.
Qed.

Lemma lower_char_idem a : lower_char (lower_char a) = lower_char a.
Proof.
  apply Ascii.eqb_eq. revert a.
  apply (all_ascii (fun a => Ascii.eqb (lower_char (lower_char a)) (lower_char a))). by vm_compute.
Qed.

Lemma is_space_lower a : is_space (lower_char a) = is_space a.
Proof.
  apply Bool.eqb_prop. revert a.
  apply (all_ascii (fun a => Bool.eqb (is_space (lower_char a)) (is_space a))). by vm_compute.
Qed.

Lemma py_lower_idem s : py_lower (py_lower s) = py_lower s.
Proof.
  unfold py_lower. induction s as [|a s IH]; simpl; [done|]. f_equal; [apply lower_char_idem|done].
Qed.

Lemma str_map_length f s : String.length (str_map f s) = String.length s.
Proof. induction s; simpl; congruence. Qed.

Lemma lstrip_lower s : lstrip (py_lower s) = py_lower (lstrip s).
Proof.
  induction s as [|a s IH]; simpl; [done|]. rewrite is_space_lower. by destruct (is_space a).
Qed.

Lemma rstrip_lower s : rstrip (py_lower s) = py_lower (rstrip s).
Proof.
  unfold rstrip, py_lower. induction s as [|a s IH]; simpl; [done|]. rewrite IH.
  destruct (rstrip_by is_space s); simpl; [|done]. rewrite is_space_lower. by destruct (is_space a).
Qed.

Lemma strip_lower s : strip (py_lower s) = py_lower (strip s).
Proof. unfold strip. by rewrite rstrip_lower, lstrip_lower. Qed.

Lemma rstrip_by_idem p s : rstrip_by p (rstrip_by p s) = rstrip_by p s.
Proof.
  induction s as [|a s IH]; simpl; [done|].
  destruct (rstrip_by p s) eqn:E.
  - destruct (p a) eqn:Ha; simpl; [done|]. by rewrite Ha.
  - change (String a (String a0 s0)) with (String a (String a0 s0)).
    cbn [rstrip_by] in IH |- *. rewrite IH. done.
Qed.

Lemma lstrip_idem s : lstrip (lstrip s) = lstrip s.
Proof.
  induction s as [|a s IH]; simpl; [done|]. destruct (is_space a) eqn:E; simpl; [done|]. by rewrite E.
Qed.

Lemma rstrip_lstrip s : rstrip (lstrip s) = lstrip (rstrip s).
Proof.
  unfold rstrip. induction s as [|a s IH]; simpl; [done|].
  destruct (is_space a) eqn:Ha; simpl.
  - rewrite IH. destruct (rstrip_by is_space s); simpl; [done|]. by rewrite Ha.
  - destruct (rstrip_by is_space s); simpl; by rewrite ?Ha; simpl; rewrite ?Ha.
Qed.

Lemma strip_idem s : strip (strip s) = strip s.
Proof.
  unfold strip. rewrite rstrip_lstrip, lstrip_idem. unfold rstrip. by rewrite rstrip_by_idem.
Qed.

Lemma split_on_nonnil c s : split_on c s <> [].
Proof. destruct s as [|a s]; simpl; [done|]. destruct (Ascii.eqb a c); [done|]. by destruct (split_on c s). Qed.

Lemma split_on_single c w :
  str_forallb (fun a => negb (Ascii.eqb a c)) w = true -> split_on c w = [w].
Proof.
  induction w as [|a w IH]; simpl; [done|]. rewrite andb_true_iff, negb_true_iff.
  intros [-> Hw]. by rewrite IH.
Qed.

Lemma split_on_cons c w s :
  str_forallb (fun a => negb (Ascii.eqb a c)) w = true ->
  split_on c (w +:+ String c s) = w :: split_on c s.
Proof.
  induction w as [|a w IH]; simpl; [by rewrite Ascii.eqb_refl|].
  rewrite andb_true_iff, negb_true_iff. intros [-> Hw]. by rewrite IH.
Qed.

(** [s.split(c)] undoes [c.join(parts)] when no part holds the separator. *)
Lemma split_on_join c parts :
  parts <> [] ->
  Forall (fun w => str_forallb (fun a => negb (Ascii.eqb a c)) w = true) parts ->
  split_on c (str_join (str1 c) parts) = parts.
Proof.
  intros Hne Hall. induction Hall as [|w r Hw Hr IH]; [done|].
  destruct r as [|w' r]; [by apply split_on_single|].
  change (split_on c (w +:+ String c (str_join (str1 c) (w' :: r))) = w :: w' :: r).
  by rewrite split_on_cons, IH.
Qed.

Lemma digit_val_char d : 0 <= d < 16 -> digit_val (digit_char d) = Some d.
Proof.
  intros Hd. assert (H : forallb (fun n => bool_decide (digit_val (digit_char (Z.of_nat n)) = Some (Z.of_nat n)))
    (seq 0 16) = true) by by vm_compute.
  rewrite forallb_forall in H. specialize (H (Z.to_nat d)).
  rewrite bool_decide_eq_true, Z2Nat.id in H by lia. apply H, in_seq. lia.
Qed.


Lemma parse_acc_digits base fuel n acc :
  2 <= base <= 16 -> (0 < fuel)%nat -> 0 <= n < base ^ Z.of_nat fuel ->
  parse_acc base 0 (digits_aux base fuel n acc) = parse_acc base n acc.
Proof.
  intros Hb. revert n acc. induction fuel as [|fuel IH]; intros n acc Hf Hn; [lia|].
  simpl digits_aux. destruct (n <? base) eqn:E; bool_inv.
  - rewrite Z.mod_small by lia. simpl. rewrite digit_val_char by lia.
    rewrite (proj2 (Z.ltb_lt _ _)) by lia. by rewrite Z.mul_0_l, Z.add_0_l.
  - assert (0 < fuel)%nat as Hf'.
    { destruct fuel; [|lia]. simpl in Hn. lia. }
    rewrite IH; [|done|].
    + simpl. pose proof (Z.mod_pos_bound n base ltac:(lia)).
      rewrite digit_val_char by lia. rewrite (proj2 (Z.ltb_lt _ _)) by lia.
      f_equal. rewrite Z.mul_comm. symmetry. apply Z.div_mod. lia.
    + split; [apply Z.div_pos; lia|]. apply Z.div_lt_upper_bound; [lia|].
      rewrite Nat2Z.inj_succ, Z.pow_succ_r in Hn by lia. lia.
Qed.

Lemma log2_fuel base n : 2 <= base -> 0 <= n -> n < base ^ Z.of_nat (S (Z.to_nat (Z.log2 n))).
Proof.
  intros Hb Hn. rewrite Nat2Z.inj_succ, Z2Nat.id by apply Z.log2_nonneg.
  destruct (decide (n = 0)) as [->|Hn0].
  { apply Z.pow_pos_nonneg; [lia|]. pose proof (Z.log2_nonneg 0). lia. }
  eapply Z.lt_le_trans; [apply Z.log2_spec; lia|]. apply Z.pow_le_mono_l.
  split; [lia|lia].
Qed.

(** Reading back the printed digits gives the number. *)
Lemma parse_digits_digits base n :
  2 <= base <= 16 -> 0 <= n -> parse_digits base (digits base n) = Some n.
Proof.
  intros Hb Hn. unfold parse_digits, digits.
  assert (H : parse_acc base 0 (digits_aux base (S (Z.to_nat (Z.log2 n))) n "") = Some n).
  { rewrite parse_acc_digits; [done|done|lia|]. split; [done|]. apply log2_fuel; lia. }
  destruct (digits_aux base (S (Z.to_nat (Z.log2 n))) n "") eqn:E; [|done].
  exfalso. clear H. revert E. generalize (Z.to_nat (Z.log2 n)) as f. intros f.
  assert (Hne : forall fuel m acc, acc <> "" -> digits_aux base fuel m acc <> "").
  { induction fuel as [|fuel IH]; intros; simpl; [done|]. destruct (m <? base); [done|]. by apply IH. }
  simpl. destruct (n <? base); [done|]. by apply Hne.
Qed.

(** Every character of a printed number is a digit of the base, and their count is bounded. *)
Lemma digits_aux_chars p base fuel n acc :
  0 < base -> (forall d, 0 <= d < base -> p (digit_char d) = true) ->
  str_forallb p acc = true -> str_forallb p (digits_aux base fuel n acc) = true.
Proof.
  intros Hb Hp. revert n acc. induction fuel as [|fuel IH]; intros n acc Ha; simpl; [done|].
  assert (p (digit_char (n mod base)) && str_forallb p acc = true) as Hs.
  { rewrite Hp, Ha; [done|]. apply Z.mod_pos_bound. lia. }
  destruct (n <? base); [exact Hs|]. by apply IH.
Qed.

Lemma digits_aux_length base k fuel n acc :
  0 < base -> 0 <= n < base ^ (Z.of_nat (S k)) ->
  (String.length (digits_aux base fuel n acc) <= S k + String.length acc)%nat.
Proof.
  intros Hb. revert k n acc. induction fuel as [|fuel IH]; intros k n acc Hn; simpl; [lia|].
  destruct (n <? base) eqn:E; bool_inv; simpl; [lia|]. destruct k as [|k].
  { exfalso. change (Z.of_nat 1) with 1 in Hn. rewrite Z.pow_1_r in Hn. lia. }
  specialize (IH k (n / base) (String (digit_char (n mod base)) acc)). simpl in IH. rewrite Nat.add_succ_r in IH.
  apply IH. split; [apply Z.div_pos; lia|]. apply Z.div_lt_upper_bound; [lia|].
  rewrite Nat2Z.inj_succ, Z.pow_succ_r in Hn by lia. lia.
Qed.

(** * The order of strings is total *)
Lemma str_leb_cons a s b t :
  str_leb (String a s) (String b t) = match N.compare (N_of_ascii a) (N_of_ascii b) with
                                      | Eq => str_leb s t
                                      | Lt => true
                                      | Gt => false
                                      end.
Proof. unfold str_leb, String.leb. simpl. unfold Ascii.compare. by destruct (N.compare _ _). Qed.

Lemma str_leb_total s t : str_leb s t = true \/ str_leb t s = true.
Proof. apply String.leb_total. Qed.

Lemma str_leb_antisym s t : str_leb s t = true -> str_leb t s = true -> s = t.
Proof. apply String.leb_antisym. Qed.

Lemma str_leb_trans s t u : str_leb s t = true -> str_leb t u = true -> str_leb s u = true.
Proof.
  revert t u. induction s as [|a s IH]; intros t u H1 H2; [by destruct u|].
  destruct t as [|b t]; [done|]. destruct u as [|c u]; [done|].
  rewrite str_leb_cons in *.
  destruct (N.compare_spec (N_of_ascii a) (N_of_ascii b)) as [E1|L1|G1]; [|..|done];
    destruct (N.compare_spec (N_of_ascii b) (N_of_ascii c)) as [E2|L2|G2]; try done;
    destruct (N.compare_spec (N_of_ascii a) (N_of_ascii c)) as [E3|L3|G3]; try done; try lia.
  by eapply IH.
Qed.
