(* ===== verification/PyNum.v ===== *)
(** Python numbers: unbounded [int] and IEEE-754 binary64 [float].

    A float is the library's [spec_float] at precision 53 and maximal exponent 1024, so every
    comparison and conversion is exact and evaluates.  Comparing an int with a float compares
    their exact values, as CPython does.  The correctly rounded quotient of two counts stays between
    0 and 1, and the order of Python numbers is a total preorder on everything but NaN. *)

From S2P Require Import Prelude PyText.
From Stdlib Require Export SpecFloat.

Inductive pynum : Type :=
| PInt (z : Z)
| PFloat (f : spec_float).

#[global] Instance spec_float_eq_dec : EqDecision spec_float.
Proof. solve_decision. Defined.
#[global] Instance pynum_eq_dec : EqDecision pynum.
Proof. solve_decision. Defined.

(** Exact value: [XFin m e] is m * 2^e. *)
Inductive xval : Type :=
| XNan
| XInf (neg : bool)
| XFin (m e : Z).

Definition num_x (n : pynum) : xval :=
  match n with
  | PInt z => XFin z 0
  | PFloat (S754_zero _) => XFin 0 0
  | PFloat (S754_infinity s) => XInf s
  | PFloat S754_nan => XNan
  | PFloat (S754_finite s m e) => XFin (if s then Zneg m else Zpos m) e
  end.

Definition fin_compare (m1 e1 m2 e2 : Z) : comparison :=
  let e := Z.min e1 e2 in Z.compare (m1 * 2 ^ (e1 - e)) (m2 * 2 ^ (e2 - e)).

(** [None] when a NaN is involved: every ordering test on it is false. *)
Definition num_compare (a b : pynum) : option comparison :=
  match num_x a, num_x b with
  | XNan, _ | _, XNan => None
  | XInf s, XInf s' => Some (if Bool.eqb s s' then Eq else if s then Lt else Gt)
  | XInf s, XFin _ _ => Some (if s then Lt else Gt)
  | XFin _ _, XInf s => Some (if s then Gt else Lt)
  | XFin m1 e1, XFin m2 e2 => Some (fin_compare m1 e1 m2 e2)
  end.

Definition num_ltb (a b : pynum) : bool :=
  match num_compare a b with
  | Some Lt => true
  | _ => false
  end.
Definition num_leb (a b : pynum) : bool :=
  match num_compare a b with
  | Some Lt | Some Eq => true
  | _ => false
  end.
Definition num_eqb (a b : pynum) : bool :=
  match num_compare a b with
  | Some Eq => true
  | _ => false
  end.

Definition float_of_Z (z : Z) : spec_float := binary_normalize 53 1024 z 0 false.

(** [float(n)]: an int too large for a double raises [OverflowError]. *)
Definition py_float (n : pynum) : result spec_float :=
  match n with
  | PFloat f => Ok f
  | PInt z =>
      match float_of_Z z with
      | S754_infinity _ => Err (OverflowError "int too large to convert to float")
      | f => Ok f
      end
  end.

(** [math.isfinite(n)], which converts an int to a double first. *)
Definition py_isfinite (n : pynum) : result bool :=
  let? f := py_float n in
  Ok match f with
     | S754_infinity _ | S754_nan => false
     | _ => true
     end.

(** [int(n)]: truncation towards zero. *)
Definition py_int (n : pynum) : result Z :=
  match num_x n with
  | XNan => Err (ValueError "cannot convert float NaN to integer")
  | XInf _ => Err (OverflowError "cannot convert float infinity to integer")
  | XFin m e => Ok (if 0 <=? e then m * 2 ^ e else Z.quot m (2 ^ (- e)))
  end.

(** [a / b] of two ints (correctly rounded), for a non-negative [a] and a positive [b]. *)
Definition int_truediv (a b : Z) : spec_float :=
  match a, b with
  | Zpos p, Zpos q => SFdiv 53 1024 (S754_finite false p 0) (S754_finite false q 0)
  | _, _ => S754_zero false
  end.

(** The quotient rounded to the nearest integer, ties to even. *)
Definition div_half_even (a b : Z) : Z :=
  let q := a / b in
  match Z.compare (2 * (a mod b)) b with
  | Lt => q
  | Gt => q + 1
  | Eq => if Z.even q then q else q + 1
  end.

(** The [.2f] format of a finite float. *)
Definition format_2f (f : spec_float) : string :=
  match num_x (PFloat f) with
  | XFin m e =>
      let h := if 0 <=? e then Z.abs m * 2 ^ e * 100 else div_half_even (Z.abs m * 100) (2 ^ (- e)) in
      (if m <? 0 then "-" else "") +:+ digits 10 (h / 100) +:+ "." +:+ dec_pad 2 (h mod 100)
  | XInf s => if s then "-inf" else "inf"
  | XNan => "nan"
  end.

(** * Shortest decimal representation: [repr] of a float *)

(** [10^(k-1) <= p/q < 10^k], found from an estimate by at most [fuel] steps. *)
Fixpoint dec_exponent (fuel : nat) (p q k : Z) : Z :=
  match fuel with
  | O => k
  | S f =>
      let ge a b := if 0 <=? b then p >=? a * q * 10 ^ b else p * 10 ^ (- b) >=? a * q in
      if ge 1 k then dec_exponent f p q (k + 1)
      else if negb (ge 1 (k - 1)) then dec_exponent f p q (k - 1)
      else k
  end.

Definition dec_to_float (d x : Z) : spec_float :=
  if 0 <=? x then int_truediv (d * 10 ^ x) 1 else int_truediv d (10 ^ (- x)).

(** Candidates with [n] digits around p/q, the closest one first; the first that reads back. *)
Definition dec_candidate (f : spec_float) (p q k n : Z) : option Z :=
  let s := n - k in
  let num := if 0 <=? s then p * 10 ^ s else p in
  let den := if 0 <=? s then q else q * 10 ^ (- s) in
  let lo := num / den in
  let near := div_half_even num den in
  let far := if near =? lo then lo + 1 else lo in
  if bool_decide (dec_to_float near (k - n) = f) then Some near
  else if bool_decide (dec_to_float far (k - n) = f) then Some far
  else None.

Fixpoint shortest (fuel : nat) (f : spec_float) (p q k n : Z) : Z * Z :=
  match fuel with
  | O => (0, n)
  | S fuel' =>
      match dec_candidate f p q k n with
      | Some d => (d, n)
      | None => shortest fuel' f p q k (n + 1)
      end
  end.

Fixpoint strip_zeros (fuel : nat) (d : Z) : Z :=
  match fuel with
  | O => d
  | S f => if d mod 10 =? 0 then strip_zeros f (d / 10) else d
  end.

Fixpoint zeros (n : nat) : string :=
  match n with
  | O => ""
  | S m => String "0" (zeros m)
  end.

(** Digits [ds] with the decimal point after position [decpt]. *)
Definition repr_digits (ds : string) (decpt : Z) : string :=
  let n := str_len ds in
  if (decpt <=? -4) || (16 <? decpt) then
    let x := decpt - 1 in
    str_take 1 ds +:+ (if 1 <? n then "." +:+ str_skip 1 ds else "") +:+ "e" +:+
    (if x <? 0 then "-" else "+") +:+ (if Z.abs x <? 10 then "0" else "") +:+ digits 10 (Z.abs x)
  else if decpt <=? 0 then "0." +:+ zeros (Z.to_nat (- decpt)) +:+ ds
  else if n <=? decpt then ds +:+ zeros (Z.to_nat (decpt - n)) +:+ ".0"
  else str_take (Z.to_nat decpt) ds +:+ "." +:+ str_skip (Z.to_nat decpt) ds.

Definition repr_finite (m : positive) (e : Z) : string :=
  let f := S754_finite false m e in
  let p := if 0 <=? e then Zpos m * 2 ^ e else Zpos m in
  let q := if 0 <=? e then 1 else 2 ^ (- e) in
  let k := dec_exponent 5 p q ((Z.log2 p - Z.log2 q) * 30103 / 100000) in
  let '(d, n) := shortest 17 f p q k 1 in
  (* a candidate rounded up to a power of ten has one digit more than asked for *)
  repr_digits (digits 10 (strip_zeros 20 d)) (k + str_len (digits 10 d) - n).

Definition float_repr (f : spec_float) : string :=
  match f with
  | S754_zero s => if s then "-0.0" else "0.0"
  | S754_infinity s => if s then "-inf" else "inf"
  | S754_nan => "nan"
  | S754_finite s m e => (if s then "-" else "") +:+ repr_finite m e
  end.

(** * Lemmas *)
Lemma fin_compare_eq m e : fin_compare m e m e = Eq.
Proof. unfold fin_compare. apply Z.compare_refl. Qed.

Lemma num_leb_ltb_Z a b : num_ltb (PInt a) (PInt b) = (a <? b) /\ num_leb (PInt a) (PInt b) = (a <=? b)
  /\ num_eqb (PInt a) (PInt b) = (a =? b).
Proof.
  unfold num_ltb, num_leb, num_eqb, num_compare, fin_compare. simpl.
  rewrite !Z.mul_1_r. unfold Z.ltb, Z.leb. rewrite Z.eqb_compare. by destruct (a ?= b).
Qed.

Lemma iter_pos_inv {A} (f : A -> A) (P : Z -> A -> Prop) :
  (forall k x, P k x -> P (k + 1) (f x)) -> forall n k x, P k x -> P (k + Zpos n) (iter_pos f n x).
Proof.
  intros Hf. induction n as [n IH|n IH|]; intros k x Hx; cbn [iter_pos].
  - replace (k + Z.pos n~1) with (k + 1 + Z.pos n + Z.pos n) by lia. by apply IH, IH, Hf.
  - replace (k + Z.pos n~0) with (k + Z.pos n + Z.pos n) by lia. by apply IH, IH.
  - by apply Hf.
Qed.

Lemma digits2_log2 p : Zpos (digits2_pos p) = Z.log2 (Zpos p) + 1.
Proof.
  induction p as [p IH|p IH|]; cbn [digits2_pos]; [| |done]; rewrite Pos2Z.inj_succ, IH.
  - rewrite (Pos2Z.inj_xI p), Z.log2_succ_double by lia. lia.
  - rewrite (Pos2Z.inj_xO p), Z.log2_double by lia. lia.
Qed.

Lemma Zdigits2_bound m k : 0 <= k -> 0 <= m <= 2 ^ k -> Zdigits2 m <= k + 1.
Proof.
  intros Hk [H0 Hm]. unfold Zdigits2. destruct m as [|p|p]; [lia| |lia]. rewrite digits2_log2.
  pose proof (Z.log2_le_mono _ _ Hm) as Hl. rewrite Z.log2_pow2 in Hl by lia. lia.
Qed.

(** The number read so far is at most [2 ^ K], and less if something was cut off. *)
Definition at_most (K e : Z) (x : shr_record) : Prop :=
  e <= K -> 0 <= shr_m x /\ (shr_m x < 2 ^ (K - e) \/ (shr_m x = 2 ^ (K - e) /\ shr_r x = false /\ shr_s x = false)).

Lemma shr_1_at_most K e x : at_most K e x -> at_most K (e + 1) (shr_1 x).
Proof.
  intros H He. specialize (H ltac:(lia)) as [H0 H]. destruct x as [m r s]. cbn [shr_m shr_r shr_s] in *.
  assert (2 ^ (K - e) = 2 * 2 ^ (K - (e + 1))) as Hp by (rewrite <- Z.pow_succ_r by lia; f_equal; lia). rewrite Hp in H.
  pose proof (Z.pow_pos_nonneg 2 (K - (e + 1)) ltac:(lia) ltac:(lia)) as Hz. set (z := 2 ^ (K - (e + 1))) in *. clearbody z.
  unfold shr_1. destruct m as [|[p|p|]|]; cbn [shr_m shr_r shr_s]; [| | | |lia].
  - split; [lia|left; lia].
  - split; [lia|]. destruct H as [H|(H & _)]; [left; lia|lia].
  - split; [lia|]. destruct H as [H|(H & Hr & Hs)]; [left; lia|right]. rewrite Hr, Hs. split; [lia|done].
  - split; [lia|left; lia].
Qed.

(** The shift of [shr_fexp] keeps it, and ends where 53 digits are enough. *)
Lemma shr_fexp_at_most K m e l x' e' : 0 <= K -> e <= K -> at_most K e (shr_record_of_loc m l) -> shr_fexp 53 1024 m e l = (x', e') ->
  e' <= Z.max e (K - 52) /\ at_most K e' x'.
Proof.
  intros HK He H. unfold shr_fexp, shr.
  assert (0 <= m <= 2 ^ (K - e)) as Hm.
  { destruct (H He) as [H0 H1]. assert (shr_m (shr_record_of_loc m l) = m) as E by (by destruct l as [|[]]). rewrite E in *. lia. }
  pose proof (Zdigits2_bound m (K - e) ltac:(lia) Hm) as Hd.
  destruct (fexp 53 1024 (Zdigits2 m + e) - e) as [|n|n] eqn:En; intros [= <- <-].
  2:{ split; [|by apply (iter_pos_inv shr_1 (at_most K) (shr_1_at_most K))]. rewrite <- En. unfold fexp, emin. lia. }
  all: split; [lia|done].
Qed.

Lemma rounded_at_most K x e : e <= K -> at_most K e x ->
  at_most K e (shr_record_of_loc (round_nearest_even (shr_m x) (loc_of_shr_record x)) loc_Exact).
Proof.
  intros He H _. specialize (H He) as [H0 H]. destruct x as [m r s]. cbn [shr_m shr_r shr_s shr_record_of_loc] in *.
  destruct r, s; cbn [loc_of_shr_record round_nearest_even]; try destruct (Z.even m);
    (split; [lia|]); destruct H as [H|(H & E1 & E2)]; try discriminate; try (left; lia); destruct (decide (m + 1 = 2 ^ (K - e)));
    first [right; split; [lia|done]|left; lia].
Qed.

(** A float from 0 to [2 ^ K]. *)
Definition up_to (K : Z) (f : spec_float) : Prop :=
  f = S754_zero false \/ exists m e, f = S754_finite false m e /\ e <= K /\ Zpos m <= 2 ^ (K - e).

(** What [binary_round_aux] makes of such a number. *)
Lemma binary_round_up_to K m e l : 0 <= K <= 1023 -> e <= 0 -> at_most K e (shr_record_of_loc m l) ->
  up_to K (binary_round_aux 53 1024 false m e l).
Proof.
  intros HK He H. unfold binary_round_aux. destruct (shr_fexp 53 1024 m e l) as [x e1] eqn:E1.
  apply (shr_fexp_at_most K) in E1 as [He1 H1]; [|lia|lia|done]. apply rounded_at_most in H1; [|lia].
  destruct (shr_fexp 53 1024 _ e1 loc_Exact) as [y e2] eqn:E2. apply (shr_fexp_at_most K) in E2 as [He2 H2]; [|lia|lia|done].
  destruct (H2 ltac:(lia)) as [H0 Hm]. destruct (shr_m y) as [|p|p]; [by left| |lia]. destruct (Z.leb_spec e2 (1024 - 53)); [|lia].
  right. exists p, e2. split; [done|]. split; [lia|lia].
Qed.

Lemma new_location_exact q r : r = 0 -> new_location q r = loc_Exact.
Proof. intros ->. unfold new_location, new_location_even, new_location_odd. by destruct (Z.even q). Qed.

Lemma division_share p q : (p <= q)%positive -> up_to 0 (SFdiv 53 1024 (S754_finite false p 0) (S754_finite false q 0)).
Proof.
  intros Hpq. cbn [SFdiv xorb]. unfold SFdiv_core_binary. set (e' := Z.min _ _). assert (e' <= 0) as He by (unfold e'; lia).
  replace (0 - 0 - e') with (- e') by lia.
  assert (match - e' with 0 => Z.pos p | Z.pos _ => Z.shiftl (Z.pos p) (- e') | Z.neg _ => 0 end = Z.pos p * 2 ^ (- e')) as ->.
  { destruct (- e') eqn:E; [cbn; lia|by rewrite Z.shiftl_mul_pow2 by lia|lia]. }
  destruct (Z.div_eucl (Z.pos p * 2 ^ (- e')) (Z.pos q)) as [m r] eqn:Ed.
  pose proof (Z_div_mod (Z.pos p * 2 ^ (- e')) (Z.pos q) ltac:(lia)) as Hd. rewrite Ed in Hd. destruct Hd as [Hd Hr].
  pose proof (Z.pow_pos_nonneg 2 (- e') ltac:(lia) ltac:(lia)) as Hp. apply binary_round_up_to; [lia|done|]. intros _. rewrite Z.sub_0_l.
  cbn [shr_m shr_r shr_s]. set (z := 2 ^ (- e')) in *. clearbody z.
  assert (0 <= m /\ (m < z \/ (m = z /\ r = 0))) as [H0 [Hlt|[Heq Hr0]]].
  { split; [nia|]. destruct (Z.lt_trichotomy m z) as [|[|]]; [by left|right; split; [done|nia]|nia]. }
  - destruct (new_location (Z.pos q) r) as [|[]]; cbn; (split; [lia|by left]).
  - rewrite new_location_exact by done. cbn. split; [lia|by right].
Qed.

Lemma truediv_share a b : 0 <= a <= b -> up_to 0 (int_truediv a b).
Proof. intros H. unfold int_truediv. destruct a as [|p|p]; [by left| |lia]. destruct b as [|q|q]; [lia| |lia]. apply division_share. lia. Qed.

(** Such a float passes the checks of a share. *)
Lemma share_checks f : up_to 0 f -> py_isfinite (PFloat f) = Ok true /\ num_ltb (PFloat f) (PInt 0) = false /\ num_ltb (PInt 1) (PFloat f) = false.
Proof.
  intros [->|(m & e & -> & He & Hm)]; [done|]. rewrite Z.sub_0_l in Hm. split; [done|]. unfold num_ltb, num_compare, num_x, fin_compare. split.
  - rewrite Z.min_l by lia. rewrite Z.mul_0_l. rewrite Z.sub_diag. cbn. done.
  - rewrite Z.min_r by lia. rewrite Z.sub_diag, Z.sub_0_l, Z.mul_1_l. replace (Z.pos m * 2 ^ 0) with (Z.pos m) by (cbn; lia).
    destruct (Z.compare_spec (2 ^ (- e)) (Z.pos m)); [done|lia|done].
Qed.

(** ** Ints that have a float *)
Lemma shl_align_value p e m' e' : e <= 0 -> shl_align p 0 e = (m', e') -> e' <= 0 /\ Zpos m' = Zpos p * 2 ^ (- e').
Proof.
  intros He. unfold shl_align. rewrite Z.sub_0_r. destruct e as [|d|d]; [|lia|]; intros [= <- <-].
  - split; [lia|]. cbn. lia.
  - split; [lia|]. rewrite Pos2Z.opp_neg.
    assert (forall k x, Zpos (Pos.iter xO x k) = Zpos x * 2 ^ Zpos k) as H; [|apply H].
    intros k x. rewrite Pos2Nat.inj_iter, <- (positive_nat_Z k). induction (Pos.to_nat k) as [|n IH]; [cbn; lia|].
    rewrite Nat2Z.inj_succ, Z.pow_succ_r by lia. cbn [nat_rect]. rewrite Pos2Z.inj_xO. lia.
Qed.

Lemma int_finite z : 0 <= z < 2 ^ 1023 -> py_isfinite (PInt z) = Ok true.
Proof.
  intros Hz. unfold py_isfinite, py_float. assert (up_to 1023 (float_of_Z z)) as [->|(m & e & -> & _)]; [|done|done].
  unfold float_of_Z, binary_normalize. destruct z as [|p|p]; [by left| |lia]. unfold binary_round.
  assert (exists m' e', shl_align p 0 (fexp 53 1024 (Zpos (digits2_pos p) + 0)) = (m', e') /\ e' <= 0 /\ Zpos m' = Zpos p * 2 ^ (- e')) as (m' & e' & -> & He & Hm).
  { destruct (Z.le_gt_cases (fexp 53 1024 (Zpos (digits2_pos p) + 0)) 0) as [Hf|Hf].
    - destruct (shl_align p 0 _) as [m' e'] eqn:E. apply shl_align_value in E; [|done]. by exists m', e'.
    - exists p, 0. unfold shl_align. rewrite Z.sub_0_r. destruct (fexp _ _ _) eqn:E; try lia. split; [done|]. split; [lia|]. cbn. lia. }
  apply binary_round_up_to; [lia|done|]. intros _. cbn [shr_record_of_loc shr_m shr_r shr_s]. split; [lia|left].
  replace (1023 - e') with (1023 + - e') by lia. rewrite Z.pow_add_r by lia. rewrite Hm. apply Z.mul_lt_mono_pos_r; [|lia].
  apply Z.pow_pos_nonneg; lia.
Qed.

Definition is_number (a : pynum) : Prop := num_x a <> XNan.

(** Two finite values compare as the integers they are at any common exponent. *)
Lemma fin_compare_at E m1 e1 m2 e2 : E <= e1 -> E <= e2 -> fin_compare m1 e1 m2 e2 = (m1 * 2 ^ (e1 - E) ?= m2 * 2 ^ (e2 - E)).
Proof.
  intros H1 H2. unfold fin_compare. set (e := Z.min e1 e2).
  replace (m1 * 2 ^ (e1 - E)) with (m1 * 2 ^ (e1 - e) * 2 ^ (e - E)) by (rewrite <- Z.mul_assoc, <- Z.pow_add_r by lia; do 2 f_equal; lia).
  replace (m2 * 2 ^ (e2 - E)) with (m2 * 2 ^ (e2 - e) * 2 ^ (e - E)) by (rewrite <- Z.mul_assoc, <- Z.pow_add_r by lia; do 2 f_equal; lia).
  apply Zmult_compare_compat_r. apply Z.lt_gt, Z.pow_pos_nonneg; lia.
Qed.

(** The three tests, from one comparison. *)
Lemma leb_compare a b : num_leb a b = match num_compare a b with Some Gt | None => false | _ => true end.
Proof. unfold num_leb. by destruct (num_compare a b) as [[]|]. Qed.

Lemma compare_antisym a b : num_compare b a = option_map CompOpp (num_compare a b).
Proof.
  unfold num_compare. destruct (num_x a) as [|s|m e], (num_x b) as [|s'|m' e']; try done; try (by destruct s, s'); try (by destruct s); try (by destruct s').
  unfold fin_compare. rewrite (Z.min_comm e' e). cbn. by rewrite Z.compare_antisym.
Qed.

Lemma num_leb_trans a b c : num_leb a b = true -> num_leb b c = true -> num_leb a c = true.
Proof.
  rewrite !leb_compare. unfold num_compare. destruct (num_x a) as [|s|m e], (num_x b) as [|s'|m' e'], (num_x c) as [|s''|m'' e''];
    try done; try (by destruct s, s', s''); try (by destruct s, s'); try (by destruct s', s''); try (by destruct s, s''); try (by destruct s); try (by destruct s'); try (by destruct s'').
  set (E := Z.min e (Z.min e' e'')). rewrite !(fin_compare_at E) by lia.
  destruct (Z.compare_spec (m * 2 ^ (e - E)) (m' * 2 ^ (e' - E))), (Z.compare_spec (m' * 2 ^ (e' - E)) (m'' * 2 ^ (e'' - E))),
    (Z.compare_spec (m * 2 ^ (e - E)) (m'' * 2 ^ (e'' - E))); done || lia.
Qed.

Lemma num_leb_total a b : is_number a -> is_number b -> num_leb a b = false -> num_leb b a = true.
Proof.
  intros Ha Hb. rewrite !leb_compare, (compare_antisym a b). destruct (num_compare a b) as [[]|] eqn:E; try done.
  revert E. unfold is_number, num_compare in *. by destruct (num_x a), (num_x b).
Qed.

Lemma num_eqb_leb a b : num_eqb a b = num_leb a b && num_leb b a.
Proof. rewrite !leb_compare, (compare_antisym a b). unfold num_eqb. by destruct (num_compare a b) as [[]|]. Qed.

Lemma num_leb_number a b : num_leb a b = true -> is_number a /\ is_number b.
Proof. rewrite leb_compare. unfold is_number, num_compare. by destruct (num_x a), (num_x b). Qed.

Lemma num_eqb_refl a : is_number a -> num_eqb a a = true.
Proof.
  unfold is_number, num_eqb, num_compare. destruct (num_x a) as [|[]|m e]; try done. intros _. unfold fin_compare. by rewrite Z.compare_refl.
Qed.

(** Equal values are interchangeable in a comparison. *)
Lemma num_leb_eqb a b c : num_eqb a b = true -> num_leb a c = num_leb b c.
Proof.
  rewrite num_eqb_leb. intros [H1 H2]%andb_prop. apply eq_true_iff_eq. split; intros H; by eapply num_leb_trans.
Qed.

Lemma num_ltb_leb_neg a b : is_number a -> is_number b -> num_ltb a b = negb (num_leb b a).
Proof.
  intros Ha Hb. rewrite leb_compare, (compare_antisym a b). unfold num_ltb. destruct (num_compare a b) as [[]|] eqn:E; try done.
  revert E. unfold is_number, num_compare in *. by destruct (num_x a), (num_x b).
Qed.
