(* ===== verification/PyTime.v ===== *)
(** Python timestamps: the proleptic Gregorian calendar of [datetime] (civil dates and day numbers),
    [datetime] in UTC, [isoformat] and [fromisoformat].

    The inverse laws of the calendar are proved for one 400-year era, from its 400 years and the
    366 days of a year checked by computation, and shifted.  An aware datetime converted to UTC is the
    number of microseconds since 1970-01-01T00:00:00Z.  [fromisoformat] follows CPython 3.11's C parser
    on the extended and basic calendar formats, its tolerance of one stray character before an offset
    included; ISO week dates are not modelled (they are rejected).

    Texts of instants sort as the instants do: the order [TEXT] columns of SQLite and Elasticsearch
    sorts rely on, for the RFC 3339 texts of whole seconds. *)

From S2P Require Import Prelude PyText.

Definition is_leap (y : Z) : bool := (y mod 4 =? 0) && (negb (y mod 100 =? 0) || (y mod 400 =? 0)).

Definition days_in_month (y m : Z) : Z :=
  if m =? 2 then (if is_leap y then 29 else 28)
  else if (m =? 4) || (m =? 6) || (m =? 9) || (m =? 11) then 30 else 31.

(** Days since 1970-01-01; years run from March inside 400-year eras. *)
Definition days_from_civil (y m d : Z) : Z :=
  let y' := if m <=? 2 then y - 1 else y in
  let era := y' / 400 in
  let yoe := y' mod 400 in
  let doy := (153 * (m + (if m <=? 2 then 9 else -3)) + 2) / 5 + d - 1 in
  era * 146097 + (yoe * 365 + yoe / 4 - yoe / 100 + doy) - 719468.

(** Day of era to (year of era counted from March, month, day). *)
Definition civil_of_doe (doe : Z) : Z * Z * Z :=
  let yoe := (doe - doe / 1460 + doe / 36524 - doe / 146096) / 365 in
  let doy := doe - (365 * yoe + yoe / 4 - yoe / 100) in
  let mp := (5 * doy + 2) / 153 in
  (yoe, (if mp <? 10 then mp + 3 else mp - 9), doy - (153 * mp + 2) / 5 + 1).

Definition civil_from_days (z : Z) : Z * Z * Z :=
  let era := (z + 719468) / 146097 in
  let '(yoe, m, d) := civil_of_doe ((z + 719468) mod 146097) in
  (yoe + era * 400 + (if m <=? 2 then 1 else 0), m, d).

(** * Calendar lemmas *)

(** The day number of the computed civil date is the day, and the date is a valid one. *)
Definition doe_ok (doe : Z) : bool :=
  let '(yoe, m, d) := civil_of_doe doe in
  (0 <=? yoe) && (yoe <? 400) && (1 <=? m) && (m <=? 12) && (1 <=? d) &&
  (let y := yoe + (if m <=? 2 then 1 else 0) in d <=? days_in_month y m) &&
  (yoe * 365 + yoe / 4 - yoe / 100 + ((153 * (m + (if m <=? 2 then 9 else -3)) + 2) / 5 + d - 1) =? doe).

(** First day and length of a March-based year of the era; the year of the era of a day. *)
Definition year_start (yoe : Z) : Z := 365 * yoe + yoe / 4 - yoe / 100.
Definition year_length (yoe : Z) : Z := if is_leap (yoe + 1) then 366 else 365.
Definition year_of_doe (doe : Z) : Z := (doe - doe / 1460 + doe / 36524 - doe / 146096) / 365.

Lemma year_of_doe_step doe : 0 <= doe < 146096 -> year_of_doe doe <= year_of_doe (doe + 1).
Proof. intros H. apply Z.div_le_mono; [lia|]. Z.div_mod_to_equations. lia. Qed.

Lemma year_of_doe_mono a b : 0 <= a <= b -> b < 146097 -> year_of_doe a <= year_of_doe b.
Proof.
  intros Ha. replace b with (a + Z.of_nat (Z.to_nat (b - a))) by lia. generalize (Z.to_nat (b - a)) as n.
  induction n as [|n IH]; intros Hb; [rewrite Z.add_0_r; lia|]. etrans; [apply IH; lia|].
  replace (a + Z.of_nat (S n)) with (a + Z.of_nat n + 1) by lia. apply year_of_doe_step. lia.
Qed.

(** The 400 years of an era, checked at their first and last days. *)
Definition year_ok (yoe : Z) : bool :=
  let first := year_start yoe in
  let last := first + year_length yoe - 1 in
  (year_of_doe first =? yoe) && (year_of_doe last =? yoe) && (0 <=? first) && (last <? 146097) &&
  (last + 1 =? (if yoe =? 399 then 146097 else year_start (yoe + 1))).

Lemma years_ok yoe : 0 <= yoe < 400 -> year_ok yoe = true.
Proof. intros H. apply (all_from_spec year_ok 400 0); [by vm_compute|lia]. Qed.

(** The 366 days of a March-based year; the last one is February 29. *)
Definition doy_ok (doy : Z) : bool :=
  let mp := (5 * doy + 2) / 153 in
  let m := if mp <? 10 then mp + 3 else mp - 9 in
  let d := doy - (153 * mp + 2) / 5 + 1 in
  (1 <=? m) && (m <=? 12) && (1 <=? d) &&
  (d <=? (if m =? 2 then (if doy <? 365 then 28 else 29) else days_in_month 1 m)) &&
  ((153 * (m + (if m <=? 2 then 9 else -3)) + 2) / 5 + d - 1 =? doy).

Lemma doys_ok doy : 0 <= doy < 366 -> doy_ok doy = true.
Proof. intros H. apply (all_from_spec doy_ok 366 0); [by vm_compute|lia]. Qed.

(** Every day of the era is in one of its years. *)
Lemma doe_in_year doe :
  0 <= doe < 146097 -> exists yoe, 0 <= yoe < 400 /\ year_start yoe <= doe < year_start yoe + year_length yoe.
Proof.
  intros Hd. assert (forall n, Z.of_nat n <= 400 -> doe < (if Z.of_nat n =? 400 then 146097 else year_start (Z.of_nat n)) ->
    exists yoe, 0 <= yoe < 400 /\ year_start yoe <= doe < year_start yoe + year_length yoe) as Hn.
  { induction n as [|n IH]; intros Hn Hlt.
    - change (year_start (Z.of_nat 0)) with 0 in Hlt. simpl in Hlt. lia.
    - pose proof (years_ok (Z.of_nat n) ltac:(lia)) as Hok. unfold year_ok in Hok. bool_inv.
      destruct (decide (year_start (Z.of_nat n) <= doe)).
      + exists (Z.of_nat n). split; [lia|]. split; [done|].
        replace (Z.of_nat (S n)) with (Z.of_nat n + 1) in Hlt by lia.
        destruct (Z.eqb_spec (Z.of_nat n) 399) as [E|E].
        * rewrite E in *. simpl in Hlt. lia.
        * rewrite (proj2 (Z.eqb_neq _ _)) in Hlt by lia. lia.
      + apply IH; [lia|]. rewrite (proj2 (Z.eqb_neq _ _)) by lia. lia. }
  apply (Hn 400%nat); [lia|]. change (Z.of_nat 400 =? 400) with true. cbv iota. lia.
Qed.

Lemma era_ok doe : 0 <= doe < 146097 -> doe_ok doe = true.
Proof.
  intros Hd. destruct (doe_in_year _ Hd) as (yoe & Hy & Hin). pose proof (years_ok _ Hy) as Hok. unfold year_ok in Hok. bool_inv.
  assert (year_of_doe doe = yoe) as Hyoe.
  { pose proof (year_of_doe_mono (year_start yoe) doe). pose proof (year_of_doe_mono doe (year_start yoe + year_length yoe - 1)). lia. }
  unfold doe_ok, civil_of_doe. fold (year_of_doe doe). rewrite Hyoe. fold (year_start yoe).
  set (doy := doe - year_start yoe) in *.
  assert (0 <= doy < 366 /\ (365 <= doy -> is_leap (yoe + 1) = true)) as [Hdoy Hleap].
  { unfold year_length in Hin. subst doy. destruct (is_leap (yoe + 1)); split; try done; lia. }
  pose proof (doys_ok _ Hdoy) as Hdok. unfold doy_ok in Hdok. revert Hdok. cbv zeta.
  set (mp := (5 * doy + 2) / 153). set (m := if mp <? 10 then mp + 3 else mp - 9).
  set (d := doy - (153 * mp + 2) / 5 + 1). intros Hdok. bool_inv.
  assert (d <= days_in_month (yoe + (if m <=? 2 then 1 else 0)) m) as Hdim.
  { unfold days_in_month in *. destruct (Z.eqb_spec m 2) as [E|E]; [|done]. rewrite E. change (2 <=? 2) with true. cbv iota.
    destruct (Z.ltb_spec doy 365) as [Hlt|Hge]; [destruct (is_leap _); lia|rewrite Hleap by lia; lia]. }
  assert (yoe * 365 + yoe / 4 - yoe / 100 + ((153 * (m + (if m <=? 2 then 9 else -3)) + 2) / 5 + d - 1) = doe) as Heq.
  { unfold year_start in doy. subst doy. lia. }
  repeat (apply andb_true_intro; split); try apply Z.leb_le; try apply Z.ltb_lt; try apply Z.eqb_eq; try lia.
Qed.

Lemma is_leap_era y k : is_leap (y + k * 400) = is_leap y.
Proof.
  unfold is_leap.
  replace ((y + k * 400) mod 4) with (y mod 4)
    by (replace (k * 400) with (k * 100 * 4) by lia; by rewrite Z.mod_add).
  replace ((y + k * 400) mod 100) with (y mod 100)
    by (replace (k * 400) with (k * 4 * 100) by lia; by rewrite Z.mod_add).
  by rewrite Z.mod_add.
Qed.

Lemma days_in_month_era y k m : days_in_month (y + k * 400) m = days_in_month y m.
Proof. unfold days_in_month. by rewrite is_leap_era. Qed.

(** Every day number has a valid civil date, and that date has the day number. *)
Lemma civil_spec z y m d :
  civil_from_days z = (y, m, d) ->
  days_from_civil y m d = z /\ 1 <= m <= 12 /\ 1 <= d <= days_in_month y m.
Proof.
  unfold civil_from_days. pose proof (Z.mod_pos_bound (z + 719468) 146097 ltac:(lia)) as Hb.
  pose proof (era_ok _ Hb) as Hok. unfold doe_ok in Hok.
  pose proof (Z.div_mod (z + 719468) 146097 ltac:(lia)) as Hz.
  set (doe := (z + 719468) mod 146097) in *. set (era := (z + 719468) / 146097) in *.
  destruct (civil_of_doe doe) as [[yoe m'] d']. intros [= <- -> ->]. bool_inv.
  split; [|split; [lia|split; [lia|]]].
  - unfold days_from_civil.
    replace (if m <=? 2 then yoe + era * 400 + (if m <=? 2 then 1 else 0) - 1
             else yoe + era * 400 + (if m <=? 2 then 1 else 0)) with (yoe + era * 400)
      by (destruct (m <=? 2); lia).
    rewrite Z.div_add, Z.mod_add, (Z.div_small yoe 400), (Z.mod_small yoe 400) by lia. lia.
  - replace (yoe + era * 400 + (if m <=? 2 then 1 else 0))
      with (yoe + (if m <=? 2 then 1 else 0) + era * 400) by lia.
    by rewrite days_in_month_era.
Qed.

(** Days before the March-based year [y']. *)
Definition year_days (y' : Z) : Z := 365 * y' + y' / 4 - y' / 100 + y' / 400.

Lemma year_days_step a : year_days (a + 1) >= year_days a + 365.
Proof. unfold year_days. Z.div_mod_to_equations. lia. Qed.

Lemma year_days_mono a b : a <= b -> year_days a <= year_days b.
Proof. unfold year_days. intros. Z.div_mod_to_equations. lia. Qed.

Lemma days_from_civil_year y m d :
  days_from_civil y m d =
  year_days (if m <=? 2 then y - 1 else y) + (153 * (m + (if m <=? 2 then 9 else -3)) + 2) / 5 + d - 1 - 719468.
Proof.
  unfold days_from_civil, year_days. generalize (if m <=? 2 then y - 1 else y) as a. intros a.
  assert (a = a / 400 * 400 + a mod 400) as Ha by (Z.div_mod_to_equations; lia).
  assert (a / 4 = a / 400 * 100 + a mod 400 / 4) as -> by
    (rewrite Ha at 1; replace (a / 400 * 400 + a mod 400) with (a mod 400 + a / 400 * 100 * 4) by lia;
     rewrite Z.div_add by lia; lia).
  assert (a / 100 = a / 400 * 4 + a mod 400 / 100) as -> by
    (rewrite Ha at 1; replace (a / 400 * 400 + a mod 400) with (a mod 400 + a / 400 * 4 * 100) by lia;
     rewrite Z.div_add by lia; lia).
  lia.
Qed.

(** Day of the March-based year: from 0 to 305 up to December, from 306 in January and February. *)
Lemma month_offset_bounds m d :
  1 <= m <= 12 -> 1 <= d <= 31 -> (m = 2 -> d <= 29) ->
  let o := (153 * (m + (if m <=? 2 then 9 else -3)) + 2) / 5 + d - 1 in
  if m <=? 2 then 306 <= o <= 365 else 0 <= o <= 305.
Proof.
  intros Hm Hd H2 o. subst o. destruct (m <=? 2) eqn:E; bool_inv.
  - assert (m = 1 \/ m = 2) as [->| ->] by lia; [change ((153 * (1 + 9) + 2) / 5) with 306|
      change ((153 * (2 + 9) + 2) / 5) with 337]; lia.
  - Z.div_mod_to_equations. lia.
Qed.

Lemma days_in_month_le y m d : 1 <= d <= days_in_month y m -> d <= 31 /\ (m = 2 -> d <= 29).
Proof. unfold days_in_month. intros Hd. repeat case_match; bool_inv; lia. Qed.

(** Dates of different years are ordered by their years. *)
Lemma days_from_civil_bounds y m d :
  1 <= m <= 12 -> 1 <= d <= days_in_month y m ->
  days_from_civil y 1 1 <= days_from_civil y m d < days_from_civil (y + 1) 1 1.
Proof.
  intros Hm Hd. pose proof (days_in_month_le _ _ _ Hd) as [H31 H29].
  pose proof (month_offset_bounds m d Hm ltac:(lia) H29) as Ho. simpl in Ho.
  rewrite !days_from_civil_year. change (1 <=? 2) with true. cbv iota.
  change ((153 * (1 + 9) + 2) / 5) with 306.
  pose proof (year_days_step (y - 1)) as Hs. replace (y - 1 + 1) with y in Hs by lia.
  replace (y + 1 - 1) with y by lia.
  destruct (m <=? 2); lia.
Qed.

Lemma days_from_civil_jan_mono a b : a <= b -> days_from_civil a 1 1 <= days_from_civil b 1 1.
Proof.
  intros H. rewrite !days_from_civil_year. change (1 <=? 2) with true. cbv iota.
  pose proof (year_days_mono (a - 1) (b - 1)). lia.
Qed.

Definition US_PER_SECOND : Z := 1000000.
Definition US_PER_DAY : Z := 86400 * US_PER_SECOND.

(** [timedelta(seconds=n)], [timedelta(minutes=n)]. *)
Definition seconds (n : Z) : Z := n * US_PER_SECOND.
Definition minutes (n : Z) : Z := n * 60 * US_PER_SECOND.

(** [datetime(year, ...)] exists for years 1 to 9999 only. *)
Definition min_instant : Z := days_from_civil 1 1 1 * US_PER_DAY.
Definition max_instant : Z := days_from_civil 10000 1 1 * US_PER_DAY - 1.
Definition in_range (t : Z) : bool := (min_instant <=? t) && (t <=? max_instant).

(** * [isoformat] with the offset written Z *)
Definition date_text (t : Z) : string :=
  let '(y, m, d) := civil_from_days (t / US_PER_DAY) in
  dec_pad 4 y +:+ "-" +:+ dec_pad 2 m +:+ "-" +:+ dec_pad 2 d.

Definition time_text (s : Z) : string :=
  dec_pad 2 (s / 3600) +:+ ":" +:+ dec_pad 2 (s / 60 mod 60) +:+ ":" +:+ dec_pad 2 (s mod 60).

(** [value.isoformat(timespec="milliseconds").replace("+00:00", "Z")]: microseconds are cut. *)
Definition isoformat_ms (t : Z) : string :=
  date_text t +:+ "T" +:+ time_text (t mod US_PER_DAY / US_PER_SECOND) +:+ "." +:+
  dec_pad 3 (t mod US_PER_SECOND / 1000) +:+ "Z".

(** [value.isoformat().replace("+00:00", "Z")]: microseconds only when there are some. *)
Definition isoformat_auto (t : Z) : string :=
  date_text t +:+ "T" +:+ time_text (t mod US_PER_DAY / US_PER_SECOND) +:+
  (if t mod US_PER_SECOND =? 0 then "" else "." +:+ dec_pad 6 (t mod US_PER_SECOND)) +:+ "Z".

(** [value.strftime("%Y.%m.%d")]. *)
Definition strftime_ymd (t : Z) : string :=
  let '(y, m, d) := civil_from_days (t / US_PER_DAY) in
  dec_pad 4 y +:+ "." +:+ dec_pad 2 m +:+ "." +:+ dec_pad 2 d.

(** * [datetime.fromisoformat] *)
Definition digit_at (a : ascii) : option Z := if is_ascii_digit a then digit_val a else None.

Definition two_digits (t : string) : option (Z * string) :=
  match t with
  | String a (String b r) =>
      match digit_at a, digit_at b with
      | Some x, Some y => Some (x * 10 + y, r)
      | _, _ => None
      end
  | _ => None
  end.

(** Hours, minutes and seconds.  [more] tells that an offset sign follows the text.  The result
    is the values read and either whether an unread character was left, or the fraction's text. *)
Fixpoint hms_loop (n : nat) (first sep more : bool) (t : string) : option (list Z * (bool + string)) :=
  match n with
  | O => Some ([], inr t)
  | S n' =>
      match two_digits t with
      | None => None
      | Some (v, EmptyString) => Some ([v], inl more)
      | Some (v, String c t2 as t1) =>
          let sep' := if first then Ascii.eqb c ":" else sep in
          match t2 with
          | EmptyString => Some ([v], inl true)
          | _ =>
              if sep' && Ascii.eqb c ":" then
                option_map (fun r => (v :: r.1, r.2)) (hms_loop n' false sep' more t2)
              else if Ascii.eqb c "." || Ascii.eqb c "," then Some ([v], inr t2)
              else if negb sep' then
                option_map (fun r => (v :: r.1, r.2)) (hms_loop n' false sep' more t1)
              else None
          end
      end
  end.

Fixpoint all_digits (s : string) (acc : Z) : option Z :=
  match s with
  | EmptyString => Some acc
  | String a r =>
      match digit_at a with
      | Some d => all_digits r (acc * 10 + d)
      | None => None
      end
  end.

Fixpoint skip_digits (s : string) : string :=
  match s with
  | EmptyString => s
  | String a r => if is_ascii_digit a then skip_digits r else s
  end.

(** (hour, minute, second, microsecond, unread text left). *)
Definition parse_hms (t : string) (more : bool) : option (Z * Z * Z * Z * bool) :=
  match hms_loop 3 true true more t with
  | None => None
  | Some (vs, rest) =>
      let h := default 0 (nth_error vs 0) in
      let m := default 0 (nth_error vs 1) in
      let s := default 0 (nth_error vs 2) in
      match rest with
      | inl junk => Some (h, m, s, 0, junk)
      | inr f =>
          let k := Nat.min 6 (String.length f) in
          match all_digits (str_take k f) 0 with
          | None => None
          | Some us =>
              Some (h, m, s, us * 10 ^ (6 - Z.of_nat k), more || negb (String.eqb (skip_digits (str_skip k f)) ""))
          end
      end
  end.

(** The text before the first offset sign, the sign and the text after it. *)
Fixpoint split_offset (s : string) : string * option (Z * string) :=
  match s with
  | EmptyString => (s, None)
  | String a r =>
      if Ascii.eqb a "+" then ("", Some (1, r))
      else if Ascii.eqb a "-" then ("", Some (-1, r))
      else let '(x, y) := split_offset r in (String a x, y)
  end.

Definition parse_date (s : string) : option (Z * Z * Z * string) :=
  match two_digits s with
  | None => None
  | Some (c, r0) =>
    match two_digits r0 with
    | None => None
    | Some (y2, r1) =>
      let y := c * 100 + y2 in
      let sep := match r1 with String "-" _ => true | _ => false end in
      let r2 := if sep then str_skip 1 r1 else r1 in
      match two_digits r2 with
      | None => None
      | Some (m, r3) =>
        match (if sep then match r3 with String "-" r => Some r | _ => None end else Some r3) with
        | None => None
        | Some r4 =>
          match two_digits r4 with
          | None => None
          | Some (d, r5) => Some (y, m, d, r5)
          end
        end
      end
    end
  end.

Definition valid_date (y m d : Z) : bool :=
  (1 <=? y) && (1 <=? m) && (m <=? 12) && (1 <=? d) && (d <=? days_in_month y m).

Definition valid_time (h m s : Z) : bool := (h <=? 23) && (m <=? 59) && (s <=? 59).

(** The clock reading and the offset from UTC, in microseconds; [None] is a [ValueError]. *)
Definition parse_time (s : string) : option (Z * option Z) :=
  let '(t, off) := split_offset s in
  match parse_hms t (match off with Some _ => true | None => false end) with
  | None => None
  | Some (h, m, sec, us, junk) =>
      let clock := (h * 3600 + m * 60 + sec) * US_PER_SECOND + us in
      if negb (valid_time h m sec) then None else
      match off with
      | None => if junk then None else Some (clock, None)
      | Some (sign, o) =>
          match parse_hms o false with
          | Some (oh, om, os, ous, false) =>
              let whole := sign * (oh * 3600 + om * 60 + os) in
              let v := if whole =? 0 then 0 else whole * US_PER_SECOND + sign * ous in
              if Z.abs v <? US_PER_DAY then Some (clock, Some v) else None
          | _ => None
          end
      end
  end.

(** Local time in microseconds since the epoch, and the offset when the text has one. *)
Definition fromisoformat (s : string) : option (Z * option Z) :=
  match parse_date s with
  | None => None
  | Some (y, m, d, r) =>
      if negb (valid_date y m d) then None else
      let day := days_from_civil y m d * US_PER_DAY in
      match r with
      | EmptyString => Some (day, None)
      | String _ t => option_map (fun p => (day + p.1, p.2)) (parse_time t)
      end
  end.

(** [datetime.fromisoformat(value.replace("Z", "+00:00"))]. *)
Definition fromisoformat_z (s : string) : option (Z * option Z) :=
  fromisoformat (replace_char "Z" "+00:00" s).

Lemma civil_year_range t y m d :
  in_range t = true -> civil_from_days (t / US_PER_DAY) = (y, m, d) -> 1 <= y <= 9999.
Proof.
  unfold in_range, min_instant, max_instant. intros Hr Hc. bool_inv.
  apply civil_spec in Hc as (Hd & Hm & Hdd).
  assert (0 < US_PER_DAY) as HD by (unfold US_PER_DAY, US_PER_SECOND; lia).
  assert (days_from_civil 1 1 1 <= t / US_PER_DAY < days_from_civil 10000 1 1) as [H1 H2].
  { split; [apply Z.div_le_lower_bound; lia|apply Z.div_lt_upper_bound; lia]. }
  pose proof (days_from_civil_bounds _ _ _ Hm Hdd) as [H3 H4]. split.
  - apply Z.le_ngt. intros Hy. pose proof (days_from_civil_jan_mono (y + 1) 1). lia.
  - apply Z.le_ngt. intros Hy. pose proof (days_from_civil_jan_mono 10000 y). lia.
Qed.

(** * Round trip of the millisecond format *)

(** A decimal digit character with its value, as the parsers see it. *)
Definition is_digit_of (a : ascii) (v : Z) : Prop :=
  digit_at a = Some v /\ Ascii.eqb a "Z" = false /\ Ascii.eqb a "+" = false /\ Ascii.eqb a "-" = false.

Lemma digit_char_spec v : 0 <= v < 10 -> is_digit_of (digit_char v) v.
Proof.
  intros Hv. assert (v = 0 \/ v = 1 \/ v = 2 \/ v = 3 \/ v = 4 \/ v = 5 \/ v = 6 \/ v = 7 \/ v = 8 \/ v = 9)
    as Hc by lia.
  repeat destruct Hc as [->|Hc]; try subst v; by vm_compute.
Qed.

Lemma dec_pad_S w n : dec_pad (S w) n = dec_pad w (n / 10) +:+ str1 (digit_char (n mod 10)).
Proof. done. Qed.

Lemma dec_pad_2 n : 0 <= n < 100 -> exists a b,
  dec_pad 2 n = String a (str1 b) /\ is_digit_of a (n / 10) /\ is_digit_of b (n mod 10).
Proof.
  intros Hn. exists (digit_char (n / 10)), (digit_char (n mod 10)). split.
  - cbn [dec_pad]. by rewrite (Z.mod_small (n / 10) 10) by (split; [apply Z.div_pos|apply Z.div_lt_upper_bound]; lia).
  - split; apply digit_char_spec; [|by apply Z.mod_pos_bound].
    split; [apply Z.div_pos|apply Z.div_lt_upper_bound]; lia.
Qed.

Lemma dec_pad_3 n : 0 <= n < 1000 -> exists a b c,
  dec_pad 3 n = String a (String b (str1 c)) /\
  is_digit_of a (n / 100) /\ is_digit_of b (n / 10 mod 10) /\ is_digit_of c (n mod 10).
Proof.
  intros Hn. destruct (dec_pad_2 (n / 10)) as (a & b & Hab & Ha & Hb).
  { split; [apply Z.div_pos|apply Z.div_lt_upper_bound]; lia. }
  exists a, b, (digit_char (n mod 10)). rewrite Z.div_div in Ha by lia. rewrite dec_pad_S, Hab.
  split; [done|]. split; [done|]. split; [done|]. apply digit_char_spec. by apply Z.mod_pos_bound.
Qed.

Lemma dec_pad_4 n : 0 <= n < 10000 -> exists a b c d,
  dec_pad 4 n = String a (String b (String c (str1 d))) /\
  is_digit_of a (n / 1000) /\ is_digit_of b (n / 100 mod 10) /\
  is_digit_of c (n / 10 mod 10) /\ is_digit_of d (n mod 10).
Proof.
  intros Hn. destruct (dec_pad_3 (n / 10)) as (a & b & c & Habc & Ha & Hb & Hc).
  { split; [apply Z.div_pos|apply Z.div_lt_upper_bound]; lia. }
  exists a, b, c, (digit_char (n mod 10)). rewrite Z.div_div in Ha, Hb by lia. rewrite dec_pad_S, Habc.
  repeat (split; [done|]). apply digit_char_spec. by apply Z.mod_pos_bound.
Qed.

Ltac use_digits :=
  repeat match goal with
  | H : is_digit_of ?a ?v |- _ =>
      let H1 := fresh "Hd" in let H2 := fresh "HZ" in
      let H3 := fresh "Hp" in let H4 := fresh "Hm" in
      destruct H as (H1 & H2 & H3 & H4)
  end.

Ltac rew_digits :=
  repeat match goal with
  | H : digit_at ?a = Some _ |- context [digit_at ?a] => rewrite H
  | H : Ascii.eqb ?a ?c = false |- context [Ascii.eqb ?a ?c] => rewrite H
  end.

Ltac clock_simpl :=
  cbn -[Z.div Z.modulo Z.mul Z.add Z.pow Z.of_nat valid_time valid_date US_PER_SECOND US_PER_DAY].

Lemma digits_2_join n : n / 10 * 10 + n mod 10 = n.
Proof. pose proof (Z.div_mod n 10). lia. Qed.

(** Text of a clock reading and what the parser makes of it. *)
Lemma parse_time_ms h m s ms :
  0 <= h < 24 -> 0 <= m < 60 -> 0 <= s < 60 -> 0 <= ms < 1000 ->
  parse_time (dec_pad 2 h +:+ ":" +:+ dec_pad 2 m +:+ ":" +:+ dec_pad 2 s +:+ "." +:+ dec_pad 3 ms +:+ "+00:00")
  = Some ((h * 3600 + m * 60 + s) * US_PER_SECOND + ms * 1000, Some 0).
Proof.
  intros Hh Hm Hs Hms.
  destruct (dec_pad_2 h) as (h1 & h2 & -> & ? & ?); [lia|].
  destruct (dec_pad_2 m) as (m1 & m2 & -> & ? & ?); [lia|].
  destruct (dec_pad_2 s) as (s1 & s2 & -> & ? & ?); [lia|].
  destruct (dec_pad_3 ms) as (f1 & f2 & f3 & -> & ? & ? & ?); [lia|].
  use_digits.
  assert (valid_time h m s = true) as Hv.
  { unfold valid_time. rewrite !andb_true_iff, !Z.leb_le. lia. }
  unfold parse_time. repeat (clock_simpl; rew_digits).
  assert (parse_hms "00:00" false = Some (0, 0, 0, 0, false)) as -> by by vm_compute.
  unfold parse_hms. repeat (clock_simpl; rew_digits). rewrite !digits_2_join, Hv. clock_simpl.
  assert (((0 * 10 + ms / 100) * 10 + ms / 10 mod 10) * 10 + ms mod 10 = ms) as ->.
  { Z.div_mod_to_equations. lia. }
  change (10 ^ (6 - Z.of_nat 3)) with 1000.
  match goal with |- (if ?b then _ else _) = _ => change b with true end. done.
Qed.

Ltac date_simpl :=
  cbn -[Z.div Z.modulo Z.mul Z.add str_skip].

Lemma parse_date_text y m d r :
  0 <= y < 10000 -> 0 <= m < 100 -> 0 <= d < 100 ->
  parse_date (dec_pad 4 y +:+ "-" +:+ dec_pad 2 m +:+ "-" +:+ dec_pad 2 d +:+ r) = Some (y, m, d, r).
Proof.
  intros Hy Hm Hd.
  destruct (dec_pad_4 y) as (y1 & y2 & y3 & y4 & -> & ? & ? & ? & ?); [lia|].
  destruct (dec_pad_2 m) as (m1 & m2 & -> & ? & ?); [lia|].
  destruct (dec_pad_2 d) as (d1 & d2 & -> & ? & ?); [lia|].
  use_digits. unfold parse_date. repeat (date_simpl; rew_digits).
  rewrite ?str_skip_cons, ?str_skip_0. repeat (date_simpl; rew_digits). rewrite !digits_2_join.
  assert ((y / 1000 * 10 + y / 100 mod 10) * 100 + (y / 10 mod 10 * 10 + y mod 10) = y) as ->.
  { Z.div_mod_to_equations. lia. }
  done.
Qed.

Lemma dec_pad_no_Z w n t : replace_char "Z" t (dec_pad w n) = dec_pad w n.
Proof.
  revert n. induction w as [|w IH]; intros n; [done|].
  rewrite dec_pad_S, replace_char_app, IH. f_equal. cbn [replace_char str1].
  destruct (digit_char_spec (n mod 10)) as (_ & -> & _); [by apply Z.mod_pos_bound|]. done.
Qed.

Lemma clock_of_second s : 0 <= s < 86400 ->
  0 <= s / 3600 < 24 /\ 0 <= s / 60 mod 60 < 60 /\ 0 <= s mod 60 < 60 /\
  s / 3600 * 3600 + s / 60 mod 60 * 60 + s mod 60 = s.
Proof. intros Hs. Z.div_mod_to_equations. lia. Qed.

(** The text of [isoformat_ms] with its date and clock in place. *)
Lemma isoformat_ms_offset t y m d :
  civil_from_days (t / US_PER_DAY) = (y, m, d) ->
  replace_char "Z" "+00:00" (isoformat_ms t) =
  dec_pad 4 y +:+ "-" +:+ dec_pad 2 m +:+ "-" +:+ dec_pad 2 d +:+ String "T"
    (dec_pad 2 (t mod US_PER_DAY / US_PER_SECOND / 3600) +:+ ":" +:+
     dec_pad 2 (t mod US_PER_DAY / US_PER_SECOND / 60 mod 60) +:+ ":" +:+
     dec_pad 2 (t mod US_PER_DAY / US_PER_SECOND mod 60) +:+ "." +:+
     dec_pad 3 (t mod US_PER_SECOND / 1000) +:+ "+00:00").
Proof.
  intros Hc. unfold isoformat_ms, date_text, time_text. rewrite Hc.
  rewrite !replace_char_app, !dec_pad_no_Z, !app_assoc_str. done.
Qed.

(** The millisecond format is read back to the instant it was printed from, cut to milliseconds. *)
Lemma isoformat_ms_parse t :
  in_range t = true -> fromisoformat_z (isoformat_ms t) = Some (t - t mod 1000, Some 0).
Proof.
  intros Hr. destruct (civil_from_days (t / US_PER_DAY)) as [[y m] d] eqn:Hc.
  pose proof (civil_year_range _ _ _ _ Hr Hc) as Hy.
  pose proof (civil_spec _ _ _ _ Hc) as (Hday & Hm & Hd).
  pose proof (days_in_month_le y m d Hd) as [Hd31 _].
  unfold fromisoformat_z. rewrite (isoformat_ms_offset _ _ _ _ Hc).
  unfold fromisoformat. rewrite parse_date_text by lia.
  assert (valid_date y m d = true) as ->.
  { unfold valid_date. rewrite !andb_true_iff, !Z.leb_le. lia. }
  cbn [negb].
  assert (0 <= t mod US_PER_DAY / US_PER_SECOND < 86400) as Hs.
  { unfold US_PER_DAY, US_PER_SECOND. Z.div_mod_to_equations. lia. }
  destruct (clock_of_second _ Hs) as (H1 & H2 & H3 & Hsum).
  rewrite parse_time_ms; [|lia..|unfold US_PER_SECOND; Z.div_mod_to_equations; lia].
  rewrite Hsum. cbn [option_map fst snd]. do 2 f_equal. rewrite Hday.
  unfold US_PER_DAY, US_PER_SECOND. Z.div_mod_to_equations. lia.
Qed.

(** The outcome of a comparison of equally long prefixes decides; equal ones leave it to the rest. *)
Definition decide_order (c : comparison) (rest : bool) : bool :=
  match c with
  | Lt => true
  | Eq => rest
  | Gt => false
  end.

Lemma str_leb_same a s t : str_leb (String a s) (String a t) = str_leb s t.
Proof. rewrite str_leb_cons. by rewrite N.compare_refl. Qed.

Lemma digit_char_order x y : 0 <= x < 10 -> 0 <= y < 10 ->
  N.compare (N_of_ascii (digit_char x)) (N_of_ascii (digit_char y)) = Z.compare x y.
Proof.
  intros Hx Hy.
  assert (forall k, 0 <= k < 10 -> N_of_ascii (digit_char k) = Z.to_N (48 + k)) as Hd.
  { intros k Hk. unfold digit_char, chr. destruct (Z.ltb_spec k 10); [|lia]. rewrite Ascii.N_ascii_embedding; [done|lia]. }
  rewrite !Hd by done. rewrite <- N2Z.inj_compare, !Z2N.id by lia. apply Z.add_compare_mono_l.
Qed.

Lemma dec_pad_order w a b s t : 0 <= a < 10 ^ Z.of_nat w -> 0 <= b < 10 ^ Z.of_nat w ->
  str_leb (dec_pad w a +:+ s) (dec_pad w b +:+ t) = decide_order (Z.compare a b) (str_leb s t).
Proof.
  revert a b s t. induction w as [|w IH]; intros a b s t Ha Hb.
  { assert (a = 0 /\ b = 0) as [-> ->] by (cbn in *; lia). done. }
  rewrite !dec_pad_S, !app_assoc_str. rewrite Nat2Z.inj_succ, Z.pow_succ_r in * by lia.
  rewrite IH; [|Z.div_mod_to_equations; lia..]. cbn [str1 String.append].
  rewrite str_leb_cons, digit_char_order by (apply Z.mod_pos_bound; lia).
  destruct (Z.compare_spec (a / 10) (b / 10)); cbn [decide_order].
  - destruct (Z.compare_spec (a mod 10) (b mod 10)), (Z.compare_spec a b); cbn; try done; exfalso; Z.div_mod_to_equations; lia.
  - destruct (Z.compare_spec a b); [|done|]; exfalso; Z.div_mod_to_equations; lia.
  - destruct (Z.compare_spec a b); [| |done]; exfalso; Z.div_mod_to_equations; lia.
Qed.

(** ** Dates *)
Lemma year_days_next y : year_days y = year_days (y - 1) + if is_leap y then 366 else 365.
Proof.
  unfold year_days, is_leap. destruct (Z.eqb_spec (y mod 4) 0), (Z.eqb_spec (y mod 100) 0), (Z.eqb_spec (y mod 400) 0);
    cbn [negb andb orb]; Z.div_mod_to_equations; lia.
Qed.

Ltac eval_months :=
  repeat match goal with
  | |- context [?a <=? 2] => let v := eval vm_compute in (a <=? 2) in change (a <=? 2) with v; cbv iota
  | |- context [?a =? ?b] => let v := eval vm_compute in (a =? b) in change (a =? b) with v; cbv iota; cbn [orb]
  | |- context [(153 * ?a + 2) / 5] => let v := eval vm_compute in ((153 * a + 2) / 5) in change ((153 * a + 2) / 5) with v
  end.

Lemma next_month y m : 1 <= m < 12 -> days_from_civil y (m + 1) 1 = days_from_civil y m 1 + days_in_month y m.
Proof.
  intros Hm. rewrite !days_from_civil_year. pose proof (year_days_next y) as Hy. unfold days_in_month.
  assert (m = 1 \/ m = 2 \/ m = 3 \/ m = 4 \/ m = 5 \/ m = 6 \/ m = 7 \/ m = 8 \/ m = 9 \/ m = 10 \/ m = 11) as Hc by lia.
  repeat destruct Hc as [->|Hc]; [..|subst m]; eval_months; destruct (is_leap y); lia.
Qed.

Lemma days_from_civil_day y m d : days_from_civil y m d = days_from_civil y m 1 + (d - 1).
Proof. rewrite !days_from_civil_year. lia. Qed.

Lemma days_in_month_pos y m : 28 <= days_in_month y m.
Proof. unfold days_in_month. repeat case_match; lia. Qed.

Lemma months_mono y m k : 1 <= m -> m + Z.of_nat k <= 12 -> days_from_civil y m 1 <= days_from_civil y (m + Z.of_nat k) 1.
Proof.
  intros Hm. induction k as [|k IH]; intros Hk; [by rewrite Z.add_0_r|].
  rewrite Nat2Z.inj_succ. replace (m + Z.succ (Z.of_nat k)) with (m + Z.of_nat k + 1) by lia.
  rewrite next_month by lia. pose proof (days_in_month_pos y (m + Z.of_nat k)). lia.
Qed.

Lemma month_before y m1 d1 m2 d2 :
  1 <= m1 -> m1 < m2 <= 12 -> d1 <= days_in_month y m1 -> 1 <= d2 -> days_from_civil y m1 d1 < days_from_civil y m2 d2.
Proof.
  intros H1 H2 H3 H4. rewrite (days_from_civil_day y m1), (days_from_civil_day y m2).
  pose proof (next_month y m1 ltac:(lia)). pose proof (months_mono y (m1 + 1) (Z.to_nat (m2 - m1 - 1)) ltac:(lia) ltac:(lia)) as Hm.
  replace (m1 + 1 + Z.of_nat (Z.to_nat (m2 - m1 - 1))) with m2 in Hm by lia. lia.
Qed.

Lemma year_before y1 m1 d1 y2 m2 d2 :
  y1 < y2 -> 1 <= m1 <= 12 -> 1 <= d1 <= days_in_month y1 m1 -> 1 <= m2 <= 12 -> 1 <= d2 <= days_in_month y2 m2 ->
  days_from_civil y1 m1 d1 < days_from_civil y2 m2 d2.
Proof.
  intros Hy H1 H2 H3 H4. pose proof (days_from_civil_bounds y1 m1 d1 H1 H2). pose proof (days_from_civil_bounds y2 m2 d2 H3 H4).
  pose proof (days_from_civil_jan_mono (y1 + 1) y2 ltac:(lia)). lia.
Qed.

(** Dates compare by year, then month, then day. *)
Lemma civil_order z1 z2 y1 m1 d1 y2 m2 d2 (rest : bool) :
  civil_from_days z1 = (y1, m1, d1) -> civil_from_days z2 = (y2, m2, d2) ->
  decide_order (Z.compare y1 y2) (decide_order (Z.compare m1 m2) (decide_order (Z.compare d1 d2) rest)) =
  decide_order (Z.compare z1 z2) rest.
Proof.
  intros E1 E2. apply civil_spec in E1 as (<- & Hm1 & Hd1). apply civil_spec in E2 as (<- & Hm2 & Hd2).
  destruct (Z.compare_spec y1 y2) as [<-|Hy|Hy]; cbn [decide_order].
  - destruct (Z.compare_spec m1 m2) as [<-|Hm|Hm]; cbn [decide_order].
    + rewrite (days_from_civil_day y1 m1 d1), (days_from_civil_day y1 m1 d2).
      destruct (Z.compare_spec d1 d2), (Z.compare_spec (days_from_civil y1 m1 1 + (d1 - 1)) (days_from_civil y1 m1 1 + (d2 - 1)));
        cbn; try done; lia.
    + pose proof (month_before y1 m1 d1 m2 d2 ltac:(lia) ltac:(lia) ltac:(lia) ltac:(lia)) as H. by apply Z.compare_lt_iff in H as ->.
    + pose proof (month_before y1 m2 d2 m1 d1 ltac:(lia) ltac:(lia) ltac:(lia) ltac:(lia)) as H. by apply Z.compare_gt_iff in H as ->.
  - pose proof (year_before y1 m1 d1 y2 m2 d2 Hy Hm1 Hd1 Hm2 Hd2) as H. by apply Z.compare_lt_iff in H as ->.
  - pose proof (year_before y2 m2 d2 y1 m1 d1 Hy Hm2 Hd2 Hm1 Hd1) as H. by apply Z.compare_gt_iff in H as ->.
Qed.

Lemma date_text_order t1 t2 r1 r2 : in_range t1 = true -> in_range t2 = true ->
  str_leb (date_text t1 +:+ r1) (date_text t2 +:+ r2) = decide_order (Z.compare (t1 / US_PER_DAY) (t2 / US_PER_DAY)) (str_leb r1 r2).
Proof.
  intros H1 H2. unfold date_text.
  destruct (civil_from_days (t1 / US_PER_DAY)) as [[y1 m1] d1] eqn:E1. destruct (civil_from_days (t2 / US_PER_DAY)) as [[y2 m2] d2] eqn:E2.
  pose proof (civil_year_range _ _ _ _ H1 E1). pose proof (civil_year_range _ _ _ _ H2 E2).
  rewrite <- (civil_order _ _ _ _ _ _ _ _ (str_leb r1 r2) E1 E2).
  apply civil_spec in E1 as (_ & Hm1 & Hd1). apply civil_spec in E2 as (_ & Hm2 & Hd2).
  apply days_in_month_le in Hd1 as D1. apply days_in_month_le in Hd2 as D2.
  rewrite !app_assoc_str, dec_pad_order by (cbn; lia). cbn [String.append]. rewrite str_leb_same, ?app_assoc_str.
  rewrite dec_pad_order by (cbn; lia). cbn [String.append]. rewrite str_leb_same. by rewrite dec_pad_order by (cbn; lia).
Qed.

Lemma time_text_order s1 s2 r1 r2 : 0 <= s1 < 86400 -> 0 <= s2 < 86400 ->
  str_leb (time_text s1 +:+ r1) (time_text s2 +:+ r2) = decide_order (Z.compare s1 s2) (str_leb r1 r2).
Proof.
  intros H1 H2. unfold time_text. destruct (clock_of_second _ H1) as (A1 & A2 & A3 & A). destruct (clock_of_second _ H2) as (B1 & B2 & B3 & B).
  rewrite !app_assoc_str, dec_pad_order by (cbn; lia). cbn [String.append]. rewrite str_leb_same, ?app_assoc_str.
  rewrite dec_pad_order by (cbn; lia). cbn [String.append]. rewrite str_leb_same. rewrite dec_pad_order by (cbn; lia).
  destruct (Z.compare_spec (s1 / 3600) (s2 / 3600)), (Z.compare_spec (s1 / 60 mod 60) (s2 / 60 mod 60)),
    (Z.compare_spec (s1 mod 60) (s2 mod 60)), (Z.compare_spec s1 s2); cbn [decide_order]; try done; lia.
Qed.

(** ** Instants *)
Definition whole_second (t : Z) : Prop := t mod US_PER_SECOND = 0.

Lemma whole_second_text t : whole_second t ->
  isoformat_auto t = date_text t +:+ "T" +:+ time_text (t mod US_PER_DAY / US_PER_SECOND) +:+ "Z".
Proof. unfold whole_second, isoformat_auto. by intros ->. Qed.

Lemma second_of_day t : 0 <= t mod US_PER_DAY / US_PER_SECOND < 86400.
Proof. unfold US_PER_DAY, US_PER_SECOND. Z.div_mod_to_equations. lia. Qed.

Lemma whole_second_split t : whole_second t -> t = t / US_PER_DAY * US_PER_DAY + t mod US_PER_DAY / US_PER_SECOND * US_PER_SECOND.
Proof. unfold whole_second, US_PER_DAY, US_PER_SECOND. intros. Z.div_mod_to_equations. lia. Qed.

(** Texts compare as instants. *)
Lemma isoformat_order t1 t2 :
  in_range t1 = true -> in_range t2 = true -> whole_second t1 -> whole_second t2 ->
  str_leb (isoformat_auto t1) (isoformat_auto t2) = (t1 <=? t2).
Proof.
  intros H1 H2 W1 W2. rewrite !whole_second_text by done. rewrite date_text_order by done. cbn [String.append].
  rewrite str_leb_same, time_text_order by apply second_of_day. cbn.
  pose proof (whole_second_split t1 W1) as E1. pose proof (whole_second_split t2 W2) as E2.
  pose proof (second_of_day t1). pose proof (second_of_day t2). unfold US_PER_DAY, US_PER_SECOND in *.
  destruct (Z.compare_spec (t1 / (86400 * 1000000)) (t2 / (86400 * 1000000))); cbn [decide_order];
    [destruct (Z.compare_spec (t1 mod (86400 * 1000000) / 1000000) (t2 mod (86400 * 1000000) / 1000000)); cbn [decide_order]|..];
    symmetry; rewrite ?Z.leb_le, ?Z.leb_gt; lia.
Qed.

Lemma isoformat_inj t1 t2 :
  in_range t1 = true -> in_range t2 = true -> whole_second t1 -> whole_second t2 ->
  isoformat_auto t1 = isoformat_auto t2 -> t1 = t2.
Proof.
  intros H1 H2 W1 W2 E. pose proof (isoformat_order t1 t2 H1 H2 W1 W2) as A. pose proof (isoformat_order t2 t1 H2 H1 W2 W1) as B.
  rewrite E in A, B. assert (str_leb (isoformat_auto t2) (isoformat_auto t2) = true) as R by (destruct (str_leb_total (isoformat_auto t2) (isoformat_auto t2)); done).
  rewrite R in *. symmetry in A, B. apply Z.leb_le in A, B. lia.
Qed.

(** ** The way back *)
Lemma parse_time_second h m s : 0 <= h < 24 -> 0 <= m < 60 -> 0 <= s < 60 ->
  parse_time (dec_pad 2 h +:+ ":" +:+ dec_pad 2 m +:+ ":" +:+ dec_pad 2 s +:+ "+00:00") = Some ((h * 3600 + m * 60 + s) * US_PER_SECOND, Some 0).
Proof.
  intros Hh Hm Hs.
  destruct (dec_pad_2 h) as (h1 & h2 & -> & ? & ?); [lia|].
  destruct (dec_pad_2 m) as (m1 & m2 & -> & ? & ?); [lia|].
  destruct (dec_pad_2 s) as (s1 & s2 & -> & ? & ?); [lia|].
  use_digits.
  assert (valid_time h m s = true) as Hv by (unfold valid_time; rewrite !andb_true_iff, !Z.leb_le; lia).
  unfold parse_time. repeat (clock_simpl; rew_digits).
  assert (parse_hms "00:00" false = Some (0, 0, 0, 0, false)) as -> by by vm_compute.
  unfold parse_hms. repeat (clock_simpl; rew_digits). rewrite !digits_2_join, Hv. clock_simpl.
  match goal with |- (if ?b then _ else _) = _ => change b with true end. cbv iota. by rewrite Z.add_0_r.
Qed.

(** The text of a whole second is read back to it. *)
Lemma isoformat_parse t : in_range t = true -> whole_second t -> fromisoformat_z (isoformat_auto t) = Some (t, Some 0).
Proof.
  intros Hr Hw. destruct (civil_from_days (t / US_PER_DAY)) as [[y m] d] eqn:Hc.
  pose proof (civil_year_range _ _ _ _ Hr Hc) as Hy.
  pose proof (civil_spec _ _ _ _ Hc) as (Hday & Hm & Hd).
  pose proof (days_in_month_le y m d Hd) as [Hd31 _].
  rewrite whole_second_text by done. unfold fromisoformat_z, date_text, time_text. rewrite Hc.
  rewrite !replace_char_app, !dec_pad_no_Z, !app_assoc_str. cbn [replace_char].
  unfold fromisoformat. rewrite parse_date_text by lia.
  assert (valid_date y m d = true) as -> by (unfold valid_date; rewrite !andb_true_iff, !Z.leb_le; lia).
  cbn [negb String.append]. destruct (clock_of_second _ (second_of_day t)) as (H1 & H2 & H3 & Hsum).
  pose proof (parse_time_second _ _ _ H1 H2 H3) as Hp. 
  change (option_map (fun p : Z * option Z => (days_from_civil y m d * US_PER_DAY + p.1, p.2))
    (parse_time (dec_pad 2 (t mod US_PER_DAY / US_PER_SECOND / 3600) +:+ ":" +:+ dec_pad 2 (t mod US_PER_DAY / US_PER_SECOND / 60 mod 60)
      +:+ ":" +:+ dec_pad 2 (t mod US_PER_DAY / US_PER_SECOND mod 60) +:+ "+00:00")) = Some (t, Some 0)).
  rewrite Hp, Hsum. cbn [option_map fst snd].
  rewrite Hday. by rewrite <- whole_second_split.
Qed.

(** ** With microseconds *)
Lemma dec_pad_6 n : 0 <= n < 1000000 -> exists a b c d e f,
  dec_pad 6 n = String a (String b (String c (String d (String e (str1 f))))) /\
  is_digit_of a (n / 100000) /\ is_digit_of b (n / 10000 mod 10) /\ is_digit_of c (n / 1000 mod 10) /\
  is_digit_of d (n / 100 mod 10) /\ is_digit_of e (n / 10 mod 10) /\ is_digit_of f (n mod 10).
Proof.
  intros Hn. destruct (dec_pad_4 (n / 100)) as (a & b & c & d & Habcd & Ha & Hb & Hc & Hd).
  { split; [apply Z.div_pos|apply Z.div_lt_upper_bound]; lia. }
  exists a, b, c, d, (digit_char (n / 10 mod 10)), (digit_char (n mod 10)). rewrite Z.div_div in Ha, Hb, Hc by lia.
  rewrite (dec_pad_S 5), (dec_pad_S 4), Z.div_div by lia. change (10 * 10) with 100. rewrite Habcd.
  split; [done|]. do 4 (split; [done|]). by split; apply digit_char_spec, Z.mod_pos_bound.
Qed.

Lemma digits_6_join n :
  ((((n / 100000 * 10 + n / 10000 mod 10) * 10 + n / 1000 mod 10) * 10 + n / 100 mod 10) * 10 + n / 10 mod 10) * 10 + n mod 10 = n.
Proof. Z.div_mod_to_equations. lia. Qed.

Lemma parse_time_us h m s us : 0 <= h < 24 -> 0 <= m < 60 -> 0 <= s < 60 -> 0 <= us < 1000000 ->
  parse_time (dec_pad 2 h +:+ ":" +:+ dec_pad 2 m +:+ ":" +:+ dec_pad 2 s +:+ "." +:+ dec_pad 6 us +:+ "+00:00")
  = Some ((h * 3600 + m * 60 + s) * US_PER_SECOND + us, Some 0).
Proof.
  intros Hh Hm Hs Hus.
  destruct (dec_pad_2 h) as (h1 & h2 & -> & ? & ?); [lia|].
  destruct (dec_pad_2 m) as (m1 & m2 & -> & ? & ?); [lia|].
  destruct (dec_pad_2 s) as (s1 & s2 & -> & ? & ?); [lia|].
  destruct (dec_pad_6 us) as (f1 & f2 & f3 & f4 & f5 & f6 & -> & ? & ? & ? & ? & ? & ?); [lia|].
  use_digits.
  assert (valid_time h m s = true) as Hv by (unfold valid_time; rewrite !andb_true_iff, !Z.leb_le; lia).
  unfold parse_time. repeat (clock_simpl; rew_digits).
  assert (parse_hms "00:00" false = Some (0, 0, 0, 0, false)) as -> by by vm_compute.
  unfold parse_hms. repeat (clock_simpl; rew_digits). rewrite !digits_2_join, Hv. clock_simpl.
  change (0 * 10 + us / 100000) with (us / 100000). rewrite digits_6_join.
  change (10 ^ (6 - Z.of_nat 6)) with 1. rewrite Z.mul_1_r.
  match goal with |- (if ?b then _ else _) = _ => change b with true end. done.
Qed.

(** Every instant is read back from its text. *)
Lemma isoformat_auto_parse t : in_range t = true -> fromisoformat_z (isoformat_auto t) = Some (t, Some 0).
Proof.
  intros Hr. destruct (t mod US_PER_SECOND =? 0) eqn:Hw; [apply Z.eqb_eq in Hw; by apply isoformat_parse|].
  destruct (civil_from_days (t / US_PER_DAY)) as [[y m] d] eqn:Hc.
  pose proof (civil_year_range _ _ _ _ Hr Hc) as Hy.
  pose proof (civil_spec _ _ _ _ Hc) as (Hday & Hm & Hd).
  pose proof (days_in_month_le y m d Hd) as [Hd31 _].
  unfold isoformat_auto. rewrite Hw. unfold fromisoformat_z, date_text, time_text. rewrite Hc.
  rewrite !replace_char_app, !dec_pad_no_Z, !app_assoc_str. cbn [replace_char].
  unfold fromisoformat. rewrite parse_date_text by lia.
  assert (valid_date y m d = true) as -> by (unfold valid_date; rewrite !andb_true_iff, !Z.leb_le; lia).
  cbn [negb String.append]. destruct (clock_of_second _ (second_of_day t)) as (H1 & H2 & H3 & Hsum).
  assert (0 <= t mod US_PER_SECOND < 1000000) as Hus by (apply Z.mod_pos_bound; done).
  pose proof (parse_time_us _ _ _ _ H1 H2 H3 Hus) as Hp.
  change (option_map (fun p : Z * option Z => (days_from_civil y m d * US_PER_DAY + p.1, p.2))
    (parse_time (dec_pad 2 (t mod US_PER_DAY / US_PER_SECOND / 3600) +:+ ":" +:+ dec_pad 2 (t mod US_PER_DAY / US_PER_SECOND / 60 mod 60)
      +:+ ":" +:+ dec_pad 2 (t mod US_PER_DAY / US_PER_SECOND mod 60) +:+ "." +:+ dec_pad 6 (t mod US_PER_SECOND) +:+ "+00:00")) = Some (t, Some 0)).
  rewrite Hp, Hsum. cbn [option_map fst snd]. rewrite Hday. do 2 f_equal.
  unfold US_PER_DAY, US_PER_SECOND. Z.div_mod_to_equations. lia.
Qed.
