(* ===== verification/PyNet.v ===== *)
(** Python's [ipaddress] module: addresses and networks of both versions.

    Parsing and printing follow CPython 3.11's [IPv4Address], [IPv6Address] (scope identifiers
    included) and [ip_network(..., strict=False)]; the special-purpose tables are those of
    CPython 3.11.2 and later. *)

From S2P Require Import Prelude PyText.

(** An address object: its number, and for version 6 its scope identifier. *)
Inductive ip_addr : Type :=
| IPv4 (n : Z)
| IPv6 (n : Z) (scope : option string).

#[global] Instance ip_addr_eq_dec : EqDecision ip_addr.
Proof. solve_decision. Defined.

(** A network object: [network_address] (whose scope survives when no host bit was set) and
    [prefixlen]. *)
Record ip_net : Type := IpNet { net_addr : ip_addr; net_plen : Z }.

#[global] Instance ip_net_eq_dec : EqDecision ip_net.
Proof. solve_decision. Defined.

Definition ip_number (a : ip_addr) : Z :=
  match a with
  | IPv4 n | IPv6 n _ => n
  end.

Definition is_v4 (a : ip_addr) : bool :=
  match a with
  | IPv4 _ => true
  | IPv6 _ _ => false
  end.

(** Big-endian value of a list of digits of a base. *)
Definition be_value (base : Z) (ds : list Z) : Z := fold_left (fun acc d => acc * base + d) ds 0.

(** * Parsing *)

(** [_parse_octet]. *)
Definition parse_octet (s : string) : option Z :=
  if negb (str_forallb is_ascii_digit s) || (3 <? str_len s) then None
  else if negb (String.eqb s "0") && String.prefix "0" s then None
  else match parse_digits 10 s with
       | Some v => if 255 <? v then None else Some v
       | None => None
       end.

(** [_BaseV4._ip_int_from_string]. *)
Definition parse_ipv4 (s : string) : option Z :=
  let octets := split_on "." s in
  if negb (Nat.eqb (length octets) 4) then None
  else option_map (be_value 256) (mapM parse_octet octets).

(** [_parse_hextet]. *)
Definition parse_hextet (s : string) : option Z :=
  if 4 <? str_len s then None else parse_digits 16 s.

(** Positions from [i] of the empty strings of a list. *)
Fixpoint empty_positions (i : nat) (l : list string) : list nat :=
  match l with
  | [] => []
  | s :: r => if String.eqb s "" then i :: empty_positions (S i) r else empty_positions (S i) r
  end.

(** The eight groups written out, the run hidden by [::] filled with zeros. *)
Definition expand_groups (parts : list string) : option (list string) :=
  let n := length parts in
  let first := hd "" parts in
  let final := List.last parts "" in
  if (9 <? n)%nat then None else
  match empty_positions 1 (removelast (tl parts)) with
  | [] =>
      if Nat.eqb n 8 && negb (String.eqb first "") && negb (String.eqb final "") then Some parts else None
  | [k] =>
      let hi := if String.eqb first "" then (if Nat.eqb k 1 then Some [] else None) else Some (take k parts) in
      let lo :=
        if String.eqb final "" then (if Nat.eqb (n - k - 1) 1 then Some [] else None)
        else Some (drop (S k) parts) in
      match hi, lo with
      | Some hi, Some lo =>
          if (length hi + length lo <? 8)%nat
          then Some (hi ++ replicate (8 - (length hi + length lo)) "0" ++ lo) else None
      | _, _ => None
      end
  | _ => None
  end.

(** An IPv4 address in the last group becomes two groups. *)
Definition embed_ipv4 (parts : list string) : option (list string) :=
  let final := List.last parts "" in
  if str_has "." final then
    option_map (fun v => removelast parts ++ [hex_of_Z (v / 65536); hex_of_Z (v mod 65536)]) (parse_ipv4 final)
  else Some parts.

(** [_BaseV6._ip_int_from_string]. *)
Definition parse_ipv6 (s : string) : option Z :=
  let parts := split_on ":" s in
  if (length parts <? 3)%nat then None else
  match embed_ipv4 parts with
  | None => None
  | Some parts =>
      match expand_groups parts with
      | None => None
      | Some groups => option_map (be_value 65536) (mapM parse_hextet groups)
      end
  end.

(** [_split_scope_id] then the address proper. *)
Definition parse_ipv6_scoped (s : string) : option ip_addr :=
  match partition_on "%" s with
  | (a, false, _) => option_map (fun n => IPv6 n None) (parse_ipv6 a)
  | (a, true, scope) =>
      if String.eqb scope "" || str_has "%" scope then None
      else option_map (fun n => IPv6 n (Some scope)) (parse_ipv6 a)
  end.

(** [ipaddress.ip_address(s)]; [None] is a [ValueError]. *)
Definition ip_address (s : string) : option ip_addr :=
  if str_has "/" s then None else
  match parse_ipv4 s with
  | Some n => Some (IPv4 n)
  | None => parse_ipv6_scoped s
  end.

(** * Printing *)
Fixpoint groups_of (base : Z) (n : nat) (v : Z) : list Z :=
  match n with
  | O => []
  | S n' => groups_of base n' (v / base) ++ [v mod base]
  end.

(** Start and length of the first longest run of "0" groups, as [_compress_hextets] scans them. *)
Fixpoint longest_zeros (l : list string) (i start len best_start best_len : nat) : nat * nat :=
  match l with
  | [] => (best_start, best_len)
  | s :: r =>
      if String.eqb s "0" then
        let start := if Nat.eqb len 0 then i else start in
        let len := S len in
        if (best_len <? len)%nat then longest_zeros r (S i) start len start len
        else longest_zeros r (S i) start len best_start best_len
      else longest_zeros r (S i) 0 0 best_start best_len
  end.

Definition compress_hextets (l : list string) : list string :=
  let '(start, len) := longest_zeros l 0 0 0 0 0 in
  if (1 <? len)%nat then
    let final := if Nat.eqb (start + len) (length l) then [""] else [] in
    let body := take start l ++ [""] ++ drop (start + len) l ++ final in
    if Nat.eqb start 0 then "" :: body else body
  else l.

Definition ipv4_text (n : Z) : string := str_join "." (map str_of_Z (groups_of 256 4 n)).
Definition ipv6_text (n : Z) : string :=
  str_join ":" (compress_hextets (map hex_of_Z (groups_of 65536 8 n))).

(** [str(address)]. *)
Definition ip_text (a : ip_addr) : string :=
  match a with
  | IPv4 n => ipv4_text n
  | IPv6 n None => ipv6_text n
  | IPv6 n (Some s) => if String.eqb s "" then ipv6_text n else ipv6_text n +:+ "%" +:+ s
  end.

(** [str(network)]. *)
Definition net_text (n : ip_net) : string := ip_text (net_addr n) +:+ "/" +:+ str_of_Z (net_plen n).

(** * Networks *)
Definition width (a : ip_addr) : Z := if is_v4 a then 32 else 128.

Definition netmask (w plen : Z) : Z := 2 ^ w - 2 ^ (w - plen).

(** [_prefix_from_prefix_string]. *)
Definition parse_prefix (w : Z) (s : string) : option Z :=
  if negb (str_forallb is_ascii_digit s) then None else
  match parse_digits 10 s with
  | Some p => if p <=? w then Some p else None
  | None => None
  end.

(** The prefix length of a contiguous mask: [_prefix_from_ip_int]. *)
Definition prefix_of_mask (mask : Z) : option Z :=
  option_map Z.of_nat (list_find (fun p => netmask 32 (Z.of_nat p) = mask) (seq 0 33) ≫= fun r => Some r.2).

(** [_BaseV4._make_netmask] of a string: a prefix length, a netmask or a host mask. *)
Definition parse_mask_v4 (s : string) : option Z :=
  match parse_prefix 32 s with
  | Some p => Some p
  | None =>
      match parse_ipv4 s with
      | Some m =>
          match prefix_of_mask m with
          | Some p => Some p
          | None => prefix_of_mask (2 ^ 32 - 1 - m)
          end
      | None => None
      end
  end.

Definition masked (a : ip_addr) (p : Z) : ip_addr :=
  let n := Z.land (ip_number a) (netmask (width a) p) in
  match a with
  | IPv4 _ => IPv4 n
  | IPv6 m s => if n =? m then a else IPv6 n None
  end.

(** [ipaddress.ip_network(s, strict=False)]; [None] is a [ValueError]. *)
Definition ip_network (s : string) : option ip_net :=
  match split_on "/" s with
  | [a] =>
      option_map (fun x => IpNet x (width x)) (ip_address a)
  | [a; m] =>
      let v4 :=
        match parse_ipv4 a, parse_mask_v4 m with
        | Some n, Some p => Some (IpNet (masked (IPv4 n) p) p)
        | _, _ => None
        end in
      match v4 with
      | Some n => Some n
      | None =>
          match parse_ipv6_scoped a, parse_prefix 128 m with
          | Some x, Some p => Some (IpNet (masked x p) p)
          | _, _ => None
          end
      end
  | _ => None
  end.

(** [address in network]: the version and the masked number decide, the scope does not. *)
Definition in_network (a : ip_addr) (n : ip_net) : bool :=
  Bool.eqb (is_v4 a) (is_v4 (net_addr n)) &&
  (Z.land (ip_number a) (netmask (width a) (net_plen n)) =? ip_number (net_addr n)).

Definition in_any (a : ip_addr) (nets : list ip_net) : bool := existsb (in_network a) nets.

(** * Special-purpose ranges *)
Definition nets (l : list string) : list ip_net := omap ip_network l.

Definition v4_private : list ip_net := nets ["0.0.0.0/8"; "10.0.0.0/8"; "127.0.0.0/8"; "169.254.0.0/16";
  "172.16.0.0/12"; "192.0.0.0/24"; "192.0.0.170/31"; "192.0.2.0/24"; "192.168.0.0/16"; "198.18.0.0/15";
  "198.51.100.0/24"; "203.0.113.0/24"; "240.0.0.0/4"; "255.255.255.255/32"].
Definition v4_private_exceptions : list ip_net := nets ["192.0.0.9/32"; "192.0.0.10/32"].
Definition v6_private : list ip_net := nets ["::1/128"; "::/128"; "::ffff:0:0/96"; "64:ff9b:1::/48";
  "100::/64"; "2001::/23"; "2001:db8::/32"; "2002::/16"; "fc00::/7"; "fe80::/10"].
Definition v6_private_exceptions : list ip_net := nets ["2001:1::1/128"; "2001:1::2/128"; "2001:3::/32";
  "2001:4:112::/48"; "2001:20::/28"; "2001:30::/28"].
Definition v6_reserved : list ip_net := nets ["::/8"; "100::/8"; "200::/7"; "400::/6"; "800::/5";
  "1000::/4"; "4000::/3"; "6000::/3"; "8000::/3"; "A000::/3"; "C000::/3"; "E000::/4"; "F000::/5";
  "F800::/6"; "FE00::/9"].

Definition is_unspecified (a : ip_addr) : bool := ip_number a =? 0.

Definition is_loopback (a : ip_addr) : bool :=
  match a with
  | IPv4 _ => in_any a (nets ["127.0.0.0/8"])
  | IPv6 n _ => n =? 1
  end.

Definition is_link_local (a : ip_addr) : bool := in_any a (nets ["169.254.0.0/16"; "fe80::/10"]).
Definition is_multicast (a : ip_addr) : bool := in_any a (nets ["224.0.0.0/4"; "ff00::/8"]).

Definition is_reserved (a : ip_addr) : bool :=
  match a with
  | IPv4 _ => in_any a (nets ["240.0.0.0/4"])
  | IPv6 _ _ => in_any a v6_reserved
  end.

Definition is_private_v4 (n : Z) : bool :=
  in_any (IPv4 n) v4_private && negb (in_any (IPv4 n) v4_private_exceptions).

(** A version 6 address that maps a version 4 one is private when that one is. *)
Definition is_private (a : ip_addr) : bool :=
  match a with
  | IPv4 n => is_private_v4 n
  | IPv6 n _ =>
      if n / 2 ^ 32 =? 65535 then is_private_v4 (n mod 2 ^ 32)
      else in_any a v6_private && negb (in_any a v6_private_exceptions)
  end.

(** * Lemmas *)

(** What an address object always satisfies. *)
Definition scope_ok (s : string) : Prop :=
  s <> "" /\ str_has "%" s = false /\ str_has "/" s = false.

Definition ip_wf (a : ip_addr) : Prop :=
  match a with
  | IPv4 n => 0 <= n < 2 ^ 32
  | IPv6 n None => 0 <= n < 2 ^ 128
  | IPv6 n (Some s) => 0 <= n < 2 ^ 128 /\ scope_ok s
  end.

Lemma be_value_acc base ds acc :
  fold_left (fun acc d => acc * base + d) ds acc = acc * base ^ Z.of_nat (length ds) + be_value base ds.
Proof.
  unfold be_value. revert acc. induction ds as [|d ds IH]; intros acc.
  - simpl. rewrite Z.pow_0_r. lia.
  - cbn [fold_left length]. rewrite IH, (IH (0 * base + d)), Nat2Z.inj_succ, Z.pow_succ_r by lia. ring.
Qed.

Lemma be_value_snoc base ds d : be_value base (ds ++ [d]) = be_value base ds * base + d.
Proof. unfold be_value. by rewrite fold_left_app. Qed.

Lemma be_value_bounds base ds :
  0 < base -> Forall (fun d => 0 <= d < base) ds -> 0 <= be_value base ds < base ^ Z.of_nat (length ds).
Proof.
  intros Hb. induction ds as [|d ds IH] using rev_ind; intros Hall.
  - rewrite Z.pow_0_r. unfold be_value; simpl. lia.
  - apply Forall_app in Hall as [Hds Hd]. inversion_clear Hd.
    rewrite be_value_snoc, length_app, Nat.add_1_r, Nat2Z.inj_succ, Z.pow_succ_r by lia.
    specialize (IH Hds). nia.
Qed.

Lemma groups_of_spec base n v :
  0 < base -> 0 <= v < base ^ Z.of_nat n ->
  be_value base (groups_of base n v) = v /\ length (groups_of base n v) = n /\
  Forall (fun d => 0 <= d < base) (groups_of base n v).
Proof.
  intros Hb. revert v. induction n as [|n IH]; intros v Hv.
  - rewrite Z.pow_0_r in Hv. simpl. split; [unfold be_value; simpl; lia|]. split; [done|constructor].
  - rewrite Nat2Z.inj_succ, Z.pow_succ_r in Hv by lia.
    destruct (IH (v / base)) as (H1 & H2 & H3).
    { split; [apply Z.div_pos; lia|apply Z.div_lt_upper_bound; lia]. }
    cbn [groups_of]. rewrite be_value_snoc, length_app, H1, H2. split; [|split].
    + pose proof (Z.div_mod v base). lia.
    + simpl. lia.
    + apply Forall_app. split; [done|]. repeat constructor; by apply Z.mod_pos_bound.
Qed.

Lemma mapM_inverse {A B} (f : A -> option B) (g : B -> A) (l : list B) :
  Forall (fun b => f (g b) = Some b) l -> mapM f (map g l) = Some l.
Proof. induction 1 as [|b l Hb Hl IH]; simpl; [done|]. by rewrite Hb; simpl; rewrite IH. Qed.

(** The characters of printed addresses. *)
Definition is_hex_char (a : ascii) : bool := is_ascii_digit a || ((97 <=? code a) && (code a <=? 102)).

Definition no_char (c : ascii) (s : string) : bool := str_forallb (fun a => negb (Ascii.eqb a c)) s.

Lemma str_has_no_char c s : str_has c s = negb (no_char c s).
Proof. done. Qed.

Lemma forallb_join p sep parts :
  str_forallb p sep = true -> Forall (fun w => str_forallb p w = true) parts -> str_forallb p (str_join sep parts) = true.
Proof.
  intros Hsep. induction 1 as [|w r Hw Hr IH]; [done|]. destruct r as [|w' r]; [done|].
  change (str_forallb p (w +:+ sep +:+ str_join sep (w' :: r)) = true).
  by rewrite !str_forallb_app, Hw, Hsep, IH.
Qed.

Lemma no_char_join c sep parts :
  no_char c sep = true -> Forall (fun w => no_char c w = true) parts -> no_char c (str_join sep parts) = true.
Proof. apply forallb_join. Qed.

Definition visible (s : string) : bool := str_forallb (fun a => negb (is_space a)) s.

Definition octet_ok (g : Z) : bool :=
  let s := str_of_Z g in
  bool_decide (parse_octet s = Some g) && no_char "." s && no_char "/" s && no_char ":" s && no_char "%" s
  && visible s.

Lemma octet_facts g : 0 <= g < 256 -> octet_ok g = true.
Proof. intros Hg. apply (all_from_spec octet_ok 256 0); [by vm_compute|lia]. Qed.

Definition hextet_ok (g : Z) : bool :=
  let s := hex_of_Z g in
  bool_decide (parse_hextet s = Some g) && no_char "." s && no_char "/" s && no_char ":" s && no_char "%" s
  && visible s && Bool.eqb (String.eqb s "0") (g =? 0) && negb (String.eqb s "").

(** The characters of a hexadecimal group. *)
Definition group_char (a : ascii) : bool :=
  negb (Ascii.eqb a ".") && negb (Ascii.eqb a "/") && negb (Ascii.eqb a ":") && negb (Ascii.eqb a "%") && negb (is_space a).

Lemma group_char_digit d : 0 <= d < 16 -> group_char (digit_char d) = true.
Proof. intros Hd. apply (all_from_spec (fun d => group_char (digit_char d)) 16 0); [by vm_compute|lia]. Qed.

Lemma hextet_facts g : 0 <= g < 65536 -> hextet_ok g = true.
Proof.
  intros Hg. unfold hextet_ok, hex_of_Z. pose proof (parse_digits_digits 16 g ltac:(lia) ltac:(lia)) as Hp.
  pose proof (digits_aux_length 16 3 (S (Z.to_nat (Z.log2 g))) g "" ltac:(lia) ltac:(simpl; lia)) as Hl.
  pose proof (digits_aux_chars group_char 16 (S (Z.to_nat (Z.log2 g))) g "" ltac:(lia) group_char_digit eq_refl) as Hc.
  fold (digits 16 g) in Hl, Hc. assert (str_forallb group_char (digits 16 g) = true -> forall p,
    (forall a, group_char a = true -> p a = true) -> str_forallb p (digits 16 g) = true) as Himp.
  { intros H p Hi. eapply str_forallb_impl; [exact Hi|exact H]. }
  assert (bool_decide (parse_hextet (digits 16 g) = Some g) = true) as ->.
  { apply bool_decide_eq_true. unfold parse_hextet, str_len.
    rewrite (proj2 (Z.ltb_ge _ _)); [exact Hp|]. simpl in Hl. lia. }
  unfold no_char, visible.
  assert (forall a, group_char a = true -> negb (Ascii.eqb a ".") = true /\ negb (Ascii.eqb a "/") = true /\
    negb (Ascii.eqb a ":") = true /\ negb (Ascii.eqb a "%") = true /\ negb (is_space a) = true) as Hg5.
  { intros a. unfold group_char. destruct (Ascii.eqb a "."), (Ascii.eqb a "/"), (Ascii.eqb a ":"), (Ascii.eqb a "%"), (is_space a); done. }
  rewrite !(Himp Hc) by (intros a Ha; apply Hg5 in Ha; tauto). simpl.
  apply andb_true_intro. split.
  - destruct (String.eqb_spec (digits 16 g) "0") as [E|E].
    + rewrite E in Hp. injection Hp as <-. done.
    + destruct (Z.eqb_spec g 0) as [->|]; [by destruct E|done].
  - destruct (String.eqb_spec (digits 16 g) "") as [E|E]; [by rewrite E in Hp|done].
Qed.

Lemma parse_ipv4_text n : 0 <= n < 2 ^ 32 -> parse_ipv4 (ipv4_text n) = Some n.
Proof.
  intros Hn. destruct (groups_of_spec 256 4 n) as (Hv & Hl & Hb); [lia|done|].
  unfold parse_ipv4, ipv4_text. rewrite split_on_join.
  - rewrite length_map, Hl. simpl Nat.eqb. cbn [negb].
    rewrite mapM_inverse; [unfold option_map; by rewrite Hv|].
    eapply Forall_impl; [done|]. simpl. intros g Hg. apply octet_facts in Hg. unfold octet_ok in Hg. by bool_inv.
  - intros E. apply map_eq_nil in E. by rewrite E in Hl.
  - apply Forall_map. eapply Forall_impl; [done|]. simpl. intros g Hg.
    apply octet_facts in Hg. unfold octet_ok in Hg. by bool_inv.
Qed.

(** * Round trip of version 6 addresses *)

(** What [expand_groups] must undo: a group is a printed number, and "0" prints zero only. *)
Definition is_group (s : string) : Prop := String.eqb s "" = false.

Lemma expand_compress a b c d e f g h :
  Forall is_group [a; b; c; d; e; f; g; h] ->
  expand_groups (compress_hextets [a; b; c; d; e; f; g; h]) = Some [a; b; c; d; e; f; g; h].
Proof.
  intros Hall.
  repeat match goal with H : Forall _ (_ :: _) |- _ => inversion_clear H as [|? ? ?Hg ?Hr] end.
  unfold is_group in *. unfold compress_hextets.
  repeat match goal with
  | |- context [String.eqb ?x "0"] => destruct (String.eqb_spec x "0") as [->|]
  | |- _ => cbn [longest_zeros Nat.eqb Nat.ltb Nat.leb]
  end; unfold expand_groups; cbn;
  repeat (match goal with
    | H : String.eqb ?x "" = false |- context [String.eqb ?x ""] => rewrite H
    end; cbn); reflexivity.
Qed.

Lemma expand_groups_len parts g : expand_groups parts = Some g -> (3 <= length parts)%nat.
Proof. destruct parts as [|? [|? [|? ?]]]; simpl; [done|done|done|lia]. Qed.

Lemma compress_Forall (P : string -> Prop) l : P "" -> Forall P l -> Forall P (compress_hextets l).
Proof.
  intros H0 Hl. unfold compress_hextets. destruct (longest_zeros l 0 0 0 0 0) as [start len].
  destruct (1 <? len)%nat; [|done].
  assert (Forall P (take start l ++ [""] ++ drop (start + len) l ++
    (if Nat.eqb (start + len) (length l) then [""] else []))) as Hbody.
  { repeat apply Forall_app_2; [by apply Forall_take|by constructor|by apply Forall_drop|].
    destruct (Nat.eqb _ _); by repeat constructor. }
  destruct (Nat.eqb start 0); [by constructor|done].
Qed.

Lemma last_Forall (P : string -> Prop) l : P "" -> Forall P l -> P (List.last l "").
Proof. intros H0. induction 1 as [|x [|y l] Hx Hl IH]; [done..|]. exact IH. Qed.

Lemma ipv6_groups n : 0 <= n < 2 ^ 128 ->
  exists a b c d e f g h, groups_of 65536 8 n = [a; b; c; d; e; f; g; h] /\
    Forall (fun x => 0 <= x < 65536) [a; b; c; d; e; f; g; h] /\
    be_value 65536 [a; b; c; d; e; f; g; h] = n.
Proof.
  intros Hn. destruct (groups_of_spec 65536 8 n) as (Hv & Hl & Hb); [lia|done|].
  destruct (groups_of 65536 8 n) as [|a [|b [|c [|d [|e [|f [|g [|h [|]]]]]]]]] eqn:E; try discriminate Hl.
  exists a, b, c, d, e, f, g, h. done.
Qed.

Lemma hextet_chars x : 0 <= x < 65536 ->
  parse_hextet (hex_of_Z x) = Some x /\ is_group (hex_of_Z x) /\
  no_char "." (hex_of_Z x) = true /\ no_char "/" (hex_of_Z x) = true /\
  no_char ":" (hex_of_Z x) = true /\ no_char "%" (hex_of_Z x) = true.
Proof. intros Hx. apply hextet_facts in Hx. unfold hextet_ok in Hx. bool_inv. unfold is_group. by rewrite String.eqb_neq. Qed.

Lemma hextet_visible x : 0 <= x < 65536 -> visible (hex_of_Z x) = true.
Proof. intros Hx. apply hextet_facts in Hx. unfold hextet_ok in Hx. by bool_inv. Qed.

Lemma ipv6_text_no_char c n :
  0 <= n < 2 ^ 128 -> no_char c ":" = true ->
  (forall x, 0 <= x < 65536 -> no_char c (hex_of_Z x) = true) -> no_char c (ipv6_text n) = true.
Proof.
  intros Hn Hc Hx. destruct (groups_of_spec 65536 8 n) as (_ & _ & Hb); [lia|done|].
  unfold ipv6_text. apply no_char_join; [done|]. apply compress_Forall; [done|].
  apply Forall_map. eapply Forall_impl; [done|]. simpl. auto.
Qed.

Lemma parse_ipv6_text n : 0 <= n < 2 ^ 128 -> parse_ipv6 (ipv6_text n) = Some n.
Proof.
  intros Hn. destruct (ipv6_groups n Hn) as (a & b & c & d & e & f & g & h & Hgs & Hall & Hv).
  unfold parse_ipv6, ipv6_text. rewrite Hgs.
  set (words := map hex_of_Z [a; b; c; d; e; f; g; h]).
  assert (expand_groups (compress_hextets words) = Some words) as Hexp.
  { apply expand_compress. change (Forall is_group words). apply Forall_map.
    eapply Forall_impl; [done|]. intros x Hx. simpl. by apply hextet_chars. }
  pose proof (expand_groups_len _ _ Hexp) as Hlen.
  rewrite split_on_join.
  - rewrite (proj2 (Nat.ltb_ge _ 3)) by done.
    unfold embed_ipv4. rewrite str_has_no_char.
    rewrite (last_Forall (fun w => no_char "." w = true)); [|done|].
    + cbn [negb]. rewrite Hexp. unfold words. rewrite mapM_inverse; [unfold option_map; by rewrite Hv|].
      eapply Forall_impl; [done|]. intros x Hx. simpl. by apply hextet_chars.
    + apply compress_Forall; [done|]. apply Forall_map. eapply Forall_impl; [done|].
      intros x Hx. simpl. by apply hextet_chars.
  - intros E. rewrite E in Hlen. simpl in Hlen. lia.
  - apply compress_Forall; [done|]. apply Forall_map. eapply Forall_impl; [done|].
    intros x Hx. simpl. by apply hextet_chars.
Qed.

Lemma partition_on_none c s : no_char c s = true -> partition_on c s = (s, false, "").
Proof.
  unfold no_char. induction s as [|a s IH]; simpl; [done|]. rewrite andb_true_iff, negb_true_iff.
  intros [-> Hs]. by rewrite IH.
Qed.

Lemma partition_on_some c s t : no_char c s = true -> partition_on c (s +:+ String c t) = (s, true, t).
Proof.
  unfold no_char. induction s as [|a s IH]; simpl; [by rewrite Ascii.eqb_refl|].
  rewrite andb_true_iff, negb_true_iff. intros [-> Hs]. by rewrite IH.
Qed.

(** Nothing with a colon in it is a version 4 address. *)
Lemma parse_octet_no_char c s v : parse_octet s = Some v -> is_ascii_digit c = false -> no_char c s = true.
Proof.
  unfold parse_octet. intros H Hc. destruct (str_forallb is_ascii_digit s) eqn:E; [|done].
  eapply str_forallb_impl; [|done]. intros a Ha. apply negb_true_iff, Ascii.eqb_neq. by intros ->; rewrite Ha in Hc.
Qed.

Lemma join_split c s : str_join (str1 c) (split_on c s) = s.
Proof.
  induction s as [|a s IH]; [done|]. cbn [split_on]. destruct (Ascii.eqb_spec a c) as [->|Hne].
  - pose proof (split_on_nonnil c s). destruct (split_on c s) as [|w ws] eqn:E; [done|].
    change (String c (str_join (str1 c) (w :: ws)) = String c s). by rewrite IH.
  - pose proof (split_on_nonnil c s). destruct (split_on c s) as [|w ws] eqn:E; [done|].
    transitivity (String a (str_join (str1 c) (w :: ws))); [by destruct ws|]. by rewrite IH.
Qed.

Lemma mapM_Forall {A B} (f : A -> option B) (P : A -> Prop) l r :
  mapM f l = Some r -> (forall a b, f a = Some b -> P a) -> Forall P l.
Proof. intros H Hf. apply mapM_Some_1 in H. induction H; constructor; eauto. Qed.

Lemma mapM_Forall_r {A B} (f : A -> option B) (P : B -> Prop) l r :
  mapM f l = Some r -> (forall a b, f a = Some b -> P b) -> Forall P r.
Proof. intros H Hf. apply mapM_Some_1 in H. induction H; constructor; eauto. Qed.

Lemma parse_ipv4_no_colon s n : parse_ipv4 s = Some n -> no_char ":" s = true.
Proof.
  unfold parse_ipv4. intros H. destruct (negb _); [done|].
  destruct (mapM parse_octet (split_on "." s)) as [r|] eqn:E; [|done].
  rewrite <- (join_split "." s). apply no_char_join; [done|].
  eapply mapM_Forall; [done|]. intros a b Hab. by eapply parse_octet_no_char.
Qed.

Lemma join_has_sep c parts : (2 <= length parts)%nat -> no_char c (str_join (str1 c) parts) = false.
Proof.
  destruct parts as [|w [|w' r]]; simpl; [lia..|]. intros _. unfold no_char.
  rewrite !str_forallb_app. cbn. rewrite Ascii.eqb_refl. cbn. by rewrite andb_false_r.
Qed.

Lemma no_char_app c s t : no_char c (s +:+ t) = no_char c s && no_char c t.
Proof. apply str_forallb_app. Qed.

Lemma ipv6_text_colon n : 0 <= n < 2 ^ 128 -> no_char ":" (ipv6_text n) = false.
Proof.
  intros Hn. pose proof (parse_ipv6_text n Hn) as Hp. unfold parse_ipv6 in Hp.
  destruct (length (split_on ":" (ipv6_text n)) <? 3)%nat eqn:E; [done|].
  apply Nat.ltb_ge in E. rewrite <- (join_split ":" (ipv6_text n)). apply join_has_sep. lia.
Qed.

Lemma parse_ipv4_ipv6_text n t : 0 <= n < 2 ^ 128 -> parse_ipv4 (ipv6_text n +:+ t) = None.
Proof.
  intros Hn. destruct (parse_ipv4 _) eqn:E; [|done]. apply parse_ipv4_no_colon in E.
  by rewrite no_char_app, ipv6_text_colon in E by done.
Qed.

Lemma ipv4_text_no_slash n : 0 <= n < 2 ^ 32 -> no_char "/" (ipv4_text n) = true.
Proof.
  intros Hn. destruct (groups_of_spec 256 4 n) as (_ & _ & Hb); [lia|done|].
  apply no_char_join; [done|]. apply Forall_map. eapply Forall_impl; [done|]. simpl.
  intros g Hg. apply octet_facts in Hg. unfold octet_ok in Hg. by bool_inv.
Qed.

Lemma ipv6_text_clean n : 0 <= n < 2 ^ 128 ->
  no_char "/" (ipv6_text n) = true /\ no_char "%" (ipv6_text n) = true.
Proof.
  intros Hn. split; apply ipv6_text_no_char; try done; intros x Hx; by apply hextet_chars.
Qed.

(** Printing then parsing an address object gives it back. *)
Lemma ip_text_parse a : ip_wf a -> ip_address (ip_text a) = Some a.
Proof.
  destruct a as [n|n [s|]]; unfold ip_address; cbn [ip_wf ip_text].
  - intros Hn. rewrite str_has_no_char, ipv4_text_no_slash by done. cbn [negb].
    by rewrite parse_ipv4_text.
  - intros (Hn & Hs & Hp & Hsl). destruct (ipv6_text_clean n Hn) as [H1 H2].
    rewrite (proj2 (String.eqb_neq s "")) by done.
    rewrite str_has_no_char, !no_char_app, H1.
    rewrite str_has_no_char in Hsl. apply negb_false_iff in Hsl. rewrite Hsl. cbn [negb andb].
    change (no_char "/" "%") with true. cbn [negb andb].
    rewrite parse_ipv4_ipv6_text by done. unfold parse_ipv6_scoped.
    change ("%" +:+ s) with (String "%" s). rewrite partition_on_some by done.
    rewrite (proj2 (String.eqb_neq s "")), Hp by done. cbn [orb].
    by rewrite parse_ipv6_text.
  - intros Hn. destruct (ipv6_text_clean n Hn) as [H1 H2].
    rewrite str_has_no_char, H1. cbn [negb].
    pose proof (parse_ipv4_ipv6_text n "" Hn) as H4. rewrite app_nil_str in H4. rewrite H4.
    unfold parse_ipv6_scoped. by rewrite partition_on_none, parse_ipv6_text.
Qed.

Lemma digit_val_nonneg a d : digit_val a = Some d -> 0 <= d.
Proof.
  unfold digit_val. intros H. repeat case_match; simplify_eq; bool_inv; lia.
Qed.

Lemma parse_acc_bounds base s acc v :
  0 < base -> 0 <= acc -> parse_acc base acc s = Some v ->
  acc * base ^ str_len s <= v < (acc + 1) * base ^ str_len s.
Proof.
  intros Hb. revert acc. unfold str_len.
  induction s as [|a s IH]; intros acc Hacc H; cbn [parse_acc String.length] in *.
  - injection H as ->. rewrite Z.pow_0_r. lia.
  - destruct (digit_val a) as [d|] eqn:Ed; [|done]. apply digit_val_nonneg in Ed.
    destruct (d <? base) eqn:Eb; [|done]. apply Z.ltb_lt in Eb. apply IH in H; [|nia].
    rewrite Nat2Z.inj_succ, Z.pow_succ_r by lia.
    assert (0 < base ^ Z.of_nat (String.length s)) by (apply Z.pow_pos_nonneg; lia). nia.
Qed.

Lemma parse_digits_bounds base s v :
  0 < base -> parse_digits base s = Some v -> 0 <= v < base ^ str_len s.
Proof.
  intros Hb H. destruct s as [|a s]; [done|]. apply parse_acc_bounds in H; [|lia..]. lia.
Qed.

Lemma parse_octet_bounds s v : parse_octet s = Some v -> 0 <= v < 256.
Proof.
  unfold parse_octet. intros H. repeat case_match; simplify_eq.
  apply parse_digits_bounds in H2; [|lia]. bool_inv. lia.
Qed.

Lemma parse_hextet_bounds s v : parse_hextet s = Some v -> 0 <= v < 65536.
Proof.
  unfold parse_hextet. intros H. destruct (4 <? str_len s) eqn:E; [done|]. bool_inv.
  apply parse_digits_bounds in H; [|lia].
  assert (16 ^ str_len s <= 16 ^ 4) by (apply Z.pow_le_mono_r; [lia|done]). lia.
Qed.

Lemma expand_groups_length parts g : expand_groups parts = Some g -> length g = 8%nat.
Proof.
  unfold expand_groups. intros H. destruct (9 <? length parts)%nat; [done|].
  destruct (empty_positions _ _) as [|k [|]]; [| |done].
  - destruct (_ && _) eqn:E in H; [|done]. injection H as <-. bool_inv. by apply Nat.eqb_eq.
  - destruct (if String.eqb (hd "" parts) "" then _ else _) as [hi|]; [|done].
    destruct (if String.eqb (List.last parts "") "" then _ else _) as [lo|]; [|done].
    destruct (_ <? 8)%nat eqn:E; [|done]. injection H as <-. apply Nat.ltb_lt in E.
    rewrite !length_app, length_replicate. lia.
Qed.

Lemma parse_ipv4_bounds s n : parse_ipv4 s = Some n -> 0 <= n < 2 ^ 32.
Proof.
  unfold parse_ipv4. intros H. destruct (negb _) eqn:El; [done|].
  destruct (mapM parse_octet _) as [r|] eqn:E; [|done]. injection H as <-.
  pose proof (Forall2_length _ _ _ (mapM_Some_1 _ _ _ E)) as Hl. bool_inv. apply Nat.eqb_eq in El.
  apply (mapM_Forall_r _ (fun d => 0 <= d < 256)) in E; [|intros; by eapply parse_octet_bounds].
  apply be_value_bounds in E; [|lia]. replace (length r) with 4%nat in E by congruence. done.
Qed.

Lemma parse_ipv6_bounds s n : parse_ipv6 s = Some n -> 0 <= n < 2 ^ 128.
Proof.
  unfold parse_ipv6. intros H. repeat case_match; simplify_eq.
  destruct (mapM parse_hextet _) as [r|] eqn:E; [|done]. injection H as <-.
  pose proof (Forall2_length _ _ _ (mapM_Some_1 _ _ _ E)) as Hl. apply expand_groups_length in H2.
  apply (mapM_Forall_r _ (fun d => 0 <= d < 65536)) in E; [|intros; by eapply parse_hextet_bounds].
  apply be_value_bounds in E; [|lia]. replace (length r) with 8%nat in E by congruence. done.
Qed.

Lemma partition_on_spec c s x y : partition_on c s = (x, true, y) -> s = x +:+ String c y.
Proof.
  revert x y. induction s as [|a s IH]; intros x y; simpl; [done|].
  destruct (Ascii.eqb_spec a c) as [->|]; [by intros [= <- <-]|].
  destruct (partition_on c s) as [[x' f] y']. intros [= <- -> <-]. simpl. by rewrite <- IH.
Qed.

(** Every parsed address is well formed. *)
Lemma ip_address_wf s a : ip_address s = Some a -> ip_wf a.
Proof.
  unfold ip_address, parse_ipv6_scoped. intros H. destruct (str_has "/" s) eqn:Hs; [done|].
  destruct (parse_ipv4 s) as [n|] eqn:E4.
  { injection H as <-. by apply parse_ipv4_bounds in E4. }
  destruct (partition_on "%" s) as [[x f] y] eqn:Ep. destruct f.
  - destruct (String.eqb y "" || str_has "%" y) eqn:Ey; [done|]. bool_inv.
    destruct (parse_ipv6 x) as [n|] eqn:E6; [|done]. injection H as <-.
    apply parse_ipv6_bounds in E6. split; [done|]. split; [done|]. split; [done|].
    apply partition_on_spec in Ep. subst s. rewrite str_has_no_char in *. bool_inv.
    rewrite no_char_app in Hs. bool_inv. unfold no_char in *. simpl in *. bool_inv. apply negb_false_iff. done.
  - destruct (parse_ipv6 x) as [n|] eqn:E6; [|done]. injection H as <-. by apply parse_ipv6_bounds in E6.
Qed.

(** Printed addresses have no white space outside a scope identifier. *)
Lemma ipv4_text_visible n : 0 <= n < 2 ^ 32 -> visible (ipv4_text n) = true.
Proof.
  intros Hn. destruct (groups_of_spec 256 4 n) as (_ & _ & Hb); [lia|done|].
  apply forallb_join; [done|]. apply Forall_map. eapply Forall_impl; [done|]. simpl.
  intros g Hg. apply octet_facts in Hg. unfold octet_ok in Hg. by bool_inv.
Qed.

Lemma ipv6_text_visible n : 0 <= n < 2 ^ 128 -> visible (ipv6_text n) = true.
Proof.
  intros Hn. destruct (groups_of_spec 65536 8 n) as (_ & _ & Hb); [lia|done|].
  apply forallb_join; [done|]. apply compress_Forall; [done|]. apply Forall_map.
  eapply Forall_impl; [done|]. simpl. apply hextet_visible.
Qed.

Lemma ip_address_scope s n scope : ip_address s = Some (IPv6 n (Some scope)) ->
  exists x, s = x +:+ String "%" scope.
Proof.
  unfold ip_address, parse_ipv6_scoped. intros H. destruct (str_has "/" s); [done|].
  destruct (parse_ipv4 s); [done|]. destruct (partition_on "%" s) as [[x f] y] eqn:E. destruct f.
  - destruct (_ || _); [done|]. destruct (parse_ipv6 x); [|done]. injection H as _ <-.
    exists x. by apply partition_on_spec.
  - by destruct (parse_ipv6 x).
Qed.

(** * Networks as ranges of numbers *)

(** What a network object always satisfies: its address is its first, and its prefix fits. *)
Definition net_wf (n : ip_net) : Prop :=
  0 <= ip_number (net_addr n) < 2 ^ width (net_addr n) /\ 0 <= net_plen n <= width (net_addr n) /\
  ip_number (net_addr n) mod 2 ^ (width (net_addr n) - net_plen n) = 0.

(** The address has a number of the network's, and is of its version. *)
Definition in_prefix (a : ip_addr) (n : ip_net) : Prop :=
  is_v4 a = is_v4 (net_addr n) /\
  ip_number (net_addr n) <= ip_number a < ip_number (net_addr n) + 2 ^ (width (net_addr n) - net_plen n).

Lemma land_netmask w p n : 0 <= p <= w -> 0 <= n < 2 ^ w -> Z.land n (netmask w p) = n - n mod 2 ^ (w - p).
Proof.
  intros Hp Hn. unfold netmask. assert (2 ^ w - 2 ^ (w - p) = Z.shiftl (Z.ones p) (w - p)) as ->.
  { rewrite Z.shiftl_mul_pow2, Z.ones_equiv by lia. replace w with (p + (w - p)) at 1 by lia. rewrite Z.pow_add_r by lia. lia. }
  assert (Z.land n (Z.shiftl (Z.ones p) (w - p)) = Z.shiftl (Z.land (Z.shiftr n (w - p)) (Z.ones p)) (w - p)) as ->.
  { apply Z.bits_inj'. intros i Hi. rewrite Z.land_spec, !Z.shiftl_spec, Z.land_spec by lia.
    destruct (Z.ltb_spec i (w - p)) as [Hlt|Hge].
    - rewrite !(Z.testbit_neg_r _ (i - (w - p))) by lia. destruct (Z.testbit n i); done.
    - rewrite Z.shiftr_spec by lia. replace (i - (w - p) + (w - p)) with i by lia. reflexivity. }
  rewrite Z.land_ones, Z.shiftr_div_pow2, Z.shiftl_mul_pow2 by lia.
  assert (0 < 2 ^ (w - p)) by (apply Z.pow_pos_nonneg; lia).
  rewrite (Z.mod_small (n / 2 ^ (w - p))).
  - pose proof (Z.div_mod n (2 ^ (w - p))). lia.
  - split; [apply Z.div_pos; lia|]. apply Z.div_lt_upper_bound; [lia|]. rewrite <- Z.pow_add_r by lia.
    replace (w - p + p) with w by lia. lia.
Qed.

Lemma ip_number_bounds a : ip_wf a -> 0 <= ip_number a < 2 ^ width a.
Proof. destruct a as [n|n [s|]]; cbn; [done|by intros [? _]|done]. Qed.

Lemma in_network_prefix a n : ip_wf a -> net_wf n -> in_network a n = true <-> in_prefix a n.
Proof.
  intros Ha (Hn & Hp & Hm). unfold in_network, in_prefix. rewrite andb_true_iff, Bool.eqb_true_iff, Z.eqb_eq.
  split; intros [Hv H]; (split; [done|]); assert (width a = width (net_addr n)) as Hw by (unfold width; by rewrite Hv);
    pose proof (ip_number_bounds a Ha) as Hb; rewrite Hw in Hb; rewrite ?Hw in H; rewrite ?Hw.
  - rewrite land_netmask in H by done. assert (0 < 2 ^ (width (net_addr n) - net_plen n)) by (apply Z.pow_pos_nonneg; lia).
    pose proof (Z.mod_pos_bound (ip_number a) (2 ^ (width (net_addr n) - net_plen n))). lia.
  - rewrite land_netmask by done. set (k := 2 ^ (width (net_addr n) - net_plen n)) in *. assert (0 < k) by (apply Z.pow_pos_nonneg; lia).
    change (ip_number (net_addr n) mod k = 0) in Hm. pose proof (Z.div_mod (ip_number (net_addr n)) k).
    assert (ip_number a mod k = ip_number a - ip_number (net_addr n)); [|lia].
    symmetry. apply (Z.mod_unique_pos _ _ (ip_number (net_addr n) / k)); lia.
Qed.

Lemma parse_prefix_bounds w s p : parse_prefix w s = Some p -> 0 <= p <= w.
Proof.
  unfold parse_prefix. destruct (negb _); [done|]. destruct (parse_digits 10 s) as [x|] eqn:E; [|done].
  apply parse_digits_bounds in E; [|lia]. destruct (Z.leb_spec x w); [|done]. intros [= ->]. lia.
Qed.

Lemma prefix_of_mask_bounds m p : prefix_of_mask m = Some p -> 0 <= p <= 32.
Proof.
  unfold prefix_of_mask. destruct (list_find _ _) as [[i x]|] eqn:E; [|done]. cbn. intros [= <-].
  apply list_find_Some in E as (E & _). apply lookup_seq in E. lia.
Qed.

Lemma parse_mask_bounds s p : parse_mask_v4 s = Some p -> 0 <= p <= 32.
Proof.
  unfold parse_mask_v4. destruct (parse_prefix 32 s) as [x|] eqn:E; [intros [= <-]; by apply parse_prefix_bounds in E|].
  destruct (parse_ipv4 s) as [m|]; [|done]. destruct (prefix_of_mask m) as [x|] eqn:E2; [intros [= <-]; by apply prefix_of_mask_bounds in E2|].
  apply prefix_of_mask_bounds.
Qed.

Lemma masked_wf a p : 0 <= ip_number a < 2 ^ width a -> 0 <= p <= width a -> net_wf (IpNet (masked a p) p).
Proof.
  intros Hb Hp. assert (width (masked a p) = width a) as Hw by (destruct a; cbn; [done|by destruct (_ =? _)]).
  assert (ip_number (masked a p) = ip_number a - ip_number a mod 2 ^ (width a - p)) as Hn.
  { rewrite <- land_netmask by done. destruct a as [n|n s]; [done|]. cbn [masked ip_number].
    destruct (Z.eqb_spec (Z.land n (netmask (width (IPv6 n s)) p)) n) as [E|]; [by rewrite E|done]. }
  assert (0 < 2 ^ (width a - p)) by (apply Z.pow_pos_nonneg; lia).
  pose proof (Z.mod_pos_bound (ip_number a) (2 ^ (width a - p))). pose proof (Z.mod_le (ip_number a) (2 ^ (width a - p))).
  unfold net_wf. cbn [net_addr net_plen]. rewrite Hw, Hn. split; [lia|]. split; [done|].
  rewrite Zminus_mod_idemp_r, Z.sub_diag. apply Z.mod_0_l. lia.
Qed.

Lemma parse_ipv6_scoped_bounds s a : parse_ipv6_scoped s = Some a -> width a = 128 /\ 0 <= ip_number a < 2 ^ 128.
Proof.
  unfold parse_ipv6_scoped. destruct (partition_on "%" s) as [[x []] y]; [destruct (_ || _); [done|]|];
    (destruct (parse_ipv6 x) as [n|] eqn:E; [|done]); intros [= <-]; (split; [done|]); by apply parse_ipv6_bounds in E.
Qed.

Lemma ip_network_wf s n : ip_network s = Some n -> net_wf n.
Proof.
  unfold ip_network. destruct (split_on "/" s) as [|a [|m [|]]]; try done.
  - destruct (ip_address a) as [x|] eqn:E; [|done]. intros [= <-]. apply ip_address_wf, ip_number_bounds in E.
    split; [done|]. cbn [net_addr net_plen]. rewrite Z.sub_diag, Z.pow_0_r, Z.mod_1_r. split; [unfold width; destruct (is_v4 x); lia|done].
  - assert ((match parse_ipv6_scoped a, parse_prefix 128 m with
       | Some x, Some p => Some (IpNet (masked x p) p) | _, _ => None end) = Some n -> net_wf n) as H6.
    { destruct (parse_ipv6_scoped a) as [y|] eqn:E6; [|done]. destruct (parse_prefix 128 m) as [p|] eqn:Ep; [|done]. intros [= <-].
      apply parse_ipv6_scoped_bounds in E6 as [Hw Hb]. apply parse_prefix_bounds in Ep. apply masked_wf; by rewrite Hw. }
    destruct (parse_ipv4 a) as [x|] eqn:E4; [|exact H6]. destruct (parse_mask_v4 m) as [p|] eqn:Em; [|exact H6].
    intros [= <-]. apply parse_mask_bounds in Em. apply parse_ipv4_bounds in E4. by apply (masked_wf (IPv4 x)).
Qed.

(** [in_any] over networks known as ranges. *)
Definition range_of (n : ip_net) : bool * Z * Z :=
  (is_v4 (net_addr n), ip_number (net_addr n), ip_number (net_addr n) + 2 ^ (width (net_addr n) - net_plen n)).

Definition number_in (a : ip_addr) (r : bool * Z * Z) : bool :=
  Bool.eqb (is_v4 a) r.1.1 && (r.1.2 <=? ip_number a) && (ip_number a <? r.2).

Lemma in_network_range a n : ip_wf a -> net_wf n -> in_network a n = number_in a (range_of n).
Proof.
  intros Ha Hn. apply eq_true_iff_eq. rewrite in_network_prefix by done. unfold number_in, range_of, in_prefix. cbn [fst snd].
  rewrite !andb_true_iff, Bool.eqb_true_iff, Z.leb_le, Z.ltb_lt. tauto.
Qed.

Lemma in_nets_range a l rs : ip_wf a -> map range_of (nets l) = rs -> in_any a (nets l) = existsb (number_in a) rs.
Proof.
  intros Ha <-. unfold in_any, nets. induction l as [|s l IH]; [done|]. cbn [omap list_omap].
  destruct (ip_network s) as [n|] eqn:E; [|exact IH]. cbn [existsb map]. rewrite IH, (in_network_range a n); [done|done|by eapply ip_network_wf].
Qed.
