(* ===== verification/PyJson.v ===== *)
(** Python values as the code exchanges them (JSON documents), [==] on them, and the canonical
    serialisation of [response/policy.py] ([json.dumps(sort_keys=True, separators=(",", ":"),
    ensure_ascii=True)]).

    A mapping is a list of its items in insertion order; its keys are strings. *)

From S2P Require Import Prelude PyText PyNum.

#[local] Unset Elimination Schemes.
Inductive val : Type :=
| VNone
| VBool (b : bool)
| VNum (n : pynum)
| VStr (s : string)
| VList (l : list val)
| VDict (d : list (string * val)).

Section val_ind.
Variable P : val -> Prop.
Hypothesis HNone : P VNone.
Hypothesis HBool : forall b, P (VBool b).
Hypothesis HNum : forall n, P (VNum n).
Hypothesis HStr : forall s, P (VStr s).
Hypothesis HList : forall l, Forall P l -> P (VList l).
Hypothesis HDict : forall d, Forall (fun kv => P kv.2) d -> P (VDict d).

Fixpoint val_ind (v : val) : P v :=
  match v with
  | VNone => HNone
  | VBool b => HBool b
  | VNum n => HNum n
  | VStr s => HStr s
  | VList l =>
      HList l ((fix go l := match l return Forall P l with
        | [] => Forall_nil_2 P
        | x :: r => Forall_cons_2 P x r (val_ind x) (go r)
        end) l)
  | VDict d =>
      HDict d ((fix go d := match d return Forall (fun kv => P kv.2) d with
        | [] => Forall_nil_2 _
        | x :: r => Forall_cons_2 _ x r (val_ind x.2) (go r)
        end) d)
  end.
End val_ind.

Notation VInt z := (VNum (PInt z)).
Notation VFloat f := (VNum (PFloat f)).

(** [d.get(k)], [k in d] and [set(d)] for a mapping's items. *)
Definition get (k : string) (d : list (string * val)) : val := default VNone (assoc k d).
Definition has_key (k : string) (d : list (string * val)) : bool :=
  match assoc k d with
  | Some _ => true
  | None => false
  end.
Definition keys (d : list (string * val)) : list string := d.*1.

(** [k in (k1, k2, ...)] for strings. *)
Definition str_in (k : string) (l : list string) : bool := existsb (String.eqb k) l.

(** [set(a) - set(b)], and [set(a) == set(b)]. *)
Definition keys_minus (a b : list string) : list string := List.filter (fun k => negb (str_in k b)) a.
Definition same_keys (a b : list string) : bool := forallb (fun k => str_in k b) a && forallb (fun k => str_in k a) b.

(** [bool(v)]. *)
Definition truthy (v : val) : bool :=
  match v with
  | VNone => false
  | VBool b => b
  | VNum n => negb (num_eqb n (PInt 0))
  | VStr s => negb (String.eqb s "")
  | VList l => negb (Nat.eqb (length l) 0)
  | VDict d => negb (Nat.eqb (length d) 0)
  end.

(** The number a bool or a number stands for in a comparison. *)
Definition as_number (v : val) : option pynum :=
  match v with
  | VBool b => Some (PInt (if b then 1 else 0))
  | VNum n => Some n
  | _ => None
  end.

(** [a == b]: numbers (bools included) by value, mappings whatever their order. *)
Fixpoint py_eq (a b : val) {struct a} : bool :=
  match a, b with
  | VNone, VNone => true
  | VStr x, VStr y => String.eqb x y
  | VList x, VList y =>
      (fix go (x y : list val) : bool :=
         match x, y with
         | [], [] => true
         | v :: x', w :: y' => py_eq v w && go x' y'
         | _, _ => false
         end) x y
  | VDict x, VDict y =>
      Nat.eqb (length x) (length y) &&
      (fix go (x : list (string * val)) : bool :=
         match x with
         | [] => true
         | (k, v) :: x' =>
             match assoc k y with
             | Some w => py_eq v w
             | None => false
             end && go x'
         end) x
  | VBool _, _ | VNum _, _ =>
      match as_number a, as_number b with
      | Some m, Some n => num_eqb m n
      | _, _ => false
      end
  | _, _ => false
  end.

(** [v.get(k, otherwise)]: a value that is not a mapping has no such method. *)
Definition get_attr (k : string) (otherwise v : val) : result val :=
  match v with
  | VDict d => Ok (default otherwise (assoc k d))
  | _ => Err (AttributeError "get")
  end.

(** [v[k]] on a mapping. *)
Definition item (k : string) (d : list (string * val)) : result val :=
  match assoc k d with
  | Some v => Ok v
  | None => Err (KeyError k)
  end.

(** [repr(v)] and [str(v)]. *)
Definition number_text (n : pynum) : string :=
  match n with
  | PInt z => str_of_Z z
  | PFloat SpecFloat.S754_nan => "nan"
  | PFloat (SpecFloat.S754_infinity s) => if s then "-inf" else "inf"
  | PFloat f => float_repr f
  end.

Fixpoint repr_val (v : val) : string :=
  match v with
  | VNone => "None"
  | VBool b => if b then "True" else "False"
  | VNum n => number_text n
  | VStr s => py_repr s
  | VList l => "[" +:+ str_join ", " (map repr_val l) +:+ "]"
  | VDict d => "{" +:+ str_join ", " (map (fun kv => py_repr kv.1 +:+ ": " +:+ repr_val kv.2) d) +:+ "}"
  end.

Definition str_val (v : val) : string :=
  match v with
  | VStr s => s
  | _ => repr_val v
  end.

(** [int(s)] of a string: surrounding space, a sign, and single underscores between digits. *)
Fixpoint int_digits (after_digit : bool) (acc : Z) (s : string) : option Z :=
  match s with
  | EmptyString => if after_digit then Some acc else None
  | String a r =>
      if is_ascii_digit a then int_digits true (acc * 10 + (code a - 48)) r
      else if Ascii.eqb a "_" && after_digit then int_digits false acc r
      else None
  end.

Definition signed_digits (t : string) : option Z :=
  match t with
  | EmptyString => None
  | String a r =>
      if Ascii.eqb a "-" then option_map Z.opp (int_digits false 0 r)
      else if Ascii.eqb a "+" then int_digits false 0 r
      else int_digits false 0 t
  end.

Definition int_of_text (s : string) : result Z :=
  match signed_digits (strip s) with
  | Some z => Ok z
  | None => Err (ValueError ("invalid literal for int() with base 10: " +:+ py_repr s))
  end.

(** [int(v)]. *)
Definition int_of_val (v : val) : result Z :=
  match v with
  | VBool b => Ok (if b then 1 else 0)
  | VNum n => py_int n
  | VStr s => int_of_text s
  | _ => Err (TypeError "int() argument must be a string, a bytes-like object or a real number")
  end.

(** [len(v)] and [v[0]]. *)
Definition py_len (v : val) : result Z :=
  match v with
  | VList l => Ok (Z.of_nat (length l))
  | VDict d => Ok (Z.of_nat (length d))
  | VStr s => Ok (str_len s)
  | _ => Err (TypeError "object has no len()")
  end.

Definition py_first (v : val) : result val :=
  match v with
  | VList (x :: _) => Ok x
  | VList [] => Err (IndexError "list index out of range")
  | VStr (String a _) => Ok (VStr (str1 a))
  | VStr "" => Err (IndexError "string index out of range")
  | VDict _ => Err (KeyError "0")
  | _ => Err (TypeError "object is not subscriptable")
  end.

(** The items a [for] loop over [v] visits, and [map(str, v)]. *)
Definition py_iter (v : val) : result (list val) :=
  match v with
  | VList l => Ok l
  | VDict d => Ok (map VStr (keys d))
  | VStr s => Ok (map (fun a => VStr (str1 a)) (String.list_ascii_of_string s))
  | _ => Err (TypeError "object is not iterable")
  end.

Definition texts_of (v : val) : result (list string) := let? l := py_iter v in Ok (map str_val l).

(** [v > 0]. *)
Definition is_positive (v : val) : result bool :=
  match as_number v with
  | Some n => Ok (num_ltb (PInt 0) n)
  | None => Err (TypeError "'>' not supported")
  end.

(** [v["id"]]. *)
Definition subscript (k : string) (v : val) : result val :=
  match v with
  | VDict d => item k d
  | _ => Err (TypeError "indices must be integers")
  end.

(** * Canonical JSON *)
Definition hex_pad2 (n : Z) : string := str1 (digit_char (n / 16)) +:+ str1 (digit_char (n mod 16)).

(** One character of a JSON string with [ensure_ascii]. *)
Definition json_char (a : ascii) : string :=
  let c := code a in
  if Ascii.eqb a dquote then String "\" (str1 dquote)
  else if Ascii.eqb a "\" then "\\"
  else if c =? 10 then "\n"
  else if c =? 13 then "\r"
  else if c =? 9 then "\t"
  else if c =? 12 then "\f"
  else if c =? 8 then "\b"
  else if (32 <=? c) && (c <=? 126) then str1 a
  else "\u00" +:+ hex_pad2 c.

Fixpoint json_chars (s : string) : string :=
  match s with
  | EmptyString => ""
  | String a r => json_char a +:+ json_chars r
  end.

Definition json_string (s : string) : string := str1 dquote +:+ json_chars s +:+ str1 dquote.

Definition json_number (n : pynum) : string :=
  match n with
  | PInt z => str_of_Z z
  | PFloat f =>
      match f with
      | SpecFloat.S754_nan => "NaN"
      | SpecFloat.S754_infinity false => "Infinity"
      | SpecFloat.S754_infinity true => "-Infinity"
      | _ => float_repr f
      end
  end.

Definition key_leb {A} (x y : string * A) : bool := str_leb x.1 y.1.

(** [json.dumps(value, sort_keys=True, separators=(",", ":"), ensure_ascii=True)]. *)
Fixpoint canonical_json (v : val) : string :=
  match v with
  | VNone => "null"
  | VBool true => "true"
  | VBool false => "false"
  | VNum n => json_number n
  | VStr s => json_string s
  | VList l => "[" +:+ str_join "," (map canonical_json l) +:+ "]"
  | VDict d =>
      "{" +:+ str_join "," (map snd (sort_by key_leb
        (map (fun kv => (kv.1, json_string kv.1 +:+ ":" +:+ canonical_json kv.2)) d))) +:+ "}"
  end.

(** * Lemmas *)
Lemma str_in_elem k l : str_in k l = true <-> k ∈ l.
Proof.
  unfold str_in. rewrite existsb_exists, list_elem_of_In. split.
  - intros (x & Hx & E). apply String.eqb_eq in E. by subst.
  - intros H. exists k. by rewrite String.eqb_refl.
Qed.

Lemma keys_minus_nil a b : keys_minus a b = [] <-> a ⊆ b.
Proof.
  unfold keys_minus. induction a as [|k a IH]; simpl; [split; [set_solver|done]|].
  destruct (str_in k b) eqn:E; simpl.
  - apply str_in_elem in E. rewrite IH. set_solver.
  - split; [done|]. intros H. apply not_true_iff_false in E. exfalso. apply E, str_in_elem, H. set_solver.
Qed.

Lemma same_keys_spec a b : same_keys a b = true <-> (forall k, k ∈ a <-> k ∈ b).
Proof.
  unfold same_keys. rewrite andb_true_iff, !forallb_forall.
  setoid_rewrite str_in_elem. setoid_rewrite <- list_elem_of_In. naive_solver.
Qed.

Lemma has_key_elem k d : has_key k d = true <-> k ∈ keys d.
Proof.
  unfold has_key, keys. destruct (assoc k d) eqn:E.
  - split; [|done]. intros _. apply assoc_elem in E. apply list_elem_of_fmap. by eexists (_, _).
  - split; [done|]. intros H. by apply assoc_None in E.
Qed.

Lemma assoc_set_set {A} k (v w : A) l : assoc_set k v (assoc_set k w l) = assoc_set k v l.
Proof.
  induction l as [|[k' v'] l IH]; simpl; [by rewrite String.eqb_refl|].
  destruct (String.eqb k k') eqn:E; simpl; rewrite E; [done|]. by rewrite IH.
Qed.

Lemma keys_assoc_set {X} k (v : X) d : k ∈ d.*1 -> (assoc_set k v d).*1 = d.*1.
Proof.
  induction d as [|[k' w] d IH]; cbn; [by intros ?%not_elem_of_nil|]. destruct (String.eqb_spec k k') as [->|Hne]; [done|].
  intros H. apply elem_of_cons in H as [->|H]; [done|]. cbn. by rewrite IH.
Qed.

Lemma get_set_eq k v d : get k (assoc_set k v d) = v.
Proof. unfold get. by rewrite assoc_set_eq. Qed.

Lemma assoc_app {A} k (l1 l2 : list (string * A)) :
  assoc k (l1 ++ l2) = match assoc k l1 with Some v => Some v | None => assoc k l2 end.
Proof. induction l1 as [|[k' v'] l1 IH]; simpl; [done|]. by destruct (String.eqb k k'). Qed.

Lemma assoc_del_absent {A} k (l : list (string * A)) : assoc k l = None -> assoc_del k l = l.
Proof.
  unfold assoc_del. induction l as [|[k' v'] l IH]; simpl; [done|].
  destruct (String.eqb k k') eqn:E; [done|]. intros H. rewrite filter_cons_True by done. by rewrite IH.
Qed.

Lemma py_eq_text v s : py_eq v (VStr s) = true <-> v = VStr s.
Proof.
  destruct v as [|b|n|t|l|d]; cbn; try (by split). rewrite String.eqb_eq. split; [by intros ->|by intros [= ->]].
Qed.

Lemma text_py_eq s v : py_eq (VStr s) v = true <-> v = VStr s.
Proof.
  destruct v as [|b|n|t|l|d]; cbn; try (by split). rewrite String.eqb_eq. split; [by intros ->|by intros [= ->]].
Qed.
