(* ===== verification/JsonText.v ===== *)
(** [json.loads] and [json.dumps]: the scanner of CPython's [json] module on text of code points up to
    U+00FF, the printers the code uses, and the round trip between them.

    An escape beyond U+00FF is refused by a plain [ValueError], as is an integer of more than 4300
    digits; a nesting deeper than the interpreter's stack is not modelled. *)

From S2P Require Import Prelude PyText PyNum PyJson.

(** * The scanner *)
Definition is_json_space (a : ascii) : bool :=
  let c := code a in (c =? 32) || (c =? 9) || (c =? 10) || (c =? 13).

Fixpoint skip_space (s : string) : string :=
  match s with
  | EmptyString => ""
  | String a r => if is_json_space a then skip_space r else s
  end.

Fixpoint span_digits (s : string) : string * string :=
  match s with
  | EmptyString => ("", "")
  | String a r =>
      if is_ascii_digit a then let '(ds, rest) := span_digits r in (String a ds, rest) else ("", s)
  end.

Definition expecting_value : exn := JSONDecodeError "Expecting value".
Definition beyond_latin_1 : exn := ValueError "text beyond U+00FF".
Definition too_many_digits : exn := ValueError "Exceeds the limit (4300 digits) for integer string conversion".
Definition out_of_fuel : exn := RuntimeError "out of fuel".

(** ** Strings *)
Definition unescape (a : ascii) : option ascii :=
  let c := code a in
  if (c =? 34) || (c =? 92) || (c =? 47) then Some a
  else if c =? 98 then Some (chr 8)
  else if c =? 102 then Some (chr 12)
  else if c =? 110 then Some (chr 10)
  else if c =? 114 then Some (chr 13)
  else if c =? 116 then Some (chr 9)
  else None.

Definition before (a : ascii) (m : result (string * string)) : result (string * string) :=
  let? '(s, rest) := m in Ok (String a s, rest).

(** The rest of a string after its opening quote. *)
Fixpoint scan_string (s : string) : result (string * string) :=
  match s with
  | EmptyString => Err (JSONDecodeError "Unterminated string")
  | String a r =>
      if Ascii.eqb a dquote then Ok ("", r)
      else if Ascii.eqb a "\" then
        match r with
        | EmptyString => Err (JSONDecodeError "Unterminated string")
        | String e r' =>
            if Ascii.eqb e "u" then
              match r' with
              | String h1 (String h2 (String h3 (String h4 r''))) =>
                  match parse_digits 16 (String h1 (String h2 (String h3 (str1 h4)))) with
                  | Some c => if c <? 256 then before (chr c) (scan_string r'') else Err beyond_latin_1
                  | None => Err (JSONDecodeError "Invalid \uXXXX escape")
                  end
              | _ => Err (JSONDecodeError "Invalid \uXXXX escape")
              end
            else match unescape e with
                 | Some x => before x (scan_string r')
                 | None => Err (JSONDecodeError "Invalid \escape")
                 end
        end
      else if code a <? 32 then Err (JSONDecodeError "Invalid control character")
      else before a (scan_string r)
  end.

(** ** Numbers *)

(** The digits after a point, when there are any. *)
Definition scan_fraction (s : string) : string * string :=
  match s with
  | String a r =>
      if Ascii.eqb a "." then
        let '(ds, rest) := span_digits r in if String.eqb ds "" then ("", s) else (ds, rest)
      else ("", s)
  | EmptyString => ("", s)
  end.

(** [e], a sign and digits, when it is all there. *)
Definition scan_exponent (s : string) : option Z * string :=
  match s with
  | String a r =>
      if Ascii.eqb a "e" || Ascii.eqb a "E" then
        let '(negative, t) := match r with
                              | String b r' => if Ascii.eqb b "-" then (true, r') else if Ascii.eqb b "+" then (false, r') else (false, r)
                              | EmptyString => (false, r)
                              end in
        let '(ds, rest) := span_digits t in
        match parse_digits 10 ds with
        | Some x => (Some (if negative : bool then - x else x), rest)
        | None => (None, s)
        end
      else (None, s)
  | EmptyString => (None, s)
  end.

Definition integer_part (s : string) : string * string :=
  match s with
  | String a r => if Ascii.eqb a "0" then ("0", r) else span_digits s
  | EmptyString => ("", "")
  end.

(** [int] of digits, and [float] of digits, fraction and exponent. *)
Definition number_value (negative : bool) (whole fraction : string) (x : option Z) : result val :=
  match parse_digits 10 (whole +:+ fraction) with
  | None => Err expecting_value
  | Some d =>
      if String.eqb fraction "" && negb (from_option (fun _ => true) false x) then
        if 4300 <? str_len whole then Err too_many_digits
        else Ok (VInt (if negative then - d else d))
      else
        let f := dec_to_float d (default 0 x - str_len fraction) in
        Ok (VFloat (if negative then SpecFloat.SFopp f else f))
  end.

Definition scan_number (s : string) : result (val * string) :=
  let '(negative, t) := match s with
                        | String a r => if Ascii.eqb a "-" then (true, r) else (false, s)
                        | EmptyString => (false, s)
                        end in
  let '(whole, t1) := integer_part t in
  if String.eqb whole "" then Err expecting_value
  else
    let '(fraction, t2) := scan_fraction t1 in
    let '(x, t3) := scan_exponent t2 in
    let? v := number_value negative whole fraction x in Ok (v, t3).

(** ** Values *)
Definition constants : list (string * val) :=
  [("null", VNone); ("true", VBool true); ("false", VBool false); ("NaN", VFloat SpecFloat.S754_nan);
   ("Infinity", VFloat (SpecFloat.S754_infinity false)); ("-Infinity", VFloat (SpecFloat.S754_infinity true))].

Fixpoint scan_constant (names : list (string * val)) (s : string) : option (val * string) :=
  match names with
  | [] => None
  | (name, v) :: r => if starts_with name s then Some (v, str_skip (String.length name) s) else scan_constant r s
  end.

(** What follows a member or an element: a comma and more, or the closing bracket. *)
Definition delimiter (close : ascii) (s : string) : result (bool * string) :=
  match skip_space s with
  | String a r =>
      if Ascii.eqb a "," then Ok (true, skip_space r)
      else if Ascii.eqb a close then Ok (false, r)
      else Err (JSONDecodeError "Expecting ',' delimiter")
  | EmptyString => Err (JSONDecodeError "Expecting ',' delimiter")
  end.

(** A key and its colon, after which the value starts. *)
Definition scan_key (s : string) : result (string * string) :=
  match s with
  | String a r =>
      if Ascii.eqb a dquote then
        let? '(key, rest) := scan_string r in
        match skip_space rest with
        | String b r' => if Ascii.eqb b ":" then Ok (key, skip_space r') else Err (JSONDecodeError "Expecting ':' delimiter")
        | EmptyString => Err (JSONDecodeError "Expecting ':' delimiter")
        end
      else Err (JSONDecodeError "Expecting property name enclosed in double quotes")
  | EmptyString => Err (JSONDecodeError "Expecting property name enclosed in double quotes")
  end.

Definition closes (close : ascii) (s : string) : option string :=
  match s with
  | String a r => if Ascii.eqb a close then Some r else None
  | EmptyString => None
  end.

Fixpoint scan_value (fuel : nat) (s : string) : result (val * string) :=
  match fuel with
  | O => Err out_of_fuel
  | S f =>
      match s with
      | EmptyString => Err expecting_value
      | String a r =>
          if Ascii.eqb a dquote then let? '(t, rest) := scan_string r in Ok (VStr t, rest)
          else if Ascii.eqb a "{" then
            match closes "}" (skip_space r) with
            | Some rest => Ok (VDict [], rest)
            | None => scan_members f (skip_space r) []
            end
          else if Ascii.eqb a "[" then
            match closes "]" (skip_space r) with
            | Some rest => Ok (VList [], rest)
            | None => scan_elements f (skip_space r) []
            end
          else match scan_constant constants s with
               | Some (v, rest) => Ok (v, rest)
               | None => scan_number s
               end
      end
  end
with scan_elements (fuel : nat) (s : string) (before : list val) : result (val * string) :=
  match fuel with
  | O => Err out_of_fuel
  | S f =>
      let? '(v, rest) := scan_value f s in
      let? '(more, rest) := delimiter "]" rest in
      if more : bool then scan_elements f rest (before ++ [v]) else Ok (VList (before ++ [v]), rest)
  end
with scan_members (fuel : nat) (s : string) (before : list (string * val)) : result (val * string) :=
  match fuel with
  | O => Err out_of_fuel
  | S f =>
      let? '(k, rest) := scan_key s in
      let? '(v, rest) := scan_value f rest in
      let? '(more, rest) := delimiter "}" rest in
      if more : bool then scan_members f rest (assoc_set k v before) else Ok (VDict (assoc_set k v before), rest)
  end.

Definition json_fuel (s : string) : nat := 2 * String.length s + 1.

(** [json.loads(text)]. *)
Definition loads (text : string) : result val :=
  let s := skip_space text in
  let? '(v, rest) := scan_value (json_fuel s) s in
  if String.eqb (skip_space rest) "" then Ok v else Err (JSONDecodeError "Extra data").

(** [bytes.decode("utf-8")], of text up to U+00FF. *)
Fixpoint decode_utf8 (b : list Z) : result string :=
  match b with
  | [] => Ok ""
  | c :: r =>
      if c <? 128 then let? s := decode_utf8 r in Ok (String (chr c) s)
      else match r with
           | d :: r' =>
               if (194 <=? c) && (c <=? 195) && (128 <=? d) && (d <=? 191) then
                 let? s := decode_utf8 r' in Ok (String (chr ((c - 192) * 64 + (d - 128))) s)
               else Err beyond_latin_1
           | [] => Err beyond_latin_1
           end
  end.

(** [json.loads(data)] of UTF-8 without a byte order mark. *)
Definition loads_bytes (data : list Z) : result val := let? text := decode_utf8 data in loads text.

(** * The printers *)

(** [json.dumps(value, sort_keys=sort, separators=(comma, colon), ensure_ascii=True)]. *)
Section dumps.
Variables comma colon : string.
Variable sort : bool.

Definition arrange {A} (d : list (string * A)) : list (string * A) := if sort then sort_by key_leb d else d.

Fixpoint dumps (v : val) : string :=
  match v with
  | VNone => "null"
  | VBool true => "true"
  | VBool false => "false"
  | VNum n => json_number n
  | VStr s => json_string s
  | VList l => "[" +:+ str_join comma (map dumps l) +:+ "]"
  | VDict d => "{" +:+ str_join comma (map snd (arrange (map (fun kv => (kv.1, json_string kv.1 +:+ colon +:+ dumps kv.2)) d))) +:+ "}"
  end.

(** The value that was printed, with its keys in the order they were printed. *)
Fixpoint arranged (v : val) : val :=
  match v with
  | VList l => VList (map arranged l)
  | VDict d => VDict (arrange (map (fun kv => (kv.1, arranged kv.2)) d))
  | _ => v
  end.
End dumps.

(** [json.dumps(value, indent=..., sort_keys=sort)]: what follows an opening bracket and a comma, and what
    is before a closing bracket, at each depth. *)
Section layout.
Variables opening next closing : nat -> string.
Variable colon : string.
Variable sort : bool.

Fixpoint layout (n : nat) (v : val) : string :=
  match v with
  | VNone => "null"
  | VBool true => "true"
  | VBool false => "false"
  | VNum n => json_number n
  | VStr s => json_string s
  | VList [] => "[]"
  | VList l => "[" +:+ opening n +:+ str_join (String "," (next n)) (map (layout (S n)) l) +:+ closing n +:+ "]"
  | VDict [] => "{}"
  | VDict d =>
      "{" +:+ opening n +:+ str_join (String "," (next n)) (map snd (arrange sort
        (map (fun kv => (kv.1, json_string kv.1 +:+ colon +:+ layout (S n) kv.2)) d))) +:+ closing n +:+ "}"
  end.
End layout.

(** [json.dumps(v, indent=2, sort_keys=True)], and the file it is written to, with a line break. *)
Definition indented (level : nat) : string := str1 (chr 10) +:+ concat_str (repeat "  " level).

Fixpoint json_indent (level : nat) (v : val) : string :=
  match v with
  | VNone => "null"
  | VBool true => "true"
  | VBool false => "false"
  | VNum n => json_number n
  | VStr s => json_string s
  | VList [] => "[]"
  | VList l => "[" +:+ indented (S level) +:+ str_join ("," +:+ indented (S level)) (map (json_indent (S level)) l) +:+ indented level +:+ "]"
  | VDict [] => "{}"
  | VDict d =>
      "{" +:+ indented (S level) +:+ str_join ("," +:+ indented (S level)) (map snd (sort_by key_leb
        (map (fun kv => (kv.1, json_string kv.1 +:+ ": " +:+ json_indent (S level) kv.2)) d))) +:+ indented level +:+ "}"
  end.

Definition json_file (v : val) : list Z := utf8 (json_indent 0 v +:+ str1 (chr 10)).

(** ** What can be read back *)

(** The printed number reads back as itself: any integer of at most 4300 digits, and any float whose
    [repr] does, which is evaluated. *)
Definition number_ok (n : pynum) : bool :=
  match n with
  | PInt z => str_len (digits 10 (Z.abs z)) <=? 4300
  | PFloat (SpecFloat.S754_nan) | PFloat (SpecFloat.S754_infinity _) => true
  | PFloat f =>
      match scan_number (float_repr f) with
      | Ok (VFloat g, EmptyString) => bool_decide (g = f)
      | _ => false
      end
  end.

(** A number and not one of the three words. *)
Definition is_real_text (f : SpecFloat.spec_float) : bool :=
  match f with
  | SpecFloat.S754_zero _ | SpecFloat.S754_finite _ _ _ => true
  | _ => false
  end.

Fixpoint printable (v : val) : bool :=
  match v with
  | VNum n => number_ok n
  | VList l => forallb printable l
  | VDict d => bool_decide (NoDup (keys d)) && forallb (fun kv => printable kv.2) d
  | _ => true
  end.

(** * Lemmas *)

(** ** Texts *)
Lemma skip_space_app w s : str_forallb is_json_space w = true -> skip_space (w +:+ s) = skip_space s.
Proof. induction w as [|a w IH]; simpl; [done|]. destruct (is_json_space a); simpl; [apply IH|done]. Qed.

Lemma skip_space_head a s : is_json_space a = false -> skip_space (String a s) = String a s.
Proof. simpl. by intros ->. Qed.

Lemma scan_char a t : scan_string (json_char a +:+ t) = before a (scan_string t).
Proof. destruct a as [[] [] [] [] [] [] [] []]; reflexivity. Qed.

Lemma scan_string_chars s rest : scan_string (json_chars s +:+ String dquote rest) = Ok (s, rest).
Proof.
  induction s as [|a s IH]; [done|]. cbn [json_chars]. by rewrite app_assoc_str, scan_char, IH.
Qed.

Lemma json_string_app s rest : json_string s +:+ rest = String dquote (json_chars s +:+ String dquote rest).
Proof. unfold json_string, str1. simpl. by rewrite app_assoc_str. Qed.

Lemma utf8_char_decode a rest : decode_utf8 (utf8_char a ++ rest) = (let? s := decode_utf8 rest in Ok (String a s)).
Proof. destruct a as [[] [] [] [] [] [] [] []]; reflexivity. Qed.

Lemma decode_utf8_app s b t : decode_utf8 b = Ok t -> decode_utf8 (utf8 s ++ b) = Ok (s +:+ t).
Proof.
  intros Hb. induction s as [|a s IH]; [done|]. simpl utf8. rewrite <- app_assoc, utf8_char_decode, IH. done.
Qed.

Lemma decode_utf8_utf8 s : decode_utf8 (utf8 s) = Ok s.
Proof. rewrite <- (app_nil_r (utf8 s)), (decode_utf8_app s [] ""); [by rewrite app_nil_str|done]. Qed.

(** ** Numbers *)

(** Text that cannot continue a number. *)
Definition stops (s : string) : bool :=
  match s with
  | String a _ => negb (is_ascii_digit a || existsb (Ascii.eqb a) ["."; "e"; "E"; "+"; "-"]%char)
  | EmptyString => true
  end.

Lemma stops_digit a s : stops (String a s) = true -> is_ascii_digit a = false.
Proof. simpl. by destruct (is_ascii_digit a). Qed.

Lemma stops_eqb a s b : stops (String a s) = true -> b ∈ ["."; "e"; "E"; "+"; "-"]%char -> Ascii.eqb a b = false.
Proof.
  simpl. rewrite negb_true_iff, orb_false_iff. intros [_ H] Hb.
  destruct (Ascii.eqb_spec a b) as [->|]; [|done]. rewrite !elem_of_cons, elem_of_nil in Hb.
  by destruct Hb as [->|[->|[->|[->|[->|[]]]]]].
Qed.

Lemma span_digits_app s rest ds r :
  stops rest = true -> span_digits s = (ds, r) -> span_digits (s +:+ rest) = (ds, r +:+ rest).
Proof.
  intros Hr. revert ds r. induction s as [|a s IH]; intros ds r; simpl.
  - intros [= <- <-]. simpl. destruct rest as [|b t]; [done|]. simpl. by rewrite (stops_digit _ _ Hr).
  - destruct (is_ascii_digit a); [|by intros [= <- <-]].
    destruct (span_digits s) as [ds' r'] eqn:E. intros [= <- <-]. by rewrite (IH _ _ eq_refl).
Qed.

Lemma span_digits_all s : str_forallb is_ascii_digit s = true -> span_digits s = (s, "").
Proof.
  induction s as [|a s IH]; simpl; [done|]. destruct (is_ascii_digit a); simpl; [|done]. intros H. by rewrite (IH H).
Qed.

Lemma integer_part_app s rest ds r :
  stops rest = true -> integer_part s = (ds, r) -> ds <> "" -> integer_part (s +:+ rest) = (ds, r +:+ rest).
Proof.
  intros Hr Hs Hd. destruct s as [|a s]; [by injection Hs as <- <-|].
  change (String a s +:+ rest) with (String a (s +:+ rest)). unfold integer_part in *.
  destruct (Ascii.eqb a "0"); [by injection Hs as <- <-|]. by apply (span_digits_app (String a s)).
Qed.

Lemma scan_fraction_app s rest ds r :
  stops rest = true -> scan_fraction s = (ds, r) -> scan_fraction (s +:+ rest) = (ds, r +:+ rest).
Proof.
  intros Hr. destruct s as [|a s]; simpl.
  - intros [= <- <-]. destruct rest as [|b t]; [done|]. simpl.
    rewrite (stops_eqb _ _ "."%char Hr); [done|set_solver].
  - destruct (Ascii.eqb a "."); [|by intros [= <- <-]].
    destruct (span_digits s) as [ds' r'] eqn:E. rewrite (span_digits_app _ _ _ _ Hr E).
    destruct (String.eqb ds' ""); by intros [= <- <-].
Qed.

Lemma scan_exponent_app s rest x r :
  stops rest = true -> scan_exponent s = (x, r) -> scan_exponent (s +:+ rest) = (x, r +:+ rest).
Proof.
  intros Hr. destruct s as [|a s]; simpl.
  - intros [= <- <-]. destruct rest as [|b t]; [done|]. simpl.
    rewrite !(stops_eqb _ _ _ Hr) by set_solver. done.
  - destruct (_ || _); [|by intros [= <- <-]].
    assert (forall n t ds q, span_digits t = (ds, q) ->
      (let '(ds, q) := span_digits t in
       match parse_digits 10 ds with Some x => (Some (if n : bool then - x else x), q) | None => (None, String a s) end) = (x, r) ->
      (let '(ds, q) := span_digits (t +:+ rest) in
       match parse_digits 10 ds with Some x => (Some (if n then - x else x), q) | None => (None, String a (s +:+ rest)) end) = (x, r +:+ rest)) as Hgo.
    { intros n t ds q E. rewrite E, (span_digits_app _ _ _ _ Hr E). destruct (parse_digits 10 ds); by intros [= <- <-]. }
    destruct s as [|b s]; simpl.
    + intros [= <- <-]. destruct rest as [|b t]; [done|]. rewrite !(stops_eqb _ _ _ Hr) by set_solver.
      simpl. by rewrite (stops_digit _ _ Hr).
    + destruct (Ascii.eqb b "-"); [|destruct (Ascii.eqb b "+")].
      * by eapply (Hgo true s), surjective_pairing.
      * by eapply (Hgo false s), surjective_pairing.
      * by eapply (Hgo false (String b s)), surjective_pairing.
Qed.

(** The sign of a number, and the number without it. *)
Definition signed (s : string) : bool * string :=
  match s with
  | String a r => if Ascii.eqb a "-" then (true, r) else (false, s)
  | EmptyString => (false, s)
  end.

Lemma scan_number_app s rest v r :
  stops rest = true -> scan_number s = Ok (v, r) -> scan_number (s +:+ rest) = Ok (v, r +:+ rest).
Proof.
  intros Hr Hs. unfold scan_number in *. fold (signed s) in Hs. fold (signed (s +:+ rest)).
  destruct (signed s) as [n t] eqn:En.
  destruct (integer_part t) as [w t1] eqn:Ei. destruct (String.eqb_spec w "") as [|Hw]; [done|].
  assert (signed (s +:+ rest) = (n, t +:+ rest)) as ->.
  { destruct s as [|a s]; [by injection En as <- <-; discriminate Ei || (simpl in Ei; congruence)|].
    simpl in *. destruct (Ascii.eqb a "-"); by injection En as <- <-. }
  rewrite (integer_part_app _ _ _ _ Hr Ei Hw), (proj2 (String.eqb_neq w "") Hw).
  destruct (scan_fraction t1) as [fr t2] eqn:Ef. rewrite (scan_fraction_app _ _ _ _ Hr Ef).
  destruct (scan_exponent t2) as [x t3] eqn:Ex. rewrite (scan_exponent_app _ _ _ _ Hr Ex).
  destruct (number_value n w fr x); simpl in *; [|done]. by injection Hs as <- <-.
Qed.

Lemma scan_number_ends s rest v : stops rest = true -> scan_number s = Ok (v, "") -> scan_number (s +:+ rest) = Ok (v, rest).
Proof. intros Hr Hs. by rewrite (scan_number_app _ _ _ _ Hr Hs). Qed.

(** A number starts with a digit, after its sign. *)
Lemma scan_number_head s v r : scan_number s = Ok (v, r) ->
  exists a t, is_ascii_digit a = true /\ (s = String a t \/ s = String "-" (String a t)).
Proof.
  unfold scan_number. fold (signed s). destruct (signed s) as [n t] eqn:En.
  destruct (integer_part t) as [w t1] eqn:Ei. destruct (String.eqb_spec w "") as [|Hw]; [done|]. intros _.
  assert (exists a q, is_ascii_digit a = true /\ t = String a q) as (a & q & Ha & ->).
  { destruct t as [|a q]; [by injection Ei as <- <-|]. exists a, q. split; [|done]. unfold integer_part in Ei.
    destruct (Ascii.eqb_spec a "0") as [->|]; [done|]. simpl in Ei. destruct (is_ascii_digit a); [done|]. by injection Ei as <- <-. }
  exists a, q. split; [done|]. destruct s as [|b s]; [done|]. simpl in En.
  destruct (Ascii.eqb_spec b "-") as [->|]; [injection En as _ ->; by right|]. injection En as _ -> ->. by left.
Qed.

Lemma digits_head fuel n acc : 0 < n < 10 ^ Z.of_nat fuel ->
  exists a t, digits_aux 10 fuel n acc = String a t /\ Ascii.eqb a "0" = false.
Proof.
  revert n acc. induction fuel as [|fuel IH]; intros n acc Hn; [simpl in Hn; lia|]. simpl.
  destruct (n <? 10) eqn:E; bool_inv.
  - eexists _, _. split; [done|]. rewrite Z.mod_small by lia.
    assert (n = 1 \/ n = 2 \/ n = 3 \/ n = 4 \/ n = 5 \/ n = 6 \/ n = 7 \/ n = 8 \/ n = 9) as H by lia.
    by repeat (destruct H as [->|H]; [done|]); subst.
  - apply IH. rewrite Nat2Z.inj_succ, Z.pow_succ_r in Hn by lia.
    split; [apply Z.div_str_pos; lia|apply Z.div_lt_upper_bound; lia].
Qed.

Lemma digits_all n : str_forallb is_ascii_digit (digits 10 n) = true.
Proof.
  apply digits_aux_chars; [lia| |done]. intros d Hd.
  assert (d = 0 \/ d = 1 \/ d = 2 \/ d = 3 \/ d = 4 \/ d = 5 \/ d = 6 \/ d = 7 \/ d = 8 \/ d = 9) as H by lia.
  by repeat (destruct H as [->|H]; [done|]); subst.
Qed.

Lemma integer_part_digits n : 0 <= n -> integer_part (digits 10 n) = (digits 10 n, "").
Proof.
  intros Hn. destruct (decide (n = 0)) as [->|]; [done|].
  destruct (digits_head (S (Z.to_nat (Z.log2 n))) n "") as (a & t & E & Ha); [split; [lia|apply log2_fuel; lia]|].
  fold (digits 10 n) in E. unfold integer_part. rewrite E, Ha, <- E. apply span_digits_all, digits_all.
Qed.

Lemma digits_nonempty n : 0 <= n -> digits 10 n <> "".
Proof. intros Hn E. pose proof (parse_digits_digits 10 n ltac:(lia) Hn) as H. by rewrite E in H. Qed.

Lemma scan_digits n : 0 <= n -> str_len (digits 10 n) <= 4300 ->
  forall negative, (let '(whole, t1) := integer_part (digits 10 n) in
    if String.eqb whole "" then Err expecting_value
    else
      let '(fraction, t2) := scan_fraction t1 in
      let '(x, t3) := scan_exponent t2 in
      let? v := number_value negative whole fraction x in Ok (v, t3)) = Ok (VInt (if negative : bool then - n else n), "").
Proof.
  intros Hn Hl negative. rewrite integer_part_digits by done.
  rewrite (proj2 (String.eqb_neq _ "") (digits_nonempty n Hn)). simpl. unfold number_value.
  rewrite app_nil_str, parse_digits_digits by lia. simpl. by rewrite (proj2 (Z.ltb_ge _ _) Hl).
Qed.

Lemma scan_integer z : number_ok (PInt z) = true -> scan_number (str_of_Z z) = Ok (VInt z, "").
Proof.
  simpl. rewrite Z.leb_le. intros Hl. unfold str_of_Z, scan_number. destruct (z <? 0) eqn:Ez; bool_inv.
  - simpl. rewrite Z.abs_neq in Hl by lia. rewrite scan_digits by (done || lia). by rewrite Z.opp_involutive.
  - rewrite Z.abs_eq in Hl by lia. fold (signed (digits 10 z)).
    assert (signed (digits 10 z) = (false, digits 10 z)) as ->.
    { destruct (digits 10 z) as [|a t] eqn:E; [done|]. pose proof (digits_all z) as H. rewrite E in H. simpl in H |- *.
      destruct (Ascii.eqb_spec a "-") as [->|]; [done|done]. }
    by rewrite scan_digits by done.
Qed.

Lemma digit_chars a : is_ascii_digit a = true -> a ∈ ["0"; "1"; "2"; "3"; "4"; "5"; "6"; "7"; "8"; "9"]%char.
Proof. destruct a as [[] [] [] [] [] [] [] []]; try done; intros _; repeat constructor. Qed.

Ltac each_digit H := apply digit_chars in H; rewrite !elem_of_cons, elem_of_nil in H;
  destruct H as [->|[->|[->|[->|[->|[->|[->|[->|[->|[->|[]]]]]]]]]]].

Lemma scan_value_number f s v r : scan_number s = Ok (v, r) -> scan_value (S f) s = Ok (v, r).
Proof.
  intros H. destruct (scan_number_head _ _ _ H) as (a & t & Ha & [->| ->]); each_digit Ha; exact H.
Qed.

Lemma float_text_ok f : number_ok (PFloat f) = true -> is_real_text f = true ->
  scan_number (float_repr f) = Ok (VFloat f, "").
Proof.
  intros H Hf. assert (match scan_number (float_repr f) with Ok (VFloat g, EmptyString) => bool_decide (g = f) | _ => false end = true) as H'
    by (destruct f; done).
  destruct (scan_number (float_repr f)) as [[v r]|]; [|done]. destruct v as [| |[|g]| | |]; try done. destruct r; [|done].
  by apply bool_decide_eq_true in H' as ->.
Qed.

Lemma json_number_finite f : is_real_text f = true -> json_number (PFloat f) = float_repr f.
Proof. by destruct f. Qed.

Lemma scan_word name v f rest : (name, v) ∈ constants -> scan_value (S f) (name +:+ rest) = Ok (v, rest).
Proof.
  assert (scan_value (S f) (name +:+ rest) = Ok (v, str_skip (String.length name) (name +:+ rest)) ->
    scan_value (S f) (name +:+ rest) = Ok (v, rest)) as Hgo by (intros ->; by rewrite str_skip_app).
  unfold constants. rewrite !elem_of_cons, elem_of_nil. intros H. apply Hgo.
  by repeat (destruct H as [[= -> ->]|H]; [by destruct rest|]).
Qed.

Lemma scan_json_number n rest f : number_ok n = true -> stops rest = true ->
  scan_value (S f) (json_number n +:+ rest) = Ok (VNum n, rest).
Proof.
  intros Hn Hr. destruct n as [z|x].
  - apply scan_value_number, (scan_number_ends _ _ _ Hr), scan_integer, Hn.
  - destruct (is_real_text x) eqn:Ex.
    + rewrite json_number_finite by done. by apply scan_value_number, (scan_number_ends _ _ _ Hr), float_text_ok.
    + destruct x as [|[]| |]; try done; apply scan_word; set_solver.
Qed.

Lemma number_head n : number_ok n = true ->
  exists a t, json_number n = String a t /\ is_json_space a = false /\ Ascii.eqb a "]" = false.
Proof.
  intros Hn.
  assert (forall s v r, scan_number s = Ok (v, r) -> exists a t, s = String a t /\ is_json_space a = false /\ Ascii.eqb a "]" = false) as Hgo.
  { intros s v r H. destruct (scan_number_head _ _ _ H) as (a & t & Ha & [->| ->]); eexists _, _; (split; [done|]); [each_digit Ha|]; done. }
  destruct n as [z|x]; [by eapply Hgo, scan_integer|].
  destruct (is_real_text x) eqn:Ex.
  - rewrite json_number_finite by done. by eapply Hgo, float_text_ok.
  - destruct x as [|[]| |]; try done; by eexists _, _.
Qed.

(** ** The round trip *)
Lemma insert_by_map {A B} (f : string * A -> string * B) (Hf : forall x, (f x).1 = x.1) x l :
  insert_by key_leb (f x) (map f l) = map f (insert_by key_leb x l).
Proof.
  induction l as [|y l IH]; [done|]. simpl.
  assert (key_leb (f x) (f y) = key_leb x y) as -> by (unfold key_leb; by rewrite !Hf).
  destruct (key_leb x y); simpl; [done|]. by rewrite IH.
Qed.

Lemma sort_by_map {A B} (f : string * A -> string * B) (Hf : forall x, (f x).1 = x.1) l :
  sort_by key_leb (map f l) = map f (sort_by key_leb l).
Proof. induction l as [|x l IH]; [done|]. simpl. by rewrite IH, insert_by_map. Qed.

Lemma arrange_map {A B} sort (f : string * A -> string * B) (Hf : forall x, (f x).1 = x.1) l :
  arrange sort (map f l) = map f (arrange sort l).
Proof. destruct sort; [by apply sort_by_map|done]. Qed.

Lemma arrange_perm {A} sort (l : list (string * A)) : arrange sort l ≡ₚ l.
Proof. destruct sort; [apply sort_by_perm|done]. Qed.

Lemma assoc_set_fresh {A} k (v : A) l : k ∉ l.*1 -> assoc_set k v l = l ++ [(k, v)].
Proof.
  induction l as [|[k' w] l IH]; [done|]. cbn. rewrite not_elem_of_cons. intros [Hk Hl].
  destruct (String.eqb_spec k k') as [->|]; [done|]. by rewrite (IH Hl).
Qed.

Lemma stops_space w s : str_forallb is_json_space w = true -> stops s = true -> stops (w +:+ s) = true.
Proof.
  intros Hw Hs. destruct w as [|a w]; [done|]. cbn in Hw. apply andb_true_iff in Hw as [Ha _].
  by destruct a as [[] [] [] [] [] [] [] []].
Qed.

Lemma delimiter_close close w rest : str_forallb is_json_space w = true -> is_json_space close = false -> Ascii.eqb close "," = false ->
  delimiter close (w +:+ String close rest) = Ok (false, rest).
Proof.
  intros Hw Hc Hn. unfold delimiter. rewrite skip_space_app by done. rewrite skip_space_head by done. by rewrite Hn, Ascii.eqb_refl.
Qed.

Section round_trip.
Context (opening next closing : nat -> string) (colon_space : string) (sort : bool).
Context (Hopening : forall n, str_forallb is_json_space (opening n) = true) (Hnext : forall n, str_forallb is_json_space (next n) = true).
Context (Hclosing : forall n, str_forallb is_json_space (closing n) = true) (Hcolon : str_forallb is_json_space colon_space = true).
Notation comma n := (String "," (next n)).
Notation colon := (String ":" colon_space).
Notation layout := (layout opening next closing colon sort).
Notation arranged := (arranged sort).

Definition entry (n : nat) (kv : string * val) : string := json_string kv.1 +:+ colon +:+ layout n kv.2.

Lemma layout_dict n kv d : layout n (VDict (kv :: d)) =
  "{" +:+ opening n +:+ str_join (comma n) (map (entry (Datatypes.S n)) (arrange sort (kv :: d))) +:+ closing n +:+ "}".
Proof. cbn [JsonText.layout]. rewrite arrange_map by done. by rewrite map_map. Qed.

Lemma arranged_dict d : arranged (VDict d) = VDict (map (fun kv => (kv.1, arranged kv.2)) (arrange sort d)).
Proof. simpl. by rewrite arrange_map by done. Qed.

Lemma layout_head n v : printable v = true ->
  exists a t, layout n v = String a t /\ is_json_space a = false /\ Ascii.eqb a "]" = false.
Proof.
  destruct v as [|[]|x|s|[|v l]|[|kv d]]; try (intros _; by eexists _, _). apply number_head.
Qed.

Lemma delimiter_more close n s : delimiter close (comma n +:+ s) = Ok (true, skip_space s).
Proof. unfold delimiter. simpl. by rewrite skip_space_app. Qed.

(** What a value's text reads as, in any context that ends it. *)
Definition reads (v : val) : Prop := forall n f rest, stops rest = true -> (2 * String.length (layout n v) + 1 <= f)%nat ->
  scan_value f (layout n v +:+ rest) = Ok (arranged v, rest).

(** The elements of a list start with no space. *)
Lemma elements_start n v l s : printable v = true ->
  exists a q, str_join (comma n) (map (layout (Datatypes.S n)) (v :: l)) +:+ s = String a q /\ is_json_space a = false /\ Ascii.eqb a "]" = false.
Proof.
  intros Hv. destruct (layout_head (Datatypes.S n) v Hv) as (a & t & E & Ha & Hb).
  destruct l; cbn [str_join map]; rewrite E; eexists _, _; by split.
Qed.

Lemma scan_elements_join n l : l <> [] -> Forall (fun v => reads v /\ printable v = true) l -> forall f acc rest,
  (2 * String.length (str_join (comma n) (map (layout (Datatypes.S n)) l)) + 2 <= f)%nat ->
  scan_elements f (str_join (comma n) (map (layout (Datatypes.S n)) l) +:+ closing n +:+ String "]" rest) acc = Ok (VList (acc ++ map arranged l), rest).
Proof.
  intros Hne Hall. induction Hall as [|v l [Hv Hp] Hall IH]; [done|]. intros f acc rest Hf.
  destruct f as [|f]; [lia|]. cbn [scan_elements].
  destruct l as [|w l].
  - cbn [str_join map] in *. rewrite Hv by (lia || by apply stops_space). cbn [rbind]. by rewrite delimiter_close.
  - change (str_join (comma n) (map (layout (Datatypes.S n)) (v :: w :: l)))
      with (layout (Datatypes.S n) v +:+ comma n +:+ str_join (comma n) (map (layout (Datatypes.S n)) (w :: l))) in *.
    rewrite !str_length_app in Hf. cbn [String.length] in Hf.
    rewrite !app_assoc_str, Hv by (done || lia). cbn [rbind]. rewrite delimiter_more. cbn [rbind].
    pose proof (Forall_inv Hall) as [_ Hw]. destruct (elements_start n w l (closing n +:+ String "]" rest) Hw) as (a & q & E & Ha & _).
    rewrite E, skip_space_head, <- E by done. rewrite IH by (done || lia). by rewrite <- app_assoc.
Qed.

Lemma scan_key_entry k rest : is_json_space match rest with String a _ => a | EmptyString => "x" end = false ->
  scan_key (json_string k +:+ colon +:+ rest) = Ok (k, rest).
Proof.
  intros Hr. rewrite json_string_app. simpl. rewrite scan_string_chars. simpl. rewrite skip_space_app by done.
  destruct rest as [|a rest]; [done|]. by rewrite skip_space_head.
Qed.

Lemma members_start n kv d s : exists q, str_join (comma n) (map (entry (Datatypes.S n)) (kv :: d)) +:+ s = String dquote q.
Proof. destruct d; cbn [str_join map]; by eexists. Qed.

Lemma scan_members_join n d : d <> [] -> Forall (fun kv => reads kv.2 /\ printable kv.2 = true) d -> NoDup (keys d) ->
  forall f acc rest, Forall (fun k => k ∉ keys acc) (keys d) ->
  (2 * String.length (str_join (comma n) (map (entry (Datatypes.S n)) d)) + 2 <= f)%nat ->
  scan_members f (str_join (comma n) (map (entry (Datatypes.S n)) d) +:+ closing n +:+ String "}" rest) acc =
  Ok (VDict (acc ++ map (fun kv => (kv.1, arranged kv.2)) d), rest).
Proof.
  intros Hne Hall. induction Hall as [|[k v] d [Hv Hp] Hall IH]; [done|]. intros Hnd f acc rest Hfresh Hf.
  cbn [keys fmap list_fmap fst snd] in *. apply NoDup_cons in Hnd as [Hk Hnd]. apply Forall_cons in Hfresh as [Hka Hfresh].
  destruct f as [|f]; [lia|]. cbn [scan_members].
  destruct (layout_head (Datatypes.S n) v Hp) as (a & t & Ev & Ha & _).
  assert (forall tail, scan_key (entry (Datatypes.S n) (k, v) +:+ tail) = Ok (k, layout (Datatypes.S n) v +:+ tail)) as Hkey.
  { intros tail. unfold entry. rewrite !app_assoc_str. apply scan_key_entry. simpl. by rewrite Ev. }
  assert (String.length (layout (Datatypes.S n) v) <= String.length (entry (Datatypes.S n) (k, v)))%nat as Hlen.
  { unfold entry. rewrite !str_length_app. simpl. lia. }
  destruct d as [|kw d].
  - cbn [str_join map] in *. rewrite Hkey. cbn [rbind]. rewrite Hv by (lia || by apply stops_space). cbn [rbind].
    rewrite delimiter_close by done. cbn [rbind]. by rewrite assoc_set_fresh.
  - change (str_join (comma n) (map (entry (Datatypes.S n)) ((k, v) :: kw :: d)))
      with (entry (Datatypes.S n) (k, v) +:+ comma n +:+ str_join (comma n) (map (entry (Datatypes.S n)) (kw :: d))) in *.
    rewrite !str_length_app in Hf. cbn [String.length] in Hf.
    rewrite !app_assoc_str, Hkey. cbn [rbind]. rewrite Hv by (done || lia). cbn [rbind]. rewrite delimiter_more. cbn [rbind].
    destruct (members_start n kw d (closing n +:+ String "}" rest)) as [q E]. rewrite E, skip_space_head, <- E by done.
    rewrite assoc_set_fresh by done. rewrite IH; [by rewrite <- app_assoc|done|done| |lia].
    apply Forall_forall. intros k' Hk'. rewrite Forall_forall in Hfresh. unfold keys. rewrite fmap_app, not_elem_of_app.
    split; [by apply Hfresh|]. cbn. intros ->%list_elem_of_singleton. done.
Qed.

Lemma list_reads v l : Forall (fun v => reads v /\ printable v = true) (v :: l) -> reads (VList (v :: l)).
Proof.
  intros Hall n f rest Hr Hf. destruct f as [|f]; [lia|]. cbn [JsonText.layout] in *. rewrite !str_length_app in Hf. cbn [String.length] in Hf.
  rewrite !app_assoc_str. cbn [String.append scan_value]. pose proof (Forall_inv Hall) as [_ Hv].
  destruct (elements_start n v l (closing n +:+ String "]" rest) Hv) as (a & q & E & Ha & Hb).
  rewrite skip_space_app by done. rewrite E, skip_space_head by done. cbn -[scan_elements]. rewrite Hb, <- E.
  by rewrite scan_elements_join by (done || lia).
Qed.

Lemma dict_reads kv d : Forall (fun kv => reads kv.2 /\ printable kv.2 = true) (kv :: d) -> NoDup (keys (kv :: d)) -> reads (VDict (kv :: d)).
Proof.
  intros Hall Hnd n f rest Hr Hf. destruct f as [|f]; [lia|].
  rewrite <- (arrange_perm sort (kv :: d)) in Hall.
  assert (NoDup (keys (arrange sort (kv :: d)))) as Hnd' by (unfold keys; by rewrite (arrange_perm sort (kv :: d))).
  revert Hf. rewrite layout_dict, arranged_dict, !str_length_app. cbn [String.length]. intros Hf.
  rewrite !app_assoc_str. cbn [String.append scan_value].
  destruct (arrange sort (kv :: d)) as [|kw d'] eqn:Ed.
  { pose proof (arrange_perm sort (kv :: d)) as Hp. rewrite Ed in Hp. by apply Permutation_nil_cons in Hp. }
  destruct (members_start n kw d' (closing n +:+ String "}" rest)) as [q E].
  rewrite skip_space_app by done. rewrite E, skip_space_head by done. cbn -[scan_members]. rewrite <- E.
  rewrite scan_members_join; [done|done|done|done| |lia]. apply Forall_forall. intros k _. apply not_elem_of_nil.
Qed.

Lemma layout_reads v : printable v = true -> reads v.
Proof.
  induction v as [|b|x|s|l IH|d IH] using val_ind; intros Hp.
  - intros n [|f] rest Hr Hf; [lia|]. apply (scan_word "null"). set_solver.
  - intros n [|f] rest Hr Hf; [lia|]. destruct b; [apply (scan_word "true")|apply (scan_word "false")]; set_solver.
  - intros n [|f] rest Hr Hf; [lia|]. by apply scan_json_number.
  - intros n [|f] rest Hr Hf; [lia|]. cbn [JsonText.layout]. rewrite json_string_app. cbn [scan_value].
    change (Ascii.eqb dquote dquote) with true. cbn iota. by rewrite scan_string_chars.
  - destruct l as [|v l]; [by intros n [|f] rest Hr Hf; [lia|]|]. cbn [printable] in Hp. rewrite forallb_forall in Hp. apply list_reads.
    rewrite Forall_forall in IH |- *. intros w Hw. pose proof (Hp w (proj1 (list_elem_of_In _ _) Hw)). auto.
  - destruct d as [|kv d]; [by intros n [|f] rest Hr Hf; [lia|]; destruct sort|].
    cbn [printable] in Hp. apply andb_true_iff in Hp as [Hnd%bool_decide_eq_true Hp]. rewrite forallb_forall in Hp. apply dict_reads; [|done].
    rewrite Forall_forall in IH |- *. intros kw Hw. pose proof (Hp kw (proj1 (list_elem_of_In _ _) Hw)). auto.
Qed.

(** [json.loads] of the text of [v] is [v], with its keys in the order they were printed; space after it
    is skipped. *)
Lemma loads_layout n v w : printable v = true -> str_forallb is_json_space w = true -> loads (layout n v +:+ w) = Ok (arranged v).
Proof.
  intros Hp Hw. unfold loads.
  assert (skip_space (layout n v +:+ w) = layout n v +:+ w) as ->.
  { destruct (layout_head n v Hp) as (a & t & -> & Ha & _). by apply skip_space_head. }
  rewrite (layout_reads v Hp); [| |unfold json_fuel; rewrite str_length_app; lia].
  - cbn [rbind]. rewrite <- (app_nil_str w), skip_space_app by done. done.
  - rewrite <- (app_nil_str w). by apply stops_space.
Qed.
End round_trip.

(** Without line breaks the depth does not matter. *)
Lemma dumps_layout cs colon sort v n : dumps (String "," cs) colon sort v = layout (fun _ => "") (fun _ => cs) (fun _ => "") colon sort n v.
Proof.
  revert n. induction v as [|b|x|s|l IH|d IH] using val_ind; intros n; [done|done|done|done| |].
  - assert (map (dumps (String "," cs) colon sort) l = map (layout (fun _ => "") (fun _ => cs) (fun _ => "") colon sort (Datatypes.S n)) l) as E.
    { induction IH as [|v l Hv _ IH]; [done|]. cbn [map]. by rewrite (Hv (Datatypes.S n)), IH. }
    cbn [dumps]. rewrite E. by destruct l.
  - assert (map (fun kv => (kv.1, json_string kv.1 +:+ colon +:+ dumps (String "," cs) colon sort kv.2)) d =
            map (fun kv => (kv.1, json_string kv.1 +:+ colon +:+ layout (fun _ => "") (fun _ => cs) (fun _ => "") colon sort (Datatypes.S n) kv.2)) d) as E.
    { induction IH as [|kv d Hv _ IH]; [done|]. cbn [map]. by rewrite (Hv (Datatypes.S n)), IH. }
    cbn [dumps]. rewrite E. by destruct d, sort.
Qed.

Lemma loads_dumps_space cs os sort v w : str_forallb is_json_space cs = true -> str_forallb is_json_space os = true ->
  printable v = true -> str_forallb is_json_space w = true ->
  loads (dumps (String "," cs) (String ":" os) sort v +:+ w) = Ok (arranged sort v).
Proof. intros Hc Ho Hp Hw. rewrite (dumps_layout _ _ _ _ O). by apply loads_layout. Qed.

Lemma loads_dumps cs os sort v : str_forallb is_json_space cs = true -> str_forallb is_json_space os = true -> printable v = true ->
  loads (dumps (String "," cs) (String ":" os) sort v) = Ok (arranged sort v).
Proof. intros Hc Ho Hp. rewrite <- (app_nil_str (dumps _ _ _ v)). by apply loads_dumps_space. Qed.

(** Indented, the breaks are white space. *)
Lemma json_indent_layout n v :
  json_indent n v = layout (fun n => indented (Datatypes.S n)) (fun n => indented (Datatypes.S n)) indented ": " true n v.
Proof.
  revert n. induction v as [|b|x|s|l IH|d IH] using val_ind; intros n; [done|done|done|done| |].
  - assert (map (json_indent (Datatypes.S n)) l =
            map (layout (fun n => indented (Datatypes.S n)) (fun n => indented (Datatypes.S n)) indented ": " true (Datatypes.S n)) l) as E.
    { induction IH as [|v l Hv _ IH]; [done|]. cbn [map]. by rewrite (Hv (Datatypes.S n)), IH. }
    destruct l; [done|]. cbn [json_indent layout]. by rewrite E.
  - assert (map (fun kv => (kv.1, json_string kv.1 +:+ ": " +:+ json_indent (Datatypes.S n) kv.2)) d =
            map (fun kv => (kv.1, json_string kv.1 +:+ ": " +:+
              layout (fun n => indented (Datatypes.S n)) (fun n => indented (Datatypes.S n)) indented ": " true (Datatypes.S n) kv.2)) d) as E.
    { induction IH as [|kv d Hv _ IH]; [done|]. cbn [map]. by rewrite (Hv (Datatypes.S n)), IH. }
    destruct d; [done|]. cbn [json_indent layout]. by rewrite E.
Qed.

Lemma indented_space n : str_forallb is_json_space (indented n) = true.
Proof. unfold indented. rewrite str_forallb_app. cbn. induction n as [|n IH]; [done|]. cbn. exact IH. Qed.

(** What is written indented is read back, sorted. *)
Lemma loads_json_file v : printable v = true -> loads_bytes (json_file v) = Ok (arranged true v).
Proof.
  intros Hp. unfold loads_bytes, json_file. rewrite decode_utf8_utf8. cbn [rbind].
  rewrite json_indent_layout. apply loads_layout; intros; auto using indented_space.
Qed.

(** [canonical_json] is the printer of sorted keys and no spaces. *)
Lemma canonical_dumps v : canonical_json v = dumps "," ":" true v.
Proof. reflexivity. Qed.

(** ** Sorted keys *)
Lemma sort_by_idem {A} (d : list (string * A)) : sort_by key_leb (sort_by key_leb d) = sort_by key_leb d.
Proof.
  apply sort_by_id, sort_by_sorted.
  - intros x y. apply str_leb_total.
  - intros x y z. apply str_leb_trans.
Qed.

Lemma map_arranged comma colon d (f : val -> val) : Forall (fun kv => dumps comma colon true (f kv.2) = dumps comma colon true kv.2) d ->
  map (fun kv => (kv.1, json_string kv.1 +:+ colon +:+ dumps comma colon true kv.2)) (map (fun kv => (kv.1, f kv.2)) d) =
  map (fun kv => (kv.1, json_string kv.1 +:+ colon +:+ dumps comma colon true kv.2)) d.
Proof. induction 1 as [|kv d Hv _ IH]; [done|]. cbn [map fst snd]. by rewrite Hv, IH. Qed.

(** Values with the same sorted form print the same, each as its sorted form. *)
Lemma dumps_arranged comma colon v : dumps comma colon true (arranged true v) = dumps comma colon true v.
Proof.
  induction v as [|b|n|s|l IH|d IH] using val_ind; [done|done|done|done| |].
  - cbn [arranged dumps]. do 2 f_equal. f_equal. rewrite map_map. induction IH as [|v l Hv _ IH]; [done|]. simpl. by rewrite Hv, IH.
  - cbn [arranged dumps]. do 2 f_equal. f_equal. unfold arrange.
    rewrite (sort_by_map (fun kv : string * val => (kv.1, arranged true kv.2))) by done.
    rewrite !(sort_by_map (fun kv : string * val => (kv.1, json_string kv.1 +:+ colon +:+ dumps comma colon true kv.2))) by done.
    rewrite (sort_by_map (fun kv : string * val => (kv.1, arranged true kv.2))) by done.
    rewrite sort_by_idem, (map_arranged comma colon _ (arranged true)); [done|]. by rewrite sort_by_perm.
Qed.

Lemma canonical_arranged v : canonical_json (arranged true v) = canonical_json v.
Proof. rewrite !canonical_dumps. apply dumps_arranged. Qed.

Lemma canonical_json_arranged v w : printable v = true -> printable w = true -> canonical_json v = canonical_json w ->
  arranged true v = arranged true w.
Proof.
  intros Hv Hw H. pose proof (loads_dumps "" "" true v eq_refl eq_refl Hv) as Ev. pose proof (loads_dumps "" "" true w eq_refl eq_refl Hw) as Ew.
  rewrite <- canonical_dumps in Ev, Ew. rewrite H, Ew in Ev. by injection Ev.
Qed.

Lemma arranged_printable v : printable v = true -> printable (arranged true v) = true.
Proof.
  induction v as [|b|n|s|l IH|d IH] using val_ind; [done|done|done|done| |].
  - cbn. induction IH as [|v l Hv _ IH]; [done|]. simpl. intros [Hp Hl]%andb_true_iff. by rewrite Hv, IH.
  - cbn [arranged printable]. unfold arrange. intros [Hnd%bool_decide_eq_true Hp]%andb_true_iff.
    assert (keys (map (fun kv => (kv.1, arranged true kv.2)) d) = keys d) as Hk.
    { unfold keys. clear. induction d as [|kv d IH]; [done|]. cbn. by f_equal. }
    apply andb_true_iff. split.
    + apply bool_decide_eq_true. unfold keys. rewrite sort_by_perm. fold (keys (map (fun kv => (kv.1, arranged true kv.2)) d)). by rewrite Hk.
    + rewrite forallb_forall in Hp |- *. intros kv Hin. rewrite <- list_elem_of_In, sort_by_elem, list_elem_of_In, in_map_iff in Hin.
      destruct Hin as (kw & <- & Hin). rewrite Forall_forall in IH. apply IH; [by apply list_elem_of_In|by apply Hp].
Qed.

(** ** A mapping that was read back *)
Lemma keys_map_values (f : val -> val) d : keys (map (fun kv => (kv.1, f kv.2)) d) = keys d.
Proof. unfold keys. induction d as [|kv d IH]; [done|]. cbn. by f_equal. Qed.

Lemma keys_arranged k d : k ∈ keys (sort_by key_leb (map (fun kv => (kv.1, arranged true kv.2)) d)) <-> k ∈ keys d.
Proof.
  pose proof (keys_map_values (arranged true) d) as E. unfold keys in *. by rewrite sort_by_perm, E.
Qed.

Lemma get_arranged k d : NoDup (keys d) -> get k (sort_by key_leb (map (fun kv => (kv.1, arranged true kv.2)) d)) = arranged true (get k d).
Proof.
  intros Hnd. unfold get. rewrite (assoc_perm k _ (map (fun kv => (kv.1, arranged true kv.2)) d)).
  - clear. induction d as [|[k' v] d IH]; [done|]. cbn [map assoc fst snd]. by destruct (String.eqb k k').
  - rewrite sort_by_perm. pose proof (keys_map_values (arranged true) d) as E. unfold keys in *. by rewrite E.
  - apply sort_by_perm.
Qed.

Lemma printable_keys d : printable (VDict d) = true -> NoDup (keys d).
Proof. cbn. intros [H _]%andb_true_iff. by bool_inv. Qed.

Lemma set_printable k v d : printable (VDict d) = true -> printable v = true -> printable (VDict (assoc_set k v d)) = true.
Proof.
  intros Hd Hv. pose proof (printable_keys d Hd) as Hn. cbn [printable] in *. apply andb_prop in Hd as [_ Hd].
  apply andb_true_iff. split.
  - apply bool_decide_eq_true. unfold keys in *. destruct (decide (k ∈ d.*1)) as [Hk|Hk]; [by rewrite keys_assoc_set|].
    rewrite assoc_set_fresh by done. rewrite map_app. apply NoDup_app. split; [done|]. split; [|apply NoDup_singleton].
    intros x Hx Hin. apply list_elem_of_singleton in Hin as ->. done.
  - apply forallb_forall. intros x Hx. rewrite forallb_forall in Hd. revert x Hx. setoid_rewrite <- list_elem_of_In. apply Forall_forall.
    apply assoc_set_Forall; [done|]. apply Forall_forall. intros x Hx. by apply Hd, list_elem_of_In.
Qed.

(** ** The fuel is enough *)

(** A result that is not for lack of fuel; when it is a value, [n] characters at least are gone. *)
Definition progress {A} (s : string) (m : result (A * string)) : Prop :=
  m <> Err out_of_fuel /\ forall v rest, m = Ok (v, rest) -> (String.length rest < String.length s)%nat.

Lemma skip_space_length s : (String.length (skip_space s) <= String.length s)%nat.
Proof. induction s as [|a s IH]; simpl; [done|]. destruct (is_json_space a); simpl; lia. Qed.

Lemma span_digits_length s : (String.length (span_digits s).2 + String.length (span_digits s).1 = String.length s)%nat.
Proof.
  induction s as [|a s IH]; [done|]. simpl. destruct (is_ascii_digit a); [|simpl; lia].
  destruct (span_digits s). simpl in *. lia.
Qed.

Lemma before_progress a m s t : progress s m -> (String.length s < String.length t)%nat -> progress t (before a m).
Proof.
  intros [Hf Hl] Hst. destruct m as [[v rest]|e]; simpl; split; try done.
  intros v' rest' [= <- <-]. specialize (Hl _ _ eq_refl). lia.
Qed.

Lemma scan_string_progress s : progress s (scan_string s).
Proof.
  induction s as [s IH] using (well_founded_induction (Wf_nat.well_founded_ltof _ String.length)). unfold Wf_nat.ltof in IH.
  destruct s as [|a s]; [done|]. cbn [scan_string]. destruct (Ascii.eqb a dquote).
  { split; [done|]. intros ? ? [= <- <-]. simpl. lia. }
  assert (forall b t, (String.length t < String.length (String a s))%nat -> progress (String a s) (before b (scan_string t))) as Hgo.
  { intros b t Ht. by eapply before_progress; [apply IH|]. }
  destruct (Ascii.eqb a "\").
  - destruct s as [|e s]; [done|]. destruct (Ascii.eqb e "u").
    + destruct s as [|h1 [|h2 [|h3 [|h4 s]]]]; try done. destruct (parse_digits 16 _) as [c|]; [|done].
      destruct (c <? 256); [|done]. apply Hgo. simpl. lia.
    + destruct (unescape e); [|done]. apply Hgo. simpl. lia.
  - destruct (code a <? 32); [done|]. apply Hgo. simpl. lia.
Qed.

Lemma integer_part_length s : (String.length (integer_part s).2 + String.length (integer_part s).1 = String.length s)%nat.
Proof.
  destruct s as [|a s]; [done|]. unfold integer_part. destruct (Ascii.eqb a "0"); [simpl; lia|apply span_digits_length].
Qed.

Lemma scan_fraction_length s : (String.length (scan_fraction s).2 <= String.length s)%nat.
Proof.
  destruct s as [|a s]; [done|]. simpl. destruct (Ascii.eqb a "."); [|done]. pose proof (span_digits_length s).
  destruct (span_digits s) as [ds q]. simpl in *. destruct (String.eqb ds ""); simpl; lia.
Qed.

Lemma scan_exponent_length s : (String.length (scan_exponent s).2 <= String.length s)%nat.
Proof.
  destruct s as [|a s]; [done|]. simpl. destruct (_ || _); [|done].
  assert (forall n t, (String.length t <= String.length s)%nat ->
    (String.length (let '(ds, rest) := span_digits t in
      match parse_digits 10 ds with Some x => (Some (if n : bool then - x else x), rest) | None => (None, String a s) end).2
     <= S (String.length s))%nat) as Hgo.
  { intros n t Ht. pose proof (span_digits_length t). destruct (span_digits t) as [ds q]. simpl in *.
    destruct (parse_digits 10 ds); simpl; lia. }
  destruct s as [|b s]; [by apply (Hgo false "")|].
  destruct (Ascii.eqb b "-"); [|destruct (Ascii.eqb b "+")];
    [apply (Hgo true)|apply (Hgo false)|apply (Hgo false (String b s))]; simpl; lia.
Qed.

Lemma scan_number_progress s : progress s (scan_number s).
Proof.
  unfold scan_number. fold (signed s). assert (String.length (signed s).2 <= String.length s)%nat.
  { destruct s as [|a s]; [done|]. simpl. destruct (Ascii.eqb a "-"); simpl; lia. }
  destruct (signed s) as [n t]. pose proof (integer_part_length t). destruct (integer_part t) as [w t1].
  destruct (String.eqb_spec w "") as [|Hw]; [done|]. pose proof (scan_fraction_length t1). destruct (scan_fraction t1) as [fr t2].
  pose proof (scan_exponent_length t2). destruct (scan_exponent t2) as [x t3]. simpl in *.
  assert (0 < String.length w)%nat by (destruct w; simpl; [done|lia]).
  unfold number_value. destruct (parse_digits _ _); [|done].
  destruct (_ && _); [destruct (_ <? _); [done|]|]; (split; [done|]; intros ? ? [= <- <-]; lia).
Qed.

Lemma delimiter_progress close s : progress s (delimiter close s).
Proof.
  unfold delimiter. pose proof (skip_space_length s). destruct (skip_space s) as [|a r]; [done|]. simpl in *.
  pose proof (skip_space_length r).
  destruct (Ascii.eqb a ","); [|destruct (Ascii.eqb a close); [|done]]; (split; [done|]; intros ? ? [= <- <-]; lia).
Qed.

Lemma scan_key_progress s : progress s (scan_key s).
Proof.
  destruct s as [|a s]; [done|]. simpl. destruct (Ascii.eqb a dquote); [|done].
  destruct (scan_string_progress s) as [Hf Hl]. destruct (scan_string s) as [[k rest]|e]; simpl; [|split; [congruence|done]].
  specialize (Hl _ _ eq_refl). pose proof (skip_space_length rest). destruct (skip_space rest) as [|b r]; [done|].
  pose proof (skip_space_length r). simpl in *. destruct (Ascii.eqb b ":"); [|done].
  split; [done|]. intros ? ? [= <- <-]. simpl. lia.
Qed.

Lemma str_skip_length n s : String.length (str_skip n s) = (String.length s - n)%nat.
Proof.
  revert s. induction n as [|n IH]; intros s; [rewrite str_skip_0; lia|].
  destruct s as [|a s]; [done|]. rewrite str_skip_cons, IH. simpl. lia.
Qed.

Lemma scan_constant_length names s v rest : Forall (fun nv => nv.1 <> "") names ->
  scan_constant names s = Some (v, rest) -> (String.length rest < String.length s)%nat.
Proof.
  induction 1 as [|[name w] names Hne _ IH]; [done|]. cbn. destruct (starts_with name s) eqn:E; [|done].
  intros [= <- <-]. rewrite str_skip_length. simpl in Hne.
  destruct name as [|a name]; [done|]. destruct s as [|b s]; [done|]. simpl. lia.
Qed.

(** With twice the length of the text, and one for the delimiter, no scan runs out. *)
Lemma scans_progress fuel :
  (forall s, (2 * String.length s < fuel)%nat -> progress s (scan_value fuel s)) /\
  (forall s acc, (2 * String.length s + 1 < fuel)%nat -> progress s (scan_elements fuel s acc)) /\
  (forall s acc, (2 * String.length s + 1 < fuel)%nat -> progress s (scan_members fuel s acc)).
Proof.
  induction fuel as [|f (IHv & IHe & IHm)]; [repeat split; lia|].
  assert (forall s t, (String.length t <= String.length s)%nat -> forall (m : result (val * string)), progress t m -> progress (String "x" s) m) as Hlift.
  { intros s t Ht m [Hf Hl]. split; [done|]. intros v r E. specialize (Hl v r E). simpl. lia. }
  split; [|split].
  - intros s Hs. destruct s as [|a r]; [done|]. cbn [scan_value]. simpl String.length in Hs.
    pose proof (skip_space_length r) as Hr.
    assert (forall close v, progress (String a r) match closes close (skip_space r) with Some rest => Ok (v : val, rest) | None => Err expecting_value end) as Hclose.
    { intros close v. destruct (skip_space r) as [|b q]; [done|]. simpl in *. destruct (Ascii.eqb b close); [|done].
      split; [done|]. intros ? ? [= <- <-]. simpl. lia. }
    destruct (Ascii.eqb a dquote).
    { destruct (scan_string_progress r) as [Hf Hl]. destruct (scan_string r) as [[t rest]|e]; simpl; [|split; [congruence|done]].
      specialize (Hl _ _ eq_refl). split; [done|]. intros ? ? [= <- <-]. simpl. lia. }
    destruct (Ascii.eqb a "{").
    { specialize (Hclose "}"%char (VDict [])). destruct (closes _ _); [done|]. by eapply (Hlift r), IHm; [|lia]. }
    destruct (Ascii.eqb a "[").
    { specialize (Hclose "]"%char (VList [])). destruct (closes _ _); [done|]. by eapply (Hlift r), IHe; [|lia]. }
    destruct (scan_constant constants (String a r)) as [[v rest]|] eqn:E; [|apply scan_number_progress].
    apply scan_constant_length in E; [|by repeat constructor]. split; [done|]. by intros ? ? [= <- <-].
  - intros s acc Hs. cbn [scan_elements]. destruct (IHv s ltac:(lia)) as [Hf Hl].
    destruct (scan_value f s) as [[v rest]|e]; simpl; [|split; [congruence|done]]. specialize (Hl _ _ eq_refl).
    destruct (delimiter_progress "]" rest) as [Hf' Hl']. destruct (delimiter "]" rest) as [[more rest']|e]; simpl; [|split; [congruence|done]].
    specialize (Hl' _ _ eq_refl). destruct more.
    + destruct (IHe rest' (acc ++ [v]) ltac:(lia)) as [Hfe Hle]. split; [done|]. intros w q E. specialize (Hle w q E). lia.
    + split; [done|]. intros ? ? [= <- <-]. lia.
  - intros s acc Hs. cbn [scan_members]. destruct (scan_key_progress s) as [Hfk Hlk].
    destruct (scan_key s) as [[k s']|e]; simpl; [|split; [congruence|done]]. specialize (Hlk _ _ eq_refl).
    destruct (IHv s' ltac:(lia)) as [Hf Hl].
    destruct (scan_value f s') as [[v rest]|e]; simpl; [|split; [congruence|done]]. specialize (Hl _ _ eq_refl).
    destruct (delimiter_progress "}" rest) as [Hf' Hl']. destruct (delimiter "}" rest) as [[more rest']|e]; simpl; [|split; [congruence|done]].
    specialize (Hl' _ _ eq_refl). destruct more.
    + destruct (IHm rest' (assoc_set k v acc) ltac:(lia)) as [Hfe Hle]. split; [done|]. intros w q E. specialize (Hle w q E). lia.
    + split; [done|]. intros ? ? [= <- <-]. lia.
Qed.

(** So [loads] gives a value, or an error of the scanner. *)
Lemma loads_never_runs_out text : loads text <> Err out_of_fuel.
Proof.
  unfold loads. destruct (scans_progress (json_fuel (skip_space text))) as [H _].
  destruct (H (skip_space text)) as [Hf _]; [unfold json_fuel; lia|].
  destruct (scan_value _ _) as [[v rest]|e]; simpl; [|congruence]. by destruct (String.eqb _ _).
Qed.
