(* ===== verification/Sha256.v ===== *)
(** SHA-256, HMAC-SHA-256 and URL-safe base64, as the code takes them from Python's [hashlib],
    [hmac] and [base64].

    Bytes are integers from 0 to 255 and words are integers below 2^32, with the wrap-around
    of the FIPS 180-4 additions written out. *)

From S2P Require Import Prelude PyText.

Definition MASK : Z := 4294967295.
Definition add32 (a b : Z) : Z := Z.land (a + b) MASK.
Definition not32 (a : Z) : Z := Z.lxor a MASK.
Definition rotr (n x : Z) : Z := Z.lor (Z.shiftr x n) (Z.land (Z.shiftl x (32 - n)) MASK).

(** * Constants: fractional parts of the roots of the first primes *)
Definition round_constants : list Z := [
  1116352408; 1899447441; 3049323471; 3921009573; 961987163; 1508970993; 2453635748; 2870763221;
  3624381080; 310598401; 607225278; 1426881987; 1925078388; 2162078206; 2614888103; 3248222580;
  3835390401; 4022224774; 264347078; 604807628; 770255983; 1249150122; 1555081692; 1996064986;
  2554220882; 2821834349; 2952996808; 3210313671; 3336571891; 3584528711; 113926993; 338241895;
  666307205; 773529912; 1294757372; 1396182291; 1695183700; 1986661051; 2177026350; 2456956037;
  2730485921; 2820302411; 3259730800; 3345764771; 3516065817; 3600352804; 4094571909; 275423344;
  430227734; 506948616; 659060556; 883997877; 958139571; 1322822218; 1537002063; 1747873779;
  1955562222; 2024104815; 2227730452; 2361852424; 2428436474; 2756734187; 3204031479; 3329325298].

Definition initial_hash : list Z := [
  1779033703; 3144134277; 1013904242; 2773480762; 1359893119; 2600822924; 528734635; 1541459225].

Definition ch (x y z : Z) : Z := Z.lxor (Z.land x y) (Z.land (not32 x) z).
Definition maj (x y z : Z) : Z := Z.lxor (Z.lxor (Z.land x y) (Z.land x z)) (Z.land y z).
Definition big0 (x : Z) : Z := Z.lxor (Z.lxor (rotr 2 x) (rotr 13 x)) (rotr 22 x).
Definition big1 (x : Z) : Z := Z.lxor (Z.lxor (rotr 6 x) (rotr 11 x)) (rotr 25 x).
Definition small0 (x : Z) : Z := Z.lxor (Z.lxor (rotr 7 x) (rotr 18 x)) (Z.shiftr x 3).
Definition small1 (x : Z) : Z := Z.lxor (Z.lxor (rotr 17 x) (rotr 19 x)) (Z.shiftr x 10).

(** The message schedule, last word first: sixteen words of the block, then 48 derived ones. *)
Fixpoint extend (n : nat) (rev_w : list Z) : list Z :=
  match n with
  | O => rev_w
  | S n' =>
      let w i := nth i rev_w 0 in
      extend n' (add32 (add32 (small1 (w 1%nat)) (w 6%nat)) (add32 (small0 (w 14%nat)) (w 15%nat)) :: rev_w)
  end.

Definition round (h : list Z) (kw : Z * Z) : list Z :=
  match h with
  | [a; b; c; d; e; f; g; hh] =>
      let t1 := add32 (add32 (add32 hh (big1 e)) (add32 (ch e f g) kw.1)) kw.2 in
      let t2 := add32 (big0 a) (maj a b c) in
      [add32 t1 t2; a; b; c; add32 d t1; e; f; g]
  | _ => h
  end.

Definition compress (h block : list Z) : list Z :=
  let w := rev (extend 48 (rev block)) in
  zip_with add32 h (fold_left round (combine round_constants w) h).

Definition be_word (bytes : list Z) : Z := fold_left (fun acc b => acc * 256 + b) bytes 0.

Fixpoint chunks {A} (n fuel : nat) (l : list A) : list (list A) :=
  match fuel with
  | O => []
  | S f =>
      match l with
      | [] => []
      | _ => take n l :: chunks n f (drop n l)
      end
  end.

Fixpoint be_bytes (n : nat) (v : Z) : list Z :=
  match n with
  | O => []
  | S n' => be_bytes n' (v / 256) ++ [v mod 256]
  end.

(** One 1 bit, zeros to 56 bytes modulo 64, and the length in bits on eight bytes. *)
Definition pad (msg : list Z) : list Z :=
  let len := Z.of_nat (length msg) in
  msg ++ [128] ++ repeat 0 (Z.to_nat ((55 - len) mod 64)) ++ be_bytes 8 (len * 8).

Definition sha256 (msg : list Z) : list Z :=
  let padded := pad msg in
  let blocks := chunks 64 (length padded) padded in
  let words block := map be_word (chunks 4 16 block) in
  concat (map (be_bytes 4) (fold_left (fun h b => compress h (words b)) blocks initial_hash)).

Definition hex_byte (b : Z) : string := str1 (digit_char (b / 16)) +:+ str1 (digit_char (b mod 16)).
Definition hexdigest (digest : list Z) : string := concat_str (map hex_byte digest).

(** [hmac.new(key, msg, sha256).digest()]. *)
Definition hmac_sha256 (key msg : list Z) : list Z :=
  let k := if (64 <? length key)%nat then sha256 key else key in
  let k := k ++ repeat 0 (64 - length k) in
  sha256 (map (Z.lxor 92) k ++ sha256 (map (Z.lxor 54) k ++ msg)).

(** * URL-safe base64 *)
Definition b64_char (v : Z) : ascii :=
  if v <? 26 then chr (65 + v)
  else if v <? 52 then chr (71 + v)
  else if v <? 62 then chr (v - 4)
  else if v =? 62 then "-"%char else "_"%char.

Fixpoint b64_chars (bytes : list Z) : string :=
  match bytes with
  | a :: b :: c :: r =>
      String (b64_char (a / 4)) (String (b64_char (a mod 4 * 16 + b / 16))
        (String (b64_char (b mod 16 * 4 + c / 64)) (String (b64_char (c mod 64)) (b64_chars r))))
  | [a; b] =>
      String (b64_char (a / 4)) (String (b64_char (a mod 4 * 16 + b / 16)) (str1 (b64_char (b mod 16 * 4))))
  | [a] => String (b64_char (a / 4)) (str1 (b64_char (a mod 4 * 16)))
  | [] => ""
  end.

(** [urlsafe_b64encode(bytes).decode("ascii").rstrip("=")]. *)
Definition urlsafe_b64_nopad : list Z -> string := b64_chars.

(** * Shapes of the outputs *)
Definition is_byte (b : Z) : Prop := 0 <= b < 256.

Lemma be_bytes_shape n v : length (be_bytes n v) = n /\ Forall is_byte (be_bytes n v).
Proof.
  revert v. induction n as [|n IH]; intros v; simpl; [done|].
  destruct (IH (v / 256)) as [H1 H2]. rewrite length_app, H1. simpl. split; [lia|].
  apply Forall_app. split; [done|]. repeat constructor; by apply Z.mod_pos_bound.
Qed.

Lemma round_length h kw : length (round h kw) = length h.
Proof. by destruct h as [|? [|? [|? [|? [|? [|? [|? [|? [|? ?]]]]]]]]]. Qed.

Lemma compress_length h block : length (compress h block) = length h.
Proof.
  unfold compress. rewrite length_zip_with.
  assert (forall l g, length (fold_left round l g) = length g) as ->; [|lia].
  intros l. induction l as [|x l IH]; intros g; simpl; [done|]. by rewrite IH, round_length.
Qed.

Lemma fold_compress_length {A} (blocks : list A) f h :
  length (fold_left (fun h b => compress h (f b)) blocks h) = length h.
Proof.
  revert h. induction blocks as [|b r IH]; intros h; simpl; [done|].
  rewrite IH. apply compress_length.
Qed.

(** A digest is thirty-two bytes. *)
Lemma sha256_shape msg : length (sha256 msg) = 32%nat /\ Forall is_byte (sha256 msg).
Proof.
  unfold sha256. match goal with |- context [fold_left ?f ?bs initial_hash] =>
    pose proof (fold_compress_length bs (fun b => map be_word (chunks 4 16 b)) initial_hash) as Hl;
    change (length (fold_left f bs initial_hash) = 8%nat) in Hl; revert Hl;
    generalize (fold_left f bs initial_hash) end.
  intros l Hl. assert (Forall (fun w => length (be_bytes 4 w) = 4%nat) l) as H4.
  { apply Forall_true. intros x. apply be_bytes_shape. }
  split.
  - assert (forall l, length (concat (map (be_bytes 4) l)) = (4 * length l)%nat) as ->; [|lia].
    clear. induction l as [|x l IH]; [done|]. cbn [map concat]. rewrite length_app, IH, (proj1 (be_bytes_shape 4 x)).
    simpl. lia.
  - clear. induction l as [|x l IH]; cbn [map concat]; [constructor|].
    apply Forall_app. split; [apply be_bytes_shape|done].
Qed.

(** The characters base64 uses, and the value of each. *)
Definition is_b64_char (a : ascii) : bool :=
  let c := code a in
  ((65 <=? c) && (c <=? 90)) || ((97 <=? c) && (c <=? 122)) || ((48 <=? c) && (c <=? 57)) || (c =? 95) || (c =? 45).

Definition b64_val (a : ascii) : Z :=
  let c := code a in
  if (65 <=? c) && (c <=? 90) then c - 65
  else if (97 <=? c) && (c <=? 122) then c - 71
  else if (48 <=? c) && (c <=? 57) then c + 4
  else if c =? 45 then 62 else 63.

Definition b64_ok (v : Z) : bool := is_b64_char (b64_char v) && (b64_val (b64_char v) =? v).

Lemma b64_char_ok v : 0 <= v < 64 -> is_b64_char (b64_char v) = true /\ b64_val (b64_char v) = v.
Proof.
  intros Hv. assert (b64_ok v = true) as H.
  { apply (all_from_spec b64_ok 64 0); [by vm_compute|lia]. }
  unfold b64_ok in H. by bool_inv.
Qed.

Lemma b64_char_alphabet v : 0 <= v < 64 -> is_b64_char (b64_char v) = true.
Proof. intros Hv. by destruct (b64_char_ok v Hv). Qed.

Lemma b64_val_char v : 0 <= v < 64 -> b64_val (b64_char v) = v.
Proof. intros Hv. by destruct (b64_char_ok v Hv). Qed.

Lemma is_byte_0 : is_byte 0.
Proof. unfold is_byte. lia. Qed.

(** Induction on byte strings three at a time. *)
Lemma bytes_ind3 (P : list Z -> Prop) :
  P [] -> (forall a, P [a]) -> (forall a b, P [a; b]) ->
  (forall a b c r, P r -> P (a :: b :: c :: r)) -> forall l, P l.
Proof.
  intros H0 H1 H2 H3 l. enough (P l /\ (forall a, P (a :: l)) /\ forall a b, P (a :: b :: l)) by tauto.
  induction l as [|x l (IH1 & IH2 & IH3)]; auto.
Qed.

Lemma sextets a b c : is_byte a -> is_byte b -> is_byte c ->
  0 <= a / 4 < 64 /\ 0 <= a mod 4 * 16 + b / 16 < 64 /\ 0 <= b mod 16 * 4 + c / 64 < 64 /\ 0 <= c mod 64 < 64.
Proof. unfold is_byte. intros. Z.div_mod_to_equations. lia. Qed.

Lemma b64_chars_alphabet l : Forall is_byte l -> str_forallb is_b64_char (b64_chars l) = true.
Proof.
  induction l as [|a|a b|a b c r IH] using bytes_ind3; intros Hall; [done|..];
    repeat match goal with H : Forall _ (_ :: _) |- _ => inversion_clear H end.
  - destruct (sextets a 0 0) as (? & ? & _); [done|apply is_byte_0..|]. change (0 / 16) with 0 in *. cbn.
    rewrite Z.add_0_r in *. by rewrite !b64_char_alphabet.
  - destruct (sextets a b 0) as (? & ? & ? & _); [done|done|apply is_byte_0|]. change (0 / 64) with 0 in *. cbn.
    rewrite Z.add_0_r in *. by rewrite !b64_char_alphabet.
  - destruct (sextets a b c) as (? & ? & ? & ?); [done..|]. cbn.
    rewrite !b64_char_alphabet by done. by apply IH.
Qed.

(** Length without padding: four characters for three bytes, rounded up. *)
Lemma b64_chars_length l : str_len (b64_chars l) = (4 * Z.of_nat (length l) + 2) / 3.
Proof.
  unfold str_len. induction l as [|a|a b|a b c r IH] using bytes_ind3; [done..|].
  cbn [b64_chars String.length length]. rewrite !Nat2Z.inj_succ, IH.
  replace (4 * Z.succ (Z.succ (Z.succ (Z.of_nat (length r)))) + 2) with (4 * Z.of_nat (length r) + 2 + 4 * 3) by lia.
  rewrite Z.div_add by lia. lia.
Qed.
