(* ===== verification/Policy.v ===== *)
(** [response/policy.py]: the versioned policy catalog and the target protections.

    Every loader takes a raw document value and returns a typed record or the [PolicyError] the
    code raises, in the order of the code's checks.  The frozen dataclasses are records; a
    [frozenset] of host names is a duplicate-free list, used through membership and sorting
    only. *)

From S2P Require Import Prelude PyText PyNum PyNet PyJson Sha256.
From Stdlib Require Import SpecFloat.

Definition mapping : Type := list (string * val).

Definition SUPPORTED_ACTIONS : list string := ["block_ip"; "isolate_host"].
Definition SUPPORTED_SIGNAL_TYPES : list string :=
  ["suricata"; "wazuh"; "authentication"; "threat_intel"; "protected_asset"; "honeypot"].

Definition sha256_hex (v : val) : string := hexdigest (sha256 (utf8 (canonical_json v))).

(** * Primitive checks *)
Definition _require_mapping (v : val) (label : string) : result mapping :=
  match v with
  | VDict d => Ok d
  | _ => Err (PolicyError (label +:+ " must be a mapping"))
  end.

Definition _require_string (v : val) (label : string) : result string :=
  match v with
  | VStr s => if String.eqb (strip s) "" then Err (PolicyError (label +:+ " must be a non-empty string")) else Ok (strip s)
  | _ => Err (PolicyError (label +:+ " must be a non-empty string"))
  end.

Definition _require_positive_int (v : val) (label : string) (minimum : Z) : result Z :=
  match v with
  | VInt z =>
      if z <? minimum then Err (PolicyError (label +:+ " must be an integer >= " +:+ str_of_Z minimum)) else Ok z
  | _ => Err (PolicyError (label +:+ " must be an integer >= " +:+ str_of_Z minimum))
  end.

(** [len(set(values)) != len(values)]. *)
Definition has_duplicates (l : list string) : bool := negb (bool_decide (NoDup l)).

Definition _string_list (v : val) (label : string) : result (list string) :=
  match v with
  | VNone => Ok []
  | VList l =>
      let? values := mapR (fun item => _require_string item (label +:+ " item")) l in
      raise_if (has_duplicates values) (PolicyError (label +:+ " must not contain duplicate values")) ;;?
      Ok values
  | _ => Err (PolicyError (label +:+ " must be a list of strings"))
  end.

(** The keys of [data] outside [allowed], when there are some, refuse the document. *)
Definition reject_unknown (data : mapping) (allowed : list string) (label : string) : result unit :=
  let unknown := keys_minus (keys data) allowed in
  raise_if (negb (Nat.eqb (length unknown) 0))
    (PolicyError (label +:+ " has unsupported fields: " +:+ py_repr_list (sort_by str_leb unknown))).

(** * Signal requirements *)
Record SignalRequirement : Type := {
  kind : string;
  min_severity : option Z;
  min_count : option Z }.

(** An optional integer field: absent (or None) is not checked. *)
Definition optional_int (v : val) (label : string) (minimum : Z) : result (option Z) :=
  match v with
  | VNone => Ok None
  | _ => let? z := _require_positive_int v label minimum in Ok (Some z)
  end.

Definition signal_requirement_from_mapping (value : val) (label : string) : result SignalRequirement :=
  let? data := _require_mapping value label in
  reject_unknown data ["type"; "min_severity"; "min_count"] label ;;?
  let? kind := _require_string (get "type" data) (label +:+ ".type") in
  raise_if (negb (str_in kind SUPPORTED_SIGNAL_TYPES))
    (PolicyError (label +:+ ".type must be an independent signal type")) ;;?
  let? min_severity := optional_int (get "min_severity" data) (label +:+ ".min_severity") 0 in
  let? min_count := optional_int (get "min_count" data) (label +:+ ".min_count") 1 in
  Ok {| kind := kind; min_severity := min_severity; min_count := min_count |}.

(** The field is a number (not a bool) that is not below the bound; no bound, no check. *)
Definition reaches (v : val) (bound : option Z) : bool :=
  match bound with
  | None => true
  | Some z =>
      match v with
      | VNum n => negb (num_ltb n (PInt z))
      | _ => false
      end
  end.

Definition matches (r : SignalRequirement) (signal : mapping) : bool :=
  py_eq (get "type" signal) (VStr (kind r)) &&
  reaches (get "severity" signal) (min_severity r) &&
  reaches (get "count" signal) (min_count r).

(** * Target protections *)
Record ProtectionPolicy : Type := {
  allowlisted_ips : list ip_addr;
  allowlisted_networks : list ip_net;
  protected_ips : list ip_addr;
  protected_networks : list ip_net;
  protected_hosts : list string;
  allowed_isolation_hosts : list string;
  block_private_ip_targets : bool }.

Definition protection_fields : list string :=
  ["allowlisted_ips"; "allowlisted_networks"; "protected_ips"; "protected_networks"; "protected_hosts";
   "allowed_isolation_hosts"; "block_private_ip_targets"].

(** [tuple(parse(item) for item in _string_list(data.get(name), name))] with every [ValueError]
    of the block, those of [_string_list] included, turned into one [PolicyError]. *)
Definition parse_list {A} (parse : string -> option A) (data : mapping) (name message : string) : result (list A) :=
  try_except
    (let? items := _string_list (get name data) name in
     mapR (fun s => match parse s with Some a => Ok a | None => Err (ValueError s) end) items)
    is_value_error
    (fun _ => Err (PolicyError (name +:+ message))).

Definition addresses (data : mapping) (name : string) : result (list ip_addr) :=
  parse_list ip_address data name " contains an invalid IP address".

Definition networks (data : mapping) (name : string) : result (list ip_net) :=
  parse_list ip_network data name " contains an invalid CIDR".

(** [frozenset(host.lower() for host in ...)]. *)
Definition host_set (hosts : list string) : list string := remove_dups (map py_lower hosts).

Definition protection_policy_from_mapping (value : val) : result ProtectionPolicy :=
  let? data := _require_mapping value "defaults.protections" in
  reject_unknown data protection_fields "defaults.protections" ;;?
  let? private :=
    match default (VBool false) (assoc "block_private_ip_targets" data) with
    | VBool b => Ok b
    | _ => Err (PolicyError "block_private_ip_targets must be boolean")
    end in
  let? allowlisted_ips := addresses data "allowlisted_ips" in
  let? allowlisted_networks := networks data "allowlisted_networks" in
  let? protected_ips := addresses data "protected_ips" in
  let? protected_networks := networks data "protected_networks" in
  let? protected_hosts := _string_list (get "protected_hosts" data) "protected_hosts" in
  let? allowed_hosts := _string_list (get "allowed_isolation_hosts" data) "allowed_isolation_hosts" in
  Ok {| allowlisted_ips := allowlisted_ips; allowlisted_networks := allowlisted_networks;
        protected_ips := protected_ips; protected_networks := protected_networks;
        protected_hosts := host_set protected_hosts; allowed_isolation_hosts := host_set allowed_hosts;
        block_private_ip_targets := private |}.

(** The address part of [assert_target_allowed]. *)
Definition assert_address_allowed (p : ProtectionPolicy) (address : ip_addr) : result unit :=
  raise_if (is_unspecified address || is_loopback address || is_link_local address || is_multicast address)
    (PolicyError "automatic containment cannot target special-use IP addresses") ;;?
  raise_if (is_reserved address) (PolicyError "automatic containment cannot target reserved IP addresses") ;;?
  raise_if (block_private_ip_targets p && is_private address)
    (PolicyError "automatic containment of private IP addresses is disabled") ;;?
  raise_if (bool_decide (address ∈ allowlisted_ips p) || in_any address (allowlisted_networks p))
    (PolicyError "target is explicitly allowlisted") ;;?
  raise_if (bool_decide (address ∈ protected_ips p))
    (PolicyError "target is protected DNS, NTP, RADIUS, SOC, or management infrastructure") ;;?
  raise_if (in_any address (protected_networks p))
    (PolicyError "target is in a protected management or SOC network").

(** The host part of [assert_target_allowed]. *)
Definition assert_host_allowed (p : ProtectionPolicy) (target_value : string) : result unit :=
  let? name := _require_string (VStr target_value) "host target" in
  let host := py_lower name in
  raise_if (str_in host (protected_hosts p)) (PolicyError "target is a protected management or SOC host") ;;?
  raise_if (negb (str_in host (allowed_isolation_hosts p)))
    (PolicyError "host is not explicitly eligible for controlled isolation").

Definition assert_target_allowed (p : ProtectionPolicy) (action target_type target_value : string) : result unit :=
  if String.eqb action "block_ip" then
    raise_if (negb (String.eqb target_type "ip")) (PolicyError "block_ip requires an IP target") ;;?
    match ip_address target_value with
    | None => Err (PolicyError "block_ip target is not a valid IP address")
    | Some address => assert_address_allowed p address
    end
  else if String.eqb action "isolate_host" then
    raise_if (negb (String.eqb target_type "host")) (PolicyError "isolate_host requires a host target") ;;?
    assert_host_allowed p target_value
  else Err (PolicyError ("unsupported response action: " +:+ action)).

(** * Rate limit *)
Record RateLimit : Type := { max_actions : Z; window_seconds : Z }.

Definition rate_limit_from_mapping (value : val) : result RateLimit :=
  let? data := _require_mapping value "defaults.rate_limit" in
  raise_if (negb (same_keys (keys data) ["max_actions"; "window_seconds"]))
    (PolicyError "defaults.rate_limit must contain only max_actions and window_seconds") ;;?
  let? n := _require_positive_int (get "max_actions" data) "defaults.rate_limit.max_actions" 1 in
  let? w := _require_positive_int (get "window_seconds" data) "defaults.rate_limit.window_seconds" 1 in
  Ok {| max_actions := n; window_seconds := w |}.

(** * Response policies *)
Record ResponsePolicy : Type := {
  policy_id : string;
  policy_version : string;
  policy_action : string;
  ttl_seconds : Z;
  min_ai_score : spec_float;
  require_any : list SignalRequirement;
  policy_sha256 : string }.

(** The float literal 0.9. *)
Definition float_0_9 : spec_float := S754_finite false 8106479329266893 (-53).

Definition requirement_val (r : SignalRequirement) : val :=
  VDict ([("type", VStr (kind r))]
    ++ match min_severity r with Some z => [("min_severity", VInt z)] | None => [] end
    ++ match min_count r with Some z => [("min_count", VInt z)] | None => [] end).

(** The [normalized] document the rule's hash is taken of. *)
Definition normalized_rule (identifier version action : string) (ttl : Z) (score : spec_float)
    (requirements : list SignalRequirement) : val :=
  VDict [("id", VStr identifier); ("version", VStr version); ("enabled", VBool true);
    ("action", VStr action); ("ttl_seconds", VInt ttl);
    ("when", VDict [("ai_score_gte", VFloat score); ("require_any", VList (map requirement_val requirements))])].

Definition score_threshold (v : val) (label : string) : result spec_float :=
  let bad := PolicyError (label +:+ ".when.ai_score_gte must be between 0.90 and 1; " +:+
    "automatic response may not be authorized below the global hybrid threshold") in
  match v with
  | VNum n =>
      let? f := py_float n in
      if num_leb (PFloat float_0_9) (PFloat f) && num_leb (PFloat f) (PInt 1) then Ok f else Err bad
  | _ => Err bad
  end.

Definition non_empty_list (v : val) (message : string) : result (list val) :=
  match v with
  | VList (x :: r) => Ok (x :: r)
  | _ => Err (PolicyError message)
  end.

Definition response_policy_from_mapping (value : val) (index : Z) : result ResponsePolicy :=
  let label := "policies[" +:+ str_of_Z index +:+ "]" in
  let? data := _require_mapping value label in
  reject_unknown data ["id"; "version"; "enabled"; "action"; "ttl_seconds"; "when"] label ;;?
  raise_if (match get "enabled" data with VBool true => false | _ => true end)
    (PolicyError (label +:+ " must set enabled: true")) ;;?
  let? identifier := _require_string (get "id" data) (label +:+ ".id") in
  let? version := _require_string (get "version" data) (label +:+ ".version") in
  let? action := _require_string (get "action" data) (label +:+ ".action") in
  raise_if (negb (str_in action SUPPORTED_ACTIONS)) (PolicyError (label +:+ ".action is unsupported")) ;;?
  let? ttl := _require_positive_int (get "ttl_seconds" data) (label +:+ ".ttl_seconds") 60 in
  raise_if (86400 <? ttl) (PolicyError (label +:+ ".ttl_seconds exceeds one day")) ;;?
  let? when := _require_mapping (get "when" data) (label +:+ ".when") in
  raise_if (negb (same_keys (keys when) ["ai_score_gte"; "require_any"]))
    (PolicyError (label +:+ ".when must contain ai_score_gte and require_any")) ;;?
  let? score := score_threshold (get "ai_score_gte" when) label in
  let? raw := non_empty_list (get "require_any" when)
    (label +:+ ".when.require_any must contain an independent signal") in
  let? requirements := mapiR (fun i item =>
    signal_requirement_from_mapping item (label +:+ ".when.require_any[" +:+ str_of_Z i +:+ "]")) 0 raw in
  Ok {| policy_id := identifier; policy_version := version; policy_action := action; ttl_seconds := ttl;
        min_ai_score := score; require_any := requirements;
        policy_sha256 := sha256_hex (normalized_rule identifier version action ttl score requirements) |}.

(** * The catalog *)
Record PolicyCatalog : Type := {
  schema_version : string;
  protections : ProtectionPolicy;
  rate_limit : RateLimit;
  dedup_seconds : Z;
  command_valid_for_seconds : Z;
  evidence_max_age_seconds : Z;
  policies : list (string * ResponsePolicy);
  source_sha256 : string }.

Definition sorted_texts (l : list string) : val := VList (map VStr (sort_by str_leb l)).

(** The safeguards every policy hash binds. *)
Definition safeguard_material (p : ProtectionPolicy) (r : RateLimit) (dedup valid max_age : Z) : val :=
  VDict [
    ("protections", VDict [
      ("allowlisted_ips", sorted_texts (map ip_text (allowlisted_ips p)));
      ("allowlisted_networks", sorted_texts (map net_text (allowlisted_networks p)));
      ("protected_ips", sorted_texts (map ip_text (protected_ips p)));
      ("protected_networks", sorted_texts (map net_text (protected_networks p)));
      ("protected_hosts", sorted_texts (protected_hosts p));
      ("allowed_isolation_hosts", sorted_texts (allowed_isolation_hosts p))]);
    ("block_private_ip_targets", VBool (block_private_ip_targets p));
    ("rate_limit", VDict [("max_actions", VInt (max_actions r)); ("window_seconds", VInt (window_seconds r))]);
    ("dedup_seconds", VInt dedup);
    ("command_valid_for_seconds", VInt valid);
    ("evidence_max_age_seconds", VInt max_age)].

(** [replace(rule, sha256=...)]. *)
Definition bind_safeguards (material : val) (rule : ResponsePolicy) : ResponsePolicy :=
  {| policy_id := policy_id rule; policy_version := policy_version rule; policy_action := policy_action rule;
     ttl_seconds := ttl_seconds rule; min_ai_score := min_ai_score rule; require_any := require_any rule;
     policy_sha256 := sha256_hex (VDict [("rule_sha256", VStr (policy_sha256 rule)); ("safeguards", material)]) |}.

Definition catalog_from_mapping (value : val) (source_sha256 : string) : result PolicyCatalog :=
  let? data := _require_mapping value "policy document" in
  raise_if (negb (same_keys (keys data) ["schema_version"; "defaults"; "policies"]))
    (PolicyError "policy document must contain only schema_version, defaults, and policies") ;;?
  raise_if (negb (py_eq (get "schema_version" data) (VStr "response-policy-set-v1")))
    (PolicyError "unsupported response policy schema version") ;;?
  let? defaults := _require_mapping (get "defaults" data) "defaults" in
  raise_if (negb (same_keys (keys defaults) ["protections"; "rate_limit"; "dedup_seconds";
      "command_valid_for_seconds"; "evidence_max_age_seconds"]))
    (PolicyError "defaults has unsupported or missing fields") ;;?
  let? dedup := _require_positive_int (get "dedup_seconds" defaults) "defaults.dedup_seconds" 60 in
  let? valid := _require_positive_int (get "command_valid_for_seconds" defaults)
    "defaults.command_valid_for_seconds" 30 in
  raise_if (900 <? valid) (PolicyError "defaults.command_valid_for_seconds must be <= 900") ;;?
  let? max_age := _require_positive_int (get "evidence_max_age_seconds" defaults)
    "defaults.evidence_max_age_seconds" 30 in
  raise_if (86400 <? max_age) (PolicyError "defaults.evidence_max_age_seconds must be <= 86400") ;;?
  let? protections := protection_policy_from_mapping (get "protections" defaults) in
  let? rate := rate_limit_from_mapping (get "rate_limit" defaults) in
  let? raw := non_empty_list (get "policies" data) "policies must be a non-empty list" in
  let? rules := mapiR (fun i item => response_policy_from_mapping item i) 0 raw in
  let bound := map (bind_safeguards (safeguard_material protections rate dedup valid max_age)) rules in
  raise_if (has_duplicates (map policy_id bound)) (PolicyError "policy identifiers must be unique") ;;?
  Ok {| schema_version := "response-policy-set-v1"; protections := protections; rate_limit := rate;
        dedup_seconds := dedup; command_valid_for_seconds := valid; evidence_max_age_seconds := max_age;
        policies := map (fun p => (policy_id p, p)) bound; source_sha256 := source_sha256 |}.

(** [PolicyCatalog.from_path]; the YAML parser is not code of the repository. *)
Definition catalog_from_path (safe_load : list Z -> option val) (path : string) (source : list Z) : result PolicyCatalog :=
  match safe_load source with
  | None => Err (PolicyError ("policy YAML cannot be parsed: " +:+ path))
  | Some document => catalog_from_mapping document (hexdigest (sha256 source))
  end.

Definition policy (c : PolicyCatalog) (id : string) : result ResponsePolicy :=
  match assoc id (policies c) with
  | Some p => Ok p
  | None => Err (PolicyError ("unknown response policy: " +:+ id))
  end.

(** * Well-formedness of loaded documents *)
Definition requirement_ok (r : SignalRequirement) : Prop :=
  kind r ∈ SUPPORTED_SIGNAL_TYPES /\
  (forall z, min_severity r = Some z -> 0 <= z) /\ (forall z, min_count r = Some z -> 1 <= z).

Definition rule_ok (p : ResponsePolicy) : Prop :=
  policy_id p <> "" /\ policy_version p <> "" /\ policy_action p ∈ SUPPORTED_ACTIONS /\
  60 <= ttl_seconds p <= 86400 /\
  num_leb (PFloat float_0_9) (PFloat (min_ai_score p)) = true /\
  num_leb (PFloat (min_ai_score p)) (PInt 1) = true /\
  require_any p <> [] /\ Forall requirement_ok (require_any p).

Definition protections_ok (p : ProtectionPolicy) : Prop :=
  Forall ip_wf (allowlisted_ips p) /\ Forall ip_wf (protected_ips p) /\
  NoDup (protected_hosts p) /\ NoDup (allowed_isolation_hosts p) /\
  (forall h, h ∈ protected_hosts p \/ h ∈ allowed_isolation_hosts p ->
    h <> "" /\ strip h = h /\ py_lower h = h).

Definition catalog_ok (c : PolicyCatalog) : Prop :=
  60 <= dedup_seconds c /\ 30 <= command_valid_for_seconds c <= 900 /\
  30 <= evidence_max_age_seconds c <= 86400 /\
  1 <= max_actions (rate_limit c) /\ 1 <= window_seconds (rate_limit c) /\
  protections_ok (protections c) /\
  policies c <> [] /\ NoDup (policies c).*1 /\
  Forall (fun ip => ip.1 = policy_id ip.2 /\ rule_ok ip.2) (policies c).

Lemma require_string_Ok v label s : _require_string v label = Ok s -> s <> "" /\ strip s = s.
Proof.
  destruct v; simpl; try discriminate. destruct (String.eqb_spec (strip s0) ""); [discriminate|].
  intros [= <-]. split; [done|apply strip_idem].
Qed.

Lemma require_positive_int_Ok v label m z : _require_positive_int v label m = Ok z -> m <= z.
Proof. unfold _require_positive_int. intros H. ok_inv. subst. by bool_inv. Qed.

Lemma string_list_Ok v label l :
  _string_list v label = Ok l -> NoDup l /\ Forall (fun s => s <> "" /\ strip s = s) l.
Proof.
  unfold _string_list. intros H. destruct v; ok_inv; subst; [split; constructor|].
  unfold has_duplicates in *. bool_inv. split; [done|].
  eapply mapR_Forall; [done|]. intros x y. apply require_string_Ok.
Qed.

Lemma py_lower_empty s : py_lower s = "" -> s = "".
Proof. by destruct s. Qed.

Lemma host_set_ok l : Forall (fun s => s <> "" /\ strip s = s) l ->
  NoDup (host_set l) /\ (forall h, h ∈ host_set l -> h <> "" /\ strip h = h /\ py_lower h = h).
Proof.
  intros Hl. split; [apply NoDup_remove_dups|]. intros h Hh.
  unfold host_set in Hh. apply elem_of_remove_dups, list_elem_of_fmap in Hh as (s & -> & Hs).
  rewrite Forall_forall in Hl. destruct (Hl s Hs) as [Hne Hst]. split; [|split].
  - intros E. by apply py_lower_empty in E.
  - by rewrite strip_lower, Hst.
  - apply py_lower_idem.
Qed.

Lemma parse_list_Ok {A} (parse : string -> option A) data name msg l :
  parse_list parse data name msg = Ok l -> Forall (fun a => exists s, parse s = Some a) l.
Proof.
  unfold parse_list. intros H. apply try_except_Ok in H as [H|(e & _ & _ & ?)]; [|discriminate].
  apply rbind_Ok in H as (items & _ & H). eapply mapR_Forall; [exact H|]. simpl.
  intros s a Hs. exists s. destruct (parse s); by simplify_eq.
Qed.

Lemma addresses_Ok data name l : addresses data name = Ok l -> Forall ip_wf l.
Proof.
  intros H. apply parse_list_Ok in H. eapply Forall_impl; [done|].
  simpl. intros a (s & Hs). by eapply ip_address_wf.
Qed.

Lemma protections_wf v p : protection_policy_from_mapping v = Ok p -> protections_ok p.
Proof.
  unfold protection_policy_from_mapping. intros H.
  apply rbind_Ok in H as (data & _ & H). apply rbind_Ok in H as (_ & _ & H).
  apply rbind_Ok in H as (private & _ & H).
  apply rbind_Ok in H as (ai & Hai & H). apply rbind_Ok in H as (an & _ & H).
  apply rbind_Ok in H as (pi & Hpi & H). apply rbind_Ok in H as (pn & _ & H).
  apply rbind_Ok in H as (ph & Hph & H). apply rbind_Ok in H as (ah & Hah & H).
  injection H as <-. apply string_list_Ok in Hph as [_ Hph], Hah as [_ Hah].
  destruct (host_set_ok _ Hph), (host_set_ok _ Hah).
  split; [by eapply addresses_Ok|]. split; [by eapply addresses_Ok|].
  split; [done|]. split; [done|]. intros h [?|?]; auto.
Qed.

Lemma optional_int_Ok v label m z : optional_int v label m = Ok (Some z) -> m <= z.
Proof.
  unfold optional_int. intros H. destruct v; [discriminate|..].
  all: apply rbind_Ok in H as (z' & Hz & [= ->]); by eapply require_positive_int_Ok.
Qed.

Lemma requirement_wf v label r : signal_requirement_from_mapping v label = Ok r -> requirement_ok r.
Proof.
  unfold signal_requirement_from_mapping. intros H. ok_inv. subst. unfold requirement_ok. simpl.
  bool_inv. split; [by apply str_in_elem|].
  split; intros z ->; by eapply optional_int_Ok.
Qed.

Lemma score_threshold_Ok v label f : score_threshold v label = Ok f ->
  num_leb (PFloat float_0_9) (PFloat f) = true /\ num_leb (PFloat f) (PInt 1) = true.
Proof. unfold score_threshold. intros H. ok_inv. subst. by bool_inv. Qed.

Lemma non_empty_list_Ok v msg l : non_empty_list v msg = Ok l -> l <> [].
Proof. unfold non_empty_list. intros H. ok_inv. by subst. Qed.

Lemma rule_wf v i p : response_policy_from_mapping v i = Ok p -> rule_ok p.
Proof.
  unfold response_policy_from_mapping. intros H. ok_inv. subst. unfold rule_ok. simpl. bool_inv.
  repeat match goal with
  | H : _require_string _ _ = Ok _ |- _ => apply require_string_Ok in H as [? ?]
  | H : _require_positive_int _ _ _ = Ok _ |- _ => apply require_positive_int_Ok in H
  | H : score_threshold _ _ = Ok _ |- _ => apply score_threshold_Ok in H as [? ?]
  | H : non_empty_list _ _ = Ok _ |- _ => apply non_empty_list_Ok in H
  | H : str_in _ _ = true |- _ => apply str_in_elem in H
  | H : mapiR _ _ _ = Ok _ |- _ => apply (mapiR_Forall _ requirement_ok) in H as [? Hlen];
      [|intros; by eapply requirement_wf]
  end.
  repeat (split; [by eauto|]). split; [|done].
  intros ->. symmetry in Hlen. by apply nil_length_inv in Hlen.
Qed.

Lemma rate_limit_wf v r : rate_limit_from_mapping v = Ok r -> 1 <= max_actions r /\ 1 <= window_seconds r.
Proof.
  unfold rate_limit_from_mapping. intros H. ok_inv. subst; simpl.
  split; by eapply require_positive_int_Ok.
Qed.

(** A loaded catalog is well formed. *)
Lemma catalog_wf v src c : catalog_from_mapping v src = Ok c -> catalog_ok c.
Proof.
  unfold catalog_from_mapping. intros H. ok_inv. subst. unfold catalog_ok; simpl.
  unfold has_duplicates in *. bool_inv.
  repeat match goal with
  | H : _require_positive_int _ _ _ = Ok _ |- _ => apply require_positive_int_Ok in H
  | H : non_empty_list _ _ = Ok _ |- _ => apply non_empty_list_Ok in H
  | H : mapiR _ _ _ = Ok _ |- _ => apply (mapiR_Forall _ rule_ok) in H as [Hrules Hlen];
      [|intros; by eapply rule_wf]
  | H : protection_policy_from_mapping _ = Ok _ |- _ => apply protections_wf in H
  end.
  repeat (split; [by eauto with lia|]). repeat (split; [by eapply rate_limit_wf|]). split; [done|].
  split; [|split].
  - intros E. apply map_eq_nil, map_eq_nil in E. subst. symmetry in Hlen. by apply nil_length_inv in Hlen.
  - rewrite <- list_fmap_compose. done.
  - apply Forall_map, Forall_map. eapply Forall_impl; [done|]. intros r Hr. done.
Qed.

(** * What [assert_target_allowed] permits *)
Definition address_permitted (p : ProtectionPolicy) (a : ip_addr) : Prop :=
  is_unspecified a = false /\ is_loopback a = false /\ is_link_local a = false /\ is_multicast a = false /\
  is_reserved a = false /\ (block_private_ip_targets p = true -> is_private a = false) /\
  a ∉ allowlisted_ips p /\ (forall n, n ∈ allowlisted_networks p -> in_network a n = false) /\
  a ∉ protected_ips p /\ (forall n, n ∈ protected_networks p -> in_network a n = false).

Inductive target_permitted (p : ProtectionPolicy) : string -> string -> string -> Prop :=
| permitted_ip v a :
    ip_address v = Some a -> address_permitted p a -> target_permitted p "block_ip" "ip" v
| permitted_host v :
    strip v <> "" -> py_lower (strip v) ∉ protected_hosts p ->
    py_lower (strip v) ∈ allowed_isolation_hosts p -> target_permitted p "isolate_host" "host" v.

Lemma in_any_false a l : in_any a l = false <-> forall n, n ∈ l -> in_network a n = false.
Proof.
  unfold in_any. rewrite <- not_true_iff_false, existsb_exists. setoid_rewrite <- not_true_iff_false.
  setoid_rewrite list_elem_of_In. naive_solver.
Qed.

Lemma address_allowed_iff p a : assert_address_allowed p a = Ok tt <-> address_permitted p a.
Proof.
  unfold assert_address_allowed, address_permitted. rewrite <- !in_any_false.
  rewrite !raise_seq_Ok, raise_if_Ok, !orb_false_iff, !bool_decide_eq_false, andb_false_iff.
  destruct (block_private_ip_targets p); naive_solver.
Qed.

Lemma host_allowed_iff p v :
  assert_host_allowed p v = Ok tt <->
  strip v <> "" /\ py_lower (strip v) ∉ protected_hosts p /\ py_lower (strip v) ∈ allowed_isolation_hosts p.
Proof.
  unfold assert_host_allowed, _require_string. destruct (String.eqb_spec (strip v) "") as [->|Hne]; simpl.
  { split; [discriminate|by intros [? _]]. }
  rewrite raise_seq_Ok, raise_if_Ok, negb_false_iff, <- not_true_iff_false, !str_in_elem. naive_solver.
Qed.

Lemma target_allowed_iff p action ty v :
  assert_target_allowed p action ty v = Ok tt <-> target_permitted p action ty v.
Proof.
  unfold assert_target_allowed. split.
  - destruct (String.eqb_spec action "block_ip") as [->|Hb].
    { rewrite raise_seq_Ok. intros [Ht H]. bool_inv. subst ty.
      destruct (ip_address v) as [a|] eqn:E; [|discriminate].
      eapply permitted_ip; [done|by apply address_allowed_iff]. }
    destruct (String.eqb_spec action "isolate_host") as [->|Hi]; [|discriminate].
    rewrite raise_seq_Ok, host_allowed_iff. intros (Ht & ? & ? & ?). bool_inv. subst ty. by constructor.
  - intros [w a Hw Ha|w H1 H2 H3]; simpl.
    + rewrite Hw. by apply address_allowed_iff.
    + by apply host_allowed_iff.
Qed.

(** [assert_target_allowed] raises nothing but [PolicyError]. *)
Lemma raise_seq_error c e (m : result unit) e' :
  (raise_if c e ;;? m) = Err e' -> e' = e \/ m = Err e'.
Proof. destruct c; simpl; [intros [= <-]; by left|by right]. Qed.

Definition is_policy_error (e : exn) : Prop := exists m, e = PolicyError m.

Lemma target_error_kind p action ty v e : assert_target_allowed p action ty v = Err e -> is_policy_error e.
Proof.
  unfold assert_target_allowed, assert_address_allowed, assert_host_allowed, _require_string.
  intros H. repeat match goal with
  | H : Err _ = Err _ |- _ => injection H as <-; by eexists
  | H : Ok _ = Err _ |- _ => discriminate H
  | H : raise_if _ _ = Err _ |- _ => apply raise_if_Err in H as [_ <-]; by eexists
  | H : rbind (raise_if _ _) _ = Err _ |- _ => apply raise_seq_error in H as [->|H]; [by eexists|]
  | H : (if ?b then _ else _) = Err _ |- _ => destruct b
  | H : match ?x with _ => _ end = Err _ |- _ => destruct x
  | H : rbind (if ?b then _ else _) _ = Err _ |- _ => destruct b; simpl in H
  end.
Qed.

Lemma policy_Ok c id p : catalog_ok c -> policy c id = Ok p -> policy_id p = id /\ rule_ok p /\ (id, p) ∈ policies c.
Proof.
  intros (_ & _ & _ & _ & _ & _ & _ & _ & Hall). unfold policy. intros H.
  destruct (assoc id (policies c)) as [q|] eqn:E; [|discriminate]. injection H as ->.
  apply assoc_elem in E. rewrite Forall_forall in Hall. destruct (Hall _ E) as [H1 H2]. by simpl in *.
Qed.
