(* ===== verification/Decision.v ===== *)
(** [response/decision.py]: the correlation-gated decision engine.

    Evidence is validated from raw values into typed records, in the order of the code's
    checks; [evaluate] is the whole method, from the policy lookup to the signed command.  The
    authenticator is an interface (the code's [CommandAuthenticator] protocol): a type class
    with the two operations, implemented in [Signing.v]. *)

From S2P Require Import Prelude PyText PyNum PyTime PyNet PyJson Sha256 Policy.

From Stdlib Require Import SpecFloat.

(** A [datetime] argument: naive, or aware and already in UTC. *)
Inductive pydatetime : Type :=
| Naive
| Aware (t : Z).

(** * Helpers *)

(** [value or _utc_now()], then the conversion to UTC. *)
Definition _as_utc (utc_now : Z) (value : option pydatetime) : result Z :=
  match default (Aware utc_now) value with
  | Naive => Err (CorrelationRejected "timestamps must include a timezone")
  | Aware t => Ok t
  end.

Definition _rfc3339 (t : Z) : string := isoformat_ms t.

(** [datetime + timedelta]. *)
Definition shift (t d : Z) : result Z :=
  if in_range (t + d) then Ok (t + d) else Err (OverflowError "date value out of range").

Definition _finite_number (v : val) (label : string) : result pynum :=
  let bad := CorrelationRejected (label +:+ " must be a finite number") in
  match v with
  | VNum n =>
      match py_isfinite n with
      | Ok true => Ok n
      | Ok false => Err bad
      | Err (OverflowError _) => Err bad
      | Err e => Err e
      end
  | _ => Err bad
  end.

Definition _identifier (prefix : string) (material : val) : string :=
  prefix +:+ "-" +:+ str_take 24 (sha256_hex material).

(** Every command field except the signature value itself, as the bytes that are signed. *)
Definition _signature_payload (command : mapping) : result (list Z) :=
  match get "authorization" command with
  | VDict authorization =>
      let unsigned := VDict (assoc_del "signature" authorization) in
      Ok (utf8 (canonical_json (VDict (assoc_set "authorization" unsigned command))))
  | _ => Err (CorrelationRejected "response command is missing authorization")
  end.

Definition _parse_rfc3339 (v : val) (label : string) : result Z :=
  match v with
  | VStr s =>
      if String.eqb s "" then Err (CorrelationRejected (label +:+ " must be an RFC3339 timestamp"))
      else match fromisoformat_z s with
           | None => Err (CorrelationRejected (label +:+ " is not a valid timestamp"))
           | Some (_, None) => Err (CorrelationRejected (label +:+ " must include a timezone"))
           | Some (local, Some offset) => shift local (- offset)
           end
  | _ => Err (CorrelationRejected (label +:+ " must be an RFC3339 timestamp"))
  end.

(** * The authenticator interface *)
Class CommandAuthenticator (A : Type) : Type := {
  sign : A -> mapping -> result string;
  verify : A -> Z -> mapping -> option pydatetime -> result unit;
  signing_key_id : A -> string }.

(** The authorization's issue and expiry instants. *)
Definition authorization_window (authorization : mapping) : result (Z * Z) :=
  let? issued_at := _parse_rfc3339 (get "issued_at" authorization) "authorization.issued_at" in
  let? expires_at := _parse_rfc3339 (get "expires_at" authorization) "authorization.expires_at" in
  Ok (issued_at, expires_at).

(** [authorization | {"signature": ...}] of a command that has an authorization. *)
Definition attach_signature (command authorization : mapping) (signature : string) : mapping :=
  assoc_set "authorization" (VDict (authorization ++ [("signature", VStr signature)])) command.

(** What an authenticator promises its clients: a command with an authorization is always
    signed, and the signature it gives is accepted until the authorization expires. *)
Class AuthenticatorLaws {A : Type} `{!CommandAuthenticator A} (usable : A -> Prop) : Prop := {
  sign_total a command authorization :
    usable a -> get "authorization" command = VDict authorization -> exists s, sign a command = Ok s;
  sign_verify a command authorization s issued expires utc_now t :
    usable a ->
    get "authorization" command = VDict authorization ->
    assoc "signature" authorization = None ->
    assoc "key_id" authorization = Some (VStr (signing_key_id a)) ->
    sign a command = Ok s ->
    authorization_window authorization = Ok (issued, expires) ->
    issued < expires -> t < expires ->
    verify a utc_now (attach_signature command authorization s) (Some (Aware t)) = Ok tt }.

(** * Validated evidence *)
Record target : Type := { target_type : string; target_value : string }.

#[global] Instance target_eq_dec : EqDecision target.
Proof. solve_decision. Defined.

Record anomaly : Type := {
  event_id : string;
  model_id : string;
  score : spec_float;
  threshold : spec_float;
  is_anomaly : bool;
  anomaly_observed_at : string;
  anomaly_target : target }.

Record signal : Type := {
  signal_type : string;
  reference : string;
  signal_observed_at : string;
  signal_target : target;
  severity : option Z;
  count : option Z;
  confidence : option spec_float }.

Definition target_val (t : target) : val := VDict [("type", VStr (target_type t)); ("value", VStr (target_value t))].

Definition optional_field {A} (name : string) (f : A -> val) (o : option A) : mapping :=
  match o with
  | Some a => [(name, f a)]
  | None => []
  end.

(** The normalized signal as the dict the code builds. *)
Definition signal_mapping (s : signal) : mapping :=
  [("type", VStr (signal_type s)); ("reference", VStr (reference s));
   ("observed_at", VStr (signal_observed_at s)); ("target", target_val (signal_target s))]
  ++ optional_field "severity" (fun z => VInt z) (severity s)
  ++ optional_field "count" (fun z => VInt z) (count s)
  ++ optional_field "confidence" (fun f => VFloat f) (confidence s).

Definition _validate_target (value : val) : result target :=
  match value with
  | VDict d =>
      raise_if (negb (same_keys (keys d) ["type"; "value"]))
        (CorrelationRejected "target must contain only type and value") ;;?
      let bad := CorrelationRejected "target must contain a supported type and non-empty value" in
      match get "type" d, get "value" d with
      | VStr ty, VStr v =>
          raise_if (negb (str_in ty ["ip"; "host"]) || String.eqb (strip v) "" || (255 <? str_len (strip v))) bad ;;?
          if String.eqb ty "ip" then
            match ip_address (strip v) with
            | Some a => Ok {| target_type := ty; target_value := ip_text a |}
            | None => Err (CorrelationRejected "IP target must be a valid IPv4 or IPv6 address")
            end
          else Ok {| target_type := ty; target_value := py_lower (strip v) |}
      | _, _ => Err bad
      end
  | _ => Err (CorrelationRejected "target must be an object")
  end.

Definition required_text (v : val) (message : string) : result string :=
  match v with
  | VStr s => if String.eqb s "" then Err (CorrelationRejected message) else Ok s
  | _ => Err (CorrelationRejected message)
  end.

(** A finite number between 0 and 1. *)
Definition unit_number (v : val) (label : string) : result pynum :=
  let? n := _finite_number v label in
  raise_if (negb (num_leb (PInt 0) n && num_leb n (PInt 1)))
    (CorrelationRejected (label +:+ " must be between 0 and 1")) ;;?
  Ok n.

Definition _validate_anomaly (value : val) : result anomaly :=
  match value with
  | VDict d =>
      let? event_id := required_text (get "event_id" d) "anomaly.event_id is required" in
      let? model_id := required_text (get "model_id" d) "anomaly.model_id is required" in
      let? score := unit_number (get "score" d) "anomaly.score" in
      let? threshold := unit_number (get "threshold" d) "anomaly.threshold" in
      match get "is_anomaly" d with
      | VBool is_anomaly =>
          raise_if (negb (Bool.eqb is_anomaly (num_leb threshold score)))
            (CorrelationRejected "anomaly flag disagrees with score and model threshold") ;;?
          let? observed := _parse_rfc3339 (get "observed_at" d) "anomaly.observed_at" in
          let? score := py_float score in
          let? threshold := py_float threshold in
          let? target := _validate_target (get "target" d) in
          Ok {| event_id := event_id; model_id := model_id; score := score; threshold := threshold;
                is_anomaly := is_anomaly; anomaly_observed_at := _rfc3339 observed; anomaly_target := target |}
      | _ => Err (CorrelationRejected "anomaly.is_anomaly must be boolean")
      end
  | _ => Err (CorrelationRejected "anomaly must be an object")
  end.

(** A non-negative number of an optional signal field. *)
Definition signal_number (d : mapping) (field label : string) : result (option pynum) :=
  match assoc field d with
  | None => Ok None
  | Some v =>
      let? n := _finite_number v (label +:+ "." +:+ field) in
      raise_if (num_ltb n (PInt 0)) (CorrelationRejected (label +:+ "." +:+ field +:+ " cannot be negative")) ;;?
      Ok (Some n)
  end.

Definition signal_integer (d : mapping) (field label : string) : result (option Z) :=
  let? n := signal_number d field label in
  match n with
  | None => Ok None
  | Some n =>
      let? z := py_int n in
      raise_if (negb (num_eqb n (PInt z))) (CorrelationRejected (label +:+ "." +:+ field +:+ " must be an integer")) ;;?
      Ok (Some z)
  end.

Definition signal_confidence (d : mapping) (label : string) : result (option spec_float) :=
  let? n := signal_number d "confidence" label in
  match n with
  | None => Ok None
  | Some n =>
      raise_if (num_ltb (PInt 1) n) (CorrelationRejected (label +:+ ".confidence cannot exceed 1")) ;;?
      let? f := py_float n in
      Ok (Some f)
  end.

Definition signal_fields : list string :=
  ["type"; "reference"; "severity"; "count"; "observed_at"; "confidence"; "target"].

(** One round of the loop of [_validate_independent_signals]. *)
Definition validate_signal (index : Z) (seen : list string) (value : val) : result signal :=
  let label := "independent_signals[" +:+ str_of_Z index +:+ "]" in
  match value with
  | VDict d =>
      let unknown := keys_minus (keys d) signal_fields in
      raise_if (negb (Nat.eqb (length unknown) 0))
        (CorrelationRejected (label +:+ " has unsupported fields: " +:+ py_repr_list (sort_by str_leb unknown))) ;;?
      raise_if (py_eq (get "type" d) (VStr "ai")) (CorrelationRejected "AI output cannot corroborate itself") ;;?
      let? ty := match get "type" d with
                 | VStr s => if str_in s SUPPORTED_SIGNAL_TYPES then Ok s
                             else Err (CorrelationRejected (label +:+ " has an unsupported type"))
                 | _ => Err (CorrelationRejected (label +:+ " has an unsupported type"))
                 end in
      let? ref := match get "reference" d with
                  | VStr s => if String.eqb (strip s) "" then Err (CorrelationRejected (label +:+ ".reference is required"))
                              else Ok (strip s)
                  | _ => Err (CorrelationRejected (label +:+ ".reference is required"))
                  end in
      let? observed := _parse_rfc3339 (get "observed_at" d) (label +:+ ".observed_at") in
      raise_if (str_in ref seen) (CorrelationRejected "duplicate corroborating signal") ;;?
      let? target := _validate_target (get "target" d) in
      let? severity := signal_integer d "severity" label in
      let? count := signal_integer d "count" label in
      let? confidence := signal_confidence d label in
      Ok {| signal_type := ty; reference := ref; signal_observed_at := _rfc3339 observed; signal_target := target;
            severity := severity; count := count; confidence := confidence |}
  | _ => Err (CorrelationRejected (label +:+ " must be an object"))
  end.

Fixpoint validate_signals (index : Z) (seen : list string) (values : list val) : result (list signal) :=
  match values with
  | [] => Ok []
  | v :: r =>
      let? s := validate_signal index seen v in
      let? rest := validate_signals (index + 1) (reference s :: seen) r in
      Ok (s :: rest)
  end.

(** The order of the sort key [(item["type"], item["reference"])]. *)
Definition signal_leb (a b : signal) : bool :=
  if String.eqb (signal_type a) (signal_type b) then str_leb (reference a) (reference b)
  else str_leb (signal_type a) (signal_type b).

Definition _validate_independent_signals (value : val) : result (list signal) :=
  match value with
  | VList l => let? signals := validate_signals 0 [] l in Ok (sort_by signal_leb signals)
  | _ => Err (CorrelationRejected "independent_signals must be a list")
  end.

(** * The engine *)
Record DecisionResult : Type := {
  eligible : bool;
  reason : string;
  decision_event : option val;
  action_request : option val;
  command : option mapping }.

Definition policy_val (p : ResponsePolicy) : val :=
  VDict [("id", VStr (policy_id p)); ("version", VStr (policy_version p)); ("sha256", VStr (policy_sha256 p))].

Definition signal_kinds : list (string * string) :=
  [("suricata", "suricata_alert"); ("wazuh", "wazuh_alert"); ("authentication", "authentication_failures");
   ("threat_intel", "threat_intel_match"); ("protected_asset", "protected_asset_context");
   ("honeypot", "honeypot_interaction")].

Definition _decision_event (p : ResponsePolicy) (an : anomaly) (signals : list signal) (t : target)
    (decision_event_id correlation_id : string) (timestamp : Z) (outcome action : string)
    (automatic_response_eligible : bool) (response_request_id : option string) (reason : string) : val :=
  VDict [
    ("@timestamp", VStr (_rfc3339 timestamp));
    ("schema_version", VStr "correlation-decision-event-v1");
    ("event", VDict [("id", VStr decision_event_id); ("kind", VStr "event");
      ("category", VList [VStr "correlation"]); ("dataset", VStr "soc.correlation.decision")]);
    ("correlation_id", VStr correlation_id);
    ("anomaly", VDict [("event_id", VStr (event_id an)); ("model_id", VStr (model_id an));
      ("score", VFloat (score an)); ("threshold", VFloat (threshold an)); ("is_anomaly", VBool (is_anomaly an))]);
    ("signals", VList (
      VDict [("kind", VStr "ai_anomaly"); ("reference", VStr (event_id an));
        ("observed_at", VStr (anomaly_observed_at an)); ("confidence", VFloat (score an))]
      :: map (fun s => VDict ([("kind", VStr (default "" (assoc (signal_type s) signal_kinds)));
           ("reference", VStr (reference s)); ("observed_at", VStr (signal_observed_at s))]
           ++ optional_field "confidence" (fun f => VFloat f) (confidence s))) signals));
    ("policy", policy_val p);
    ("target", target_val t);
    ("decision", VDict ([("outcome", VStr outcome); ("action", VStr action);
      ("automatic_response_eligible", VBool automatic_response_eligible)]
      ++ optional_field "response_request_id" VStr response_request_id
      ++ [("confidence", VFloat (score an)); ("reason", VStr reason)]))].

(** The freshness loop over the anomaly and the signals. *)
Fixpoint stale_evidence (oldest latest : Z) (observed_at : list string) : result (option string) :=
  match observed_at with
  | [] => Ok None
  | o :: r =>
      let? t := _parse_rfc3339 (VStr o) "evidence.observed_at" in
      if t <? oldest then Ok (Some "evidence is older than the active correlation freshness limit")
      else if latest <? t then Ok (Some "evidence timestamp exceeds the allowed future clock skew")
      else stale_evidence oldest latest r
  end.

Definition _rejection_reason (c : PolicyCatalog) (p : ResponsePolicy) (an : anomaly) (signals : list signal)
    (t : target) (now : Z) : result (option string) :=
  let? oldest := shift now (- seconds (evidence_max_age_seconds c)) in
  let? latest := shift now (seconds 60) in
  let? stale := stale_evidence oldest latest (anomaly_observed_at an :: map signal_observed_at signals) in
  match stale with
  | Some r => Ok (Some r)
  | None =>
      if negb (is_anomaly an) then Ok (Some "AI event is not marked anomalous")
      else if num_ltb (PFloat (score an)) (PFloat (min_ai_score p)) then
        Ok (Some ("AI score below policy threshold " +:+ format_2f (min_ai_score p)))
      else if negb (existsb (fun r => existsb (fun s => matches r (signal_mapping s)) signals) (require_any p)) then
        Ok (Some "no independent corroborating signal satisfied the policy")
      else
        match assert_target_allowed (protections c) (policy_action p) (target_type t) (target_value t) with
        | Ok _ => Ok None
        | Err (PolicyError m) => Ok (Some ("target protection rejected the response: " +:+ m))
        | Err e => Err e
        end
  end.

(** Signals whose target differs, or that name the anomaly's own event, stop the evaluation. *)
Fixpoint check_signal_targets (t : target) (anomaly_id : string) (signals : list signal) : result unit :=
  match signals with
  | [] => Ok tt
  | s :: r =>
      raise_if (negb (bool_decide (signal_target s = t)))
        (CorrelationRejected "corroborating signal target differs from the response target") ;;?
      raise_if (String.eqb (reference s) anomaly_id)
        (CorrelationRejected "AI output cannot corroborate itself under another signal type") ;;?
      check_signal_targets t anomaly_id r
  end.

Definition signals_val (signals : list signal) : val := VList (map (fun s => VDict (signal_mapping s)) signals).

Definition decision_material (p : ResponsePolicy) (an : anomaly) (t : target) (signals : list signal) : val :=
  VDict [("policy_id", VStr (policy_id p)); ("policy_sha256", VStr (policy_sha256 p));
    ("anomaly_event_id", VStr (event_id an)); ("target", target_val t); ("signals", signals_val signals)].

Definition request_material (p : ResponsePolicy) (an : anomaly) (t : target) (signals : list signal)
    (decision_event_id : string) : val :=
  VDict [("decision_event_id", VStr decision_event_id); ("policy_sha256", VStr (policy_sha256 p));
    ("target", target_val t); ("anomaly_event_id", VStr (event_id an)); ("signals", signals_val signals)].

(** The caller's label, or one derived from the evidence, trimmed and bounded. *)
Definition correlation_label (correlation_id : val) (derived : string) : result string :=
  let bad := CorrelationRejected "correlation_id must be a non-empty string up to 256 characters" in
  match (match correlation_id with VNone => VStr derived | v => v end) with
  | VStr s => if String.eqb (strip s) "" || (256 <? str_len (strip s)) then Err bad else Ok (strip s)
  | _ => Err bad
  end.

Definition request_val (p : ResponsePolicy) (an : anomaly) (signals : list signal) (t : target)
    (correlation decision_event_id idempotency_key : string) (timestamp : Z) : val :=
  VDict [
    ("schema_version", VStr "response-request-v1"); ("correlation_id", VStr correlation);
    ("decision_event_id", VStr decision_event_id); ("policy_id", VStr (policy_id p));
    ("policy_sha256", VStr (policy_sha256 p)); ("idempotency_key", VStr idempotency_key);
    ("issued_by", VStr "decision_engine");
    ("entity", VDict [("type", VStr (target_type t)); ("id", VStr (target_value t))]);
    ("action", VStr (policy_action p));
    ("reason", VStr "hybrid correlation: anomaly plus independent corroboration");
    ("ai_score", VFloat (score an)); ("model_id", VStr (model_id an));
    ("signals", VList (VDict [("type", VStr "ai"); ("reference", VStr (event_id an))]
      :: map (fun s => VDict [("type", VStr (signal_type s)); ("reference", VStr (reference s))]) signals));
    ("ttl_seconds", VInt (ttl_seconds p)); ("allowlist_checked", VBool true); ("rollback_required", VBool true);
    ("requested_at", VStr (_rfc3339 timestamp))].

Definition authorization_mapping (key_id : string) (issued expires : Z) : mapping :=
  [("issuer", VStr "decision_engine"); ("key_id", VStr key_id);
   ("issued_at", VStr (_rfc3339 issued)); ("expires_at", VStr (_rfc3339 expires))].

Definition command_mapping (p : ResponsePolicy) (t : target)
    (request_id decision_event_id correlation idempotency_key : string) (authorization : mapping) : mapping :=
  [("schema_version", VStr "response-command-v1"); ("request_id", VStr request_id);
   ("decision_event_id", VStr decision_event_id); ("correlation_id", VStr correlation);
   ("policy", policy_val p); ("target", target_val t); ("action", VStr (policy_action p));
   ("ttl_seconds", VInt (ttl_seconds p)); ("allowlist_checked", VBool true); ("rollback_required", VBool true);
   ("idempotency_key", VStr idempotency_key); ("authorization", VDict authorization)].

Section engine.
Context {A : Type} `{!CommandAuthenticator A}.

Record DecisionEngine : Type := {
  engine_catalog : PolicyCatalog;
  engine_authenticator : A;
  engine_key_id : string }.

(** [DecisionEngine.__init__]; an empty or missing key identifier falls back on the
    authenticator's. *)
Definition decision_engine (c : PolicyCatalog) (a : A) (key_id : option string) : result DecisionEngine :=
  let k := match key_id with
           | Some s => if String.eqb s "" then signing_key_id a else s
           | None => signing_key_id a
           end in
  if String.eqb k "" then Err (ValueError "a signing_key_id is required for the response command authorization")
  else Ok {| engine_catalog := c; engine_authenticator := a; engine_key_id := k |}.

(** The part of [evaluate] after every piece of evidence is accepted by the policy. *)
Definition request_response (e : DecisionEngine) (p : ResponsePolicy) (an : anomaly) (signals : list signal)
    (t : target) (decision_event_id correlation : string) (timestamp : Z) : result DecisionResult :=
  let material := request_material p an t signals decision_event_id in
  let request_id := _identifier "req" material in
  let idempotency_key := "idemp-" +:+ sha256_hex material in
  let? expires := shift timestamp (seconds (command_valid_for_seconds (engine_catalog e))) in
  let authorization := authorization_mapping (engine_key_id e) timestamp expires in
  let command := command_mapping p t request_id decision_event_id correlation idempotency_key authorization in
  let? signature := sign (engine_authenticator e) command in
  let reason := "hybrid policy conditions satisfied" in
  Ok {| eligible := true; reason := reason;
        decision_event := Some (_decision_event p an signals t decision_event_id correlation timestamp
          "response_requested" (policy_action p) true (Some request_id) reason);
        action_request := Some (request_val p an signals t correlation decision_event_id idempotency_key timestamp);
        command := Some (attach_signature command authorization signature) |}.

(** The record of a decision that requests nothing. *)
Definition refuse_response (p : ResponsePolicy) (an : anomaly) (signals : list signal) (t : target)
    (decision_event_id correlation : string) (timestamp : Z) (rejection : string) : DecisionResult :=
  let outcome := if starts_with "target protection" rejection then "denied"
                 else if is_anomaly an then "alert" else "store_only" in
  {| eligible := false; reason := rejection;
     decision_event := Some (_decision_event p an signals t decision_event_id correlation timestamp outcome
       "none" false None rejection);
     action_request := None; command := None |}.

Definition anomaly_only : DecisionResult :=
  {| eligible := false; reason := "anomaly-only evidence is alert-only and cannot request containment";
     decision_event := None; action_request := None; command := None |}.

Definition evaluate (e : DecisionEngine) (utc_now : Z) (policy_id : string)
    (anomaly_value signals_value target_value : val) (now : option pydatetime) (correlation_id : val) :
    result DecisionResult :=
  let c := engine_catalog e in
  let? p := policy c policy_id in
  let? timestamp := _as_utc utc_now now in
  let? an := _validate_anomaly anomaly_value in
  let? t := _validate_target target_value in
  let? signals := _validate_independent_signals signals_value in
  raise_if (negb (bool_decide (anomaly_target an = t)))
    (CorrelationRejected "anomaly target differs from the requested response target") ;;?
  check_signal_targets t (event_id an) signals ;;?
  if Nat.eqb (length signals) 0 then Ok anomaly_only else
  let material := decision_material p an t signals in
  let decision_event_id := _identifier "dec" material in
  let? correlation := correlation_label correlation_id (_identifier "cor" material) in
  let? rejection := _rejection_reason c p an signals t timestamp in
  match rejection with
  | Some r => Ok (refuse_response p an signals t decision_event_id correlation timestamp r)
  | None => request_response e p an signals t decision_event_id correlation timestamp
  end.
End engine.
Arguments DecisionEngine A : clear implicits.
