(* ===== verification/Signing.v ===== *)
(** Command authentication: the HMAC reference authenticator of [response/decision.py] and the
    Ed25519 one of [response/signing.py], both implementations of [CommandAuthenticator].

    The Ed25519 primitives belong to the [cryptography] package and are parameters; SHA-256 and
    base64 are the definitions of [Sha256.v]. *)

From S2P Require Import Prelude PyText PyNum PyTime PyNet PyJson Sha256 Policy Decision.

(** [re.fullmatch("[A-Za-z0-9_-]{n}", s)]. *)
Definition is_signature_text (n : Z) (s : string) : bool := str_forallb is_b64_char s && (str_len s =? n).

Definition authorization_expired : exn := CorrelationRejected "response command authorization is expired".

(** What both [verify] methods check first: the authorization object, a known key and a well-formed text. *)
Definition check_form {K} (ring : list (string * K)) (n : Z) (command : mapping) : result (mapping * K * string) :=
  match get "authorization" command with
  | VDict authorization =>
      let? key := match get "key_id" authorization with
                  | VStr k =>
                      match assoc k ring with
                      | Some key => Ok key
                      | None => Err (CorrelationRejected "response command uses an unknown authorization key")
                      end
                  | _ => Err (CorrelationRejected "response command uses an unknown authorization key")
                  end in
      match get "signature" authorization with
      | VStr s =>
          if is_signature_text n s then Ok (authorization, key, s)
          else Err (CorrelationRejected "response command has an invalid authorization signature")
      | _ => Err (CorrelationRejected "response command has an invalid authorization signature")
      end
  | _ => Err (CorrelationRejected "response command has no authorization")
  end.

(** * HMAC *)
Record HmacAuthenticator : Type := {
  hmac_keys : list (string * list Z);
  hmac_signing_key_id : string }.

(** [HmacCommandAuthenticator.__init__] over a ring of byte strings. *)
Definition hmac_authenticator (ring : list (string * list Z)) (key_id : string) : result HmacAuthenticator :=
  raise_if (Nat.eqb (length ring) 0 || negb (str_in key_id ring.*1))
    (ValueError "a non-empty key ring and known signing key are required") ;;?
  raise_if (existsb (fun kv => (length kv.2 <? 32)%nat) ring)
    (ValueError "command-authentication keys must be at least 32 bytes") ;;?
  Ok {| hmac_keys := ring; hmac_signing_key_id := key_id |}.

Definition hmac_text (key payload : list Z) : string := urlsafe_b64_nopad (hmac_sha256 key payload).

Definition hmac_sign (h : HmacAuthenticator) (command : mapping) : result string :=
  match assoc (hmac_signing_key_id h) (hmac_keys h) with
  | None => Err (KeyError (hmac_signing_key_id h))
  | Some key => let? payload := _signature_payload command in Ok (hmac_text key payload)
  end.

Definition hmac_verify (h : HmacAuthenticator) (utc_now : Z) (command : mapping) (now : option pydatetime) : result unit :=
  let? '(authorization, key, signature) := check_form (hmac_keys h) 43 command in
  let? payload := _signature_payload command in
  raise_if (negb (String.eqb signature (hmac_text key payload)))
    (CorrelationRejected "response command signature verification failed") ;;?
  let? '(issued_at, expires_at) := authorization_window authorization in
  let? current := _as_utc utc_now now in
  raise_if ((expires_at <=? issued_at) || (expires_at <=? current)) authorization_expired.

#[export] Instance hmac_command_authenticator : CommandAuthenticator HmacAuthenticator :=
  {| sign := hmac_sign; verify := hmac_verify; signing_key_id := hmac_signing_key_id |}.

(** * Ed25519 *)

(** [urlsafe_b64decode] of characters of the alphabet, padded as [_unb64] pads them; bits that
    do not fill a byte are dropped. *)
Fixpoint _unb64 (s : string) : list Z :=
  match s with
  | String a (String b (String c (String d r))) =>
      let '(w, x, y, z) := (b64_val a, b64_val b, b64_val c, b64_val d) in
      (w * 4 + x / 16) :: (x mod 16 * 16 + y / 4) :: (y mod 4 * 64 + z) :: _unb64 r
  | String a (String b (String c EmptyString)) =>
      let '(w, x, y) := (b64_val a, b64_val b, b64_val c) in [w * 4 + x / 16; x mod 16 * 16 + y / 4]
  | String a (String b EmptyString) => let '(w, x) := (b64_val a, b64_val b) in [w * 4 + x / 16]
  | _ => []
  end.

(** [_KEY_ID]: [[A-Za-z0-9._-]{1,128}]. *)
Definition is_key_id (s : string) : bool :=
  str_forallb (fun a => is_b64_char a || Ascii.eqb a ".") s && (1 <=? str_len s) && (str_len s <=? 128).

(** The [stat] fields [load_private_key] reads, and the process it runs as. *)
Record file_info : Type := { st_uid : Z; st_gid : Z; st_perm : Z; st_regular : bool }.
Record process_ids : Type := { uid : Z; gid : Z; groups : list Z }.

Definition key_file_accepted (proc : process_ids) (info : file_info) : bool :=
  let own_private := (st_uid info =? uid proc) && (Z.land (st_perm info) 63 =? 0) in
  let orchestrated := (st_uid info =? 0) && (Z.land (st_perm info) 31 =? 0) &&
    (bool_decide (st_gid info ∈ groups proc) || (st_gid info =? gid proc)) in
  st_regular info && (own_private || orchestrated).

Section ed25519.
Context {PrivateKey PublicKey : Type}.
Variable public_key : PrivateKey -> PublicKey.
Variable ed_sign : PrivateKey -> list Z -> list Z.
Variable ed_verify : PublicKey -> list Z -> list Z -> bool.

Record Ed25519Authenticator : Type := {
  ring : list (string * PublicKey);
  signing_key : option PrivateKey;
  ed_signing_key_id : option string }.

(** [load_key_ring]: the [.pub] files of a directory by their stems, in sorted order. *)
Definition load_key_ring (files : list (string * PublicKey)) : result (list (string * PublicKey)) :=
  let kept := List.filter (fun kv => is_key_id kv.1) (sort_by (fun x y => str_leb x.1 y.1) files) in
  raise_if (Nat.eqb (length kept) 0) (ValueError "the verification key ring is empty") ;;?
  Ok kept.

Definition is_some {X} (o : option X) : bool := match o with Some _ => true | None => false end.

(** [Ed25519CommandAuthenticator.__init__]. *)
Definition ed25519_authenticator (keys : list (string * PublicKey)) (key : option PrivateKey)
    (key_id : option string) : result Ed25519Authenticator :=
  raise_if (Nat.eqb (length keys) 0 || negb (forallb (fun kv => is_key_id kv.1) keys))
    (ValueError "a non-empty ring of valid key IDs is required") ;;?
  raise_if (negb (Bool.eqb (is_some key) (is_some key_id)))
    (ValueError "signing_key and signing_key_id must be supplied together") ;;?
  raise_if (match key_id with Some k => negb (str_in k keys.*1) | None => false end)
    (ValueError "the signing key ID must be a member of the key ring") ;;?
  Ok {| ring := keys; signing_key := key; ed_signing_key_id := key_id |}.

(** [Ed25519CommandAuthenticator.signer], once the private key is loaded. *)
Definition ed25519_signer (key : PrivateKey) (key_id : string) : result Ed25519Authenticator :=
  ed25519_authenticator [(key_id, public_key key)] (Some key) (Some key_id).

(** [Ed25519CommandAuthenticator.verifier]. *)
Definition ed25519_verifier (files : list (string * PublicKey)) : result Ed25519Authenticator :=
  let? keys := load_key_ring files in ed25519_authenticator keys None None.

Definition ed25519_sign (a : Ed25519Authenticator) (command : mapping) : result string :=
  match signing_key a with
  | None => Err (CorrelationRejected "this authenticator has no signing key")
  | Some key => let? payload := _signature_payload command in Ok (urlsafe_b64_nopad (ed_sign key payload))
  end.

Definition ed25519_verify (a : Ed25519Authenticator) (utc_now : Z) (command : mapping) (now : option pydatetime) : result unit :=
  let? '(authorization, key, signature) := check_form (ring a) 86 command in
  let? payload := _signature_payload command in
  raise_if (negb (ed_verify key (_unb64 signature) payload))
    (CorrelationRejected "response command signature verification failed") ;;?
  let? '(issued_at, expires_at) := authorization_window authorization in
  raise_if (expires_at <=? issued_at) authorization_expired ;;?
  let? current := _as_utc utc_now now in
  raise_if (expires_at <=? current) authorization_expired.

Definition ed25519_command_authenticator : CommandAuthenticator Ed25519Authenticator :=
  {| sign := ed25519_sign; verify := ed25519_verify;
     signing_key_id := fun a => default "" (ed_signing_key_id a) |}.
End ed25519.
Arguments Ed25519Authenticator : clear implicits.

(** * Properties *)
Lemma sextets_back a b c : is_byte a -> is_byte b -> is_byte c ->
  a / 4 * 4 + (a mod 4 * 16 + b / 16) / 16 = a /\
  (a mod 4 * 16 + b / 16) mod 16 * 16 + (b mod 16 * 4 + c / 64) / 4 = b /\
  (b mod 16 * 4 + c / 64) mod 4 * 64 + c mod 64 = c.
Proof. unfold is_byte. intros. Z.div_mod_to_equations. lia. Qed.

Lemma unb64_b64 l : Forall is_byte l -> _unb64 (urlsafe_b64_nopad l) = l.
Proof.
  unfold urlsafe_b64_nopad.
  induction l as [|a|a b|a b c r IH] using bytes_ind3; intros Hall; [done|..];
    repeat match goal with H : Forall _ (_ :: _) |- _ => inversion_clear H end.
  - destruct (sextets a 0 0) as (? & ? & _); [done|apply is_byte_0..|].
    destruct (sextets_back a 0 0) as (E1 & _); [done|apply is_byte_0..|]. change (0 / 16) with 0 in *.
    rewrite Z.add_0_r in *. cbn. rewrite !b64_val_char by done. by rewrite E1.
  - destruct (sextets a b 0) as (? & ? & ? & _); [done|done|apply is_byte_0|].
    destruct (sextets_back a b 0) as (E1 & E2 & _); [done|done|apply is_byte_0|]. change (0 / 64) with 0 in *.
    rewrite Z.add_0_r in *. cbn. rewrite !b64_val_char by done. by rewrite E1, E2.
  - destruct (sextets a b c) as (? & ? & ? & ?); [done..|].
    destruct (sextets_back a b c) as (E1 & E2 & E3); [done..|].
    cbn. rewrite !b64_val_char by done. by rewrite E1, E2, E3, IH.
Qed.

Lemma signature_text_ok n l :
  Forall is_byte l -> (4 * Z.of_nat (length l) + 2) / 3 = n -> is_signature_text n (urlsafe_b64_nopad l) = true.
Proof.
  intros Hl Hn. unfold is_signature_text, urlsafe_b64_nopad.
  rewrite b64_chars_alphabet by done. rewrite b64_chars_length, Hn. simpl. apply Z.eqb_refl.
Qed.

(** An authorization without a signature, and the same one with it, sign the same bytes. *)
Lemma payload_attach command authorization s :
  get "authorization" command = VDict authorization -> assoc "signature" authorization = None ->
  _signature_payload (attach_signature command authorization s) = _signature_payload command.
Proof.
  intros Ha Hs. unfold _signature_payload, attach_signature. rewrite get_set_eq, Ha, assoc_set_set.
  assert (assoc_del "signature" (authorization ++ [("signature", VStr s)]) = authorization) as ->.
  { unfold assoc_del. rewrite filter_app. fold (assoc_del "signature" authorization).
    rewrite assoc_del_absent by done. rewrite filter_cons_False by done. by rewrite app_nil_r. }
  by rewrite assoc_del_absent.
Qed.

Lemma get_app_some k d1 d2 v : assoc k d1 = Some v -> get k (d1 ++ d2) = v.
Proof. intros H. unfold get. by rewrite assoc_app, H. Qed.

(** [verify] of a command that carries a good signature of a key of the ring. *)
Lemma check_form_attach {K} (keyring : list (string * K)) n command authorization k key s :
  get "authorization" command = VDict authorization -> assoc "signature" authorization = None ->
  assoc "key_id" authorization = Some (VStr k) -> assoc k keyring = Some key -> is_signature_text n s = true ->
  check_form keyring n (attach_signature command authorization s) =
  Ok (authorization ++ [("signature", VStr s)], key, s).
Proof.
  intros Ha Hs Hk Hkey Hform. unfold check_form, attach_signature. rewrite get_set_eq.
  rewrite (get_app_some _ _ _ _ Hk), Hkey. unfold rbind, get.
  rewrite assoc_app, Hs. cbn. by rewrite Hform.
Qed.

Lemma window_attach authorization s w :
  authorization_window authorization = Ok w ->
  authorization_window (authorization ++ [("signature", VStr s)]) = Ok w.
Proof.
  unfold authorization_window, get. intros H.
  apply rbind_Ok in H as (i & Hi & H). apply rbind_Ok in H as (x & Hx & H).
  assert (forall k t l, _parse_rfc3339 (default VNone (assoc k authorization)) l = Ok t ->
    assoc k (authorization ++ [("signature", VStr s)]) = assoc k authorization) as Hsame.
  { intros k t l Ht. rewrite assoc_app. by destruct (assoc k authorization). }
  rewrite (Hsame _ _ _ Hi), Hi. cbn [rbind]. by rewrite (Hsame _ _ _ Hx), Hx.
Qed.

(** The HMAC authenticator keeps the interface's promise. *)
Definition hmac_usable (h : HmacAuthenticator) : Prop := exists key, assoc (hmac_signing_key_id h) (hmac_keys h) = Some key.

Lemma hmac_init_usable keyring k h : hmac_authenticator keyring k = Ok h -> hmac_usable h.
Proof.
  unfold hmac_authenticator, hmac_usable. intros H. ok_inv. subst. simpl. bool_inv.
  destruct (assoc k keyring) eqn:E; [by eexists|]. apply assoc_None in E.
  match goal with H : str_in _ _ = true |- _ => apply str_in_elem in H end. done.
Qed.

#[export] Instance hmac_laws : AuthenticatorLaws hmac_usable.
Proof.
  split.
  - intros h command authorization [key Hkey] Ha. unfold sign; simpl. unfold hmac_sign, _signature_payload.
    rewrite Hkey, Ha. by eexists.
  - intros h command authorization s i x utc_now t [key Hkey] Ha Hs Hk Hsign Hw Hix Htx.
    unfold sign in Hsign; simpl in *. unfold hmac_sign in Hsign. rewrite Hkey in Hsign.
    apply rbind_Ok in Hsign as (payload & Hp & [= <-]). unfold hmac_verify.
    erewrite check_form_attach; [|done..|].
    + cbn [rbind]. rewrite payload_attach, Hp by done. cbn [rbind]. rewrite String.eqb_refl. cbn [negb raise_if rbind].
      rewrite (window_attach _ _ _ Hw). cbn. rewrite (proj2 (Z.leb_gt x i)), (proj2 (Z.leb_gt x t)) by lia. done.
    + apply signature_text_ok; [apply sha256_shape|]. unfold hmac_sha256. by rewrite (proj1 (sha256_shape _)).
Qed.

(** So does the Ed25519 one, for a primitive whose signatures are sixty-four bytes that its
    public key accepts (RFC 8032). *)
Section ed25519_laws.
Context {PrivateKey PublicKey : Type}.
Variable public_key : PrivateKey -> PublicKey.
Variable ed_sign : PrivateKey -> list Z -> list Z.
Variable ed_verify : PublicKey -> list Z -> list Z -> bool.
Hypothesis signature_bytes : forall k m, length (ed_sign k m) = 64%nat /\ Forall is_byte (ed_sign k m).
Hypothesis signature_accepted : forall k m, ed_verify (public_key k) (ed_sign k m) m = true.

#[local] Instance ed_authenticator : CommandAuthenticator (Ed25519Authenticator PrivateKey PublicKey) :=
  ed25519_command_authenticator ed_sign ed_verify.

Definition ed25519_usable (a : Ed25519Authenticator PrivateKey PublicKey) : Prop :=
  exists key k, signing_key a = Some key /\ ed_signing_key_id a = Some k /\ assoc k (ring a) = Some (public_key key).

Lemma ed25519_signer_usable key k a : ed25519_signer public_key key k = Ok a -> ed25519_usable a.
Proof.
  unfold ed25519_signer, ed25519_authenticator, ed25519_usable. intros H. ok_inv. subst. simpl.
  exists key, k. by rewrite String.eqb_refl.
Qed.

Lemma ed25519_laws : AuthenticatorLaws ed25519_usable.
Proof.
  split.
  - intros a command authorization (key & k & Hkey & _) Ha. unfold sign; simpl.
    unfold ed25519_sign, _signature_payload. rewrite Hkey, Ha. by eexists.
  - intros a command authorization s i x utc_now t (key & k & Hkey & Hkid & Hring) Ha Hs Hk Hsign Hw Hix Htx.
    unfold sign in Hsign; simpl in *. unfold ed25519_sign in Hsign. rewrite Hkey in Hsign.
    apply rbind_Ok in Hsign as (payload & Hp & [= <-]). rewrite Hkid in Hk. simpl in Hk. unfold ed25519_verify.
    destruct (signature_bytes key payload) as [Hlen Hbytes].
    erewrite check_form_attach; [|done..|].
    + cbn [rbind]. rewrite payload_attach, Hp by done. cbn [rbind].
      rewrite unb64_b64, signature_accepted by done. cbn [negb raise_if rbind].
      rewrite (window_attach _ _ _ Hw). cbn. rewrite (proj2 (Z.leb_gt x i)) by lia. cbn.
      by rewrite (proj2 (Z.leb_gt x t)) by lia.
    + apply signature_text_ok; [done|]. by rewrite Hlen.
Qed.
End ed25519_laws.
