(* ===== verification/AuditLog.v ===== *)
(** [response/orchestrator/audit.py]: the response lifecycle, its transition checks, the
    in-memory append-only ledger and the audit event factory.

    A validated command and an audit event are records with the fields of the dicts the code
    builds ([command_mapping_of] and [event_val] are those dicts); the lifecycle states are an
    inductive type, so the code's test that a state is one of the six is the typing.  Copies
    ([deepcopy]) are values. *)

From S2P Require Import Prelude PyText PyNum PyTime PyNet PyJson Sha256 Policy Decision.

(** * Commands *)
Record Command : Type := {
  request_id : string;
  decision_event_id : string;
  correlation_id : string;
  idempotency_key : string;
  cmd_policy_id : string;
  cmd_policy_version : string;
  cmd_policy_sha256 : string;
  cmd_target : target;
  cmd_action : string;
  cmd_ttl : pynum;
  auth_key_id : val;
  auth_signature : val;
  auth_issued_at : string;
  auth_expires_at : string }.

(** The command as the dict that is signed, stored and validated again before [apply]. *)
Definition command_mapping_of (c : Command) : mapping :=
  [("schema_version", VStr "response-command-v1"); ("request_id", VStr (request_id c));
   ("decision_event_id", VStr (decision_event_id c)); ("correlation_id", VStr (correlation_id c));
   ("policy", VDict [("id", VStr (cmd_policy_id c)); ("version", VStr (cmd_policy_version c));
      ("sha256", VStr (cmd_policy_sha256 c))]);
   ("target", target_val (cmd_target c)); ("action", VStr (cmd_action c)); ("ttl_seconds", VNum (cmd_ttl c));
   ("allowlist_checked", VBool true); ("rollback_required", VBool true);
   ("idempotency_key", VStr (idempotency_key c));
   ("authorization", VDict [("issuer", VStr "decision_engine"); ("key_id", auth_key_id c);
      ("issued_at", VStr (auth_issued_at c)); ("expires_at", VStr (auth_expires_at c));
      ("signature", auth_signature c)])].

(** [a == b] of two commands as dicts. *)
Definition command_eqb (a b : Command) : bool := py_eq (VDict (command_mapping_of a)) (VDict (command_mapping_of b)).

(** * Lifecycle *)
Inductive lifecycle : Type := REQUESTED | APPLIED | VERIFIED | EXPIRED | ROLLED_BACK | FAILED.

#[global] Instance lifecycle_eq_dec : EqDecision lifecycle.
Proof. solve_decision. Defined.

Definition state_text (s : lifecycle) : string :=
  match s with
  | REQUESTED => "REQUESTED"
  | APPLIED => "APPLIED"
  | VERIFIED => "VERIFIED"
  | EXPIRED => "EXPIRED"
  | ROLLED_BACK => "ROLLED_BACK"
  | FAILED => "FAILED"
  end.

Definition TERMINAL_STATES : list lifecycle := [EXPIRED; ROLLED_BACK].

(** The table [_ALLOWED]; a state that is not a key allows nothing. *)
Definition _ALLOWED (previous : option lifecycle) : list lifecycle :=
  match previous with
  | None => [REQUESTED]
  | Some REQUESTED => [APPLIED; FAILED; ROLLED_BACK]
  | Some APPLIED => [VERIFIED; ROLLED_BACK; FAILED]
  | Some VERIFIED => [EXPIRED; ROLLED_BACK; FAILED]
  | Some FAILED => [FAILED; ROLLED_BACK]
  | Some EXPIRED | Some ROLLED_BACK => []
  end.

(** * Audit events *)
Record Application : Type := { applied_at : string; app_reference : string }.
Record Verification : Type := { verified_at : string; verification_refs : list string }.
Record Rollback : Type := { completed_at : string; rollback_cause : string; rollback_refs : list string }.
Record Failure : Type := { failure_code : string; failure_message : string; failed_at : string }.
Record ActionIntent : Type := {
  intent_operation : string;
  intent_started_at : option string;
  intent_reference : option string }.

Record AuditEvent : Type := {
  ev_timestamp : string;
  audit_event_id : string;
  ev_response_id : string;
  transition_number : Z;
  ev_decision_event_id : string;
  ev_correlation_id : string;
  ev_policy_id : string;
  ev_idempotency_key : string;
  ev_target : target;
  ev_action : string;
  ev_adapter : string;
  ev_state : lifecycle;
  previous_state : option lifecycle;
  ev_ttl_seconds : pynum;
  ev_expires_at : string;
  application : option Application;
  verification : option Verification;
  rollback : option Rollback;
  failure : option Failure;
  action_intent : option ActionIntent }.

Definition texts_val (l : list string) : val := VList (map VStr l).
Definition opt_text_val (o : option string) : val := from_option VStr VNone o.

(** The event as the dict that is stored and exported. *)
Definition event_val (e : AuditEvent) : val :=
  VDict ([
    ("@timestamp", VStr (ev_timestamp e)); ("schema_version", VStr "response-audit-event-v1");
    ("event", VDict [("id", VStr (audit_event_id e)); ("kind", VStr "event");
      ("category", VList [VStr "response"]); ("dataset", VStr "soc.response.audit")]);
    ("audit_event_id", VStr (audit_event_id e)); ("response_id", VStr (ev_response_id e));
    ("transition_number", VInt (transition_number e)); ("decision_event_id", VStr (ev_decision_event_id e));
    ("correlation_id", VStr (ev_correlation_id e)); ("policy_id", VStr (ev_policy_id e));
    ("idempotency_key", VStr (ev_idempotency_key e)); ("target", target_val (ev_target e));
    ("action", VStr (ev_action e)); ("adapter", VStr (ev_adapter e)); ("state", VStr (state_text (ev_state e)));
    ("previous_state", opt_text_val (option_map state_text (previous_state e)));
    ("ttl_seconds", VNum (ev_ttl_seconds e)); ("expires_at", VStr (ev_expires_at e));
    ("allowlist_checked", VBool true); ("rollback_required", VBool true)]
  ++ optional_field "application" (fun a => VDict [("applied_at", VStr (applied_at a));
       ("adapter_reference", VStr (app_reference a))]) (application e)
  ++ optional_field "verification" (fun v => VDict [("verified", VBool true);
       ("verified_at", VStr (verified_at v)); ("evidence_refs", texts_val (verification_refs v))]) (verification e)
  ++ optional_field "rollback" (fun r => VDict [("completed_at", VStr (completed_at r));
       ("cause", VStr (rollback_cause r)); ("evidence_refs", texts_val (rollback_refs r))]) (rollback e)
  ++ optional_field "failure" (fun f => VDict [("code", VStr (failure_code f));
       ("message", VStr (failure_message f)); ("failed_at", VStr (failed_at f))]) (failure e)
  ++ optional_field "action_intent" (fun i => VDict [("operation", VStr (intent_operation i));
       ("started_at", opt_text_val (intent_started_at i));
       ("adapter_reference", opt_text_val (intent_reference i))]) (action_intent e)).

Definition _event_id (response_id : string) (number : Z) (state : lifecycle) : string :=
  "audit-" +:+ str_take 24 (hexdigest (sha256 (utf8
    (response_id +:+ ":" +:+ str_of_Z number +:+ ":" +:+ state_text state)))).

(** [AuditEventFactory(command, response_id, expires_at, adapter).build(...)]. *)
Definition build_event (c : Command) (response_id : string) (expires_at : Z) (adapter : option string)
    (state : lifecycle) (previous : option lifecycle) (number timestamp : Z)
    (app : option Application) (ver : option Verification) (rb : option Rollback) (fail : option Failure)
    (intent : option ActionIntent) : AuditEvent :=
  let fallback := if String.eqb (cmd_action c) "block_ip" then "opnsense" else "wazuh" in
  {| ev_timestamp := _rfc3339 timestamp; audit_event_id := _event_id response_id number state;
     ev_response_id := response_id; transition_number := number;
     ev_decision_event_id := decision_event_id c; ev_correlation_id := correlation_id c;
     ev_policy_id := cmd_policy_id c; ev_idempotency_key := idempotency_key c; ev_target := cmd_target c;
     ev_action := cmd_action c;
     ev_adapter := match adapter with
                   | Some a => if String.eqb a "" then fallback else a
                   | None => fallback
                   end;
     ev_state := state; previous_state := previous; ev_ttl_seconds := cmd_ttl c;
     ev_expires_at := _rfc3339 expires_at;
     application := app; verification := ver; rollback := rb; failure := fail; action_intent := intent |}.

Definition latest_state (history : list AuditEvent) : option lifecycle := option_map ev_state (last history).

Definition state_repr (o : option lifecycle) : string :=
  match o with
  | Some s => py_repr (state_text s)
  | None => "None"
  end.

Definition has_application (history : list AuditEvent) : bool :=
  existsb (fun e => bool_decide (ev_state e = APPLIED)) history.

(** Leaving [FAILED], or rolling back a request, needs a recorded attempt. *)
Definition needs_attempt (previous : option lifecycle) (state : lifecycle) : bool :=
  bool_decide (previous = Some FAILED) || (bool_decide (previous = Some REQUESTED) && bool_decide (state = ROLLED_BACK)).

Definition is_present {X} (o : option X) : bool := match o with Some _ => true | None => false end.

Definition validate_transition (e : AuditEvent) (history : list AuditEvent) : result unit :=
  let actual := latest_state history in
  raise_if (String.eqb (ev_response_id e) "") (CommandRejected "audit event lacks response_id") ;;?
  raise_if (negb (bool_decide (previous_state e = actual)))
    (CommandRejected "audit event previous_state does not match append-only history") ;;?
  raise_if (negb (bool_decide (ev_state e ∈ _ALLOWED actual)))
    (CommandRejected ("invalid response transition " +:+ state_repr actual +:+ " -> " +:+ state_repr (Some (ev_state e)))) ;;?
  raise_if (needs_attempt actual (ev_state e) && negb (has_application history) && negb (is_present (action_intent e)))
    (CommandRejected "recovery requires an application or recorded action intent") ;;?
  raise_if (negb (transition_number e =? Z.of_nat (length history) + 1))
    (CommandRejected "audit event transition_number is not monotonic").

(** * The in-memory ledger *)
Record Ledger : Type := {
  by_response : list (string * list AuditEvent);
  apply_intents : list string;
  saved_commands : list (string * Command) }.

Definition empty_ledger : Ledger := {| by_response := []; apply_intents := []; saved_commands := [] |}.

Definition events (l : Ledger) (response_id : string) : list AuditEvent := default [] (assoc response_id (by_response l)).

Definition latest (l : Ledger) (response_id : string) : option AuditEvent := last (events l response_id).

Definition save_command (l : Ledger) (response_id : string) (c : Command) : result Ledger :=
  raise_if (match assoc response_id (saved_commands l) with Some old => negb (command_eqb old c) | None => false end)
    (CommandRejected "recovery command is immutable") ;;?
  Ok {| by_response := by_response l; apply_intents := apply_intents l;
        saved_commands := assoc_set response_id c (saved_commands l) |}.

Definition claim_apply (l : Ledger) (response_id : string) : result Ledger :=
  raise_if (str_in response_id (apply_intents l))
    (CommandRejected "application already attempted; reconciliation required") ;;?
  raise_if (negb (bool_decide (latest_state (events l response_id) = Some REQUESTED)))
    (CommandRejected "application intent requires REQUESTED audit state") ;;?
  Ok {| by_response := by_response l; apply_intents := response_id :: apply_intents l;
        saved_commands := saved_commands l |}.

(** [datetime.fromisoformat(text.replace("Z", "+00:00"))] compared with an aware instant. *)
Definition instant_of (text : string) : result Z :=
  match fromisoformat_z text with
  | Some (local, Some offset) => Ok (local - offset)
  | Some (_, None) => Err (TypeError "can't compare offset-naive and offset-aware datetimes")
  | None => Err (ValueError "Invalid isoformat string")
  end.

Definition requested_after (policy_id : string) (since : Z) (e : AuditEvent) : result bool :=
  if bool_decide (ev_state e = REQUESTED) && String.eqb (ev_policy_id e) policy_id
  then let? t := instant_of (ev_timestamp e) in Ok (since <? t)
  else Ok false.

Definition requested_since (l : Ledger) (policy_id : string) (since : Z) : result Z :=
  foldR (fun n e => let? hit := requested_after policy_id since e in Ok (if hit then n + 1 else n))
    0 (concat (map snd (by_response l))).

Definition append (l : Ledger) (e : AuditEvent) : result Ledger :=
  let history := events l (ev_response_id e) in
  validate_transition e history ;;?
  Ok {| by_response := assoc_set (ev_response_id e) (history ++ [e]) (by_response l);
        apply_intents := apply_intents l; saved_commands := saved_commands l |}.

(** * Lifecycle histories *)

(** A history the checks accept one event at a time. *)
Inductive valid_history (rid : string) : list AuditEvent -> Prop :=
| valid_nil : valid_history rid []
| valid_snoc h e :
    valid_history rid h -> ev_response_id e = rid -> validate_transition e h = Ok tt -> valid_history rid (h ++ [e]).

Lemma validate_transition_iff e h :
  validate_transition e h = Ok tt <->
  ev_response_id e <> "" /\ previous_state e = latest_state h /\ ev_state e ∈ _ALLOWED (latest_state h) /\
  (needs_attempt (latest_state h) (ev_state e) = true -> has_application h = true \/ action_intent e <> None) /\
  transition_number e = Z.of_nat (length h) + 1.
Proof.
  unfold validate_transition.
  rewrite !raise_seq_Ok, raise_if_Ok, !negb_false_iff, !bool_decide_eq_true, Z.eqb_eq, !andb_false_iff,
    !negb_false_iff, String.eqb_neq.
  assert (is_present (action_intent e) = true <-> action_intent e <> None) as ->.
  { destruct (action_intent e); simpl; split; congruence. }
  destruct (needs_attempt _ _); naive_solver.
Qed.

Lemma valid_history_snoc rid h e :
  valid_history rid (h ++ [e]) ->
  valid_history rid h /\ ev_response_id e = rid /\ validate_transition e h = Ok tt.
Proof. inversion 1; [by destruct h|]. by simplify_list_eq. Qed.

Lemma valid_history_numbers rid h i e :
  valid_history rid h -> h !! i = Some e -> transition_number e = Z.of_nat i + 1 /\ ev_response_id e = rid.
Proof.
  induction 1 as [|h e' Hh IH Hr Hv]; [done|]. rewrite lookup_app_Some. intros [?|[Hi Hl]]; [auto|].
  apply list_lookup_singleton_Some in Hl as [Hz ->]. apply validate_transition_iff in Hv.
  split; [|done]. replace i with (length h) by lia. tauto.
Qed.

Lemma valid_history_first rid h e :
  valid_history rid h -> head h = Some e -> ev_state e = REQUESTED /\ previous_state e = None.
Proof.
  induction 1 as [|h e' Hh IH Hr Hv]; [done|]. destruct h as [|x h]; [|by auto].
  simpl. intros [= <-]. apply validate_transition_iff in Hv as (_ & Hp & Hs & _). simpl in *. set_solver.
Qed.

(** Consecutive events are related by the transition table. *)
Lemma valid_history_step rid h i e1 e2 :
  valid_history rid h -> h !! i = Some e1 -> h !! S i = Some e2 ->
  ev_state e2 ∈ _ALLOWED (Some (ev_state e1)) /\ previous_state e2 = Some (ev_state e1).
Proof.
  induction 1 as [|h e Hh IH Hr Hv]; [done|]. intros H1 H2.
  apply lookup_app_Some in H2 as [H2|[Hi H2]].
  { assert (i < length h)%nat by (apply lookup_lt_Some in H2; lia).
    rewrite lookup_app_l in H1 by done. auto. }
  apply list_lookup_singleton_Some in H2 as [Hz <-].
  rewrite lookup_app_l in H1 by lia. apply validate_transition_iff in Hv as (_ & Hp & Hs & _).
  assert (latest_state h = Some (ev_state e1)) as Hl.
  { unfold latest_state. rewrite last_lookup. replace (pred (length h)) with i by lia. by rewrite H1. }
  by rewrite Hl in *.
Qed.

(** Nothing follows a terminal state. *)
Lemma terminal_is_last rid h i e :
  valid_history rid h -> h !! i = Some e -> ev_state e ∈ TERMINAL_STATES -> S i = length h.
Proof.
  intros Hv Hi Ht. apply dec_stable. intros Hne.
  assert (S i < length h)%nat as Hlt by (apply lookup_lt_Some in Hi; lia).
  apply lookup_lt_is_Some_2 in Hlt as [e2 He2].
  destruct (valid_history_step _ _ _ _ _ Hv Hi He2) as [Hs _].
  unfold TERMINAL_STATES in Ht. set_unfold. destruct Ht as [Ht|[Ht|[]]]; rewrite Ht in Hs; set_solver.
Qed.

(** A ledger whose every history was accepted. *)
Definition ledger_wf (l : Ledger) : Prop := forall rid, valid_history rid (events l rid).

Lemma append_Ok l e l' :
  append l e = Ok l' ->
  validate_transition e (events l (ev_response_id e)) = Ok tt /\
  events l' (ev_response_id e) = events l (ev_response_id e) ++ [e] /\
  (forall rid, rid <> ev_response_id e -> events l' rid = events l rid) /\
  apply_intents l' = apply_intents l /\ saved_commands l' = saved_commands l.
Proof.
  unfold append. intros H. apply rbind_Ok in H as ([] & Hv & [= <-]). split; [done|].
  unfold events; simpl. rewrite assoc_set_eq. repeat split; try done.
  intros rid Hne. by rewrite assoc_set_ne.
Qed.

Lemma append_wf l e l' : ledger_wf l -> append l e = Ok l' -> ledger_wf l'.
Proof.
  intros Hl H. apply append_Ok in H as (Hv & He & Ho & _). intros rid.
  destruct (decide (rid = ev_response_id e)) as [->|Hne]; [|by rewrite Ho].
  rewrite He. by constructor.
Qed.

Lemma append_prefix l e l' rid : append l e = Ok l' -> exists t, events l' rid = events l rid ++ t.
Proof.
  intros H. apply append_Ok in H as (_ & He & Ho & _).
  destruct (decide (rid = ev_response_id e)) as [->|Hne]; [by exists [e]|].
  exists []. by rewrite Ho, app_nil_r.
Qed.
