(* ===== verification/Effects.v ===== *)
(** Stateful code that may raise: a state monad whose exceptions keep the mutations made before
    them, as Python's do, with the Hoare-style rules the component proofs use. *)

From S2P Require Import Prelude.

Definition M (S A : Type) : Type := S -> result A * S.

Definition ret {S A} (a : A) : M S A := fun s => (Ok a, s).
Definition raise {S A} (e : exn) : M S A := fun s => (Err e, s).
Definition mbind {S A B} (m : M S A) (k : A -> M S B) : M S B :=
  fun s => match m s with
           | (Ok a, s') => k a s'
           | (Err e, s') => (Err e, s')
           end.
Definition gets {S A} (f : S -> A) : M S A := fun s => (Ok (f s), s).
Definition modify {S} (f : S -> S) : M S unit := fun s => (Ok tt, f s).
Definition lift {S A} (r : result A) : M S A := fun s => (r, s).
Definition raise_when {S} (c : bool) (e : exn) : M S unit := lift (raise_if c e).

(** [try: m except <handled> as exc: h exc]. *)
Definition catch {S A} (m : M S A) (handled : exn -> bool) (h : exn -> M S A) : M S A :=
  fun s => match m s with
           | (Err e, s') => if handled e then h e s' else (Err e, s')
           | r => r
           end.

(** The result of [m], raised or returned, handed to [k]: [try] with a handler for every exception. *)
Definition attempt {S A B} (m : M S A) (k : result A -> M S B) : M S B := fun s => let '(r, s') := m s in k r s'.

Notation "'let!' x := m 'in' k" := (mbind m (fun x => k))
  (at level 10, x binder, m at level 100, k at level 200) : py_scope.
Notation "m ;;! k" := (mbind m (fun _ => k))
  (at level 100, k at level 200, right associativity) : py_scope.

(** [tuple(f(x) for x in l)] with effects. *)
Fixpoint mapM_ {S A B} (f : A -> M S B) (l : list A) : M S (list B) :=
  match l with
  | [] => ret []
  | x :: r => let! y := f x in let! ys := mapM_ f r in ret (y :: ys)
  end.

(** * Triples

    From a state with [P], [m] ends with a value and a state in [Q], or with an exception and a
    state in [E]. *)
Definition triple {S A} (P : S -> Prop) (m : M S A) (Q : A -> S -> Prop) (E : exn -> S -> Prop) : Prop :=
  forall s, P s -> match m s with
                   | (Ok a, s') => Q a s'
                   | (Err e, s') => E e s'
                   end.

(** [m] keeps [I], whether it returns or raises. *)
Definition keeps {S A} (I : S -> Prop) (m : M S A) : Prop := triple I m (fun _ => I) (fun _ => I).

Section rules.
Context {S : Type}.
Implicit Types (P I : S -> Prop) (E : exn -> S -> Prop).

Lemma triple_ret {A} P (a : A) Q E : (forall s, P s -> Q a s) -> triple P (ret a) Q E.
Proof. intros H s Hs. by apply H. Qed.

Lemma triple_raise {A} P e (Q : A -> S -> Prop) E : (forall s, P s -> E e s) -> triple P (raise e) Q E.
Proof. intros H s Hs. by apply H. Qed.

Lemma triple_bind {A B} P (m : M S A) (k : A -> M S B) R Q E :
  triple P m R E -> (forall a, triple (R a) (k a) Q E) -> triple P (mbind m k) Q E.
Proof.
  intros Hm Hk s Hs. unfold mbind. specialize (Hm s Hs).
  destruct (m s) as [[a|e] s']; [by apply Hk|done].
Qed.

Lemma triple_attempt {A B} P (m : M S A) (k : result A -> M S B) R R' Q E :
  triple P m R R' -> (forall a, triple (R a) (k (Ok a)) Q E) -> (forall e, triple (R' e) (k (Err e)) Q E) ->
  triple P (attempt m k) Q E.
Proof.
  intros Hm Hk He s Hs. unfold attempt. specialize (Hm s Hs). destruct (m s) as [[a|e] s']; [by apply Hk|by apply He].
Qed.

Lemma triple_conseq {A} P P' (m : M S A) Q Q' E E' :
  triple P m Q E -> (forall s, P' s -> P s) -> (forall a s, Q a s -> Q' a s) ->
  (forall e s, E e s -> E' e s) -> triple P' m Q' E'.
Proof.
  intros Hm HP HQ HE s Hs. specialize (Hm s (HP s Hs)). destruct (m s) as [[a|e] s']; auto.
Qed.

Lemma triple_gets {A} P (f : S -> A) Q E :
  (forall s, P s -> Q (f s) s) -> triple P (gets f) Q E.
Proof. intros H s Hs. by apply H. Qed.

Lemma triple_modify P f (Q : unit -> S -> Prop) E :
  (forall s, P s -> Q tt (f s)) -> triple P (modify f) Q E.
Proof. intros H s Hs. by apply H. Qed.

Lemma triple_lift {A} P (r : result A) Q E :
  (forall a s, r = Ok a -> P s -> Q a s) -> (forall e s, r = Err e -> P s -> E e s) ->
  triple P (lift r) Q E.
Proof. intros HQ HE s Hs. unfold lift. destruct r; auto. Qed.

Lemma triple_raise_when P c e (Q : unit -> S -> Prop) E :
  (forall s, c = false -> P s -> Q tt s) -> (forall s, c = true -> P s -> E e s) ->
  triple P (raise_when c e) Q E.
Proof. intros HQ HE s Hs. unfold raise_when, lift. destruct c; simpl; auto. Qed.

Lemma triple_catch {A} P (m : M S A) handled h Q E E' :
  triple P m Q E' -> (forall e s, handled e = false -> E' e s -> E e s) ->
  (forall e, handled e = true -> triple (E' e) (h e) Q E) -> triple P (catch m handled h) Q E.
Proof.
  intros Hm HE Hh s Hs. unfold catch. specialize (Hm s Hs).
  destruct (m s) as [[a|e] s']; [done|]. destruct (handled e) eqn:He; [by apply Hh|by apply HE].
Qed.

Lemma keeps_mapM {A B} I (f : A -> M S B) l : (forall x, keeps I (f x)) -> keeps I (mapM_ f l).
Proof.
  intros Hf. induction l as [|x l IH]; simpl; [by apply triple_ret|].
  eapply triple_bind; [apply Hf|]. intros y. eapply triple_bind; [exact IH|]. intros ys. by apply triple_ret.
Qed.
End rules.

(** * Preservation, structurally *)
Section keeps_rules.
Context {S : Type} (I : S -> Prop).

Lemma keeps_ret {A} (a : A) : keeps I (ret a).
Proof. by apply triple_ret. Qed.

Lemma keeps_raise {A} e : keeps I (@raise S A e).
Proof. by apply triple_raise. Qed.

Lemma keeps_bind {A B} (m : M S A) (k : A -> M S B) :
  keeps I m -> (forall a, keeps I (k a)) -> keeps I (mbind m k).
Proof. intros Hm Hk. eapply triple_bind; [exact Hm|exact Hk]. Qed.

Lemma keeps_attempt {A B} (m : M S A) (k : result A -> M S B) :
  keeps I m -> (forall r, keeps I (k r)) -> keeps I (attempt m k).
Proof. intros Hm Hk. eapply triple_attempt; [exact Hm|intros a; apply Hk|intros e; apply Hk]. Qed.

Lemma keeps_gets {A} (f : S -> A) : keeps I (gets f).
Proof. by apply triple_gets. Qed.

Lemma keeps_lift {A} (r : result A) : keeps I (lift r).
Proof. by apply triple_lift. Qed.

Lemma keeps_raise_when c e : keeps I (raise_when c e).
Proof. by apply triple_raise_when. Qed.

Lemma keeps_modify f : (forall s, I s -> I (f s)) -> keeps I (modify f).
Proof. intros H. by apply triple_modify. Qed.

(** A computation that never changes the state. *)
Lemma keeps_pure {A} (m : M S A) : (forall s, (m s).2 = s) -> keeps I m.
Proof. intros H s Hs. specialize (H s). destruct (m s) as [[a|e] s']; simpl in *; by subst. Qed.
End keeps_rules.

(** Goes through the structure of a computation and leaves its basic calls. *)
Ltac keeps_step :=
  match goal with
  | |- keeps _ (ret _) => apply keeps_ret
  | |- keeps _ (raise _) => apply keeps_raise
  | |- keeps _ (gets _) => apply keeps_gets
  | |- keeps _ (lift _) => apply keeps_lift
  | |- keeps _ (raise_when _ _) => apply keeps_raise_when
  | |- keeps _ (mbind _ _) => apply keeps_bind; [|intros ?]
  | |- keeps _ (attempt _ _) => apply keeps_attempt; [|intros ?]
  | |- keeps _ (let x := _ in _) => cbv zeta
  | |- keeps _ (if ?b then _ else _) => destruct b
  | |- keeps _ (let '(_, _) := ?p in _) => destruct p
  | |- keeps _ (match ?x with _ => _ end) => destruct x
  end.

Ltac keeps_walk := repeat keeps_step.

(** * What a computation returns, when it returns *)
Definition returns {S A} (m : M S A) (Q : A -> Prop) : Prop := forall s a s', m s = (Ok a, s') -> Q a.

Section returns_rules.
Context {S : Type}.

Lemma returns_ret {A} (a : A) (Q : A -> Prop) : Q a -> returns (@ret S A a) Q.
Proof. intros H s x s' [= <- _]. done. Qed.

Lemma returns_raise {A} e (Q : A -> Prop) : returns (@raise S A e) Q.
Proof. intros s x s' [=]. Qed.

Lemma returns_bind {A B} (m : M S A) (k : A -> M S B) P Q :
  returns m P -> (forall a, P a -> returns (k a) Q) -> returns (mbind m k) Q.
Proof.
  intros Hm Hk s b s'. unfold mbind. destruct (m s) as [[a|e] s1] eqn:E; [|done]. intros Hb. eapply Hk; [by eapply Hm|done].
Qed.

(** A test passed, or a pure computation that gave [a], is known to what follows. *)
Lemma returns_lift {A B} (r : result A) (k : A -> M S B) Q :
  (forall a, r = Ok a -> returns (k a) Q) -> returns (mbind (lift r) k) Q.
Proof. intros Hk s b s'. unfold mbind, lift. destruct r as [a|e]; [|done]. by apply Hk. Qed.

Lemma returns_when {B} c e (k : unit -> M S B) Q :
  (c = false -> returns (k tt) Q) -> returns (mbind (raise_when c e) k) Q.
Proof. intros Hk. apply returns_lift. intros [] H. apply Hk. by destruct c. Qed.

Lemma returns_any {A} (m : M S A) : returns m (fun _ => True).
Proof. by intros ???. Qed.

(** Two continuations that agree on what the first part returns give the same computation. *)
Lemma mbind_agree {A B} (m : M S A) (k k' : A -> M S B) P :
  returns m P -> (forall a, P a -> forall s, k a s = k' a s) -> forall s, mbind m k s = mbind m k' s.
Proof. intros Hm Hk s. unfold mbind. destruct (m s) as [[a|e] s1] eqn:E; [|done]. apply Hk. by eapply Hm. Qed.

Lemma lift_agree {A B} (r : result A) (k k' : A -> M S B) :
  (forall a, r = Ok a -> forall s, k a s = k' a s) -> forall s, mbind (lift r) k s = mbind (lift r) k' s.
Proof. intros Hk s. unfold mbind, lift. destruct r as [a|e]; [|done]. by apply Hk. Qed.

Lemma when_agree {B} c e (k k' : unit -> M S B) :
  (c = false -> forall s, k tt s = k' tt s) -> forall s, mbind (raise_when c e) k s = mbind (raise_when c e) k' s.
Proof. intros Hk. apply lift_agree. intros [] H. apply Hk. by destruct c. Qed.
End returns_rules.
