(* ===== verification/Store.v ===== *)
(** [response/orchestrator/store.py]: the SQLite response journal.

    The tables are lists of rows in rowid order; constraints and triggers are the checks the
    inserts and updates make, and [with self.db] is [transaction]: the body's tables are kept
    on commit and dropped when it raises.  The commit itself may fail: the store consumes one
    [fault] per transaction, which says whether the commit reports success, is lost, or is
    durable although an error is reported.  Files, locks and the SQL text are not modelled;
    instants are compared exactly (the column is a double, which separates the microseconds of
    any instant before the year 2242). *)

From S2P Require Import Prelude PyText PyNum PyTime PyNet PyJson Sha256 Policy Decision AuditLog Effects.

(** * Rows *)
Record Snapshot : Type := {
  s_response_id : string;
  s_command : Command;
  s_expires_at : string;
  s_state : lifecycle;
  s_transition_number : Z;
  s_adapter_reference : option string;
  s_authorized : bool;
  s_pending_operation : option string;
  s_operation_started_at : option string }.

Record record_row : Type := { row_id : string; row_command : Command; row_expires_at : string; row_snapshot : Snapshot }.
Record audit_row : Type := { a_id : string; a_response_id : string; a_number : Z; a_payload : AuditEvent }.
Record admission_row : Type := { ad_response_id : string; ad_policy_id : string; admitted_at : Z }.

Record Tables : Type := {
  t_records : list record_row;
  t_audit : list audit_row;
  t_intents : list string;
  t_admissions : list admission_row;
  t_exported : list string }.

Definition empty_tables : Tables :=
  {| t_records := []; t_audit := []; t_intents := []; t_admissions := []; t_exported := [] |}.

Inductive fault : Type := CommitOk | CommitLost | CommitAmbiguous.

Record Store : Type := {
  tables : Tables;
  claimed : bool;
  closed : bool;
  faults : list fault }.

(** * Reads *)
Fixpoint finite_val (v : val) : bool :=
  match v with
  | VNum (PFloat (S754_infinity _)) | VNum (PFloat S754_nan) => false
  | VList l => forallb finite_val l
  | VDict d => forallb (fun kv => finite_val kv.2) d
  | _ => true
  end.

(** [json.dumps(value, sort_keys=True, separators=(",", ":"), allow_nan=False)]. *)
Definition canonical (v : val) : result string :=
  if finite_val v then Ok (canonical_json v)
  else Err (ValueError "Out of range float values are not JSON compliant").

Definition audit_of (t : Tables) (response_id : string) : list audit_row :=
  List.filter (fun r => String.eqb (a_response_id r) response_id) (t_audit t).

Definition number_leb (a b : audit_row) : bool := a_number a <=? a_number b.

(** [SELECT payload FROM audit WHERE response_id=? ORDER BY transition_number]. *)
Definition store_events (t : Tables) (response_id : string) : list AuditEvent :=
  map a_payload (sort_by number_leb (audit_of t response_id)).

Definition store_latest (t : Tables) (response_id : string) : option AuditEvent := last (store_events t response_id).

(** [exclusive()]: nothing works on a closed store. *)
Definition exclusive {A} (m : M Store A) : M Store A :=
  let! is_closed := gets closed in
  raise_when is_closed (RuntimeError "response store is closed") ;;! m.

Definition query {A} (f : Tables -> result A) : M Store A :=
  exclusive (fun s => (f (tables s), s)).

(** [with self.exclusive(), self.db: body]. *)
Definition transaction {A} (body : Tables -> result (A * Tables)) : M Store A :=
  exclusive (fun s =>
    let next t := {| tables := t; claimed := claimed s; closed := closed s; faults := tl (faults s) |} in
    match body (tables s) with
    | Err e => (Err e, s)
    | Ok (a, t) =>
        match hd CommitOk (faults s) with
        | CommitOk => (Ok a, next t)
        | CommitLost => (Err (OperationalError "commit failed"), next (tables s))
        | CommitAmbiguous => (Err (OperationalError "commit outcome unknown"), next t)
        end
    end).

(** * Writes *)
Definition set_intents (t : Tables) (x : list string) : Tables :=
  {| t_records := t_records t; t_audit := t_audit t; t_intents := x; t_admissions := t_admissions t; t_exported := t_exported t |}.
Definition set_audit (t : Tables) (x : list audit_row) : Tables :=
  {| t_records := t_records t; t_audit := x; t_intents := t_intents t; t_admissions := t_admissions t; t_exported := t_exported t |}.
Definition set_admissions (t : Tables) (x : list admission_row) : Tables :=
  {| t_records := t_records t; t_audit := t_audit t; t_intents := t_intents t; t_admissions := x; t_exported := t_exported t |}.
Definition set_records (t : Tables) (x : list record_row) : Tables :=
  {| t_records := x; t_audit := t_audit t; t_intents := t_intents t; t_admissions := t_admissions t; t_exported := t_exported t |}.
Definition set_exported (t : Tables) (x : list string) : Tables :=
  {| t_records := t_records t; t_audit := t_audit t; t_intents := t_intents t; t_admissions := t_admissions t; t_exported := x |}.

(** [INSERT INTO apply_intents]: the primary key refuses a second row. *)
Definition insert_intent (t : Tables) (response_id : string) : result Tables :=
  if str_in response_id (t_intents t) then Err (IntegrityError "UNIQUE constraint failed: apply_intents.response_id")
  else Ok (set_intents t (t_intents t ++ [response_id])).

(** [INSERT INTO audit], with its primary key and its UNIQUE(response_id, transition_number). *)
Definition insert_audit (t : Tables) (row : audit_row) : result Tables :=
  raise_if (existsb (fun r => String.eqb (a_id r) (a_id row)) (t_audit t))
    (IntegrityError "UNIQUE constraint failed: audit.id") ;;?
  raise_if (existsb (fun r => String.eqb (a_response_id r) (a_response_id row) && (a_number r =? a_number row)) (t_audit t))
    (IntegrityError "UNIQUE constraint failed: audit.response_id, audit.transition_number") ;;?
  Ok (set_audit t (t_audit t ++ [row])).

(** [INSERT OR IGNORE INTO admissions]. *)
Definition _record_admission (t : Tables) (e : AuditEvent) : result Tables :=
  let? admitted_at := instant_of (ev_timestamp e) in
  if existsb (fun r => String.eqb (ad_response_id r) (ev_response_id e)) (t_admissions t) then Ok t
  else Ok (set_admissions t (t_admissions t ++
    [{| ad_response_id := ev_response_id e; ad_policy_id := ev_policy_id e; admitted_at := admitted_at |}])).

(** [INSERT INTO records ... ON CONFLICT(id) DO UPDATE], behind the trigger that keeps the
    command and the expiry. *)
Fixpoint upsert_row (row : record_row) (rows : list record_row) : result (list record_row) :=
  match rows with
  | [] => Ok [row]
  | r :: rest =>
      if String.eqb (row_id r) (row_id row) then
        raise_if (negb (String.eqb (canonical_json (VDict (command_mapping_of (row_command r))))
                          (canonical_json (VDict (command_mapping_of (row_command row)))))
                  || negb (String.eqb (row_expires_at r) (row_expires_at row)))
          (IntegrityError "response input is immutable") ;;?
        Ok (row :: rest)
      else let? rest' := upsert_row row rest in Ok (r :: rest')
  end.

Definition snapshot_val (s : Snapshot) : val :=
  VDict [("response_id", VStr (s_response_id s)); ("command", VDict (command_mapping_of (s_command s)));
    ("expires_at", VStr (s_expires_at s)); ("state", VStr (state_text (s_state s)));
    ("transition_number", VInt (s_transition_number s));
    ("adapter_reference", opt_text_val (s_adapter_reference s)); ("authorized", VBool (s_authorized s));
    ("pending_operation", opt_text_val (s_pending_operation s));
    ("operation_started_at", opt_text_val (s_operation_started_at s))].

Definition upsert_record (t : Tables) (record : Snapshot) : result Tables :=
  let? _ := canonical (VDict (command_mapping_of (s_command record))) in
  let? _ := canonical (snapshot_val record) in
  let? rows := upsert_row {| row_id := s_response_id record; row_command := s_command record;
    row_expires_at := s_expires_at record; row_snapshot := record |} (t_records t) in
  Ok (set_records t rows).

(** The record's state and number are those of its latest event. *)
Definition matches_latest (t : Tables) (record : Snapshot) : bool :=
  match store_latest t (s_response_id record) with
  | None => false
  | Some e => bool_decide (ev_state e = s_state record) && (transition_number e =? s_transition_number record)
  end.

(** The first statement of [checkpoint]: a record that announces an apply claims it. *)
Definition checkpoint_intent (record : Snapshot) (event : option AuditEvent) (t : Tables) : result Tables :=
  if negb (is_present event) && bool_decide (s_pending_operation record = Some "apply") then
    try_except (insert_intent t (s_response_id record))
      (fun e => match e with IntegrityError _ => true | _ => false end)
      (fun _ => Err (CommandRejected "application already attempted; recovery required"))
  else Ok t.

Definition checkpoint_event (record : Snapshot) (event : option AuditEvent) (t : Tables) : result Tables :=
  match event with
  | None => Ok t
  | Some e =>
      let history := store_events t (s_response_id record) in
      validate_transition e history ;;?
      let? _ := canonical (event_val e) in
      let? t := insert_audit t {| a_id := audit_event_id e; a_response_id := s_response_id record;
        a_number := transition_number e; a_payload := e |} in
      if transition_number e =? 1 then _record_admission t e else Ok t
  end.

Definition checkpoint_body (record : Snapshot) (event : option AuditEvent) (t : Tables) : result (unit * Tables) :=
  let? t := checkpoint_intent record event t in
  let? t := checkpoint_event record event t in
  raise_if (negb (matches_latest t record)) (CommandRejected "checkpoint must match the latest audit event") ;;?
  let? t := upsert_record t record in
  Ok (tt, t).

Definition checkpoint (record : Snapshot) (event : option AuditEvent) : M Store unit :=
  transaction (checkpoint_body record event).

Definition claim : M Store unit :=
  exclusive (let! c := gets claimed in
    raise_when c (RuntimeError "store already belongs to an orchestrator") ;;!
    modify (fun s => {| tables := tables s; claimed := true; closed := closed s; faults := faults s |})).

Definition load_tables (t : Tables) : result (list Snapshot) :=
  let records := map row_snapshot (t_records t) in
  raise_if (negb (forallb (matches_latest t) records))
    (CommandRejected "response checkpoint differs from its audit history") ;;?
  Ok records.

Definition load : M Store (list Snapshot) := query load_tables.

Definition count_admissions (t : Tables) (policy_id : string) (since : Z) : Z :=
  Z.of_nat (length (List.filter (fun r => String.eqb (ad_policy_id r) policy_id && (since <? admitted_at r)) (t_admissions t))).

Definition store_requested_since (policy_id : string) (since : Z) : M Store Z :=
  query (fun t => Ok (count_admissions t policy_id since)).

Definition unexported_rows (t : Tables) : list audit_row :=
  List.filter (fun r => negb (str_in (a_id r) (t_exported t))) (t_audit t).

(** [LIMIT ?]: a negative limit is none. *)
Definition limited {A} (limit : Z) (l : list A) : list A := if limit <? 0 then l else take (Z.to_nat limit) l.

Definition unexported_events (limit : Z) : M Store (list (string * AuditEvent)) :=
  query (fun t => Ok (map (fun r => (a_id r, a_payload r)) (limited limit (unexported_rows t)))).

Definition mark_exported (audit_id : string) : M Store unit :=
  transaction (fun t => Ok (tt, if str_in audit_id (t_exported t) then t else set_exported t (t_exported t ++ [audit_id]))).

Definition store_claim_apply (response_id : string) : M Store unit :=
  raise (RuntimeError "apply intent must be committed atomically through checkpoint").
Definition store_append (e : AuditEvent) : M Store unit :=
  raise (RuntimeError "response audit must be committed atomically through checkpoint").
Definition store_save_command (response_id : string) (c : Command) : M Store unit :=
  raise (RuntimeError "response command must be committed atomically through checkpoint").

Definition row_leb (a b : record_row) : bool := str_leb (row_id a) (row_id b).

Definition store_commands : M Store (list (string * Command)) :=
  query (fun t => Ok (map (fun r => (row_id r, row_command r)) (sort_by row_leb (t_records t)))).

Definition close : M Store unit :=
  modify (fun s => {| tables := tables s; claimed := claimed s; closed := true; faults := faults s |}).

(** [_backfill_admissions]: an empty admissions table is filled from the first events. *)
Definition backfill_body (t : Tables) : result (unit * Tables) :=
  match t_admissions t with
  | [] =>
      let? t := foldR (fun t r => _record_admission t (a_payload r)) t
        (List.filter (fun r => a_number r =? 1) (t_audit t)) in
      Ok (tt, t)
  | _ => Ok (tt, t)
  end.

(** [SQLiteResponseStore(path)] on the tables the file holds. *)
Definition open_store (t : Tables) (f : list fault) : result unit * Store :=
  transaction backfill_body {| tables := t; claimed := false; closed := false; faults := f |}.

(** * What a store always satisfies *)
Definition history (t : Tables) (response_id : string) : list AuditEvent := map a_payload (audit_of t response_id).

Definition row_coherent (r : audit_row) : Prop :=
  a_id r = audit_event_id (a_payload r) /\ a_response_id r = ev_response_id (a_payload r) /\
  a_number r = transition_number (a_payload r).

Definition record_coherent (t : Tables) (r : record_row) : Prop :=
  row_id r = s_response_id (row_snapshot r) /\ row_command r = s_command (row_snapshot r) /\
  row_expires_at r = s_expires_at (row_snapshot r) /\
  exists e, last (history t (row_id r)) = Some e /\
    ev_state e = s_state (row_snapshot r) /\ transition_number e = s_transition_number (row_snapshot r).

Record store_wf (t : Tables) : Prop := {
  wf_rows : Forall row_coherent (t_audit t);
  wf_history : forall rid, valid_history rid (history t rid);
  wf_ids : NoDup (map a_id (t_audit t));
  wf_intents : NoDup (t_intents t);
  wf_record_ids : NoDup (map row_id (t_records t));
  wf_records : Forall (record_coherent t) (t_records t) }.

(** A checkpoint is about one response. *)
Definition coherent_checkpoint (record : Snapshot) (event : option AuditEvent) : Prop :=
  forall e, event = Some e -> ev_response_id e = s_response_id record.


Lemma valid_history_sorted rid rows :
  Forall row_coherent rows -> valid_history rid (map a_payload rows) ->
  StronglySorted (fun a b => number_leb a b = true) rows.
Proof.
  intros Hc Hv. assert (forall i r, rows !! i = Some r -> a_number r = Z.of_nat i + 1) as Hn.
  { intros i r Hi. rewrite Forall_lookup in Hc. destruct (Hc i r Hi) as (_ & _ & ->).
    apply (valid_history_numbers _ _ _ _ Hv). rewrite list_lookup_fmap, Hi. done. }
  assert (exists k, forall i r, rows !! i = Some r -> a_number r = Z.of_nat i + k) as [k Hk] by by exists 1.
  clear Hn Hc Hv. revert k Hk. induction rows as [|x rows IH]; intros k Hk; constructor.
  - apply (IH (k + 1)). intros i r Hi. rewrite (Hk (S i) r Hi). lia.
  - apply Forall_lookup. intros i r Hi. unfold number_leb. apply Z.leb_le.
    rewrite (Hk 0%nat x), (Hk (S i) r Hi) by done. lia.
Qed.

Lemma audit_of_coherent t rid : Forall row_coherent (t_audit t) -> Forall row_coherent (audit_of t rid).
Proof.
  intros H. apply Forall_forall. intros r Hr. rewrite Forall_forall in H. apply H.
  unfold audit_of in Hr. apply list_elem_of_In, filter_In in Hr as [Hr _]. by apply list_elem_of_In.
Qed.

Lemma store_events_sorted t rid :
  Forall row_coherent (t_audit t) -> valid_history rid (history t rid) -> store_events t rid = history t rid.
Proof.
  intros Hc Hv. unfold store_events, history. f_equal. apply sort_by_id.
  eapply valid_history_sorted; [by apply audit_of_coherent|exact Hv].
Qed.

Lemma store_events_history t rid : store_wf t -> store_events t rid = history t rid.
Proof. intros Hwf. apply store_events_sorted; apply Hwf. Qed.

Lemma wf_empty : store_wf empty_tables.
Proof. split; simpl; constructor. Qed.

(** ** What a successful checkpoint does *)
Definition announces_apply (record : Snapshot) (event : option AuditEvent) : bool :=
  negb (is_present event) && bool_decide (s_pending_operation record = Some "apply").

Definition row_of (record : Snapshot) (e : AuditEvent) : audit_row :=
  {| a_id := audit_event_id e; a_response_id := s_response_id record; a_number := transition_number e; a_payload := e |}.

Definition rows_of (record : Snapshot) (event : option AuditEvent) : list audit_row :=
  match event with
  | Some e => [row_of record e]
  | None => []
  end.

Lemma checkpoint_intent_Ok record event t t' :
  checkpoint_intent record event t = Ok t' ->
  t_intents t' = t_intents t ++ (if announces_apply record event then [s_response_id record] else []) /\
  (announces_apply record event = true -> s_response_id record ∉ t_intents t) /\
  t_records t' = t_records t /\ t_audit t' = t_audit t /\ t_admissions t' = t_admissions t /\ t_exported t' = t_exported t.
Proof.
  unfold checkpoint_intent. fold (announces_apply record event). destruct (announces_apply record event).
  - intros H. apply try_except_Ok in H as [H|(e & _ & _ & H)]; [|discriminate].
    unfold insert_intent in H. destruct (str_in _ _) eqn:E; [discriminate|]. injection H as <-. simpl.
    repeat split; try done. intros _ Hin. apply str_in_elem in Hin. congruence.
  - intros [= <-]. by rewrite app_nil_r.
Qed.

Lemma record_admission_Ok t e t' : _record_admission t e = Ok t' ->
  t_records t' = t_records t /\ t_audit t' = t_audit t /\ t_intents t' = t_intents t /\ t_exported t' = t_exported t.
Proof. unfold _record_admission. intros H. ok_inv; by subst. Qed.

Lemma checkpoint_event_Ok record event t t' :
  checkpoint_event record event t = Ok t' ->
  t_audit t' = t_audit t ++ rows_of record event /\
  (forall e, event = Some e -> validate_transition e (store_events t (s_response_id record)) = Ok tt /\
     audit_event_id e ∉ map a_id (t_audit t)) /\
  t_records t' = t_records t /\ t_intents t' = t_intents t /\ t_exported t' = t_exported t.
Proof.
  unfold checkpoint_event. destruct event as [e|]; [|intros [= <-]; by rewrite app_nil_r].
  intros H. apply rbind_Ok in H as ([] & Hv & H). apply rbind_Ok in H as (_ & _ & H).
  apply rbind_Ok in H as (t1 & Hi & H). unfold insert_audit in Hi. rewrite !raise_seq_Ok in Hi.
  destruct Hi as (Hid & _ & [= <-]).
  assert (t_audit t' = t_audit t ++ [row_of record e] /\ t_records t' = t_records t /\
    t_intents t' = t_intents t /\ t_exported t' = t_exported t) as (-> & -> & -> & ->).
  { destruct (transition_number e =? 1); [|by injection H as <-].
    by apply record_admission_Ok in H as (-> & -> & -> & ->). }
  split; [done|]. split; [|done]. intros ? [= <-]. split; [done|].
  intros Hin. apply list_elem_of_fmap in Hin as (r & Hr & Hin). apply not_true_iff_false in Hid. apply Hid.
  apply existsb_exists. exists r. split; [by apply list_elem_of_In|]. simpl. by rewrite Hr, String.eqb_refl.
Qed.

Lemma upsert_row_Ok row rows rows' :
  upsert_row row rows = Ok rows' ->
  row ∈ rows' /\ (forall r, r ∈ rows' -> r = row \/ r ∈ rows /\ (NoDup (map row_id rows) -> row_id r <> row_id row)) /\
  (forall r, r ∈ rows -> row_id r <> row_id row -> r ∈ rows') /\
  (map row_id rows' = map row_id rows \/ map row_id rows' = map row_id rows ++ [row_id row] /\ row_id row ∉ map row_id rows).
Proof.
  revert rows'. induction rows as [|r rows IH]; intros rows' H; simpl in H.
  - injection H as <-. repeat split; try set_solver.
  - destruct (String.eqb_spec (row_id r) (row_id row)) as [E|E].
    + apply raise_seq_Ok in H as [_ [= <-]]. split; [set_solver|]. split; [|split].
      * intros r' [->|Hr']%elem_of_cons; [by left|right]. split; [set_solver|].
        intros [Hnin _]%NoDup_cons Heq. apply Hnin. rewrite E, <- Heq. by apply list_elem_of_fmap_2.
      * intros r' [->|Hr']%elem_of_cons; [done|set_solver].
      * left. simpl. by rewrite E.
    + apply rbind_Ok in H as (rest & H & [= <-]). destruct (IH _ H) as (H1 & H2 & H3 & H4).
      split; [set_solver|]. split; [|split].
      * intros r' [->|Hr']%elem_of_cons; [right; set_solver|]. destruct (H2 _ Hr') as [->|[? Hne]]; [by left|right].
        split; [set_solver|]. intros [_ Hnd]%NoDup_cons. by apply Hne.
      * intros r' [->|Hr']%elem_of_cons; [set_solver|]. intros. apply list_elem_of_further. by apply H3.
      * simpl. destruct H4 as [H4|[H4 Hn]]; rewrite H4; [by left|right]. split; [done|]. set_solver.
Qed.

Definition record_row_of (record : Snapshot) : record_row :=
  {| row_id := s_response_id record; row_command := s_command record; row_expires_at := s_expires_at record;
     row_snapshot := record |}.

Lemma checkpoint_body_Ok record event t t' :
  checkpoint_body record event t = Ok (tt, t') ->
  t_audit t' = t_audit t ++ rows_of record event /\
  t_intents t' = t_intents t ++ (if announces_apply record event then [s_response_id record] else []) /\
  (announces_apply record event = true -> s_response_id record ∉ t_intents t) /\
  (forall e, event = Some e -> validate_transition e (store_events t (s_response_id record)) = Ok tt /\
     audit_event_id e ∉ map a_id (t_audit t)) /\
  upsert_row (record_row_of record) (t_records t) = Ok (t_records t') /\
  matches_latest t' record = true /\ t_exported t' = t_exported t.
Proof.
  unfold checkpoint_body. intros H.
  apply rbind_Ok in H as (t1 & H1 & H). apply rbind_Ok in H as (t2 & H2 & H).
  apply raise_seq_Ok in H as [Hm H]. apply rbind_Ok in H as (t3 & H3 & [= <-]).
  apply checkpoint_intent_Ok in H1 as (I1 & I2 & I3 & I4 & I5 & I6).
  apply checkpoint_event_Ok in H2 as (E1 & E2 & E3 & E4 & E5).
  unfold upsert_record in H3. apply rbind_Ok in H3 as (? & _ & H3). apply rbind_Ok in H3 as (? & _ & H3).
  apply rbind_Ok in H3 as (rows & Hrows & [= <-]).
  assert (store_events t1 (s_response_id record) = store_events t (s_response_id record)) as Hse.
  { unfold store_events, audit_of. by rewrite I4. }
  simpl. rewrite E1, E4, E5, I1, I4, I6. rewrite E3, I3 in Hrows. rewrite Hse, I4 in E2.
  split; [done|]. split; [done|]. split; [done|]. split; [done|]. split; [done|]. split; [|done].
  bool_inv. exact Hm.
Qed.

Lemma history_app t t' rows rid :
  t_audit t' = t_audit t ++ rows ->
  history t' rid = history t rid ++ map a_payload (List.filter (fun r => String.eqb (a_response_id r) rid) rows).
Proof. intros H. unfold history, audit_of. by rewrite H, List.filter_app, map_app. Qed.

Lemma history_rows_of t t' record event rid :
  t_audit t' = t_audit t ++ rows_of record event ->
  history t' rid = history t rid ++
    (if decide (rid = s_response_id record) then option_list event else []).
Proof.
  intros H. rewrite (history_app _ _ _ _ H). f_equal. destruct event as [e|]; simpl; [|by destruct (decide _)].
  destruct (String.eqb_spec (s_response_id record) rid), (decide (rid = s_response_id record)); by subst.
Qed.

Lemma checkpoint_body_wf record event t t' :
  store_wf t -> coherent_checkpoint record event -> checkpoint_body record event t = Ok (tt, t') -> store_wf t'.
Proof.
  intros Hwf Hco H. apply checkpoint_body_Ok in H as (Ha & Hi & Hni & Hev & Hup & Hm & Hex).
  pose proof (history_rows_of _ _ _ _ (s_response_id record) Ha) as Hself.
  assert (Forall row_coherent (t_audit t')) as Hrows.
  { rewrite Ha. apply Forall_app. split; [apply Hwf|]. destruct event as [e|]; simpl; [|constructor].
    repeat constructor; simpl. symmetry. by apply Hco. }
  assert (forall rid, valid_history rid (history t' rid)) as Hhist.
  { intros rid. rewrite (history_rows_of _ _ _ _ _ Ha).
    destruct (decide (rid = s_response_id record)) as [->|]; [|rewrite app_nil_r; apply (wf_history t Hwf)].
    destruct event as [e|]; simpl; [|rewrite app_nil_r; apply (wf_history t Hwf)].
    destruct (Hev e eq_refl) as [Hv _]. rewrite (store_events_history _ _ Hwf) in Hv.
    constructor; [apply (wf_history t Hwf)|by apply Hco|done]. }
  destruct (upsert_row_Ok _ _ _ Hup) as (Hin & Hold & Hkeep & Hids).
  split; [done|done|..].
  - rewrite Ha, map_app. destruct event as [e|]; simpl; [|rewrite app_nil_r; apply Hwf].
    apply NoDup_app. destruct (Hev e eq_refl) as [_ Hn]. pose proof (wf_ids t Hwf).
    split; [done|]. split; [set_solver|apply NoDup_singleton].
  - rewrite Hi. destruct (announces_apply record event); [|rewrite app_nil_r; apply Hwf].
    specialize (Hni eq_refl). pose proof (wf_intents t Hwf). apply NoDup_app. split; [done|].
    split; [set_solver|apply NoDup_singleton].
  - pose proof (wf_record_ids t Hwf) as Hnd. destruct Hids as [->|[-> Hn]]; [done|].
    apply NoDup_app. split; [done|]. split; [set_solver|apply NoDup_singleton].
  - apply Forall_forall. intros r Hr. destruct (Hold r Hr) as [->|[Hr' Hne]].
    + repeat split; try done. unfold matches_latest, store_latest in Hm. simpl.
      rewrite (store_events_sorted t' _ Hrows (Hhist _)) in Hm.
      destruct (last (history t' (s_response_id record))) as [e|]; [|done]. bool_inv. by exists e.
    + pose proof (wf_records t Hwf) as Hrec. rewrite Forall_forall in Hrec.
      destruct (Hrec r Hr') as (E1 & E2 & E3 & e & He & E4 & E5). repeat split; try done. exists e.
      rewrite (history_rows_of _ _ _ _ _ Ha). rewrite decide_False; [by rewrite app_nil_r|].
      intros E. by apply Hne; [apply Hwf|].
Qed.

(** ** Tables only grow *)
Definition same_input (r r' : record_row) : Prop :=
  row_id r' = row_id r /\ row_expires_at r' = row_expires_at r /\
  canonical_json (VDict (command_mapping_of (row_command r'))) = canonical_json (VDict (command_mapping_of (row_command r))).

Record extends (t t' : Tables) : Prop := {
  ext_audit : exists rows, t_audit t' = t_audit t ++ rows;
  ext_intents : exists ids, t_intents t' = t_intents t ++ ids;
  ext_exported : exists ids, t_exported t' = t_exported t ++ ids;
  ext_records : forall r, r ∈ t_records t -> exists r', r' ∈ t_records t' /\ same_input r r' }.

Lemma extends_refl t : extends t t.
Proof. split; try (exists []; by rewrite app_nil_r). intros r Hr. by exists r. Qed.

Lemma extends_trans t1 t2 t3 : extends t1 t2 -> extends t2 t3 -> extends t1 t3.
Proof.
  intros [[a1 A1] [b1 B1] [c1 C1] D1] [[a2 A2] [b2 B2] [c2 C2] D2]. split.
  - exists (a1 ++ a2). by rewrite A2, A1, app_assoc.
  - exists (b1 ++ b2). by rewrite B2, B1, app_assoc.
  - exists (c1 ++ c2). by rewrite C2, C1, app_assoc.
  - intros r Hr. destruct (D1 r Hr) as (r1 & H1 & E1 & E2 & E3).
    destruct (D2 r1 H1) as (r2 & H2 & F1 & F2 & F3). exists r2. split; [done|]. split; [|split]; congruence.
Qed.

Lemma upsert_row_extends row rows rows' r :
  upsert_row row rows = Ok rows' -> r ∈ rows -> exists r', r' ∈ rows' /\ same_input r r'.
Proof.
  revert rows'. induction rows as [|x rows IH]; intros rows' H Hr; cbn [upsert_row] in H; [set_solver|].
  destruct (String.eqb_spec (row_id x) (row_id row)) as [E|E].
  - apply raise_seq_Ok in H as [Hc [= <-]]. bool_inv.
    apply elem_of_cons in Hr as [->|Hr]; [|exists r; split; [set_solver|done]].
    exists row. split; [set_solver|]. split; [done|]. split; congruence.
  - apply rbind_Ok in H as (rest & H & [= <-]). apply elem_of_cons in Hr as [->|Hr].
    { exists x. split; [set_solver|done]. }
    destruct (IH _ H Hr) as (r' & ? & ?). exists r'. split; [set_solver|done].
Qed.

Lemma checkpoint_body_extends record event t t' : checkpoint_body record event t = Ok (tt, t') -> extends t t'.
Proof.
  intros H. apply checkpoint_body_Ok in H as (Ha & Hi & _ & _ & Hup & _ & Hex). split.
  - by eexists.
  - by eexists.
  - exists []. by rewrite Hex, app_nil_r.
  - intros r Hr. by eapply upsert_row_extends.
Qed.

(** ** Transactions and runs *)
Lemma transaction_cases {A} (body : Tables -> result (A * Tables)) s r s' :
  transaction body s = (r, s') ->
  (forall a, r = Ok a -> body (tables s) = Ok (a, tables s')) /\
  (tables s' = tables s \/ exists a, body (tables s) = Ok (a, tables s')) /\
  ((forall a t, body (tables s) <> Ok (a, t)) -> s' = s) /\ closed s' = closed s.
Proof.
  unfold transaction, exclusive, mbind, gets, raise_when, lift, raise_if.
  destruct (closed s) eqn:Ec; [intros [= <- <-]; repeat split; eauto; discriminate|].
  destruct (body (tables s)) as [[a t]|e] eqn:Eb.
  - destruct (hd CommitOk (faults s)); intros [= <- <-]; simpl; (repeat split; [intros ? [=]; try congruence|..]); eauto.
    all: intros Hn; by destruct (Hn a t).
  - intros [= <- <-]. repeat split; eauto. discriminate.
Qed.

Inductive store_op : Type :=
| OpCheckpoint (record : Snapshot) (event : option AuditEvent)
| OpMarkExported (audit_id : string)
| OpClaim
| OpClose.

Definition run_op (op : store_op) : M Store unit :=
  match op with
  | OpCheckpoint record event => checkpoint record event
  | OpMarkExported audit_id => mark_exported audit_id
  | OpClaim => claim
  | OpClose => close
  end.

(** The states a store goes through: every operation, whatever its result. *)
Fixpoint run_ops (ops : list store_op) (s : Store) : Store :=
  match ops with
  | [] => s
  | op :: r => run_ops r (run_op op s).2
  end.

Definition coherent_op (op : store_op) : Prop :=
  match op with
  | OpCheckpoint record event => coherent_checkpoint record event
  | _ => True
  end.

Lemma claim_tables s : tables (claim s).2 = tables s.
Proof.
  unfold claim, exclusive, mbind, gets, raise_when, lift, raise_if, modify.
  by destruct (closed s), (claimed s).
Qed.

Lemma run_op_cases op s :
  tables (run_op op s).2 = tables s \/
  match op with
  | OpCheckpoint record event => checkpoint_body record event (tables s) = Ok (tt, tables (run_op op s).2)
  | OpMarkExported id => id ∉ t_exported (tables s) /\
      tables (run_op op s).2 = set_exported (tables s) (t_exported (tables s) ++ [id])
  | _ => False
  end.
Proof.
  destruct op as [record event|id| |]; simpl; [| |left; apply claim_tables|by left].
  - unfold checkpoint. destruct (transaction _ s) as [r s'] eqn:E.
    apply transaction_cases in E as (_ & [?|[[] ?]] & _); [by left|by right].
  - unfold mark_exported. destruct (transaction _ s) as [r s'] eqn:E.
    apply transaction_cases in E as (_ & [?|[[] H]] & _); [by left|]. simpl in *.
    destruct (str_in id (t_exported (tables s))) eqn:Ei; injection H as H; [by left|right].
    split; [|done]. rewrite <- str_in_elem. congruence.
Qed.

Lemma set_exported_wf t x : store_wf t -> store_wf (set_exported t x).
Proof. intros [H1 H2 H3 H4 H5 H6]. by split. Qed.

Lemma run_op_wf op s : coherent_op op -> store_wf (tables s) -> store_wf (tables (run_op op s).2).
Proof.
  intros Hco Hwf. destruct (run_op_cases op s) as [->|H]; [done|]. destruct op; simpl in *; try done.
  - by eapply checkpoint_body_wf.
  - destruct H as [_ ->]. by apply set_exported_wf.
Qed.

Lemma run_op_extends op s : extends (tables s) (tables (run_op op s).2).
Proof.
  destruct (run_op_cases op s) as [->|H]; [apply extends_refl|]. destruct op; simpl in *; try done.
  - by eapply checkpoint_body_extends.
  - destruct H as [_ ->]. split; simpl; [by exists []; rewrite app_nil_r..|by eexists|].
    intros r Hr. by exists r.
Qed.

Lemma run_ops_wf ops s : Forall coherent_op ops -> store_wf (tables s) -> store_wf (tables (run_ops ops s)).
Proof.
  revert s. induction ops as [|op ops IH]; intros s Hco Hwf; [done|]. inversion_clear Hco. simpl.
  apply IH; [done|]. by apply run_op_wf.
Qed.

Lemma run_ops_extends ops s : extends (tables s) (tables (run_ops ops s)).
Proof.
  revert s. induction ops as [|op ops IH]; intros s; [apply extends_refl|]. simpl.
  eapply extends_trans; [apply run_op_extends|apply IH].
Qed.

(** How many checkpoints of a run announced an apply of [rid] and reported success. *)
Fixpoint successful_claims (rid : string) (ops : list store_op) (s : Store) : nat :=
  match ops with
  | [] => 0
  | op :: r =>
      let '(res, s') := run_op op s in
      match op with
      | OpCheckpoint record event =>
          if is_ok res && announces_apply record event && String.eqb (s_response_id record) rid then 1 else 0
      | _ => 0
      end + successful_claims rid r s'
  end%nat.

Lemma checkpoint_Ok record event s u s' :
  checkpoint record event s = (Ok u, s') -> checkpoint_body record event (tables s) = Ok (tt, tables s').
Proof. intros H. apply transaction_cases in H as (H & _). destruct u. by apply H. Qed.

Lemma claims_after_intent rid ops s : rid ∈ t_intents (tables s) -> successful_claims rid ops s = 0%nat.
Proof.
  revert s. induction ops as [|op ops IH]; intros s Hin; simpl; [done|].
  pose proof (run_op_extends op s) as [_ [ids Hids] _ _].
  destruct (run_op op s) as [res s'] eqn:E. simpl in Hids.
  rewrite (IH s') by (rewrite Hids; set_solver). destruct op as [record event|?| |]; try done.
  destruct res as [[]|]; simpl; [|done]. simpl in E. apply checkpoint_Ok, checkpoint_body_Ok in E as (_ & _ & Hn & _).
  destruct (announces_apply record event); [|done]. specialize (Hn eq_refl). simpl.
  destruct (String.eqb_spec (s_response_id record) rid) as [<-|]; [done|done].
Qed.
