(* ===== verification/SqliteAudit.v ===== *)
(** [response/orchestrator/sqlite_audit.py]: the durable audit ledger over SQLite, and its refinement
    of the in-memory ledger of [AuditLog.v].

    A row of the audit table is its event: the key columns are the event's own fields. *)

From S2P Require Import Prelude PyText PyNum PyTime PyJson JsonText Sha256 Policy Decision AuditLog Effects Store.

Record AuditTables : Type := {
  q_commands : list (string * (string * Command));
  q_intents : list string;
  q_audit : list AuditEvent }.

Record SqliteLedger : Type := { q_tables : AuditTables; q_faults : list fault }.

Definition empty_audit_tables : AuditTables := {| q_commands := []; q_intents := []; q_audit := [] |}.

(** * Reads *)
Definition rows_for (t : AuditTables) (rid : string) : list AuditEvent :=
  List.filter (fun e => String.eqb (ev_response_id e) rid) (q_audit t).

Definition event_number_leb (a b : AuditEvent) : bool := transition_number a <=? transition_number b.

Definition sqlite_events (t : AuditTables) (rid : string) : list AuditEvent := sort_by event_number_leb (rows_for t rid).

Definition sqlite_latest (t : AuditTables) (rid : string) : option AuditEvent := last (sqlite_events t rid).

Definition sqlite_requested_since (t : AuditTables) (policy_id : string) (since : Z) : result Z :=
  foldR (fun n e =>
      if String.eqb (ev_policy_id e) policy_id
      then let? at_ := instant_of (ev_timestamp e) in Ok (if since <? at_ then n + 1 else n)
      else Ok n)
    0 (List.filter (fun e => transition_number e =? 1) (q_audit t)).

Definition command_row_leb (a b : string * (string * Command)) : bool := str_leb a.1 b.1.

Definition sqlite_commands (t : AuditTables) : list (string * Command) :=
  map (fun r => (r.1, r.2.2)) (sort_by command_row_leb (q_commands t)).

Definition response_leb (a b : AuditEvent) : bool := str_leb (ev_response_id a) (ev_response_id b).

(** [a.transition_number = (SELECT MAX(b.transition_number) ...)]. *)
Definition is_latest_row (t : AuditTables) (e : AuditEvent) : bool :=
  forallb (fun x => event_number_leb x e) (rows_for t (ev_response_id e)).

Definition closed_state (s : lifecycle) : bool := bool_decide (s = EXPIRED) || bool_decide (s = ROLLED_BACK).

(** The entries of [recovery_queue], as the latest events they are made from. *)
Definition recovery_events (t : AuditTables) : list AuditEvent :=
  List.filter (fun e => negb (closed_state (ev_state e)))
    (sort_by response_leb
      (concat (map (fun rid => List.filter (is_latest_row t) (rows_for t rid)) (q_intents t)))).

Definition recovery_entry (e : AuditEvent) : val :=
  VDict [("response_id", VStr (ev_response_id e)); ("state", VStr (state_text (ev_state e)));
    ("target", target_val (ev_target e)); ("action", VStr (ev_action e)); ("expires_at", VStr (ev_expires_at e));
    ("automatic_replay_allowed", VBool false); ("requires_peer_reconciliation", VBool true); ("latest_audit", event_val e)].

Definition recovery_queue (t : AuditTables) : list val := map recovery_entry (recovery_events t).

(** * Writes *)
Definition sqlite_transaction (body : AuditTables -> result AuditTables) : M SqliteLedger unit :=
  fun s =>
    let next t := {| q_tables := t; q_faults := tl (q_faults s) |} in
    match body (q_tables s) with
    | Err e => (Err e, s)
    | Ok t =>
        match hd CommitOk (q_faults s) with
        | CommitOk => (Ok tt, next t)
        | CommitLost => (Err (OperationalError "commit failed"), next (q_tables s))
        | CommitAmbiguous => (Err (OperationalError "commit outcome unknown"), next t)
        end
    end.

Definition save_command_body (rid : string) (c : Command) (body : string) (t : AuditTables) : result AuditTables :=
  match assoc rid (q_commands t) with
  | Some (old, _) => raise_if (negb (String.eqb old body)) (CommandRejected "recovery command is immutable") ;;? Ok t
  | None => Ok {| q_commands := q_commands t ++ [(rid, (body, c))]; q_intents := q_intents t; q_audit := q_audit t |}
  end.

Definition sqlite_save_command (rid : string) (c : Command) : M SqliteLedger unit :=
  let! body := lift (canonical (VDict (command_mapping_of c))) in sqlite_transaction (save_command_body rid c body).

Definition claim_apply_body (rid : string) (t : AuditTables) : result AuditTables :=
  raise_if (negb (bool_decide (option_map ev_state (sqlite_latest t rid) = Some REQUESTED)))
    (CommandRejected "application intent requires REQUESTED audit state") ;;?
  raise_if (str_in rid (q_intents t)) (CommandRejected "application already attempted; reconciliation required") ;;?
  Ok {| q_commands := q_commands t; q_intents := q_intents t ++ [rid]; q_audit := q_audit t |}.

Definition sqlite_claim_apply (rid : string) : M SqliteLedger unit := sqlite_transaction (claim_apply_body rid).

(** The stored history is replayed into a fresh in-memory ledger, then the event. *)
Definition append_body (e : AuditEvent) (t : AuditTables) : result AuditTables :=
  let? reference := foldR append empty_ledger (sqlite_events t (ev_response_id e)) in
  let? _ := append reference e in
  raise_if (existsb (fun x => transition_number x =? transition_number e) (rows_for t (ev_response_id e)))
    (IntegrityError "UNIQUE constraint failed: audit.response_id, audit.transition_number") ;;?
  Ok {| q_commands := q_commands t; q_intents := q_intents t; q_audit := q_audit t ++ [e] |}.

Definition sqlite_append (e : AuditEvent) : M SqliteLedger unit :=
  let! _ := lift (canonical (event_val e)) in sqlite_transaction (append_body e).

(** * The stored histories are lifecycles *)
Definition audit_tables_wf (t : AuditTables) : Prop := forall rid, valid_history rid (rows_for t rid).

Lemma history_number_sorted rid h :
  valid_history rid h -> StronglySorted (fun a b => event_number_leb a b = true) h.
Proof.
  intros Hv. assert (forall i e, h !! i = Some e -> transition_number e = Z.of_nat i + 1) as Hn.
  { intros i e Hi. by apply (valid_history_numbers _ _ _ _ Hv). }
  assert (exists k, forall i e, h !! i = Some e -> transition_number e = Z.of_nat i + k) as [k Hk] by by exists 1.
  clear Hn Hv. revert k Hk. induction h as [|x h IH]; intros k Hk; constructor.
  - apply (IH (k + 1)). intros i e Hi. rewrite (Hk (S i) e Hi). lia.
  - apply Forall_lookup. intros i e Hi. unfold event_number_leb. apply Z.leb_le.
    rewrite (Hk 0%nat x), (Hk (S i) e Hi) by done. lia.
Qed.

Lemma sqlite_events_rows t rid : audit_tables_wf t -> sqlite_events t rid = rows_for t rid.
Proof. intros Hwf. apply sort_by_id. by eapply history_number_sorted. Qed.

(** Replaying a lifecycle gives a ledger that holds it. *)
Lemma replay rid h :
  valid_history rid h -> exists l, foldR append empty_ledger h = Ok l /\ events l rid = h.
Proof.
  induction 1 as [|h e Hh (l & Hl & Hev) Hr Hv]; [by exists empty_ledger|].
  rewrite foldR_app, Hl. simpl. unfold append at 1. rewrite Hr, Hev, Hv. eexists. split; [done|].
  unfold events. simpl. by rewrite assoc_set_eq.
Qed.

Lemma fresh_number t e :
  audit_tables_wf t -> validate_transition e (rows_for t (ev_response_id e)) = Ok tt ->
  existsb (fun x => transition_number x =? transition_number e) (rows_for t (ev_response_id e)) = false.
Proof.
  intros Hwf Hv. apply not_true_iff_false. intros Hex. apply existsb_exists in Hex as (x & Hx & E). apply Z.eqb_eq in E.
  apply list_elem_of_In, list_elem_of_lookup in Hx as [i Hi].
  pose proof (valid_history_numbers _ _ _ _ (Hwf _) Hi) as [Hn _]. apply lookup_lt_Some in Hi.
  apply validate_transition_iff in Hv as (_ & _ & _ & _ & Hnum). lia.
Qed.

(** On consistent tables an append is exactly a validated transition. *)
Lemma append_body_spec t e :
  audit_tables_wf t ->
  append_body e t =
  (validate_transition e (rows_for t (ev_response_id e)) ;;?
   Ok {| q_commands := q_commands t; q_intents := q_intents t; q_audit := q_audit t ++ [e] |}).
Proof.
  intros Hwf. unfold append_body. rewrite sqlite_events_rows by done.
  destruct (replay _ _ (Hwf (ev_response_id e))) as (l & -> & Hev). simpl. unfold append. rewrite Hev.
  destruct (validate_transition e (rows_for t (ev_response_id e))) as [[]|x] eqn:Hv; simpl; [|done].
  by rewrite (fresh_number _ _ Hwf Hv).
Qed.

Lemma rows_for_snoc t e rid :
  rows_for {| q_commands := q_commands t; q_intents := q_intents t; q_audit := q_audit t ++ [e] |} rid =
  rows_for t rid ++ (if String.eqb (ev_response_id e) rid then [e] else []).
Proof. unfold rows_for. simpl. rewrite List.filter_app. simpl. done. Qed.

Lemma append_body_wf t e t' : audit_tables_wf t -> append_body e t = Ok t' -> audit_tables_wf t'.
Proof.
  intros Hwf H. rewrite append_body_spec in H by done. apply rbind_Ok in H as ([] & Hv & [= <-]).
  intros rid. rewrite rows_for_snoc. destruct (String.eqb_spec (ev_response_id e) rid) as [<-|]; [|by rewrite app_nil_r].
  by constructor.
Qed.

(** * Refinement of the in-memory ledger *)

(** A command as verification lets it through: an integer TTL, and texts where the dict is open. *)
Record plain_command (c : Command) : Prop := {
  plain_ttl : exists z, cmd_ttl c = PInt z;
  plain_ttl_prints : printable (VNum (cmd_ttl c)) = true;
  plain_key : exists k, auth_key_id c = VStr k;
  plain_signature : exists s, auth_signature c = VStr s }.

Definition command_body (c : Command) : string := canonical_json (VDict (command_mapping_of c)).

(** Plain commands are the same when Python compares them equal, and when their texts are the same. *)
Lemma plain_command_eqb a b : plain_command a -> plain_command b -> command_eqb a b = true <-> a = b.
Proof.
  intros [[za Ha] _ [ka Hka] [sa Hsa]] [[zb Hb] _ [kb Hkb] [sb Hsb]]. destruct a as [? ? ? ? ? ? ? [] ? ? ? ? ? ?], b as [? ? ? ? ? ? ? [] ? ? ? ? ? ?].
  simpl in *. subst. unfold command_eqb, command_mapping_of. cbn -[num_eqb]. rewrite (proj2 (proj2 (num_leb_ltb_Z _ _))).
  rewrite !andb_true_iff, !String.eqb_eq, Z.eqb_eq. split; [intuition congruence|intros [=]; subst; tauto].
Qed.

Lemma plain_command_body a b : plain_command a -> plain_command b -> command_body a = command_body b <-> a = b.
Proof.
  intros [[za Ha] Hpa [ka Hka] [sa Hsa]] [[zb Hb] Hpb [kb Hkb] [sb Hsb]]. split; [|by intros ->].
  destruct a as [? ? ? ? ? ? ? [] ? ? ? ? ? ?], b as [? ? ? ? ? ? ? [] ? ? ? ? ? ?]. simpl in *. subst. intros H.
  apply canonical_json_arranged in H.
  - unfold command_mapping_of in H. cbn in H. injection H; intros; subst; reflexivity.
  - cbn -[number_ok]. rewrite Hpa. done.
  - cbn -[number_ok]. rewrite Hpb. done.
Qed.

Definition same_command (row : option (string * Command)) (saved : option Command) : Prop :=
  match row, saved with
  | Some (body, c), Some d => c = d /\ body = command_body c /\ plain_command c
  | None, None => True
  | _, _ => False
  end.

(** The two ledgers tell their clients the same. *)
Record refines (t : AuditTables) (l : Ledger) : Prop := {
  ref_wf : audit_tables_wf t;
  ref_keys : NoDup (by_response l).*1;
  ref_events rid : rows_for t rid = events l rid;
  ref_intents rid : str_in rid (q_intents t) = str_in rid (apply_intents l);
  ref_commands rid : same_command (assoc rid (q_commands t)) (assoc rid (saved_commands l)) }.

Lemma refines_empty : refines empty_audit_tables empty_ledger.
Proof. split; simpl; try done; [intros rid; constructor|constructor]. Qed.

Lemma assoc_snoc {X} k k' (v : X) l : assoc k (l ++ [(k', v)]) = match assoc k l with Some x => Some x | None => if String.eqb k k' then Some v else None end.
Proof. induction l as [|[k0 v0] l IH]; simpl; [done|]. by destruct (String.eqb k k0). Qed.

Lemma save_simulates t l rid c :
  refines t l -> plain_command c ->
  match save_command_body rid c (command_body c) t, save_command l rid c with
  | Ok t', Ok l' => refines t' l'
  | Err x, Err y => x = y
  | _, _ => False
  end.
Proof.
  intros [Hwf Hk He Hi Hc] Hp. unfold save_command_body, save_command. pose proof (Hc rid) as Hr. unfold same_command in Hr.
  destruct (assoc rid (q_commands t)) as [[old d]|] eqn:E, (assoc rid (saved_commands l)) as [d'|] eqn:E'; try done.
  - destruct Hr as (<- & -> & Hd). pose proof (plain_command_body d c Hd Hp) as Hb. pose proof (plain_command_eqb d c Hd Hp) as He'.
    destruct (String.eqb_spec (command_body d) (command_body c)) as [Eb|Eb]; cbn [negb raise_if rbind].
    + apply Hb in Eb as ->. rewrite (proj2 He') by done. cbn [negb raise_if rbind]. split; try done.
      intros x. destruct (decide (x = rid)) as [->|Hne]; simpl; [rewrite E, assoc_set_eq; by split|rewrite assoc_set_ne by congruence; apply Hc].
    + destruct (command_eqb d c) eqn:Ec; [|done]. destruct Eb. by apply Hb, He'.
  - cbn [raise_if rbind]. split; try done. intros x. simpl. rewrite assoc_snoc.
    destruct (String.eqb_spec x rid) as [->|Hne]; [rewrite E, assoc_set_eq; by split|].
    rewrite assoc_set_ne by congruence. pose proof (Hc x) as Hx. by destruct (assoc x (q_commands t)).
Qed.

Lemma append_simulates t l e :
  refines t l ->
  match append_body e t, append l e with
  | Ok t', Ok l' => refines t' l'
  | Err x, Err y => x = y
  | _, _ => False
  end.
Proof.
  intros [Hwf Hk He Hi Hc]. pose proof (append_body_wf t e) as Hwf'. rewrite append_body_spec in * by done.
  unfold append. rewrite <- He. destruct (validate_transition e _) as [[]|x]; simpl in *; [|done].
  split; simpl; [by apply (Hwf' _ Hwf)| | |done|done].
  - clear -Hk. induction (by_response l) as [|[k v] r IH]; simpl in *; [repeat constructor; set_solver|].
    destruct (String.eqb_spec (ev_response_id e) k) as [->|Hne]; [done|]. apply NoDup_cons in Hk as [Hnot Hk].
    simpl. apply NoDup_cons. split; [|by apply IH]. intros Hin. apply Hnot.
    clear -Hin Hne. induction r as [|[k' v'] r IH]; simpl in *; [set_solver|].
    destruct (String.eqb_spec (ev_response_id e) k'); simpl in *; set_solver.
  - intros rid. rewrite rows_for_snoc. unfold events. simpl. destruct (String.eqb_spec (ev_response_id e) rid) as [<-|Hne].
    + by rewrite assoc_set_eq.
    + rewrite assoc_set_ne by done. rewrite app_nil_r. apply He.
Qed.

Lemma claim_simulates t l rid :
  refines t l ->
  match claim_apply_body rid t, claim_apply l rid with
  | Ok t', Ok l' => refines t' l'
  | Err (CommandRejected _), Err (CommandRejected _) => True
  | _, _ => False
  end.
Proof.
  intros [Hwf Hk He Hi Hc]. unfold claim_apply_body, claim_apply, sqlite_latest. rewrite sqlite_events_rows, He, Hi by done.
  fold (latest_state (events l rid)). destruct (bool_decide (latest_state (events l rid) = Some REQUESTED)) eqn:E;
    destruct (str_in rid (apply_intents l)) eqn:Ei; simpl; try done.
  split; simpl; try done. intros x. unfold str_in in *. rewrite List.existsb_app, Hi. simpl. rewrite orb_false_r.
  apply orb_comm.
Qed.

(** The rows are the histories of the ledger, put together. *)
Lemma rows_permutation rows (bs : list (string * list AuditEvent)) :
  NoDup bs.*1 ->
  (forall rid, List.filter (fun e => String.eqb (ev_response_id e) rid) rows = default [] (assoc rid bs)) ->
  rows ≡ₚ concat (map snd bs).
Proof.
  revert rows. induction bs as [|[k h] bs IH]; intros rows Hk Hf; simpl in *.
  - destruct rows as [|e rows]; [done|]. specialize (Hf (ev_response_id e)). simpl in Hf. by rewrite String.eqb_refl in Hf.
  - apply NoDup_cons in Hk as [Hnot Hk]. pose proof (Hf k) as Hh. rewrite String.eqb_refl in Hh. simpl in Hh.
    assert (forall (p : AuditEvent -> bool) (l : list AuditEvent), l ≡ₚ List.filter p l ++ List.filter (fun e => negb (p e)) l) as Hsplit.
    { intros p. induction l as [|x l IHl]; simpl; [done|]. destruct (p x); simpl; [by f_equiv|].
      rewrite IHl at 1. by rewrite Permutation_middle. }
    rewrite (Hsplit (fun e => String.eqb (ev_response_id e) k)) at 1. rewrite Hh. f_equiv. apply IH; [done|].
    intros rid. destruct (String.eqb_spec rid k) as [->|Hne].
    + rewrite (proj2 (assoc_None k bs)) by done. simpl. clear. induction rows as [|x rows IH]; simpl; [done|].
      destruct (String.eqb (ev_response_id x) k) eqn:E; simpl; [done|]. by rewrite E.
    + specialize (Hf rid). rewrite (proj2 (String.eqb_neq rid k)) in Hf by done. rewrite <- Hf.
      clear -Hne. induction rows as [|x rows IH]; simpl; [done|].
      destruct (String.eqb_spec (ev_response_id x) k) as [E|E]; simpl.
      * rewrite E, (proj2 (String.eqb_neq k rid)) by congruence. exact IH.
      * destruct (String.eqb (ev_response_id x) rid); [by f_equal|done].
Qed.

Definition timestamps_ok (l : list AuditEvent) : Prop := Forall (fun e => is_ok (instant_of (ev_timestamp e)) = true) l.

Definition newer (policy_id : string) (since : Z) (e : AuditEvent) : bool :=
  String.eqb (ev_policy_id e) policy_id && match instant_of (ev_timestamp e) with Ok t => since <? t | Err _ => false end.

Lemma count_foldR (f : Z -> AuditEvent -> result Z) (p : AuditEvent -> bool) l n :
  Forall (fun e => forall m : Z, f m e = Ok (if p e then m + 1 else m)) l ->
  foldR f n l = Ok (n + Z.of_nat (length (List.filter p l))).
Proof.
  intros H. revert n. induction H as [|e l He Hl IH]; intros n; simpl; [f_equal; lia|].
  rewrite He. simpl. rewrite IH. destruct (p e); simpl; f_equal; lia.
Qed.

Lemma filter_filter {X} (p q : X -> bool) l : List.filter p (List.filter q l) = List.filter (fun x => q x && p x) l.
Proof. induction l as [|x l IH]; simpl; [done|]. destruct (q x); simpl; [destruct (p x)|]; by rewrite IH. Qed.

Lemma filter_length_perm {X} (p : X -> bool) l1 l2 : l1 ≡ₚ l2 -> length (List.filter p l1) = length (List.filter p l2).
Proof.
  induction 1 as [|x l1 l2 H IH|x y l|l1 l2 l3 H1 IH1 H2 IH2]; simpl; [done| | |congruence].
  - destruct (p x); simpl; congruence.
  - by destruct (p x), (p y).
Qed.

(** In a lifecycle the requests are the first transitions. *)
Lemma request_is_first t e :
  audit_tables_wf t -> e ∈ q_audit t -> bool_decide (ev_state e = REQUESTED) = (transition_number e =? 1).
Proof.
  intros Hwf Hin. specialize (Hwf (ev_response_id e)).
  assert (e ∈ rows_for t (ev_response_id e)) as He.
  { apply list_elem_of_In, List.filter_In. split; [by apply list_elem_of_In|by apply String.eqb_refl]. }
  apply list_elem_of_lookup in He as [i Hi]. destruct (valid_history_numbers _ _ _ _ Hwf Hi) as [-> _].
  destruct i as [|i].
  - destruct (valid_history_first _ _ e Hwf) as [Hs _]; [by rewrite head_lookup|]. by rewrite Hs.
  - assert (is_Some (rows_for t (ev_response_id e) !! i)) as [e0 H0].
    { apply lookup_lt_is_Some. apply lookup_lt_Some in Hi. lia. }
    destruct (valid_history_step _ _ _ _ _ Hwf H0 Hi) as [Hs _]. rewrite (proj2 (Z.eqb_neq _ _)) by lia.
    apply bool_decide_eq_false. intros E. rewrite E in Hs. destruct (ev_state e0); simpl in Hs; set_solver.
Qed.

Lemma requested_since_simulates t l policy_id since :
  refines t l -> timestamps_ok (q_audit t) ->
  exists n, sqlite_requested_since t policy_id since = Ok n /\ requested_since l policy_id since = Ok n.
Proof.
  intros [Hwf Hk He Hi Hc] Hts. pose proof (rows_permutation _ _ Hk He) as Hperm.
  unfold sqlite_requested_since, requested_since.
  rewrite (count_foldR _ (newer policy_id since)).
  - rewrite (count_foldR _ (fun e => bool_decide (ev_state e = REQUESTED) && newer policy_id since e)).
    + eexists. split; [reflexivity|]. do 2 f_equal. rewrite filter_filter. rewrite <- (filter_length_perm _ _ _ Hperm).
      do 2 f_equal. apply List.filter_ext_in. intros e Hin. by rewrite (request_is_first t) by (done || by apply list_elem_of_In).
    + apply Forall_forall. intros e Hin n. rewrite <- Hperm in Hin. unfold timestamps_ok in Hts.
      rewrite Forall_forall in Hts. specialize (Hts e Hin). unfold requested_after, newer.
      destruct (bool_decide (ev_state e = REQUESTED)); [|done]. destruct (String.eqb _ _); [|done]. simpl.
      by destruct (instant_of (ev_timestamp e)).
  - apply Forall_forall. intros e Hin n. apply list_elem_of_In, List.filter_In in Hin as [Hin _].
    unfold timestamps_ok in Hts. rewrite Forall_forall in Hts. specialize (Hts e (proj2 (list_elem_of_In _ _) Hin)).
    unfold newer. destruct (String.eqb _ _); [|done]. simpl. by destruct (instant_of (ev_timestamp e)).
Qed.

(** The latest row is the last event of the history. *)
Lemma latest_row t e :
  audit_tables_wf t -> e ∈ rows_for t (ev_response_id e) ->
  is_latest_row t e = true <-> last (rows_for t (ev_response_id e)) = Some e.
Proof.
  intros Hwf Hin. pose proof (Hwf (ev_response_id e)) as Hv. unfold is_latest_row.
  apply list_elem_of_lookup in Hin as [i Hi]. destruct (valid_history_numbers _ _ _ _ Hv Hi) as [Hn _].
  pose proof (lookup_lt_Some _ _ _ Hi) as Hlt. rewrite forallb_forall, last_lookup. split.
  - intros Hall. assert (is_Some (rows_for t (ev_response_id e) !! pred (length (rows_for t (ev_response_id e))))) as [x Hx].
    { apply lookup_lt_is_Some. lia. }
    destruct (valid_history_numbers _ _ _ _ Hv Hx) as [Hm _].
    specialize (Hall x (proj1 (list_elem_of_In _ _) (list_elem_of_lookup_2 _ _ _ Hx))). unfold event_number_leb in Hall. bool_inv.
    replace (pred (length (rows_for t (ev_response_id e)))) with i by lia. done.
  - intros Hl x Hx. apply list_elem_of_In, list_elem_of_lookup in Hx as [j Hj].
    destruct (valid_history_numbers _ _ _ _ Hv Hj) as [Hm _]. destruct (valid_history_numbers _ _ _ _ Hv Hl) as [Hm' _].
    apply lookup_lt_Some in Hj. unfold event_number_leb. apply Z.leb_le. lia.
Qed.
