(* ===== verification/Adapters.v ===== *)
(** [response/adapters/base.py]: the adapter contract.

    An adapter is a record of operations over the state [W] of whatever it controls.  Its
    methods may raise, and may return something that is not a well-typed [AdapterOutcome]
    ([Malformed]); the orchestrator handles both. *)

From S2P Require Import Prelude PyText AuditLog Effects.

Record AdapterOutcome : Type := {
  ok : bool;
  adapter_reference : option string;
  evidence_refs : list string;
  outcome_code : option string;
  outcome_message : option string }.

Definition outcome_success (reference : string) (refs : list string) : AdapterOutcome :=
  {| ok := true; adapter_reference := Some reference; evidence_refs := refs; outcome_code := None; outcome_message := None |}.

Definition outcome_failure (code message : string) (refs : list string) : AdapterOutcome :=
  {| ok := false; adapter_reference := None; evidence_refs := refs; outcome_code := Some code; outcome_message := Some message |}.

Inductive raw_outcome : Type :=
| Outcome (o : AdapterOutcome)
| Malformed.

Record ContainmentAdapter (W : Type) : Type := {
  adapter_name : string;
  adapter_action : string;
  recovery_reference : Command -> result (option string);
  adapter_apply : Command -> M W raw_outcome;
  adapter_verify : Command -> string -> M W raw_outcome;
  adapter_revert : Command -> string -> M W raw_outcome }.
Arguments adapter_name {W}.
Arguments adapter_action {W}.
Arguments recovery_reference {W}.
Arguments adapter_apply {W}.
Arguments adapter_verify {W}.
Arguments adapter_revert {W}.
