(* ===== verification/Https.v ===== *)
(** [soc/workers/https.py], [response/transports/http.py] and the Elasticsearch client of
    [soc/workers/common.py]: JSON over verified TLS.

    What [urllib] and the network make of a request is a parameter: the opener, from a request to
    an [http_answer], over a state [W] of the world behind it.  Documents cross the wire as values
    ([json.dumps] and [json.loads] undo each other); a reply that is not JSON has no document.

    The loop over an Elasticsearch scan ([Https.scan]) ends: fuel for its limit is as good as any more. *)

From S2P Require Import Prelude PyText PyNum PyTime PyJson Policy Decision Effects Store.

(** [rfc3339] and [parse_rfc3339] of the workers. *)
Definition soc_rfc3339 (t : Z) : string := isoformat_auto t.

Definition soc_parse_rfc3339 (s : string) : result Z :=
  match fromisoformat_z s with
  | None => Err (ValueError ("Invalid isoformat string: " +:+ py_repr (replace_char "Z" "+00:00" s)))
  | Some (_, None) => Err (ValueError "timestamp must include a UTC offset")
  | Some (local, Some offset) => shift local (- offset)
  end.

Definition MAX_REPLY : Z := 2 * 1024 * 1024.

(** A reply as [http.client] reads it: the status, the length of what [read(MAX_REPLY + 1)] gave,
    the bytes the peer announced and did not send, and the document. *)
Record http_reply : Type := {
  reply_status : Z;
  reply_length : Z;
  reply_remaining : option Z;
  reply_json : option val }.

Inductive http_answer : Type :=
| Replied (r : http_reply)
| HttpError (code : Z)
| NetworkFailure
| ProtocolFailure.

Record http_request : Type := {
  req_method : string;
  req_url : string;
  req_headers : list (string * string);
  req_data : option val }.

(** [DeliveryError(code, retryable=retryable)]. *)
Definition delivery_error (error_code : string) (retryable : bool) : exn := DeliveryError error_code retryable None.

(** The statuses worth another attempt. *)
Definition retryable_status (status : Z) : bool :=
  (status =? 408) || (status =? 425) || (status =? 429) || (500 <=? status).

(** What the [try] block of [request] makes of an answer; [post_form] does not look at the
    announced length. *)
Definition decode_answer (check_remaining : bool) (a : http_answer) : result (Z * mapping) :=
  match a with
  | Replied r =>
      if MAX_REPLY <? reply_length r then Err (delivery_error "RESPONSE_TOO_LARGE" false)
      else if check_remaining && negb (default 0 (reply_remaining r) =? 0)
      then Err (delivery_error "INCOMPLETE_HTTP_RESPONSE" true)
      else match reply_json r with
           | None => Err (delivery_error "INVALID_JSON_RESPONSE" false)
           | Some (VDict d) => Ok (reply_status r, d)
           | Some _ => Err (delivery_error "RESPONSE_NOT_OBJECT" false)
           end
  | HttpError status => Err (DeliveryError ("HTTP_" +:+ str_of_Z status) (retryable_status status) (Some status))
  | NetworkFailure => Err (delivery_error "TLS_OR_NETWORK_UNAVAILABLE" true)
  | ProtocolFailure => Err (delivery_error "INCOMPLETE_HTTP_RESPONSE" true)
  end.

Record JsonHTTPS (W : Type) : Type := {
  origin : string;
  opener : http_request -> M W http_answer;
  authorization : M W string }.
Arguments origin {W}.
Arguments opener {W}.
Arguments authorization {W}.

Section transport.
Context {W : Type}.

(** No authorization header is the empty string. *)
Definition with_authorization (http : JsonHTTPS W) (value : M W string) : JsonHTTPS W :=
  {| origin := origin http; opener := opener http; authorization := value |}.

Definition check_path (path : string) : result unit :=
  raise_if (negb (starts_with "/" path) || starts_with "//" path) (ValueError "request path must be origin-relative").

Definition request (http : JsonHTTPS W) (method path : string) (payload : option val) : M W (Z * mapping) :=
  lift (check_path path) ;;!
  raise_when (match payload with Some v => negb (finite_val v) | None => false end)
    (ValueError "Out of range float values are not JSON compliant") ;;!
  let! value := authorization http in
  let! answer := opener http
    {| req_method := method; req_url := origin http +:+ path;
       req_headers := [("Accept", "application/json")]
         ++ (match payload with Some _ => [("Content-Type", "application/json")] | None => [] end)
         ++ (if String.eqb value "" then [] else [("Authorization", value)]);
       req_data := payload |} in
  lift (decode_answer true answer).

(** The form fields travel as a mapping of strings. *)
Definition post_form (http : JsonHTTPS W) (path : string) (fields : list (string * string)) : M W (Z * mapping) :=
  lift (check_path path) ;;!
  let! answer := opener http
    {| req_method := "POST"; req_url := origin http +:+ path;
       req_headers := [("Content-Type", "application/x-www-form-urlencoded"); ("Accept", "application/json")];
       req_data := Some (VDict (map (fun kv => (kv.1, VStr kv.2)) fields)) |} in
  lift (decode_answer false answer).
End transport.

(** * Percent-encoding ([urllib.parse.quote]) *)
Definition hex_upper (d : Z) : ascii := upper_char (digit_char d).
Definition unreserved (a : ascii) : bool :=
  is_ascii_digit a || ((65 <=? code a) && (code a <=? 90)) || ((97 <=? code a) && (code a <=? 122))
  || str_has a "_.-~".

Fixpoint quote (safe s : string) : string :=
  match s with
  | EmptyString => ""
  | String a r =>
      (if unreserved a || ((code a <? 128) && str_has a safe) then str1 a
       else concat_str (map (fun b => String "%" (String (hex_upper (b / 16)) (str1 (hex_upper (b mod 16))))) (utf8_char a)))
      +:+ quote safe r
  end.

(** * The Elasticsearch client *)

(** [_INDEX.fullmatch]. *)
Definition index_char (a : ascii) : bool :=
  ((97 <=? code a) && (code a <=? 122)) || is_ascii_digit a || str_has a "_.*,-".
Definition valid_index (index : string) : bool :=
  (1 <=? str_len index) && (str_len index <=? 255) && str_forallb index_char index.

Definition _index (index : string) : result string :=
  if valid_index index then Ok (quote ",*" index) else Err (ValueError ("invalid index expression: " +:+ py_repr index)).

Section elastic.
Context {W : Type}.
Variable transport : JsonHTTPS W.

Definition search_hits (reply : mapping) : result (list val) :=
  let? outer := get_attr "hits" (VDict []) (VDict reply) in
  let? hits := get_attr "hits" (VList []) outer in
  match hits with
  | VList l => Ok l
  | _ => Err (delivery_error "ES_SEARCH_RESPONSE_CONTRACT" false)
  end.

Definition search (index : string) (body : mapping) : M W (list val) :=
  let! name := lift (_index index) in
  let! answer := request transport "POST" ("/" +:+ name +:+ "/_search?allow_no_indices=true&ignore_unavailable=true") (Some (VDict body)) in
  raise_when (negb (answer.1 =? 200)) (delivery_error "ES_SEARCH_NOT_ACKNOWLEDGED" true) ;;!
  lift (search_hits answer.2).

Definition scan_body (query sort : val) (source : option val) (page_size : Z) (after : option val) : mapping :=
  [("size", VInt page_size); ("query", query); ("sort", sort); ("track_total_hits", VBool false)]
  ++ (match source with Some v => [("_source", v)] | None => [] end)
  ++ (match after with Some v => [("search_after", v)] | None => [] end).

(** The sort values of the last hit of a page. *)
Definition next_after (hits : list val) : result val :=
  let? after := get_attr "sort" VNone (List.last hits VNone) in
  match after with
  | VList _ => Ok after
  | _ => Err (delivery_error "ES_SEARCH_RESPONSE_CONTRACT" false)
  end.

Section scan.
Context {S : Type}.
Variable in_net : forall X, M W X -> M S X.
Variables (index : string) (query sort : val) (source : option val) (page_size : Z) (limit : option Z).
(** The body of the loop that consumes the scan; [false]: it breaks. *)
Variable each : val -> M S bool.

(** One hit is handed over, unless the limit is passed. *)
Definition yield_hit (emitted : Z) (hit : val) : M S bool :=
  raise_when (match limit with Some l => l <? emitted | None => false end) (ScanLimitExceeded (default 0 limit)) ;;!
  each hit.

(** The hits of a page: how many the scan has handed over, and whether the loop goes on. *)
Fixpoint yield_hits (emitted : Z) (hits : list val) : M S (Z * bool) :=
  match hits with
  | [] => ret (emitted, true)
  | hit :: rest =>
      let! more := yield_hit (emitted + 1) hit in
      if more : bool then yield_hits (emitted + 1) rest else ret (emitted + 1, false)
  end.

(** [fuel] pages of the loop; [false]: there were more. *)
Fixpoint scan_pages (fuel : nat) (emitted : Z) (after : option val) : M S bool :=
  match fuel with
  | O => ret false
  | Datatypes.S fuel =>
      let! hits := in_net (list val) (search index (scan_body query sort source page_size after)) in
      let! '(emitted, more) := yield_hits emitted hits in
      if negb more || (Z.of_nat (length hits) <? page_size) then ret true
      else let! after := lift (next_after hits) in scan_pages fuel emitted (Some after)
  end.

(** [for hit in elastic.scan(...): each(hit)]. *)
Definition scan (fuel : nat) (after : option val) : M S bool :=
  raise_when (negb ((1 <=? page_size) && (page_size <=? 10000))) (ValueError "page_size must be between 1 and 10000") ;;!
  scan_pages fuel 0 after.
End scan.

Definition create (index doc_id : string) (document : val) : M W bool :=
  raise_when (negb (valid_index index) || str_has "*" index || str_has "," index)
    (ValueError ("invalid concrete index: " +:+ py_repr index)) ;;!
  raise_when (String.eqb doc_id "" || (512 <? str_len doc_id)) (ValueError "document id must be 1..512 characters") ;;!
  attempt (request transport "PUT" ("/" +:+ index +:+ "/_create/" +:+ quote "" doc_id) (Some document)) (fun r =>
    match r with
    | Err (DeliveryError error_code retry (Some 409)) => ret false
    | Err e => raise e
    | Ok (status, reply) =>
        raise_when (negb (status =? 201) || negb (py_eq (get "result" reply) (VStr "created")))
          (delivery_error "ES_CREATE_NOT_ACKNOWLEDGED" true) ;;!
        ret true
    end).
End elastic.

Section scan_ends.
Context {S W : Type}.
Variable transport : JsonHTTPS W.
Variable in_net : forall X, M W X -> M S X.
Variables (index : string) (query sort : val) (source : option val) (page_size : Z) (limit : option Z).
Variable each : val -> M S bool.
Notation pages := (scan_pages transport in_net index query sort source page_size limit each).

(** [I n] holds once [n] hits were handed over and the loop goes on, which it does for [bound] hits at
    most; [J] holds whenever it ends. *)
Variable I : Z -> S -> Prop.
Variable J : S -> Prop.
Variable bound : Z.
Hypothesis ends : forall n s, I n s -> J s.
Hypothesis net_keeps : forall n X (m : M W X), keeps (I n) (in_net X m).
Hypothesis yield_counts : forall n hit,
  triple (I n) (yield_hit limit each (n + 1) hit) (fun more s => if more : bool then I (n + 1) s /\ n + 1 <= bound else J s) (fun _ => J).

Lemma yield_hits_counts hits n :
  triple (I n) (yield_hits limit each n hits)
    (fun r s => if r.2 : bool then r.1 = n + Z.of_nat (length hits) /\ I r.1 s /\ (hits = [] \/ r.1 <= bound) else J s) (fun _ => J).
Proof.
  revert n. induction hits as [|hit hits IH]; intros n; cbn [yield_hits].
  - apply triple_ret. intros s Hs. cbn. split; [lia|]. split; [done|by left].
  - eapply triple_bind; [apply yield_counts|]. intros [|]; [|by apply triple_ret].
    intros s [Hs Hn]. specialize (IH (n + 1) s Hs). destruct (yield_hits _ _ _ _ s) as [[[n' more]|e] s']; [|done].
    cbn in *. destruct more; [|done]. destruct IH as (-> & Hi & Hb). split; [lia|]. split; [done|].
    right. destruct Hb as [->|Hb]; [cbn; lia|done].
Qed.

(** Both end in the same way, before their fuel does. *)
Definition agree (m m' : M S bool) (s : S) : Prop := m s = m' s /\ (m s).1 <> Ok false /\ J (m s).2.

(** Fuel for what the bound leaves is as good as any more. *)
Lemma scan_pages_end fuel more n after s :
  0 < page_size -> I n s -> bound < n + Z.of_nat (Datatypes.S fuel) * page_size -> (fuel <= more)%nat ->
  agree (pages (Datatypes.S fuel) n after) (pages (Datatypes.S more) n after) s.
Proof.
  intros Hp. revert more n after s. induction fuel as [|fuel IH]; intros more n after s Hs Hf Hm; unfold agree.
  all: remember (Datatypes.S more) as k eqn:Hk; cbn [scan_pages]; rewrite Hk; cbn [scan_pages]; unfold mbind.
  all: pose proof (net_keeps n _ (search transport index (scan_body query sort source page_size after)) s Hs) as Hq.
  all: destruct (in_net _ _ s) as [[hits|e] s1]; [|split; [done|split; [done|by eapply ends]]].
  all: pose proof (yield_hits_counts hits n s1 Hq) as Hy.
  all: destruct (yield_hits _ _ _ _ s1) as [[[n' more_hits]|e] s2]; [|by repeat split].
  all: cbn [fst snd] in Hy; destruct more_hits; cbn [negb orb]; [|by repeat split].
  all: destruct Hy as (-> & Hi & Hb); destruct (Z.ltb_spec (Z.of_nat (length hits)) page_size).
  1, 3: split; [done|split; [done|by eapply ends]].
  all: destruct Hb as [->|Hb]; [cbn in *; lia|].
  - lia.
  - unfold lift. destruct (next_after hits) as [after'|e]; [|split; [done|split; [done|by eapply ends]]].
    destruct more as [|more]; [lia|]. apply IH; [done|lia|lia].
Qed.

Definition enough_pages : nat := Datatypes.S (Z.to_nat (bound / page_size)).

Lemma scan_agrees more after s : 0 <= bound -> I 0 s -> (enough_pages <= more)%nat ->
  agree (scan transport in_net index query sort source page_size limit each enough_pages after)
    (scan transport in_net index query sort source page_size limit each more after) s.
Proof.
  intros Hb Hs Hm. unfold agree, scan, raise_when, lift, mbind. destruct (negb _) eqn:Hp; cbn [raise_if].
  { split; [done|split; [done|by eapply ends]]. }
  apply negb_false_iff, andb_true_iff in Hp as [Hp _]. apply Z.leb_le in Hp.
  unfold enough_pages in *. destruct more as [|more]; [lia|]. apply scan_pages_end; [lia|done| |lia].
  pose proof (Z.div_mod bound page_size ltac:(lia)). pose proof (Z.mod_pos_bound bound page_size ltac:(lia)).
  pose proof (Z.div_pos bound page_size Hb ltac:(lia)). rewrite Nat2Z.inj_succ, Z2Nat.id by lia. lia.
Qed.
End scan_ends.

(** What searches and the consumer keep, the scan keeps. *)
Lemma scan_keeps {S W} (transport : JsonHTTPS W) (in_net : forall X, M W X -> M S X) index query sort source page_size limit each
    (K : S -> Prop) :
  (forall body, keeps K (in_net _ (search transport index body))) -> (forall hit, keeps K (each hit)) ->
  forall fuel after, keeps K (scan transport in_net index query sort source page_size limit each fuel after).
Proof.
  intros Hs He. assert (forall hits n, keeps K (yield_hits limit each n hits)) as Hy.
  { induction hits as [|hit hits IH]; intros n; cbn [yield_hits]; unfold yield_hit; keeps_walk; [apply He|apply IH]. }
  intros fuel after. unfold scan. apply keeps_bind; [apply keeps_raise_when|intros _]. generalize 0. revert after.
  induction fuel as [|fuel IH]; intros after n; cbn [scan_pages]; keeps_walk; [apply Hs|apply Hy|apply IH].
Qed.
