(* ===== verification/Ownership.v ===== *)
(** [response/transports/ownership.py]: the ownership registry of a firewall peer and the client
    that adds and removes addresses under it.

    The registry is a SQLite file: a write either commits or raises and leaves it as it was
    ([registry_commits] says which, one entry per write).  The peer behind the client is a
    [RawSet] over a state [W]; what the client relies on is [RawSetLaws]. *)

From S2P Require Import Prelude PyText PyNet PyJson Effects.

(** * The raw set of one peer *)

Record RawSet (W : Type) : Type := {
  raw_contains : string -> M W bool;
  raw_add : string -> option Z -> M W unit;
  raw_remove : string -> M W unit }.
Arguments raw_contains {W}.
Arguments raw_add {W}.
Arguments raw_remove {W}.

(** [w'] holds the addresses of [w], except perhaps the one [a] denotes. *)
Definition same_but {W} (present : W -> string -> Prop) (a : string) (w w' : W) : Prop :=
  forall x, ip_address x <> ip_address a -> present w' x <-> present w x.

(** The documented behaviour of a peer: reads do not change it; an acknowledged add or remove took
    effect; a call that raises may have taken effect or not; no call touches another address. *)
Class RawSetLaws {W : Type} (raw : RawSet W) (present : W -> string -> Prop) : Prop := {
  contains_reads a w : forall x, present (raw_contains raw a w).2 x <-> present w x;
  contains_answers a w b : (raw_contains raw a w).1 = Ok b -> b = true <-> present w a;
  add_others a n w : same_but present a w (raw_add raw a n w).2;
  add_keeps a n w : present w a -> present (raw_add raw a n w).2 a;
  add_effect a n w : (raw_add raw a n w).1 = Ok tt -> present (raw_add raw a n w).2 a;
  remove_others a w : same_but present a w (raw_remove raw a w).2;
  remove_shrinks a w : present (raw_remove raw a w).2 a -> present w a;
  remove_effect a w : (raw_remove raw a w).1 = Ok tt -> ~ present (raw_remove raw a w).2 a }.

(** A peer seen through the calls about one address: every other call is refused. *)
Definition only_about {W} (address : string) (raw : RawSet W) : RawSet W :=
  let about {X} (x : string) (m : M W X) : M W X :=
    if bool_decide (ip_address x = ip_address address) then m else raise (ValueError "another address") in
  {| raw_contains := fun x => about x (raw_contains raw x);
     raw_add := fun x n => about x (raw_add raw x n);
     raw_remove := fun x => about x (raw_remove raw x) |}.

(** * The registry *)

Inductive claim_mode : Type := adding | owned.

Record OwnerRow : Type := { own_address : string; own_owner : string; own_mode : claim_mode }.

Record OwnershipLedger : Type := {
  owner_rows : list OwnerRow;
  foreign_entries : list string;
  registry_commits : list bool }.

Definition empty_registry : OwnershipLedger := {| owner_rows := []; foreign_entries := []; registry_commits := [] |}.

Definition is_row (address owner : string) (r : OwnerRow) : bool :=
  String.eqb (own_address r) address && String.eqb (own_owner r) owner.

(** The owners of an address with their modes. *)
Definition owners (l : OwnershipLedger) (address : string) : list (string * claim_mode) :=
  map (fun r => (own_owner r, own_mode r)) (List.filter (fun r => String.eqb (own_address r) address) (owner_rows l)).

Definition is_foreign (l : OwnershipLedger) (address : string) : bool := str_in address (foreign_entries l).

Definition upsert_owner (address owner : string) (mode : claim_mode) (rows : list OwnerRow) : list OwnerRow :=
  if existsb (is_row address owner) rows
  then map (fun r => if is_row address owner r then {| own_address := address; own_owner := owner; own_mode := mode |} else r) rows
  else rows ++ [{| own_address := address; own_owner := owner; own_mode := mode |}].

Definition claim_rows (address owner : string) (mode : claim_mode) (foreign : bool) (l : OwnershipLedger) : OwnershipLedger :=
  {| owner_rows := upsert_owner address owner mode (owner_rows l);
     foreign_entries := if foreign && negb (is_foreign l address) then foreign_entries l ++ [address] else foreign_entries l;
     registry_commits := registry_commits l |}.

Definition release_rows (address owner : string) (l : OwnershipLedger) : OwnershipLedger :=
  let rows := List.filter (fun r => negb (is_row address owner r)) (owner_rows l) in
  {| owner_rows := rows;
     foreign_entries := if existsb (fun r => String.eqb (own_address r) address) rows then foreign_entries l
                        else List.filter (fun x => negb (String.eqb x address)) (foreign_entries l);
     registry_commits := registry_commits l |}.

(** * The client of one peer *)

Record Owned (W : Type) : Type := { registry : OwnershipLedger; peer : W }.
Arguments registry {W}.
Arguments peer {W}.

Definition _norm (address : string) : result string :=
  match ip_address address with
  | Some a => Ok (ip_text a)
  | None => Err (ValueError (py_repr address +:+ " does not appear to be an IPv4 or IPv6 address"))
  end.

Lemma norm_idempotent x y : _norm x = Ok y -> _norm y = Ok y.
Proof.
  unfold _norm. destruct (ip_address x) as [i|] eqn:E; [|discriminate]. intros [= <-].
  rewrite ip_text_parse; [done|]. by eapply ip_address_wf.
Qed.

Definition _tag (kind key : string) : string := kind +:+ ":" +:+ str_last 12 key.

Section client.
Context {W : Type}.
Variable raw : RawSet W.
Notation C := (Owned W).

Definition set_peer (w : W) (s : C) : C := {| registry := registry s; peer := w |}.
Definition set_registry (l : OwnershipLedger) (s : C) : C := {| registry := l; peer := peer s |}.

Definition on_peer {X} (m : M W X) : M C X :=
  fun s => let '(r, w) := m (peer s) in (r, set_peer w s).

(** One transaction of the registry. *)
Definition write (f : OwnershipLedger -> OwnershipLedger) : M C unit :=
  fun s =>
    let l := registry s in
    let rest := tl (registry_commits l) in
    let after l' := {| owner_rows := owner_rows l'; foreign_entries := foreign_entries l'; registry_commits := rest |} in
    if hd true (registry_commits l) then (Ok tt, set_registry (after (f l)) s)
    else (Err (OperationalError "commit failed"), set_registry (after l) s).

Definition claim (address owner : string) (mode : claim_mode) (foreign : bool) : M C unit :=
  write (claim_rows address owner mode foreign).

Definition release (address owner : string) : M C unit := write (release_rows address owner).

(** [if not self._raw.contains(address): self._raw.add(address, lifetime)]. *)
Definition ensure_present (address : string) (lifetime : option Z) : M C unit :=
  let! there := on_peer (raw_contains raw address) in
  if there then ret tt else on_peer (raw_add raw address lifetime).

(** The two operations on a normalized address. *)
Definition add_normalized (address key : string) (lifetime : option Z) : M C string :=
  let! held := gets (fun s => owners (registry s) address) in
  let! foreign := gets (fun s => is_foreign (registry s) address) in
  if str_in key held.*1 then
    ensure_present address lifetime ;;!
    claim address key owned false ;;!
    ret (_tag "owned" key)
  else if Nat.eqb (length held) 0 && negb foreign then
    let! there := on_peer (raw_contains raw address) in
    if there then
      claim address key owned true ;;!
      ret (_tag "preexisting" key)
    else
      claim address key adding false ;;!
      on_peer (raw_add raw address lifetime) ;;!
      claim address key owned false ;;!
      ret (_tag "added" key)
  else
    claim address key owned false ;;!
    ensure_present address lifetime ;;!
    ret (_tag "shared" key).

Definition remove_normalized (address key : string) : M C string :=
  let! held := gets (fun s => owners (registry s) address) in
  if negb (str_in key held.*1) then ret (_tag "absent" key)
  else
    let others := List.filter (fun k => negb (String.eqb k key)) held.*1 in
    let! foreign := gets (fun s => is_foreign (registry s) address) in
    if negb (Nat.eqb (length others) 0) || foreign then
      release address key ;;!
      ret (_tag (if negb (Nat.eqb (length others) 0) then "shared" else "preexisting") key)
    else
      on_peer (raw_remove raw address) ;;!
      release address key ;;!
      ret (_tag "removed" key).

Definition add_soc_blocklist_address (address key : string) (lifetime : option Z) : M C string :=
  let! address := lift (_norm address) in add_normalized address key lifetime.

Definition remove_soc_blocklist_address (address key : string) : M C string :=
  let! address := lift (_norm address) in remove_normalized address key.

Definition soc_blocklist_contains (address : string) : M C bool :=
  let! address := lift (_norm address) in on_peer (raw_contains raw address).
End client.

(** * What the registry records *)

Definition holds (l : OwnershipLedger) (address key : string) : Prop := key ∈ (owners l address).*1.

Lemma holds_rows l a k : holds l a k <-> exists r, r ∈ owner_rows l /\ own_address r = a /\ own_owner r = k.
Proof.
  unfold holds, owners. rewrite list_elem_of_In, !in_map_iff. setoid_rewrite in_map_iff. setoid_rewrite List.filter_In.
  split.
  - intros (p & Hp & r & Hr & Hin & E). subst. exists r. apply String.eqb_eq in E. by rewrite list_elem_of_In.
  - intros (r & Hin & Ha & Hk). exists (own_owner r, own_mode r). split; [done|]. exists r. split; [done|].
    split; [by apply list_elem_of_In|by apply String.eqb_eq].
Qed.

Lemma no_owners l a : length (owners l a) = 0%nat <-> forall k, ~ holds l a k.
Proof.
  unfold holds. rewrite length_zero_iff_nil. split.
  - intros -> k. set_solver.
  - intros H. destruct (owners l a) as [|[k m] r]; [done|]. exfalso. apply (H k). simpl. set_solver.
Qed.

Lemma is_row_spec a k r : is_row a k r = true <-> own_address r = a /\ own_owner r = k.
Proof. unfold is_row. rewrite andb_true_iff, !String.eqb_eq. done. Qed.

Lemma claim_holds l a k m f x k' : holds (claim_rows a k m f l) x k' <-> holds l x k' \/ (x = a /\ k' = k).
Proof.
  rewrite !holds_rows. simpl. unfold upsert_owner. destruct (existsb _ _) eqn:E.
  - apply existsb_exists in E as (r0 & Hin0 & Hr0). apply is_row_spec in Hr0 as [Ha0 Hk0]. split.
    + intros (r & Hr & <- & <-). apply list_elem_of_In, in_map_iff in Hr as (q & <- & Hq).
      destruct (is_row a k q); simpl; [by right|left]. exists q. by rewrite list_elem_of_In.
    + intros [(r & Hr & <- & <-)|[-> ->]].
      * destruct (is_row a k r) eqn:Er.
        -- eexists. split; [apply list_elem_of_In, in_map_iff; exists r; rewrite Er; split; [done|by apply list_elem_of_In]|].
           by apply is_row_spec in Er as [-> ->].
        -- exists r. split; [|done]. apply list_elem_of_In, in_map_iff. exists r. rewrite Er. split; [done|by apply list_elem_of_In].
      * eexists. split; [apply list_elem_of_In, in_map_iff; exists r0; split; [done|exact Hin0]|].
        by rewrite (proj2 (is_row_spec a k r0)).
  - setoid_rewrite elem_of_app. setoid_rewrite list_elem_of_singleton. split.
    + intros (r & [Hr| ->] & Ha & Hk); simpl in *; [left; by exists r|by right].
    + intros [(r & Hr & Ha & Hk)|[-> ->]]; [exists r; by split; [left|]|]. eexists. split; [by right|done].
Qed.

Lemma claim_foreign l a k m f x : is_foreign (claim_rows a k m f l) x = is_foreign l x || (f && String.eqb x a).
Proof.
  unfold claim_rows, is_foreign. simpl. destruct (f && negb (str_in a (foreign_entries l))) eqn:E.
  - apply andb_true_iff in E as [-> _]. unfold str_in. by rewrite List.existsb_app; simpl; rewrite orb_false_r.
  - destruct f; simpl in *; [|by rewrite orb_false_r]. destruct (String.eqb_spec x a) as [->|]; [|by rewrite orb_false_r].
    apply negb_false_iff in E. by rewrite E.
Qed.

Lemma release_holds l a k x k' : holds (release_rows a k l) x k' <-> holds l x k' /\ ~ (x = a /\ k' = k).
Proof.
  rewrite !holds_rows. simpl. setoid_rewrite list_elem_of_In. setoid_rewrite List.filter_In. split.
  - intros (r & [Hr Hn] & <- & <-). split; [by exists r|]. intros [E1 E2].
    rewrite (proj2 (is_row_spec _ _ _)) in Hn; done.
  - intros [(r & Hr & <- & <-) Hn]. exists r. split; [|done]. split; [done|].
    destruct (is_row a k r) eqn:E; [|done]. by apply is_row_spec in E.
Qed.

(** The mark of an address goes with its last owner; the other marks stay. *)
Lemma release_foreign l a k x :
  is_foreign (release_rows a k l) x = true <->
  is_foreign l x = true /\ (x = a -> exists k', holds l a k' /\ k' <> k).
Proof.
  assert (existsb (fun r => String.eqb (own_address r) a) (owner_rows (release_rows a k l)) = true <->
    exists k', holds l a k' /\ k' <> k) as Hex.
  { rewrite existsb_exists. split.
    - intros (r & Hr & E). apply String.eqb_eq in E. exists (own_owner r).
      assert (holds (release_rows a k l) a (own_owner r)) as Hh by (apply holds_rows; exists r; by rewrite list_elem_of_In).
      apply release_holds in Hh as [? Hn]. split; [done|]. intros E2. by apply Hn.
    - intros (k' & Hh & Hne). assert (holds (release_rows a k l) a k') as H2 by (apply release_holds; split; [done|]; by intros [_ ?]).
      apply holds_rows in H2 as (r & Hr & E & _). exists r. split; [by apply list_elem_of_In|by apply String.eqb_eq]. }
  unfold is_foreign. simpl in *. destruct (existsb _ _).
  - split; [intros H; split; [done|intros _; by apply Hex]|by intros [? _]].
  - rewrite !str_in_elem, list_elem_of_In, List.filter_In, <- list_elem_of_In.
    split.
    + intros [H E]. split; [done|]. intros ->. by rewrite String.eqb_refl in E.
    + intros [H E]. split; [done|]. destruct (String.eqb_spec x a) as [->|]; [|done]. destruct Hex as [_ Hex].
      by specialize (Hex (E eq_refl)).
Qed.

(** * Runs of one client *)
Section runs.
Context {W : Type}.
Variable raw : RawSet W.
Variable present : W -> string -> Prop.
Context `{!RawSetLaws raw present}.
Notation C := (Owned W).

Inductive client_op : Type :=
| ClientAdd (address key : string) (lifetime : option Z)
| ClientRemove (address key : string)
| ClientContains (address : string).

Definition run_client_op (op : client_op) (s : C) : C :=
  match op with
  | ClientAdd a k n => (add_soc_blocklist_address raw a k n s).2
  | ClientRemove a k => (remove_soc_blocklist_address raw a k s).2
  | ClientContains a => (soc_blocklist_contains raw a s).2
  end.

Definition run_client (ops : list client_op) (s : C) : C := fold_left (fun s op => run_client_op op s) ops s.

(** ** One address

    The invariants are about one normalized address [a]. *)
Section one_address.
Variable a : string.

Definition a_holds (k : string) (s : C) : Prop := holds (registry s) a k.
Definition a_foreign (s : C) : bool := is_foreign (registry s) a.
Definition a_present (s : C) : Prop := present (peer s) a.

(** Nothing about [a] changed. *)
Definition same_at (s s' : C) : Prop :=
  (forall k, a_holds k s' <-> a_holds k s) /\ a_foreign s' = a_foreign s /\ (a_present s' <-> a_present s).

(** [I] is about [a] only. *)
Definition local (I : C -> Prop) : Prop := forall s s', same_at s s' -> I s -> I s'.

Lemma same_at_refl s : same_at s s.
Proof. done. Qed.

Lemma same_at_trans s1 s2 s3 : same_at s1 s2 -> same_at s2 s3 -> same_at s1 s3.
Proof.
  intros (H1 & F1 & P1) (H2 & F2 & P2). split; [|split].
  - intros k. by rewrite H2.
  - by rewrite F2.
  - by rewrite P2.
Qed.

Lemma same_at_peer s w : (present w a <-> a_present s) -> same_at s (set_peer w s).
Proof. by intros H. Qed.

(** A write goes through, or nothing about [a] changes. *)
Lemma write_triple I f (Q : unit -> C -> Prop) :
  local I ->
  (forall s s', I s -> peer s' = peer s -> (forall k, a_holds k s' <-> holds (f (registry s)) a k) ->
    a_foreign s' = is_foreign (f (registry s)) a -> Q tt s') ->
  triple I (write f) Q (fun _ => I).
Proof.
  intros Hr HQ s Hs. unfold write. destruct (hd true _); [by eapply HQ|]. eapply Hr; [|exact Hs]. done.
Qed.

Lemma contains_triple I x :
  local I ->
  triple I (on_peer (raw_contains raw x)) (fun b s => I s /\ (x = a -> b = true <-> a_present s)) (fun _ => I).
Proof.
  intros HI s Hs. unfold on_peer. pose proof (contains_reads x (peer s)) as Hread.
  pose proof (contains_answers x (peer s)) as Hans. destruct (raw_contains raw x (peer s)) as [[b|e] w]; simpl in *.
  - split; [eapply HI; [by apply same_at_peer|exact Hs]|]. intros ->. unfold a_present. simpl. rewrite Hread. by apply Hans.
  - eapply HI; [by apply same_at_peer|exact Hs].
Qed.

(** [I] survives more addresses being present. *)
Definition monotone (I : C -> Prop) : Prop :=
  forall s w, I s -> (a_present s -> present w a) -> I (set_peer w s).

Lemma add_triple I n :
  monotone I -> triple I (on_peer (raw_add raw a n)) (fun _ s => I s /\ a_present s) (fun _ => I).
Proof.
  intros HI s Hs. unfold on_peer. pose proof (add_keeps a n (peer s)) as Hk. pose proof (add_effect a n (peer s)) as He.
  destruct (raw_add raw a n (peer s)) as [[[]|e] w]; simpl in *; [|by apply HI]. split; [by apply HI|by apply He].
Qed.

(** Adding makes sure of the address; the claim itself changes only the registry. *)
Lemma ensure_triple I n :
  local I -> monotone I -> triple I (ensure_present raw a n) (fun _ s => I s /\ a_present s) (fun _ => I).
Proof.
  intros HI Hm. unfold ensure_present. eapply triple_bind; [by apply contains_triple|]. intros [].
  - apply triple_ret. intros s [Hs Hb]. split; [done|]. by apply Hb.
  - eapply triple_conseq; [by apply add_triple|..]; by intros; naive_solver.
Qed.

Lemma claim_triple I k m f :
  local I ->
  triple I (claim a k m f)
    (fun _ s' => exists s, I s /\ peer s' = peer s /\ (forall k', a_holds k' s' <-> a_holds k' s \/ k' = k) /\
       a_foreign s' = a_foreign s || f) (fun _ => I).
Proof.
  intros HI. apply write_triple; [done|]. intros s s' Hs Hp Hh Hf. exists s. split; [done|]. split; [done|]. split.
  - intros k'. rewrite Hh, claim_holds. unfold a_holds. naive_solver.
  - rewrite Hf, claim_foreign, String.eqb_refl. by rewrite andb_true_r.
Qed.

Lemma release_triple I k :
  local I ->
  triple I (release a k)
    (fun _ s' => exists s, I s /\ peer s' = peer s /\ (forall k', a_holds k' s' <-> a_holds k' s /\ k' <> k) /\
       (a_foreign s' = true <-> a_foreign s = true /\ exists k', a_holds k' s /\ k' <> k)) (fun _ => I).
Proof.
  intros HI. apply write_triple; [done|]. intros s s' Hs Hp Hh Hf. exists s. split; [done|]. split; [done|]. split.
  - intros k'. rewrite Hh, release_holds. unfold a_holds. naive_solver.
  - rewrite Hf, release_foreign. unfold a_foreign, a_holds. naive_solver.
Qed.

(** Calls about another address leave [a] alone. *)
Lemma same_at_local s0 : local (same_at s0).
Proof. intros s s' H1 H2. by eapply same_at_trans. Qed.

Definition elsewhere (x : string) : Prop := x <> a /\ ip_address a <> ip_address x.

Lemma norm_elsewhere y x : _norm a = Ok a -> _norm y = Ok x -> x <> a -> elsewhere x.
Proof.
  intros Ha Hx Hne. split; [done|]. apply norm_idempotent in Hx. unfold _norm in *.
  destruct (ip_address a) as [i|] eqn:E1; [|discriminate]. destruct (ip_address x) as [j|] eqn:E2; [|discriminate].
  injection Ha as Ha. injection Hx as Hx. intros [= ->]. congruence.
Qed.

Lemma other_peer_call {X} s0 x (m : M W X) :
  elsewhere x -> (forall w, same_but present x w (m w).2) -> keeps (same_at s0) (on_peer m).
Proof.
  intros Hne Hm s Hs. unfold on_peer. specialize (Hm (peer s)).
  assert (same_at s (set_peer (m (peer s)).2 s)) as Hsame by (split; [done|]; split; [done|]; apply Hm; by destruct Hne).
  destruct (m (peer s)) as [[y|e] w]; by eapply same_at_trans.
Qed.

Lemma other_write s0 f :
  (forall l k, holds (f l) a k <-> holds l a k) -> (forall l, is_foreign (f l) a = is_foreign l a) ->
  keeps (same_at s0) (write f).
Proof.
  intros Hh Hf. apply write_triple; [apply same_at_local|]. intros s s' Hs Hp Hk Hg.
  eapply same_at_trans; [exact Hs|]. split; [|split].
  - intros k. by rewrite Hk, Hh.
  - by rewrite Hg, Hf.
  - unfold a_present. by rewrite Hp.
Qed.

Lemma other_claim s0 x k m f : elsewhere x -> keeps (same_at s0) (claim x k m f).
Proof.
  intros [Hne _]. apply other_write; intros l; [intros k'; rewrite claim_holds; naive_solver|].
  rewrite claim_foreign. destruct (String.eqb_spec a x); [congruence|]. by rewrite andb_false_r, orb_false_r.
Qed.

Lemma other_release s0 x k : elsewhere x -> keeps (same_at s0) (release x k).
Proof.
  intros [Hne _]. apply other_write; intros l; [intros k'; rewrite release_holds; naive_solver|].
  apply eq_true_iff_eq. rewrite release_foreign. naive_solver.
Qed.

Lemma other_contains s0 x : elsewhere x -> keeps (same_at s0) (on_peer (raw_contains raw x)).
Proof. intros Hne. apply (other_peer_call s0 x); [done|]. intros w y _. apply contains_reads. Qed.

Lemma other_add s0 x n : elsewhere x -> keeps (same_at s0) (on_peer (raw_add raw x n)).
Proof. intros Hne. apply (other_peer_call s0 x); [done|]. intros w. apply add_others. Qed.

Lemma other_remove s0 x : elsewhere x -> keeps (same_at s0) (on_peer (raw_remove raw x)).
Proof. intros Hne. apply (other_peer_call s0 x); [done|]. intros w. apply remove_others. Qed.

Lemma other_add_normalized s0 x k n : elsewhere x -> keeps (same_at s0) (add_normalized raw x k n).
Proof.
  intros Hne. unfold add_normalized, ensure_present.
  keeps_walk; auto using other_contains, other_add, other_claim.
Qed.

Lemma other_remove_normalized s0 x k : elsewhere x -> keeps (same_at s0) (remove_normalized raw x k).
Proof. intros Hne. unfold remove_normalized. keeps_walk; auto using other_remove, other_release. Qed.

(** A local invariant holds of all runs when the two operations on [a] keep it. *)
Lemma run_client_invariant (I : C -> Prop) (allowed : client_op -> Prop) ops s :
  _norm a = Ok a -> local I ->
  (forall k n x, allowed (ClientAdd x k n) -> _norm x = Ok a -> keeps I (add_normalized raw a k n)) ->
  (forall k x, allowed (ClientRemove x k) -> _norm x = Ok a -> keeps I (remove_normalized raw a k)) ->
  Forall allowed ops -> I s -> I (run_client ops s).
Proof.
  intros Hnorm HI Hadd Hrem Hall. revert s. induction Hall as [|op ops Hop Hall IH]; intros s Hs; [done|]. simpl. apply IH.
  assert (forall X (m : M C X), keeps I m -> I (m s).2) as Hkeep.
  { intros X m Hm. specialize (Hm s Hs). by destruct (m s) as [[x|e] s']. }
  assert (forall X (m : M C X), keeps (same_at s) m -> I (m s).2) as Hother.
  { intros X m Hm. specialize (Hm s (same_at_refl s)). destruct (m s) as [[x|e] s']; by eapply HI. }
  destruct op as [x k n|x k|x]; simpl.
  - unfold add_soc_blocklist_address. unfold mbind, lift. destruct (_norm x) as [y|e] eqn:E; [|done].
    destruct (decide (y = a)) as [->|Hne]; [apply Hkeep; by eapply Hadd|]. by eapply Hother, other_add_normalized, norm_elsewhere.
  - unfold remove_soc_blocklist_address. unfold mbind, lift. destruct (_norm x) as [y|e] eqn:E; [|done].
    destruct (decide (y = a)) as [->|Hne]; [apply Hkeep; by eapply Hrem|]. by eapply Hother, other_remove_normalized, norm_elsewhere.
  - unfold soc_blocklist_contains. unfold mbind, lift. destruct (_norm x) as [y|e]; [|done].
    pose proof (contains_triple I y HI s Hs) as H. destruct (on_peer _ s) as [[b|e] s']; [by destruct H|done].
Qed.
(** ** An entry that was there before is never removed *)

(** [a] is in the peer and either nobody claimed it here yet or it is marked as pre-existing. *)
Definition preserved (s : C) : Prop := a_present s /\ ((forall k, ~ a_holds k s) \/ a_foreign s = true).
Definition marked (s : C) : Prop := a_present s /\ a_foreign s = true.

Lemma preserved_local : local preserved.
Proof. intros s s' (H1 & H2 & H3) [Hp Hor]. split; [by apply H3|]. rewrite H2. destruct Hor; [left|by right]. intros k. by rewrite H1. Qed.

Lemma marked_local : local marked.
Proof. intros s s' (H1 & H2 & H3) [Hp Hf]. split; [by apply H3|]. by rewrite H2. Qed.

Lemma marked_monotone : monotone marked.
Proof. intros s w [Hp Hf] Hw. split; [by apply Hw|done]. Qed.

Lemma marked_preserved {X} (m : M C X) s : marked s -> keeps marked m -> match m s with (Ok _, s') | (Err _, s') => preserved s' end.
Proof. intros Hs Hm. specialize (Hm s Hs). destruct (m s) as [[x|e] s']; destruct Hm; split; auto. Qed.

Lemma ensure_marked n : keeps marked (ensure_present raw a n).
Proof.
  eapply triple_conseq; [apply (ensure_triple marked n marked_local marked_monotone)|done| |done]. by intros _ s [? _].
Qed.

Lemma claim_marked k m f : keeps marked (claim a k m f).
Proof.
  eapply triple_conseq; [apply (claim_triple marked k m f marked_local)|done| |done].
  intros _ s (s0 & [Hp Hf] & Hpeer & _ & Hf'). split; [|by rewrite Hf', Hf]. unfold a_present in *. by rewrite Hpeer.
Qed.

Lemma claim_foreign_preserved k : triple preserved (claim a k owned true) (fun _ => preserved) (fun _ => preserved).
Proof.
  eapply triple_conseq; [apply (claim_triple preserved k owned true preserved_local)|done| |done].
  intros _ s (s0 & [Hp _] & Hpeer & _ & Hf'). split; [unfold a_present in *; by rewrite Hpeer|right]. by rewrite Hf', orb_true_r.
Qed.

Lemma add_preserved k n : keeps preserved (add_normalized raw a k n).
Proof.
  intros s Hs. pose proof Hs as [Hp Hor]. unfold add_normalized. unfold mbind at 1 2, gets.
  destruct (str_in k (owners (registry s) a).*1) eqn:Ek.
  { apply str_in_elem in Ek. assert (marked s) as Hm by (split; [done|]; destruct Hor as [H|H]; [by destruct (H k)|done]).
    apply marked_preserved; [done|]. keeps_walk; [apply ensure_marked|apply claim_marked]. }
  destruct (Nat.eqb (length (owners (registry s) a)) 0 && negb (is_foreign (registry s) a)) eqn:En; bool_inv.
  - pose proof (contains_triple preserved a preserved_local s Hs) as Hc. unfold mbind at 1.
    destruct (on_peer (raw_contains raw a) s) as [[[]|e] s1]; [|destruct Hc as [[Hp1 _] Hc]; by apply Hc in Hp1|done].
    destruct Hc as [Hc _]. pose proof (claim_foreign_preserved k s1 Hc) as Hcl. unfold mbind.
    by destruct (claim a k owned true s1) as [[[]|e] s2].
  - assert (marked s) as Hm.
    { split; [done|]. destruct Hor as [H|H]; [|done]. apply no_owners in H. rewrite H in En. simpl in En. by apply negb_false_iff in En. }
    apply marked_preserved; [done|]. keeps_walk; [apply claim_marked|apply ensure_marked].
Qed.

Lemma release_preserved k : triple marked (release a k) (fun _ => preserved) (fun _ => preserved).
Proof.
  eapply triple_conseq; [apply (release_triple marked k marked_local)|done| |by intros _ s [? ?]; split; auto].
  intros _ s (s0 & [Hp Hf] & Hpeer & Hh & Hf'). split; [unfold a_present in *; by rewrite Hpeer|].
  destruct (a_foreign s) eqn:E; [by right|left]. intros k' Hk. apply Hh in Hk. rewrite Hf in Hf'. naive_solver.
Qed.

Lemma remove_preserved k : keeps preserved (remove_normalized raw a k).
Proof.
  intros s Hs. pose proof Hs as [Hp Hor]. unfold remove_normalized. unfold mbind at 1, gets.
  destruct (str_in k (owners (registry s) a).*1) eqn:Ek; [|done]. apply str_in_elem in Ek.
  assert (marked s) as Hm by (split; [done|]; destruct Hor as [H|H]; [by destruct (H k)|done]).
  cbn [negb]. unfold mbind at 1. rewrite (proj2 Hm : is_foreign (registry s) a = true), orb_true_r.
  pose proof (release_preserved k s Hm) as Hr. unfold mbind. by destruct (release a k s) as [[[]|e] s1].
Qed.

(** ** The address stays while a key holds it *)
Definition held (k : string) (s : C) : Prop := a_holds k s /\ a_present s.

Lemma held_local k : local (held k).
Proof. intros s s' (H1 & H2 & H3) [Hh Hp]. split; [by apply H1|by apply H3]. Qed.

Lemma held_monotone k : monotone (held k).
Proof. intros s w [Hh Hp] Hw. split; [done|by apply Hw]. Qed.

Lemma contains_held k : keeps (held k) (on_peer (raw_contains raw a)).
Proof. eapply triple_conseq; [apply (contains_triple (held k) a (held_local k))|done| |done]. by intros ? s [? _]. Qed.

Lemma add_held k n : keeps (held k) (on_peer (raw_add raw a n)).
Proof. eapply triple_conseq; [apply (add_triple (held k) n (held_monotone k))|done| |done]. by intros ? s [? _]. Qed.

Lemma claim_held k k' m f : keeps (held k) (claim a k' m f).
Proof.
  eapply triple_conseq; [apply (claim_triple (held k) k' m f (held_local k))|done| |done].
  intros _ s (s0 & [Hh Hp] & Hpeer & Hk & _). split; [apply Hk; by left|]. unfold a_present in *. by rewrite Hpeer.
Qed.

Lemma release_held k k' : k' <> k -> keeps (held k) (release a k').
Proof.
  intros Hne. eapply triple_conseq; [apply (release_triple (held k) k' (held_local k))|done| |done].
  intros _ s (s0 & [Hh Hp] & Hpeer & Hk & _). split; [apply Hk; split; [done|congruence]|].
  unfold a_present in *. by rewrite Hpeer.
Qed.

Lemma add_normalized_held k k' n : keeps (held k) (add_normalized raw a k' n).
Proof.
  unfold add_normalized, ensure_present. keeps_walk; auto using contains_held, add_held, claim_held.
Qed.

Lemma others_nonempty k k' s : a_holds k s -> k' <> k ->
  Nat.eqb (length (List.filter (fun x => negb (String.eqb x k')) (owners (registry s) a).*1)) 0 = false.
Proof.
  intros Hh Hne. apply Nat.eqb_neq. intros E. apply length_zero_iff_nil in E.
  assert (k ∈ List.filter (fun x => negb (String.eqb x k')) (owners (registry s) a).*1) as Hin; [|by rewrite E in Hin; set_solver].
  apply list_elem_of_In, List.filter_In. split; [by apply list_elem_of_In|].
  destruct (String.eqb_spec k k'); [congruence|done].
Qed.

Lemma remove_normalized_held k k' : k' <> k -> keeps (held k) (remove_normalized raw a k').
Proof.
  intros Hne s Hs. unfold remove_normalized. unfold mbind at 1, gets.
  destruct (negb (str_in k' (owners (registry s) a).*1)); [done|].
  unfold mbind at 1. rewrite (others_nonempty k k' s (proj1 Hs) Hne). simpl.
  pose proof (release_held k k' Hne s Hs) as Hr. unfold mbind. by destruct (release a k' s) as [[[]|e] s1].
Qed.

(** A successful add makes the key a holder of a present address. *)
Definition anything (s : C) : Prop := True.

Lemma anything_local : local anything.
Proof. done. Qed.

Lemma present_local : local a_present.
Proof. intros s s' (_ & _ & H3) Hp. by apply H3. Qed.

Lemma holding_local k : local (a_holds k).
Proof. intros s s' (H1 & _ & _) Hh. by apply H1. Qed.

Lemma claim_makes_held k m f : triple a_present (claim a k m f) (fun _ => held k) (fun _ => anything).
Proof.
  eapply triple_conseq; [apply (claim_triple a_present k m f present_local)|done| |done].
  intros _ s' (s0 & Hp0 & Hpeer & Hk & _). split; [apply Hk; by right|]. unfold a_present in *. by rewrite Hpeer.
Qed.

Lemma claim_makes_holder k m f : triple anything (claim a k m f) (fun _ => a_holds k) (fun _ => anything).
Proof.
  eapply triple_conseq; [apply (claim_triple anything k m f anything_local)|done| |done].
  intros _ s' (s0 & _ & _ & Hk & _). apply Hk. by right.
Qed.

Lemma ensure_makes_present (I : C -> Prop) n :
  local I -> monotone I -> triple I (ensure_present raw a n) (fun _ s => I s /\ a_present s) (fun _ => anything).
Proof. intros H1 H2. eapply triple_conseq; [by apply (ensure_triple I n)|done|done|done]. Qed.

Lemma add_establishes k n : triple anything (add_normalized raw a k n) (fun _ => held k) (fun _ => anything).
Proof.
  assert (Hend : forall kind, triple (held k) (ret (_tag kind k) : M C string) (fun _ => held k) (fun _ => anything))
    by (intros; by apply triple_ret).
  unfold add_normalized. eapply triple_bind; [apply (triple_gets _ _ (fun _ => anything)); done|]. intros h.
  eapply triple_bind; [apply (triple_gets _ _ (fun _ => anything)); done|]. intros f. destruct (str_in k h.*1).
  { eapply triple_bind; [by apply (ensure_makes_present anything)|]. intros ?.
    eapply triple_bind; [|intros ?; apply Hend].
    eapply triple_conseq; [apply claim_makes_held|by intros s [_ ?]|done|done]. }
  destruct (Nat.eqb (length h) 0 && negb f).
  - eapply triple_bind; [eapply triple_conseq; [apply (contains_triple anything a anything_local)|done| |done]; by intros|].
    intros []; cbv beta.
    + eapply triple_bind; [|intros ?; apply Hend].
      eapply triple_conseq; [apply claim_makes_held|intros s [_ H]; by apply H|done|done].
    + eapply triple_bind; [eapply triple_conseq; [apply claim_makes_holder|done..]|]. intros ?.
      eapply triple_bind; [eapply triple_conseq; [apply (add_triple anything n); done|done..]|]. intros ?.
      eapply triple_bind; [|intros ?; apply Hend].
      eapply triple_conseq; [apply claim_makes_held|by intros s [_ ?]|done|done].
  - eapply triple_bind; [apply claim_makes_holder|]. intros ?.
    eapply triple_bind; [apply (ensure_makes_present (a_holds k)); [apply holding_local|by intros s w H _]|]. intros ?. apply Hend.
Qed.

(** ** Nothing is left behind *)

(** The entry is the response plane's own, and with no owner left it is gone. *)
Definition clean (s : C) : Prop := a_foreign s = false /\ ((forall k, ~ a_holds k s) -> ~ a_present s).
Definition claimed (s : C) : Prop := a_foreign s = false /\ exists k, a_holds k s.
Definition gone (s : C) : Prop := a_foreign s = false /\ ~ a_present s.

Lemma clean_local : local clean.
Proof. intros s s' (H1 & H2 & H3) [Hf Hc]. split; [by rewrite H2|]. rewrite H3. intros H. apply Hc. intros k. by rewrite <- H1. Qed.

Lemma claimed_local : local claimed.
Proof. intros s s' (H1 & H2 & H3) [Hf [k Hk]]. split; [by rewrite H2|]. exists k. by apply H1. Qed.

Lemma gone_local : local gone.
Proof. intros s s' (H1 & H2 & H3) [Hf Hp]. split; [by rewrite H2|]. by rewrite H3. Qed.

Lemma claimed_clean s : claimed s -> clean s.
Proof. intros [Hf [k Hk]]. split; [done|]. intros H. by destruct (H k). Qed.

Lemma gone_clean s : gone s -> clean s.
Proof. by intros [Hf Hp]. Qed.

Lemma claimed_monotone : monotone claimed.
Proof. by intros s w H _. Qed.

Lemma claim_claimed (I : C -> Prop) k m :
  local I -> (forall s, I s -> a_foreign s = false) -> triple I (claim a k m false) (fun _ => claimed) (fun _ => I).
Proof.
  intros Hl HI. eapply triple_conseq; [apply (claim_triple I k m false Hl)|done| |done].
  intros _ s (s0 & Hs & _ & Hk & Hf). split; [rewrite Hf, (HI s0 Hs); done|]. exists k. apply Hk. by right.
Qed.

Lemma ensure_claimed n : keeps claimed (ensure_present raw a n).
Proof.
  eapply triple_conseq; [apply (ensure_triple claimed n claimed_local claimed_monotone)|done| |done]. by intros _ s [? _].
Qed.

Lemma raw_add_claimed n : keeps claimed (on_peer (raw_add raw a n)).
Proof. eapply triple_conseq; [apply (add_triple claimed n claimed_monotone)|done| |done]. by intros _ s [? _]. Qed.

Lemma claim_keeps_claimed k m : keeps claimed (claim a k m false).
Proof. apply claim_claimed; [apply claimed_local|by intros s [? _]]. Qed.

Lemma keeps_claimed_clean {X} (m : M C X) s : claimed s -> keeps claimed m -> match m s with (Ok _, s') | (Err _, s') => clean s' end.
Proof. intros Hs Hm. specialize (Hm s Hs). destruct (m s) as [[x|e] s']; by apply claimed_clean. Qed.

Lemma add_clean k n : keeps clean (add_normalized raw a k n).
Proof.
  intros s Hs. pose proof Hs as [Hf Hc]. unfold add_normalized. unfold mbind at 1 2, gets.
  destruct (str_in k (owners (registry s) a).*1) eqn:Ek.
  { apply str_in_elem in Ek. apply keeps_claimed_clean; [by split; [|exists k]|].
    keeps_walk; [apply ensure_claimed|apply claim_keeps_claimed]. }
  destruct (Nat.eqb (length (owners (registry s) a)) 0 && negb (is_foreign (registry s) a)) eqn:En; bool_inv.
  - assert (forall k, ~ a_holds k s) as Hno by (by apply no_owners, Nat.eqb_eq). specialize (Hc Hno).
    assert (gone s) as Hg by done.
    pose proof (contains_triple gone a gone_local s Hg) as Hr. unfold mbind at 1.
    destruct (on_peer (raw_contains raw a) s) as [[[]|e] s1]; [destruct Hr as [[_ Hg1] Hr]; exfalso; by apply Hg1, Hr|
      destruct Hr as [Hr _]|by apply gone_clean].
    pose proof (claim_claimed gone k adding gone_local (fun s H => proj1 H) s1 Hr) as Hcl. unfold mbind at 1.
    destruct (claim a k adding false s1) as [[[]|e] s2]; [|by apply gone_clean].
    apply keeps_claimed_clean; [done|]. keeps_walk; [apply raw_add_claimed|apply claim_keeps_claimed].
  - assert (claimed s) as Hm.
    { split; [done|]. destruct (owners (registry s) a) as [|[k' m'] rest] eqn:Eo.
      - unfold a_foreign in Hf. rewrite Hf in En. simpl in En. done.
      - exists k'. unfold a_holds, holds. rewrite Eo. simpl. set_solver. }
    apply keeps_claimed_clean; [done|]. keeps_walk; [apply claim_keeps_claimed|apply ensure_claimed].
Qed.

Lemma remove_clean k : keeps clean (remove_normalized raw a k).
Proof.
  intros s Hs. pose proof Hs as [Hf Hc]. unfold remove_normalized. unfold mbind at 1, gets.
  destruct (str_in k (owners (registry s) a).*1) eqn:Ek; [|done]. apply str_in_elem in Ek. cbn [negb]. unfold mbind at 1.
  assert (claimed s) as Hm by (split; [done|by exists k]).
  rewrite (Hf : is_foreign (registry s) a = false), orb_false_r.
  destruct (Nat.eqb _ 0) eqn:En; cbn [negb].
  - unfold mbind at 1, on_peer. pose proof (remove_effect a (peer s)) as He. pose proof (remove_shrinks a (peer s)) as Hsh.
    destruct (raw_remove raw a (peer s)) as [[[]|e] w]; simpl in *; [|by apply claimed_clean].
    assert (gone (set_peer w s)) as Hg by (split; [done|]; by apply He).
    pose proof (release_triple gone k gone_local (set_peer w s) Hg) as Hr. unfold mbind.
    destruct (release a k (set_peer w s)) as [[[]|e] s1]; [|by apply gone_clean].
    destruct Hr as (s0 & [Hf0 Hp0] & Hpeer & _ & Hf'). apply gone_clean. split.
    + apply not_true_iff_false. rewrite Hf', Hf0. by intros [? _].
    + unfold a_present in *. by rewrite Hpeer.
  - assert (exists k', a_holds k' s /\ k' <> k) as (k' & Hk' & Hne).
    { apply Nat.eqb_neq in En. destruct (List.filter _ _) as [|k' rest] eqn:E; [done|]. exists k'.
      assert (In k' (List.filter (fun x => negb (String.eqb x k)) (owners (registry s) a).*1)) as Hin by (rewrite E; by left).
      apply List.filter_In in Hin as [Hin Hne]. split; [by apply list_elem_of_In|]. intros ->. by rewrite String.eqb_refl in Hne. }
    pose proof (release_triple claimed k claimed_local s Hm) as Hr. unfold mbind.
    destruct (release a k s) as [[[]|e] s1] eqn:Er; [|by apply claimed_clean].
    unfold release, write in Er. destruct (hd true _); [|discriminate]. injection Er as <-.
    apply claimed_clean. split.
    + unfold a_foreign. simpl. apply not_true_iff_false. change (is_foreign (release_rows a k (registry s)) a <> true).
      rewrite release_foreign. unfold a_foreign in Hf. rewrite Hf. by intros [? _].
    + exists k'. unfold a_holds. change (holds (release_rows a k (registry s)) a k'). apply release_holds. split; [done|]. by intros [_ ?].
Qed.
(** ** What a successful removal tells *)
Lemma remove_releases k s tag s' :
  remove_normalized raw a k s = (Ok tag, s') ->
  ~ a_holds k s' /\
  (tag = _tag "shared" k /\ (exists k', a_holds k' s') \/ tag = _tag "preexisting" k /\ a_foreign s = true \/
   tag = _tag "absent" k \/ tag = _tag "removed" k).
Proof.
  unfold remove_normalized. unfold mbind at 1, gets.
  destruct (str_in k (owners (registry s) a).*1) eqn:Ek.
  2:{ simpl. intros [= <- <-]. split; [|auto]. intros Hk. apply str_in_elem in Hk. congruence. }
  cbn [negb]. unfold mbind at 1.
  assert (Hrel : forall s0 s1, release a k s0 = (Ok tt, s1) ->
    ~ a_holds k s1 /\ forall k', a_holds k' s1 <-> a_holds k' s0 /\ k' <> k).
  { intros s0 s1. unfold release, write. destruct (hd true _); [|discriminate]. intros [= <-].
    assert (forall k', a_holds k' (set_registry (release_rows a k (registry s0)) s0) <-> a_holds k' s0 /\ k' <> k) as H.
    { intros k'. unfold a_holds. simpl. rewrite release_holds. naive_solver. }
    split; [|exact H]. intros Hk. apply H in Hk as [_ ?]. done. }
  destruct (Nat.eqb _ 0) eqn:En; cbn [negb orb].
  - destruct (is_foreign (registry s) a) eqn:Ef.
    + unfold mbind. destruct (release a k s) as [[[]|e] s1] eqn:Er; [|discriminate]. intros [= <- <-].
      destruct (Hrel _ _ Er) as [H _]. split; [done|]. right. by left.
    + unfold mbind. destruct (on_peer (raw_remove raw a) s) as [[[]|e] s1]; [|discriminate].
      destruct (release a k s1) as [[[]|e] s2] eqn:Er; [|discriminate]. intros [= <- <-].
      destruct (Hrel _ _ Er) as [H _]. split; [done|]. by do 3 right.
  - unfold mbind. destruct (release a k s) as [[[]|e] s1] eqn:Er; [|discriminate]. intros [= <- <-].
    destruct (Hrel _ _ Er) as [H Hall]. split; [done|]. left. split; [done|].
    apply Nat.eqb_neq in En. destruct (List.filter _ _) as [|k' rest] eqn:E; [done|]. exists k'.
    assert (In k' (List.filter (fun x => negb (String.eqb x k)) (owners (registry s) a).*1)) as Hin by (rewrite E; by left).
    apply List.filter_In in Hin as [Hin Hne]. apply Hall. split; [by apply list_elem_of_In|].
    intros ->. by rewrite String.eqb_refl in Hne.
Qed.
End one_address.
End runs.
