(* ===== verification/Blocklist.v ===== *)
(** [response/adapters/blocklist.py], [opnsense.py] and [wazuh.py]: the adapters that contain.

    A client is a record of calls over the state [W] of the network; a call may raise.  The
    adapters are given in the form the orchestrator uses them ([ContainmentAdapter]). *)

From S2P Require Import Prelude PyText PyNum PyNet PyJson Decision AuditLog Effects Adapters.

(** * Blocklist peers *)

Definition SOC_BLOCKLIST_ALIAS : string := "SOC_BLOCKLIST".
Definition BACKSTOP_GRACE_SECONDS : Z := 300.

Record BlocklistClient (W : Type) : Type := {
  client_add : string -> string -> option Z -> M W string;
  client_remove : string -> string -> M W string;
  client_contains : string -> M W bool }.
Arguments client_add {W}.
Arguments client_remove {W}.
Arguments client_contains {W}.

Record BlocklistPeer (W : Type) : Type := { peer_name : string; peer_client : BlocklistClient W }.
Arguments peer_name {W}.
Arguments peer_client {W}.

Record BlocklistAdapter (W : Type) : Type := { blocklist_name : string; blocklist_peers : list (BlocklistPeer W) }.
Arguments blocklist_name {W}.
Arguments blocklist_peers {W}.

(** [BlocklistAdapter.__init__]. *)
Definition blocklist_adapter {W} (peers : list (BlocklistPeer W)) (name : option string) : result (BlocklistAdapter W) :=
  let names := map peer_name peers in
  raise_if ((length peers <? 2)%nat || existsb (fun n => String.eqb n "") names || negb (bool_decide (NoDup names)))
    (ValueError "at least two uniquely named firewall peers are required") ;;?
  Ok {| blocklist_name := default "firewall" name; blocklist_peers := peers |}.

Definition nftables_blocklist_adapter {W} (peers : list (BlocklistPeer W)) : result (BlocklistAdapter W) :=
  blocklist_adapter peers (Some "nftables").

Definition vyos_blocklist_adapter {W} (peers : list (BlocklistPeer W)) : result (BlocklistAdapter W) :=
  blocklist_adapter peers (Some "vyos").

Definition opnsense_blocklist_adapter {W} (primary secondary : BlocklistPeer W) : result (BlocklistAdapter W) :=
  raise_if (String.eqb (peer_name primary) "" || String.eqb (peer_name secondary) ""
            || String.eqb (peer_name primary) (peer_name secondary))
    (ValueError "two uniquely named OPNsense HA peers are required") ;;?
  blocklist_adapter [primary; secondary] (Some "opnsense").

(** ** What the adapters read of a command *)

Definition _lifetime (c : Command) : option Z :=
  match cmd_ttl c with
  | PInt ttl => if ttl <=? 0 then None else Some (ttl + BACKSTOP_GRACE_SECONDS)
  | PFloat _ => None
  end.

Definition _command_address (c : Command) : result string :=
  raise_if (negb (String.eqb (cmd_action c) "block_ip") || negb (String.eqb (target_type (cmd_target c)) "ip"))
    (ValueError "firewall adapters accept only block_ip commands for IP targets") ;;?
  match ip_address (target_value (cmd_target c)) with
  | Some a => Ok (ip_text a)
  | None => Err (ValueError (py_repr (target_value (cmd_target c)) +:+ " does not appear to be an IPv4 or IPv6 address"))
  end.

Definition _idempotency_key (c : Command) : result string :=
  raise_if (String.eqb (idempotency_key c) "") (ValueError "firewall command has no idempotency key") ;;?
  Ok (idempotency_key c).

Definition _released_without_removal (reference : string) : bool :=
  starts_with "shared:" reference || starts_with "preexisting:" reference.

Section blocklist.
Context {W : Type}.
Variable b : BlocklistAdapter W.
Notation Peer := (BlocklistPeer W).

Definition _evidence_ref (p : Peer) (operation reference : string) : string :=
  blocklist_name b +:+ ":" +:+ peer_name p +:+ ":" +:+ SOC_BLOCKLIST_ALIAS +:+ ":" +:+ operation +:+ ":" +:+ reference.

Definition outcome_code_of (suffix : string) : string := py_upper (blocklist_name b) +:+ "_HA_" +:+ suffix.

Definition blocklist_recovery_reference (c : Command) : result (option string) :=
  let? _ := _command_address c in
  let? key := _idempotency_key c in
  Ok (Some (blocklist_name b +:+ "-ha:" +:+ SOC_BLOCKLIST_ALIAS +:+ ":" +:+ key)).

(** [_rollback_peers], on the peers in the order given: the code reverses them first. *)
Fixpoint rollback_peers (address key : string) (peers : list Peer) : M W (list string) :=
  match peers with
  | [] => ret []
  | p :: rest =>
      attempt (client_remove (peer_client p) address key) (fun r =>
        let! refs := rollback_peers address key rest in
        ret (_evidence_ref p "compensate" (match r with Ok reference => reference | Err _ => "failed" end) :: refs))
  end.

Definition _rollback_peers (peers : list Peer) (address key : string) : M W (list string) :=
  rollback_peers address key (rev peers).

(** The loop of [apply]: the peers touched, the references collected, and whether it went through. *)
Fixpoint apply_peers (address key : string) (lifetime : option Z) (peers applied : list Peer) (refs : list string) :
    M W (list Peer * list string * bool) :=
  match peers with
  | [] => ret (applied, refs, true)
  | p :: rest =>
      let applied := applied ++ [p] in
      attempt (client_add (peer_client p) address key lifetime) (fun added =>
        match added with
        | Err _ => ret (applied, refs, false)
        | Ok peer_ref =>
            let refs := refs ++ [_evidence_ref p "add" peer_ref] in
            attempt (client_contains (peer_client p) address) (fun there =>
              match there with
              | Ok true => apply_peers address key lifetime rest applied (refs ++ [_evidence_ref p "membership" SOC_BLOCKLIST_ALIAS])
              | _ => ret (applied, refs, false)
              end)
        end)
  end.

Definition blocklist_apply (c : Command) : M W AdapterOutcome :=
  let! address := lift (_command_address c) in
  let! key := lift (_idempotency_key c) in
  let! loop := apply_peers address key (_lifetime c) (blocklist_peers b) [] [] in
  let '(applied, refs, went_through) := loop in
  if went_through then
    let! reference := lift (blocklist_recovery_reference c) in
    ret (outcome_success (default "" reference) refs)
  else
    let! rollback_refs := _rollback_peers applied address key in
    ret (outcome_failure (outcome_code_of "APPLY_FAILED")
      "SOC_BLOCKLIST apply failed; applied peers were reverted where possible" (refs ++ rollback_refs)).

(** The loop of [verify]: the references, and the peers without the address, or the peer that could
    not be read. *)
Fixpoint verify_peers (address : string) (peers : list Peer) (refs missing : list string) :
    M W (list string * (list string + string)) :=
  match peers with
  | [] => ret (refs, inl missing)
  | p :: rest =>
      attempt (client_contains (peer_client p) address) (fun r =>
        match r with
        | Err _ => ret (refs, inr (peer_name p))
        | Ok there =>
            verify_peers address rest (refs ++ [_evidence_ref p "verify" SOC_BLOCKLIST_ALIAS])
              (if there then missing else missing ++ [peer_name p])
        end)
  end.

Definition blocklist_verify (c : Command) (reference : string) : M W AdapterOutcome :=
  let! address := lift (_command_address c) in
  let! loop := verify_peers address (blocklist_peers b) [] [] in
  ret match loop with
      | (refs, inr name) => outcome_failure (outcome_code_of "VERIFY_ERROR") ("cannot verify " +:+ name +:+ " fixed-set membership") refs
      | (refs, inl []) => outcome_success reference refs
      | (refs, inl missing) =>
          outcome_failure (outcome_code_of "VERIFY_FAILED") ("SOC_BLOCKLIST is absent on peer(s): " +:+ str_join ", " missing) refs
      end.

(** One peer of [revert]: what it adds to the references, and whether it failed. *)
Definition revert_peer (address key : string) (p : Peer) : M W (list string * bool) :=
  attempt (client_remove (peer_client p) address key) (fun removed =>
    match removed with
    | Err _ => ret ([], true)
    | Ok peer_ref =>
        let first := _evidence_ref p "remove" peer_ref in
        attempt (client_contains (peer_client p) address) (fun there =>
          ret match there with
              | Err _ => ([first], true)
              | Ok false => ([first; _evidence_ref p "absence" SOC_BLOCKLIST_ALIAS], false)
              | Ok true =>
                  if _released_without_removal peer_ref
                  then ([first; _evidence_ref p "released" SOC_BLOCKLIST_ALIAS], false)
                  else ([first], true)
              end)
    end).

Fixpoint revert_peers (address key : string) (peers : list Peer) (refs failures : list string) :
    M W (list string * list string) :=
  match peers with
  | [] => ret (refs, failures)
  | p :: rest =>
      let! r := revert_peer address key p in
      revert_peers address key rest (refs ++ r.1) (if r.2 then failures ++ [peer_name p] else failures)
  end.

Definition blocklist_revert (c : Command) (reference : string) : M W AdapterOutcome :=
  let! address := lift (_command_address c) in
  let! key := lift (_idempotency_key c) in
  let! loop := revert_peers address key (blocklist_peers b) [] [] in
  ret match loop with
      | (refs, []) => outcome_success reference refs
      | (refs, failures) =>
          outcome_failure (outcome_code_of "REVERT_FAILED")
            ("SOC_BLOCKLIST removal could not be verified on peer(s): " +:+ str_join ", " failures) refs
      end.

Definition as_raw (m : M W AdapterOutcome) : M W raw_outcome := let! o := m in ret (Outcome o).

Definition blocklist_containment : ContainmentAdapter W :=
  {| adapter_name := blocklist_name b; adapter_action := "block_ip";
     recovery_reference := blocklist_recovery_reference;
     adapter_apply := fun c => as_raw (blocklist_apply c);
     adapter_verify := fun c reference => as_raw (blocklist_verify c reference);
     adapter_revert := fun c reference => as_raw (blocklist_revert c reference) |}.
End blocklist.

(** * Endpoint isolation through Wazuh *)

Definition ISOLATE_ACTION : string := "cxyz-isolate-endpoint".
Definition RECOVER_ACTION : string := "cxyz-restore-endpoint".

Record WazuhControlledResponseClient (W : Type) : Type := {
  start_isolation : string -> string -> M W string;
  isolation_is_enforced : string -> string -> M W bool;
  restore_isolation : string -> string -> M W string;
  isolation_is_removed : string -> string -> M W bool }.
Arguments start_isolation {W}.
Arguments isolation_is_enforced {W}.
Arguments restore_isolation {W}.
Arguments isolation_is_removed {W}.

Definition _command_host (c : Command) : result (string * string) :=
  raise_if (negb (String.eqb (cmd_action c) "isolate_host") || negb (String.eqb (target_type (cmd_target c)) "host"))
    (ValueError "Wazuh adapter accepts only isolate_host commands for host targets") ;;?
  raise_if (String.eqb (target_value (cmd_target c)) "" || String.eqb (idempotency_key c) "")
    (ValueError "Wazuh command lacks host or correlation identity") ;;?
  Ok (target_value (cmd_target c), idempotency_key c).

Section wazuh.
Context {W : Type}.
Variable client : WazuhControlledResponseClient W.

Definition wazuh_recovery_reference (c : Command) : result (option string) :=
  let? h := _command_host c in Ok (Some ("wazuh:" +:+ ISOLATE_ACTION +:+ ":" +:+ h.2)).

Definition wazuh_apply (c : Command) : M W AdapterOutcome :=
  let! h := lift (_command_host c) in
  attempt (start_isolation client h.1 h.2) (fun r =>
    match r with
    | Err _ => ret (outcome_failure "WAZUH_ISOLATE_FAILED" "controlled Wazuh isolation request failed" [])
    | Ok reference =>
        let! own := lift (wazuh_recovery_reference c) in
        ret (outcome_success (default "" own) ["wazuh:" +:+ ISOLATE_ACTION +:+ ":" +:+ reference])
    end).

Definition wazuh_verify (c : Command) (reference : string) : M W AdapterOutcome :=
  let! h := lift (_command_host c) in
  attempt (isolation_is_enforced client h.1 h.2) (fun r =>
    ret match r with
        | Err _ => outcome_failure "WAZUH_ISOLATE_VERIFY_ERROR" "cannot verify controlled Wazuh isolation" []
        | Ok false => outcome_failure "WAZUH_ISOLATE_VERIFY_FAILED" "Wazuh did not prove endpoint isolation" []
        | Ok true => outcome_success reference ["wazuh:" +:+ ISOLATE_ACTION +:+ ":verified"]
        end).

Definition wazuh_revert (c : Command) (reference : string) : M W AdapterOutcome :=
  let! h := lift (_command_host c) in
  attempt (let! restored := restore_isolation client h.1 h.2 in
           let! removed := isolation_is_removed client h.1 h.2 in
           ret (restored, removed)) (fun r =>
    ret match r with
        | Err _ => outcome_failure "WAZUH_RECOVER_FAILED" "controlled Wazuh recovery failed" []
        | Ok (_, false) => outcome_failure "WAZUH_RECOVER_VERIFY_FAILED" "Wazuh did not prove endpoint recovery" []
        | Ok (restored, true) =>
            outcome_success reference ["wazuh:" +:+ RECOVER_ACTION +:+ ":" +:+ restored; "wazuh:" +:+ RECOVER_ACTION +:+ ":verified"]
        end).

Definition wazuh_containment : ContainmentAdapter W :=
  {| adapter_name := "wazuh"; adapter_action := "isolate_host";
     recovery_reference := wazuh_recovery_reference;
     adapter_apply := fun c => as_raw (wazuh_apply c);
     adapter_verify := fun c reference => as_raw (wazuh_verify c reference);
     adapter_revert := fun c reference => as_raw (wazuh_revert c reference) |}.
End wazuh.
