(* ===== verification/Transports.v ===== *)
(** [response/transports/nftables.py], [vyos.py], [opnsense.py] and [wazuh_api.py]: the raw sets of
    the three firewall backends, and the Wazuh manager client, over the HTTP transport of
    [Https.v]. *)

From S2P Require Import Prelude PyText PyNum PyNet PyJson Sha256 Policy Effects Https Ownership Blocklist.

(** [isinstance(v, ...)], [v is True]. *)
Definition is_true (v : val) : bool :=
  match v with
  | VBool b => b
  | _ => false
  end.

(** * nftables enforcement agent *)
Section nftables.
Context {W : Type}.
Variable http : JsonHTTPS W.

Definition nft_contains (address : string) : M W bool :=
  let! answer := request http "POST" "/v1/contains" (Some (VDict [("address", VStr address)])) in
  match (if answer.1 =? 200 then get "present" answer.2 else VNone) with
  | VBool present => ret present
  | _ => raise (delivery_error "NFT_AGENT_CONTAINS_CONTRACT" true)
  end.

Definition nft_add (address : string) (max_lifetime_seconds : option Z) : M W unit :=
  let! answer := request http "POST" "/v1/add"
    (Some (VDict (("address", VStr address) ::
      (match max_lifetime_seconds with Some n => [("max_lifetime_seconds", VInt n)] | None => [] end)))) in
  raise_when (negb (answer.1 =? 200) || negb (is_true (get "ok" answer.2))) (delivery_error "NFT_AGENT_ADD_NOT_ACKNOWLEDGED" true).

Definition nft_remove (address : string) : M W unit :=
  let! answer := request http "POST" "/v1/remove" (Some (VDict [("address", VStr address)])) in
  raise_when (negb (answer.1 =? 200) || negb (is_true (get "ok" answer.2))) (delivery_error "NFT_AGENT_REMOVE_NOT_ACKNOWLEDGED" true).

Definition nftables_raw_set : RawSet W := {| raw_contains := nft_contains; raw_add := nft_add; raw_remove := nft_remove |}.
End nftables.

(** * VyOS *)
Definition VYOS_PATH : list string := ["firewall"; "group"; "address-group"; SOC_BLOCKLIST_ALIAS; "address"].

Section vyos.
Context {W : Type}.
Variable http : JsonHTTPS W.
Variable api_key : string.

(** The operation's keys are written in sorted order, so its compact form is the canonical one. *)
Definition vyos_call (endpoint op : string) (path : list string) : M W mapping :=
  let! answer := post_form http endpoint
    [("data", canonical_json (VDict [("op", VStr op); ("path", VList (map VStr path))])); ("key", api_key)] in
  raise_when (negb (answer.1 =? 200)) (delivery_error "VYOS_API_STATUS" true) ;;!
  ret answer.2.

Definition error_text (reply : mapping) : string := py_lower (str_val (default (VStr "") (assoc "error" reply))).

Definition vyos_contains (address : string) : M W bool :=
  let! reply := vyos_call "/retrieve" "returnValues" VYOS_PATH in
  if negb (is_true (get "success" reply)) then
    if str_contains "empty" (error_text reply) || str_contains "does not exist" (error_text reply) then ret false
    else raise (delivery_error "VYOS_RETRIEVE_FAILED" true)
  else
    let values := match get "data" reply with
                  | VList l => l
                  | VStr s => [VStr s]
                  | _ => []
                  end in
    ret (existsb (fun v => py_eq (VStr address) v) values).

Definition vyos_add (address : string) (max_lifetime_seconds : option Z) : M W unit :=
  let! reply := vyos_call "/configure" "set" (VYOS_PATH ++ [address]) in
  raise_when (negb (is_true (get "success" reply))) (delivery_error "VYOS_SET_FAILED" true).

Definition vyos_remove (address : string) : M W unit :=
  let! reply := vyos_call "/configure" "delete" (VYOS_PATH ++ [address]) in
  raise_when (negb (is_true (get "success" reply)) && negb (str_contains "nothing to delete" (error_text reply))
              && negb (str_contains "not exist" (error_text reply))) (delivery_error "VYOS_DELETE_FAILED" true).
End vyos.

Definition vyos_raw_set {W} (http : JsonHTTPS W) (api_key : string) : result (RawSet W) :=
  raise_if (String.eqb api_key "" || negb (str_forallb (fun c => negb (is_space c)) api_key))
    (ValueError "VyOS API key must be a single token") ;;?
  Ok {| raw_contains := vyos_contains http api_key; raw_add := vyos_add http api_key; raw_remove := vyos_remove http api_key |}.

(** * OPNsense *)
Definition OPNSENSE_BASE : string := "/api/firewall/alias_util".

(** [ip_address(str(value).split("/")[0]) == target], where a [ValueError] only skips the row. *)
Definition row_matches (target : ip_addr) (row : val) : bool :=
  match match row with VDict d => get "ip" d | _ => VNone end with
  | VNone => false
  | value => bool_decide (ip_address (hd "" (split_on "/" (str_val value))) = Some target)
  end.

Section opnsense.
Context {W : Type}.
Variable http : JsonHTTPS W.

Definition opnsense_contains (address : string) : M W bool :=
  let! answer := request http "GET" (OPNSENSE_BASE +:+ "/list/" +:+ SOC_BLOCKLIST_ALIAS) None in
  match (if answer.1 =? 200 then get "rows" answer.2 else VNone) with
  | VList rows =>
      match ip_address address with
      | Some target => ret (existsb (row_matches target) rows)
      | None => raise (ValueError (py_repr address +:+ " does not appear to be an IPv4 or IPv6 address"))
      end
  | _ => raise (delivery_error "OPNSENSE_LIST_CONTRACT" true)
  end.

Definition opnsense_add (address : string) (max_lifetime_seconds : option Z) : M W unit :=
  let! answer := request http "POST" (OPNSENSE_BASE +:+ "/add/" +:+ SOC_BLOCKLIST_ALIAS) (Some (VDict [("address", VStr address)])) in
  raise_when (negb (answer.1 =? 200) || negb (py_eq (get "status" answer.2) (VStr "done")))
    (delivery_error "OPNSENSE_ADD_NOT_ACKNOWLEDGED" true).

(** An unhashable status is no member of the set either: Python raises [TypeError] there. *)
Definition acknowledged_removal (status : val) : result bool :=
  match status with
  | VList _ | VDict _ => Err (TypeError "unhashable type")
  | _ => Ok (py_eq status (VStr "done") || py_eq status (VStr "not_found"))
  end.

Definition opnsense_remove (address : string) : M W unit :=
  let! answer := request http "POST" (OPNSENSE_BASE +:+ "/delete/" +:+ SOC_BLOCKLIST_ALIAS) (Some (VDict [("address", VStr address)])) in
  raise_when (negb (answer.1 =? 200)) (delivery_error "OPNSENSE_DELETE_NOT_ACKNOWLEDGED" true) ;;!
  let! acknowledged := lift (acknowledged_removal (get "status" answer.2)) in
  raise_when (negb acknowledged) (delivery_error "OPNSENSE_DELETE_NOT_ACKNOWLEDGED" true).

Definition opnsense_raw_set : RawSet W := {| raw_contains := opnsense_contains; raw_add := opnsense_add; raw_remove := opnsense_remove |}.
End opnsense.

(** * Wazuh manager *)
Definition ISOLATE_SCRIPT : string := "!cxyz-isolate-endpoint".
Definition RESTORE_SCRIPT : string := "!cxyz-restore-endpoint".
Definition MARKER_DIR : string := "/var/ossec/var/cxyz-isolation".

(** Clock readings and durations are nanoseconds. *)
Definition NS : Z := 1000000000.
Definition TOKEN_TTL : Z := 600 * NS.

Definition operation_digest (operation_id : string) : string := hexdigest (sha256 (utf8 operation_id)).
Definition marker_path (operation_id : string) : string := MARKER_DIR +:+ "/" +:+ str_take 40 (operation_digest operation_id).

(** The client's state: its token with the time it was issued, and the world. *)
Record WazuhSession (W : Type) : Type := { wz_token : option string; wz_token_at : Z; wz_world : W }.
Arguments wz_token {W}.
Arguments wz_token_at {W}.
Arguments wz_world {W}.

Section wazuh.
Context {W : Type}.
Variables basic http : JsonHTTPS W.
Variables timeout poll : Z.
Variable clock : M W Z.
Variable sleep : Z -> M W unit.
Notation S := (WazuhSession W).

Definition outside {X} (m : M W X) : M S X :=
  fun s => let '(r, w) := m (wz_world s) in (r, {| wz_token := wz_token s; wz_token_at := wz_token_at s; wz_world := w |}).

Definition set_token (t : option string) (at_ : Z) : M S unit :=
  modify (fun s => {| wz_token := t; wz_token_at := at_; wz_world := wz_world s |}).

(** The token in [_bearer], renewed when there is none or it is too old. *)
Definition authenticate : M S string :=
  let! answer := outside (request basic "POST" "/security/user/authenticate" None) in
  let! token := lift (if answer.1 =? 200
                      then let? data := get_attr "data" (VDict []) (VDict answer.2) in get_attr "token" VNone data
                      else Ok VNone) in
  match token with
  | VStr t =>
      if String.eqb t "" then raise (delivery_error "WAZUH_AUTH_FAILED" true)
      else let! now := outside clock in set_token (Some t) now ;;! ret t
  | _ => raise (delivery_error "WAZUH_AUTH_FAILED" true)
  end.

Definition _bearer : M S (JsonHTTPS W) :=
  let! token := gets wz_token in
  let! value :=
    match token with
    | None => authenticate
    | Some t =>
        let! now := outside clock in
        let! issued := gets wz_token_at in
        if TOKEN_TTL <? now - issued then authenticate else ret t
    end in
  ret (with_authorization http (ret ("Bearer " +:+ value))).

Definition bearer_request (method path : string) (payload : option val) : M S (Z * mapping) :=
  let! transport := _bearer in outside (request transport method path payload).

Definition wazuh_call (method path : string) (payload : option val) : M S mapping :=
  let! answer :=
    attempt (bearer_request method path payload) (fun r =>
      match r with
      | Ok answer => ret answer
      | Err (DeliveryError error_code retry (Some 401)) =>
          let! issued := gets wz_token_at in
          set_token None issued ;;! bearer_request method path payload
      | Err e => raise e
      end) in
  raise_when (negb (answer.1 =? 200)) (delivery_error "WAZUH_API_STATUS" true) ;;!
  ret answer.2.

Definition reply_data (reply : mapping) : val := default (VDict []) (assoc "data" reply).

(** The agent's id, when exactly one active agent has the host's name. *)
Definition agent_of (host : string) (reply : mapping) : result string :=
  let? items := get_attr "affected_items" (VList []) (reply_data reply) in
  let? n := py_len items in
  if negb (n =? 1) then Err (delivery_error "WAZUH_AGENT_NOT_UNIQUE_ACTIVE" false)
  else
    let? first := py_first items in
    let? name := get_attr "name" VNone first in
    if negb (py_eq name (VStr host)) then Err (delivery_error "WAZUH_AGENT_NOT_UNIQUE_ACTIVE" false)
    else
      let? status := get_attr "status" VNone first in
      if negb (py_eq status (VStr "active")) then Err (delivery_error "WAZUH_AGENT_NOT_UNIQUE_ACTIVE" false)
      else let? id := subscript "id" first in Ok (str_val id).

Definition _agent_id (host : string) : M S string :=
  let! reply := wazuh_call "GET" ("/agents?name=" +:+ quote "" host +:+ "&select=id,name,status&limit=2") None in
  lift (agent_of host reply).

Definition trigger_accepted (agent : string) (reply : mapping) : result bool :=
  let? failed := get_attr "total_failed_items" (VInt 1) (reply_data reply) in
  if negb (py_eq failed (VInt 0)) then Ok false
  else
    let? items := get_attr "affected_items" (VList []) (reply_data reply) in
    let? ids := texts_of items in
    Ok (str_in agent ids).

Definition _trigger (script host operation_id : string) : M S string :=
  let! agent := _agent_id host in
  let! reply := wazuh_call "PUT" ("/active-response?agents_list=" +:+ quote "" agent)
    (Some (VDict [("command", VStr script); ("custom", VBool true); ("arguments", VList [VStr operation_id])])) in
  let! accepted := lift (trigger_accepted agent reply) in
  raise_when (negb accepted) (delivery_error "WAZUH_ACTIVE_RESPONSE_NOT_ACCEPTED" true) ;;!
  ret ("ar:" +:+ agent +:+ ":" +:+ str_take 12 (operation_digest operation_id)).

Definition _marker_present (host operation_id : string) : M S bool :=
  let! agent := _agent_id host in
  let! reply := wazuh_call "GET" ("/syscheck/" +:+ quote "" agent +:+ "?file=" +:+ quote "" (marker_path operation_id) +:+ "&limit=1") None in
  let! total := lift (get_attr "total_affected_items" (VInt 0) (reply_data reply)) in
  lift (is_positive total).

(** The polling loop; [None] when [fuel] turns were not enough. *)
Fixpoint await_until (fuel : nat) (deadline : Z) (host operation_id : string) (present : bool) : M S (option bool) :=
  match fuel with
  | O => ret None
  | Datatypes.S fuel =>
      let! there := _marker_present host operation_id in
      if Bool.eqb there present then ret (Some true)
      else
        let! now := outside clock in
        if deadline <=? now then ret (Some false)
        else outside (sleep poll) ;;! await_until fuel deadline host operation_id present
  end.

(** Turns that are enough when each sleep moves the clock by at least [poll]. *)
Definition await_fuel : nat := Datatypes.S (Datatypes.S (Z.to_nat (timeout / poll))).

Definition _await (host operation_id : string) (present : bool) : M S (option bool) :=
  let! now := outside clock in await_until await_fuel (now + timeout) host operation_id present.

(** A loop cut short has no answer: [await_terminates] shows that it is not. *)
Definition awaited (host operation_id : string) (present : bool) : M S bool :=
  let! r := _await host operation_id present in
  match r with
  | Some b => ret b
  | None => raise AssertionError
  end.

Definition wazuh_client : WazuhControlledResponseClient S :=
  {| start_isolation := _trigger ISOLATE_SCRIPT;
     isolation_is_enforced := fun host op => awaited host op true;
     restore_isolation := _trigger RESTORE_SCRIPT;
     isolation_is_removed := fun host op => awaited host op false |}.
End wazuh.
