(* ===== verification/NftEnforcer.v ===== *)
(** [docker/enforcer/nft_enforcer.py]: the enforcement agent of a firewall node.

    The [nft] program is a parameter: the runner, from an argument vector to the completed process,
    over a state [W] of the packet filter; it may raise.  [json.loads] of its output is part of
    the completed process. *)

From S2P Require Import Prelude PyText PyNum PyNet PyJson Policy Effects.

Definition MAX_BODY : Z := 4096.
Definition DEFAULT_LIFETIME : Z := 3600.
Definition MAX_LIFETIME : Z := 86400 + 600.

Record CompletedProcess : Type := { returncode : Z; stdout_json : result val; stderr : string }.

(** [c.isalnum()] of the characters up to U+00FF. *)
Definition is_alnum (a : ascii) : bool :=
  let c := code a in
  is_ascii_digit a || ((65 <=? c) && (c <=? 90)) || ((97 <=? c) && (c <=? 122))
  || str_in (str1 a) (map (fun n => str1 (chr n)) [170; 178; 179; 181; 185; 186; 188; 189; 190])
  || ((192 <=? c) && (c <=? 255) && negb (c =? 215) && negb (c =? 247)).

Definition is_name (s : string) : bool :=
  let t := replace_char "_" "" s in negb (String.eqb t "") && str_forallb is_alnum t.

Record Enforcer (W : Type) : Type := {
  nft : string;
  family : string;
  table : string;
  set_name : string;
  run : list string -> M W CompletedProcess }.
Arguments nft {W}.
Arguments family {W}.
Arguments table {W}.
Arguments set_name {W}.
Arguments run {W}.

Definition enforcer {W} (nft family table set_name : string) (run : list string -> M W CompletedProcess) : result (Enforcer W) :=
  raise_if (negb (is_name family && is_name table && is_name set_name))
    (ValueError "family, table and set names must be alphanumeric/underscore") ;;?
  Ok {| nft := nft; family := family; table := table; set_name := set_name; run := run |}.

Definition special_use (ip : ip_addr) : bool :=
  is_unspecified ip || is_loopback ip || is_multicast ip || is_link_local ip || is_reserved ip.

Definition parse (address : val) : result ip_addr :=
  match address with
  | VStr s =>
      match ip_address s with
      | None => Err (ValueError (py_repr s +:+ " does not appear to be an IPv4 or IPv6 address"))
      | Some ip =>
          raise_if (special_use ip) (ValueError "special-use addresses are never blocked") ;;? Ok ip
      end
  | _ => Err (ValueError "address must be a string")
  end.

(** [ipaddress.ip_address(value)] of a value of an nft listing: an int is the address itself. *)
Definition ip_of_val (v : val) : option ip_addr :=
  match as_number v with
  | Some (PInt z) =>
      if (0 <=? z) && (z <? 2 ^ 32) then Some (IPv4 z)
      else if (0 <=? z) && (z <? 2 ^ 128) then Some (IPv6 z None) else None
  | _ => ip_address (str_val v)
  end.

(** One element of a set: an address, or an address with its timeout. *)
Definition element_is (ip : ip_addr) (element : val) : result bool :=
  let? value :=
    match element with
    | VDict _ => let? elem := get_attr "elem" (VDict []) element in get_attr "val" VNone elem
    | _ => Ok element
    end in
  Ok match value with
     | VNone => false
     | _ => bool_decide (ip_of_val value = Some ip)
     end.

Definition item_lists (ip : ip_addr) (item : val) : result bool :=
  let? set_ := get_attr "set" (VDict []) item in
  let? elem := get_attr "elem" (VList []) set_ in
  let? elements := py_iter elem in
  existsR (element_is ip) elements.

Definition listing_has (ip : ip_addr) (listing : val) : result bool :=
  let? nftables := get_attr "nftables" (VList []) listing in
  let? items := py_iter nftables in
  existsR (item_lists ip) items.

Section enforcer.
Context {W : Type}.
Variable e : Enforcer W.

(** [self._sets[ip.version]]. *)
Definition set_of (ip : ip_addr) : string := if is_v4 ip then set_name e else set_name e +:+ "6".

Definition _base (verb : string) (ip : ip_addr) : list string := [nft e; verb; "element"; family e; table e; set_of ip].

Definition add_element (ip : ip_addr) (seconds : Z) : list string :=
  _base "add" ip ++ ["{ " +:+ ip_text ip +:+ " timeout " +:+ str_of_Z seconds +:+ "s }"].
Definition delete_element (ip : ip_addr) : list string := _base "delete" ip ++ ["{ " +:+ ip_text ip +:+ " }"].
Definition list_set (ip : ip_addr) : list string := [nft e; "-j"; "list"; "set"; family e; table e; set_of ip].

(** [DEFAULT_LIFETIME if lifetime is None else int(lifetime)], within its bounds. *)
Definition lifetime_seconds (lifetime : val) : result Z :=
  let? seconds := match lifetime with VNone => Ok DEFAULT_LIFETIME | _ => int_of_val lifetime end in
  raise_if (negb ((60 <=? seconds) && (seconds <=? MAX_LIFETIME)))
    (ValueError "max_lifetime_seconds is outside the permitted range") ;;?
  Ok seconds.

Definition enforcer_add (address lifetime : val) : M W unit :=
  let! ip := lift (parse address) in
  let! seconds := lift (lifetime_seconds lifetime) in
  let! result := run e (add_element ip seconds) in
  raise_when (negb (returncode result =? 0)) (RuntimeError "nft add failed").

Definition enforcer_remove (address : val) : M W unit :=
  let! ip := lift (parse address) in
  let! result := run e (delete_element ip) in
  raise_when (negb (returncode result =? 0) && negb (str_contains "No such file" (stderr result))
              && negb (str_contains "does not exist" (stderr result))) (RuntimeError "nft delete failed").

Definition enforcer_contains (address : val) : M W bool :=
  let! ip := lift (parse address) in
  let! result := run e (list_set ip) in
  raise_when (negb (returncode result =? 0)) (RuntimeError "nft list failed") ;;!
  let! listing := lift (stdout_json result) in
  lift (listing_has ip listing).

(** * The request handler *)

(** A POST as [http.server] hands it over: the client certificate's common name, the path, the
    [Content-Length] header, and what [json.loads] gives for the first bytes of the body. *)
Record post : Type := {
  post_client : option string;
  post_path : string;
  post_length : option string;
  post_json : Z -> result val }.

Definition refusal (message : string) : mapping := [("ok", VBool false); ("error", VStr message)].

(** The operation of a path, on the decoded body. *)
Definition route (path : string) (body : mapping) : M W (Z * mapping) :=
  let address := get "address" body in
  if String.eqb path "/v1/add" then
    enforcer_add address (get "max_lifetime_seconds" body) ;;! ret (200, [("ok", VBool true)])
  else if String.eqb path "/v1/remove" then
    enforcer_remove address ;;! ret (200, [("ok", VBool true)])
  else if String.eqb path "/v1/contains" then
    let! present := enforcer_contains address in ret (200, [("present", VBool present)])
  else ret (404, refusal "unknown operation").

(** The [try] block of [do_POST]. *)
Definition handle_post (p : post) : M W (Z * mapping) :=
  let! length := lift (int_of_text (default "0" (post_length p))) in
  if negb ((0 <? length) && (length <=? MAX_BODY)) then ret (400, refusal "bad length")
  else
    let! body := lift (post_json p length) in
    match body with
    | VDict body => route (post_path p) body
    | _ => raise (ValueError "body must be an object")
    end.

Definition is_type_error (x : exn) : bool :=
  match x with
  | TypeError _ => true
  | _ => false
  end.

Definition is_backend_error (x : exn) : bool :=
  is_runtime_error x ||
  match x with
  | TimeoutExpired | OSError _ => true
  | _ => false
  end.

(** The status and body of the reply; an exception that no clause catches drops the connection. *)
Definition do_POST (allowed_clients : list string) (p : post) : M W (Z * mapping) :=
  if negb (Nat.eqb (length allowed_clients) 0)
     && negb (match post_client p with Some name => str_in name allowed_clients | None => false end)
  then ret (403, refusal "client not permitted")
  else
    catch
      (catch (handle_post p) (fun x => is_value_error x || is_type_error x)
         (fun x => ret (400, refusal (str_take 120 (exn_message x)))))
      is_backend_error (fun _ => ret (502, refusal "enforcement backend error")).
End enforcer.

(** * The text of an address in a command *)

Definition unscoped (ip : ip_addr) : bool :=
  match ip with
  | IPv6 _ (Some _) => false
  | _ => true
  end.

(** Hexadecimal digits, dots and colons: nothing the command language gives a meaning to. *)
Definition plain_char (a : ascii) : bool := is_hex_char a || Ascii.eqb a "." || Ascii.eqb a ":".
Definition plain (s : string) : bool := str_forallb plain_char s.

Lemma plain_digit d : 0 <= d < 16 -> plain_char (digit_char d) = true.
Proof. intros Hd. apply (all_from_spec (fun d => plain_char (digit_char d)) 16 0); [by vm_compute|lia]. Qed.

Lemma digits_plain base n : 0 < base <= 16 -> plain (digits base n) = true.
Proof. intros Hb. apply digits_aux_chars; [lia| |done]. intros d Hd. apply plain_digit. lia. Qed.

Lemma str_of_Z_plain n : 0 <= n -> plain (str_of_Z n) = true.
Proof. intros Hn. unfold str_of_Z. rewrite (proj2 (Z.ltb_ge _ _)) by done. by apply digits_plain. Qed.

Lemma ip_text_plain ip : ip_wf ip -> unscoped ip = true -> plain (ip_text ip) = true.
Proof.
  destruct ip as [n|n [s|]]; intros Hw Hu; [|done|]; cbn [ip_text ip_wf] in *; apply forallb_join; try done.
  - destruct (groups_of_spec 256 4 n) as (_ & _ & Hb); [lia|done|]. apply Forall_map. eapply Forall_impl; [done|].
    intros x Hx. apply str_of_Z_plain. cbv beta in Hx. lia.
  - apply compress_Forall; [done|]. apply Forall_map. apply Forall_true. intros x. by apply digits_plain.
Qed.
