(* ===== verification/NftStack.v ===== *)
(** The nftables path from end to end: the raw set of [Transports.v], over an HTTP link that may
    lose requests and replies, to the agent of [NftEnforcer.v], over an [nft] program.

    What is assumed of [nft] is [NftLaws]: its documented behaviour on the three commands the agent
    issues, for an address without a scope identifier.  Nothing is assumed of the commands for one
    with a scope identifier: the text after the [%] reaches nft as it came and may carry further
    statements ([NftProps.scope_identifier_reaches_nft]).  [nft_stack_laws] discharges the interface
    [RawSetLaws] the ownership client relies on, for the calls about one address without a scope
    identifier. *)

From S2P Require Import Prelude PyText PyNum PyNet PyJson Policy Effects Store Https Ownership Blocklist Transports NftEnforcer.

(** * The nft program *)

(** An element of a set as [nft -j] prints it. *)
Definition listed_element (x : ip_addr * option (Z * Z)) : val :=
  match x.2 with
  | None => VStr (ip_text x.1)
  | Some (timeout, expires) =>
      VDict [("elem", VDict [("val", VStr (ip_text x.1)); ("timeout", VInt timeout); ("expires", VInt expires)])]
  end.

(** The listing of one set: a header, then the set; without elements it has no such key. *)
Definition set_listing (header : val) (description : mapping) (elements : list (ip_addr * option (Z * Z))) : val :=
  VDict [("nftables", VList [VDict [("metainfo", header)];
    VDict [("set", VDict (description ++
      match elements with
      | [] => []
      | _ => [("elem", VList (map listed_element elements))]
      end))]])].

(** What nft promises of the three commands.  The address of an element command has no scope
    identifier. *)
Class NftLaws {W : Type} (e : Enforcer W) (in_set : W -> ip_addr -> Prop) : Prop := {
  nft_add_others ip n w x : ip_wf ip -> unscoped ip = true -> 0 < n -> x <> ip ->
    in_set (run e (add_element e ip n) w).2 x <-> in_set w x;
  nft_add_keeps ip n w : ip_wf ip -> unscoped ip = true -> 0 < n -> in_set w ip -> in_set (run e (add_element e ip n) w).2 ip;
  nft_add_effect ip n w p : ip_wf ip -> unscoped ip = true -> 0 < n ->
    (run e (add_element e ip n) w).1 = Ok p -> returncode p = 0 -> in_set (run e (add_element e ip n) w).2 ip;
  nft_delete_others ip w x : ip_wf ip -> unscoped ip = true -> x <> ip ->
    in_set (run e (delete_element e ip) w).2 x <-> in_set w x;
  nft_delete_shrinks ip w : ip_wf ip -> unscoped ip = true -> in_set (run e (delete_element e ip) w).2 ip -> in_set w ip;
  nft_delete_effect ip w p : ip_wf ip -> unscoped ip = true -> (run e (delete_element e ip) w).1 = Ok p ->
    returncode p = 0 \/ str_contains "No such file" (stderr p) = true \/ str_contains "does not exist" (stderr p) = true ->
    ~ in_set (run e (delete_element e ip) w).2 ip;
  nft_list_reads ip w x : in_set (run e (list_set e ip) w).2 x <-> in_set w x;
  nft_list_answers ip w p : (run e (list_set e ip) w).1 = Ok p -> returncode p = 0 ->
    exists header description elements,
      stdout_json p = Ok (set_listing header description elements) /\ assoc "elem" description = None /\
      Forall (fun x => ip_wf x.1) elements /\ forall x, is_v4 x = is_v4 ip -> x ∈ elements.*1 <-> in_set w x }.

(** The agent reads a listing as what it lists. *)
Lemma ip_of_text x : ip_wf x -> ip_of_val (VStr (ip_text x)) = Some x.
Proof. intros H. unfold ip_of_val. cbn [as_number str_val]. by apply ip_text_parse. Qed.

Lemma element_is_listed ip x : ip_wf x.1 -> element_is ip (listed_element x) = Ok (bool_decide (x.1 = ip)).
Proof.
  destruct x as [x [[t n]|]]; cbn [fst snd]; intros Hx; unfold element_is, listed_element; cbn [snd fst];
    cbn -[ip_of_val ip_text bool_decide]; rewrite (ip_of_text x Hx); do 2 f_equal;
    apply bool_decide_ext; naive_solver.
Qed.

Lemma existsR_elements ip l :
  Forall (fun x => ip_wf x.1) l -> existsR (element_is ip) (map listed_element l) = Ok (bool_decide (ip ∈ l.*1)).
Proof.
  induction 1 as [|x l Hx Hl IH]; [done|]. cbn [map existsR]. rewrite (element_is_listed ip x Hx). cbn [rbind].
  destruct (bool_decide_reflect (x.1 = ip)) as [Hip|Hne].
  - f_equal. symmetry. apply bool_decide_eq_true. subst. apply list_elem_of_here.
  - rewrite IH. f_equal. apply bool_decide_ext. rewrite fmap_cons, elem_of_cons. naive_solver.
Qed.

Lemma listing_has_spec ip header description l :
  assoc "elem" description = None -> Forall (fun x => ip_wf x.1) l ->
  listing_has ip (set_listing header description l) = Ok (bool_decide (ip ∈ l.*1)).
Proof.
  intros Hd Hl. unfold listing_has, set_listing. cbn -[existsR item_lists].
  assert (item_lists ip (VDict [("metainfo", header)]) = Ok false) as E1 by done.
  cbn [existsR]. rewrite E1. cbn [rbind existsR].
  set (d := description ++ _). assert (item_lists ip (VDict [("set", VDict d)]) = Ok (bool_decide (ip ∈ l.*1))) as E2.
  { unfold item_lists, get_attr. cbn [assoc]. rewrite String.eqb_refl. cbn [default from_option id rbind].
    unfold d. rewrite assoc_app, Hd. destruct l as [|x l']; [done|].
    cbn [assoc]. rewrite String.eqb_refl. cbn [default from_option id rbind py_iter].
    by apply existsR_elements. }
  rewrite E2. cbn [rbind]. by destruct (bool_decide _).
Qed.

(** * The link *)

(** What happens to a request: carried out and answered, lost, or carried out with the answer lost. *)
Inductive link_fault : Type := Answered | RequestLost | ReplyLost.

Section link.
Context {W : Type}.
Variable e : Enforcer W.
Variable allowed : list string.
Variable client_name : option string.
Variable host : string.
(** The length of a document's text. *)
Variable size : val -> Z.

Definition arriving (r : http_request) : post :=
  {| post_client := client_name; post_path := str_skip (String.length host) (req_url r);
     post_length := option_map (fun v => str_of_Z (size v)) (req_data r);
     post_json := fun _ => match req_data r with Some v => Ok v | None => Err (ValueError "Expecting value") end |}.

Definition answer_of (reply : result (Z * mapping)) : http_answer :=
  match reply with
  | Ok (status, body) =>
      if (200 <=? status) && (status <? 300)
      then Replied {| reply_status := status; reply_length := size (VDict body); reply_remaining := Some 0; reply_json := Some (VDict body) |}
      else HttpError status
  | Err _ => ProtocolFailure
  end.

Definition link : http_request -> M (W * list link_fault) http_answer :=
  fun r s =>
    let '(w, faults) := s in
    match hd Answered faults with
    | RequestLost => (Ok NetworkFailure, (w, tl faults))
    | fault =>
        let '(reply, w') := do_POST e allowed (arriving r) w in
        (Ok (match fault with ReplyLost => NetworkFailure | _ => answer_of reply end), (w', tl faults))
    end.

Definition link_http : JsonHTTPS (W * list link_fault) := {| origin := host; opener := link; authorization := ret "" |}.

Definition nft_stack : RawSet (W * list link_fault) := nftables_raw_set link_http.

(** ** The handler's effects *)

Lemma do_POST_cases p w :
  ((do_POST e allowed p w).2 = w /\ forall reply, (do_POST e allowed p w).1 <> Ok (200, reply)) \/
  ((do_POST e allowed p w).2 = (handle_post e p w).2 /\
   forall reply, (do_POST e allowed p w).1 = Ok (200, reply) -> (handle_post e p w).1 = Ok (200, reply)).
Proof.
  unfold do_POST. destruct (_ && _); [by left|]. right. unfold catch. destruct (handle_post e p w) as [[r|x] w1]; [done|].
  destruct (is_value_error x || is_type_error x); cbn; [done|]. by destruct (is_backend_error x).
Qed.

Lemma handle_post_route p w body :
  (forall n, post_json p n = Ok (VDict body)) ->
  ((handle_post e p w).2 = w /\ forall reply, (handle_post e p w).1 <> Ok (200, reply)) \/
  handle_post e p w = route e (post_path p) body w.
Proof.
  intros Hb. unfold handle_post, mbind, lift. destruct (int_of_text _) as [n|x]; [|by left].
  destruct (negb _); [by left|]. rewrite Hb. by right.
Qed.

(** A POST of a JSON object: the state stays, or becomes that of the operation; and a reply with
    status 200 is the operation's. *)
Definition carried_out (path : string) (body : mapping) (s : W * list link_fault)
    (out : result (Z * mapping) * (W * list link_fault)) : Prop :=
  (out.2.1 = s.1 /\ forall reply, out.1 <> Ok (200, reply)) \/
  (out.2.1 = (route e path body s.1).2 /\
   forall reply, out.1 = Ok (200, reply) -> (route e path body s.1).1 = Ok (200, reply)).

Lemma do_POST_carried_out p w body :
  (forall n, post_json p n = Ok (VDict body)) ->
  ((do_POST e allowed p w).2 = w /\ forall reply, (do_POST e allowed p w).1 <> Ok (200, reply)) \/
  ((do_POST e allowed p w).2 = (route e (post_path p) body w).2 /\
   forall reply, (do_POST e allowed p w).1 = Ok (200, reply) -> (route e (post_path p) body w).1 = Ok (200, reply)).
Proof.
  intros Hb. destruct (do_POST_cases p w) as [H|[Hw Hr]]; [by left|].
  destruct (handle_post_route p w body Hb) as [[H1 H2]|H].
  - left. split; [congruence|]. intros reply H. by apply Hr, H2 in H.
  - right. rewrite H in Hw, Hr. done.
Qed.

Lemma answer_of_200 reply r :
  decode_answer true (answer_of reply) = Ok (200, r) -> reply = Ok (200, r).
Proof.
  destruct reply as [[status body]|x]; [|done]. cbn [answer_of]. destruct ((200 <=? status) && (status <? 300)); [|done].
  cbn. destruct (MAX_REPLY <? _); [done|]. by intros [= -> ->].
Qed.

Lemma link_request path body s :
  check_path path = Ok tt -> finite_val (VDict body) = true ->
  carried_out path body s (request (link_http) "POST" path (Some (VDict body)) s).
Proof.
  intros Hp Hf. unfold request, mbind, lift, raise_when, lift, raise_if. rewrite Hp, Hf. cbn [negb authorization link_http opener].
  unfold ret at 1, link. destruct s as [w faults]. unfold carried_out. cbn [fst snd].
  set (p := arriving _). assert (post_path p = path) as Hpath by apply str_skip_app.
  pose proof (do_POST_carried_out p w body (fun _ => eq_refl)) as H. rewrite Hpath in H.
  destruct (hd Answered faults); [|by left|]; destruct (do_POST e allowed p w) as [reply w']; cbn [fst snd] in *.
  - destruct H as [[-> H]|[-> H]]; [left|right]; (split; [done|]); intros r Hr; apply answer_of_200 in Hr.
    + by apply H in Hr.
    + by apply H.
  - destruct H as [[-> H]|[-> H]]; [left|right]; done.
Qed.
End link.

(** * The laws of the stack *)
Section laws.
Context {W : Type}.
Variable e : Enforcer W.
Variable in_set : W -> ip_addr -> Prop.
Context `{Hnft : !NftLaws e in_set}.

(** A text that denotes no address with a scope identifier. *)
Definition unscoped_text (a : string) : Prop := forall ip, ip_address a = Some ip -> unscoped ip = true.

(** The address a text denotes is in the kernel's set. *)
Definition blocked (w : W) (a : string) : Prop := exists ip, ip_address a = Some ip /\ in_set w ip.

Lemma parse_text a ip : parse (VStr a) = Ok ip -> ip_address a = Some ip /\ ip_wf ip.
Proof.
  unfold parse. destruct (ip_address a) as [x|] eqn:E; [|done]. intros H. apply raise_seq_Ok in H as [? [= ->]].
  split; [done|]. by eapply ip_address_wf.
Qed.

Lemma contains_op a w :
  (forall x, in_set (enforcer_contains e (VStr a) w).2 x <-> in_set w x) /\
  forall b, (enforcer_contains e (VStr a) w).1 = Ok b -> b = true <-> blocked w a.
Proof.
  unfold enforcer_contains, mbind, lift. destruct (parse (VStr a)) as [ip|x] eqn:Ep; [|done].
  apply parse_text in Ep as [Ha _]. pose proof (nft_list_reads ip w) as Hr. pose proof (nft_list_answers ip w) as Hl.
  destruct (run e (list_set e ip) w) as [[p|x] w']; cbn [fst snd] in *; [|done].
  unfold raise_when, lift, raise_if. destruct (returncode p =? 0) eqn:Erc; cbn [negb]; [|done]. apply Z.eqb_eq in Erc.
  destruct (Hl p eq_refl Erc) as (h & d & l & -> & Hd & Hwf & Hall). rewrite (listing_has_spec ip h d l Hd Hwf). cbn [fst snd].
  split; [done|]. intros b [= <-]. rewrite bool_decide_eq_true, (Hall ip eq_refl). unfold blocked.
  split; [by exists ip|]. intros (x & Hx & Hi). by assert (x = ip) as -> by congruence.
Qed.

(** An operation on the address of [a] leaves every other address. *)
Definition only_at (a : string) (w w' : W) : Prop := forall x, ip_address a <> Some x -> in_set w' x <-> in_set w x.

Lemma only_at_refl a w : only_at a w w.
Proof. done. Qed.

Lemma only_at_same_but a w w' : only_at a w w' -> forall x, ip_address x <> ip_address a -> blocked w' x <-> blocked w x.
Proof.
  intros H x Hne. unfold blocked. split; intros (ip & Hx & Hi); exists ip; (split; [done|]); apply (H ip); congruence.
Qed.

Lemma lifetime_positive v n : lifetime_seconds v = Ok n -> 0 < n.
Proof.
  unfold lifetime_seconds. intros H. apply rbind_Ok in H as (s & _ & H). apply raise_seq_Ok in H as [Hb [= ->]].
  apply negb_false_iff, andb_true_iff in Hb as [Hb _]. apply Z.leb_le in Hb. lia.
Qed.

Lemma add_op a n w : unscoped_text a ->
  let out := enforcer_add e (VStr a) n w in
  only_at a w out.2 /\ (blocked w a -> blocked out.2 a) /\ (out.1 = Ok tt -> blocked out.2 a).
Proof.
  intros Hu. unfold enforcer_add, mbind, lift. destruct (parse (VStr a)) as [ip|x] eqn:Ep; [|done].
  apply parse_text in Ep as [Ha Hwf]. pose proof (Hu ip Ha) as Hip. destruct (lifetime_seconds n) as [sec|x] eqn:El; [|done].
  assert (0 < sec) as Hsec by by apply lifetime_positive in El.
  pose proof (fun x => nft_add_others ip sec w x Hwf Hip Hsec) as Ho. pose proof (nft_add_keeps ip sec w Hwf Hip Hsec) as Hk.
  pose proof (fun p => nft_add_effect ip sec w p Hwf Hip Hsec) as He.
  destruct (run e (add_element e ip sec) w) as [r w']. cbn [fst snd] in *.
  assert (only_at a w w' /\ (blocked w a -> blocked w' a)) as [H1 H2].
  { split; [intros x Hx; apply Ho; congruence|]. intros (x & Hx & Hi). assert (x = ip) as -> by congruence. exists ip. auto. }
  destruct r as [p|x]; [|done]. unfold raise_when, lift, raise_if. destruct (returncode p =? 0) eqn:Erc; cbn [negb fst snd]; [|done].
  apply Z.eqb_eq in Erc. split; [done|]. split; [done|]. intros _. exists ip. split; [done|]. by apply (He p).
Qed.

Lemma remove_op a w : unscoped_text a ->
  let out := enforcer_remove e (VStr a) w in
  only_at a w out.2 /\ (blocked out.2 a -> blocked w a) /\ (out.1 = Ok tt -> ~ blocked out.2 a).
Proof.
  intros Hu. unfold enforcer_remove, mbind, lift. destruct (parse (VStr a)) as [ip|x] eqn:Ep; [|done].
  apply parse_text in Ep as [Ha Hwf]. pose proof (Hu ip Ha) as Hip.
  pose proof (fun x => nft_delete_others ip w x Hwf Hip) as Ho. pose proof (nft_delete_shrinks ip w Hwf Hip) as Hk.
  pose proof (fun p => nft_delete_effect ip w p Hwf Hip) as He.
  destruct (run e (delete_element e ip) w) as [r w']. cbn [fst snd] in *.
  assert (only_at a w w' /\ (blocked w' a -> blocked w a)) as [H1 H2].
  { split; [intros x Hx; apply Ho; congruence|]. intros (x & Hx & Hi). assert (x = ip) as -> by congruence. exists ip. auto. }
  destruct r as [p|x]; [|done]. unfold raise_when, lift, raise_if.
  destruct (returncode p =? 0) eqn:Erc; cbn [negb andb].
  - cbn [fst snd]. split; [done|]. split; [done|]. intros _ (x & Hx & Hi). assert (x = ip) as -> by congruence.
    apply (He p eq_refl); [left; by apply Z.eqb_eq|done].
  - destruct (str_contains "No such file" (stderr p)) eqn:E1; [|destruct (str_contains "does not exist" (stderr p)) eqn:E2]; cbn [fst snd negb andb];
      (split; [done|]); (split; [done|]); try done; intros _ (x & Hx & Hi); assert (x = ip) as -> by congruence;
      apply (He p eq_refl); auto.
Qed.

Variable allowed : list string.
Variable client_name : option string.
Variable host : string.
Variable size : val -> Z.

Definition stack_present (s : W * list link_fault) (a : string) : Prop := blocked s.1 a.

Notation http := (link_http e allowed client_name host size).

Lemma route_contains a w : route e "/v1/contains" [("address", VStr a)] w =
  (let! present := enforcer_contains e (VStr a) in ret (200, [("present", VBool present)])) w.
Proof. done. Qed.

Lemma contains_call a s :
  (forall x, in_set (nft_contains http a s).2.1 x <-> in_set s.1 x) /\
  forall b, (nft_contains http a s).1 = Ok b -> b = true <-> blocked s.1 a.
Proof.
  pose proof (link_request e allowed client_name host size "/v1/contains" [("address", VStr a)] s eq_refl eq_refl) as Hc.
  unfold nft_contains, mbind. destruct (request http _ _ _ s) as [r s1]. unfold carried_out in Hc. cbn [fst snd] in Hc.
  destruct (contains_op a s.1) as [Hreads Hans].
  assert (forall x, in_set s1.1 x <-> in_set s.1 x) as Hs1.
  { destruct Hc as [[-> _]|[-> _]]; [done|]. rewrite route_contains. unfold mbind.
    by destruct (enforcer_contains e (VStr a) s.1) as [[b|x] w']. }
  destruct r as [[status reply]|x]; cbn [fst snd]; [|by split].
  destruct (status =? 200) eqn:Es; [|by split]. apply Z.eqb_eq in Es. subst status.
  destruct Hc as [[_ Hc]|[_ Hc]]; [by destruct (Hc reply)|]. specialize (Hc reply eq_refl). rewrite route_contains in Hc. unfold mbind in Hc.
  destruct (enforcer_contains e (VStr a) s.1) as [[b|x] w']; [|done]. injection Hc as <-. cbn -[blocked].
  split; [done|]. intros b' [= <-]. by apply Hans.
Qed.

(** A write of the raw set: its state is untouched or the operation's, and success is the operation's. *)
Lemma write_call path body (op : M W unit) failure s :
  check_path path = Ok tt -> finite_val (VDict body) = true ->
  (forall w, route e path body w = (op ;;! ret (200, [("ok", VBool true)])) w) ->
  let out := (let! answer := request http "POST" path (Some (VDict body)) in
    raise_when (negb (answer.1 =? 200) || negb (is_true (get "ok" answer.2))) failure) s in
  (out.2.1 = s.1 \/ out.2.1 = (op s.1).2) /\ (out.1 = Ok tt -> out.2.1 = (op s.1).2 /\ (op s.1).1 = Ok tt).
Proof.
  intros Hp Hf Hop. pose proof (link_request e allowed client_name host size path body s Hp Hf) as Hc.
  unfold mbind. destruct (request http _ _ _ s) as [r s1]. unfold carried_out in Hc. cbn [fst snd] in Hc.
  rewrite Hop in Hc. unfold mbind in Hc. destruct (op s.1) as [ro w']. cbn [fst snd] in Hc.
  assert (s1.1 = s.1 \/ s1.1 = w') as Hs1 by (destruct Hc as [[-> _]|[-> _]]; [by left|right; by destruct ro]).
  destruct r as [[status reply]|x]; cbn [fst snd]; [|by split].
  unfold raise_when, lift, raise_if. destruct (status =? 200) eqn:Es; cbn [negb orb fst snd]; [|by split].
  apply Z.eqb_eq in Es. subst status. split; [done|]. intros _.
  destruct Hc as [[_ Hc]|[-> Hc]]; [by destruct (Hc reply)|]. specialize (Hc reply eq_refl). by destruct ro as [[]|x].
Qed.

Lemma add_call a n s :
  let out := nft_add http a n s in
  (out.2.1 = s.1 \/ exists v, out.2.1 = (enforcer_add e (VStr a) v s.1).2) /\
  (out.1 = Ok tt -> exists v, out.2.1 = (enforcer_add e (VStr a) v s.1).2 /\ (enforcer_add e (VStr a) v s.1).1 = Ok tt).
Proof.
  unfold nft_add. set (body := _ :: _). set (v := get "max_lifetime_seconds" body).
  destruct (write_call "/v1/add" body (enforcer_add e (VStr a) v) (delivery_error "NFT_AGENT_ADD_NOT_ACKNOWLEDGED" true) s) as [H1 H2].
  - done.
  - by destruct n.
  - done.
  - split; [destruct H1; [by left|right; by exists v]|]. intros H. exists v. by apply H2.
Qed.

Lemma remove_call a s :
  let out := nft_remove http a s in
  (out.2.1 = s.1 \/ out.2.1 = (enforcer_remove e (VStr a) s.1).2) /\
  (out.1 = Ok tt -> out.2.1 = (enforcer_remove e (VStr a) s.1).2 /\ (enforcer_remove e (VStr a) s.1).1 = Ok tt).
Proof. by apply write_call. Qed.

(** The stack keeps the promises of a raw set in the calls about an address without a scope
    identifier. *)
Lemma nft_stack_laws a0 : unscoped_text a0 ->
  RawSetLaws (only_about a0 (nft_stack e allowed client_name host size)) stack_present.
Proof.
  intros Hu0. assert (forall a, bool_decide (ip_address a = ip_address a0) = true -> unscoped_text a) as Hu.
  { intros a E ip Hip. apply bool_decide_eq_true in E. apply Hu0. congruence. }
  split; unfold same_but, stack_present, only_about; cbn [raw_contains raw_add raw_remove nft_stack nftables_raw_set]; intros a;
    (destruct (bool_decide (ip_address a = ip_address a0)) eqn:E; [specialize (Hu a E)|done]).
  - intros s x. destruct (contains_call a s) as [H _]. unfold blocked. by setoid_rewrite H.
  - intros s b. by apply contains_call.
  - intros n s x Hx. destruct (add_call a n s) as [[->|[v ->]] _]; [done|]. destruct (add_op a v s.1 Hu) as (H & _). by eapply only_at_same_but.
  - intros n s Hs. destruct (add_call a n s) as [[->|[v ->]] _]; [done|]. destruct (add_op a v s.1 Hu) as (_ & H & _). auto.
  - intros n s Hok. destruct (add_call a n s) as [_ H]. destruct (H Hok) as (v & -> & Hv). destruct (add_op a v s.1 Hu) as (_ & _ & H'). auto.
  - intros s x Hx. destruct (remove_call a s) as [[->| ->] _]; [done|]. destruct (remove_op a s.1 Hu) as (H & _). by eapply only_at_same_but.
  - intros s. destruct (remove_call a s) as [[->| ->] _]; [done|]. destruct (remove_op a s.1 Hu) as (_ & H & _). auto.
  - intros s Hok. destruct (remove_call a s) as [_ H]. destruct (H Hok) as [-> Hv]. destruct (remove_op a s.1 Hu) as (_ & _ & H'). auto.
Qed.
End laws.
