(* ===== verification/Endpoint.v ===== *)
(** [docker/wazuh/active-response/cxyz_endpoint_isolation.py]: the active response that isolates and
    restores a managed endpoint.

    Parameters: the [nft] program (argument vector and standard input to a completed process, over a
    state [W]), and what [json.loads] gives for the configuration file and the request line.  The
    marker directory is a list of files with their text; [disk] says what each of its operations
    does. *)

From S2P Require Import Prelude PyText PyNum PyNet PyJson Sha256 Effects NftEnforcer.

Definition TABLE : string * string := ("inet", "cxyz_isolation").

Definition marker_name (op : string) : string := str_take 40 (hexdigest (sha256 (utf8 op))).

(** [OP_ID.fullmatch]. *)
Definition op_char (a : ascii) : bool :=
  is_ascii_digit a || ((65 <=? code a) && (code a <=? 90)) || ((97 <=? code a) && (code a <=? 122)) || str_has a "._:-".
Definition valid_op (op : string) : bool :=
  (16 <=? str_len op) && (str_len op <=? 128) && str_forallb op_char op.

(** * The ruleset *)
Definition load_allowed (config : result val) : result (list string) :=
  let? data := config in
  let? listed := get_attr "allowed_addresses" (VList []) data in
  let? items := py_iter listed in
  let? allowed := mapR (fun v => match ip_of_val v with
                                 | Some ip => Ok (ip_text ip)
                                 | None => Err (ValueError (repr_val v +:+ " does not appear to be an IPv4 or IPv6 address"))
                                 end) items in
  raise_if (Nat.eqb (length allowed) 0) (ValueError "isolation refused: no manager/management address is configured") ;;?
  Ok allowed.

Definition in_table (verb : string) : string := verb +:+ " " +:+ TABLE.1 +:+ " " +:+ TABLE.2.

Definition chain_line (hook : string) : string :=
  in_table "add chain" +:+ " " +:+ hook +:+ " { type filter hook " +:+ hook +:+ " priority -150; policy drop; }".

Definition accept_set (rule direction : string) (addresses : list string) : list string :=
  match addresses with
  | [] => []
  | _ => [rule +:+ " " +:+ direction +:+ " { " +:+ str_join ", " addresses +:+ " } accept"]
  end.

Definition hook_rules (allowed : list string) (hook direction interface : string) : list string :=
  let rule := in_table "add rule" +:+ " " +:+ hook in
  let v4 := List.filter (fun a => negb (str_has ":" a)) allowed in
  let v6 := List.filter (fun a => str_has ":" a) allowed in
  [rule +:+ " " +:+ interface +:+ " lo accept"; rule +:+ " ct state established,related accept"]
  ++ accept_set rule ("ip " +:+ direction) v4 ++ accept_set rule ("ip6 " +:+ direction) v6.

Definition ruleset_lines (allowed : list string) : list string :=
  [in_table "add table"; in_table "delete table"; in_table "add table"]
  ++ map chain_line ["input"; "output"; "forward"]
  ++ hook_rules allowed "input" "saddr" "iifname" ++ hook_rules allowed "output" "daddr" "oifname".

Definition newline : string := str1 (chr 10).
Definition ruleset (allowed : list string) : string := str_join newline (ruleset_lines allowed) +:+ newline.

(** * The endpoint *)
Inductive disk_outcome : Type := DiskDone | DiskFailed | DiskPartial.

Record EndpointState (W : Type) : Type := {
  markers : list (string * string);
  disk : list disk_outcome;
  filter_state : W }.
Arguments markers {W}.
Arguments disk {W}.
Arguments filter_state {W}.

Section endpoint.
Context {W : Type}.
Variable run_nft : list string -> option string -> M W CompletedProcess.
Variable config : result val.
(** [int(time.time())]. *)
Variable now : Z.
Notation S := (EndpointState W).

Definition set_markers (m : list (string * string)) (s : S) : S :=
  {| markers := m; disk := disk s; filter_state := filter_state s |}.

Definition call_nft (argv : list string) (stdin : option string) : M S CompletedProcess :=
  fun s => let '(r, w) := run_nft argv stdin (filter_state s) in
           (r, {| markers := markers s; disk := disk s; filter_state := w |}).

(** One operation on the marker directory: it has its effect, raises, or raises half-way. *)
Definition on_disk (complete half : list (string * string) -> list (string * string)) : M S unit :=
  fun s =>
    let rest f := {| markers := f (markers s); disk := tl (disk s); filter_state := filter_state s |} in
    match hd DiskDone (disk s) with
    | DiskDone => (Ok tt, rest complete)
    | DiskFailed => (Err (OSError "disk"), rest (fun m => m))
    | DiskPartial => (Err (OSError "disk"), rest half)
    end.

Definition same (m : list (string * string)) : list (string * string) := m.

(** The marker's text, with the separators of [json.dumps]. *)
Definition marker_text (op : string) : string :=
  "{" +:+ json_string "op" +:+ ": " +:+ json_string (marker_name op) +:+ ", " +:+ json_string "at" +:+ ": " +:+ str_of_Z now +:+ "}".

Definition write_marker (op : string) : M S unit :=
  on_disk (assoc_set (marker_name op) (marker_text op)) (assoc_set (marker_name op) "").

Definition unlink_marker (op : string) : M S unit := on_disk (assoc_del (marker_name op)) same.

Definition isolate (op : string) : M S unit :=
  raise_when (negb (valid_op op)) (ValueError "invalid operation id") ;;!
  let! allowed := lift (load_allowed config) in
  let! result := call_nft ["nft"; "-f"; "-"] (Some (ruleset allowed)) in
  raise_when (negb (returncode result =? 0)) (RuntimeError "nft refused the isolation ruleset") ;;!
  on_disk same same ;;!
  write_marker op ;;!
  on_disk same same.

Definition restore (op : string) : M S unit :=
  raise_when (negb (valid_op op)) (ValueError "invalid operation id") ;;!
  let! result := call_nft ["nft"; "delete"; "table"; TABLE.1; TABLE.2] None in
  raise_when (negb (returncode result =? 0) && negb (str_contains "No such file" (stderr result)))
    (RuntimeError "nft could not remove the isolation table") ;;!
  unlink_marker op.

(** [command in {"add", "delete"}]: a value that cannot be hashed is an error. *)
Definition known_command (command : val) : result bool :=
  match command with
  | VList _ | VDict _ => Err (TypeError "unhashable type")
  | _ => Ok (py_eq command (VStr "add") || py_eq command (VStr "delete"))
  end.

(** The request: its command and its single argument. *)
Definition request_of (message : val) : result (val * string) :=
  let? command := get_attr "command" VNone message in
  let? parameters := get_attr "parameters" (VDict []) message in
  let? args := get_attr "extra_args" (VList []) parameters in
  let? known := known_command command in
  if negb known then Err (ValueError "unsupported Active Response request")
  else
    let? n := py_len args in
    raise_if (negb (n =? 1)) (ValueError "unsupported Active Response request") ;;?
    let? first := py_first args in
    Ok (command, str_val first).

Definition act (isolating : bool) (line : result val) : M S unit :=
  let! message := lift line in
  let! request := lift (request_of message) in
  if isolating && py_eq request.1 (VStr "add") then isolate request.2 else restore request.2.

Definition reported (x : exn) : bool :=
  is_value_error x || is_runtime_error x ||
  match x with
  | OSError _ => true
  | _ => false
  end.

(** The exit status; other exceptions end the script with a traceback. *)
Definition main (mode : string) (line : result val) : M S Z :=
  if String.eqb mode "cxyz-isolate-endpoint" || String.eqb mode "cxyz-restore-endpoint" then
    catch (act (String.eqb mode "cxyz-isolate-endpoint") line ;;! ret 0) reported (fun _ => ret 1)
  else ret 2.
End endpoint.

(** * What is assumed of nft *)

(** The documented behaviour of the two commands on the table: a ruleset is applied whole or not at
    all, and deleting says when there is no such table. *)
Class IsolationLaws {W : Type} (run_nft : list string -> option string -> M W CompletedProcess) (isolated : W -> Prop) : Prop := {
  ruleset_applied allowed w p : (run_nft ["nft"; "-f"; "-"] (Some (ruleset allowed)) w).1 = Ok p -> returncode p = 0 ->
    isolated (run_nft ["nft"; "-f"; "-"] (Some (ruleset allowed)) w).2;
  ruleset_keeps allowed w : isolated w -> isolated (run_nft ["nft"; "-f"; "-"] (Some (ruleset allowed)) w).2;
  table_deleted w p : (run_nft ["nft"; "delete"; "table"; TABLE.1; TABLE.2] None w).1 = Ok p ->
    returncode p = 0 \/ str_contains "No such file" (stderr p) = true ->
    ~ isolated (run_nft ["nft"; "delete"; "table"; TABLE.1; TABLE.2] None w).2;
  delete_shrinks w : isolated (run_nft ["nft"; "delete"; "table"; TABLE.1; TABLE.2] None w).2 -> isolated w }.

(** A file of the marker directory. *)
Definition marked {W} (name : string) (s : EndpointState W) : Prop := assoc name (markers s) <> None.
