(* ===== verification/Contracts.v ===== *)
(** [ai/features/contracts.py]: the closed feature schemas.

    The schema files and the JSON Schema validator are parameters: [schema_file] gives the bytes of
    the file of a schema, [conforms] says whether the validator accepts a vector under it. *)

From S2P Require Import Prelude PyText PyNum PyTime PyJson Sha256 Policy.

Definition NETWORK_FEATURES : list string :=
  ["connection_count"; "unique_dst_ip"; "unique_dst_port"; "bytes_out"; "bytes_in"; "blocked_ratio"; "dns_query_count";
   "unique_domain_count"; "tls_count"; "suricata_alert_count"; "failed_auth_count"].

Definition ENDPOINT_FEATURES : list string :=
  ["process_count"; "rare_process_count"; "powershell_count"; "failed_login_count"; "fim_change_count";
   "account_change_count"; "privilege_change_count"].

Definition FEATURES_BY_SCHEMA : list (string * list string) :=
  [("network-window-v1", NETWORK_FEATURES); ("endpoint-window-v1", ENDPOINT_FEATURES)].

Definition expected_feature_names (schema : string) : result (list string) :=
  match assoc schema FEATURES_BY_SCHEMA with
  | Some names => Ok names
  | None => Err (FeatureSchemaError ("unsupported feature schema: " +:+ schema))
  end.

(** [math.isfinite(value)], false when the conversion overflows. *)
Definition finite_number (n : pynum) : bool :=
  match py_isfinite n with
  | Ok b => b
  | Err _ => false
  end.

(** [value != int(value)], negated, for a finite number. *)
Definition is_count (n : pynum) : bool :=
  match py_int n with
  | Ok z => num_eqb n (PInt z)
  | Err _ => false
  end.

Definition check_feature (name : string) (v : val) : result unit :=
  match v with
  | VNum n =>
      raise_if (negb (finite_number n)) (FeatureSchemaError ("feature " +:+ name +:+ " must be finite")) ;;?
      raise_if (num_ltb n (PInt 0)) (FeatureSchemaError ("feature " +:+ name +:+ " must be non-negative")) ;;?
      if String.eqb name "blocked_ratio"
      then raise_if (num_ltb (PInt 1) n) (FeatureSchemaError "blocked_ratio must be in [0, 1]")
      else raise_if (negb (is_count n)) (FeatureSchemaError ("feature " +:+ name +:+ " must be an integer count"))
  | _ => Err (FeatureSchemaError ("feature " +:+ name +:+ " must be numeric"))
  end.

(** The message about the keys that differ. *)
Definition key_details (missing unexpected : list string) : string :=
  str_join "; " ((if Nat.eqb (length missing) 0 then [] else ["missing=" +:+ str_join "," missing])
    ++ (if Nat.eqb (length unexpected) 0 then [] else ["unexpected=" +:+ str_join "," unexpected])).

Definition require_exact_features (schema : string) (features : val) : result unit :=
  match features with
  | VDict d =>
      let? expected := expected_feature_names schema in
      let missing := sort_by str_leb (keys_minus expected (keys d)) in
      let unexpected := sort_by str_leb (keys_minus (keys d) expected) in
      raise_if (negb (Nat.eqb (length missing) 0) || negb (Nat.eqb (length unexpected) 0))
        (FeatureSchemaError ("feature keys do not match " +:+ schema +:+ ": " +:+ key_details missing unexpected)) ;;?
      foldR (fun _ name => check_feature name (get name d)) tt expected
  | _ => Err (FeatureSchemaError "features must be an object")
  end.

Definition feature_float (d : mapping) (name : string) : result SpecFloat.spec_float :=
  match get name d with
  | VNum n => py_float n
  | _ => Err (TypeError "float() argument must be a string or a real number")
  end.

Definition ordered_feature_row (schema : string) (features : val) : result (list SpecFloat.spec_float) :=
  require_exact_features schema features ;;?
  match features with
  | VDict d => let? names := expected_feature_names schema in mapR (feature_float d) names
  | _ => Err (FeatureSchemaError "features must be an object")
  end.

Definition validate_feature_name_order (schema : string) (names : list string) : result unit :=
  let? expected := expected_feature_names schema in
  raise_if (negb (bool_decide (names = expected)))
    (FeatureSchemaError ("model feature order does not match " +:+ schema +:+ "; retraining is required")).

Section vectors.
Variable schema_file : string -> option (list Z).
Variable conforms : list Z -> mapping -> bool.

Definition known_schema (schema : string) : result unit := let? _ := expected_feature_names schema in Ok tt.

Definition feature_schema_sha256 (schema : string) : result string :=
  known_schema schema ;;?
  match schema_file schema with
  | Some bytes => Ok (hexdigest (sha256 bytes))
  | None => Err (FeatureSchemaError ("feature schema is missing: " +:+ schema))
  end.

(** [end - start], when both have an offset or neither has. *)
Definition time_difference (start finish : Z * option Z) : result Z :=
  match start, finish with
  | (s, None), (f, None) => Ok (f - s)
  | (s, Some a), (f, Some b) => Ok ((f - b) - (s - a))
  | _, _ => Err (TypeError "can't subtract offset-naive and offset-aware datetimes")
  end.

Definition window_bound (v : val) : result (Z * option Z) :=
  match fromisoformat_z (str_val v) with
  | Some t => Ok t
  | None => Err (ValueError "Invalid isoformat string")
  end.

(** The checks of the [try] block. *)
Definition vector_checks (schema : string) (vector : mapping) : result unit :=
  known_schema schema ;;?
  let? bytes := match schema_file schema with Some b => Ok b | None => Err (OSError schema) end in
  raise_if (negb (conforms bytes vector)) (ValueError "does not conform") ;;?
  let? features := item "features" vector in
  require_exact_features schema features ;;?
  let? start_text := item "window_start" vector in
  let? start := window_bound start_text in
  let? end_text := item "window_end" vector in
  let? finish := window_bound end_text in
  let? span := time_difference start finish in
  raise_if (negb (span =? minutes 5)) (FeatureSchemaError "feature window must span exactly five minutes") ;;?
  let? claimed := item "feature_schema_sha256" vector in
  let? actual := feature_schema_sha256 schema in
  raise_if (negb (py_eq claimed (VStr actual))) (FeatureSchemaError "feature schema hash differs from the local contract").

Definition is_schema_error (e : exn) : bool :=
  match e with
  | FeatureSchemaError _ => true
  | _ => false
  end.

Definition validate_vector (v : val) : result unit :=
  match v with
  | VDict vector =>
      match get "feature_schema" vector with
      | VStr schema =>
          try_except (vector_checks schema vector) (fun e => negb (is_schema_error e))
            (fun _ => Err (FeatureSchemaError "vector violates the versioned feature contract"))
      | _ => Err (FeatureSchemaError "vector lacks feature_schema")
      end
  | _ => Err (FeatureSchemaError "vector must be an object")
  end.
End vectors.
