(* ===== verification/Sequences.v ===== *)
(** [ai/features/sequences.py], and [make_history_fetcher] of [soc/workers/enrichment.py]: the windows
    before a vector, from the training vectors or from the index.

    A missing window is [VNone], as a JSON [null] is. *)

From S2P Require Import Prelude PyText PyNum PyTime PyJson Sha256 Policy Decision Effects Store Https Contracts.

Definition WINDOW : Z := minutes 5.

Definition _parse (value : string) : result Z := soc_parse_rfc3339 value.
Definition _rfc3339 (value : Z) : string := isoformat_auto value.

(** [range(length - 1, 0, -1)]. *)
Definition offsets (length : Z) : list Z := reverse (seqZ 1 (length - 1)).

(** A [timedelta] too large is the same kind of error as an instant out of range. *)
Definition history_window_ends (window_end : string) (length : Z) : result (list string) :=
  raise_if (length <? 2) (ValueError "sequence length must be at least 2") ;;?
  let? finish := _parse window_end in
  mapR (fun offset => let? t := shift finish (- (WINDOW * offset)) in Ok (_rfc3339 t)) (offsets length).

Definition sequence_row (feature_schema : string) (width : nat) (entry : val) : result (list SpecFloat.spec_float) :=
  match entry with
  | VNone => Ok (repeat (SpecFloat.S754_zero false) width)
  | _ => ordered_feature_row feature_schema entry
  end.

Definition sequence_matrix (feature_schema : string) (history : list val) (features : val) : result (list (list SpecFloat.spec_float)) :=
  let? names := expected_feature_names feature_schema in
  let? rows := mapR (sequence_row feature_schema (length names)) history in
  let? current := ordered_feature_row feature_schema features in
  Ok (rows ++ [current]).

Notation vector_index := (gmap (string * string) mapping).

(** The key of a vector. *)
Definition index_key (vector : mapping) : result (string * string) :=
  let? entity := item "entity" vector in
  let? window_end := item "window_end" vector in
  let? t := _parse (str_val window_end) in
  Ok (str_val entity, _rfc3339 t).

(** A later vector replaces an earlier one under the same key. *)
Definition index_vectors_by_window_end (vectors : list mapping) : result vector_index :=
  foldR (fun index vector => let? key := index_key vector in Ok (<[key := vector]> index)) ∅ vectors.

Definition earlier_features (index : vector_index) (entity finish : string) : result val :=
  match index !! (entity, finish) with
  | None => Ok VNone
  | Some earlier => item "features" earlier
  end.

Definition entity_history (vector : mapping) (index : vector_index) (length : Z) : result (list val) :=
  let? entity := item "entity" vector in
  let? window_end := item "window_end" vector in
  let? ends := history_window_ends (str_val window_end) length in
  mapR (earlier_features index (str_val entity)) ends.

(** ** Serving *)

(** [hit["_source"]["window_end"]], which has to be hashable, and [hit["_source"]["features"]]; only
    the strings among the keys are looked up later. *)
Definition add_hit (by_end : gmap string val) (hit : val) : result (gmap string val) :=
  let? source := subscript "_source" hit in
  let? finish := subscript "window_end" source in
  let? features := subscript "features" source in
  match finish with
  | VStr s => Ok (<[s := features]> by_end)
  | VList _ | VDict _ => Err (TypeError "unhashable type")
  | _ => Ok by_end
  end.

Definition history_query (feature_schema entity : val) (ends : list string) : mapping :=
  [("size", VInt (Z.of_nat (length ends)));
   ("query", VDict [("bool", VDict [("filter", VList [
     VDict [("term", VDict [("feature_schema", feature_schema)])];
     VDict [("term", VDict [("entity", entity)])];
     VDict [("terms", VDict [("window_end", VList (map VStr ends))])]])])]);
   ("_source", VList [VStr "window_end"; VStr "features"])].

Definition make_history_fetcher {W} (elastic : JsonHTTPS W) (length : Z) (vector : mapping) : M W (list val) :=
  let! window_end := lift (item "window_end" vector) in
  raise_when (length <? 2) (ValueError "sequence length must be at least 2") ;;!
  let! finish := lift (match window_end with VStr s => Ok s | _ => Err (AttributeError "replace") end) in
  let! ends := lift (history_window_ends finish length) in
  let! feature_schema := lift (item "feature_schema" vector) in
  let! entity := lift (item "entity" vector) in
  let! hits := search elastic "soc-features-*" (history_query feature_schema entity ends) in
  let! by_end := lift (foldR add_hit ∅ hits) in
  ret (map (fun e => default VNone (by_end !! e)) ends).
