(* ===== verification/Outbox.v ===== *)
(** [soc/workers/outbox.py]: the durable single-writer queue between feature extraction, inference and
    delivery.

    A job's times are microseconds; each operation gets the readings of [time.time()] it makes.
    [o_faults] says how each commit ends.  The lock file of [exclusive] keeps other processes out
    and is not modelled. *)

From S2P Require Import Prelude PyText PyNum PyTime PyJson Sha256 Policy Effects Store.

Inductive job_state : Type := pending | scored | sent | deadletter.

#[global] Instance job_state_eq_dec : EqDecision job_state.
Proof. solve_decision. Defined.

(** A TEXT column that holds a document: its text, and what [json.loads] makes of it. *)
Record document : Type := { doc_text : string; doc_value : val }.

Definition dump (v : val) : result document := let? text := canonical v in Ok {| doc_text := text; doc_value := v |}.

Record Job : Type := {
  job_id : string;
  job_metadata_hash : string;
  job_vector : document;
  job_event : option document;
  job_state_of : job_state;
  job_attempts : Z;
  job_next_attempt : Z;
  job_error_code : option string;
  job_created_at : Z;
  job_updated_at : Z }.

Record Outbox : Type := {
  jobs : list Job;
  meta : list (string * document);
  o_faults : list fault }.

(** A new outbox, and how its commits will end. *)
Definition empty_outbox (commits : list fault) : Outbox := {| jobs := []; meta := []; o_faults := commits |}.

(** The two triggers: the input of a job, and a result once there is one, never change. *)
Definition input_kept (old new : Job) : bool :=
  String.eqb (doc_text (job_vector new)) (doc_text (job_vector old)) && String.eqb (job_metadata_hash new) (job_metadata_hash old)
  && String.eqb (job_id new) (job_id old).

Definition result_kept (old new : Job) : bool :=
  match job_event old with
  | None => true
  | Some e => bool_decide (option_map doc_text (job_event new) = Some (doc_text e))
  end.

(** [UPDATE jobs SET ... WHERE ...]: the rows, and how many were selected. *)
Fixpoint update_jobs (selected : Job -> bool) (change : Job -> Job) (l : list Job) : result (list Job * Z) :=
  match l with
  | [] => Ok ([], 0)
  | j :: rest =>
      if selected j then
        raise_if (negb (input_kept j (change j))) (IntegrityError "outbox input is immutable") ;;?
        raise_if (negb (result_kept j (change j))) (IntegrityError "outbox inference result is immutable") ;;?
        let? r := update_jobs selected change rest in
        Ok (change j :: r.1, r.2 + 1)
      else
        let? r := update_jobs selected change rest in Ok (j :: r.1, r.2)
  end.

(** [with self.db: body]. *)
Definition outbox_transaction {A} (body : Outbox -> result (A * Outbox)) : M Outbox A :=
  fun s =>
    let next o := {| jobs := jobs o; meta := meta o; o_faults := tl (o_faults s) |} in
    match body s with
    | Err e => (Err e, s)
    | Ok (a, o) =>
        match hd CommitOk (o_faults s) with
        | CommitOk => (Ok a, next o)
        | CommitLost => (Err (OperationalError "commit failed"), next s)
        | CommitAmbiguous => (Err (OperationalError "commit outcome unknown"), next o)
        end
    end.

Definition set_jobs (l : list Job) (o : Outbox) : Outbox := {| jobs := l; meta := meta o; o_faults := o_faults o |}.

Definition update (selected : Job -> bool) (change : Job -> Job) : M Outbox Z :=
  outbox_transaction (fun o => let? r := update_jobs selected change (jobs o) in Ok (r.2, set_jobs r.1 o)).

Definition find_job (id : string) (o : Outbox) : option Job := List.find (fun j => String.eqb (job_id j) id) (jobs o).

(** [re.fullmatch("[a-f0-9]{64}", s)]. *)
Definition is_sha256_text (s : string) : bool := (str_len s =? 64) && str_forallb (fun a => is_ascii_digit a || ((97 <=? code a) && (code a <=? 102))) s.

Definition job_identifier (metadata_hash body : string) : string :=
  hexdigest (sha256 (utf8 (metadata_hash +:+ str1 (chr 10) +:+ body))).

Definition new_job (id metadata_hash : string) (body : document) (now : Z) : Job :=
  {| job_id := id; job_metadata_hash := metadata_hash; job_vector := body; job_event := None; job_state_of := pending;
     job_attempts := 0; job_next_attempt := 0; job_error_code := None; job_created_at := now; job_updated_at := now |}.

Definition enqueue (vector : val) (metadata_hash : string) (now : Z) : M Outbox bool :=
  raise_when (negb (is_sha256_text metadata_hash)) (ValueError "approved metadata SHA-256 is required") ;;!
  let! body := lift (dump vector) in
  let id := job_identifier metadata_hash (doc_text body) in
  outbox_transaction (fun o =>
    match find_job id o with
    | Some _ => Ok (false, o)
    | None => Ok (true, set_jobs (jobs o ++ [new_job id metadata_hash body now]) o)
    end).

Definition is_due_job (now : Z) (j : Job) : bool :=
  (bool_decide (job_state_of j = pending) || bool_decide (job_state_of j = scored)) && (job_next_attempt j <=? now).

(** [ORDER BY created_at, id]. *)
Definition job_leb (a b : Job) : bool :=
  (job_created_at a <? job_created_at b) || ((job_created_at a =? job_created_at b) && str_leb (job_id a) (job_id b)).

Definition due (limit now : Z) (o : Outbox) : list Job := limited limit (sort_by job_leb (List.filter (is_due_job now) (jobs o))).

Definition in_state (id : string) (s : job_state) (j : Job) : bool := String.eqb (job_id j) id && bool_decide (job_state_of j = s).

Definition with_result (event : document) (now : Z) (j : Job) : Job :=
  {| job_id := job_id j; job_metadata_hash := job_metadata_hash j; job_vector := job_vector j; job_event := Some event;
     job_state_of := scored; job_attempts := job_attempts j; job_next_attempt := job_next_attempt j; job_error_code := None;
     job_created_at := job_created_at j; job_updated_at := now |}.

Definition save_event (id : string) (event : val) (now : Z) : M Outbox unit :=
  let! body := lift (dump event) in
  let! _ := update (in_state id pending) (with_result body now) in ret tt.

Definition delivered (now : Z) (j : Job) : Job :=
  {| job_id := job_id j; job_metadata_hash := job_metadata_hash j; job_vector := job_vector j; job_event := job_event j;
     job_state_of := sent; job_attempts := job_attempts j; job_next_attempt := job_next_attempt j; job_error_code := None;
     job_created_at := job_created_at j; job_updated_at := now |}.

Definition mark_sent (id : string) (now : Z) : M Outbox unit :=
  let! _ := update (in_state id scored) (delivered now) in ret tt.

(** [min(3600, 5 * 2 ** min(attempts, 10))], in seconds. *)
Definition backoff (attempts : Z) : Z := Z.min 3600 (5 * 2 ^ Z.min attempts 10).

Definition with_failure (state : job_state) (attempts : Z) (error_code : string) (next now : Z) (j : Job) : Job :=
  {| job_id := job_id j; job_metadata_hash := job_metadata_hash j; job_vector := job_vector j; job_event := job_event j;
     job_state_of := state; job_attempts := attempts; job_next_attempt := next; job_error_code := Some error_code;
     job_created_at := job_created_at j; job_updated_at := now |}.

Definition has_id (id : string) (j : Job) : bool := String.eqb (job_id j) id.

Definition failed (id error_code : string) (retryable : bool) (now : Z) : M Outbox unit :=
  let! row := gets (find_job id) in
  match row with
  | None => raise (TypeError "'NoneType' object is not subscriptable")
  | Some j =>
      let attempts := job_attempts j + 1 in
      let state := if retryable then job_state_of j else deadletter in
      let! _ := update (has_id id) (with_failure state attempts error_code (now + seconds (backoff attempts)) now) in ret tt
  end.

Definition requeued (now : Z) (j : Job) : Job :=
  {| job_id := job_id j; job_metadata_hash := job_metadata_hash j; job_vector := job_vector j; job_event := job_event j;
     job_state_of := match job_event j with None => pending | Some _ => scored end; job_attempts := job_attempts j;
     job_next_attempt := 0; job_error_code := None; job_created_at := job_created_at j; job_updated_at := now |}.

Definition requeue (id : string) (now : Z) : M Outbox unit :=
  outbox_transaction (fun o =>
    let? r := update_jobs (in_state id deadletter) (requeued now) (jobs o) in
    raise_if (negb (r.2 =? 1)) (ValueError "unknown dead-letter job") ;;?
    Ok (tt, set_jobs r.1 o)).

Definition get_meta (key : string) (o : Outbox) : option document := assoc key (meta o).

Definition set_meta (key : string) (value : document) : M Outbox unit :=
  outbox_transaction (fun o => Ok (tt, {| jobs := jobs o; meta := assoc_set key value (meta o); o_faults := o_faults o |})).

Definition count_state (s : job_state) (o : Outbox) : Z :=
  Z.of_nat (length (List.filter (fun j => bool_decide (job_state_of j = s)) (jobs o))).

Definition status (o : Outbox) : list (string * Z) :=
  [("pending", count_state pending o); ("scored", count_state scored o); ("sent", count_state sent o);
   ("deadletter", count_state deadletter o)].

(** * What an outbox always satisfies *)

Record job_ok (j : Job) : Prop := {
  job_identity : job_id j = job_identifier (job_metadata_hash j) (doc_text (job_vector j));
  job_input_hash : is_sha256_text (job_metadata_hash j) = true;
  job_scored_event : job_state_of j = scored \/ job_state_of j = sent -> job_event j <> None;
  job_pending_event : job_state_of j = pending -> job_event j = None;
  job_attempts_nonneg : 0 <= job_attempts j }.

Record outbox_ok (o : Outbox) : Prop := {
  jobs_ok : Forall job_ok (jobs o);
  ids_unique : NoDup (map job_id (jobs o)) }.

(** What no operation may change of a job: its input, and its result once there is one. *)
Record job_evolves (j j' : Job) : Prop := {
  same_id : job_id j' = job_id j;
  same_hash : job_metadata_hash j' = job_metadata_hash j;
  same_vector : doc_text (job_vector j') = doc_text (job_vector j);
  same_creation : job_created_at j' = job_created_at j;
  same_result : job_event j <> None -> option_map doc_text (job_event j') = option_map doc_text (job_event j);
  more_attempts : job_attempts j <= job_attempts j' }.

(** Every job of [o] is still in [o'], in its place. *)
Definition outbox_evolves (o o' : Outbox) : Prop :=
  exists kept new, Forall2 job_evolves (jobs o) kept /\ jobs o' = kept ++ new.

(** * Lemmas *)
Lemma job_evolves_refl j : job_evolves j j.
Proof. by split. Qed.

Lemma job_evolves_trans a b c : job_evolves a b -> job_evolves b c -> job_evolves a c.
Proof.
  intros [] []. split; try congruence; [|lia]. intros H. specialize (same_result0 H).
  rewrite same_result1; [done|]. intros E. rewrite E in same_result0. by destruct (job_event a).
Qed.

Lemma Forall2_evolves_refl l : Forall2 job_evolves l l.
Proof. induction l; constructor; [apply job_evolves_refl|done]. Qed.

Lemma outbox_evolves_same o o' : jobs o' = jobs o -> outbox_evolves o o'.
Proof. intros H. exists (jobs o), []. rewrite app_nil_r. split; [apply Forall2_evolves_refl|done]. Qed.

Lemma outbox_evolves_trans o1 o2 o3 : outbox_evolves o1 o2 -> outbox_evolves o2 o3 -> outbox_evolves o1 o3.
Proof.
  intros (k1 & n1 & H1 & E1) (k2 & n2 & H2 & E2). rewrite E1 in H2.
  apply Forall2_app_inv_l in H2 as (k2a & k2b & Ha & Hb & ->). exists k2a, (k2b ++ n2). split.
  - clear -H1 Ha. revert k2a Ha. induction H1 as [|a b l1 l2 Hab H IH]; intros l3 Ha; inversion Ha; subst; constructor; [by eapply job_evolves_trans|auto].
  - by rewrite E2, app_assoc.
Qed.

(** A row after an update: untouched, or changed as the triggers allow. *)
Definition updated (selected : Job -> bool) (change : Job -> Job) (j j' : Job) : Prop :=
  (selected j = false /\ j' = j) \/
  (selected j = true /\ j' = change j /\ input_kept j j' = true /\ result_kept j j' = true).

Lemma update_jobs_spec selected change l l' n :
  update_jobs selected change l = Ok (l', n) -> Forall2 (updated selected change) l l'.
Proof.
  revert l' n. induction l as [|j l IH]; intros l' n; cbn [update_jobs]; [by intros [= <- _]|].
  destruct (selected j) eqn:Es.
  - intros H. apply raise_seq_Ok in H as [H1 H]. apply raise_seq_Ok in H as [H2 H].
    apply rbind_Ok in H as ([r m] & Hr & [= <- _]). apply negb_false_iff in H1, H2.
    constructor; [by right|]. by eapply IH.
  - intros H. apply rbind_Ok in H as ([r m] & Hr & [= <- _]). constructor; [by left|]. by eapply IH.
Qed.

Lemma updated_ids selected change l l' : Forall2 (updated selected change) l l' -> map job_id l' = map job_id l.
Proof.
  induction 1 as [|j j' l l' Hj H IH]; [done|]. cbn [map]. f_equal; [|done].
  destruct Hj as [[_ ->]|(_ & -> & Hk & _)]; [done|]. unfold input_kept in Hk.
  apply andb_true_iff in Hk as [_ Hk]. by apply String.eqb_eq.
Qed.

(** An update that keeps every job right keeps the outbox right. *)
Lemma update_ok selected change l l' n :
  (forall j, j ∈ l -> selected j = true -> job_ok j -> input_kept j (change j) = true ->
     job_ok (change j) /\ job_created_at (change j) = job_created_at j /\ job_attempts j <= job_attempts (change j)) ->
  Forall job_ok l -> update_jobs selected change l = Ok (l', n) ->
  Forall job_ok l' /\ Forall2 job_evolves l l' /\ map job_id l' = map job_id l.
Proof.
  intros Hch Hl H. apply update_jobs_spec in H. split; [|split; [|by eapply updated_ids]].
  - induction H as [|j j' l l' Hj H IH]; [done|]. inversion Hl; subst. constructor; [|apply IH; [intros; apply Hch; [by right|done..]|done]].
    destruct Hj as [[_ ->]|(Hs & -> & Hk & _)]; [done|]. apply Hch; [by left|done..].
  - induction H as [|j j' l l' Hj H IH]; [constructor|]. inversion Hl; subst. constructor; [|apply IH; [intros; apply Hch; [by right|done..]|done]].
    destruct Hj as [[_ ->]|(Hs & -> & Hk & Hr)]; [apply job_evolves_refl|]. destruct (Hch j) as (_ & Hc & Ha); [by left|done..|].
    unfold input_kept in Hk. rewrite !andb_true_iff in Hk. destruct Hk as [[Hk1 Hk2] Hk3]. apply String.eqb_eq in Hk1, Hk2, Hk3.
    split; try done. unfold result_kept in Hr. destruct (job_event j); [|done]. intros _. by apply bool_decide_eq_true in Hr.
Qed.

Lemma find_job_elem id o j : find_job id o = Some j -> j ∈ jobs o /\ job_id j = id.
Proof. intros H. apply find_some in H as [H1 H2]. split; [by apply list_elem_of_In|by apply String.eqb_eq]. Qed.

Lemma ids_unique_elem (l : list Job) i j : NoDup (map job_id l) -> i ∈ l -> j ∈ l -> job_id i = job_id j -> i = j.
Proof.
  induction l as [|x l IH]; cbn [map]; intros Hnd Hi Hj E; [by apply not_elem_of_nil in Hi|].
  apply NoDup_cons in Hnd as [Hx Hnd].
  assert (forall y, y ∈ l -> job_id y <> job_id x) as Hne.
  { intros y Hy Ey. apply Hx. rewrite <- Ey. by apply list_elem_of_fmap_2. }
  apply elem_of_cons in Hi as [->|Hi], Hj as [->|Hj]; [done| | |auto].
  - by destruct (Hne j Hj).
  - by destruct (Hne i Hi).
Qed.

(** A transaction leaves the outbox as it was, or as its body made it. *)
Lemma outbox_transaction_cases {A} (body : Outbox -> result (A * Outbox)) s :
  let out := outbox_transaction body s in
  (jobs out.2 = jobs s /\ meta out.2 = meta s /\ forall a, out.1 <> Ok a) \/
  exists a o, body s = Ok (a, o) /\ jobs out.2 = jobs o /\ meta out.2 = meta o /\ (forall a', out.1 = Ok a' -> a' = a).
Proof.
  unfold outbox_transaction. destruct (body s) as [[a o]|e] eqn:E; [|by left].
  destruct (hd CommitOk (o_faults s)); cbn [fst snd jobs meta]; [right|left|right]; try done; exists a, o; repeat (split; [done|]).
  - by intros a' [= ->].
  - done.
Qed.

(** * Operations and runs *)
Inductive outbox_op : Type :=
| OEnqueue (vector : val) (metadata_hash : string) (now : Z)
| OSaveEvent (id : string) (event : val) (now : Z)
| OSent (id : string) (now : Z)
| OFailed (id error_code : string) (retryable : bool) (now : Z)
| ORequeue (id : string) (now : Z)
| OSetMeta (key : string) (value : document).

Definition run_outbox_op (op : outbox_op) (o : Outbox) : Outbox :=
  match op with
  | OEnqueue v h now => (enqueue v h now o).2
  | OSaveEvent id e now => (save_event id e now o).2
  | OSent id now => (mark_sent id now o).2
  | OFailed id c r now => (failed id c r now o).2
  | ORequeue id now => (requeue id now o).2
  | OSetMeta k v => (set_meta k v o).2
  end.

Definition run_outbox (ops : list outbox_op) (o : Outbox) : Outbox := fold_left (fun o op => run_outbox_op op o) ops o.

(** What each operation guarantees. *)
Definition good_step (o o' : Outbox) : Prop := outbox_ok o' /\ outbox_evolves o o'.

Lemma good_same o o' : outbox_ok o -> jobs o' = jobs o -> good_step o o'.
Proof. intros [H1 H2] E. split; [by split; rewrite E|by apply outbox_evolves_same]. Qed.

Lemma good_update o o' selected change l' n :
  outbox_ok o ->
  (forall j, j ∈ jobs o -> selected j = true -> job_ok j -> input_kept j (change j) = true ->
     job_ok (change j) /\ job_created_at (change j) = job_created_at j /\ job_attempts j <= job_attempts (change j)) ->
  update_jobs selected change (jobs o) = Ok (l', n) -> jobs o' = l' -> good_step o o'.
Proof.
  intros [H1 H2] Hch Hu E. destruct (update_ok _ _ _ _ _ Hch H1 Hu) as (Ha & Hb & Hc).
  split; [split; rewrite E; [done|by rewrite Hc]|]. exists l', []. by rewrite app_nil_r.
Qed.

Lemma enqueue_good v h now o : outbox_ok o -> good_step o (enqueue v h now o).2.
Proof.
  intros Ho. unfold enqueue, mbind, raise_when, lift, raise_if. destruct (is_sha256_text h) eqn:Eh; cbn [negb]; [|by apply good_same].
  destruct (dump v) as [body|e]; [|by apply good_same].
  destruct (outbox_transaction_cases (fun o => match find_job (job_identifier h (doc_text body)) o with
    | Some _ => Ok (false, o) | None => Ok (true, set_jobs (jobs o ++ [new_job (job_identifier h (doc_text body)) h body now]) o) end) o)
    as [(Hj & _)|(a & o' & Hb & Hj & _)]; [by apply good_same|].
  destruct (find_job (job_identifier h (doc_text body)) o) as [j|] eqn:Ef; injection Hb as _ <-; [by apply good_same|].
  destruct Ho as [H1 H2]. split; [split; rewrite Hj|].
  - cbn [set_jobs jobs]. apply Forall_app. split; [done|]. constructor; [|constructor]. split; cbn; [done|done|by intros [|]|done|lia].
  - cbn [set_jobs jobs]. rewrite map_app, NoDup_app. split; [done|]. split; [|apply NoDup_singleton].
    intros x Hx Hy. apply list_elem_of_singleton in Hy as ->. apply list_elem_of_In, in_map_iff in Hx as (j & Hid & Hin).
    pose proof (find_none _ _ Ef j Hin) as Hn. cbn in Hn, Hid. by rewrite Hid, String.eqb_refl in Hn.
  - exists (jobs o), [new_job (job_identifier h (doc_text body)) h body now]. split; [apply Forall2_evolves_refl|exact Hj].
Qed.

Lemma update_good selected change o :
  outbox_ok o ->
  (forall j, j ∈ jobs o -> selected j = true -> job_ok j -> input_kept j (change j) = true ->
     job_ok (change j) /\ job_created_at (change j) = job_created_at j /\ job_attempts j <= job_attempts (change j)) ->
  good_step o (update selected change o).2.
Proof.
  intros Ho Hch. unfold update.
  destruct (outbox_transaction_cases (fun o => let? r := update_jobs selected change (jobs o) in Ok (r.2, set_jobs r.1 o)) o)
    as [(Hj & _)|(a & o' & Hb & Hj & _)]; [by apply good_same|].
  apply rbind_Ok in Hb as ([l' n] & Hu & [= _ <-]). by eapply good_update.
Qed.

Lemma save_event_good id e now o : outbox_ok o -> good_step o (save_event id e now o).2.
Proof.
  intros Ho. unfold save_event, mbind, lift. destruct (dump e) as [body|x]; [|by apply good_same].
  pose proof (update_good (in_state id pending) (with_result body now) o Ho) as H.
  assert (good_step o (update (in_state id pending) (with_result body now) o).2) as Hg; [|by destruct (update _ _ o) as [[x|x] s']].
  apply H. intros j _ _ [] _. split; [|split; [done|cbn; lia]]. split; cbn; try done.
Qed.

Lemma mark_sent_good id now o : outbox_ok o -> good_step o (mark_sent id now o).2.
Proof.
  intros Ho. unfold mark_sent, mbind.
  assert (good_step o (update (in_state id scored) (delivered now) o).2) as Hg; [|by destruct (update _ _ o) as [[x|x] s']].
  apply update_good; [done|]. intros j _ Hs [] _. unfold in_state in Hs. apply andb_true_iff in Hs as [_ Hs]. apply bool_decide_eq_true in Hs.
  split; [|split; [done|cbn; lia]]. split; cbn; try done. intros _. auto.
Qed.

Lemma requeue_good id now o : outbox_ok o -> good_step o (requeue id now o).2.
Proof.
  intros Ho. unfold requeue.
  destruct (outbox_transaction_cases (fun o => let? r := update_jobs (in_state id deadletter) (requeued now) (jobs o) in
    raise_if (negb (r.2 =? 1)) (ValueError "unknown dead-letter job") ;;? Ok (tt, set_jobs r.1 o)) o)
    as [(Hj & _)|(a & o' & Hb & Hj & _)]; [by apply good_same|].
  apply rbind_Ok in Hb as ([l' n] & Hu & Hb). apply raise_seq_Ok in Hb as [_ [= _ <-]].
  eapply good_update; [done| |exact Hu|exact Hj].
  intros j _ _ [] _. split; [|split; [done|cbn; lia]].
  split; cbn; [done|done| | |done]; destruct (job_event j); first [done|by intros [|]].
Qed.

Lemma backoff_bounds n : 0 < n -> 10 <= backoff n <= 3600.
Proof.
  intros Hn. unfold backoff. split; [|lia]. apply Z.min_glb; [lia|].
  assert (2 ^ 1 <= 2 ^ Z.min n 10); [apply Z.pow_le_mono_r; lia|]. lia.
Qed.

(** The row of a failed job has the state and the number of attempts the update was computed from. *)
Lemma failed_good id c r now o : outbox_ok o -> good_step o (failed id c r now o).2.
Proof.
  intros Ho. unfold failed, mbind, gets. destruct (find_job id o) as [j0|] eqn:Ef; [|by apply good_same].
  set (state := if r then job_state_of j0 else deadletter).
  set (change := with_failure state (job_attempts j0 + 1) c (now + seconds (backoff (job_attempts j0 + 1))) now).
  assert (good_step o (update (has_id id) change o).2) as Hg; [|by destruct (update _ _ o) as [[x|x] s']].
  apply update_good; [done|]. intros j Hin Hs Hok _. unfold has_id in Hs. apply String.eqb_eq in Hs.
  apply find_job_elem in Ef as [Hin0 Hid0]. assert (j = j0) as -> by (apply (ids_unique_elem (jobs o)); [apply Ho|done|done|congruence]).
  destruct Hok. split; [|split; [done|cbn; lia]]. unfold change, state. split; cbn; try done; [| |lia].
  - destruct r; [done|]. by intros [|].
  - by destruct r.
Qed.

Lemma run_outbox_op_good op o : outbox_ok o -> good_step o (run_outbox_op op o).
Proof.
  destruct op; cbn [run_outbox_op]; intros Ho.
  - by apply enqueue_good.
  - by apply save_event_good.
  - by apply mark_sent_good.
  - by apply failed_good.
  - by apply requeue_good.
  - unfold set_meta. destruct (outbox_transaction_cases (fun o => Ok (tt, {| jobs := jobs o; meta := assoc_set key value (meta o); o_faults := o_faults o |})) o)
      as [(Hj & _)|(a & o' & Hb & Hj & _)]; [by apply good_same|]. injection Hb as _ <-. by apply good_same.
Qed.
