(* ===== verification/Enrichment.v ===== *)
(** [soc/workers/enrichment.py]: from the outbox through inference to the anomaly index.

    The worker's state is its outbox and the world behind its two transports and its clock. *)

From S2P Require Import Prelude PyText PyNum PyTime PyJson Sha256 Policy Decision Effects Store Https Contracts Sequences Outbox.

Definition result_fields : list string :=
  ["model_id"; "algorithm"; "feature_schema"; "feature_schema_sha256"; "model_sha256"; "model_metadata_sha256"; "score";
   "threshold"; "is_anomaly"; "inference_ms"].

Definition refused (error_code : string) : exn := delivery_error error_code false.

(** [result[name]] of a result with exactly the fields expected. *)
Definition is_hash_value (v : val) : bool :=
  match v with
  | VStr s => is_sha256_text s
  | _ => false
  end.

(** A finite number that is not a bool, not negative, and not above 1 when it is a share. *)
Definition number_ok (share : bool) (v : val) : bool :=
  match v with
  | VNum n => finite_number n && negb (num_ltb n (PInt 0)) && negb (share && num_ltb (PInt 1) n)
  | _ => false
  end.

(** [is_anomaly] says whether the score reaches the threshold. *)
Definition decision_consistent (is_anomaly score threshold : val) : bool :=
  match is_anomaly, score, threshold with
  | VBool b, VNum s, VNum t => Bool.eqb b (num_leb t s)
  | _, _, _ => false
  end.

Definition is_text (v : val) : bool :=
  match v with
  | VStr s => negb (String.eqb s "")
  | _ => false
  end.

(** The result is about the vector's schema, its hash and the approved metadata; the first that is not
    decides. *)
Definition same_model (vector result : mapping) (metadata_hash : string) : Prelude.result bool :=
  let? schema := item "feature_schema" vector in
  if negb (py_eq (get "feature_schema" result) schema) then Ok false
  else
    let? schema_hash := item "feature_schema_sha256" vector in
    if negb (py_eq (get "feature_schema_sha256" result) schema_hash) then Ok false
    else Ok (py_eq (get "model_metadata_sha256" result) (VStr metadata_hash)).

Definition check_result (vector result : mapping) (metadata_hash : string) : Prelude.result unit :=
  raise_if (negb (same_keys (keys result) result_fields)) (refused "INFERENCE_RESPONSE_CONTRACT") ;;?
  let? same := same_model vector result metadata_hash in
  raise_if (negb same) (refused "MODEL_OR_SCHEMA_MISMATCH") ;;?
  raise_if (negb (is_hash_value (get "model_sha256" result)) || negb (is_hash_value (get "model_metadata_sha256" result)))
    (refused "INVALID_MODEL_HASH") ;;?
  raise_if (negb (py_eq (get "algorithm" result) (VStr "IsolationForest")) || negb (is_text (get "model_id" result)))
    (refused "INVALID_MODEL_IDENTITY") ;;?
  raise_if (negb (number_ok true (get "score" result)) || negb (number_ok true (get "threshold" result))
            || negb (number_ok false (get "inference_ms" result))) (refused "INVALID_INFERENCE_NUMBER") ;;?
  raise_if (negb (decision_consistent (get "is_anomaly" result) (get "score" result) (get "threshold" result)))
    (refused "INCONSISTENT_ANOMALY_DECISION").

Definition vector_fields : list string :=
  ["feature_schema"; "feature_schema_sha256"; "entity_type"; "entity"; "window_start"; "window_end"; "source_event_set_sha256"].
Definition ai_fields : list string :=
  ["model_id"; "algorithm"; "model_sha256"; "model_metadata_sha256"; "score"; "threshold"; "is_anomaly"; "inference_ms"].

(** [{name: d[name] for name in names}]. *)
Definition pick (names : list string) (d : mapping) : Prelude.result mapping :=
  mapR (fun name => let? v := item name d in Ok (name, v)) names.

Definition anomaly_event (vector result : mapping) (identifier metadata_hash observer : string) (now : Z) : Prelude.result mapping :=
  check_result vector result metadata_hash ;;?
  let? vector_id := item "vector_id" vector in
  let? picked := pick vector_fields vector in
  let? ai := pick ai_fields result in
  Ok [("@timestamp", VStr (soc_rfc3339 now)); ("schema_version", VStr "anomaly-event-v1");
      ("event", VDict [("id", VStr identifier); ("kind", VStr "event"); ("category", VList [VStr "anomaly_detection"]);
                       ("dataset", VStr "soc.ai.anomaly")]);
      ("observer", VDict [("name", VStr observer); ("type", VStr "ai_inference")]);
      ("feature_vector", VDict (("id", vector_id) :: picked));
      ("ai", VDict ai)].

(** The index of an event's day; a timestamp without offset is the worker's local time, UTC. *)
Definition event_index (event : mapping) : Prelude.result string :=
  let? stamp := item "@timestamp" event in
  match stamp with
  | VStr s =>
      match fromisoformat_z s with
      | None => Err (ValueError "Invalid isoformat string")
      | Some (local, offset) =>
          let? t := shift local (- default 0 offset) in
          Ok ("soc-ai-" +:+ strftime_ymd t)
      end
  | _ => Err (AttributeError "replace")
  end.

Record Enrichment (W : Type) : Type := { box : Outbox; net : W }.
Arguments box {W}.
Arguments net {W}.

Section enrichment.
Context {W : Type}.
Variables inference elastic : JsonHTTPS W.
Variable clock : M W Z.
Variable schema_file : string -> option (list Z).
Variable conforms : list Z -> mapping -> bool.
Notation S := (Enrichment W).

Definition in_box {X} (m : M Outbox X) : M S X :=
  fun s => let '(r, b) := m (box s) in (r, {| box := b; net := net s |}).
Definition in_net {X} (m : M W X) : M S X :=
  fun s => let '(r, w) := m (net s) in (r, {| box := box s; net := w |}).

Definition reading (k : Z -> M Outbox unit) : M S unit := let! now := in_net clock in in_box (k now).

(** The vector's history, when a sequence model asks for it. *)
Variable history_fetcher : option (mapping -> M W (list val)).

Definition infer_body (vector : mapping) : M S mapping :=
  let! schema := lift (item "feature_schema" vector) in
  let! entity := lift (item "entity" vector) in
  let! features := lift (item "features" vector) in
  let body := [("feature_schema", schema); ("entity", entity); ("features", features)] in
  match history_fetcher with
  | None => ret body
  | Some fetch => let! history := in_net (fetch vector) in ret (body ++ [("history", VList history)])
  end.

(** A job without a result is scored, and the result saved before it is delivered. *)
Definition score_job (j : Job) : M S mapping :=
  let! _ := lift (validate_vector schema_file conforms (doc_value (job_vector j))) in
  match doc_value (job_vector j) with
  | VDict vector =>
      let! body := infer_body vector in
      let! answer := in_net (request inference "POST" "/v1/infer" (Some (VDict body))) in
      raise_when (negb (answer.1 =? 200)) (delivery_error "INFERENCE_NOT_ACKNOWLEDGED" true) ;;!
      let! now := in_net clock in
      let! event := lift (anomaly_event vector answer.2 (job_id j) (job_metadata_hash j) "soc-ai-inference" now) in
      reading (save_event (job_id j) (VDict event)) ;;!
      ret event
  | _ => raise (FeatureSchemaError "vector must be an object")
  end.

(** [json.loads(job["event"]) if job["event"] else None]. *)
Definition saved_event (j : Job) : option val :=
  match job_event j with
  | Some d => if String.eqb (doc_text d) "" then None else match doc_value d with VNone => None | v => Some v end
  | None => None
  end.

Definition job_result (j : Job) : M S mapping :=
  match saved_event j with
  | None => score_job j
  | Some (VDict event) => ret event
  | Some _ => raise (TypeError "indices must be integers")
  end.

(** A conflict means this job's document was created before. *)
Definition put_event (j : Job) (index : string) (event : mapping) : M S unit :=
  attempt (in_net (request elastic "PUT" ("/" +:+ index +:+ "/_create/" +:+ job_id j) (Some (VDict event)))) (fun r =>
    match r with
    | Err (DeliveryError error_code retry (Some 409)) => ret tt
    | Err e => raise e
    | Ok (status, reply) =>
        raise_when (negb (status =? 201) || negb (py_eq (get "result" reply) (VStr "created")))
          (delivery_error "ES_CREATE_NOT_ACKNOWLEDGED" true)
    end).

Definition deliver_job (j : Job) : M S unit :=
  let! event := job_result j in
  let! index := lift (event_index event) in
  put_event j index event ;;!
  reading (mark_sent (job_id j)).

Definition drain_job (j : Job) : M S unit :=
  attempt (deliver_job j) (fun r =>
    match r with
    | Ok _ => ret tt
    | Err (FeatureSchemaError _) => reading (failed (job_id j) "FEATURE_CONTRACT_MISMATCH" false)
    | Err (DeliveryError error_code retryable _) => reading (failed (job_id j) error_code retryable)
    | Err e => raise e
    end).

Definition drain (limit : Z) : M S (list (string * Z)) :=
  raise_when (negb ((1 <=? limit) && (limit <=? 10000))) (ValueError "limit must be between 1 and 10000") ;;!
  let! now := in_net clock in
  let! batch := gets (fun s => due limit now (box s)) in
  let! _ := mapM_ drain_job batch in
  gets (fun s => status (box s)).

(** ** Pulling vectors *)
Definition FEATURE_CURSOR : string := "features_cursor".

Record pull_counts : Type := { added : Z; duplicates : Z; invalid : Z; seen : Z; last_sort : val }.

(** [x or y]. *)
Definition or_val (a b : val) : val := if truthy a then a else b.

(** [json.dumps(v)]: the cursor's text. *)
Fixpoint json_dumps (v : val) : string :=
  match v with
  | VNone => "null"
  | VBool true => "true"
  | VBool false => "false"
  | VNum n => json_number n
  | VStr s => json_string s
  | VList l => "[" +:+ str_join ", " (map json_dumps l) +:+ "]"
  | VDict d => "{" +:+ str_join ", " (map (fun kv => json_string kv.1 +:+ ": " +:+ json_dumps kv.2) d) +:+ "}"
  end.

Definition no_counts (cursor : val) : pull_counts := {| added := 0; duplicates := 0; invalid := 0; seen := 0; last_sort := cursor |}.

(** [seen += 1; last = hit.get("sort") or last]. *)
Definition count_hit (sort : val) (c : pull_counts) : pull_counts :=
  {| added := added c; duplicates := duplicates c; invalid := invalid c; seen := seen c + 1; last_sort := or_val sort (last_sort c) |}.
Definition count_invalid (c : pull_counts) : pull_counts :=
  {| added := added c; duplicates := duplicates c; invalid := invalid c + 1; seen := seen c; last_sort := last_sort c |}.
Definition count_enqueued (inserted : bool) (c : pull_counts) : pull_counts :=
  {| added := if inserted then added c + 1 else added c; duplicates := if inserted then duplicates c else duplicates c + 1;
     invalid := invalid c; seen := seen c; last_sort := last_sort c |}.

(** The body of the loop for one hit. *)
Definition pull_hit (metadata_hash : string) (c : pull_counts) (hit : val) : M S pull_counts :=
  let! sort := lift (get_attr "sort" VNone hit) in
  let! vector := lift (get_attr "_source" VNone hit) in
  match validate_vector schema_file conforms vector with
  | Err e => if is_schema_error e then ret (count_invalid (count_hit sort c)) else raise e
  | Ok _ =>
      let! now := in_net clock in
      let! inserted := in_box (enqueue vector metadata_hash now) in
      ret (count_enqueued inserted (count_hit sort c))
  end.

(** The loop's own variables are the counts, beside the worker's state. *)
Definition pulling {X} (m : M W X) : M (pull_counts * S) X :=
  fun s => let '(r, s') := in_net m s.2 in (r, (s.1, s')).

Definition pull_next (limit : Z) (metadata_hash : string) (hit : val) : M (pull_counts * S) bool := fun s =>
  if limit <=? seen s.1 then (Ok false, s)
  else match pull_hit metadata_hash s.1 hit s.2 with
       | (Ok c, s') => (Ok true, (c, s'))
       | (Err e, s') => (Err e, (s.1, s'))
       end.

(** [page_size=500], which no caller changes. *)
Definition PULL_PAGE : Z := 500.

(** Fuel for [limit] hits, and the page that shows there are more. *)
Definition pull_fuel (limit : Z) : nat := Datatypes.S (Z.to_nat (limit / Z.min PULL_PAGE limit)).

Definition pull_query (feature_schema : string) : val :=
  VDict [("bool", VDict [("filter", VList [VDict [("term", VDict [("feature_schema", VStr feature_schema)])]])])].
Definition pull_sort : val := VList [VDict [("window_end", VStr "asc")]; VDict [("vector_id", VStr "asc")]].

(** [false]: out of fuel, which [pull_features] never is. *)
Definition pull_loop (feature_schema metadata_hash : string) (limit : Z) (after : option val) : M (pull_counts * S) bool :=
  scan elastic (@pulling) "soc-features-*" (pull_query feature_schema) pull_sort None (Z.min PULL_PAGE limit) None
    (pull_next limit metadata_hash) (pull_fuel limit) after.

(** [json.loads(raw_cursor) if raw_cursor else None]. *)
Definition loaded_cursor (raw : option document) : val :=
  match raw with
  | Some d => if String.eqb (doc_text d) "" then VNone else doc_value d
  | None => VNone
  end.

(** [list(after) if after is not None else None]. *)
Definition search_after (cursor : val) : result (option val) :=
  match cursor with
  | VNone => Ok None
  | v => let? l := py_iter v in Ok (Some (VList l))
  end.

Definition pull_features (feature_schema metadata_hash : string) (limit : Z) : M S pull_counts :=
  raise_when (negb ((1 <=? limit) && (limit <=? 100000))) (ValueError "limit must be between 1 and 100000") ;;!
  let key := FEATURE_CURSOR +:+ ":" +:+ feature_schema in
  let! raw := gets (fun s => get_meta key (box s)) in
  let cursor := loaded_cursor raw in
  let! after := lift (search_after cursor) in
  let! c := (fun s => match pull_loop feature_schema metadata_hash limit after (no_counts cursor, s) with
                      | (Ok true, (c, s')) => (Ok c, s')
                      | (Ok false, (_, s')) => (Err AssertionError, s')
                      | (Err e, (_, s')) => (Err e, s')
                      end) in
  (match last_sort c with
   | VNone => ret tt
   | last => in_box (set_meta key {| doc_text := json_dumps last; doc_value := last |})
   end) ;;!
  ret c.

Definition serving_schema : M S string :=
  let! answer := in_net (request inference "GET" "/model" None) in
  match (if answer.1 =? 200 then get "feature_schema" answer.2 else VNone) with
  | VStr schema => ret schema
  | _ => raise (delivery_error "INFERENCE_MODEL_NOT_READY" true)
  end.

Definition serving_sequence_length : M S Z :=
  let! answer := in_net (request inference "GET" "/model" None) in
  match (if answer.1 =? 200 then default (VInt 1) (assoc "sequence_length" answer.2) else VNone) with
  | VInt n => if n <? 1 then raise (delivery_error "INFERENCE_MODEL_NOT_READY" true) else ret n
  | _ => raise (delivery_error "INFERENCE_MODEL_NOT_READY" true)
  end.
End enrichment.

(** ** The commands of the worker *)
Section commands.
Context {W : Type}.
Variables inference elastic : JsonHTTPS W.
Variable clock : M W Z.
Variable schema_file : string -> option (list Z).
Variable conforms : list Z -> mapping -> bool.
Notation S := (Enrichment W).

(** [make_history_fetcher(elastic, length) if length > 1 else None]. *)
Definition fetcher_for (length : Z) : option (mapping -> M W (list val)) :=
  if 1 <? length then Some (make_history_fetcher elastic length) else None.

(** [import]: a line has its number, and what [json.loads] gives for it; blank lines are left out. *)
Definition import_line (metadata_hash : string) (line : Z * result val) : M S bool :=
  let! vector := lift (try_except (let? vector := line.2 in validate_vector schema_file conforms vector ;;? Ok vector) is_value_error
    (fun _ => Err (ValueError ("invalid vector at line " +:+ str_of_Z line.1 +:+ "; source file retained")))) in
  let! now := in_net clock in
  in_box (enqueue vector metadata_hash now).

Definition import_vectors (metadata_hash : string) (lines : list (Z * result val)) : M S (Z * Z) :=
  let! inserted := mapM_ (import_line metadata_hash) lines in
  ret (Z.of_nat (length (List.filter id inserted)), Z.of_nat (length (List.filter negb inserted))).

(** [drain]: the model says how many windows it looks at. *)
Definition drain_command (limit : Z) : M S (list (string * Z)) :=
  raise_when (negb ((1 <=? limit) && (limit <=? 10000))) (ValueError "limit must be between 1 and 10000") ;;!
  let! length := serving_sequence_length inference in
  drain inference elastic clock schema_file conforms (fetcher_for length) limit.

(** [pull]: the schema of the model, unless one was asked for. *)
Definition pull_command (asked : string) (metadata_hash : string) (limit : Z) : M S pull_counts :=
  let! schema := (if String.eqb asked "" then serving_schema inference else ret asked) in
  pull_features elastic clock schema_file conforms schema metadata_hash limit.

(** One turn of [serve]; [None]: it waits for the services. *)
Definition serve_turn (metadata_hash : string) (limit : Z) : M S (option (pull_counts * list (string * Z))) :=
  attempt (let! schema := serving_schema inference in
           let! pulled := pull_features elastic clock schema_file conforms schema metadata_hash limit in
           let! length := serving_sequence_length inference in
           let! counts := drain inference elastic clock schema_file conforms (fetcher_for length) limit in
           ret (pulled, counts))
    (fun r => match r with
              | Ok counts => ret (Some counts)
              | Err (DeliveryError _ _ _) => ret None
              | Err e => raise e
              end).
End commands.
