(* ===== verification/Registry.v ===== *)
(** [ai/models/isolation_forest.py] and [ai/models/lstm_autoencoder.py]: verified model artifacts, and the
    scores they give.

    Parameters: the files of a registry directory, which may change between two reads (a state [W]);
    what [Path.resolve] makes of a path in it; [json.loads]; the JSON Schema validator of the
    provenance record; [joblib.load] and safetensors' [load]; and the numerical core of the two
    models.  [read_bytes] gives nothing when the operating system refuses. *)

From S2P Require Import Prelude PyText PyNum PyTime PyJson Sha256 Policy Decision Effects Store Contracts Sequences Outbox.

(** ** Floats *)
Definition f_sub (a b : SpecFloat.spec_float) : SpecFloat.spec_float := SpecFloat.SFsub 53 1024 a b.
Definition f_div (a b : SpecFloat.spec_float) : SpecFloat.spec_float := SpecFloat.SFdiv 53 1024 a b.
Definition f_ltb (a b : SpecFloat.spec_float) : bool := num_ltb (PFloat a) (PFloat b).
Definition f_zero : SpecFloat.spec_float := SpecFloat.S754_zero false.
Definition f_one : SpecFloat.spec_float := float_of_Z 1.

(** [max(0.0, min(1.0, x))]: each keeps its first argument unless the second is beyond it. *)
Definition unit_clamp (x : SpecFloat.spec_float) : SpecFloat.spec_float :=
  let m := if f_ltb x f_one then x else f_one in if f_ltb f_zero m then m else f_zero.

Definition f_finite (x : SpecFloat.spec_float) : bool :=
  match x with
  | SpecFloat.S754_infinity _ | SpecFloat.S754_nan => false
  | _ => true
  end.

(** [a / b] of floats. *)
Definition py_fdiv (a b : SpecFloat.spec_float) : result SpecFloat.spec_float :=
  match b with
  | SpecFloat.S754_zero _ => Err (ZeroDivisionError "float division by zero")
  | _ => Ok (f_div a b)
  end.

(** ** The two models *)

(** What both classes declare. *)
Record Calibrated : Type := {
  feature_schema : string;
  model_schema_sha256 : string;
  feature_names : list val;
  calibration_low : SpecFloat.spec_float;
  calibration_high : SpecFloat.spec_float }.

(** [(raw - low) / (high - low)], clamped. *)
Definition calibrated_score (c : Calibrated) (raw : SpecFloat.spec_float) : result SpecFloat.spec_float :=
  let? score := py_fdiv (f_sub raw (calibration_low c)) (f_sub (calibration_high c) (calibration_low c)) in
  Ok (unit_clamp score).

(** [decision_function([row])[0]] of the fitted pipeline. *)
Record SocIsolationForest : Type := {
  forest : Calibrated;
  decision_function : list SpecFloat.spec_float -> result SpecFloat.spec_float }.

(** [reconstruct]: the mean squared error of one matrix; the tensors behind it are not looked at. *)
Record SocLstmAutoencoder : Type := {
  recurrent : Calibrated;
  window_count : Z;
  hidden_size : Z;
  latent_size : Z;
  mean : list SpecFloat.spec_float;
  std : list SpecFloat.spec_float;
  reconstruct : list (list SpecFloat.spec_float) -> result SpecFloat.spec_float }.

Inductive soc_model : Type :=
| Forest (m : SocIsolationForest)
| Recurrent (m : SocLstmAutoencoder).

Definition calibration_of (m : soc_model) : Calibrated :=
  match m with
  | Forest f => forest f
  | Recurrent r => recurrent r
  end.

Definition sequence_length (m : soc_model) : Z :=
  match m with
  | Forest _ => 1
  | Recurrent r => window_count r
  end.

Definition forest_score (f : SocIsolationForest) (features : val) (history : list val) : result SpecFloat.spec_float :=
  raise_if (negb (Nat.eqb (length history) 0)) (FeatureSchemaError "the Isolation Forest scores one window; history is not accepted") ;;?
  let? row := ordered_feature_row (feature_schema (forest f)) features in
  let? decision := decision_function f row in
  let raw_score := SpecFloat.SFopp decision in
  raise_if (negb (f_finite raw_score)) (ModelProvenanceError "model returned a non-finite score") ;;?
  calibrated_score (forest f) raw_score.

Definition raw_error (r : SocLstmAutoencoder) (matrix : list (list SpecFloat.spec_float)) : result SpecFloat.spec_float :=
  raise_if (negb (Z.of_nat (length matrix) =? window_count r))
    (FeatureSchemaError ("sequence must contain exactly " +:+ str_of_Z (window_count r) +:+ " windows")) ;;?
  let? value := reconstruct r matrix in
  raise_if (negb (f_finite value)) (LstmModelError "model returned a non-finite reconstruction error") ;;?
  Ok value.

Definition score_matrix (r : SocLstmAutoencoder) (matrix : list (list SpecFloat.spec_float)) : result SpecFloat.spec_float :=
  let? raw := raw_error r matrix in calibrated_score (recurrent r) raw.

(** ** Reading a safetensors artifact *)

(** [struct.unpack("<Q", data[:8])]. *)
Definition header_size (data : list Z) : Z := fold_right (fun b acc => b + 256 * acc) 0 (take 8 data).

(** Tensors as [load] gives them: a name, and the numbers of the tensor. *)
Notation tensors := (list (string * list SpecFloat.spec_float)).

Section artifacts.
Variable json_loads : list Z -> result val.
Variable load_tensors : list Z -> result tensors.
(** The rows normalized with mean and deviation, through the network of the given dimensions. *)
Variable network : list val -> list SpecFloat.spec_float -> list SpecFloat.spec_float -> tensors -> Z -> Z -> Z ->
  list (list SpecFloat.spec_float) -> result SpecFloat.spec_float.

Definition is_str (v : val) : bool :=
  match v with
  | VStr _ => true
  | _ => false
  end.

Definition read_safetensors_metadata (data : list Z) : result mapping :=
  raise_if (Z.of_nat (length data) <? 8) (LstmModelError "safetensors artifact is truncated") ;;?
  let size := header_size data in
  raise_if ((16 * 1024 * 1024 <? size) || (Z.of_nat (length data) <? 8 + size)) (LstmModelError "safetensors header is invalid") ;;?
  let? header := try_except (json_loads (take (Z.to_nat size) (drop 8 data))) is_value_error
    (fun _ => Err (LstmModelError "safetensors header is not JSON")) in
  let? metadata := get_attr "__metadata__" (VDict []) header in
  match metadata with
  | VDict d => if forallb (fun kv => is_str kv.2) d then Ok d else Err (LstmModelError "safetensors metadata must map strings to strings")
  | _ => Err (LstmModelError "safetensors metadata must map strings to strings")
  end.

Definition is_key_value_type_error (e : exn) : bool :=
  is_value_error e || match e with KeyError _ | TypeError _ => true | _ => false end.

(** The fields of the header, and the errors that count as an incomplete one. *)
Definition artifact_fields (meta : mapping) : result (list val * (Z * Z * Z) * (string * string)) :=
  try_except
    (let? text := item "feature_names" meta in
     let? listed := json_loads (utf8 (str_val text)) in
     let? names := py_iter listed in
     let? length := rbind (item "sequence_length" meta) int_of_val in
     let? hidden := rbind (item "hidden_size" meta) int_of_val in
     let? latent := rbind (item "latent_size" meta) int_of_val in
     let? schema := item "feature_schema" meta in
     let? schema_hash := item "feature_schema_sha256" meta in
     Ok (names, (length, hidden, latent), (str_val schema, str_val schema_hash)))
    is_key_value_type_error (fun _ => Err (LstmModelError "LSTM artifact metadata is incomplete")).

(** [tensors.pop(name)]. *)
Definition pop (name : string) (t : tensors) : result (list SpecFloat.spec_float * tensors) :=
  match assoc name t with
  | Some v => Ok (v, assoc_del name t)
  | None => Err (KeyError name)
  end.

Definition is_key_error (e : exn) : bool :=
  match e with
  | KeyError _ => true
  | _ => false
  end.

Definition preprocessing (t : tensors) : result (list SpecFloat.spec_float * list SpecFloat.spec_float * (SpecFloat.spec_float * SpecFloat.spec_float) * tensors) :=
  try_except
    (let? '(mean, t) := pop "preprocess.mean" t in
     let? '(std, t) := pop "preprocess.std" t in
     let? '(calibration, t) := pop "calibration" t in
     match calibration with
     | [low; high] => Ok (mean, std, (low, high), t)
     | _ :: _ :: _ :: _ => Err (ValueError "too many values to unpack (expected 2)")
     | _ => Err (ValueError ("not enough values to unpack (expected 2, got " +:+ str_of_Z (Z.of_nat (length calibration)) +:+ ")"))
     end)
    is_key_error (fun _ => Err (LstmModelError "LSTM artifact lacks preprocessing or calibration")).

Definition from_safetensors (data : list Z) : result SocLstmAutoencoder :=
  let? meta := read_safetensors_metadata data in
  raise_if (negb (py_eq (get "format" meta) (VStr "cxyz-lstm-autoencoder-v1"))) (LstmModelError "artifact is not a CompanyXYZ LSTM autoencoder") ;;?
  let? '(names, (length_, hidden, latent), (schema, schema_hash)) := artifact_fields meta in
  raise_if (negb ((2 <=? length_) && (length_ <=? 288) && (1 <=? latent) && (latent <=? hidden) && (hidden <=? 512)))
    (LstmModelError "LSTM artifact dimensions are outside the supported range") ;;?
  let? all := load_tensors data in
  let? '(mean, std, (low, high), state) := preprocessing all in
  raise_if (negb (Nat.eqb (length mean) (length names)) || negb (Nat.eqb (length std) (length names))
            || existsb (fun s => num_leb (PFloat s) (PInt 0)) std)
    (LstmModelError "LSTM preprocessing does not match its feature names") ;;?
  Ok {| recurrent := {| feature_schema := schema; model_schema_sha256 := schema_hash; feature_names := names;
                        calibration_low := low; calibration_high := high |};
        window_count := length_; hidden_size := hidden; latent_size := latent; mean := mean; std := std;
        reconstruct := network names mean std state length_ hidden latent |}.
End artifacts.

(** ** Provenance *)

(** [dict(v)]: a mapping, or an iterable of pairs; nothing when it raises or a key is no string. *)
Definition dict_of (v : val) : option mapping :=
  match v with
  | VDict d => Some d
  | VList l =>
      fold_left (fun acc e => match acc, py_iter e with
                              | Some d, Ok [VStr k; x] => Some (assoc_set k x d)
                              | _, _ => None
                              end) l (Some [])
  | VStr EmptyString => Some []
  | _ => None
  end.

(** The reading of the schema, the validator and [json.dumps(metadata, allow_nan=False)]. *)
Definition _validate_provenance (provenance_valid : mapping -> bool) (metadata : val) : result unit :=
  match dict_of metadata with
  | Some d =>
      raise_if (negb (provenance_valid d) || negb (finite_val metadata))
        (ModelProvenanceError "model provenance does not satisfy model-provenance-v1")
  | None => Err (ModelProvenanceError "model provenance does not satisfy model-provenance-v1")
  end.

Definition ARTIFACT_BY_ALGORITHM : list (string * (string * string)) :=
  [("IsolationForest", ("joblib", "model.joblib")); ("LSTMAutoencoder", ("safetensors", "model.safetensors"))].

(** [value in ARTIFACT_BY_ALGORITHM], and the entry. *)
Definition artifact_layout (algorithm : val) (refused : string) : result (string * string) :=
  match algorithm with
  | VStr s =>
      match assoc s ARTIFACT_BY_ALGORITHM with
      | Some layout => Ok layout
      | None => Err (ModelProvenanceError refused)
      end
  | VList _ | VDict _ => Err (TypeError "unhashable type")
  | _ => Err (ModelProvenanceError refused)
  end.

(** The parts of a relative path, and [Path(p).name]. *)
Definition path_name (p : string) : string :=
  List.last (List.filter (fun part => negb (String.eqb part "" || String.eqb part ".")) (split_on "/" p)) "".

(** [resolve]: whether the resolved path is a file of the resolved directory itself, and its name there. *)
Definition _safe_artifact_path (resolve : string -> bool * string) (relative_path : val) (expected_name : string) : result string :=
  match relative_path with
  | VStr p =>
      raise_if (String.eqb p "") (ModelProvenanceError "model provenance is missing artifact.path") ;;?
      raise_if (starts_with "/" p || negb (String.eqb (path_name p) expected_name))
        (ModelProvenanceError ("model artifact must be the registry-local " +:+ expected_name +:+ " file")) ;;?
      let '(inside, name) := resolve p in
      raise_if (negb inside) (ModelProvenanceError "model artifact path escapes its registry directory") ;;? Ok name
  | _ => Err (ModelProvenanceError "model provenance is missing artifact.path")
  end.

(** ** Loading *)
Record ApprovedModel : Type := {
  model : soc_model;
  metadata : mapping;
  metadata_sha256 : string;
  model_sha256 : string }.

Definition MAX_ARTIFACT : Z := 128 * 1024 * 1024.

Definition is_model_error (e : exn) : bool :=
  match e with
  | LstmModelError _ => true
  | _ => false
  end.

Section loading.
Context {W : Type}.
Variable read_bytes : string -> M W (option (list Z)).
Variable is_file : string -> M W bool.
Variable resolve : string -> bool * string.
Variable json_loads : list Z -> result val.
Variable provenance_valid : mapping -> bool.
Variable schema_file : string -> option (list Z).
(** [None]: what was unpickled is no [SocIsolationForest]. *)
Variable joblib_load : list Z -> M W (option SocIsolationForest).
Variable lstm_load : list Z -> M W SocLstmAutoencoder.

(** Bytes that hash to the digest the deployment was given, and what they say. *)
Definition trusted_metadata (trusted : string) : M W val :=
  let! bytes := read_bytes "metadata.json" in
  match bytes with
  | None => raise (ModelProvenanceError "cannot read approved model metadata")
  | Some bytes =>
      raise_when (negb (String.eqb (hexdigest (sha256 bytes)) trusted))
        (ModelProvenanceError "metadata digest does not match the deployment approval") ;;!
      lift (try_except (json_loads bytes) is_value_error (fun _ => Err (ModelProvenanceError "cannot read approved model metadata")))
  end.

(** The bytes of the artifact, checked against its provenance. *)
Definition verified_artifact (name : string) (artifact : mapping) : M W (list Z) :=
  let! present := is_file name in
  raise_when (negb present) (ModelProvenanceError "approved model artifact is missing") ;;!
  let! contents := read_bytes name in
  match contents with
  | None => raise (ModelProvenanceError "cannot read approved artifact")
  | Some bytes =>
      raise_when (MAX_ARTIFACT <? Z.of_nat (length bytes)) (ModelProvenanceError "model artifact exceeds 128 MiB limit") ;;!
      raise_when (negb (py_eq (VStr (hexdigest (sha256 bytes))) (get "sha256" artifact)))
        (ModelProvenanceError "model artifact digest does not match provenance") ;;!
      raise_when (negb (py_eq (VInt (Z.of_nat (length bytes))) (get "size_bytes" artifact)))
        (ModelProvenanceError "model artifact size does not match provenance") ;;!
      ret bytes
  end.

(** The feature contract of the record is the repository's, and the registry has the same file. *)
Definition verified_schema (metadata : mapping) : M W (string * string) :=
  let! feature_metadata := lift (item "feature_schema" metadata) in
  match feature_metadata with
  | VDict fm =>
      let! schema := lift (match get "id" fm with
                           | VStr s => Ok s
                           | _ => Err (ModelProvenanceError "model provenance feature schema ID is invalid")
                           end) in
      let! actual := lift (try_except (Contracts.feature_schema_sha256 schema_file schema)
        (fun e => is_schema_error e || match e with OSError _ => true | _ => false end)
        (fun _ => Err (ModelProvenanceError "repository feature contract is unavailable"))) in
      raise_when (negb (py_eq (VStr actual) (get "sha256" fm))) (ModelProvenanceError "repository feature schema digest does not match provenance") ;;!
      let! present := is_file "feature_schema.json" in
      let! copy := (if present : bool then read_bytes "feature_schema.json" else ret (Some [])) in
      match copy with
      | None => raise (OSError "feature_schema.json")
      | Some bytes =>
          raise_when (negb present || negb (String.eqb (hexdigest (sha256 bytes)) actual))
            (ModelProvenanceError "registry feature schema copy does not match provenance") ;;!
          ret (schema, actual)
      end
  | _ => raise (ModelProvenanceError "model provenance is missing feature schema metadata")
  end.

(** Any exception of [joblib.load] counts as an artifact that cannot be loaded. *)
Definition deserialise (algorithm : string) (metadata : mapping) (bytes : list Z) : M W soc_model :=
  if String.eqb algorithm "IsolationForest" then
    attempt (joblib_load bytes) (fun r =>
      match r with
      | Err _ => raise (ModelProvenanceError "verified model artifact could not be loaded")
      | Ok None => raise (ModelProvenanceError "joblib artifact is not a CompanyXYZ Isolation Forest")
      | Ok (Some m) => ret (Forest m)
      end)
  else
    let! m := catch (lstm_load bytes) is_model_error (fun e => raise (ModelProvenanceError (exn_message e))) in
    let! declared := lift (let? training := item "training" metadata in subscript "hyperparameters" training) in
    let! length := lift (get_attr "sequence_length" VNone declared) in
    raise_when (negb (py_eq length (VInt (window_count m)))) (ModelProvenanceError "LSTM sequence length does not match provenance") ;;!
    ret (Recurrent m).

(** What is checked of a model once it is loaded. *)
Definition check_loaded (schema actual : string) (c : Calibrated) : result unit :=
  raise_if (negb (f_finite (calibration_low c) && f_finite (calibration_high c))) (ModelProvenanceError "model calibration is not finite") ;;?
  raise_if (num_leb (PFloat (calibration_high c)) (PFloat (calibration_low c))) (ModelProvenanceError "model calibration interval is invalid") ;;?
  raise_if (negb (String.eqb (feature_schema c) schema) || negb (String.eqb (model_schema_sha256 c) actual))
    (ModelProvenanceError "model-internal feature contract does not match provenance") ;;?
  try_except
    (let? expected := expected_feature_names schema in
     raise_if (negb (py_eq (VList (feature_names c)) (VList (map VStr expected))))
       (FeatureSchemaError ("model feature order does not match " +:+ schema +:+ "; retraining is required")))
    is_schema_error (fun e => Err (ModelProvenanceError (exn_message e))).

Definition load_approved_model (trusted_metadata_sha256 : option string) : M W ApprovedModel :=
  let trusted := default "" trusted_metadata_sha256 in
  raise_when (negb (is_sha256_text trusted)) (ModelProvenanceError "an independently approved metadata SHA-256 is required") ;;!
  let! record := trusted_metadata trusted in
  lift (_validate_provenance provenance_valid record) ;;!
  let! status := lift (get_attr "status" VNone record) in
  raise_when (negb (py_eq status (VStr "approved"))) (ModelProvenanceError "only an approved model may serve inference") ;;!
  let! algorithm := lift (get_attr "algorithm" VNone record) in
  let! layout := lift (artifact_layout algorithm "this loader does not serve that model algorithm") in
  let metadata := match record with VDict d => d | _ => [] end in
  let! artifact := lift (item "artifact" metadata) in
  match artifact with
  | VDict artifact =>
      raise_when (negb (py_eq (get "format" artifact) (VStr layout.1)))
        (ModelProvenanceError ("model artifact must be a " +:+ layout.1 +:+ " artifact")) ;;!
      let! name := lift (_safe_artifact_path resolve (get "path" artifact) layout.2) in
      let! bytes := verified_artifact name artifact in
      let! '(schema, actual) := verified_schema metadata in
      let! m := deserialise (str_val algorithm) metadata bytes in
      lift (check_loaded schema actual (calibration_of m)) ;;!
      ret {| model := m; metadata := metadata; metadata_sha256 := trusted; model_sha256 := hexdigest (sha256 bytes) |}
  | _ => raise (ModelProvenanceError ("model artifact must be a " +:+ layout.1 +:+ " artifact"))
  end.
End loading.

(** ** Inference *)
Definition model_id (m : ApprovedModel) : result string := let? v := item "model_id" (metadata m) in Ok (str_val v).
Definition algorithm (m : ApprovedModel) : result string := let? v := item "algorithm" (metadata m) in Ok (str_val v).

(** The provenance schema admits only numbers here. *)
Definition threshold (m : ApprovedModel) : result SpecFloat.spec_float :=
  let? v := item "threshold" (metadata m) in
  match v with
  | VNum n => py_float n
  | VBool b => Ok (if b then f_one else f_zero)
  | _ => Err (TypeError "float() argument must be a string or a real number")
  end.

Definition infer (m : ApprovedModel) (features : val) (history : list val) : result (SpecFloat.spec_float * bool) :=
  let? score :=
    match model m with
    | Recurrent r =>
        if 1 <? window_count r then
          let? name := algorithm m in
          raise_if (negb (Z.of_nat (length history) =? window_count r - 1))
            (FeatureSchemaError (name +:+ " requires exactly " +:+ str_of_Z (window_count r - 1) +:+ " history windows")) ;;?
          let? matrix := sequence_matrix (feature_schema (recurrent r)) history features in
          score_matrix r matrix
        else Err (AttributeError "score")
    | Forest f => forest_score f features history
    end in
  let? limit := threshold m in
  Ok (score, num_leb (PFloat limit) (PFloat score)).
