(* ===== verification/InferApi.v ===== *)
(** [ai/api/main.py]: the inference service.

    A request is what pydantic accepted of it; a reply is a status and a document.  An exception that
    leaves a handler is an unhandled server error.  The model provider and the counters are the
    service's state, beside the world [W] of the registry and the clock. *)

From S2P Require Import Prelude PyText PyNum PyTime PyNet PyJson Sha256 Policy Decision Effects Store Contracts Sequences Outbox.
From S2P Require Import Registry.

Record InferenceRequest : Type := {
  req_schema : string;
  req_entity : string;
  req_features : list (string * pynum);
  req_history : list (option (list (string * pynum))) }.

Record ModelProvider : Type := {
  cached : option ApprovedModel;
  last_error : option string }.

Record RuntimeMetrics : Type := {
  requests : Z;
  errors : Z;
  last_inference_ms : SpecFloat.spec_float }.

Record Api (W : Type) : Type := { provider : ModelProvider; metrics : RuntimeMetrics; registry : W }.
Arguments provider {W}.
Arguments metrics {W}.
Arguments registry {W}.

Definition new_api {W} (w : W) : Api W :=
  {| provider := {| cached := None; last_error := None |}; metrics := {| requests := 0; errors := 0; last_inference_ms := f_zero |}; registry := w |}.

Definition numbers (d : list (string * pynum)) : val := VDict (map (fun kv => (kv.1, VNum kv.2)) d).

(** [None] is the [null] of a window without events. *)
Definition history_entry (o : option (list (string * pynum))) : val :=
  match o with
  | Some d => numbers d
  | None => VNone
  end.

Definition api_reply : Type := Z * val.

Section api.
Context {W : Type}.
(** [load_approved_model] with the service's registry and digest. *)
Variable load_model : M W ApprovedModel.
(** Milliseconds from [perf_counter] to [perf_counter]. *)
Variable elapsed_ms : M W SpecFloat.spec_float.
Notation S := (Api W).

Definition in_registry {X} (m : M W X) : M S X :=
  fun s => let '(r, w) := m (registry s) in (r, {| provider := provider s; metrics := metrics s; registry := w |}).

Definition record_error : M S unit :=
  modify (fun s => {| provider := provider s; registry := registry s;
    metrics := {| requests := requests (metrics s); errors := errors (metrics s) + 1; last_inference_ms := last_inference_ms (metrics s) |} |}).

Definition record_success (ms : SpecFloat.spec_float) : M S unit :=
  modify (fun s => {| provider := provider s; registry := registry s;
    metrics := {| requests := requests (metrics s) + 1; errors := errors (metrics s); last_inference_ms := ms |} |}).

Definition set_provider (p : ModelProvider) : M S unit :=
  modify (fun s => {| provider := p; metrics := metrics s; registry := registry s |}).

Definition is_provenance_error (e : exn) : bool :=
  match e with
  | ModelProvenanceError _ => true
  | _ => false
  end.

(** [ModelProvider.get]. *)
Definition get_model : M S ApprovedModel :=
  let! p := gets provider in
  match cached p with
  | Some m => ret m
  | None =>
      attempt (in_registry load_model) (fun r =>
        match r with
        | Ok m => set_provider {| cached := Some m; last_error := None |} ;;! ret m
        | Err e =>
            (if is_provenance_error e then set_provider {| cached := None; last_error := Some (exn_message e) |} else ret tt) ;;! raise e
        end)
  end.

Definition readiness_reason : M S string :=
  gets (fun s => match last_error (provider s) with
                 | Some e => if String.eqb e "" then "model registry unavailable" else e
                 | None => "model registry unavailable"
                 end).

Definition _unavailable : M S api_reply :=
  record_error ;;!
  let! reason := readiness_reason in
  ret (503, VDict [("detail", VDict [("code", VStr "MODEL_NOT_READY");
    ("message", VStr "No verified approved model is available; static SOC detections continue independently.");
    ("reason", VStr reason)])]).

Definition rejected (detail : val) : M S api_reply := record_error ;;! ret (422, VDict [("detail", detail)]).

(** An entity that is no address is refused without being counted. *)
Definition entity_ok (schema entity : string) : bool :=
  negb (String.eqb schema "network-window-v1") || match ip_address entity with Some _ => true | None => false end.

(** [0.0 <= x <= 1.0] and [0.0 <= x], as the response models check them. *)
Definition in_unit (x : SpecFloat.spec_float) : bool := num_leb (PInt 0) (PFloat x) && num_leb (PFloat x) (PInt 1).
Definition not_negative (x : SpecFloat.spec_float) : bool := num_leb (PInt 0) (PFloat x).

Definition response_error : exn := ValueError "response model validation".

Definition inference_response (m : ApprovedModel) (score : SpecFloat.spec_float) (is_anomaly : bool) (ms : SpecFloat.spec_float) : result val :=
  let? id := model_id m in
  let? name := algorithm m in
  let? limit := threshold m in
  raise_if (negb (in_unit score && in_unit limit && not_negative ms)) response_error ;;?
  Ok (VDict [("model_id", VStr id); ("algorithm", VStr name); ("feature_schema", VStr (feature_schema (calibration_of (model m))));
             ("feature_schema_sha256", VStr (model_schema_sha256 (calibration_of (model m)))); ("model_sha256", VStr (model_sha256 m));
             ("model_metadata_sha256", VStr (metadata_sha256 m)); ("score", VNum (PFloat score)); ("threshold", VNum (PFloat limit));
             ("is_anomaly", VBool is_anomaly); ("inference_ms", VNum (PFloat ms))]).

(** The scoring and its reply. *)
Definition score_request (request : InferenceRequest) (m : ApprovedModel) : M S api_reply :=
  match infer m (numbers (req_features request)) (map history_entry (req_history request)) with
  | Err e =>
      if is_provenance_error e then _unavailable
      else if is_value_error e then rejected (VDict [("code", VStr "FEATURE_CONTRACT_MISMATCH"); ("message", VStr (exn_message e))])
      else raise e
  | Ok (score, is_anomaly) =>
      let! ms := in_registry elapsed_ms in
      record_success ms ;;!
      let! reply := lift (inference_response m score is_anomaly ms) in
      ret (200, reply)
  end.

Definition check_history (request : InferenceRequest) : result unit :=
  foldR (fun _ o => match o with Some d => require_exact_features (req_schema request) (numbers d) | None => Ok tt end) tt (req_history request).

(** What the approved model asks of a request. *)
Definition infer_with (request : InferenceRequest) (m : ApprovedModel) : M S api_reply :=
  let expected := feature_schema (calibration_of (model m)) in
  let windows := sequence_length (model m) - 1 in
  if negb (String.eqb (req_schema request) expected) then
    rejected (VDict [("code", VStr "FEATURE_SCHEMA_MISMATCH");
      ("message", VStr "request schema does not match the approved model; no automatic mapping exists");
      ("expected", VStr expected); ("received", VStr (req_schema request))])
  else if negb (Z.of_nat (length (req_history request)) =? windows) then
    rejected (VDict [("code", VStr "HISTORY_LENGTH_MISMATCH");
      ("message", VStr ("the approved model needs exactly " +:+ str_of_Z windows +:+ " history windows"));
      ("expected", VInt windows); ("received", VInt (Z.of_nat (length (req_history request))))])
  else
    match check_history request with
    | Err e => if is_schema_error e then rejected (VStr (exn_message e)) else raise e
    | Ok _ => score_request request m
    end.

(** [POST /v1/infer]. *)
Definition infer_request (request : InferenceRequest) : M S api_reply :=
  if negb (entity_ok (req_schema request) (req_entity request)) then
    ret (422, VDict [("detail", VStr "network-window-v1 requires entity to be a valid IP address")])
  else
    match require_exact_features (req_schema request) (numbers (req_features request)) with
    | Err e => if is_schema_error e then rejected (VStr (exn_message e)) else raise e
    | Ok _ =>
        attempt get_model (fun r =>
          match r with
          | Err e => if is_provenance_error e then _unavailable else raise e
          | Ok m => infer_with request m
          end)
    end.

(** [GET /ready]. *)
Definition ready : M S api_reply :=
  attempt get_model (fun r =>
    match r with
    | Err e =>
        if is_provenance_error e
        then let! reason := readiness_reason in ret (503, VDict [("ready", VBool false); ("reason", VStr reason)])
        else raise e
    | Ok m =>
        let! id := lift (model_id m) in
        ret (200, VDict [("ready", VBool true); ("model_id", VStr id); ("feature_schema", VStr (feature_schema (calibration_of (model m))))])
    end).

Definition status_reply (m : ApprovedModel) : result val :=
  let? id := model_id m in
  let? name := algorithm m in
  let? limit := threshold m in
  let? status := item "status" (metadata m) in
  raise_if (negb (in_unit limit && (1 <=? sequence_length (model m)))) response_error ;;?
  Ok (VDict [("model_id", VStr id); ("algorithm", VStr name); ("feature_schema", VStr (feature_schema (calibration_of (model m))));
             ("feature_schema_sha256", VStr (model_schema_sha256 (calibration_of (model m)))); ("model_sha256", VStr (model_sha256 m));
             ("model_metadata_sha256", VStr (metadata_sha256 m)); ("threshold", VNum (PFloat limit));
             ("status", VStr (str_val status)); ("sequence_length", VInt (sequence_length (model m)))]).

(** [GET /model]. *)
Definition model_status : M S api_reply :=
  attempt get_model (fun r =>
    match r with
    | Err e => if is_provenance_error e then _unavailable else raise e
    | Ok m => let! reply := lift (status_reply m) in ret (200, reply)
    end).
End api.
