(* ===== verification/Partitions.v ===== *)
(** [ai/training/partitions.py]: the gate that keeps training, validation and test apart.

    Parameters: the JSON Schema validator of the manifest, [json.loads], the contract's schema files
    and validator, the bytes of the ledger and of the three vector files (nothing: the operating
    system refuses). *)

From S2P Require Import Prelude PyText PyNum PyTime PyJson Sha256 Policy Decision Effects Store Contracts.

Definition out_of_range : exn := ValueError "Out of range float values are not JSON compliant".

Definition canonical_hash (value : val) : result string :=
  if finite_val value then Ok (hexdigest (sha256 (utf8 (canonical_json value)))) else Err out_of_range.

(** Datetimes with an offset compare and hash as the instant they name. *)
Definition timestamp (value : val) : result Z :=
  match value with
  | VStr s =>
      match fromisoformat_z s with
      | None => Err (ValueError ("Invalid isoformat string: " +:+ py_repr (replace_char "Z" "+00:00" s)))
      | Some (_, None) => Err (ValueError "timestamp must include timezone")
      | Some (local, Some offset) => Ok (local - offset)
      end
  | _ => Err (AttributeError "replace")
  end.

Definition is_container (v : val) : bool :=
  match v with
  | VList _ | VDict _ => true
  | _ => false
  end.

(** The elements of [set(v)], repetitions included, and [set(v) == names]. *)
Definition py_set (v : val) : result (list val) :=
  let? l := py_iter v in raise_if (existsb is_container l) (TypeError "unhashable type") ;;? Ok l.

Definition named (x : val) (names : list string) : bool := existsb (fun n => py_eq x (VStr n)) names.
Definition names_it (l : list val) (n : string) : bool := existsb (fun x => py_eq x (VStr n)) l.

Definition set_is (names : list string) (v : val) : result bool :=
  let? l := py_set v in Ok (forallb (fun x => named x names) l && forallb (names_it l) names).

(** ** Ownership of identifiers *)
Notation owners := (gmap string string).

(** [owners.setdefault(identifier, name) != name]. *)
Definition claim (name : string) (o : owners) (identifier : string) : result owners :=
  match o !! identifier with
  | None => Ok (<[identifier := name]> o)
  | Some owner => if String.eqb owner name then Ok o else Err (ValueError "source/session leakage across partitions")
  end.

Definition bad_ids : exn := ValueError "membership IDs must be nonempty unique strings".

Definition text_of (v : val) : result string :=
  match v with
  | VStr s => if String.eqb s "" then Err bad_ids else Ok s
  | _ => Err bad_ids
  end.

Definition identifiers_of (v : val) : result (list string) :=
  match v with
  | VList l =>
      raise_if (Nat.eqb (length l) 0) bad_ids ;;?
      let? ids := mapR text_of l in
      if decide (NoDup ids) then Ok ids else Err bad_ids
  | _ => Err bad_ids
  end.

(** ** Members *)
Record Scan : Type := {
  source_owners : owners;
  session_owners : owners;
  seen : list (val * Z * Z);
  sessions : gset string }.

Definition same_vector (a b : val * Z * Z) : bool := py_eq a.1.1 b.1.1 && (a.1.2 =? b.1.2) && (a.2 =? b.2).

Section gate.
Variable manifest_valid : val -> bool.
Variable json_loads : list Z -> result val.
Variable schema_file : string -> option (list Z).
Variable conforms : list Z -> mapping -> bool.

(** The window of a vector, within its partition. *)
Definition window_in (start finish : Z) (vector : mapping) : result (Z * Z) :=
  let? ws := rbind (item "window_start" vector) timestamp in
  raise_if (negb (start <=? ws)) (ValueError "vector crosses its temporal partition") ;;?
  let? we := rbind (item "window_end" vector) timestamp in
  raise_if (negb ((ws <? we) && (we <=? finish))) (ValueError "vector crosses its temporal partition") ;;?
  Ok (ws, we).

Definition check_vector (manifest : val) (start finish : Z) (st : Scan) (vector : mapping) : result Scan :=
  let? schema := item "feature_schema" vector in
  let? wanted := subscript "feature_schema" manifest in
  raise_if (negb (py_eq schema wanted)) (ValueError "mixed feature schemas") ;;?
  let? '(ws, we) := window_in start finish vector in
  let? entity := item "entity" vector in
  raise_if (is_container entity) (TypeError "unhashable type") ;;?
  raise_if (existsb (same_vector (entity, ws, we)) (seen st)) (ValueError "duplicate entity/window vector") ;;?
  Ok {| source_owners := source_owners st; session_owners := session_owners st; seen := (entity, ws, we) :: seen st; sessions := sessions st |}.

Definition member_fields : list string := ["vector_sha256"; "source_event_ids"; "session_ids"].

(** The identifiers a member lists, none of them owned by another partition. *)
Definition check_member (name : string) (st : Scan) (vector : val) (member : val) : result Scan :=
  let? closed := set_is member_fields member in
  raise_if (negb closed) (ValueError "invalid membership fields") ;;?
  let? bound := subscript "vector_sha256" member in
  let? actual := canonical_hash vector in
  raise_if (negb (py_eq bound (VStr actual))) (ValueError "membership is not bound to vector") ;;?
  let? source_ids := rbind (subscript "source_event_ids" member) identifiers_of in
  let? sources := foldR (claim name) (source_owners st) source_ids in
  let? session_ids := rbind (subscript "session_ids" member) identifiers_of in
  let? owned := foldR (claim name) (session_owners st) session_ids in
  let? recorded := subscript "source_event_set_sha256" vector in
  raise_if (negb (py_eq (VStr (hexdigest (sha256 (utf8 (str_join (str1 (chr 10)) (sort_by str_leb source_ids)))))) recorded))
    (ValueError "source membership differs from vector provenance") ;;?
  Ok {| source_owners := sources; session_owners := owned; seen := seen st; sessions := list_to_set session_ids ∪ sessions st |}.

Definition check_row (manifest : val) (name : string) (start finish : Z) (st : Scan) (row : val * val) : result Scan :=
  let '(vector, member) := row in
  validate_vector schema_file conforms vector ;;?
  match vector with
  | VDict d => let? st := check_vector manifest start finish st d in check_member name st vector member
  | _ => Err (TypeError "indices must be integers")
  end.

(** ** Partitions *)
Definition PARTITIONS : list string := ["train"; "validation"; "test"].

Section files.
Variable vectors : string -> list val.
Variable vector_bytes : string -> option (list Z).

(** The range of a partition, after the ones before it and within the dataset. *)
Definition check_bounds (outer_end previous_end : Z) (name : string) (bounds : val) : result (Z * Z) :=
  let? start := rbind (subscript "start" bounds) timestamp in
  let? finish := rbind (subscript "end" bounds) timestamp in
  raise_if (negb ((previous_end <=? start) && (start <? finish) && (finish <=? outer_end)))
    (ValueError "partitions must be ordered, nonoverlapping and within dataset bounds") ;;?
  (if String.eqb name "train" then
     let? profile := subscript "label_profile" bounds in
     raise_if (negb (py_eq profile (VStr "benign_biased"))) (ValueError "training must use the benign-biased partition")
   else Ok tt) ;;?
  Ok (start, finish).

(** The memberships the ledger lists for the vectors of the file. *)
Definition partition_members (part : val) (name : string) (bounds : val) : result (list val) :=
  let? closed := set_is ["vectors_sha256"; "memberships"] part in
  raise_if (negb closed) (ValueError "invalid partition ledger fields") ;;?
  let? digest := match vector_bytes name with Some b => Ok (hexdigest (sha256 b)) | None => Err (OSError name) end in
  let? recorded := subscript "vectors_sha256" part in
  raise_if (negb (py_eq (VStr digest) recorded)) (ValueError "vector file digest mismatch") ;;?
  let? count := subscript "vector_count" bounds in
  raise_if (negb (py_eq (VInt (Z.of_nat (length (vectors name)))) count)) (ValueError "vector count mismatch") ;;?
  let? memberships := subscript "memberships" part in
  let? n := py_len memberships in
  raise_if (negb (Z.of_nat (length (vectors name)) =? n)) (ValueError "vector count mismatch") ;;?
  py_iter memberships.

Definition check_partition (manifest ledger : val) (outer_end : Z) (acc : Z * (owners * owners)) (name : string) : result (Z * (owners * owners)) :=
  let '(previous_end, (sources, owned)) := acc in
  let? bounds := rbind (subscript "split" manifest) (subscript name) in
  let? '(start, finish) := check_bounds outer_end previous_end name bounds in
  let? part := rbind (subscript "partitions" ledger) (subscript name) in
  let? members := partition_members part name bounds in
  let? st := foldR (check_row manifest name start finish)
               {| source_owners := sources; session_owners := owned; seen := []; sessions := ∅ |} (zip (vectors name) members) in
  let? digest := canonical_hash (VList (map VStr (sort_by str_leb (elements (sessions st))))) in
  let? recorded := subscript "session_ids_sha256" bounds in
  raise_if (negb (py_eq (VStr digest) recorded)) (ValueError "partition session digest mismatch") ;;?
  Ok (finish, (source_owners st, session_owners st)).

Definition schema_violation : exn := RuntimeError "jsonschema.ValidationError".

(** The body of the [try]. *)
Definition check_ledger (manifest : val) (ledger_bytes : option (list Z)) : result unit :=
  raise_if (negb (manifest_valid manifest)) schema_violation ;;?
  let? bytes := match ledger_bytes with Some b => Ok b | None => Err (OSError "session-assignments.json") end in
  let? wanted := rbind (subscript "split" manifest) (subscript "session_assignment_sha256") in
  raise_if (negb (py_eq (VStr (hexdigest (sha256 bytes))) wanted)) (ValueError "session assignment digest mismatch") ;;?
  let? ledger := json_loads bytes in
  let? closed := set_is ["schema_version"; "partitions"] ledger in
  raise_if (negb closed) (ValueError "unsupported membership ledger") ;;?
  let? version := subscript "schema_version" ledger in
  raise_if (negb (py_eq version (VStr "partition-membership-v1"))) (ValueError "unsupported membership ledger") ;;?
  let? all_three := rbind (subscript "partitions" ledger) (set_is PARTITIONS) in
  raise_if (negb all_three) (ValueError "all three partitions are required") ;;?
  let? range := subscript "time_range" manifest in
  let? outer_start := rbind (subscript "start" range) timestamp in
  let? outer_end := rbind (subscript "end" range) timestamp in
  let? _ := foldR (check_partition manifest ledger outer_end) (outer_start, (∅, ∅)) PARTITIONS in
  Ok tt.

(** [str(exc)]: that of a [KeyError] is the repr of the key. *)
Definition exception_text (e : exn) : string :=
  match e with
  | KeyError k => py_repr k
  | _ => exn_message e
  end.

Definition is_refusal (e : exn) : bool :=
  is_value_error e || match e with TypeError _ | KeyError _ | OSError _ => true | _ => false end.

Definition validate_partitions (manifest : val) (ledger_bytes : option (list Z)) : result unit :=
  try_except (check_ledger manifest ledger_bytes) (fun _ => true) (fun e =>
    Err (ModelProvenanceError (if is_refusal e then "dataset partition validation refused: " +:+ exception_text e
                               else "dataset partition schema validation refused"))).
End files.
End gate.
