(* ===== verification/Promotion.v ===== *)
(** [ai/training/promote.py]: promotion of a candidate model into an approved registry, and its
    retirement.

    The state is the world [W] the directories are read from, which may change between two reads, and
    the files of the output directory.  Parameters: the reads of the candidate's, the comparison's and
    the policy's files, [json.loads], [yaml.safe_load], the validator of the provenance record, the
    contract's schema files and the clock. *)

From S2P Require Import Prelude PyText PyNum PyTime PyJson JsonText Sha256 Policy Decision Effects Store Contracts Registry Partitions.

Definition CARRIED_FILES : list string := ["feature_schema.json"; "evaluation.json"; "metrics.json"; "benchmark.json"; "benchmark.md"].
Definition COMPARISON_FILES : list string := ["comparison.json"; "comparison.md"].
(** Of [ai/training/pipeline.py]. *)
Definition METRIC_FIELDS : list string :=
  ["precision"; "recall"; "f1"; "pr_auc"; "false_positives_per_hour"; "mttd_seconds"; "p95_inference_ms"].

(** ** Numbers *)

(** [a < b] of two JSON values. *)
Definition py_lt (a b : val) : result bool :=
  match as_number a, as_number b with
  | Some x, Some y => Ok (num_ltb x y)
  | _, _ =>
      match a, b with
      | VStr s, VStr t => Ok (negb (str_leb t s))
      | _, _ => Err (TypeError "'<' not supported")
      end
  end.

(** [a / b]. *)
Definition py_truediv (a b : val) : result pynum :=
  match as_number a, as_number b with
  | Some (PInt x), Some (PInt y) =>
      if y =? 0 then Err (ZeroDivisionError "division by zero")
      else
        match int_truediv (Z.abs x) (Z.abs y) with
        | SpecFloat.S754_infinity _ => Err (OverflowError "integer division result too large for a float")
        | q => Ok (PFloat (if (x <? 0) then (if y <? 0 then q else SpecFloat.SFopp q) else if y <? 0 then SpecFloat.SFopp q else q))
        end
  | Some x, Some y =>
      let? f := py_float x in
      let? g := py_float y in
      let? q := py_fdiv f g in
      Ok (PFloat q)
  | _, _ => Err (TypeError "unsupported operand type(s) for /")
  end.

(** The [.3f] format: the nearest multiple of a thousandth, ties to even. *)
Definition format_3f (v : val) : result string :=
  match as_number v with
  | None => Err (ValueError "Unknown format code 'f'")
  | Some n =>
      let? f := py_float n in
      Ok match f with
         | SpecFloat.S754_zero s => (if s then "-" else "") +:+ "0.000"
         | SpecFloat.S754_infinity s => if s then "-inf" else "inf"
         | SpecFloat.S754_nan => "nan"
         | SpecFloat.S754_finite s m e =>
             let h := if 0 <=? e then Z.pos m * 2 ^ e * 1000 else div_half_even (Z.pos m * 1000) (2 ^ (- e)) in
             (if s then "-" else "") +:+ digits 10 (h / 1000) +:+ "." +:+ dec_pad 3 (h mod 1000)
         end
  end.

(** [json.dumps] of a mapping of texts. *)
Definition json_dumps_plain (d : list (string * val)) : string :=
  "{" +:+ str_join ", " (map (fun kv => json_string kv.1 +:+ ": " +:+ json_string (str_val kv.2)) d) +:+ "}".

(** ** The state *)
Record Promotion (W : Type) : Type := { disk : W; output : list (string * list Z) }.
Arguments disk {W}.
Arguments output {W}.

Section promotion.
Context {W : Type}.
Variable json_loads : list Z -> result val.
Variable safe_load : list Z -> result val.
Variable provenance_valid : mapping -> bool.
Variable schema_file : string -> option (list Z).
Variable clock : M W Z.
Notation S := (Promotion W).
(** The files of a directory: [None] when the operating system refuses. *)
Notation directory := (string -> M W (option (list Z))).

Definition on_disk {X} (m : M W X) : M S X := fun s => let '(r, w) := m (disk s) in (r, {| disk := w; output := output s |}).

Definition write_file (name : string) (bytes : list Z) : M S unit :=
  modify (fun s => {| disk := disk s; output := assoc_set name bytes (output s) |}).

Definition _load (read : directory) (name : string) : M S mapping :=
  let! bytes := on_disk (read name) in
  let unreadable := ModelProvenanceError ("cannot read " +:+ name) in
  match bytes with
  | None => raise unreadable
  | Some bytes =>
      let! payload := lift (try_except (json_loads bytes) is_value_error (fun _ => Err unreadable)) in
      match payload with
      | VDict d => ret d
      | _ => raise (ModelProvenanceError (name +:+ " must contain an object"))
      end
  end.

(** [sha256_file]. *)
Definition file_digest (read : directory) (name : string) : M S string :=
  let! bytes := on_disk (read name) in
  match bytes with
  | Some b => ret (hexdigest (sha256 b))
  | None => raise (OSError name)
  end.

(** ** The policy *)
Definition minimum_bounds : list string := ["precision"; "recall"; "f1"; "scenario_detection_ratio"].
Definition maximum_bounds : list string := ["false_positives_per_hour"; "p95_inference_ms"].

Definition load_policy (read : M W (option (list Z))) : M S (mapping * string) :=
  let! raw := on_disk read in
  match raw with
  | None => raise (OSError "promotion-policy.yaml")
  | Some raw =>
      let! policy := lift (safe_load raw) in
      match policy with
      | VDict d =>
          raise_when (negb (py_eq (get "schema_version" d) (VStr "promotion-policy-v1"))) (ModelProvenanceError "promotion policy must be promotion-policy-v1") ;;!
          let! floors := lift (set_is minimum_bounds (default (VDict []) (assoc "minimum" d))) in
          raise_when (negb floors) (ModelProvenanceError "promotion policy minimum bounds are incomplete") ;;!
          let! ceilings := lift (set_is maximum_bounds (default (VDict []) (assoc "maximum" d))) in
          raise_when (negb ceilings) (ModelProvenanceError "promotion policy maximum bounds are incomplete") ;;!
          ret (d, hexdigest (sha256 raw))
      | _ => raise (ModelProvenanceError "promotion policy must be promotion-policy-v1")
      end
  end.

(** ** The candidate *)

(** The artifact is the one the record describes, under its registry name. *)
Definition verify_artifact (is_file : string -> M W bool) (read : directory) (metadata : mapping) : M S mapping :=
  let! algorithm := lift (item "algorithm" metadata) in
  let! layout := lift (artifact_layout algorithm "unsupported model algorithm") in
  let! artifact := lift (item "artifact" metadata) in
  let! format := lift (subscript "format" artifact) in
  let! matches := lift (if negb (py_eq format (VStr layout.1)) then Ok false
                        else let? path := subscript "path" artifact in Ok (py_eq path (VStr layout.2))) in
  raise_when (negb matches) (ModelProvenanceError "artifact does not match its algorithm's registry layout") ;;!
  let! present := on_disk (is_file layout.2) in
  let mismatch := ModelProvenanceError "artifact digest does not match provenance" in
  raise_when (negb present) mismatch ;;!
  let! contents := on_disk (read layout.2) in
  match contents with
  | None => raise (OSError layout.2)
  | Some bytes =>
      let! digest := lift (subscript "sha256" artifact) in
      raise_when (negb (py_eq (VStr (hexdigest (sha256 bytes))) digest)) mismatch ;;!
      let! again := on_disk (read layout.2) in
      match again with
      | None => raise (OSError layout.2)
      | Some bytes =>
          let! size := lift (subscript "size_bytes" artifact) in
          raise_when (negb (py_eq (VInt (Z.of_nat (length bytes))) size)) (ModelProvenanceError "artifact size does not match provenance") ;;!
          match artifact with
          | VDict d => ret d
          | _ => raise (TypeError "indices must be integers")
          end
      end
  end.

Definition verify_schema (metadata : mapping) : result val :=
  let? feature_schema := item "feature_schema" metadata in
  let? id := subscript "id" feature_schema in
  let? recorded := subscript "sha256" feature_schema in
  let? actual := match id with
                 | VStr s => feature_schema_sha256 schema_file s
                 | VList _ | VDict _ => Err (TypeError "unhashable type")
                 | _ => Err (FeatureSchemaError ("unsupported feature schema: " +:+ repr_val id))
                 end in
  raise_if (negb (py_eq recorded (VStr actual))) (ModelProvenanceError "feature schema digest differs from the repository contract") ;;?
  Ok recorded.

(** [binding.get(field) != actual]. *)
Definition bound_to (binding : mapping) (fa : string * val) : result unit :=
  raise_if (negb (py_eq (get fa.1 binding) fa.2)) (ModelProvenanceError ("evaluation is not bound to this candidate (" +:+ fa.1 +:+ ")")).

Definition metric_agrees (metadata : mapping) (test : val) (name : string) : result unit :=
  let? measured := get_attr name VNone test in
  let? recorded := rbind (item "evaluation" metadata) (subscript name) in
  raise_if (negb (py_eq measured recorded)) (ModelProvenanceError ("provenance metric " +:+ name +:+ " differs from the bound evaluation")).

(** The evaluation is of this artifact and this dataset, and says what the record says. *)
Definition verify_binding (metadata artifact : mapping) (schema_digest : val) (binding : mapping) : result val :=
  raise_if (negb (py_eq (get "schema_version" binding) (VStr "evaluation-binding-v1"))) (ModelProvenanceError "evaluation.json must be evaluation-binding-v1") ;;?
  let? artifact_digest := item "sha256" artifact in
  let? manifest_digest := rbind (item "dataset" metadata) (subscript "manifest_sha256") in
  foldR (fun _ fa => bound_to binding fa) tt
    [("model_sha256", artifact_digest); ("feature_schema_sha256", schema_digest); ("dataset_manifest_sha256", manifest_digest)] ;;?
  let? threshold := item "threshold" metadata in
  raise_if (negb (py_eq (get "threshold" binding) threshold)) (ModelProvenanceError "evaluation threshold differs from provenance") ;;?
  let test := default (VDict []) (assoc "test_metrics" binding) in
  foldR (fun _ name => metric_agrees metadata test name) tt METRIC_FIELDS ;;?
  let? selected := get_attr "selected_on" VNone (default (VDict []) (assoc "threshold_policy" binding)) in
  raise_if (negb (py_eq selected (VStr "validation"))) (ModelProvenanceError "threshold must have been selected on the validation partition") ;;?
  Ok test.

(** [(detected / total) if total else 0.0]. *)
Definition detection_ratio (test : val) : result pynum :=
  let? raw := get_attr "scenarios_total" VNone test in
  let total := if truthy raw then raw else VInt 0 in
  if truthy total then
    let? detected := get_attr "scenarios_detected" (VInt 0) test in
    py_truediv detected total
  else Ok (PFloat f_zero).

(** One bound of the policy: the failure it adds, when the measure is beyond it. *)
Definition floor_failure (test minimum : val) (name : string) : result (list string) :=
  let? measured := subscript name test in
  let? floor := subscript name minimum in
  let? below := py_lt measured floor in
  if below : bool then let? text := format_3f measured in Ok [name +:+ " " +:+ text +:+ " < " +:+ str_val floor] else Ok [].

Definition ceiling_failure (test maximum : val) (name : string) : result (list string) :=
  let? measured := subscript name test in
  let? ceiling := subscript name maximum in
  let? above := py_lt ceiling measured in
  if above : bool then let? text := format_3f measured in Ok [name +:+ " " +:+ text +:+ " > " +:+ str_val ceiling] else Ok [].

Definition ratio_failure (ratio : pynum) (minimum : val) : result (list string) :=
  let? floor := subscript "scenario_detection_ratio" minimum in
  let? below := py_lt (VNum ratio) floor in
  if below : bool then
    let? text := format_3f (VNum ratio) in Ok ["scenario detection ratio " +:+ text +:+ " < " +:+ str_val floor]
  else Ok [].

Definition FLOORS : list string := ["precision"; "recall"; "f1"].

Definition policy_failures (policy : mapping) (test : val) : result (list string) :=
  let? minimum := item "minimum" policy in
  let? maximum := item "maximum" policy in
  let? ratio := detection_ratio test in
  let? low := mapR (floor_failure test minimum) FLOORS in
  let? scenarios := ratio_failure ratio minimum in
  let? high := mapR (ceiling_failure test maximum) maximum_bounds in
  Ok (concat low ++ scenarios ++ concat high).

Definition check_policy (policy : mapping) (test : val) : result unit :=
  let? failures := policy_failures policy test in
  raise_if (negb (Nat.eqb (length failures) 0)) (ModelProvenanceError ("promotion policy not satisfied: " +:+ str_join "; " failures)).

Definition verify_candidate (is_file : string -> M W bool) (read : directory) (policy : mapping) : M S (mapping * mapping) :=
  let! metadata := _load read "metadata.json" in
  let! binding := _load read "evaluation.json" in
  lift (_validate_provenance provenance_valid (VDict metadata)) ;;!
  let! status := lift (item "status" metadata) in
  raise_when (negb (py_eq status (VStr "candidate"))) (ModelProvenanceError "only a candidate can be promoted") ;;!
  let! artifact := verify_artifact is_file read metadata in
  let! schema_digest := lift (verify_schema metadata) in
  let! test := lift (verify_binding metadata artifact schema_digest binding) in
  lift (check_policy policy test) ;;!
  ret (metadata, binding).

(** ** The registry written *)
Definition copy_file (is_file : string -> M W bool) (read : directory) (name : string) : M S unit :=
  let! present := on_disk (is_file name) in
  if present : bool then
    let! bytes := on_disk (read name) in
    match bytes with
    | Some b => write_file name b
    | None => raise (OSError name)
    end
  else ret tt.

Definition _write_registry (is_file : string -> M W bool) (read : directory) (metadata : mapping) (names : list string) : M S string :=
  let! files := gets output in
  raise_when (negb (Nat.eqb (length files) 0)) (ModelProvenanceError "output directory must be absent or empty") ;;!
  mapM_ (copy_file is_file read) names ;;!
  let body := json_file (VDict metadata) in
  write_file "metadata.json" body ;;!
  ret (hexdigest (sha256 body)).

Definition protocol_detectors : list string :=
  ["static-rules"; "isolation-forest"; "static+isolation-forest"; "lstm-autoencoder"; "static+lstm-autoencoder"].

(** [v.values()]. *)
Definition py_values (v : val) : result (list val) :=
  match v with
  | VDict d => Ok (map snd d)
  | _ => Err (AttributeError "values")
  end.

Definition check_report (report metadata : mapping) : result unit :=
  raise_if (negb (py_eq (get "schema_version" report) (VStr "benchmark-comparison-v1"))) (ModelProvenanceError "comparison.json must be benchmark-comparison-v1") ;;?
  let? manifest_digest := rbind (item "dataset" metadata) (subscript "manifest_sha256") in
  raise_if (negb (py_eq (get "dataset_manifest_sha256" report) manifest_digest)) (ModelProvenanceError "comparison was computed on a different dataset") ;;?
  let? digest := rbind (item "artifact" metadata) (subscript "sha256") in
  let? models := py_values (default (VDict []) (assoc "models" report)) in
  let? digests := mapR (subscript "model_sha256") models in
  raise_if (is_container digest || existsb is_container digests) (TypeError "unhashable type") ;;?
  raise_if (negb (existsb (py_eq digest) digests)) (ModelProvenanceError "comparison does not include the promoted model artifact") ;;?
  let? rows := py_iter (default (VList []) (assoc "rows" report)) in
  let? detectors := mapR (get_attr "detector" VNone) rows in
  raise_if (negb (py_eq (VList detectors) (VList (map VStr protocol_detectors)))) (ModelProvenanceError "comparison must cover the five protocol detectors").

Definition verify_comparison (read : directory) (metadata : mapping) : M S unit :=
  let! report := _load read "comparison.json" in lift (check_report report metadata).

(** [shutil.copy2] of a file that must be there. *)
Definition copy_required (read : directory) (name : string) : M S unit :=
  let! bytes := on_disk (read name) in
  match bytes with
  | Some b => write_file name b
  | None => raise (OSError name)
  end.

(** The approved metadata read back from the output. *)
Definition revalidate : M S unit :=
  let! files := gets output in
  match assoc "metadata.json" files with
  | Some bytes => let! written := lift (json_loads bytes) in lift (_validate_provenance provenance_valid written)
  | None => raise (OSError "metadata.json")
  end.

Definition promote (is_file : string -> M W bool) (read : directory) (approver : string) (policy_file : M W (option (list Z))) (note : string)
    (now : option Z) (comparison : option directory) : M S (string * string) :=
  raise_when (String.eqb (strip approver) "") (ModelProvenanceError "an approver identity is required") ;;!
  let! '(policy, policy_digest) := load_policy policy_file in
  let! '(metadata, _) := verify_candidate is_file read policy in
  match comparison with Some c => verify_comparison c metadata | None => ret tt end ;;!
  let approved := assoc_set "status" (VStr "approved") metadata in
  let! path := lift (rbind (item "artifact" metadata) (subscript "path")) in
  let! digest := _write_registry is_file read approved (str_val path :: CARRIED_FILES) in
  match comparison with Some c => mapM_ (copy_required c) COMPARISON_FILES ;;! ret tt | None => ret tt end ;;!
  revalidate ;;!
  let! t := match now with Some t => ret t | None => on_disk clock end in
  let! id := lift (item "model_id" metadata) in
  let! candidate_digest := file_digest read "metadata.json" in
  write_file "approval.json" (json_file (VDict
    [("approver", VStr (strip approver)); ("approved_at", VStr (isoformat_auto t)); ("model_id", id); ("metadata_sha256", VStr digest);
     ("policy_sha256", VStr policy_digest); ("candidate_metadata_sha256", VStr candidate_digest); ("note", VStr note)])) ;;!
  ret (digest, policy_digest).

Definition retire (is_file : string -> M W bool) (read : directory) (status reason : string) : M S string :=
  raise_when (negb (str_in status ["retired"; "revoked"]) || String.eqb (strip reason) "")
    (ModelProvenanceError "status must be retired or revoked and a reason is required") ;;!
  let! metadata := _load read "metadata.json" in
  lift (_validate_provenance provenance_valid (VDict metadata)) ;;!
  let retired := assoc_set "status" (VStr status) metadata in
  let! path := lift (rbind (item "artifact" retired) (subscript "path")) in
  let! digest := _write_registry is_file read retired (str_val path :: CARRIED_FILES ++ COMPARISON_FILES ++ ["approval.json"]) in
  write_file "retirement.json" (utf8 (json_dumps_plain [("status", VStr status); ("reason", VStr reason)] +:+ str1 (chr 10))) ;;!
  ret digest.
End promotion.
