(* ===== verification/FeatureEngine.v ===== *)
(** [ai/features/engine.py]: from the normalized events of a five-minute window to one feature vector
    per source address, or per host.

    Events are JSON values.  The schema files are a parameter, as in [Contracts.v]. *)

From S2P Require Import Prelude PyText PyNum PyTime PyNet PyJson Sha256 Policy Decision Contracts.

(** [isinstance(value, datetime)], a text, or something else. *)
Inductive moment : Type :=
| Text (s : string)
| Instant (d : pydatetime)
| OtherValue.

Definition FIVE_MINUTES : Z := minutes 5.

Fixpoint _nested (path : list string) (record : val) : val :=
  match path with
  | [] => record
  | key :: rest =>
      match record with
      | VDict d => _nested rest (get key d)
      | _ => VNone
      end
  end.

Definition no_offset : exn := FeatureContractError "timestamps must include an explicit UTC offset".

Definition _as_utc (value : moment) : result Z :=
  match value with
  | Instant (Aware t) => Ok t
  | Instant Naive => Err no_offset
  | Text s =>
      match fromisoformat_z s with
      | None => Err (ValueError ("Invalid isoformat string: " +:+ py_repr (replace_char "Z" "+00:00" s)))
      | Some (_, None) => Err no_offset
      | Some (local, Some offset) => shift local (- offset)
      end
  | OtherValue => Err (FeatureContractError "timestamps must be RFC3339 strings or datetime instances")
  end.

Definition _rfc3339 (t : Z) : string := isoformat_auto t.

(** Other exceptions than the two go through. *)
Definition _numeric (value : val) : result Z :=
  match value with
  | VNone | VBool _ => Ok 0
  | _ =>
      match int_of_val value with
      | Ok parsed => Ok (Z.max 0 parsed)
      | Err (TypeError _) | Err (ValueError _) =>
          Err (FeatureContractError ("telemetry byte/count field is not numeric: " +:+ repr_val value))
      | Err e => Err e
      end
  end.

(** The set of categories, as a list. *)
Definition _categories (event : val) : list string :=
  match _nested ["event"; "category"] event with
  | VStr s => [s]
  | VList l => map str_val l
  | _ => []
  end.

(** [isinstance(value, str) and value]. *)
Definition nonempty_text (v : val) : option string :=
  match v with
  | VStr s => if String.eqb s "" then None else Some s
  | _ => None
  end.

Definition _event_id (event : val) : result string :=
  match nonempty_text (_nested ["event"; "id"] event) with
  | Some s => Ok s
  | None => Err (FeatureContractError "normalized event is missing event.id")
  end.

Definition _event_timestamp (event : val) : result Z :=
  match _nested ["@timestamp"] event with
  | VStr s => _as_utc (Text s)
  | _ => let? id := _event_id event in Err (FeatureContractError ("event " +:+ id +:+ " is missing @timestamp"))
  end.

Definition _canonical_event (event : val) : string := canonical_json event.

(** ** The events of a window *)

(** [selected] and [fingerprints], with one entry for each id. *)
Definition selection : Type := list (string * (val * string)).

Definition is_mapping (v : val) : bool := match v with VDict _ => true | _ => false end.

Definition select_event (window_start window_end : Z) (kept : selection) (event : val) : result selection :=
  raise_if (negb (is_mapping event)) (FeatureContractError "feature input must contain JSON objects") ;;?
  raise_if (negb (py_eq (_nested ["cxyz"; "schema_version"] event) (VStr "soc-event-v1")))
    (FeatureContractError "feature input must be normalized soc-event-v1 telemetry") ;;?
  let? timestamp := _event_timestamp event in
  if negb ((window_start <=? timestamp) && (timestamp <? window_end)) then Ok kept
  else
    let? event_id := _event_id event in
    let fingerprint := _canonical_event event in
    raise_if (match assoc event_id kept with Some (_, previous) => negb (String.eqb previous fingerprint) | None => false end)
      (FeatureContractError ("event.id " +:+ py_repr event_id +:+ " resolves to conflicting normalized telemetry")) ;;?
    Ok (assoc_set event_id (event, fingerprint) kept).

Definition _validate_and_select (events : list val) (window_start window_end : Z) : result (list val) :=
  let? kept := foldR (select_event window_start window_end) [] events in
  Ok (map (fun kv => kv.2.1) (sort_by key_leb kept)).

Definition _source_event_set_sha256 (events : list val) : result string :=
  let? event_ids := mapR _event_id events in
  raise_if (Nat.eqb (length event_ids) 0) (FeatureContractError "cannot create an empty feature vector") ;;?
  Ok (hexdigest (sha256 (utf8 (str_join (str1 (chr 10)) (sort_by str_leb event_ids))))).

Definition _vector_id (feature_schema entity_type entity : string) (window_start window_end : Z) (event_hash : string) : string :=
  let seed := str_join "|" [feature_schema; entity_type; entity; _rfc3339 window_start; _rfc3339 window_end; event_hash] in
  feature_schema +:+ ":" +:+ str_take 40 (hexdigest (sha256 (utf8 seed))).

Definition _window_bounds (window_start window_end : moment) : result (Z * Z) :=
  let? start := _as_utc window_start in
  let? finish := _as_utc window_end in
  raise_if (finish <=? start) (FeatureContractError "window_end must be after window_start") ;;?
  raise_if (negb (finish - start =? FIVE_MINUTES)) (FeatureContractError "v1 feature contracts permit exactly one five-minute window") ;;?
  Ok (start, finish).

(** ** What an event says *)
Definition text_or_empty (v : val) : string := match v with VStr s => s | _ => "" end.

Definition _dataset (event : val) : string := text_or_empty (_nested ["event"; "dataset"] event).

Definition _blocked (event : val) : bool :=
  match _nested ["event"; "action"] event with
  | VStr action => str_in (py_lower action) ["block"; "blocked"; "deny"; "denied"; "drop"; "reject"]
  | _ => false
  end.

Definition _suricata_type (event : val) : string := py_lower (text_or_empty (_nested ["event_type"] event)).

Definition is_suricata (kind : string) (event : val) : bool :=
  String.eqb (_dataset event) "suricata.eve" && String.eqb (_suricata_type event) kind.

Definition _is_connection_record (event : val) : bool :=
  String.eqb (_dataset event) "firewall.syslog" || is_suricata "flow" event.

Definition _event_bytes (event : val) : result (Z * Z) :=
  if String.eqb (_dataset event) "suricata.eve" then
    if negb (String.eqb (_suricata_type event) "flow") then Ok (0, 0)
    else
      let? outbound := _numeric (_nested ["flow"; "bytes_toserver"] event) in
      let? inbound := _numeric (_nested ["flow"; "bytes_toclient"] event) in
      Ok (outbound, inbound)
  else let? outbound := _numeric (_nested ["network"; "bytes"] event) in Ok (outbound, 0).

Definition domain_paths : list (list string) := [["dns"; "question"; "name"]; ["dns"; "rrname"]; ["dns"; "query"]].

Definition _domain (event : val) : option string :=
  match omap (fun path => nonempty_text (_nested path event)) domain_paths with
  | name :: _ => Some (rstrip_by (Ascii.eqb ".") (py_lower name))
  | [] => None
  end.

Definition _is_dns_query (event : val) : bool :=
  is_suricata "dns" event &&
  match _nested ["dns"; "type"] event with
  | VNone => true
  | VStr kind => str_in (py_lower kind) ["query"; "request"]
  | _ => false
  end.

Definition failed_authentication (event : val) : bool :=
  str_in "authentication" (_categories event) && String.eqb (py_lower (str_val (_nested ["event"; "outcome"] event))) "failure".

(** ** Features of a source address *)
Definition count (p : val -> bool) (events : list val) : Z := Z.of_nat (length (List.filter p events)).
Definition distinct {A} `{EqDecision A} (l : list A) : Z := Z.of_nat (length (remove_dups l)).

(** [s.isdigit()]: the superscripts of Latin-1 count. *)
Definition digit_like (a : ascii) : bool := is_ascii_digit a || (code a =? 178) || (code a =? 179) || (code a =? 185).
Definition py_isdigit (s : string) : bool := negb (String.eqb s "") && str_forallb digit_like s.

Definition is_scalar (v : val) : bool := match v with VBool _ | VNum _ | VStr _ => true | _ => false end.

(** The destination ports, as a list. *)
Definition ports_of (connections : list val) : result (list Z) :=
  mapR int_of_val (List.filter (fun v => is_scalar v && py_isdigit (str_val v))
    (map (_nested ["destination"; "port"]) connections)).

Definition bytes_of (connections : list val) : result (Z * Z) :=
  foldR (fun acc event => let? b := _event_bytes event in Ok (acc.1 + b.1, acc.2 + b.2)) (0, 0) connections.

Definition block_ratio (blocked total : Z) : SpecFloat.spec_float :=
  if total =? 0 then SpecFloat.S754_zero false else int_truediv blocked total.

Definition domains_of (dns_queries : list val) : list string :=
  omap (fun event => match _domain event with Some "" | None => None | Some d => Some d end) dns_queries.

Definition suricata_alert (event : val) : bool :=
  String.eqb (_dataset event) "suricata.eve" && (String.eqb (_suricata_type event) "alert" || is_mapping (_nested ["alert"] event)).

Definition _network_features (events : list val) : result mapping :=
  let connections := List.filter _is_connection_record events in
  let destinations := omap (fun event => nonempty_text (_nested ["destination"; "ip"] event)) connections in
  let? ports := ports_of connections in
  let dns_queries := List.filter _is_dns_query events in
  let? bytes := bytes_of connections in
  let denominator := Z.of_nat (length connections) in
  Ok [("connection_count", VInt denominator);
      ("unique_dst_ip", VInt (distinct destinations));
      ("unique_dst_port", VInt (distinct ports));
      ("bytes_out", VInt bytes.1);
      ("bytes_in", VInt bytes.2);
      ("blocked_ratio", VFloat (block_ratio (count _blocked connections) denominator));
      ("dns_query_count", VInt (Z.of_nat (length dns_queries)));
      ("unique_domain_count", VInt (distinct (domains_of dns_queries)));
      ("tls_count", VInt (count (is_suricata "tls") events));
      ("suricata_alert_count", VInt (count suricata_alert events));
      ("failed_auth_count", VInt (count failed_authentication events))].

(** ** Features of a host *)
Definition _event_action_text (event : val) : string :=
  let values := map (fun path => _nested path event)
    [["event"; "action"]; ["process"; "name"]; ["process"; "command_line"]; ["rule"; "description"]] in
  str_join " " (map (fun v => py_lower (str_val v)) (List.filter (fun v => match v with VNone => false | _ => true end) values)).

Definition mentions (tokens : list string) (event : val) : bool :=
  existsb (fun token => str_contains token (_event_action_text event)) tokens.

Definition is_rare (rare_processes : list string) (process_baseline : option (list string)) (event : val) : bool :=
  let normalized_name := py_lower (text_or_empty (_nested ["process"; "name"] event)) in
  negb (String.eqb normalized_name "") &&
  (str_in normalized_name rare_processes
   || match process_baseline with Some baseline => negb (str_in normalized_name baseline) | None => false end).

Definition _endpoint_features (events : list val) (rare_processes : list string) (process_baseline : option (list string)) : mapping :=
  let process_events := List.filter (fun event => str_in "process" (_categories event)) events in
  [("process_count", VInt (Z.of_nat (length process_events)));
   ("rare_process_count", VInt (count (is_rare rare_processes process_baseline) process_events));
   ("powershell_count", VInt (count (mentions ["powershell"; "pwsh"]) process_events));
   ("failed_login_count", VInt (count failed_authentication events));
   ("fim_change_count", VInt (count (fun event => str_in "file" (_categories event)) events));
   ("account_change_count", VInt (count (mentions ["account"; "useradd"; "usermod"; "userdel"]) events));
   ("privilege_change_count", VInt (count (mentions ["privilege"; "sudo"; "setuid"; "capability"]) events))].

(** ** Vectors *)

(** [grouped[entity].append(event)]. *)
Definition add_to_group (grouped : list (string * list val)) (entity : string) (event : val) : list (string * list val) :=
  assoc_set entity (default [] (assoc entity grouped) ++ [event]) grouped.

Definition group_event (check : string -> result unit) (entity_of : val -> option string)
    (grouped : list (string * list val)) (event : val) : result (list (string * list val)) :=
  match entity_of event with
  | Some entity => check entity ;;? Ok (add_to_group grouped entity event)
  | None => Ok grouped
  end.

Definition source_entity (event : val) : option string := nonempty_text (_nested ["source"; "ip"] event).
Definition host_entity (event : val) : option string := nonempty_text (_nested ["host"; "name"] event).

Definition check_source (entity : string) : result unit :=
  raise_if (match ip_address entity with Some _ => false | None => true end)
    (FeatureContractError ("source.ip is not an IP address: " +:+ py_repr entity)).

(** [(ipaddress.ip_address(value).version, value)]. *)
Definition address_version (value : string) : Z :=
  match ip_address value with
  | Some a => if is_v4 a then 4 else 6
  | None => 0
  end.
Definition address_leb (x y : string * list val) : bool :=
  if address_version x.1 =? address_version y.1 then str_leb x.1 y.1 else address_version x.1 <? address_version y.1.

Section vectors.
Variable schema_file : string -> option (list Z).

Definition make_vector (schema schema_hash entity_type : string) (features : list val -> result mapping) (start finish emitted_at : Z)
    (generator_git_sha : string) (group : string * list val) : result val :=
  let? event_hash := _source_event_set_sha256 group.2 in
  let? values := features group.2 in
  Ok (VDict [("schema_version", VStr schema); ("feature_schema", VStr schema); ("feature_schema_sha256", VStr schema_hash);
    ("vector_id", VStr (_vector_id schema entity_type group.1 start finish event_hash));
    ("entity_type", VStr entity_type); ("entity", VStr group.1);
    ("window_start", VStr (_rfc3339 start)); ("window_end", VStr (_rfc3339 finish)); ("window_duration", VStr "5m");
    ("source_event_count", VInt (Z.of_nat (length group.2))); ("source_event_set_sha256", VStr event_hash);
    ("generator_git_sha", VStr generator_git_sha); ("generated_at", VStr (_rfc3339 emitted_at)); ("features", VDict values)]).

Definition build_vectors (schema entity_type : string) (check : string -> result unit) (entity_of : val -> option string)
    (leb : string * list val -> string * list val -> bool) (features : list val -> result mapping)
    (events : list val) (window_start window_end : moment) (generator_git_sha : string) (generated_at : option moment) :
    result (list val) :=
  let? bounds := _window_bounds window_start window_end in
  let? selected := _validate_and_select events bounds.1 bounds.2 in
  let? grouped := foldR (group_event check entity_of) [] selected in
  let? emitted_at := match generated_at with Some m => _as_utc m | None => Ok bounds.2 end in
  let? schema_hash := feature_schema_sha256 schema_file schema in
  mapR (make_vector schema schema_hash entity_type features bounds.1 bounds.2 emitted_at generator_git_sha) (sort_by leb grouped).

Definition build_network_vectors : list val -> moment -> moment -> string -> option moment -> result (list val) :=
  build_vectors "network-window-v1" "src_ip" check_source source_entity address_leb _network_features.

Definition lowered (names : list string) : list string := map py_lower (List.filter (fun p => negb (String.eqb p "")) names).

Definition build_endpoint_vectors (rare_processes : list string) (process_baseline : option (list string)) :
    list val -> moment -> moment -> string -> option moment -> result (list val) :=
  build_vectors "endpoint-window-v1" "host" (fun _ => Ok tt) host_entity key_leb
    (fun events => Ok (_endpoint_features events (lowered rare_processes) (option_map lowered process_baseline))).
End vectors.
