(* ===== verification/Dataset.v ===== *)
(** [ai/training/build_dataset.py]: labelled, partitioned training data from a capture of events and
    the scenarios that were run.

    Instants are integers of microseconds in UTC.  Parameters: the contract's schema files and
    validator, and [yaml.safe_dump].  What is written to the output directory is given as the list of
    its files. *)

From S2P Require Import Prelude PyText PyNum PyTime PyNet PyJson Sha256 Policy Decision Effects Store Contracts FeatureEngine Partitions.

Definition WINDOW : Z := minutes 5.
Definition LABELS_SCHEMA : string := "labels-v1".
Definition LABEL_PROFILES : list (string * string) := [("train", "benign_biased"); ("validation", "mixed"); ("test", "held_out_attack")].

Definition _ts (value : val) : result Z :=
  match value with
  | VStr s =>
      match fromisoformat_z s with
      | None => Err (ValueError ("Invalid isoformat string: " +:+ py_repr (replace_char "Z" "+00:00" s)))
      | Some (_, None) => Err (DatasetBuildError "timestamps must include a UTC offset")
      | Some (local, Some offset) => shift local (- offset)
      end
  | _ => Err (AttributeError "replace")
  end.

Definition _rfc (value : Z) : string := isoformat_auto value.

Definition _aligned (value : Z) : bool := value mod WINDOW =? 0.

(** ** Scenarios *)
Record Scenario : Type := {
  sc_id : val;
  sc_entity : string;
  sc_start : Z;
  sc_end : Z }.

Definition scenario_fields : list string := ["id"; "entity"; "start"; "end"; "description"].
Definition scenario_required : list string := ["id"; "entity"; "start"; "end"].

(** One item of the file, given the ids before it. *)
Definition load_scenario (acc : list val * list Scenario) (it : val) : result (list val * list Scenario) :=
  let? fields := py_set it in
  raise_if (negb (forallb (fun x => named x scenario_fields) fields && forallb (names_it fields) scenario_required))
    (DatasetBuildError "scenario has missing or unsupported fields") ;;?
  let? id := subscript "id" it in
  raise_if (is_container id) (TypeError "unhashable type") ;;?
  raise_if (existsb (py_eq id) acc.1) (DatasetBuildError ("duplicate scenario id " +:+ repr_val id)) ;;?
  let? start := rbind (subscript "start" it) _ts in
  let? finish := rbind (subscript "end" it) _ts in
  raise_if (finish <=? start) (DatasetBuildError ("scenario " +:+ repr_val id +:+ " must end after it starts")) ;;?
  let? entity := subscript "entity" it in
  Ok (id :: acc.1, acc.2 ++ [{| sc_id := id; sc_entity := str_val entity; sc_start := start; sc_end := finish |}]).

Definition load_scenarios (payload : val) : result (list Scenario) :=
  match payload with
  | VDict d =>
      raise_if (negb (py_eq (get "schema_version" d) (VStr "scenarios-v1"))) (DatasetBuildError "scenario file must be scenarios-v1") ;;?
      let? items := py_iter (default (VList []) (assoc "scenarios" d)) in
      let? acc := foldR load_scenario ([], []) items in
      Ok acc.2
  | _ => Err (DatasetBuildError "scenario file must be scenarios-v1")
  end.

(** ** Sessions and labels *)
Definition _entity_of (event : val) (schema : string) : option string :=
  if String.eqb schema "network-window-v1" then nonempty_text (_nested ["source"; "ip"] event) else nonempty_text (_nested ["host"; "name"] event).

(** The scenario's end belongs to the session. *)
Definition _session (event : val) (entity : string) (scenarios : list Scenario) : result string :=
  let? when := rbind (subscript "@timestamp" event) _ts in
  match List.find (fun s => String.eqb (sc_entity s) entity && (sc_start s <=? when) && (when <=? sc_end s)) scenarios with
  | Some s => Ok ("scenario:" +:+ str_val (sc_id s))
  | None => Ok ("entity-day:" +:+ entity +:+ ":" +:+ date_text when)
  end.

(** [min(hits, key=start)]: the first of the earliest. *)
Definition earliest (hits : list Scenario) : option Scenario :=
  fold_left (fun best s => match best with
                           | Some b => if sc_start s <? sc_start b then Some s else Some b
                           | None => Some s
                           end) hits None.

Definition _attack_scenario (vector : val) (scenarios : list Scenario) : result (option Scenario) :=
  let? start := rbind (subscript "window_start" vector) _ts in
  let? finish := rbind (subscript "window_end" vector) _ts in
  let? entity := subscript "entity" vector in
  Ok (earliest (List.filter (fun s => py_eq (VStr (sc_entity s)) entity && (start <? sc_end s) && (sc_start s <? finish)) scenarios)).

(** ** Building *)
Record Built : Type := {
  partitions : string -> list val;
  members : string -> list val;
  labels : list val;
  dropped : Z;
  hits : list (val * string) }.

Definition nothing_built : Built :=
  {| partitions := fun _ => []; members := fun _ => []; labels := []; dropped := 0; hits := [] |}.

Definition append_to (name : string) (v : val) (f : string -> list val) : string -> list val :=
  fun n => if String.eqb n name then f n ++ [v] else f n.

(** [sorted(by_window)] with the events of each window in order. *)
Definition add_event (low high : Z) (by_window : gmap Z (list val)) (event : val) : result (gmap Z (list val)) :=
  let? when := rbind (subscript "@timestamp" event) _ts in
  if (low <=? when) && (when <? high) then
    let start := when - when mod WINDOW in
    Ok (<[start := default [] (by_window !! start) ++ [event]]> by_window)
  else Ok by_window.

Definition window_leb (x y : Z * list val) : bool := x.1 <=? y.1.

(** The partition whose range holds the start of a window. *)
Definition partition_of (boundaries : list Z) (start : Z) : option string :=
  match List.find (fun p => (p.2.1 <=? start) && (start <? p.2.2)) (zip PARTITIONS (zip boundaries (tl boundaries))) with
  | Some p => Some p.1
  | None => None
  end.

Definition event_id_text (event : val) : result string := let? v := rbind (subscript "event" event) (subscript "id") in Ok (str_val v).

Definition label_row (digest : string) (scenario : option Scenario) : val :=
  VDict [("schema_version", VStr LABELS_SCHEMA); ("vector_sha256", VStr digest); ("label", VInt (if scenario then 1 else 0));
         ("scenario_id", match scenario with Some s => sc_id s | None => VNone end);
         ("scenario_start", match scenario with Some s => VStr (_rfc (sc_start s)) | None => VNone end)].

Section build.
Variable schema_file : string -> option (list Z).
Variable conforms : list Z -> mapping -> bool.

(** The membership of a vector: the events of its entity, and their sessions. *)
Definition membership (schema : string) (scenarios : list Scenario) (window_events : list val) (entity : val) (vector : val) : result val :=
  let mine_events := List.filter (fun event => match _entity_of event schema with Some e => py_eq entity (VStr e) | None => py_eq entity VNone end) window_events in
  let? ids := mapR event_id_text mine_events in
  let mine := sort_by str_leb ids in
  let? recorded := subscript "source_event_set_sha256" vector in
  raise_if (negb (py_eq (VStr (hexdigest (sha256 (utf8 (str_join (str1 (chr 10)) mine))))) recorded))
    (DatasetBuildError "membership does not reproduce the vector's source-event hash") ;;?
  let? sessions := mapR (fun event => _session event (str_val entity) scenarios) mine_events in
  let? digest := canonical_hash vector in
  Ok (VDict [("vector_sha256", VStr digest); ("source_event_ids", VList (map VStr mine));
             ("session_ids", VList (map VStr (sort_by str_leb (remove_dups sessions))))]).

Definition add_vector (schema : string) (scenarios : list Scenario) (boundaries : list Z) (start : Z) (window_events : list val)
    (b : Built) (vector : val) : result Built :=
  validate_vector schema_file conforms vector ;;?
  match partition_of boundaries start with
  | None => Err (RuntimeError "StopIteration")
  | Some name =>
      let? scenario := _attack_scenario vector scenarios in
      let hits := match scenario with Some s => hits b ++ [(sc_id s, name)] | None => hits b end in
      if String.eqb name "train" && (if scenario then true else false) then
        Ok {| partitions := partitions b; members := members b; labels := labels b; dropped := dropped b + 1; hits := hits |}
      else
        let? entity := subscript "entity" vector in
        let? member := membership schema scenarios window_events entity vector in
        let? digest := canonical_hash vector in
        Ok {| partitions := append_to name vector (partitions b); members := append_to name member (members b);
              labels := labels b ++ [label_row digest scenario]; dropped := dropped b; hits := hits |}
  end.

Definition window_vectors (schema : string) (git_sha : string) (process_baseline : option (list string)) (start finish : Z) (events : list val) : result (list val) :=
  if String.eqb schema "network-window-v1"
  then build_network_vectors schema_file events (Instant (Aware start)) (Instant (Aware finish)) git_sha None
  else build_endpoint_vectors schema_file [] (if String.eqb schema "endpoint-window-v1" then process_baseline else None)
         events (Instant (Aware start)) (Instant (Aware finish)) git_sha None.

Definition add_window (schema git_sha : string) (process_baseline : option (list string)) (scenarios : list Scenario) (boundaries : list Z)
    (b : Built) (w : Z * list val) : result Built :=
  let? finish := shift w.1 WINDOW in
  let? vectors := window_vectors schema git_sha process_baseline w.1 finish w.2 in
  foldR (add_vector schema scenarios boundaries w.1 w.2) b vectors.

(** The ids of scenarios with hits in two partitions. *)
Definition straddling (hits : list (val * string)) : list val :=
  map fst (List.filter (fun h => existsb (fun h' => py_eq h.1 h'.1 && negb (String.eqb h.2 h'.2)) hits) hits).

Definition check_straddling (b : Built) : result unit :=
  match straddling (hits b) with
  | [] => Ok tt
  | ids =>
      if forallb (fun v => match v with VStr _ => true | _ => false end) ids
      then Err (DatasetBuildError ("scenarios span a partition boundary (session leakage): " +:+ str_join ", " (sort_by str_leb (remove_dups (map str_val ids)))))
      else Err (TypeError "sequence item 0: expected str instance")
  end.

(** Both benign and attack vectors. *)
Definition check_flags (scenarios : list Scenario) (b : Built) (name : string) : result unit :=
  let? flags := mapR (fun v => _attack_scenario v scenarios) (partitions b name) in
  raise_if (negb (existsb (fun s : option Scenario => if s then true else false) flags && existsb (fun s : option Scenario => if s then false else true) flags))
    (DatasetBuildError ("the " +:+ name +:+ " partition needs both benign and attack vectors")).

Definition build (events : list val) (scenarios : list Scenario) (schema : string) (boundaries : list Z) (git_sha : string)
    (process_baseline : option (list string)) : result Built :=
  match boundaries with
  | [b0; b1; b2; b3] =>
      raise_if (negb (forallb _aligned boundaries)) (DatasetBuildError "four five-minute-aligned boundaries are required") ;;?
      raise_if (negb ((b0 <? b1) && (b1 <? b2) && (b2 <? b3))) (DatasetBuildError "partition boundaries must be strictly increasing") ;;?
      let? by_window := foldR (add_event b0 b3) ∅ events in
      let? b := foldR (add_window schema git_sha process_baseline scenarios boundaries) nothing_built (sort_by window_leb (map_to_list by_window)) in
      check_straddling b ;;?
      foldR (fun _ name => raise_if (Nat.eqb (length (partitions b name)) 0) (DatasetBuildError ("the " +:+ name +:+ " partition is empty"))) tt PARTITIONS ;;?
      foldR (fun _ name => check_flags scenarios b name) tt ["validation"; "test"] ;;?
      Ok b
  | _ => Err (DatasetBuildError "four five-minute-aligned boundaries are required")
  end.
End build.

(** ** Writing *)

(** [json.dumps(v, sort_keys=True)]. *)
Fixpoint json_dumps_sorted (v : val) : string :=
  match v with
  | VNone => "null"
  | VBool true => "true"
  | VBool false => "false"
  | VNum n => json_number n
  | VStr s => json_string s
  | VList l => "[" +:+ str_join ", " (map json_dumps_sorted l) +:+ "]"
  | VDict d => "{" +:+ str_join ", " (map snd (sort_by key_leb (map (fun kv => (kv.1, json_string kv.1 +:+ ": " +:+ json_dumps_sorted kv.2)) d))) +:+ "}"
  end.

Definition _jsonl (rows : list val) : result (list Z) :=
  let? lines := mapR (fun row => if finite_val row then Ok (json_dumps_sorted row +:+ str1 (chr 10)) else Err out_of_range) rows in
  Ok (utf8 (concat_str lines)).

Definition file_sha256 (bytes : list Z) : string := hexdigest (sha256 bytes).

(** The membership ledger. *)
Definition ledger_of (digests : list (string * string)) (b : Built) : val :=
  VDict [("schema_version", VStr "partition-membership-v1");
         ("partitions", VDict (map (fun nd => (nd.1, VDict [("vectors_sha256", VStr nd.2); ("memberships", VList (members b nd.1))])) digests))].

(** [{sid for member in members for sid in member["session_ids"]}]. *)
Definition partition_sessions (b : Built) (name : string) : result (list string) :=
  let? lists := mapR (fun m => rbind (subscript "session_ids" m) texts_of) (members b name) in
  Ok (sort_by str_leb (remove_dups (concat lists))).

Definition split_entry (b : Built) (p : string * (Z * Z)) : result (string * val) :=
  let '(name, (low, high)) := p in
  let? sessions := partition_sessions b name in
  let? digest := canonical_hash (VList (map VStr sessions)) in
  Ok (name, VDict [("start", VStr (_rfc low)); ("end", VStr (_rfc high)); ("vector_count", VInt (Z.of_nat (length (partitions b name))));
                   ("session_ids_sha256", VStr digest); ("label_profile", VStr (default "" (assoc name LABEL_PROFILES)))]).

(** What the caller says of a dataset. *)
Record Provenance : Type := {
  dataset_id : string;
  p_schema : string;
  p_git_sha : string;
  p_sources : list string;
  events_sha256 : string;
  collector_config_sha256 : string;
  normalization_schema_sha256 : string;
  raw_data_location_class : string;
  created_at : Z }.

Section write.
Variable schema_file : string -> option (list Z).
Variable safe_dump : val -> string.

Definition manifest_of (p : Provenance) (schema_hash : string) (low high : Z) (digests : list (string * string)) (labels_sha256 ledger_sha256 : string)
    (split : mapping) : result val :=
  let? digest := canonical_hash (VDict (map (fun nd => (nd.1, VStr nd.2)) digests)) in
  Ok (VDict [("schema_version", VStr "dataset-manifest-v1"); ("dataset_id", VStr (dataset_id p)); ("created_at", VStr (_rfc (created_at p)));
    ("time_range", VDict [("start", VStr (_rfc low)); ("end", VStr (_rfc high))]); ("sources", VList (map VStr (p_sources p)));
    ("feature_schema", VStr (p_schema p)); ("feature_schema_sha256", VStr schema_hash); ("sha256", VStr digest); ("git_sha", VStr (p_git_sha p));
    ("raw_data_committed", VBool false); ("raw_data_location_class", VStr (raw_data_location_class p));
    ("label_source", VDict [("method", VStr "scenario_time_window"); ("protocol_version", VStr "soc-labeling-v1"); ("sha256", VStr labels_sha256)]);
    ("split", VDict (("strategy", VStr "temporal_session_isolated") :: ("session_assignment_sha256", VStr ledger_sha256) :: split));
    ("provenance", VDict [("normalization_schema_sha256", VStr (normalization_schema_sha256 p));
       ("collector_config_sha256", VStr (collector_config_sha256 p)); ("source_manifest_sha256", VStr (events_sha256 p));
       ("feature_engine_git_sha", VStr (p_git_sha p)); ("generated_by", VStr "soc-build-dataset-v1")])]).

(** The manifest, and the files of the output directory in the order they are written. *)
Definition write_dataset (absent_or_empty : bool) (b : Built) (boundaries : list Z) (p : Provenance) : result (val * list (string * list Z)) :=
  raise_if (negb absent_or_empty) (DatasetBuildError "output directory must be absent or empty") ;;?
  let? vector_files := mapR (fun name => let? bytes := _jsonl (partitions b name) in Ok (name, bytes)) PARTITIONS in
  let digests := map (fun nb => (nb.1, file_sha256 nb.2)) vector_files in
  let? label_bytes := _jsonl (labels b) in
  let ledger_bytes := utf8 (canonical_json (ledger_of digests b)) in
  let? split := mapR (split_entry b) (zip PARTITIONS (zip boundaries (tl boundaries))) in
  let? schema_hash := feature_schema_sha256 schema_file (p_schema p) in
  let? manifest := manifest_of p schema_hash (List.hd 0 boundaries) (List.last boundaries 0) digests (file_sha256 label_bytes) (file_sha256 ledger_bytes) split in
  Ok (manifest, map (fun nb => (nb.1 +:+ ".jsonl", nb.2)) vector_files ++
      [("labels.jsonl", label_bytes); ("session-assignments.json", ledger_bytes); ("dataset-manifest.yaml", utf8 (safe_dump manifest))]).
End write.
