(* ===== verification/Labels.v ===== *)
(** [ai/evaluation/labels.py]: scenario labels, bound to vectors by their canonical hash.

    The text of a label file is decoded, split and parsed by Python's standard library: its non-blank
    lines are an argument, each with its number and what [json.loads] makes of it. *)

From S2P Require Import Prelude PyText PyNum PyTime PyJson Sha256 Policy Decision Effects Store Contracts Partitions Dataset.

Record Label : Type := {
  vector_sha256 : string;
  attack : bool;
  scenario_id : val;
  scenario_start : option Z }.

(** An instant: the offset is taken off, as subtraction of aware datetimes does. *)
Definition _parse (value : val) : result Z :=
  match value with
  | VStr s =>
      match fromisoformat_z s with
      | None => Err (ValueError ("Invalid isoformat string: " +:+ py_repr (replace_char "Z" "+00:00" s)))
      | Some (_, None) => Err (LabelError "scenario_start must include a UTC offset")
      | Some (local, Some offset) => Ok (local - offset)
      end
  | _ => Err (LabelError "scenario_start must be an RFC3339 string")
  end.

Definition label_fields : list string := ["schema_version"; "vector_sha256"; "label"; "scenario_id"; "scenario_start"].

Definition is_none (v : val) : bool :=
  match v with
  | VNone => true
  | _ => false
  end.

Definition is_bool (v : val) : bool :=
  match v with
  | VBool _ => true
  | _ => false
  end.

Definition nonempty_str (v : val) : bool :=
  match v with
  | VStr s => negb (String.eqb s "")
  | _ => false
  end.

(** One row of the file. *)
Definition parse_label (number : string) (row : mapping) : result Label :=
  raise_if (negb (py_eq (get "schema_version" row) (VStr LABELS_SCHEMA))) (LabelError ("label line " +:+ number +:+ " has an unsupported schema")) ;;?
  let bad_digest := LabelError ("label line " +:+ number +:+ " has an invalid vector digest") in
  match get "vector_sha256" row with
  | VStr digest =>
      raise_if (negb (str_len digest =? 64)) bad_digest ;;?
      let label := get "label" row in
      raise_if (negb (py_eq label (VInt 0) || py_eq label (VInt 1)) || is_bool label) (LabelError ("label line " +:+ number +:+ " must be 0 or 1")) ;;?
      if py_eq label (VInt 1) then
        raise_if (negb (nonempty_str (get "scenario_id" row))) (LabelError ("attack label on line " +:+ number +:+ " needs a scenario_id")) ;;?
        let? start := _parse (get "scenario_start" row) in
        Ok {| vector_sha256 := digest; attack := true; scenario_id := get "scenario_id" row; scenario_start := Some start |}
      else
        raise_if (negb (is_none (get "scenario_id" row)) || negb (is_none (get "scenario_start" row)))
          (LabelError ("benign label on line " +:+ number +:+ " must not name a scenario")) ;;?
        Ok {| vector_sha256 := digest; attack := false; scenario_id := VNone; scenario_start := None |}
  | _ => Err bad_digest
  end.

Notation label_map := (gmap string Label).

Definition load_line (labels : label_map) (line : Z * result val) : result label_map :=
  let number := str_of_Z line.1 in
  let? row := try_except line.2 is_value_error (fun _ => Err (LabelError ("label line " +:+ number +:+ " is not JSON"))) in
  let unsupported := LabelError ("label line " +:+ number +:+ " has missing or unsupported fields") in
  match row with
  | VDict d =>
      raise_if (negb (same_keys (keys d) label_fields)) unsupported ;;?
      let? label := parse_label number d in
      raise_if (match labels !! vector_sha256 label with Some _ => true | None => false end)
        (LabelError ("duplicate label for vector " +:+ vector_sha256 label)) ;;?
      Ok (<[vector_sha256 label := label]> labels)
  | _ => Err unsupported
  end.

Section labels.
(** The non-blank lines of the decoded text. *)
Variable json_lines : list Z -> result (list (Z * result val)).

Definition load_labels (data : option (list Z)) (expected_sha256 : option val) : result label_map :=
  match data with
  | None => Err (OSError "labels.jsonl")
  | Some data =>
      raise_if (match expected_sha256 with Some h => negb (py_eq (VStr (hexdigest (sha256 data))) h) | None => false end)
        (LabelError "label file digest does not match the dataset manifest") ;;?
      let? lines := json_lines data in
      foldR load_line ∅ lines
  end.
End labels.

(** A missing label is an error, never benign. *)
Definition label_for (labels : label_map) (vector : val) : result Label :=
  let? digest := canonical_hash vector in
  match labels !! digest with
  | Some l => Ok l
  | None => Err (LabelError "a vector in the evaluated partition has no label")
  end.

Definition labels_for (vectors : list val) (labels : label_map) : result (list Label) := mapR (label_for labels) vectors.
