(* ===== verification/Evaluation.v ===== *)
(** [ai/evaluation/threshold.py], [metrics.py], [detectors.py] and [benchmark.py]: thresholds tuned on the
    validation partition, and detectors compared on the test partition.

    Parameters: scikit-learn's precision, recall and F1, and its average precision; the latencies, the
    processor time and the peak memory, which the world [W] of the process gives. *)

From S2P Require Import Prelude PyText PyNum PyTime PyJson Sha256 Policy Decision Effects Store Contracts Sequences Registry Partitions.
From S2P Require Import Promotion Labels.

Notation float := SpecFloat.spec_float.

Definition f_leb (a b : float) : bool := num_leb (PFloat a) (PFloat b).
Definition f_eqb (a b : float) : bool := num_eqb (PFloat a) (PFloat b).
(** [max(a, b)] and [min(a, b)]: the first argument unless the second is beyond it. *)
Definition f_max (a b : float) : float := if f_ltb a b then b else a.
Definition f_min (a b : float) : float := if f_ltb b a then b else a.
Definition f_add (a b : float) : float := SpecFloat.SFadd 53 1024 a b.
Definition f_mul (a b : float) : float := SpecFloat.SFmul 53 1024 a b.

(** ** Thresholds *)
Definition _f1 (tp fp fn : Z) : float :=
  let denominator := 2 * tp + fp + fn in
  if denominator =? 0 then f_zero else int_truediv (2 * tp) denominator.

(** The vectors of a kind that fire. *)
Definition firing (kind : bool) (rows : list (bool * float)) (threshold : float) : Z :=
  Z.of_nat (length (List.filter (fun row => Bool.eqb row.1 kind && f_leb threshold row.2) rows)).

Definition seconds_per_hour : float := float_of_Z 3600.

(** [count / hours]. *)
Definition per_hour (count : Z) (hours : float) : result float := let? f := py_float (PInt count) in py_fdiv f hours.

(** [a >= b] of pairs. *)
Definition pair_geb (a b : float * float) : bool := if f_eqb a.1 b.1 then f_leb b.2 a.2 else f_leb b.1 a.1.

(** [{float(score) for score in scores}]. *)
Definition distinct_scores (scores : list float) : list float :=
  fold_left (fun acc s => if existsb (f_eqb s) acc then acc else acc ++ [s]) scores [].

Definition try_threshold (rows : list (bool * float)) (hours max_false_positives_per_hour : float) (best : option (float * float)) (threshold : float) :
    result (option (float * float)) :=
  let attack_total := Z.of_nat (length (List.filter fst rows)) in
  let tp := firing true rows threshold in
  let fp := firing false rows threshold in
  let? rate := per_hour fp hours in
  if f_ltb max_false_positives_per_hour rate then Ok best
  else
    let candidate := (_f1 tp fp (attack_total - tp), threshold) in
    Ok (match best with
        | Some b => if pair_geb candidate b then Some candidate else best
        | None => Some candidate
        end).

Definition one_billionth : float := int_truediv 1 1000000000.

Definition max_of (scores : list float) : option float :=
  match scores with
  | [] => None
  | s :: rest => Some (fold_left f_max rest s)
  end.

Definition select_threshold (labels : list bool) (scores : list float) (observation_seconds max_false_positives_per_hour : float) : result float :=
  raise_if (negb (Nat.eqb (length labels) (length scores)) || Nat.eqb (length labels) 0)
    (EvaluationError "labels and scores must be non-empty and equal length") ;;?
  raise_if (f_leb observation_seconds f_zero || f_ltb max_false_positives_per_hour f_zero)
    (EvaluationError "observation duration must be positive and the budget non-negative") ;;?
  raise_if (negb (existsb (fun l : bool => l) labels) || forallb (fun l : bool => l) labels)
    (EvaluationError "threshold selection needs both attack and benign vectors") ;;?
  let? hours := py_fdiv observation_seconds seconds_per_hour in
  let rows := zip labels scores in
  let? best := foldR (try_threshold rows hours max_false_positives_per_hour) None (sort_by f_leb (distinct_scores scores)) in
  match best with
  | Some b => Ok b.2
  | None =>
      match max_of (map snd (List.filter (fun row => negb row.1) rows)) with
      | None => Err (ValueError "max() iterable argument is empty")
      | Some highest_benign =>
          raise_if (f_leb f_one highest_benign) (EvaluationError "no threshold satisfies the false-positive budget on validation") ;;?
          Ok (f_min f_one (f_add highest_benign one_billionth))
      end
  end.

(** ** Metrics *)

(** [ceil(0.95 * n)]. *)
Definition f_ceil (x : float) : Z :=
  match num_x (PFloat x) with
  | XFin m e => if 0 <=? e then m * 2 ^ e else - ((- m) / 2 ^ (- e))
  | _ => 0
  end.

Definition _p95 (values : list float) : result float :=
  raise_if (Nat.eqb (length values) 0) (EvaluationError "p95 inference latency requires at least one sample") ;;?
  let ordered := sort_by f_leb values in
  let? n := py_float (PInt (Z.of_nat (length ordered))) in
  match nth_error ordered (Z.to_nat (Z.max 0 (f_ceil (f_mul (int_truediv 95 100) n) - 1))) with
  | Some v => Ok v
  | None => Err (IndexError "list index out of range")
  end.

(** [sum] of floats, compensated as CPython does since 3.12: the running sum and what rounding lost. *)
Definition sum_step (acc : float * float) (x : float) : float * float :=
  let t := f_add acc.1 x in
  (t, f_add acc.2 (if f_leb (SpecFloat.SFabs x) (SpecFloat.SFabs acc.1) then f_add (f_sub acc.1 t) x else f_add (f_sub x t) acc.1)).

Definition sum_floats (l : list float) : float :=
  match l with
  | [] => f_zero
  | x :: rest =>
      let '(total, lost) := fold_left sum_step rest (f_add f_zero x, f_zero) in
      if f_finite lost && negb (f_eqb lost f_zero) then f_add total lost else total
  end.

Section metrics.
(** Precision, recall and F1 of binary labels and predictions; average precision of labels and scores. *)
Variable prf : list bool -> list bool -> float * float * float.
Variable average_precision : list bool -> list float -> float.

Definition outside (lo hi : float) (x : float) : bool := negb (f_finite x) || negb (f_leb lo x && f_leb x hi).

Definition evaluate_detector (labels : list bool) (scores : list float) (threshold observation_seconds : float)
    (delays latencies : list float) (require_detection : bool) : result mapping :=
  raise_if (negb (Nat.eqb (length labels) (length scores)) || Nat.eqb (length labels) 0)
    (EvaluationError "labels and scores must be non-empty and equal length") ;;?
  raise_if (negb (f_leb f_zero threshold && f_leb threshold f_one)) (EvaluationError "threshold must be in [0, 1]") ;;?
  raise_if (negb (f_finite observation_seconds) || f_leb observation_seconds f_zero) (EvaluationError "observation duration must be positive") ;;?
  raise_if (existsb (outside f_zero f_one) scores) (EvaluationError "scores must be finite and within [0, 1]") ;;?
  raise_if (negb (Nat.eqb (length latencies) (length scores)) || existsb (fun v => negb (f_finite v) || f_ltb v f_zero) latencies)
    (EvaluationError "one finite non-negative latency is required per prediction") ;;?
  let predictions := map (f_leb threshold) scores in
  let '(precision, recall, f1) := prf labels predictions in
  let false_positives := Z.of_nat (length (List.filter (fun lp => negb lp.1 && lp.2) (zip labels predictions))) in
  raise_if (existsb (fun d => negb (f_finite d) || f_ltb d f_zero) delays) (EvaluationError "detection delays must be finite and non-negative") ;;?
  raise_if (Nat.eqb (length delays) 0 && require_detection) (EvaluationError "MTTD requires at least one detected labelled scenario") ;;?
  let? hours := py_fdiv observation_seconds seconds_per_hour in
  let? rate := per_hour false_positives hours in
  let? mttd := (if Nat.eqb (length delays) 0 then Ok VNone
                else let? n := py_float (PInt (Z.of_nat (length delays))) in let? m := py_fdiv (sum_floats delays) n in Ok (VFloat m)) in
  let? p95 := _p95 latencies in
  Ok [("precision", VFloat precision); ("recall", VFloat recall); ("f1", VFloat f1); ("pr_auc", VFloat (average_precision labels scores));
      ("false_positives_per_hour", VFloat rate); ("mttd_seconds", mttd); ("p95_inference_ms", VFloat p95)].
End metrics.

(** ** Detectors *)

(** [float(v)] of a number. *)
Definition float_of_val (v : val) : result float :=
  match as_number v with
  | Some n => py_float n
  | None => Err (TypeError "float() argument must be a string or a real number")
  end.

Definition NETWORK_LIMITS : list (string * Z) := [("suricata_alert_count", 1); ("failed_auth_count", 20)].
Definition ENDPOINT_LIMITS : list (string * Z) := [("powershell_count", 1); ("privilege_change_count", 1); ("account_change_count", 1)].

(** [float(features[name]) >= limit]. *)
Definition reaches (features : mapping) (name : string) (limit : pynum) : result bool :=
  let? f := rbind (item name features) float_of_val in Ok (num_leb limit (PFloat f)).

(** [any] and [and], which stop at the first that decides. *)
Fixpoint any_reaches (features : mapping) (limits : list (string * Z)) : result bool :=
  match limits with
  | [] => Ok false
  | (name, limit) :: rest =>
      let? hit := reaches features name (PInt limit) in
      if hit : bool then Ok true else any_reaches features rest
  end.

Fixpoint all_reach (features : mapping) (limits : list (string * pynum)) : result bool :=
  match limits with
  | [] => Ok true
  | (name, limit) :: rest =>
      let? hit := reaches features name limit in
      if hit : bool then all_reach features rest else Ok false
  end.

Definition scan_signature : list (string * pynum) :=
  [("connection_count", PInt 10); ("blocked_ratio", PFloat (int_truediv 1 2)); ("unique_dst_port", PInt 3)].

(** [StaticRuleSet.default().fires]. *)
Definition fires (vector : mapping) : result bool :=
  let? features := item "features" vector in
  match features with
  | VDict d =>
      let? schema := item "feature_schema" vector in
      let network := py_eq schema (VStr "network-window-v1") in
      let? hit := any_reaches d (if network then NETWORK_LIMITS else ENDPOINT_LIMITS) in
      if hit : bool then Ok true else if network then all_reach d scan_signature else Ok false
  | _ => Err AssertionError
  end.

Inductive Detector : Type :=
| StaticRuleDetector
| ModelDetector (name : string) (m : soc_model)
| HybridDetector (name : string) (m : soc_model).

Definition detector_name (d : Detector) : string :=
  match d with
  | StaticRuleDetector => "static-rules"
  | ModelDetector name _ => name
  | HybridDetector name _ => "static+" +:+ name
  end.

(** [None]: tune on the validation partition. *)
Definition default_threshold (d : Detector) : option float :=
  match d with
  | StaticRuleDetector => Some (int_truediv 1 2)
  | _ => None
  end.

Definition detector_length (d : Detector) : Z :=
  match d with
  | StaticRuleDetector => 1
  | ModelDetector _ m | HybridDetector _ m => sequence_length m
  end.

Definition static_score (vector : mapping) : result float := let? f := fires vector in Ok (if f : bool then f_one else f_zero).

Definition model_score (m : soc_model) (vector : mapping) (history : list val) : result float :=
  let? features := item "features" vector in
  match m with
  | Recurrent r =>
      if 1 <? window_count r then
        raise_if (negb (Z.of_nat (length history) =? window_count r - 1)) (FeatureSchemaError "history length does not match the sequence model") ;;?
        let? schema := item "feature_schema" vector in
        let? matrix := sequence_matrix (str_val schema) history features in
        score_matrix r matrix
      else Err (AttributeError "score")
  | Forest f => forest_score f features []
  end.

Definition detector_score (d : Detector) (vector : mapping) (history : list val) : result float :=
  match d with
  | StaticRuleDetector => static_score vector
  | ModelDetector _ m => model_score m vector history
  | HybridDetector _ m =>
      let? s := static_score vector in
      let? x := model_score m vector history in
      Ok (f_max s x)
  end.

(** The five detectors of the protocol, in order; missing models are skipped. *)
Definition build_detectors (isolation_forest lstm : option soc_model) : list Detector :=
  [StaticRuleDetector]
  ++ match isolation_forest with Some m => [ModelDetector "isolation-forest" m; HybridDetector "isolation-forest" m] | None => [] end
  ++ match lstm with Some m => [ModelDetector "lstm-autoencoder" m; HybridDetector "lstm-autoencoder" m] | None => [] end.

(** ** Benchmark *)
Record PartitionData : Type := {
  pd_name : string;
  pd_vectors : list mapping;
  pd_labels : list Label;
  observation_seconds : float;
  pd_index : vector_index }.

Definition partition_data (name : string) (vectors : list mapping) (labels : list Label) (seconds : float) : result PartitionData :=
  raise_if (negb (Nat.eqb (length vectors) (length labels)) || Nat.eqb (length vectors) 0)
    (ValueError (name +:+ ": vectors and labels must be non-empty and aligned")) ;;?
  let? index := index_vectors_by_window_end vectors in
  Ok {| pd_name := name; pd_vectors := vectors; pd_labels := labels; observation_seconds := seconds; pd_index := index |}.

(** [(end - start).total_seconds()]. *)
Definition total_seconds (micros : Z) : float :=
  if micros <? 0 then SpecFloat.SFopp (int_truediv (- micros) US_PER_SECOND) else int_truediv micros US_PER_SECOND.

(** A text is parsed; an instant without an offset cannot be subtracted from one that has it. *)
Definition window_end_instant (vector : mapping) : result Z :=
  let? v := item "window_end" vector in
  match fromisoformat_z (str_val v) with
  | None => Err (ValueError ("Invalid isoformat string: " +:+ py_repr (replace_char "Z" "+00:00" (str_val v))))
  | Some (_, None) => Err (TypeError "can't subtract offset-naive and offset-aware datetimes")
  | Some (local, Some offset) => Ok (local - offset)
  end.

(** The delay to the first firing window of each scenario, and the scenarios seen. *)
Definition add_delay (threshold : float) (acc : list (string * float) * list string) (row : mapping * (Label * float)) :
    result (list (string * float) * list string) :=
  let '(vector, (label, score)) := row in
  match attack label, scenario_id label, scenario_start label with
  | true, VStr id, Some start =>
      let scenarios := if str_in id acc.2 then acc.2 else acc.2 ++ [id] in
      if f_leb threshold score then
        let? finish := window_end_instant vector in
        let delay := f_max f_zero (total_seconds (finish - start)) in
        Ok (assoc_set id (f_min delay (default delay (assoc id acc.1))) acc.1, scenarios)
      else Ok (acc.1, scenarios)
  | _, _, _ => Ok acc
  end.

Definition detection_delays (data : PartitionData) (scores : list float) (threshold : float) : result (list float * Z * Z) :=
  let? acc := foldR (add_delay threshold) ([], []) (zip (pd_vectors data) (zip (pd_labels data) scores)) in
  Ok (map snd acc.1, Z.of_nat (length acc.1), Z.of_nat (length acc.2)).

Section benchmark.
Context {W : Type}.
Variable prf : list bool -> list bool -> float * float * float.
Variable average_precision : list bool -> list float -> float.
(** Milliseconds of one scoring; processor seconds of a partition and peak memory in megabytes. *)
Variable elapsed_ms : M W float.
Variable resources : M W (float * float).

Record Scored : Type := { scores : list float; latencies_ms : list float; cpu_seconds : float; peak_rss_mb : float }.

Definition score_vector (d : Detector) (data : PartitionData) (vector : mapping) : M W (float * float) :=
  let! history := lift (if 1 <? detector_length d then entity_history vector (pd_index data) (detector_length d) else Ok []) in
  let! value := lift (detector_score d vector history) in
  let! ms := elapsed_ms in
  ret (value, ms).

Definition score_partition (d : Detector) (data : PartitionData) : M W Scored :=
  let! scored := mapM_ (score_vector d data) (pd_vectors data) in
  let! used := resources in
  ret {| scores := map fst scored; latencies_ms := map snd scored; cpu_seconds := used.1; peak_rss_mb := used.2 |}.

Definition source_events (vectors : list mapping) : result Z :=
  foldR (fun total vector => let? n := rbind (item "source_event_count" vector) int_of_val in Ok (total + n)) 0 vectors.

Definition evaluate (d : Detector) (data : PartitionData) (threshold : float) (require_detection : bool) : M W mapping :=
  let! scored := score_partition d data in
  let! '(delays, detected, total) := lift (detection_delays data (scores scored) threshold) in
  let! metrics := lift (evaluate_detector prf average_precision (map attack (pd_labels data)) (scores scored) threshold (observation_seconds data)
                          delays (latencies_ms scored) require_detection) in
  let! events := lift (source_events (pd_vectors data)) in
  let! rate := lift (let? n := py_float (PInt events) in py_fdiv n (observation_seconds data)) in
  let! cpu := lift (let? n := py_float (PInt (Z.of_nat (length (pd_vectors data)))) in py_fdiv (f_mul (cpu_seconds scored) (float_of_Z 1000)) n) in
  ret (metrics ++ [("threshold", VFloat threshold); ("scenarios_detected", VInt detected); ("scenarios_total", VInt total);
                   ("event_rate_eps", VFloat rate); ("cpu_ms_per_vector", VFloat cpu); ("peak_rss_mb", VFloat (peak_rss_mb scored))]).

Definition tune_threshold (d : Detector) (validation : PartitionData) (max_false_positives_per_hour : float) : M W float :=
  match default_threshold d with
  | Some t => ret t
  | None =>
      let! scored := score_partition d validation in
      lift (select_threshold (map attack (pd_labels validation)) (scores scored) (observation_seconds validation) max_false_positives_per_hour)
  end.

Definition benchmark_row (validation test : PartitionData) (max_false_positives_per_hour : float) (d : Detector) : M W mapping :=
  let! threshold := tune_threshold d validation max_false_positives_per_hour in
  let! row := evaluate d test threshold false in
  ret (row ++ [("detector", VStr (detector_name d))]).

Definition run_benchmark (detectors : list Detector) (validation test : PartitionData) (max_false_positives_per_hour : float) : M W (list mapping) :=
  mapM_ (benchmark_row validation test max_false_positives_per_hour) detectors.
End benchmark.

Definition COLUMNS : list (string * string) :=
  [("detector", "Detector"); ("precision", "P"); ("recall", "R"); ("f1", "F1"); ("pr_auc", "PR-AUC"); ("false_positives_per_hour", "FP/h");
   ("mttd_seconds", "MTTD s"); ("p95_inference_ms", "p95 ms"); ("event_rate_eps", "events/s"); ("cpu_ms_per_vector", "CPU ms/vec");
   ("peak_rss_mb", "RSS MB")].

Definition table_cell (v : val) : result string :=
  match v with
  | VNone => Ok "n/a"
  | VNum (PFloat _) => format_3f v
  | _ => Ok (str_val v)
  end.

Definition table_line (cells : list string) : string := "| " +:+ str_join " | " cells +:+ " |".

Definition markdown_table (rows : list mapping) : result string :=
  let? lines := mapR (fun row => let? cells := mapR (fun c => table_cell (get c.1 row)) COLUMNS in Ok (table_line cells)) rows in
  Ok (str_join (str1 (chr 10)) ([table_line (map snd COLUMNS); "|" +:+ str_join "|" (map (fun _ => "---") COLUMNS) +:+ "|"] ++ lines) +:+ str1 (chr 10)).
