(* ===== verification/Pipeline.v ===== *)
(** [ai/training/pipeline.py] and [ai/evaluation/compare.py], with the sequences of
    [ai/training/train_lstm_autoencoder.py]: the dataset a model is trained on, the candidate registry
    that is written for it, and the comparison of two candidates.

    Files are read through parameters, as in [Partitions.v] and [Labels.v]; what is written is given as
    the list of the output's files.  Fitting is done by libraries: a model is an argument. *)

From S2P Require Import Prelude PyText PyNum PyTime PyJson JsonText Sha256 Policy Decision Effects Store Contracts Sequences Registry Partitions.
From S2P Require Import Promotion Labels Evaluation.

Definition provenance_error (message : string) : exn := ModelProvenanceError message.

(** ** Vectors *)

(** One line of a vector file: its number, and what [json.loads] makes of it. *)
Definition load_row (path : string) (line : Z * result val) : result mapping :=
  let place := path +:+ ":" +:+ str_of_Z line.1 in
  let? payload := try_except line.2 is_value_error (fun _ => Err (provenance_error ("invalid JSONL in " +:+ place))) in
  match payload with
  | VDict d => Ok d
  | _ => Err (provenance_error ("JSONL row in " +:+ place +:+ " is not an object"))
  end.

Definition load_jsonl (path : string) (lines : result (list (Z * result val))) : result (list mapping) :=
  let? lines := lines in
  let? rows := mapR (load_row path) lines in
  raise_if (Nat.eqb (length rows) 0) (provenance_error ("feature vector file is empty: " +:+ path)) ;;?
  Ok rows.

Record Dataset : Type := {
  manifest : mapping;
  partitions : string -> list mapping;
  labels : string -> list Label }.

(** [{row.get("feature_schema") for row in rows} != {schema}]. *)
Definition check_schemas (schema name : string) (rows : list mapping) : result unit :=
  raise_if (existsb (fun row => is_container (get "feature_schema" row)) rows) (TypeError "unhashable type") ;;?
  raise_if (negb (forallb (fun row => py_eq (get "feature_schema" row) (VStr schema)) rows) || Nat.eqb (length rows) 0)
    (provenance_error (name +:+ " must contain only " +:+ schema +:+ " vectors")).

Definition check_both (partition_labels : string -> list Label) (name : string) : result unit :=
  raise_if (negb (existsb attack (partition_labels name) && existsb (fun l => negb (attack l)) (partition_labels name)))
    (provenance_error ("the " +:+ name +:+ " partition needs both benign and attack vectors")).

(** A function of the partition names, given by its three values. *)
Definition by_name {A} (default : A) (l : list (string * A)) (name : string) : A :=
  match assoc name l with
  | Some a => a
  | None => default
  end.

Section dataset.
Variable manifest_valid : val -> bool.
Variable json_loads : list Z -> result val.
Variable schema_file : string -> option (list Z).
Variable conforms : list Z -> mapping -> bool.
Variable json_lines : list Z -> result (list (Z * result val)).

(** The files named on the command line. *)
Variable manifest_document : result val.
Variable vector_bytes : string -> option (list Z).
Variable ledger_bytes : option (list Z).
Variable label_bytes : option (list Z).

Definition vector_lines (name : string) : result (list (Z * result val)) :=
  match vector_bytes name with
  | Some b => json_lines b
  | None => Err (OSError name)
  end.

Definition check_manifest (schema : string) (manifest : mapping) : result unit :=
  raise_if (negb (py_eq (get "feature_schema" manifest) (VStr schema))) (provenance_error "dataset manifest feature schema does not match training request") ;;?
  raise_if (match get "raw_data_committed" manifest with VBool false => false | _ => true end) (provenance_error "raw datasets must not be committed") ;;?
  let? strategy := get_attr "strategy" VNone (default (VDict []) (assoc "split" manifest)) in
  raise_if (negb (py_eq strategy (VStr "temporal_session_isolated"))) (provenance_error "dataset split must be temporal_session_isolated") ;;?
  let? expected_hash := feature_schema_sha256 schema_file schema in
  raise_if (negb (py_eq (get "feature_schema_sha256" manifest) (VStr expected_hash))) (provenance_error "dataset manifest feature schema digest does not match source").

(** The labels of each partition; [None] as the expected digest is no check. *)
Definition partition_labels (manifest : mapping) (partitions : string -> list mapping) : result (list (string * list Label)) :=
  try_except
    (let? expected := rbind (item "label_source" manifest) (subscript "sha256") in
     let? labels := load_labels json_lines label_bytes (match expected with VNone => None | _ => Some expected end) in
     mapR (fun name => let? l := labels_for (map VDict (partitions name)) labels in Ok (name, l)) PARTITIONS)
    is_value_error (fun e => Err (provenance_error (exn_message e))).

Definition load_dataset (schema : string) : result Dataset :=
  let? document := manifest_document in
  let wrong := provenance_error "dataset manifest must be dataset-manifest-v1" in
  match document with
  | VDict m =>
      raise_if (negb (py_eq (get "schema_version" m) (VStr "dataset-manifest-v1"))) wrong ;;?
      check_manifest schema m ;;?
      let? loaded := mapR (fun name => let? rows := load_jsonl name (vector_lines name) in Ok (name, rows)) PARTITIONS in
      let rows := by_name [] loaded in
      validate_partitions manifest_valid json_loads schema_file conforms (fun name => map VDict (rows name)) vector_bytes document ledger_bytes ;;?
      foldR (fun _ name => check_schemas schema name (rows name)) tt PARTITIONS ;;?
      let? labelled := partition_labels m rows in
      let labels := by_name [] labelled in
      raise_if (existsb attack (labels "train")) (provenance_error "the training partition must not contain attack vectors") ;;?
      foldR (fun _ name => check_both labels name) tt ["validation"; "test"] ;;?
      Ok {| manifest := m; partitions := rows; labels := labels |}
  | _ => Err wrong
  end.
End dataset.

(** [datetime.fromisoformat] of a bound, and the seconds between two: both have an offset, or neither. *)
Definition bound_instant (v : val) : result (Z * option Z) :=
  match v with
  | VStr s =>
      match fromisoformat_z s with
      | Some t => Ok t
      | None => Err (ValueError ("Invalid isoformat string: " +:+ py_repr (replace_char "Z" "+00:00" s)))
      end
  | _ => Err (AttributeError "replace")
  end.

Definition data (d : Dataset) (name : string) : result PartitionData :=
  let? bounds := rbind (item "split" (manifest d)) (subscript name) in
  let? start := rbind (subscript "start" bounds) bound_instant in
  let? finish := rbind (subscript "end" bounds) bound_instant in
  let? span := time_difference start finish in
  partition_data name (partitions d name) (labels d name) (total_seconds span).

(** The matrices an LSTM autoencoder is fitted on. *)
Definition training_sequences (vectors : list mapping) (schema : string) (length : Z) : result (list (list (list float))) :=
  let? index := index_vectors_by_window_end vectors in
  mapR (fun vector =>
    let? history := entity_history vector index length in
    let? features := item "features" vector in
    sequence_matrix schema history features) vectors.

(** ** Candidates *)
Record Arguments : Type := {
  feature_schema_argument : string;
  model_id_argument : string;
  random_seed : Z;
  git_sha : string;
  runtime_image_digest : string;
  library_lock_sha256 : string;
  max_false_positives_per_hour : float;
  output_absent_or_empty : bool }.

Definition check_provenance_arguments (a : Arguments) : result unit :=
  raise_if (random_seed a <? 0) (provenance_error "random seed must be non-negative") ;;?
  raise_if (negb (starts_with "sha256:" (runtime_image_digest a)) || negb (str_len (runtime_image_digest a) =? 71))
    (provenance_error "runtime image must be an immutable sha256 digest") ;;?
  raise_if (negb (str_len (library_lock_sha256 a) =? 64)) (provenance_error "library lock must be identified by SHA-256") ;;?
  raise_if (f_ltb (max_false_positives_per_hour a) f_zero) (provenance_error "the false-positive budget must be non-negative") ;;?
  raise_if (negb (output_absent_or_empty a)) (provenance_error "output directory must be absent or empty").

(** What is written about a fitted model besides the model itself. *)
Record Fitted : Type := {
  fitted_model : soc_model;
  fitted_algorithm : string;
  artifact_name : string;
  artifact_format : string;
  artifact_bytes : list Z;
  hyperparameters : mapping;
  started_at : string;
  completed_at : string }.

(** The files the digests of a binding are taken of. *)
Record Evidence : Type := {
  manifest_digest : string;
  labels_digest : string;
  validation_digest : string;
  test_digest : string }.

Definition metric_values (metrics : mapping) (names : list string) : result mapping :=
  mapR (fun name => let? v := item name metrics in Ok (name, v)) names.

Definition float_values (metrics : mapping) : result mapping :=
  mapR (fun name => let? f := rbind (item name metrics) float_of_val in Ok (name, VFloat f)) METRIC_FIELDS.

Definition candidate_artifact (f : Fitted) : mapping :=
  [("path", VStr (artifact_name f)); ("sha256", VStr (hexdigest (sha256 (artifact_bytes f)))); ("size_bytes", VInt (Z.of_nat (length (artifact_bytes f))));
   ("format", VStr (artifact_format f))].

Definition candidate_metadata (a : Arguments) (f : Fitted) (e : Evidence) (dataset_id dataset_sha256 : val) (schema_hash : string) (threshold : float)
    (evaluation : mapping) : mapping :=
  [("schema_version", VStr "model-provenance-v1"); ("model_id", VStr (model_id_argument a)); ("algorithm", VStr (fitted_algorithm f));
   ("created_at", VStr (completed_at f)); ("status", VStr "candidate"); ("artifact", VDict (candidate_artifact f));
   ("dataset", VDict [("id", dataset_id); ("sha256", dataset_sha256); ("manifest_sha256", VStr (manifest_digest e)); ("train_partition", VStr "train");
                      ("validation_partition", VStr "validation"); ("test_partition", VStr "test")]);
   ("feature_schema", VDict [("id", VStr (feature_schema_argument a)); ("sha256", VStr schema_hash)]); ("git_sha", VStr (git_sha a));
   ("training", VDict [("random_seed", VInt (random_seed a)); ("started_at", VStr (started_at f)); ("completed_at", VStr (completed_at f));
                       ("hyperparameters", VDict (hyperparameters f))]);
   ("threshold", VFloat threshold); ("evaluation", VDict evaluation);
   ("runtime", VDict [("image_digest", VStr (runtime_image_digest a)); ("library_lock_sha256", VStr (library_lock_sha256 a))])].

Definition scenario_counts : list string := ["scenarios_detected"; "scenarios_total"].

Definition candidate_binding (a : Arguments) (f : Fitted) (e : Evidence) (schema_hash : string) (threshold : float)
    (validation_values test_values : mapping) (evaluated_at : string) : mapping :=
  [("schema_version", VStr "evaluation-binding-v1"); ("model_sha256", VStr (hexdigest (sha256 (artifact_bytes f)))); ("feature_schema_sha256", VStr schema_hash);
   ("dataset_manifest_sha256", VStr (manifest_digest e)); ("labels_sha256", VStr (labels_digest e)); ("validation_vectors_sha256", VStr (validation_digest e));
   ("test_vectors_sha256", VStr (test_digest e));
   ("threshold_policy", VDict [("selected_on", VStr "validation"); ("objective", VStr "max_f1_within_false_positive_budget");
                               ("max_false_positives_per_hour", VFloat (max_false_positives_per_hour a))]);
   ("threshold", VFloat threshold); ("validation_metrics", VDict validation_values); ("test_metrics", VDict test_values); ("evaluated_at", VStr evaluated_at)].

Definition is_evaluation_error (e : exn) : bool :=
  match e with
  | EvaluationError _ => true
  | _ => false
  end.

Section candidate.
Context {W : Type}.
Variable prf : list bool -> list bool -> float * float * float.
Variable average_precision : list bool -> list float -> float.
Variable elapsed_ms : M W float.
Variable resources : M W (float * float).
Variable clock : M W Z.
Variable schema_file : string -> option (list Z).

Definition evaluate_candidate (d : Detector) (validation test : PartitionData) (threshold : float) : M W (mapping * mapping) :=
  catch (let! v := evaluate prf average_precision elapsed_ms resources d validation threshold false in
         let! t := evaluate prf average_precision elapsed_ms resources d test threshold true in
         ret (v, t))
    is_evaluation_error (fun e => raise (provenance_error ("candidate cannot be evaluated: " +:+ exn_message e))).

Definition candidate_detectors (f : Fitted) : list Detector :=
  build_detectors (if String.eqb (fitted_algorithm f) "IsolationForest" then Some (fitted_model f) else None)
                  (if String.eqb (fitted_algorithm f) "LSTMAutoencoder" then Some (fitted_model f) else None).

(** The record and the binding of a candidate, from its two evaluations. *)
Definition describe_candidate (a : Arguments) (d : Dataset) (f : Fitted) (e : Evidence) (threshold : float) (metrics : mapping * mapping) (now : Z) :
    result (mapping * mapping) :=
  let? schema_hash := feature_schema_sha256 schema_file (feature_schema_argument a) in
  let? evaluation := float_values metrics.2 in
  let? dataset_id := item "dataset_id" (manifest d) in
  let? dataset_sha256 := item "sha256" (manifest d) in
  let? validation_values := metric_values metrics.1 (METRIC_FIELDS ++ scenario_counts) in
  let? test_values := metric_values metrics.2 (METRIC_FIELDS ++ scenario_counts ++ ["event_rate_eps"]) in
  Ok (candidate_metadata a f e dataset_id dataset_sha256 schema_hash threshold evaluation,
      candidate_binding a f e schema_hash threshold validation_values test_values (isoformat_auto now)).

Definition write_candidate (a : Arguments) (d : Dataset) (f : Fitted) (e : Evidence) : M W (list (string * list Z)) :=
  let! validation := lift (data d "validation") in
  let! test := lift (data d "test") in
  let detector := ModelDetector (fitted_algorithm f) (fitted_model f) in
  let! threshold := tune_threshold elapsed_ms resources detector validation (max_false_positives_per_hour a) in
  let! metrics := evaluate_candidate detector validation test threshold in
  let! benchmark := run_benchmark prf average_precision elapsed_ms resources (candidate_detectors f) validation test (max_false_positives_per_hour a) in
  let! schema_bytes := lift (let? _ := feature_schema_sha256 schema_file (feature_schema_argument a) in
    match schema_file (feature_schema_argument a) with Some b => Ok b | None => Err (OSError (feature_schema_argument a)) end) in
  let! now := clock in
  let! '(metadata, binding) := lift (describe_candidate a d f e threshold metrics now) in
  let! table := lift (markdown_table benchmark) in
  ret [(artifact_name f, artifact_bytes f); ("feature_schema.json", schema_bytes); ("metadata.json", json_file (VDict metadata));
       ("metrics.json", json_file (get "evaluation" metadata)); ("evaluation.json", json_file (VDict binding));
       ("benchmark.json", json_file (VList (map VDict benchmark))); ("benchmark.md", utf8 table)].

(** ** Comparison *)
Variable json_loads : list Z -> result val.
Variable provenance_valid : mapping -> bool.
Variable joblib_load : list Z -> M W (option SocIsolationForest).
Variable lstm_load : list Z -> M W SocLstmAutoencoder.

(** The model of a candidate directory, deserialised from the bytes that were verified. *)
Definition _candidate_model (name : string) (read : string -> M W (option (list Z))) (algorithm manifest_sha256 : string) : M W (soc_model * mapping) :=
  let! text := read "metadata.json" in
  let! record := lift (match text with Some b => json_loads b | None => Err (OSError "metadata.json") end) in
  lift (_validate_provenance provenance_valid record) ;;!
  let! declared := lift (get_attr "algorithm" VNone record) in
  let! status := lift (if py_eq declared (VStr algorithm) then get_attr "status" VNone record else Ok VNone) in
  raise_when (negb (py_eq declared (VStr algorithm) && py_eq status (VStr "candidate"))) (provenance_error (name +:+ " must be a " +:+ algorithm +:+ " candidate")) ;;!
  let metadata := match record with VDict m => m | _ => [] end in
  let! built_from := lift (rbind (item "dataset" metadata) (subscript "manifest_sha256")) in
  raise_when (negb (py_eq built_from (VStr manifest_sha256))) (provenance_error (name +:+ " was built from a different dataset than the one supplied")) ;;!
  let! layout := lift (artifact_layout (VStr algorithm) "unsupported model algorithm") in
  let! path := lift (rbind (item "artifact" metadata) (subscript "path")) in
  let! contents := read (str_val path) in
  match contents with
  | None => raise (OSError (str_val path))
  | Some bytes =>
      let! digest := lift (rbind (item "artifact" metadata) (subscript "sha256")) in
      raise_when (negb (py_eq path (VStr layout.2)) || negb (py_eq (VStr (hexdigest (sha256 bytes))) digest))
        (provenance_error (name +:+ " artifact digest does not match its provenance")) ;;!
      if String.eqb algorithm "IsolationForest" then
        let! loaded := joblib_load bytes in
        match loaded with
        | Some m => ret (Forest m, metadata)
        | None => raise (provenance_error "joblib artifact is not a CompanyXYZ Isolation Forest")
        end
      else let! m := lstm_load bytes in ret (Recurrent m, metadata)
  end.

Definition comparison_report (schema : string) (e : Evidence) (forest_meta lstm_meta : mapping) (budget : float) (rows : list mapping) : result mapping :=
  let described (m : mapping) := (let? id := item "model_id" m in
                                  let? digest := rbind (item "artifact" m) (subscript "sha256") in
                                  Ok (VDict [("model_id", id); ("model_sha256", digest)])) in
  let? forest := described forest_meta in
  let? lstm := described lstm_meta in
  Ok [("schema_version", VStr "benchmark-comparison-v1"); ("feature_schema", VStr schema); ("dataset_manifest_sha256", VStr (manifest_digest e));
      ("labels_sha256", VStr (labels_digest e)); ("validation_vectors_sha256", VStr (validation_digest e)); ("test_vectors_sha256", VStr (test_digest e));
      ("models", VDict [("isolation-forest", forest); ("lstm-autoencoder", lstm)]);
      ("threshold_policy", VDict [("selected_on", VStr "validation"); ("max_false_positives_per_hour", VFloat budget)]);
      ("rows", VList (map VDict rows))].

(** The dataset is what [load_dataset] gave; a directory is its name and its files. *)
Definition compare (schema : string) (d : result Dataset) (e : Evidence) (forest_dir lstm_dir : string * (string -> M W (option (list Z))))
    (budget : float) (absent_or_empty : bool) : M W (list (string * list Z)) :=
  let! d := lift d in
  let! '(forest, forest_meta) := _candidate_model forest_dir.1 forest_dir.2 "IsolationForest" (manifest_digest e) in
  let! '(recurrent, lstm_meta) := _candidate_model lstm_dir.1 lstm_dir.2 "LSTMAutoencoder" (manifest_digest e) in
  let! validation := lift (data d "validation") in
  let! test := lift (data d "test") in
  let! rows := run_benchmark prf average_precision elapsed_ms resources (build_detectors (Some forest) (Some recurrent)) validation test budget in
  raise_when (negb (py_eq (VList (map (get "detector") rows)) (VList (map VStr protocol_detectors))))
    (provenance_error "comparison did not cover the five protocol detectors") ;;!
  let! report := lift (comparison_report schema e forest_meta lstm_meta budget rows) in
  raise_when (negb absent_or_empty) (provenance_error "output directory must be absent or empty") ;;!
  let! table := lift (markdown_table rows) in
  ret [("comparison.json", json_file (VDict report)); ("comparison.md", utf8 table)].
End candidate.
