(* ===== verification/ModelFit.v ===== *)
(** [ai/models/lstm_autoencoder.py], [ai/models/isolation_forest.py] and the two commands of [ai/training/]
    that fit them: preprocessing, calibration, and the safetensors file an autoencoder is written to.

    Parameters: [log1p] and [x ** 2] of the platform's mathematics library; PyTorch's training of a
    network and its reconstruction errors; scikit-learn's pipeline, and NumPy's quantiles; [joblib.dump],
    and safetensors' [save] and [load].  A module in memory and the one rebuilt from its tensors are
    the same network, so a model is its tensors. *)

From S2P Require Import Prelude PyText PyNum PyTime PyJson JsonText Sha256 Policy Decision Effects Store Contracts Sequences Registry.
From S2P Require Import Partitions Promotion Labels Evaluation Pipeline.

Notation matrix := (list (list float)).

(** ** Preprocessing *)
Definition SEQUENCE_LENGTH : Z := 6.
Definition RATIO_FEATURES : list string := ["blocked_ratio"].
Definition _STD_FLOOR : float := dec_to_float 1 (-6).

Section preprocessing.
Variable log1p : float -> float.
Variable square : float -> result float.

Definition transform_value (value : float) (name : string) : float :=
  if str_in name RATIO_FEATURES then value else log1p (f_max f_zero value).

(** [zip] stops at the shorter of the two. *)
Definition _transform (rows : matrix) (names : list string) : matrix := map (fun row => zip_with transform_value row names) rows.

Definition normalized_row (mean std row : list float) : result (list float) :=
  mapR (fun vms : float * (float * float) => py_fdiv (f_sub vms.1 vms.2.1) vms.2.2) (zip row (zip mean std)).

Definition _tensor (names : list string) (mean std : list float) (matrices : list matrix) : result (list matrix) :=
  mapR (fun m => mapR (normalized_row mean std) (_transform m names)) matrices.

(** [row[i]]. *)
Definition column (rows : matrix) (i : nat) : result (list float) :=
  mapR (fun row => match nth_error row i with Some x => Ok x | None => Err (IndexError "list index out of range") end) rows.

(** [total / count] of a float and an integer. *)
Definition over_count (total : float) (count : Z) : result float := let? n := py_float (PInt count) in py_fdiv total n.

Definition mean_of (rows : matrix) (i : nat) : result float :=
  let? xs := column rows i in over_count (sum_floats xs) (Z.of_nat (length rows)).

(** [math.sqrt]. *)
Definition py_sqrt (x : float) : result float :=
  if f_ltb x f_zero then Err (ValueError "math domain error") else Ok (SpecFloat.SFsqrt 53 1024 x).

Definition deviation_of (rows : matrix) (i : nat) (mean : float) : result float :=
  let? xs := column rows i in
  let? squares := mapR (fun x => square (f_sub x mean)) xs in
  let? variance := over_count (sum_floats squares) (Z.of_nat (length rows)) in
  let? deviation := py_sqrt variance in
  Ok (f_max _STD_FLOOR deviation).

Definition means (rows : matrix) (width : nat) : result (list float) := mapR (mean_of rows) (seq 0 width).
Definition deviations (rows : matrix) (mean : list float) : result (list float) :=
  mapR (fun im : nat * float => deviation_of rows im.1 im.2) (imap pair mean).

(** ** The network *)

(** The mean squared errors of a batch, of a network with the given tensors and dimensions. *)
Variable errors_of : tensors -> Z -> Z -> Z -> list matrix -> result (list float).

(** The network of a model that was read: one matrix is a batch. *)
Definition lstm_network (names : list string) (mean std : list float) (state : tensors) (length_ hidden latent : Z) (m : matrix) : result float :=
  let? batch := _tensor names mean std [m] in
  let? errors := errors_of state length_ hidden latent batch in
  match errors with
  | e :: _ => Ok e
  | [] => Err (IndexError "list index out of range")
  end.

Definition check_length (length_ : Z) (m : matrix) : result unit :=
  raise_if (negb (Z.of_nat (length m) =? length_)) (FeatureSchemaError ("sequence must contain exactly " +:+ str_of_Z length_ +:+ " windows")).

Definition raw_errors (names : list string) (mean std : list float) (state : tensors) (length_ hidden latent : Z) (matrices : list matrix) :
    result (list float) :=
  foldR (fun _ m => check_length length_ m) tt matrices ;;?
  let? batch := _tensor names mean std matrices in
  let? errors := errors_of state length_ hidden latent batch in
  raise_if (negb (forallb f_finite errors)) (LstmModelError "model returned a non-finite reconstruction error") ;;?
  Ok errors.

(** ** Fitting *)
Record Hyperparameters : Type := {
  epochs : Z;
  hidden : Z;
  latent : Z;
  learning_rate : float;
  batch_size : Z;
  fitted_length : Z }.

(** What an autoencoder is besides its network. *)
Record FittedLstm : Type := {
  fitted_schema : string;
  fitted_schema_sha256 : string;
  fitted_names : list string;
  dimensions : Hyperparameters;
  fitted_mean : list float;
  fitted_std : list float;
  fitted_low : float;
  fitted_high : float;
  state : tensors }.

(** The fitted object as the loader and the scoring know it. *)
Definition lstm_model (m : FittedLstm) : SocLstmAutoencoder :=
  let d := dimensions m in
  {| recurrent := {| feature_schema := fitted_schema m; model_schema_sha256 := fitted_schema_sha256 m; feature_names := map VStr (fitted_names m);
                     calibration_low := fitted_low m; calibration_high := fitted_high m |};
     window_count := fitted_length d; hidden_size := hidden d; latent_size := latent d; mean := fitted_mean m; std := fitted_std m;
     reconstruct := lstm_network (fitted_names m) (fitted_mean m) (fitted_std m) (state m) (fitted_length d) (hidden d) (latent d) |}.

(** [train seed epochs learning_rate batch_size features length hidden latent batch]: the tensors after the last epoch. *)
Variable train : Z -> Z -> float -> Z -> Z -> Z -> Z -> Z -> list matrix -> result tensors.
Variable schema_file : string -> option (list Z).

(** [errors[int(q * (n - 1))]], [int] of the floor or of the ceiling. *)
Definition f_trunc (x : float) : Z :=
  match num_x (PFloat x) with
  | XFin m e => if 0 <=? e then m * 2 ^ e else Z.quot m (2 ^ (- e))
  | _ => 0
  end.

Definition rank (percent : Z) (round : float -> Z) (n : Z) : result nat :=
  let? last := py_float (PInt (n - 1)) in Ok (Z.to_nat (round (f_mul (dec_to_float percent (-2)) last))).

Definition ranked (ordered : list float) (percent : Z) (round : float -> Z) : result float :=
  let? i := rank percent round (Z.of_nat (length ordered)) in
  match nth_error ordered i with
  | Some e => Ok e
  | None => Err (IndexError "list index out of range")
  end.

(** A degenerate sample still gets an interval. *)
Definition interval (low high : float) : float * float :=
  (low, if f_leb high low then f_add low (dec_to_float 1 (-12)) else high).

Definition calibration (errors : list float) : result (float * float) :=
  let ordered := sort_by f_leb errors in
  let? low := ranked ordered 1 f_trunc in
  let? high := ranked ordered 99 f_ceil in
  Ok (interval low high).

Definition full_matrix (length_ : Z) (width : nat) (m : matrix) : bool :=
  (Z.of_nat (length m) =? length_) && forallb (fun row => Nat.eqb (length row) width) m.

Definition fit_lstm (schema : string) (sequences : list matrix) (random_seed : Z) (h : Hyperparameters) : result FittedLstm :=
  raise_if (Z.of_nat (length sequences) <? 4) (LstmModelError "the LSTM autoencoder needs at least four training sequences") ;;?
  let? names := expected_feature_names schema in
  raise_if (negb (forallb (full_matrix (fitted_length h) (length names)) sequences))
    (LstmModelError "every training sequence must be a full window matrix") ;;?
  let flat := _transform (concat sequences) names in
  let? mean := means flat (length names) in
  let? std := deviations flat mean in
  let? schema_hash := feature_schema_sha256 schema_file schema in
  let? batch := _tensor names mean std sequences in
  let? tensors := train random_seed (epochs h) (learning_rate h) (batch_size h) (Z.of_nat (length names)) (fitted_length h) (hidden h) (latent h) batch in
  let? errors := raw_errors names mean std tensors (fitted_length h) (hidden h) (latent h) sequences in
  let? '(low, high) := calibration errors in
  Ok {| fitted_schema := schema; fitted_schema_sha256 := schema_hash; fitted_names := names; dimensions := h; fitted_mean := mean; fitted_std := std;
        fitted_low := low; fitted_high := high; state := tensors |}.
End preprocessing.

(** ** The safetensors file *)

(** [struct.pack("<Q", n)]. *)
Definition pack_size (n : Z) : list Z := map (fun i => Z.land (Z.shiftr n (8 * i)) 255) [0; 1; 2; 3; 4; 5; 6; 7].

(** The header of a file, and what follows it. *)
Definition header_bytes (data : list Z) : list Z := take (Z.to_nat (header_size data)) (drop 8 data).
Definition tensor_bytes (data : list Z) : list Z := drop (Z.to_nat (header_size data)) (drop 8 data).

Definition padded (body : list Z) : list Z := body ++ repeat 32 (Z.to_nat (- Z.of_nat (length body) mod 8)).

Definition canonical_safetensors (data : list Z) : result (list Z) :=
  let? header := loads_bytes (header_bytes data) in
  let body := padded (utf8 (canonical_json header)) in
  Ok (pack_size (Z.of_nat (length body)) ++ body ++ tensor_bytes data).

Section writing.
Variable save : tensors -> mapping -> list Z.

Definition artifact_metadata (m : FittedLstm) : mapping :=
  let d := dimensions m in
  [("format", VStr "cxyz-lstm-autoencoder-v1"); ("feature_schema", VStr (fitted_schema m)); ("feature_schema_sha256", VStr (fitted_schema_sha256 m));
   ("feature_names", VStr (dumps ", " ": " false (VList (map VStr (fitted_names m))))); ("sequence_length", VStr (str_of_Z (fitted_length d)));
   ("hidden_size", VStr (str_of_Z (hidden d))); ("latent_size", VStr (str_of_Z (latent d)))].

(** [tensors[name] = value]. *)
Definition artifact_tensors (m : FittedLstm) : tensors :=
  assoc_set "calibration" [fitted_low m; fitted_high m]
    (assoc_set "preprocess.std" (fitted_std m) (assoc_set "preprocess.mean" (fitted_mean m) (state m))).

Definition to_safetensors (m : FittedLstm) : result (list Z) := canonical_safetensors (save (artifact_tensors m) (artifact_metadata m)).
End writing.

(** ** The Isolation Forest *)
Section forest.
(** [fit_pipeline seed n_estimators contamination matrix]: [decision_function] of the fitted pipeline. *)
Variable fit_pipeline : Z -> Z -> val -> matrix -> result (matrix -> result (list float)).
Variable quantiles : list float -> float * float.
Variable schema_file : string -> option (list Z).

Definition forest_row (schema : string) (vector : mapping) : result (list float) :=
  raise_if (negb (py_eq (get "feature_schema" vector) (VStr schema))) (ModelProvenanceError "training vectors must use exactly one feature schema") ;;?
  ordered_feature_row schema (default (VDict []) (assoc "features" vector)).

Definition one_row (decide_rows : matrix -> result (list float)) (row : list float) : result float :=
  let? scores := decide_rows [row] in
  match scores with
  | s :: _ => Ok s
  | [] => Err (IndexError "index 0 is out of bounds")
  end.

Definition fit_forest (schema : string) (vectors : list mapping) (random_seed n_estimators : Z) (contamination : val) : result SocIsolationForest :=
  raise_if (Z.of_nat (length vectors) <? 2) (ModelProvenanceError "Isolation Forest requires at least two training vectors") ;;?
  let? rows := mapR (forest_row schema) vectors in
  let? decide_rows := fit_pipeline random_seed n_estimators contamination rows in
  let? decisions := decide_rows rows in
  let '(low, high) := quantiles (map SpecFloat.SFopp decisions) in
  let '(low, high) := interval low high in
  let? '(schema_hash, names) :=
    try_except (let? schema_hash := feature_schema_sha256 schema_file schema in
                let? names := expected_feature_names schema in Ok (schema_hash, names))
      is_schema_error (fun e => Err (ModelProvenanceError (exn_message e))) in
  Ok {| forest := {| feature_schema := schema; model_schema_sha256 := schema_hash; feature_names := map VStr names;
                     calibration_low := low; calibration_high := high |};
        decision_function := one_row decide_rows |}.
End forest.

(** ** The training commands *)
Section training.
Context {W : Type}.
Variable log1p : float -> float.
Variable square : float -> result float.
Variable errors_of : tensors -> Z -> Z -> Z -> list matrix -> result (list float).
Variable train_network : Z -> Z -> float -> Z -> Z -> Z -> Z -> Z -> list matrix -> result tensors.
Variable save : tensors -> mapping -> list Z.
Variable fit_pipeline : Z -> Z -> val -> matrix -> result (matrix -> result (list float)).
Variable quantiles : list float -> float * float.
Variable joblib_dump : SocIsolationForest -> list Z.
Variable schema_file : string -> option (list Z).
Variable clock : M W Z.
(** [write_candidate], which [Pipeline] has. *)
Variable write : Fitted -> Dataset -> M W (list (string * list Z)).

Definition utc_text : M W string := let! now := clock in ret (isoformat_auto now).

Definition forest_hyperparameters (n_estimators : Z) (contamination : val) : mapping :=
  [("n_estimators", VInt n_estimators); ("contamination", contamination); ("scaler", VStr "StandardScaler");
   ("calibration", VStr "training_decision_function_q01_q99")].

(** [d]: what [load_dataset] gives. *)
Definition train_forest (a : Arguments) (n_estimators : Z) (contamination : val) (d : result Dataset) : M W (list (string * list Z)) :=
  lift (check_provenance_arguments a) ;;!
  raise_when (n_estimators <? 2) (ModelProvenanceError "n-estimators must be >= 2") ;;!
  let! d := lift d in
  let! started := utc_text in
  let! model := lift (fit_forest fit_pipeline quantiles schema_file (feature_schema_argument a) (partitions d "train") (random_seed a) n_estimators contamination) in
  let! completed := utc_text in
  write {| fitted_model := Forest model; fitted_algorithm := "IsolationForest"; artifact_name := "model.joblib"; artifact_format := "joblib";
           artifact_bytes := joblib_dump model; hyperparameters := forest_hyperparameters n_estimators contamination;
           started_at := started; completed_at := completed |} d.

Definition lstm_hyperparameters (h : Hyperparameters) : mapping :=
  [("sequence_length", VInt (fitted_length h)); ("epochs", VInt (epochs h)); ("hidden_size", VInt (hidden h)); ("latent_size", VInt (latent h));
   ("learning_rate", VFloat (learning_rate h)); ("batch_size", VInt (batch_size h)); ("preprocessing", VStr "log1p_counts_standardized");
   ("calibration", VStr "training_reconstruction_error_q01_q99")].

Definition fit_and_save (a : Arguments) (h : Hyperparameters) (vectors : list mapping) : result (FittedLstm * list Z) :=
  try_except
    (let? sequences := training_sequences vectors (feature_schema_argument a) (fitted_length h) in
     let? model := fit_lstm log1p square errors_of train_network schema_file (feature_schema_argument a) sequences (random_seed a) h in
     let? artifact := to_safetensors save model in
     Ok (model, artifact))
    is_model_error (fun e => Err (ModelProvenanceError (exn_message e))).

Definition train_lstm (a : Arguments) (h : Hyperparameters) (d : result Dataset) : M W (list (string * list Z)) :=
  lift (check_provenance_arguments a) ;;!
  raise_when (negb ((2 <=? fitted_length h) && (fitted_length h <=? 288)) || (epochs h <? 1))
    (ModelProvenanceError "sequence length must be 2..288 and epochs >= 1") ;;!
  let! d := lift d in
  let! started := utc_text in
  let! '(model, artifact) := lift (fit_and_save a h (partitions d "train")) in
  let! completed := utc_text in
  write {| fitted_model := Recurrent (lstm_model log1p errors_of model); fitted_algorithm := "LSTMAutoencoder"; artifact_name := "model.safetensors";
           artifact_format := "safetensors"; artifact_bytes := artifact; hyperparameters := lstm_hyperparameters h;
           started_at := started; completed_at := completed |} d.
End training.
