(* ===== verification/Compliance.v ===== *)
(** [compliance/]: which control a test proves, what an artifact records, which artifacts a report
    accepts, and when a report passes.

    Parameters: the catalog of controls as [yaml.safe_load] gives it; the files of a run, each with what
    reading it gives; the repository's own provenance; the files a test identifier resolves to and the
    test functions in them.  Texts are up to U+00FF, so a report is its rows and counts: the Markdown around
    them, with its badges, is not modelled, nor is the position a [JSONDecodeError] names. *)

From S2P Require Import Prelude PyText PyNum PyTime PyJson JsonText Policy.

Definition PROFILES : list string := ["path-a"; "path-b"].

(** * [evidence.py] *)

(** [set(v) <= set(names)]: the elements have to be hashable. *)
Definition is_hashable (v : val) : bool :=
  match v with
  | VList _ | VDict _ => false
  | _ => true
  end.

Definition subset_of (names : list string) (l : list val) : result bool :=
  raise_if (negb (forallb is_hashable l)) (TypeError "unhashable type") ;;?
  Ok (forallb (fun v => existsb (fun name => py_eq v (VStr name)) names) l).

Definition profiles_error (control : mapping) : exn :=
  ValueError (str_val (get "id" control) +:+ ": applicable_profiles must be a non-empty subset of ('path-a', 'path-b')").

(** The profiles a control declares, or all of them. *)
Definition declared_profiles (control : mapping) : val := default (VList (map VStr PROFILES)) (assoc "applicable_profiles" control).

Definition applies_to_profile (control : mapping) (profile : string) : result bool :=
  match declared_profiles control with
  | VList (p :: l) =>
      let? known := subset_of PROFILES (p :: l) in
      raise_if (negb known) (profiles_error control) ;;?
      Ok (existsb (fun v => py_eq v (VStr profile)) (p :: l))
  | _ => Err (profiles_error control)
  end.

(** [text.split("::", 1)], of a text that has the separator. *)
Fixpoint split_colons (s : string) : option (string * string) :=
  match s with
  | EmptyString => None
  | String a r =>
      match r with
      | String b t => if Ascii.eqb a ":" && Ascii.eqb b ":" then Some ("", t)
                      else option_map (fun xy => (String a xy.1, xy.2)) (split_colons r)
      | EmptyString => None
      end
  end.

Definition verified_test_suffix (verified_by : string) : result string :=
  match split_colons verified_by with
  | Some (filename, test_name) => Ok ("/" +:+ filename +:+ "::" +:+ test_name)
  | None => Err (ValueError "not enough values to unpack (expected 2, got 1)")
  end.

(** The first control whose verifier names the test; a verifier is text. *)
Fixpoint mapped_control_for_nodeid (controls : list mapping) (nodeid : string) : result (option string) :=
  match controls with
  | [] => Ok None
  | control :: rest =>
      match default (VStr "") (assoc "verified_by" control) with
      | VStr verified_by =>
          let? found := (if String.eqb verified_by "" then Ok false
                         else let? suffix := verified_test_suffix verified_by in Ok (ends_with suffix nodeid)) in
          if found : bool then let? id := item "id" control in Ok (Some (str_val id)) else mapped_control_for_nodeid rest nodeid
      | v => if truthy v then Err (AttributeError "split") else mapped_control_for_nodeid rest nodeid
      end
  end.

Definition automatic_payload (control_id : string) : mapping :=
  [("control_id", VStr control_id); ("assertion", VStr "mapped control test exited before recording explicit observations");
   ("observed", VDict [("evidence_recorded", VBool false)]); ("enforcement_node", VNone); ("counter_before", VNone); ("counter_after", VNone)].

Definition classify_result (passed assertion_failure evidence_recorded : bool) : string :=
  if passed then (if evidence_recorded then "PASS" else "ERROR") else if assertion_failure then "FAIL" else "ERROR".

Definition classify_phase_result (phase : string) (passed assertion_failure evidence_recorded : bool) : result (option string) :=
  if str_in phase ["setup"; "teardown"] then Ok (if passed then None else Some "ERROR")
  else if String.eqb phase "call" then Ok (Some (classify_result passed assertion_failure evidence_recorded))
  else Err (ValueError ("unsupported pytest phase: " +:+ phase)).

(** * [provenance.py] *)

(** [n.to_bytes(width, "big")], of a number that fits. *)
Fixpoint to_bytes (width : nat) (n : Z) : list Z :=
  match width with
  | O => []
  | Datatypes.S w => Z.land (Z.shiftr n (8 * Z.of_nat w)) 255 :: to_bytes w n
  end.

Definition sized (width : nat) (data : list Z) : result (list Z) :=
  if Z.of_nat (length data) <? 256 ^ Z.of_nat width then Ok (to_bytes width (Z.of_nat (length data)) ++ data)
  else Err (OverflowError "int too big to convert").

(** What [source_tree_hash] feeds to SHA-256: the files in the order of their paths, each path and each
    content with its length before it. *)
Definition tree_entry (file : list Z * list Z) : result (list Z) :=
  let? path := sized 4 file.1 in let? data := sized 8 file.2 in Ok (path ++ data).

Definition tree_stream (files : list (list Z * list Z)) : result (list Z) :=
  let? entries := mapR tree_entry files in Ok (concat entries).

(** What [test_suite_hash] feeds: paths and contents one after the other. *)
Definition suite_stream (files : list (list Z * list Z)) : list Z := concat (map (fun file => file.1 ++ file.2) files).

Section provenance.
(** [sha256(...).hexdigest()]. *)
Variable digest : list Z -> string.

Definition source_tree_hash (files : list (list Z * list Z)) : result string := let? s := tree_stream files in Ok (digest s).
Definition test_suite_hash (files : list (list Z * list Z)) : string := digest (suite_stream files).

Definition DEPLOYMENT_CONFIG_KEYS : list string :=
  ["ORG_DOMAIN"; "DEPLOY_ENV"; "PUBLIC_HOSTNAME"; "WAZUH_MANAGER_IP"; "WG_SERVER_PORT"; "WG_ENDPOINT"; "WG_PEER_COUNT"; "NTP_UPSTREAM_1";
   "NTP_UPSTREAM_2"; "PATH_B_SSH_PUBLIC_KEY_FILE"].

(** One setting, and the digest of the key it names; [key_file] gives the bytes of a file that is there. *)
Definition config_record (key_file : string -> option (list Z)) (values : list (string * string)) (key : string) : string :=
  let value := default "" (assoc key values) in
  key +:+ "=" +:+ value +:+ str1 (chr 10) +:+
  (if String.eqb key "PATH_B_SSH_PUBLIC_KEY_FILE" && negb (String.eqb value "") then
     match key_file value with
     | Some bytes => "PATH_B_SSH_PUBLIC_KEY_SHA256=" +:+ digest bytes +:+ str1 (chr 10)
     | None => "PATH_B_SSH_PUBLIC_KEY_SHA256=<missing>" +:+ str1 (chr 10)
     end
   else "").

Definition deployment_config_hash (key_file : string -> option (list Z)) (values : list (string * string)) : string :=
  digest (utf8 (concat_str (map (config_record key_file values) DEPLOYMENT_CONFIG_KEYS))).

(** The repository at hand: the answers of [git], its files and its settings. *)
Record Repository : Type := {
  git_sha : string;
  git_dirty : bool;
  tracked_files : list (list Z * list Z);
  control_catalog : list Z;
  topology : list Z;
  test_files : list (list Z * list Z);
  dotenv : list (string * string);
  key_files : string -> option (list Z) }.

Definition current_provenance (r : Repository) : result mapping :=
  let? tree := source_tree_hash (tracked_files r) in
  Ok [("git_sha", VStr (git_sha r)); ("git_dirty", VBool (git_dirty r)); ("source_tree_sha256", VStr tree);
      ("control_catalog_sha256", VStr (digest (control_catalog r))); ("topology_sha256", VStr (digest (topology r)));
      ("test_suite_sha256", VStr (test_suite_hash (test_files r)));
      ("deployment_config_sha256", VStr (deployment_config_hash (key_files r) (dotenv r)))].
End provenance.

(** * [record_evidence.py] *)

(** [json.loads(value)], or the text itself when it is not JSON. *)
Definition coerce (value : string) : result val :=
  try_except (loads value) (fun e => match e with JSONDecodeError _ => true | _ => false end) (fun _ => Ok (VStr value)).

Record RecordArguments : Type := {
  test_id : string;
  control : string;
  outcome : string;
  assertion : string;
  enforcement_node : val;
  counter_before : val;
  counter_after : val;
  started_at : string;
  observed_items : list string;
  run_identifier : string;
  lab_environment : string }.

(** [argparse]'s [parser.error] ends the process. *)
Definition usage_error (message : string) : exn := SystemExit message.

Definition add_observed (observed : mapping) (text : string) : result mapping :=
  let '(key, separator, value) := partition_on "=" text in
  raise_if (negb separator) (usage_error ("--observed must be key=value, got " +:+ py_repr text)) ;;?
  let? v := coerce value in Ok (assoc_set key v observed).

Definition recorded_payload (a : RecordArguments) (provenance : mapping) (now : Z) : result mapping :=
  let? observed := foldR add_observed [] (observed_items a) in
  Ok (fold_left (fun d kv => assoc_set kv.1 kv.2 d) (provenance ++ [("environment", VStr (lab_environment a))])
    [("schema_version", VInt 2); ("control_id", VStr (control a)); ("test_id", VStr (test_id a)); ("result", VStr (outcome a));
     ("assertion", VStr (assertion a)); ("observed", VDict observed); ("enforcement_node", enforcement_node a);
     ("counter_before", counter_before a); ("counter_after", counter_after a);
     ("failure", if String.eqb (outcome a) "PASS" then VNone else get "failure" observed);
     ("started_at", VStr (started_at a)); ("ended_at", VStr (isoformat_auto now)); ("run_id", VStr (run_identifier a))]).

(** [text.replace("::", "__")]. *)
Fixpoint replace_colons (s : string) : string :=
  match s with
  | EmptyString => s
  | String a r =>
      match r with
      | String b t => if Ascii.eqb a ":" && Ascii.eqb b ":" then "__" +:+ replace_colons t else String a (replace_colons r)
      | EmptyString => s
      end
  end.

Definition artifact_name (test_id : string) : string := replace_colons (replace_char "/" "__" test_id) +:+ ".json".

(** The file [main] writes. *)
Definition record_evidence (a : RecordArguments) (provenance : mapping) (now : Z) : result (string * list Z) :=
  let? payload := recorded_payload a provenance now in Ok (artifact_name (test_id a), json_file (VDict payload)).

(** * [generate_report.py] *)
Definition VALID_RESULTS : list string := ["PASS"; "FAIL"; "ERROR"].
Definition REQUIRED_FIELDS : list string :=
  ["schema_version"; "control_id"; "test_id"; "result"; "assertion"; "observed"; "started_at"; "ended_at"; "run_id"; "git_sha"; "git_dirty";
   "source_tree_sha256"; "control_catalog_sha256"; "topology_sha256"; "test_suite_sha256"; "deployment_config_sha256"; "environment"].

(** An aware instant. *)
Definition _parse_timestamp (v : val) : option Z :=
  match v with
  | VStr s =>
      if String.eqb s "" then None
      else match fromisoformat_z s with
           | Some (local, Some offset) => Some (local - offset)
           | _ => None
           end
  | _ => None
  end.

Definition _validate_timestamps (payload : mapping) : option string :=
  match _parse_timestamp (get "started_at" payload), _parse_timestamp (get "ended_at" payload) with
  | Some started, Some ended => if ended <? started then Some "ended_at precedes started_at" else None
  | _, _ => Some "started_at/ended_at must be timezone-aware ISO-8601 timestamps"
  end.

(** [sorted(path for path in root if it is a directory)[-1]]. *)
Definition latest_run (runs : list string) : option string := last (sort_by str_leb runs).

(** What makes an artifact of the file unusable, if anything does; a result that cannot be a member of a
    set stops the report, and so does a document that is no object. *)
Definition artifact_error (name : string) (payload : mapping) : result (option string) :=
  let missing := sort_by str_leb (keys_minus REQUIRED_FIELDS (keys payload)) in
  if negb (Nat.eqb (length missing) 0) then Ok (Some (name +:+ ": missing fields: " +:+ str_join ", " missing))
  else if negb (py_eq (get "schema_version" payload) (VInt 2)) then Ok (Some (name +:+ ": unsupported schema_version"))
  else
    let result := get "result" payload in
    raise_if (negb (is_hashable result)) (TypeError "unhashable type") ;;?
    if negb (existsb (fun r => py_eq result (VStr r)) VALID_RESULTS) then Ok (Some (name +:+ ": invalid result " +:+ repr_val result))
    else match _validate_timestamps payload with
         | Some e => Ok (Some (name +:+ ": " +:+ e))
         | None => Ok None
         end.

Definition is_unreadable (e : exn) : bool :=
  match e with
  | OSError _ | JSONDecodeError _ => true
  | _ => false
  end.

Definition read_artifact (acc : list mapping * list string) (file : string * result string) : result (list mapping * list string) :=
  let '(evidence, errors) := acc in
  match rbind file.2 loads with
  | Err e => if is_unreadable e then Ok (evidence, errors ++ [file.1 +:+ ": invalid JSON: " +:+ exn_message e]) else Err e
  | Ok (VDict payload) =>
      let? problem := artifact_error file.1 payload in
      match problem with
      | Some e => Ok (evidence, errors ++ [e])
      | None => Ok (evidence ++ [payload], errors)
      end
  | Ok _ => Err (AttributeError "keys")
  end.

Definition evidence_key (payload : mapping) : string * string := (str_val (get "control_id" payload), str_val (get "test_id" payload)).

(** The keys seen so far, and an error for each that was there before. *)
Definition see_key (acc : list (string * string) * list string) (payload : mapping) : list (string * string) * list string :=
  let key := evidence_key payload in
  if bool_decide (key ∈ acc.1)
  then (acc.1, acc.2 ++ ["duplicate evidence for " +:+ key.1 +:+ " / " +:+ key.2 +:+ ": " +:+ key.2 +:+ " and another artifact in the same run"])
  else (acc.1 ++ [key], acc.2).

(** The files of the run, in the order of their names. *)
Definition load_evidence (files : list (string * result string)) : result (list mapping * list string) :=
  let? '(evidence, errors) := foldR read_artifact ([], []) (sort_by key_leb files) in
  Ok (evidence, errors ++ (fold_left see_key evidence ([], [])).2).

Definition PROVENANCE_FIELDS : list string :=
  ["git_sha"; "git_dirty"; "source_tree_sha256"; "control_catalog_sha256"; "topology_sha256"; "test_suite_sha256"; "deployment_config_sha256"; "environment"].

Definition when (b : bool) (e : string) : list string := if b then [e] else [].

(** What is wrong with one artifact: its run, a field unlike the first artifact's, a field unlike the repository's. *)
Definition artifact_provenance_errors (run_id : string) (baseline expected item : mapping) : list string :=
  let label := str_val (get "test_id" item) in
  when (negb (String.eqb run_id "") && negb (py_eq (get "run_id" item) (VStr run_id))) (label +:+ ": run_id does not match evidence directory")
  ++ concat (map (fun field => when (negb (py_eq (get field item) (get field baseline))) (label +:+ ": mixed provenance field " +:+ field)) PROVENANCE_FIELDS)
  ++ concat (map (fun kv => when (negb (py_eq (get kv.1 item) kv.2)) (label +:+ ": stale " +:+ kv.1)) expected).

Definition environment_in (names : list string) (v : val) : result bool :=
  raise_if (negb (is_hashable v)) (TypeError "unhashable type") ;;? Ok (existsb (fun n => py_eq v (VStr n)) names).

Definition environment_errors (profile : string) (environment : val) : result (list string) :=
  let b := when (String.eqb profile "path-b" && negb (py_eq environment (VStr "path-b"))) "evidence environment is not Path B" in
  if String.eqb profile "path-a" then
    let? known := environment_in ["local-containerlab"; "path-a"] environment in Ok (b ++ when (negb known) "evidence environment is not Path A")
  else Ok b.

Definition strict_errors (baseline : mapping) : list string :=
  when (py_eq (get "git_sha" baseline) (VStr "unknown")) "strict report requires a resolvable Git SHA"
  ++ when (truthy (get "git_dirty" baseline)) "strict report refuses evidence produced from a dirty worktree; commit/review the source first".

(** [expected]: [current_provenance()], which is taken only when there is evidence. *)
Definition validate_provenance (evidence : list mapping) (run_id : string) (expected : result mapping) (strict : bool) (profile : string) : result (list string) :=
  match evidence with
  | [] => Ok []
  | baseline :: _ =>
      let? expected := expected in
      let errors := concat (map (artifact_provenance_errors run_id baseline expected) evidence) in
      let? environment := environment_errors profile (get "environment" baseline) in
      Ok (errors ++ environment ++ (if strict then strict_errors baseline else []))
  end.

Definition verifier_for (control : mapping) (profile : string) : result val :=
  item (if String.eqb profile "path-b" then "verified_by_path_b" else "verified_by") control.

Definition text_of_verifier (v : val) : result string :=
  match v with
  | VStr s => Ok s
  | _ => Err (AttributeError "split")
  end.

(** [item["test_id"].endswith(suffix) or item["test_id"] == verified_by]. *)
Definition names_test (suffix verified_by : string) (id : val) : result bool :=
  match id with
  | VStr s => Ok (ends_with suffix s || String.eqb s verified_by)
  | _ => Err (AttributeError "endswith")
  end.

Definition proves (id : val) (suffix verified_by : string) (payload : mapping) : result bool :=
  if py_eq (get "control_id" payload) id then names_test suffix verified_by (get "test_id" payload) else Ok false.

(** The last match; its result and itself. *)
Definition keep_match (id : val) (suffix verified_by : string) (found : option mapping) (payload : mapping) : result (option mapping) :=
  let? m := proves id suffix verified_by payload in Ok (if m : bool then Some payload else found).

Definition status_for (control : mapping) (evidence : list mapping) (profile : string) : result (string * option mapping) :=
  let? verifier := verifier_for control profile in
  let? verified_by := text_of_verifier verifier in
  let? suffix := verified_test_suffix verified_by in
  let? id := (if Nat.eqb (length evidence) 0 then Ok VNone else item "id" control) in
  let? found := foldR (keep_match id suffix verified_by) None evidence in
  Ok (match found with
      | Some payload => (str_val (get "result" payload), Some payload)
      | None => ("UNVERIFIED", None)
      end).

(** ** The report *)
Record Row : Type := {
  row_control : string;
  row_framework : string;
  row_severity : string;
  row_verifier : string;
  row_status : string;
  row_evidence : string }.

Record Report : Type := {
  report_profile : string;
  report_run : string;
  report_git_sha : string;
  passed : Z;
  failed : Z;
  in_error : Z;
  unverified : Z;
  rows : list Row;
  not_applicable : list string;
  invalid_artifacts : list string }.

Definition framework_text (v : val) : result string :=
  match v with
  | VList l => let? texts := mapR (fun x => match x with VStr s => Ok s | _ => Err (TypeError "sequence item: expected str instance") end) l in Ok (str_join ", " texts)
  | _ => Ok (str_val v)
  end.

Definition report_row (evidence : list mapping) (profile : string) (control : mapping) : result Row :=
  let? '(status, artifact) := status_for control evidence profile in
  let? framework := rbind (item "framework" control) framework_text in
  let? verifier := verifier_for control profile in
  let? id := item "id" control in
  let? severity := item "severity" control in
  Ok {| row_control := str_val id; row_framework := framework; row_severity := str_val severity; row_verifier := str_val verifier; row_status := status;
        row_evidence := match artifact with Some a => str_val (get "test_id" a) | None => "none" end |}.

Definition count_status (status : string) (rows : list Row) : Z :=
  Z.of_nat (length (List.filter (fun r => String.eqb (row_status r) status) rows)).

(** [control not in controls]: equality of mappings. *)
Definition same_control (a b : mapping) : bool := py_eq (VDict a) (VDict b).

Fixpoint filterR {A} (f : A -> result bool) (l : list A) : result (list A) :=
  match l with
  | [] => Ok []
  | x :: r => let? b := f x in let? rest := filterR f r in Ok (if b : bool then x :: rest else rest)
  end.

(** What [path.read_text()] gives of a file that is there. *)
Definition read_text (data : list Z) : result string := decode_utf8 data.

(** The report and the exit status of [main]; [run]: the name of the run and its files. *)
Definition generate_report (catalog : list mapping) (run : option (string * list (string * result string))) (expected : result mapping)
    (strict : bool) (profile : string) : result (Report * Z) :=
  let? controls := filterR (fun c => applies_to_profile c profile) catalog in
  let? elsewhere := mapR (item "id")
    (List.filter (fun c => negb (existsb (same_control c) controls)) catalog) in
  let? '(evidence, unreadable) := match run with Some r => load_evidence r.2 | None => Ok ([], []) end in
  let? invalid := validate_provenance evidence (match run with Some r => r.1 | None => "" end) expected strict profile in
  let errors := unreadable ++ invalid in
  let? rows := mapR (report_row evidence profile) controls in
  let? _ := framework_text (VList elsewhere) in
  let report :=
    {| report_profile := profile; report_run := match run with Some r => r.1 | None => "none" end;
       report_git_sha := match evidence with e :: _ => str_val (default (VStr "unknown") (assoc "git_sha" e)) | [] => "unknown" end;
       passed := count_status "PASS" rows; failed := count_status "FAIL" rows;
       in_error := count_status "ERROR" rows + Z.of_nat (length errors); unverified := count_status "UNVERIFIED" rows;
       rows := rows; not_applicable := map str_val elsewhere; invalid_artifacts := errors |} in
  let nonpass := negb (passed report =? Z.of_nat (length controls)) || negb (failed report =? 0) || negb (in_error report =? 0) || negb (unverified report =? 0) in
  Ok (report, if strict && nonpass then 1 else 0).

(** * [check_wiring.py] *)
Section wiring.
(** The files a name resolves to under [tests/] and [scripts/], each with its path; the test functions of one. *)
Variable candidates : string -> list string.
Variable functions : string -> list string.

Definition resolve (test_id : string) : option string * string * option string :=
  match split_colons test_id with
  | None => (None, "", Some ("'" +:+ test_id +:+ "' must use file::function syntax"))
  | Some (filename, function) =>
      match candidates filename with
      | [path] => (Some path, function, None)
      | l => (None, function, Some ("'" +:+ filename +:+ "' resolved to " +:+ str_of_Z (Z.of_nat (length l)) +:+ " files"))
      end
  end.

Record Wiring : Type := { problems : list string; assigned : list (string * string * string) }.

Definition problem (text : string) (w : Wiring) : Wiring := {| problems := problems w ++ [text]; assigned := assigned w |}.

Definition assignee (profile test_id : string) (w : Wiring) : option string :=
  match find (fun e => String.eqb e.1.1 profile && String.eqb e.1.2 test_id) (rev (assigned w)) with
  | Some e => Some e.2
  | None => None
  end.

(** The proof a control names for a profile it is scoped to. *)
Definition check_proof (id profile test_id : string) (w : Wiring) : Wiring :=
  let where_ := id +:+ "[" +:+ profile +:+ "]: " in
  let w := match assignee profile test_id w with
           | Some other => problem (where_ +:+ "'" +:+ test_id +:+ "' already assigned to " +:+ other) w
           | None => w
           end in
  let w := {| problems := problems w; assigned := assigned w ++ [(profile, test_id, id)] |} in
  match resolve test_id with
  | (_, _, Some error) => problem (where_ +:+ error) w
  | (Some path, function, None) =>
      if str_in function (functions path) then w else problem (where_ +:+ "function '" +:+ function +:+ "' absent from " +:+ path) w
  | (None, _, None) => w
  end.

Definition check_field (control : mapping) (id : string) (scoped : list val) (w : Wiring) (pf : string * string) : result Wiring :=
  let '(profile, field) := pf in
  let test_id := get field control in
  let where_ := id +:+ "[" +:+ profile +:+ "]: " in
  if negb (existsb (fun v => py_eq v (VStr profile)) scoped) then
    Ok (if truthy test_id then problem (where_ +:+ field +:+ " is set but the control is not applicable to " +:+ profile) w else w)
  else if negb (truthy test_id) then Ok (problem (where_ +:+ "missing " +:+ field) w)
  else match test_id with
       | VStr t => Ok (check_proof id profile t w)
       | v => Err (if is_hashable v then AttributeError "split" else TypeError "unhashable type")
       end.

Definition PROOF_FIELDS : list (string * string) := [("path-a", "verified_by"); ("path-b", "verified_by_path_b")].

Definition check_control (w : Wiring) (control : mapping) : result Wiring :=
  let? scoped := match declared_profiles control with
                 | VList (p :: l) => let? known := subset_of PROFILES (p :: l) in Ok (if known : bool then p :: l else [])
                 | _ => Ok []
                 end in
  let? id := item "id" control in
  match scoped with
  | [] => Ok (problem (str_val id +:+ ": applicable_profiles must be a non-empty subset of ['path-a', 'path-b']") w)
  | _ => foldR (check_field control (str_val id) scoped) w PROOF_FIELDS
  end.

Definition check_wiring (controls : list mapping) : result Wiring := foldR check_control {| problems := []; assigned := [] |} controls.
End wiring.
