(* ===== verification/PyRe.v ===== *)
(** Python regular expressions: the part of [re] the modelled code uses.

    A pattern is a value of [re], and [run] the backtracking matcher: it tries the alternatives in the
    order the pattern gives them, the longest repetition first unless the pattern asks for the shortest,
    and goes on with the rest of the pattern before it settles for one.  [path] is what a pattern
    matches, whatever the order; [run_finds] and [run_path] say that the matcher finds a match exactly when
    there is one. *)

From S2P Require Import Prelude PyText.

(** [Over p]: one character; [Star greedy r]: [r*] or [r*?]; [Group n r]: the n-th parenthesis; [Finish]:
    [$]; [LineStart] and [LineEnd]: [^] and [$] of [re.M]; [Edge]: [\b]; [Ahead r]: [(?=r)] of an [r] without groups. *)
Inductive re : Type :=
| Empty
| Over (p : ascii -> bool)
| Cat (r1 r2 : re)
| Alt (r1 r2 : re)
| Star (greedy : bool) (r : re)
| Group (n : nat) (r : re)
| Finish
| LineStart
| LineEnd
| Edge
| Ahead (r : re).

(** Where the matcher is: the character before, the text from here, the groups closed so far. *)
Record cursor : Type := { before : option ascii; rest : string; groups : list (nat * string) }.

(** [\w]: letters, digits and the underscore, among the characters up to U+00FF. *)
Definition is_word (a : ascii) : bool :=
  let c := code a in
  ((48 <=? c) && (c <=? 57)) || ((65 <=? c) && (c <=? 90)) || (c =? 95) || ((97 <=? c) && (c <=? 122)) ||
  existsb (Z.eqb c) [170; 178; 179; 181; 185; 186; 188; 189; 190] ||
  ((192 <=? c) && negb (c =? 215) && negb (c =? 247)).

Definition word_at (a : option ascii) : bool := match a with Some a => is_word a | None => false end.
Definition head (s : string) : option ascii := match s with String a _ => Some a | EmptyString => None end.
Definition at_edge (c : cursor) : bool := xorb (word_at (before c)) (word_at (head (rest c))).

(** [$]: the end of the text, or the line feed that ends it. *)
Definition at_finish (c : cursor) : bool :=
  match rest c with
  | EmptyString => true
  | String a EmptyString => Ascii.eqb a (chr 10)
  | _ => false
  end.

Definition is_feed (a : option ascii) : bool := match a with Some a => Ascii.eqb a (chr 10) | None => true end.
Definition at_line_start (c : cursor) : bool := is_feed (before c).
Definition at_line_end (c : cursor) : bool := is_feed (head (rest c)).

Definition step_over (a : ascii) (t : string) (c : cursor) : cursor := {| before := Some a; rest := t; groups := groups c |}.

(** The group [n] closes at [c'], having been opened at [c]. *)
Definition close_group (n : nat) (c c' : cursor) : cursor :=
  {| before := before c'; rest := rest c';
     groups := (n, str_take (String.length (rest c) - String.length (rest c')) (rest c)) :: groups c' |}.

Definition shorter (c' c : cursor) : bool := (String.length (rest c') <? String.length (rest c))%nat.

Definition first_of {A} (x y : option A) : option A := match x with Some _ => x | None => y end.

(** [r*]: another round of [r], which consumes something, or the rest of the pattern. *)
Fixpoint star_loop {A} (run : cursor -> (cursor -> option A) -> option A) (greedy : bool) (k : cursor -> option A) (fuel : nat) (c : cursor)
    : option A :=
  match fuel with
  | O => k c
  | S fuel =>
      let more := run c (fun c' => if shorter c' c then star_loop run greedy k fuel c' else None) in
      if greedy then first_of more (k c) else first_of (k c) more
  end.

Fixpoint run {A} (r : re) (c : cursor) (k : cursor -> option A) : option A :=
  match r with
  | Empty => k c
  | Over p =>
      match rest c with
      | String a t => if p a then k (step_over a t c) else None
      | EmptyString => None
      end
  | Cat r1 r2 => run r1 c (fun c' => run r2 c' k)
  | Alt r1 r2 => first_of (run r1 c k) (run r2 c k)
  | Star greedy r => star_loop (run r) greedy k (S (String.length (rest c))) c
  | Group n r => run r c (fun c' => k (close_group n c c'))
  | Finish => if at_finish c then k c else None
  | LineStart => if at_line_start c then k c else None
  | LineEnd => if at_line_end c then k c else None
  | Edge => if at_edge c then k c else None
  | Ahead r => match run r c Some with Some _ => k c | None => None end
  end.

(** ** What a pattern matches *)
Inductive path : re -> cursor -> cursor -> Prop :=
| path_empty c : path Empty c c
| path_over p a t c : rest c = String a t -> p a = true -> path (Over p) c (step_over a t c)
| path_cat r1 r2 c c1 c2 : path r1 c c1 -> path r2 c1 c2 -> path (Cat r1 r2) c c2
| path_left r1 r2 c c' : path r1 c c' -> path (Alt r1 r2) c c'
| path_right r1 r2 c c' : path r2 c c' -> path (Alt r1 r2) c c'
| path_done greedy r c : path (Star greedy r) c c
| path_round greedy r c c1 c2 : path r c c1 -> shorter c1 c = true -> path (Star greedy r) c1 c2 -> path (Star greedy r) c c2
| path_group n r c c' : path r c c' -> path (Group n r) c (close_group n c c')
| path_finish c : at_finish c = true -> path Finish c c
| path_line_start c : at_line_start c = true -> path LineStart c c
| path_line_end c : at_line_end c = true -> path LineEnd c c
| path_edge c : at_edge c = true -> path Edge c c
| path_ahead r c c' : path r c c' -> path (Ahead r) c c.
#[export] Hint Constructors path : core.

Lemma first_of_Some {A} (x y : option A) a : first_of x y = Some a -> x = Some a \/ y = Some a.
Proof. destruct x; cbn; auto. Qed.

Lemma first_of_found {A} (x y : option A) : x <> None \/ y <> None -> first_of x y <> None.
Proof. destruct x; cbn; naive_solver. Qed.

(** What the matcher finds is a match. *)
Theorem run_path (r : re) : forall A c (k : cursor -> option A) a, run r c k = Some a -> exists c', path r c c' /\ k c' = Some a.
Proof.
  induction r as [|p|r1 IH1 r2 IH2|r1 IH1 r2 IH2|greedy r IH|n r IH| | | | |r IH]; cbn [run]; intros A c k a H.
  - by exists c.
  - destruct (rest c) as [|b t] eqn:E; [done|]. destruct (p b) eqn:Ep; [|done]. eauto.
  - apply IH1 in H as (c1 & H1 & H). apply IH2 in H as (c2 & H2 & H). eauto.
  - apply first_of_Some in H as [H|H]; [apply IH1 in H as (c1 & H1 & H)|apply IH2 in H as (c1 & H1 & H)]; eauto.
  - revert H. generalize (S (String.length (rest c))) as fuel. intros fuel. revert c.
    induction fuel as [|fuel IHf]; cbn [star_loop]; intros c H; [by eauto|].
    assert (k c = Some a \/ run r c (fun c' => if shorter c' c then star_loop (run r) greedy k fuel c' else None) = Some a) as [Hk|Hr]
      by (destruct greedy; apply first_of_Some in H; tauto); [by eauto|].
    apply IH in Hr as (c1 & H1 & Hr). destruct (shorter c1 c) eqn:Es; [|done]. apply IHf in Hr as (c2 & H2 & Hr). eauto.
  - apply IH in H as (c1 & H1 & H). eauto.
  - destruct (at_finish c) eqn:E; [|done]. eauto.
  - destruct (at_line_start c) eqn:E; [|done]. eauto.
  - destruct (at_line_end c) eqn:E; [|done]. eauto.
  - destruct (at_edge c) eqn:E; [|done]. eauto.
  - destruct (run r c Some) as [c1|] eqn:E; [|done]. apply IH in E as (c2 & H2 & _). eauto.
Qed.

(** If the pattern matches, and what follows agrees, the matcher finds a match. *)
Theorem run_finds (r : re) : forall A c c' (k : cursor -> option A), path r c c' -> k c' <> None -> run r c k <> None.
Proof.
  induction r as [|p|r1 IH1 r2 IH2|r1 IH1 r2 IH2|greedy r IH|n r IH| | | | |r IH]; cbn [run]; intros A c c' k Hp Hk.
  - by inversion Hp; subst.
  - inversion Hp as [|? a t ? E Ea| | | | | | | | | | |]; subst. by rewrite E, Ea.
  - inversion Hp; subst. eapply IH1; [done|]. by eapply IH2.
  - apply first_of_found. inversion Hp; subst; [left; by eapply IH1|right; by eapply IH2].
  - assert (String.length (rest c) < S (String.length (rest c)))%nat as Hf by lia. revert Hf.
    generalize (S (String.length (rest c))) as fuel. remember (Star greedy r) as star eqn:Es. induction Hp; try done.
    + intros [|fuel] _; cbn [star_loop]; [done|]. destruct greedy; apply first_of_found; auto.
    + injection Es as -> ->. intros [|fuel] Hf; [lia|]. cbn [star_loop].
      assert (run r c (fun c' => if shorter c' c then star_loop (run r) greedy k fuel c' else None) <> None).
      { eapply IH; [done|]. rewrite H. apply IHHp2; [done|done|]. unfold shorter in H. apply Nat.ltb_lt in H. lia. }
      destruct greedy; apply first_of_found; auto.
  - inversion Hp; subst. by eapply IH.
  - inversion Hp as [| | | | | | | |? E| | | |]; subst. by rewrite E.
  - inversion Hp as [| | | | | | | | |? E| | |]; subst. by rewrite E.
  - inversion Hp as [| | | | | | | | | |? E| |]; subst. by rewrite E.
  - inversion Hp as [| | | | | | | | | | |? E|]; subst. by rewrite E.
  - inversion Hp; subst. destruct (run r c' Some) eqn:E; [done|]. exfalso. by eapply (IH _ _ _ Some).
Qed.

(** A match consumes a prefix of the text. *)
Lemma path_suffix r c c' : path r c c' -> exists w, rest c = w +:+ rest c'.
Proof.
  induction 1; try (by exists ""); try done.
  - by exists (str1 a).
  - destruct IHpath1 as [w1 E1], IHpath2 as [w2 E2]. exists (w1 +:+ w2). by rewrite E1, E2, app_assoc_str.
  - destruct IHpath1 as [w1 E1], IHpath2 as [w2 E2]. exists (w1 +:+ w2). by rewrite E1, E2, app_assoc_str.
Qed.

(** Every character the pattern consumes satisfies [P]. *)
Fixpoint over_all (P : ascii -> Prop) (r : re) : Prop :=
  match r with
  | Over p => forall a, p a = true -> P a
  | Cat r1 r2 | Alt r1 r2 => over_all P r1 /\ over_all P r2
  | Star _ r | Group _ r => over_all P r
  | _ => True
  end.

Fixpoint str_all (P : ascii -> Prop) (s : string) : Prop :=
  match s with
  | EmptyString => True
  | String a t => P a /\ str_all P t
  end.

Lemma str_all_app P s t : str_all P (s +:+ t) <-> str_all P s /\ str_all P t.
Proof. induction s as [|a s IH]; cbn; [tauto|]. change (String.append s t) with (s +:+ t). rewrite IH. tauto. Qed.

Lemma str_all_forallb p s : str_forallb p s = true <-> str_all (fun a => p a = true) s.
Proof. induction s as [|a s IH]; cbn; [done|]. by rewrite andb_true_iff, IH. Qed.

Lemma path_over_all P r c c' : path r c c' -> over_all P r -> exists w, rest c = w +:+ rest c' /\ str_all P w.
Proof.
  induction 1 as [c|p a t c E Ep|r1 r2 c c1 c2 H1 IH1 H2 IH2|r1 r2 c c' H IH|r1 r2 c c' H IH|greedy r c|greedy r c c1 c2 H1 IH1 Hs H2 IH2
    |n r c c' H IH| | | | |]; cbn [over_all]; intros Hr; try (by exists "").
  - exists (str1 a). cbn. auto.
  - destruct Hr as [Hr1 Hr2]. destruct (IH1 Hr1) as (w1 & E1 & P1), (IH2 Hr2) as (w2 & E2 & P2).
    exists (w1 +:+ w2). rewrite E1, E2, app_assoc_str, str_all_app. auto.
  - by apply IH, Hr.
  - by apply IH, Hr.
  - destruct (IH1 Hr) as (w1 & E1 & P1), (IH2 Hr) as (w2 & E2 & P2).
    exists (w1 +:+ w2). rewrite E1, E2, app_assoc_str, str_all_app. auto.
  - by apply IH.
Qed.

(** The most characters a pattern without repetition consumes. *)
Fixpoint width (r : re) : option nat :=
  match r with
  | Over _ => Some 1%nat
  | Cat r1 r2 => match width r1, width r2 with Some n1, Some n2 => Some (n1 + n2)%nat | _, _ => None end
  | Alt r1 r2 => match width r1, width r2 with Some n1, Some n2 => Some (Nat.max n1 n2) | _, _ => None end
  | Star _ _ => None
  | Group _ r => width r
  | _ => Some 0%nat
  end.

Lemma path_width r c c' : path r c c' -> forall n, width r = Some n -> (String.length (rest c) <= n + String.length (rest c'))%nat.
Proof.
  induction 1; cbn [width]; intros m Hm; try discriminate; try (injection Hm as <-; lia).
  - injection Hm as <-. rewrite H. cbn. lia.
  - destruct (width r1) as [n1|]; [|done]. destruct (width r2) as [n2|]; [|done]. injection Hm as <-.
    specialize (IHpath1 _ eq_refl). specialize (IHpath2 _ eq_refl). lia.
  - destruct (width r1) as [n1|]; [|done]. destruct (width r2) as [n2|]; [|done]. injection Hm as <-.
    specialize (IHpath _ eq_refl). lia.
  - destruct (width r1) as [n1|]; [|done]. destruct (width r2) as [n2|]; [|done]. injection Hm as <-.
    specialize (IHpath _ eq_refl). lia.
  - apply IHpath in Hm. cbn. lia.
Qed.

(** ** Abbreviations of patterns *)
Fixpoint lit (s : string) : re :=
  match s with
  | EmptyString => Empty
  | String a t => Cat (Over (Ascii.eqb a)) (lit t)
  end.

(** [(?i)] of a text of letters. *)
Fixpoint lit_any_case (s : string) : re :=
  match s with
  | EmptyString => Empty
  | String a t => Cat (Over (fun b => Ascii.eqb (lower_char a) (lower_char b))) (lit_any_case t)
  end.

Definition many (r : re) : re := Star true r.
Definition some (r : re) : re := Cat r (many r).
Definition opt (r : re) : re := Alt r Empty.
Definition some_lazy (r : re) : re := Cat r (Star false r).
Fixpoint times (n : nat) (r : re) : re := match n with O => Empty | S n => Cat r (times n r) end.
Fixpoint up_to (n : nat) (r : re) : re := match n with O => Empty | S n => opt (Cat r (up_to n r)) end.
Definition cats (rs : list re) : re := foldr Cat Empty rs.

Definition digit : re := Over is_ascii_digit.
Definition space : re := Over is_space.
Definition nonspace : re := Over (fun a => negb (is_space a)).
Definition any : re := Over (fun a => negb (Ascii.eqb a (chr 10))).
Definition but (c : ascii) : re := Over (fun a => negb (Ascii.eqb a c)).
Definition is_lower_hex (a : ascii) : bool := is_ascii_digit a || ((97 <=? code a) && (code a <=? 102)).
Definition is_alnum (a : ascii) : bool :=
  is_ascii_digit a || ((65 <=? code a) && (code a <=? 90)) || ((97 <=? code a) && (code a <=? 122)).

(** ** The functions of [re] *)
Definition from_start (s : string) : cursor := {| before := None; rest := s; groups := [] |}.

(** [re.match(r, s)]: where it ended. *)
Definition re_match (r : re) (s : string) : option cursor := run r (from_start s) Some.

Definition re_fullmatch (r : re) (s : string) : option cursor :=
  run r (from_start s) (fun c => if String.eqb (rest c) "" then Some c else None).

(** [re.search(r, s)]: from the first position where the pattern matches. *)
Fixpoint search_from (r : re) (b : option ascii) (s : string) : option cursor :=
  match run r {| before := b; rest := s; groups := [] |} Some with
  | Some c => Some c
  | None => match s with
            | EmptyString => None
            | String a t => search_from r (Some a) t
            end
  end.

Definition re_search (r : re) (s : string) : option cursor := search_from r None s.

Definition matched (m : option cursor) : bool := match m with Some _ => true | None => false end.

(** [m[n]] of a group that took part in the match. *)
Definition group (n : nat) (c : cursor) : string :=
  match List.find (fun g => Nat.eqb g.1 n) (groups c) with
  | Some g => g.2
  | None => ""
  end.

(** [re.findall(r, s)] for a pattern with one group that matches no empty text: each search starts where
    the last one ended. *)
Fixpoint findall_from (r : re) (fuel : nat) (b : option ascii) (s : string) : list string :=
  match fuel with
  | O => []
  | S fuel =>
      match search_from r b s with
      | Some c => group 1 c :: findall_from r fuel (before c) (rest c)
      | None => []
      end
  end.

Definition re_findall (r : re) (s : string) : list string := findall_from r (S (String.length s)) None s.

Lemma fullmatch_path r s : matched (re_fullmatch r s) = true <-> exists c, path r (from_start s) c /\ rest c = "".
Proof.
  unfold re_fullmatch. split.
  - destruct (run _ _ _) as [c|] eqn:E; [|done]. intros _. apply run_path in E as (c' & H & E). destruct (String.eqb_spec (rest c') "") as [Hr|]; [|done].
    by exists c'.
  - intros (c & H & Hr). pose proof (run_finds _ _ _ _ (fun c => if String.eqb (rest c) "" then Some c else None) H) as Hf. cbv beta in Hf.
    rewrite Hr in Hf. cbn in Hf. destruct (run _ _ _); [done|]. by destruct Hf.
Qed.

(** A search finds a place in the text where the pattern matches. *)
Lemma search_path r b s c : search_from r b s = Some c -> exists pre c0, s = pre +:+ rest c0 /\ path r c0 c.
Proof.
  revert b. induction s as [|a t IH]; intros b; cbn [search_from]; destruct (run _ _ _) as [c'|] eqn:E.
  - intros [= ->]. apply run_path in E as (c1 & H & [= ->]). by exists "", {| before := b; rest := ""; groups := [] |}.
  - done.
  - intros [= ->]. apply run_path in E as (c1 & H & [= ->]). by exists "", {| before := b; rest := String a t; groups := [] |}.
  - intros H. apply IH in H as (pre & c0 & -> & H). by exists (String a pre), c0.
Qed.

