(* ===== verification/Fabric.v ===== *)
(** [scripts/]: what is rendered of the canonical fabric intent ([intent/fabric.yaml]): the containerlab
    topology of Path A ([render_fabric.py]), the Ansible inventory of Path B ([render_vm_inventory.py]),
    the Batfish configurations ([render_batfish_snapshot.py]); and the settings file all of them share
    ([env_exec.py]).

    [yaml.safe_load] gives the intent and [yaml.dump] prints a rendered value: both are outside, the dump
    a parameter.  The keys of a mapping are text, so a bridge is named by a text. *)

From S2P Require Import Prelude PyText PyNum PyTime PyJson JsonText Policy Compliance.

Definition FRR_IMAGE : string := "quay.io/frrouting/frr@sha256:f310c2ebb3827fa03b9674ee05e70a7d5eef2123bcc3b475eb2ef14dafcb52b4".
Definition TOOLS_IMAGE : string := "wbitt/network-multitool@sha256:db2810fe2c8d36db074eab5d98fbf861c8ed55e0786d648d3477b3de9135632e".
Definition ALPINE_IMAGE : string := "alpine@sha256:d9e853e87e55526f6b2917df91a2115c36dd7c696a35be12163d44e6e2a4b6bc".

(** ** Python values *)

(** [for x in v]. *)
Fixpoint characters (s : string) : list val :=
  match s with
  | EmptyString => []
  | String a r => VStr (str1 a) :: characters r
  end.

Definition elements_of (v : val) : result (list val) :=
  match v with
  | VList l => Ok l
  | VDict d => Ok (map VStr (keys d))
  | VStr s => Ok (characters s)
  | _ => Err (TypeError "object is not iterable")
  end.

(** [v.items()] and [v.get(k, otherwise)]. *)
Definition items_of (v : val) : result mapping :=
  match v with
  | VDict d => Ok d
  | _ => Err (AttributeError "items")
  end.

Definition node_of (v : val) : result mapping :=
  match v with
  | VDict d => Ok d
  | _ => Err (TypeError "indices must be integers")
  end.

(** [v in {...}] of texts. *)
Definition member_of (names : list string) (v : val) : result bool :=
  raise_if (negb (is_hashable v)) (TypeError "unhashable type") ;;? Ok (existsb (fun n => py_eq v (VStr n)) names).

Definition key_text (v : val) : result string :=
  match v with
  | VStr s => Ok s
  | _ => Err (TypeError "a key is text")
  end.

Definition list_at (k : string) (node : mapping) : result (list val) := elements_of (default (VList []) (assoc k node)).

Definition quote : string := str1 (chr 39).

(** ** [render_fabric.py] *)
Definition shell (command : string) : string := "sh -c " +:+ quote +:+ command +:+ quote.

Definition address_command (index : Z) (attachment : val) : result string :=
  let? address := subscript "address" attachment in
  Ok (shell ("ip address replace " +:+ str_val address +:+ " dev eth" +:+ str_of_Z index)).

Definition route_command (route : val) : result string :=
  let? to_ := subscript "to" route in
  let? via := subscript "via" route in
  Ok (shell ("ip route replace " +:+ str_val to_ +:+ " via " +:+ str_val via)).

Definition shell_commands (node : mapping) : result (list string) :=
  let? attachments := list_at "attachments" node in
  let? addresses := mapiR address_command 1 attachments in
  let? routes := list_at "routes" node in
  let? routes := mapR route_command routes in
  Ok (addresses ++ routes).

(** The rule that keeps what arrives on a data interface out of the management subnet. *)
Definition forward_guard (subnet : string) (index : Z) : string :=
  let priority := str_of_Z (11000 + index) in
  shell ("ip rule del pref " +:+ priority +:+ " 2>/dev/null || true; ip rule add pref " +:+ priority +:+ " iif eth" +:+ str_of_Z index
         +:+ " to " +:+ subnet +:+ " prohibit").

Fixpoint from_index {A B} (f : Z -> A -> B) (i : Z) (l : list A) : list B :=
  match l with
  | [] => []
  | x :: r => f i x :: from_index f (i + 1) r
  end.

Definition management_forward_guards (node : mapping) (management_subnet : string) : result (list string) :=
  let? attachments := list_at "attachments" node in
  Ok (from_index (fun index _ => forward_guard management_subnet index) 1 attachments).

Definition ENFORCER_TABLES : list (string * string) := [("fw-core", "cxyz"); ("fw-dmz", "dmz")].
Definition ENFORCER_PORT : Z := 9443.

Definition enforcer_binds (name : string) : list string :=
  ["../docker/enforcer/nft_enforcer.py:/opt/cxyz/nft_enforcer.py:ro";
   "../soc/certs/enforcer-" +:+ name +:+ ".crt:/etc/cxyz/enforcer/tls.crt:ro";
   "../soc/certs/enforcer-" +:+ name +:+ ".key:/etc/cxyz/enforcer/tls.key:ro";
   "../soc/certs/ca.crt:/etc/cxyz/enforcer/ca.crt:ro"].

Definition enforcer_command (name mgmt_ip : string) : result string :=
  match assoc name ENFORCER_TABLES with
  | Some table =>
      Ok (shell ("nohup python3 /opt/cxyz/nft_enforcer.py --listen " +:+ mgmt_ip +:+ " --port " +:+ str_of_Z ENFORCER_PORT +:+
        " --cert /etc/cxyz/enforcer/tls.crt --key /etc/cxyz/enforcer/tls.key --client-ca /etc/cxyz/enforcer/ca.crt" +:+
        " --allowed-client soc-response --table " +:+ table +:+ " --set soc_blocklist >/var/log/cxyz-enforcer.log 2>&1 &"))
  | None => Err (KeyError name)
  end.

Definition texts (l : list string) : val := VList (map VStr l).

Definition router_definition (name : string) (node : mapping) (rendered : mapping) (management_subnet : string) : result mapping :=
  let? guards := management_forward_guards node management_subnet in
  let? commands := shell_commands node in
  let binds := ["runtime-configs/" +:+ name +:+ ".frr.conf:/etc/frr/frr.conf:ro"; "runtime-configs/frr-daemons:/etc/frr/daemons:ro"] in
  let vrrp := str_in name ["dist1"; "dist2"] in
  Ok (rendered ++ [("image", VStr FRR_IMAGE);
    ("binds", texts (binds ++ if vrrp then ["configs/frr-vrrp-bootstrap.sh:/usr/local/bin/cxyz-frr-start:ro"] else []));
    ("exec", texts (["sysctl -w net.ipv4.ip_forward=1"] ++ guards ++ commands))]
    ++ if vrrp then [("cmd", VStr "bash /usr/local/bin/cxyz-frr-start")] else []).

Definition firewall_definition (name : string) (node : mapping) (rendered : mapping) (mgmt_ip : val) : result mapping :=
  let? commands := shell_commands node in
  let? agent := enforcer_command name (str_val mgmt_ip) in
  Ok (rendered ++ [("image", VStr TOOLS_IMAGE); ("binds", texts (("configs/" +:+ name +:+ ".nft:/etc/nftables/policy.nft:ro") :: enforcer_binds name));
    ("exec", texts (["apk add --no-cache python3 rsyslog rsyslog-tls nftables"; "mkdir -p /etc/rsyslog.d /etc/ssh/sshd_config.d"; "sysctl -w net.ipv4.ip_forward=1"]
                    ++ commands ++ ["nft -f /etc/nftables/policy.nft"; agent]))]).

Definition endpoint_definition (name : string) (node : mapping) (rendered : mapping) : result mapping :=
  let? commands := shell_commands node in
  if String.eqb name "server1" then Ok (rendered ++ [("image", VStr "cxyz/server1:local"); ("exec", texts commands)])
  else
    let packages := "python3 rsyslog rsyslog-tls netcat-openbsd" +:+ (if str_in name ["pc1"; "pc4"] then " freeradius-utils" else "") in
    Ok (rendered ++ [("image", VStr TOOLS_IMAGE);
      ("exec", texts (["apk add --no-cache " +:+ packages; "mkdir -p /etc/rsyslog.d /etc/ssh/sshd_config.d"] ++ commands
                      ++ if truthy (get "disable_management_after_boot" node) then [shell "ip link set eth0 down"] else []))]).

Definition node_definition (name : string) (node : val) (management_subnet : string) : result mapping :=
  let? node := node_of node in
  let? role := item "role" node in
  let? mgmt_ip := item "mgmt_ip" node in
  let rendered := [("kind", VStr "linux"); ("mgmt-ipv4", mgmt_ip)] in
  let? routed := member_of ["router"; "isp"] role in
  if routed : bool then router_definition name node rendered management_subnet
  else if py_eq role (VStr "firewall") then firewall_definition name node rendered mgmt_ip
  else endpoint_definition name node rendered.

(** *** Links *)

Definition add_bridge (nodes : mapping) (entry : string * val) : result mapping :=
  let? link := node_of entry.2 in
  let? kind := item "kind" link in
  if py_eq kind (VStr "lan") then
    let? bridge := item "bridge" link in
    Ok (assoc_set (str_val bridge +:+ "|access-switch") (VDict [("kind", VStr "bridge"); ("network-mode", VStr "container:access-switch")]) nodes)
  else if py_eq kind (VStr "external_bridge") then
    let? bridge := item "bridge" link in
    let? name := key_text bridge in
    Ok (assoc_set name (VDict [("kind", VStr "bridge")]) nodes)
  else Ok nodes.

(** The interfaces attached to each link, in the order of the nodes. *)
Definition members := list (string * list (string * Z)).

Definition add_member (node_name : string) (acc : members * Z) (attachment : val) : result (members * Z) :=
  let '(attached, index) := acc in
  let? link := subscript "link" attachment in
  let? link := key_text link in
  match assoc link attached with
  | Some l => Ok (assoc_set link (l ++ [(node_name, index)]) attached, index + 1)
  | None => Err (KeyError link)
  end.

Definition add_members (attached : members) (entry : string * val) : result members :=
  let? node := node_of entry.2 in
  let? attachments := list_at "attachments" node in
  let? r := foldR (add_member entry.1) (attached, 1) attachments in
  Ok r.1.

Definition device_end (member : string * Z) : string := member.1 +:+ ":eth" +:+ str_of_Z member.2.

Definition endpoints (ends : list string) : val := VDict [("endpoints", texts ends)].

Definition link_ends (attached : members) (entry : string * val) : result (list (list string)) :=
  let '(link_name, link) := entry in
  let? link := node_of link in
  let? kind := item "kind" link in
  let members := default [] (assoc link_name attached) in
  if py_eq kind (VStr "p2p") then
    match members with
    | [a; b] => Ok [[device_end a; device_end b]]
    | _ => Err (ValueError ("p2p link " +:+ link_name +:+ " has " +:+ str_of_Z (Z.of_nat (length members)) +:+ " endpoints"))
    end
  else
    let? bridge := item "bridge" link in
    let bridge_node := str_val bridge +:+ (if py_eq kind (VStr "lan") then "|access-switch" else "") in
    Ok (from_index (fun index member => [device_end member; bridge_node +:+ ":" +:+ link_name +:+ "-" +:+ str_of_Z index]) 1 members).

Record Topology : Type := {
  topology_name : val;
  network : val;
  subnet : val;
  gateway : val;
  nodes : mapping;
  links : list (list string) }.

Definition topology_of (intent : mapping) : result Topology :=
  let? name := item "name" intent in
  let? management := item "management" intent in
  let? network := subscript "network" management in
  let? subnet := subscript "subnet" management in
  let? gateway := subscript "gateway" management in
  let? intent_nodes := rbind (item "nodes" intent) items_of in
  let? defined := foldR (fun nodes entry => let? d := node_definition entry.1 entry.2 (str_val subnet) in Ok (assoc_set entry.1 (VDict d) nodes)) [] intent_nodes in
  let defined := assoc_set "access-switch" (VDict [("kind", VStr "linux"); ("image", VStr ALPINE_IMAGE); ("cmd", VStr "sleep infinity")]) defined in
  let? intent_links := rbind (item "links" intent) items_of in
  let? nodes := foldR add_bridge defined intent_links in
  let? attached := foldR add_members (map (fun entry => (entry.1, [])) intent_links) intent_nodes in
  let? ends := mapR (link_ends attached) intent_links in
  Ok {| topology_name := name; network := network; subnet := subnet; gateway := gateway; nodes := nodes; links := concat ends |}.

Definition topology_value (t : Topology) : val :=
  VDict [("name", topology_name t); ("mgmt", VDict [("network", network t); ("ipv4-subnet", subnet t); ("ipv4-gw", gateway t)]);
         ("topology", VDict [("nodes", VDict (nodes t)); ("links", VList (map endpoints (links t)))])].

Section dump.
(** [yaml.dump(value, sort_keys=False)]. *)
Variable dump : val -> string.

Definition newline : string := str1 (chr 10).

Definition render (intent : mapping) : result string :=
  let? t := topology_of intent in
  let body := dump (topology_value t) in
  let start := "---" +:+ newline in
  Ok ("# GENERATED by scripts/render_fabric.py from intent/fabric.yaml." +:+ newline +:+
      "# Do not edit addressing or links here; edit the canonical intent." +:+ newline +:+ start +:+
      (if starts_with start body then str_skip 4 body else body)).

(** [main]: what it writes, or, with [--check], whether the file is what would be written. *)
Definition check_rendered (intent : mapping) (current : option string) : result Z :=
  let? rendered := render intent in Ok (if String.eqb (default "" current) rendered then 0 else 1).
End dump.

(** ** [render_vm_inventory.py] *)
Definition role_in (names : list string) (entry : string * val) : result bool :=
  let? role := subscript "role" entry.2 in member_of names role.
Definition role_is (name : string) (entry : string * val) : result bool :=
  let? role := subscript "role" entry.2 in Ok (py_eq role (VStr name)).

Definition hosts (nodes : mapping) (names : list string) : result mapping :=
  mapR (fun name => let? node := item name nodes in let? ip := subscript "mgmt_ip" node in Ok (name, VDict [("ansible_host", ip)])) names.

Definition is_false (v : val) : bool := match v with VBool false => true | _ => false end.

Definition first_of (v : val) : result val :=
  match v with
  | VList (x :: _) => Ok x
  | VList [] => Err (IndexError "list index out of range")
  | VDict _ => Err (KeyError "0")
  | VStr (String a _) => Ok (VStr (str1 a))
  | VStr EmptyString => Err (IndexError "string index out of range")
  | _ => Err (TypeError "object is not subscriptable")
  end.

(** [text.split("/", 1)[0]]. *)
Definition before_slash (s : string) : string := (partition_on "/" s).1.1.

Definition endpoint_host (nodes : mapping) (name : string) : result (string * val) :=
  let? v := item name nodes in
  let? node := node_of v in
  let proxy := get "path_b_proxy" node in
  raise_if (negb (is_false (default (VBool true) (assoc "path_b_management" node))) || negb (truthy proxy))
    (ValueError (name +:+ ": Path B endpoint must disable management and declare path_b_proxy")) ;;?
  let? attachments := item "attachments" node in
  let? first := first_of attachments in
  let? address := subscript "address" first in
  let? proxy := key_text proxy in
  let? via := item proxy nodes in
  let? ip := subscript "mgmt_ip" via in
  Ok (name, VDict [("ansible_host", VStr (before_slash (str_val address)));
                   ("ansible_ssh_common_args", VStr ("-o ProxyJump=vyos@" +:+ str_val ip))]).

Definition endpoint_hosts (nodes : mapping) (names : list string) : result mapping := mapR (endpoint_host nodes) names.

Record Inventory : Type := {
  vyos_routers : mapping;
  vyos_firewalls : mapping;
  clients : mapping;
  servers : mapping;
  dmz_hosts : mapping }.

Definition inventory_of (intent : mapping) : result Inventory :=
  let? nodes := rbind (item "nodes" intent) items_of in
  let? routers := filterR (role_in ["router"; "isp"]) nodes in
  let? firewalls := filterR (role_is "firewall") nodes in
  let? linux := filterR (role_is "endpoint") nodes in
  let linux := keys linux in
  let client_names := List.filter (starts_with "pc") linux in
  let server_names := List.filter (fun name => String.eqb name "server1") linux in
  let dmz_names := List.filter (fun name => negb (str_in name (client_names ++ server_names))) linux in
  let? routers := hosts nodes (keys routers) in
  let? firewalls := hosts nodes (keys firewalls) in
  let? clients := endpoint_hosts nodes client_names in
  let? servers := endpoint_hosts nodes server_names in
  let? dmz := endpoint_hosts nodes dmz_names in
  Ok {| vyos_routers := routers; vyos_firewalls := firewalls; clients := clients; servers := servers; dmz_hosts := dmz |}.

Definition vyos_vars : val :=
  VDict [("ansible_connection", VStr "ansible.netcommon.network_cli"); ("ansible_network_os", VStr "vyos.vyos.vyos"); ("ansible_user", VStr "vyos")].
Definition linux_vars : val :=
  VDict [("ansible_connection", VStr "ssh"); ("ansible_user", VStr "ansible"); ("ansible_become", VBool true); ("ansible_become_method", VStr "sudo")].

Definition inventory_value (i : Inventory) : val :=
  VDict [("all", VDict [("children", VDict
    [("network_devices", VDict [("children", VDict
        [("vyos_routers", VDict [("vars", vyos_vars); ("hosts", VDict (vyos_routers i))]);
         ("vyos_firewalls", VDict [("vars", vyos_vars); ("hosts", VDict (vyos_firewalls i))])])]);
     ("linux_nodes", VDict [("vars", linux_vars); ("children", VDict
        [("clients", VDict [("hosts", VDict (clients i))]); ("servers", VDict [("hosts", VDict (servers i))]);
         ("dmz_hosts", VDict [("hosts", VDict (dmz_hosts i))])])])])])].

Definition render_inventory (dump : val -> string) (intent : mapping) : result string :=
  let? i := inventory_of intent in
  Ok ("# GENERATED by scripts/render_vm_inventory.py from intent/fabric.yaml." +:+ newline +:+
      "# Verify endpoint data-plane and ProxyJump host keys into inventory/known_hosts before vm-configure." +:+ newline +:+
      "---" +:+ newline +:+ dump (inventory_value i)).

(** ** [render_batfish_snapshot.py] *)

(** The address of the first attachment of the node to the link. *)
Fixpoint attached_address (link : string) (attachments : list val) : result val :=
  match attachments with
  | [] => Err (RuntimeError "StopIteration")
  | a :: rest =>
      let? l := subscript "link" a in
      if py_eq l (VStr link) then subscript "address" a else attached_address link rest
  end.

Definition address (intent : mapping) (node link : string) : result val :=
  let? nodes := item "nodes" intent in
  let? node := subscript node nodes in
  let? attachments := rbind (subscript "attachments" node) elements_of in
  attached_address link attachments.

Definition ios_interface (name ip : string) (acl : option string) : string :=
  str_join newline (["interface " +:+ name; " ip address " +:+ replace_char "/" " " ip; " no shutdown"]
    ++ match acl with Some a => [" ip access-group " +:+ a +:+ " in"] | None => [] end).

(** The four bytes of the mask, most significant first. *)
Definition mask_of (prefix : Z) : result Z :=
  raise_if (32 - prefix <? 0) (ValueError "negative shift count") ;;? Ok (Z.land (Z.shiftl 4294967295 (32 - prefix)) 4294967295).

Definition dotted (mask : Z) : string := str_join "." (map (fun shift => str_of_Z (Z.land (Z.shiftr mask shift) 255)) [24; 16; 8; 0]).

Definition prefix_to_mask (value : string) : result string :=
  match split_on "/" value with
  | [address_value; prefix] =>
      let? prefix := int_of_text prefix in
      let? mask := mask_of prefix in
      Ok (address_value +:+ " " +:+ dotted mask)
  | _ => Err (ValueError "not enough or too many values to unpack (expected 2)")
  end.

Definition interface_of (intent : mapping) (name node link : string) (acl : option string) : result string :=
  let? value := address intent node link in
  match value with
  | VStr s => let? ip := prefix_to_mask s in Ok (ios_interface name ip acl)
  | _ => Err (AttributeError "split")
  end.

Definition render_snapshot (intent : mapping) : result (list (string * string)) :=
  let? d0 := interface_of intent "Ethernet0" "dist1" "core_dist1" None in
  let? d1 := interface_of intent "Ethernet1" "dist1" "vlan10" None in
  let? c0 := interface_of intent "Ethernet0" "core" "fwcore_core" None in
  let? c1 := interface_of intent "Ethernet1" "core" "core_dist1" None in
  let? f0 := interface_of intent "Ethernet0" "fw-core" "edge_fwcore" None in
  let? f1 := interface_of intent "Ethernet1" "fw-core" "fwcore_core" (Some "CAMPUS_IN") in
  let? f2 := interface_of intent "Ethernet2" "fw-core" "dc" None in
  Ok [("dist1.cfg", str_join newline ["hostname dist1"; d0; d1; "ip route 0.0.0.0 0.0.0.0 10.255.1.0"; ""]);
      ("core.cfg", str_join newline ["hostname core"; c0; c1; "ip route 192.168.10.0 255.255.255.0 10.255.1.1";
                                     "ip route 172.16.50.0 255.255.255.0 10.255.0.5"; ""]);
      ("fw-core.cfg", str_join newline ["hostname fw-core"; f0; f1; f2; "ip route 192.168.10.0 255.255.255.0 10.255.0.6";
         "ip access-list extended CAMPUS_IN"; " permit udp 192.168.10.0 0.0.0.255 172.16.50.0 0.0.0.255 eq 53";
         " permit udp 192.168.10.0 0.0.0.255 172.16.50.0 0.0.0.255 eq 123"; " permit tcp 192.168.10.0 0.0.0.255 host 172.16.50.10 range 1514 1515";
         " deny udp 192.168.10.0 0.0.0.255 host 172.16.50.1 eq 1812 log"; " deny ip 192.168.10.0 0.0.0.255 172.16.50.0 0.0.0.255 log";
         " permit ip 192.168.0.0 0.0.255.255 any"; ""])].

(** [main --check]: the files that are missing or differ, and those that should not be there. *)
Definition snapshot_drift (rendered current : list (string * string)) : list string :=
  map fst (List.filter (fun f => negb (match assoc f.1 current with Some text => String.eqb text f.2 | None => false end)) rendered)
  ++ List.filter (fun name => negb (str_in name (map fst rendered))) (map fst current).

(** ** [env_exec.py] *)
Definition is_line_break (a : ascii) : bool :=
  let c := code a in ((10 <=? c) && (c <=? 13)) || ((28 <=? c) && (c <=? 30)) || (c =? 133).

(** [text.splitlines()]: a carriage return with its line feed is one break; no last empty line. *)
Fixpoint lines_from (line : string) (s : string) : list string :=
  match s with
  | EmptyString => if String.eqb line "" then [] else [line]
  | String a r =>
      if is_line_break a then
        line :: match r with
                | String b t => if Ascii.eqb a (chr 13) && Ascii.eqb b (chr 10) then lines_from "" t else lines_from "" r
                | EmptyString => []
                end
      else lines_from (line +:+ str1 a) r
  end.
Definition splitlines : string -> list string := lines_from "".

(** [KEY.fullmatch(key)]. *)
Definition is_letter (a : ascii) : bool :=
  let c := code a in ((65 <=? c) && (c <=? 90)) || ((97 <=? c) && (c <=? 122)) || (c =? 95).
Definition is_key (s : string) : bool :=
  match s with
  | EmptyString => false
  | String a r => is_letter a && str_forallb (fun c => is_letter c || is_ascii_digit c) r
  end.

(** [re.match(r"\s+#", value)]. *)
Definition only_comment (value : string) : bool :=
  match value with
  | String a _ => is_space a && match lstrip value with String b _ => Ascii.eqb b "#" | EmptyString => false end
  | EmptyString => false
  end.

(** [value[:re.search(r"\s#", value).start()]], or all of it. *)
Fixpoint before_comment (s : string) : string :=
  match s with
  | EmptyString => s
  | String a r =>
      if is_space a && match r with String b _ => Ascii.eqb b "#" | EmptyString => false end then "" else String a (before_comment r)
  end.

Definition _clean_value (value : string) : string :=
  if only_comment value then ""
  else
    let value := strip value in
    match value with
    | String q rest =>
        if Ascii.eqb q (chr 39) || Ascii.eqb q dquote then
          let '(inside, closed, _) := partition_on q rest in if closed : bool then inside else value
        else let kept := before_comment value in if String.eqb kept value then value else rstrip kept
    | EmptyString => ""
    end.

Definition dotenv_line (path : string) (acc : list (string * string) * Z) (raw : string) : result (list (string * string) * Z) :=
  let '(values, number) := acc in
  let line := strip raw in
  if String.eqb line "" || starts_with "#" line then Ok (values, number + 1)
  else
    let '(key, separator, value) := partition_on "=" line in
    let key := strip key in
    raise_if (negb separator || negb (is_key key)) (ValueError (path +:+ ":" +:+ str_of_Z number +:+ ": invalid dotenv assignment")) ;;?
    Ok (assoc_set key (_clean_value value) values, number + 1).

Definition parse_dotenv (path text : string) : result (list (string * string)) :=
  let? r := foldR (dotenv_line path) ([], 1) (splitlines text) in Ok r.1.

(** What [main] runs the command with: the process's environment with the file's values over it;
    [expand]: a path with its [~] replaced. *)
Definition expanded (expand : string -> string) (kv : string * string) : string * string :=
  (kv.1, if ends_with "_FILE" kv.1 && starts_with "~" kv.2 then expand kv.2 else kv.2).

Definition command_environment (expand : string -> string) (environ values : list (string * string)) : list (string * string) :=
  fold_left (fun d kv => assoc_set kv.1 kv.2 d) (map (expanded expand) values) environ.

(** ** [demo_registry.py]: [update_env] *)

(** A line whose key is still to be set is replaced and its key taken from what remains. *)
Definition update_line (acc : list string * list (string * string)) (line : string) : list string * list (string * string) :=
  let '(out, remaining) := acc in
  let key := strip (partition_on "=" line).1.1 in
  match assoc key remaining with
  | Some value => if starts_with "#" (lstrip line) then (out ++ [line], remaining) else (out ++ [key +:+ "=" +:+ value], assoc_del key remaining)
  | None => (out ++ [line], remaining)
  end.

(** The new text of the file; without a file there are no lines. *)
Definition update_env (text : string) (values : list (string * string)) : string :=
  let '(out, remaining) := fold_left update_line (splitlines text) ([], values) in
  str_join newline (out ++ map (fun kv => kv.1 +:+ "=" +:+ kv.2) remaining) +:+ newline.

(** ** [render_path_b_vars.py] *)
Definition strong (value : string) : bool := (24 <=? str_len value) && negb (starts_with "CHANGE_ME" value).

(** [text.split()]. *)
Fixpoint words_from (word : string) (s : string) : list string :=
  match s with
  | EmptyString => if String.eqb word "" then [] else [word]
  | String a r => if is_space a then (if String.eqb word "" then [] else [word]) ++ words_from "" r else words_from (word +:+ str1 a) r
  end.
Definition split_words : string -> list string := words_from "".

(** [key_file]: the text of the file a path names, when it is there. *)
Definition load_public_key (key_file : string -> option string) (path : string) : result string :=
  match key_file path with
  | None => Err (SystemExit ("Path B SSH public key file not found: " +:+ path))
  | Some text =>
      match split_words (strip text) with
      | kind :: body :: _ =>
          raise_if (negb (existsb (fun p => starts_with p kind) ["ssh-"; "ecdsa-"; "sk-"])) (SystemExit ("Unsupported SSH public key format in " +:+ path)) ;;?
          Ok (kind +:+ " " +:+ body)
      | _ => Err (SystemExit ("Unsupported SSH public key format in " +:+ path))
      end
  end.

Definition path_b_vars (key_file : string -> option string) (env : list (string * string)) : result (list Z) :=
  let path := default "" (assoc "PATH_B_SSH_PUBLIC_KEY_FILE" env) in
  raise_if (String.eqb path "") (SystemExit "PATH_B_SSH_PUBLIC_KEY_FILE is not set in .env") ;;?
  let? key := load_public_key key_file path in
  Ok (json_file (VDict [("ssh_public_key", VStr key)])).
