(* ===== verification/FeatureWorker.v ===== *)
(** [soc/workers/features.py]: the closed five-minute windows, their vectors, and the ledger of what
    became of each window.

    The worker's state is its private ledger and the world behind Elasticsearch and the clock. *)

From S2P Require Import Prelude PyText PyNum PyTime PyJson Sha256 Policy Decision Effects Store Https Contracts FeatureEngine.

Definition WINDOW : Z := minutes 5.
Definition NETWORK_INDICES : string := "soc-network-*,soc-alerts-*,soc-auth-*".
Definition ENDPOINT_INDICES : string := "soc-endpoint-*".
Definition NETWORK_DATASETS : list string := ["suricata.eve"; "firewall.syslog"; "freeradius.auth"].
Definition EVENT_FIELDS : list string :=
  ["@timestamp"; "event.id"; "event.dataset"; "event.category"; "event.action"; "event.outcome"; "event.severity"; "event_type";
   "source.ip"; "destination.ip"; "destination.port"; "network.bytes"; "network.protocol"; "network.transport";
   "flow.bytes_toserver"; "flow.bytes_toclient"; "dns.type"; "dns.rrname"; "dns.question.name"; "alert.severity";
   "alert.signature_id"; "host.name"; "process.name"; "process.command_line"; "rule.description"; "cxyz.schema_version"].

(** ** Windows *)

(** [moment.replace(minute=moment.minute // 5 * 5, second=0, microsecond=0)]. *)
Definition floor_window (moment : Z) : Z :=
  let hour := moment / minutes 60 in
  let minute := moment mod minutes 60 / minutes 1 in
  hour * minutes 60 + minute / 5 * 5 * minutes 1.

(** The loop of [closed_windows], for [n] windows more at most. *)
Fixpoint windows_from (n : nat) (start latest_end : Z) : result (list Z) :=
  let? finish := shift start WINDOW in
  if finish <=? latest_end then
    match n with
    | O => Ok []
    | S n => let? rest := windows_from n finish latest_end in Ok (start :: rest)
    end
  else Ok [].

Definition closed_windows (now lag since : Z) (max_windows : Z) : result (list Z) :=
  let? latest := shift now (- lag) in
  windows_from (Z.to_nat max_windows) (floor_window since) (floor_window latest).

(** ** The ledger *)
Inductive window_status : Type := Done | Empty | Oversized | Failed.

#[export] Instance window_status_eq_dec : EqDecision window_status.
Proof. solve_decision. Defined.

Definition status_text (s : window_status) : string :=
  match s with
  | Done => "done"
  | Empty => "empty"
  | Oversized => "oversized"
  | Failed => "failed"
  end.

Record Window : Type := {
  w_schema : string;
  w_start : string;
  w_status : window_status;
  w_events : Z;
  w_vectors : Z;
  w_error : option string;
  w_updated_at : string }.

Record FeatureState : Type := { windows : list Window; window_faults : list fault }.

Definition is_window (schema start : string) (w : Window) : bool := String.eqb (w_schema w) schema && String.eqb (w_start w) start.

(** [INSERT ... ON CONFLICT(schema,window_start) DO UPDATE]. *)
Fixpoint upsert_window (w : Window) (l : list Window) : list Window :=
  match l with
  | [] => [w]
  | x :: r => if is_window (w_schema w) (w_start w) x then w :: r else x :: upsert_window w r
  end.

(** [with self.db: ...]. *)
Definition commit_window (w : Window) : M FeatureState unit := fun s =>
  let next l := {| windows := l; window_faults := tl (window_faults s) |} in
  match hd CommitOk (window_faults s) with
  | CommitOk => (Ok tt, next (upsert_window w (windows s)))
  | CommitLost => (Err (OperationalError "commit failed"), next (windows s))
  | CommitAmbiguous => (Err (OperationalError "commit outcome unknown"), next (upsert_window w (windows s)))
  end.

Definition is_settled (w : Window) : bool := negb (bool_decide (w_status w = Failed)).

(** [WHERE schema=? AND status!='failed']. *)
Definition settled_rows (schema : string) (s : FeatureState) : list Window :=
  List.filter (fun w => String.eqb (w_schema w) schema && is_settled w) (windows s).

Definition max_start (l : list Window) : string :=
  fold_left (fun acc w => if str_leb acc (w_start w) then w_start w else acc) l "".

Definition last_done (schema : string) (s : FeatureState) : result (option Z) :=
  let value := max_start (settled_rows schema s) in
  if String.eqb value "" then Ok None else let? t := soc_parse_rfc3339 value in Ok (Some t).

Definition pending_windows (schema : string) (candidates : list Z) (s : FeatureState) : list Z :=
  List.filter (fun item => negb (str_in (soc_rfc3339 item) (map w_start (settled_rows schema s)))) candidates.

(** The windows to be tried again, oldest first. *)
Definition failed_rows (schema : string) (s : FeatureState) : list string :=
  sort_by str_leb (map w_start (List.filter (fun w => String.eqb (w_schema w) schema && negb (is_settled w)) (windows s))).

Definition failed_windows (schema : string) (max_windows : Z) (s : FeatureState) : result (list Z) :=
  let? all := mapR soc_parse_rfc3339 (failed_rows schema s) in
  Ok (take (Z.to_nat (Z.max 1 (max_windows / 4))) all).

(** [status]: the counts by schema and status. *)
Definition count_status (schema : string) (st : window_status) (s : FeatureState) : Z :=
  Z.of_nat (length (List.filter (fun w => String.eqb (w_schema w) schema && bool_decide (w_status w = st)) (windows s))).

(** ** Events *)
Definition window_query (start finish : Z) (schema : string) : val :=
  let window := VDict [("range", VDict [("@timestamp", VDict [("gte", VStr (soc_rfc3339 start)); ("lt", VStr (soc_rfc3339 finish))])])] in
  let exists_ field := VDict [("exists", VDict [("field", VStr field)])] in
  VDict [("bool", VDict [("filter", VList
    (if String.eqb schema "network-window-v1"
     then [window; VDict [("terms", VDict [("event.dataset", VList (map VStr NETWORK_DATASETS))])]; exists_ "source.ip"]
     else [window; exists_ "host.name"]))])].

(** [node.setdefault(part, {})] along the path, then [node[leaf] = value]. *)
Fixpoint set_path (path : list string) (value : val) (d : mapping) : result mapping :=
  match path with
  | [] => Ok d
  | [leaf] => Ok (assoc_set leaf value d)
  | part :: rest =>
      match assoc part d with
      | None => let? inner := set_path rest value [] in Ok (assoc_set part (VDict inner) d)
      | Some (VDict node) => let? inner := set_path rest value node in Ok (assoc_set part (VDict inner) d)
      | Some _ => Err (match rest with [_] => TypeError "object does not support item assignment" | _ => AttributeError "setdefault" end)
      end
  end.

Definition expand_item (expanded : mapping) (kv : string * val) : result mapping :=
  let '(key, value) := kv in
  if str_has "." key then set_path (split_on "." key) value expanded
  else match assoc key expanded, value with
       | Some (VDict existing), VDict update => Ok (assoc_set key (VDict (fold_left (fun d kv => assoc_set kv.1 kv.2 d) update existing)) expanded)
       | _, _ => Ok (assoc_set key value expanded)
       end.

Definition _expand (source : mapping) : result mapping := foldR expand_item [] source.

(** [type(exc).__name__ + ": " + str(exc)[:500]]. *)
Definition exn_name (e : exn) : string :=
  match e with
  | PolicyError _ => "PolicyError"
  | CorrelationRejected _ => "CorrelationRejected"
  | CommandRejected _ => "CommandRejected"
  | ValueError _ => "ValueError"
  | TypeError _ => "TypeError"
  | KeyError _ => "KeyError"
  | OverflowError _ => "OverflowError"
  | AssertionError => "AssertionError"
  | RuntimeError _ => "RuntimeError"
  | IntegrityError _ => "IntegrityError"
  | OperationalError _ => "OperationalError"
  | DeliveryError _ _ _ => "DeliveryError"
  | FeatureContractError _ => "FeatureContractError"
  | FeatureSchemaError _ => "FeatureSchemaError"
  | ConfigError _ => "ConfigError"
  | AttributeError _ => "AttributeError"
  | IndexError _ => "IndexError"
  | OSError _ => "OSError"
  | TimeoutExpired => "TimeoutExpired"
  | ScanLimitExceeded _ => "ScanLimitExceeded"
  | ZeroDivisionError _ => "ZeroDivisionError"
  | ModelProvenanceError _ => "ModelProvenanceError"
  | LstmModelError _ => "LstmModelError"
  | LabelError _ => "LabelError"
  | EvaluationError _ => "EvaluationError"
  | DatasetBuildError _ => "DatasetBuildError"
  | JSONDecodeError _ => "JSONDecodeError"
  | SystemExit _ => "SystemExit"
  | KeyboardInterrupt => "KeyboardInterrupt"
  end.
Definition error_text (e : exn) : string := exn_name e +:+ ": " +:+ str_take 500 (exn_message e).

Definition load_process_baseline (payload : val) : result (list string) :=
  match payload with
  | VList l =>
      raise_if (negb (forallb (fun v => match v with VStr _ => true | _ => false end) l))
        (ValueError "process baseline must be a JSON list of process names") ;;?
      Ok (map str_val l)
  | _ => Err (ValueError "process baseline must be a JSON list of process names")
  end.

Record Worker (W : Type) : Type := { ledger : FeatureState; outside : W }.
Arguments ledger {W}.
Arguments outside {W}.

Section worker.
Context {W : Type}.
Variable elastic : JsonHTTPS W.
Variable utc_now : M W Z.
Variable schema_file : string -> option (list Z).
Variable conforms : list Z -> mapping -> bool.
Notation S := (Worker W).

Definition in_ledger {X} (m : M FeatureState X) : M S X :=
  fun s => let '(r, l) := m (ledger s) in (r, {| ledger := l; outside := outside s |}).
Definition in_world {X} (m : M W X) : M S X :=
  fun s => let '(r, w) := m (outside s) in (r, {| ledger := ledger s; outside := w |}).

Definition record (schema : string) (start : Z) (st : window_status) (events vectors : Z) (error : option string) : M S unit :=
  let! now := in_world utc_now in
  in_ledger (commit_window {| w_schema := schema; w_start := soc_rfc3339 start; w_status := st; w_events := events;
    w_vectors := vectors; w_error := error; w_updated_at := soc_rfc3339 now |}).

(** The events read so far go with the world while the scan runs. *)
Definition fetching X (m : M W X) : M (list val * W) X := fun s => let '(r, w) := m s.2 in (r, (s.1, w)).

Definition take_event (hit : val) : M (list val * W) bool :=
  let! source := lift (get_attr "_source" VNone hit) in
  match source with
  | VDict d => let! event := lift (_expand d) in modify (fun s => (s.1 ++ [VDict event], s.2)) ;;! ret true
  | _ => ret true
  end.

Definition PAGE_SIZE : Z := 2000.
Definition fetch_fuel (max_events : Z) : nat := Datatypes.S (Z.to_nat (max_events / PAGE_SIZE)).

Definition scan_window (schema : string) (start finish max_events : Z) : M (list val * W) bool :=
  scan elastic fetching (if String.eqb schema "network-window-v1" then NETWORK_INDICES else ENDPOINT_INDICES)
    (window_query start finish schema) (VList [VDict [("@timestamp", VStr "asc")]; VDict [("cxyz.ingestion_id", VStr "asc")]])
    (Some (VList (map VStr EVENT_FIELDS))) PAGE_SIZE (Some max_events) take_event (fetch_fuel max_events) None.

Definition fetch_window_events (schema : string) (start max_events : Z) : M W (list val) := fun w =>
  match shift start WINDOW with
  | Err e => (Err e, w)
  | Ok finish =>
      match scan_window schema start finish max_events ([], w) with
      | (Ok _, (events, w)) => (Ok events, w)
      | (Err e, (_, w)) => (Err e, w)
      end
  end.

(** The vectors of the window, all of them valid. *)
Definition build_window (schema git_sha : string) (process_baseline : option (list string)) (start finish : Z) (events : list val) :
    result (list val) :=
  let builder := if String.eqb schema "network-window-v1" then build_network_vectors schema_file
                 else build_endpoint_vectors schema_file [] (if String.eqb schema "endpoint-window-v1" then process_baseline else None) in
  let? vectors := builder events (Instant (Aware start)) (Instant (Aware finish)) git_sha None in
  let? _ := mapR (validate_vector schema_file conforms) vectors in
  Ok vectors.

(** The documents go out one by one. *)
Fixpoint deliver (index : string) (vectors : list val) : M W unit :=
  match vectors with
  | [] => ret tt
  | vector :: rest =>
      let! id := lift (subscript "vector_id" vector) in
      match id with
      | VStr doc_id => let! _ := create elastic index doc_id vector in deliver index rest
      | _ => raise (TypeError "quote_from_bytes() expected bytes")
      end
  end.

Definition finish_window (schema : string) (start : Z) (st : window_status) (events vectors : Z) (error : option string) :
    M S window_status :=
  record schema start st events vectors error ;;! ret st.

Definition count_of (l : list val) : Z := Z.of_nat (length l).

Definition deliver_window (schema git_sha : string) (process_baseline : option (list string)) (start : Z) (events : list val) :
    M S window_status :=
  let! finish := lift (shift start WINDOW) in
  match build_window schema git_sha process_baseline start finish events with
  | Err e => finish_window schema start Failed (count_of events) 0 (Some (error_text e))
  | Ok vectors =>
      attempt (in_world (deliver ("soc-features-" +:+ strftime_ymd finish) vectors)) (fun r =>
        match r with
        | Err (DeliveryError error_code _ _) => finish_window schema start Failed (count_of events) 0 (Some error_code)
        | Err e => raise e
        | Ok _ => finish_window schema start Done (count_of events) (count_of vectors) None
        end)
  end.

Definition process_window (schema git_sha : string) (max_events : Z) (process_baseline : option (list string)) (start : Z) :
    M S window_status :=
  attempt (in_world (fetch_window_events schema start max_events)) (fun r =>
    match r with
    | Err (ScanLimitExceeded limit) => finish_window schema start Oversized limit 0 (Some ("scan exceeded the configured limit of " +:+ str_of_Z limit +:+ " documents"))
    | Err e => raise e
    | Ok [] => finish_window schema start Empty 0 0 None
    | Ok events => deliver_window schema git_sha process_baseline start events
    end).

(** ** A run *)
Fixpoint process_windows (schema git_sha : string) (max_events : Z) (process_baseline : option (list string)) (starts : list Z)
    (outcomes : list (string * Z)) : M S (list (string * Z)) :=
  match starts with
  | [] => ret outcomes
  | start :: rest =>
      let! st := process_window schema git_sha max_events process_baseline start in
      process_windows schema git_sha max_events process_baseline rest
        (assoc_set (status_text st) (default 0 (assoc (status_text st) outcomes) + 1) outcomes)
  end.

(** [dict.fromkeys]: each start once, where it came first. *)
Definition first_occurrences (l : list Z) : list Z := fold_left (fun acc x => if bool_decide (x ∈ acc) then acc else acc ++ [x]) l [].

(** The windows a run looks at: those that failed before, then the new ones. *)
Definition planned_windows (schema : string) (now lag lookback max_windows : Z) (s : FeatureState) : result (list Z) :=
  let? last := last_done schema s in
  let? since := match last with
                | Some t => shift t WINDOW
                | None => let? t := shift now (- lookback) in Ok (floor_window t)
                end in
  let? candidates := closed_windows now lag since max_windows in
  let? again := failed_windows schema max_windows s in
  Ok (first_occurrences (again ++ pending_windows schema candidates s)).

Fixpoint run_schemas (schemas : list string) (git_sha : string) (now lag lookback max_windows max_events : Z)
    (process_baseline : option (list string)) (summary : list (string * list (string * Z))) : M S (list (string * list (string * Z))) :=
  match schemas with
  | [] => ret summary
  | schema :: rest =>
      let! plan := gets (fun s => planned_windows schema now lag lookback max_windows (ledger s)) in
      let! starts := lift plan in
      let! outcomes := process_windows schema git_sha max_events process_baseline starts [] in
      run_schemas rest git_sha now lag lookback max_windows max_events process_baseline (assoc_set schema outcomes summary)
  end.

Definition run_once (schemas : list string) (git_sha : string) (now lag lookback max_windows max_events : Z)
    (process_baseline : option (list string)) : M S (list (string * list (string * Z))) :=
  run_schemas schemas git_sha now lag lookback max_windows max_events process_baseline [].
End worker.
