(* ===== verification/WindowInv.v ===== *)
(** The window ledger of [FeatureWorker.v]: what a run may do to it. *)

From S2P Require Import Prelude PyText PyNum PyTime PyJson Sha256 Policy Decision Effects Store Https Contracts FeatureEngine.
From S2P Require Import FeatureWorker.

(** ** Window starts *)
Definition aligned (t : Z) : Prop := in_range t = true /\ t mod WINDOW = 0.

Lemma aligned_second t : aligned t -> whole_second t.
Proof. intros [_ H]. revert H. unfold whole_second, WINDOW, minutes, US_PER_SECOND. intros. Z.div_mod_to_equations. lia. Qed.

Lemma floor_window_spec t : floor_window t = t - t mod WINDOW.
Proof. unfold floor_window, WINDOW, minutes, US_PER_SECOND. Z.div_mod_to_equations. lia. Qed.

Lemma floor_window_aligned t : in_range t = true -> aligned (floor_window t).
Proof.
  rewrite floor_window_spec. unfold aligned, in_range. rewrite !andb_true_iff, !Z.leb_le.
  change min_instant with (-62135596800000000). change max_instant with 253402300799999999. unfold WINDOW, minutes, US_PER_SECOND.
  intros. Z.div_mod_to_equations. lia.
Qed.

Lemma floor_aligned t : aligned t -> floor_window t = t.
Proof. intros [_ H]. rewrite floor_window_spec, H. lia. Qed.

Lemma aligned_gap t u : aligned t -> aligned u -> t <= u < t + WINDOW -> u = t.
Proof. intros [_ H1] [_ H2]. revert H1 H2. unfold WINDOW, minutes, US_PER_SECOND. intros. Z.div_mod_to_equations. lia. Qed.

Lemma shift_window t t' : aligned t -> shift t WINDOW = Ok t' -> t' = t + WINDOW /\ aligned t'.
Proof.
  unfold shift. intros [_ H] E. destruct (in_range (t + WINDOW)) eqn:Hr; [|done]. injection E as <-. split; [done|]. split; [done|].
  revert H. unfold WINDOW, minutes, US_PER_SECOND. intros. Z.div_mod_to_equations. lia.
Qed.

Lemma soc_parse_text t : aligned t -> soc_parse_rfc3339 (soc_rfc3339 t) = Ok t.
Proof.
  intros H. unfold soc_parse_rfc3339, soc_rfc3339. rewrite isoformat_parse by (try apply H; by apply aligned_second).
  unfold shift. change (- 0) with 0. rewrite Z.add_0_r. destruct H as [-> _]. done.
Qed.

Lemma start_text_order t u : aligned t -> aligned u -> str_leb (soc_rfc3339 t) (soc_rfc3339 u) = (t <=? u).
Proof. intros H1 H2. apply isoformat_order; try apply H1; try apply H2; by apply aligned_second. Qed.

Lemma start_text_inj t u : aligned t -> aligned u -> soc_rfc3339 t = soc_rfc3339 u -> t = u.
Proof. intros H1 H2. apply isoformat_inj; try apply H1; try apply H2; by apply aligned_second. Qed.

(** ** The ledger *)
Definition window_key (w : Window) : string * string := (w_schema w, w_start w).
Definition row_ok (w : Window) : Prop := exists t, aligned t /\ w_start w = soc_rfc3339 t.

Record ledger_ok (l : list Window) : Prop := {
  rows_ok : Forall row_ok l;
  keys_unique : NoDup (map window_key l) }.

(** A window has a row, or one that is not of a failure. *)
Definition recorded (schema : string) (l : list Window) (t : Z) : Prop :=
  exists w, w ∈ l /\ w_schema w = schema /\ w_start w = soc_rfc3339 t.
Definition settled (schema : string) (l : list Window) (t : Z) : Prop :=
  exists w, w ∈ l /\ w_schema w = schema /\ w_start w = soc_rfc3339 t /\ is_settled w = true.

(** Between [first] and a window that has a row, every window has one. *)
Definition gapless (schema : string) (first : Z) (l : list Window) : Prop :=
  forall t u, recorded schema l t -> aligned t -> aligned u -> first <= u <= t -> recorded schema l u.

Lemma is_window_key a b w : is_window a b w = true <-> window_key w = (a, b).
Proof. unfold is_window, window_key. rewrite andb_true_iff, !String.eqb_eq. split; [by intros [-> ->]|by intros [= -> ->]]. Qed.

Lemma upsert_keys w l : map window_key (upsert_window w l) =
  if bool_decide (window_key w ∈ map window_key l) then map window_key l else map window_key l ++ [window_key w].
Proof.
  induction l as [|x l IH]; cbn [upsert_window map]; [done|].
  destruct (is_window _ _ x) eqn:E.
  - apply is_window_key in E. rewrite bool_decide_true; [cbn; by rewrite E|]. rewrite E. left.
  - cbn [map]. rewrite IH. assert (window_key x <> window_key w) as Hne.
    { intros H. assert (is_window (w_schema w) (w_start w) x = true) by by apply is_window_key. congruence. }
    destruct (bool_decide_reflect (window_key w ∈ map window_key l)) as [Hin|Hin].
    + by rewrite bool_decide_true by by right.
    + rewrite bool_decide_false; [done|]. intros [H|H]%elem_of_cons; [by apply Hne|done].
Qed.

Lemma upsert_elem w x l : NoDup (map window_key l) ->
  x ∈ upsert_window w l <-> x = w \/ (x ∈ l /\ window_key x <> window_key w).
Proof.
  induction l as [|y l IH]; cbn [upsert_window map]; intros Hnd.
  - rewrite list_elem_of_singleton. split; [by left|intros [->|[H _]]; [done|by apply not_elem_of_nil in H]].
  - apply NoDup_cons in Hnd as [Hy Hnd]. destruct (is_window _ _ y) eqn:E.
    + apply is_window_key in E. change (w_schema w, w_start w) with (window_key w) in E. rewrite elem_of_cons. split.
      * intros [->|Hx]; [by left|right]. split; [by right|]. intros Hk. apply Hy. rewrite E, <- Hk.
        apply list_elem_of_fmap. by exists x.
      * intros [->|[Hx Hk]]; [by left|]. apply elem_of_cons in Hx as [->|Hx]; [done|by right].
    + rewrite !elem_of_cons, IH by done. assert (window_key y <> window_key w) as Hne.
      { intros H. assert (is_window (w_schema w) (w_start w) y = true) by by apply is_window_key. congruence. }
      split; [intros [->|[->|[Hx Hk]]]; auto|]. intros [->|[[->|Hx] Hk]]; auto.
Qed.

Lemma upsert_ok w l : ledger_ok l -> row_ok w -> ledger_ok (upsert_window w l).
Proof.
  intros [H1 H2] Hw. split.
  - apply Forall_forall. intros x Hx. apply upsert_elem in Hx as [->|[Hx _]]; [done| |done]. by apply (proj1 (Forall_forall _ _) H1).
  - rewrite upsert_keys. destruct (bool_decide_reflect (window_key w ∈ map window_key l)); [done|].
    apply NoDup_app. split; [done|]. split; [|apply NoDup_singleton]. intros k Hk. rewrite list_elem_of_singleton. by intros ->.
Qed.

Section upsert.
Variables (schema : string) (l : list Window) (w : Window) (t0 : Z).
Hypothesis ok : ledger_ok l.
Hypothesis start0 : aligned t0.
Hypothesis w_at : w_start w = soc_rfc3339 t0.

Lemma recorded_upsert t : recorded schema l t -> recorded schema (upsert_window w l) t.
Proof.
  intros (x & Hx & Hs & Ht). destruct (decide (window_key x = window_key w)) as [[= E1 E2]|Hne].
  - exists w. split; [apply upsert_elem; [apply ok|by left]|]. split; congruence.
  - exists x. split; [apply upsert_elem; [apply ok|by right]|done].
Qed.

Lemma recorded_upsert_inv t : recorded schema (upsert_window w l) t -> aligned t -> recorded schema l t \/ (w_schema w = schema /\ t = t0).
Proof.
  intros (x & Hx & Hs & Ht) Ha. apply upsert_elem in Hx as [->|[Hx _]]; [|left; by exists x|apply ok].
  right. split; [done|]. rewrite w_at in Ht. by apply start_text_inj.
Qed.

Lemma recorded_upserted : w_schema w = schema -> recorded schema (upsert_window w l) t0.
Proof. intros Hs. exists w. split; [apply upsert_elem; [apply ok|by left]|done]. Qed.

Lemma gapless_upsert first :
  gapless schema first l -> (w_schema w = schema -> forall u, aligned u -> first <= u < t0 -> recorded schema l u) ->
  gapless schema first (upsert_window w l).
Proof.
  intros Hg Hn t u Ht At Au Hu. destruct (decide (w_schema w = schema /\ u = t0)) as [[Hs ->]|Hne]; [by apply recorded_upserted|].
  apply recorded_upsert_inv in Ht as [Ht|[Hs ->]]; [|..|done]; apply recorded_upsert.
  - by apply (Hg t u).
  - apply Hn; [done..|]. destruct (decide (u = t0)) as [->|]; [by destruct Hne|lia].
Qed.
End upsert.

(** Rows of windows that did not fail stay as they are. *)
Definition frozen (l l' : list Window) : Prop := forall w, w ∈ l -> is_settled w = true -> w ∈ l'.

Lemma frozen_refl l : frozen l l.
Proof. intros w Hw _. exact Hw. Qed.

Lemma frozen_trans l1 l2 l3 : frozen l1 l2 -> frozen l2 l3 -> frozen l1 l3.
Proof. intros H1 H2 w Hw Hs. apply H2; [by apply H1|done]. Qed.

Lemma frozen_settled schema l l' t : frozen l l' -> settled schema l t -> settled schema l' t.
Proof. intros H (w & Hw & Hs & Ht & Hd). exists w. split; [by apply H|done]. Qed.

Lemma frozen_upsert w l t : ledger_ok l -> w_start w = soc_rfc3339 t -> ~ settled (w_schema w) l t -> frozen l (upsert_window w l).
Proof.
  intros [_ Hnd] Hw Hn x Hx Hs. apply upsert_elem; [done|]. right. split; [done|]. intros [= E1 E2]. apply Hn. exists x.
  split; [done|]. split; [done|]. split; [congruence|done].
Qed.

Lemma settled_recorded schema l t : settled schema l t -> recorded schema l t.
Proof. intros (w & Hw & Hs & Ht & _). by exists w. Qed.

(** ** The plan of a run *)

(** [l] runs through windows whose predecessors from [first] on are all covered, by [cov] or by [l]. *)
Fixpoint ready (first : Z) (cov : Z -> Prop) (l : list Z) : Prop :=
  match l with
  | [] => True
  | x :: r => (forall u, aligned u -> first <= u < x -> cov u) /\ ready first (fun u => cov u \/ u = x) r
  end.

Lemma ready_mono first (cov cov' : Z -> Prop) l : (forall u, cov u -> cov' u) -> ready first cov l -> ready first cov' l.
Proof.
  revert cov cov'. induction l as [|x l IH]; intros cov cov' H; cbn [ready]; [done|]. intros [H1 H2]. split; [auto|].
  eapply IH; [|exact H2]. intros u [Hu|Hu]; [left; by apply H|by right].
Qed.

Lemma ready_app_covered first (cov : Z -> Prop) l r :
  (forall x, x ∈ l -> forall u, aligned u -> first <= u < x -> cov u) -> ready first cov r -> ready first cov (l ++ r).
Proof.
  revert cov. induction l as [|x l IH]; intros cov H Hr; cbn [app ready]; [done|]. split; [apply H; left|].
  apply IH; [|by eapply ready_mono; [|exact Hr]; auto]. intros y Hy u Hu Hb. left. apply (H y); [by right|done..].
Qed.

(** [first_occurrences], from a list of what was seen. *)
Fixpoint unseen (seen l : list Z) : list Z :=
  match l with
  | [] => []
  | x :: r => if bool_decide (x ∈ seen) then unseen seen r else x :: unseen (seen ++ [x]) r
  end.

Lemma fold_unseen seen l : fold_left (fun acc x => if bool_decide (x ∈ acc) then acc else acc ++ [x]) l seen = seen ++ unseen seen l.
Proof.
  revert seen. induction l as [|x l IH]; intros seen; cbn [fold_left unseen]; [by rewrite app_nil_r|].
  case_bool_decide; rewrite IH; [done|]. by rewrite <- app_assoc.
Qed.

Lemma first_occurrences_unseen l : first_occurrences l = unseen [] l.
Proof. exact (fold_unseen [] l). Qed.

Lemma unseen_elem x seen l : x ∈ unseen seen l -> x ∈ l /\ x ∉ seen.
Proof.
  revert seen. induction l as [|y l IH]; intros seen; cbn [unseen]; [by intros ?%not_elem_of_nil|].
  case_bool_decide as Hy; [intros Hx; apply IH in Hx as [H1 H2]; split; [by right|done]|].
  intros [->|Hx]%elem_of_cons; [split; [by left|done]|]. apply IH in Hx as [H1 H2]. split; [by right|].
  intros H. apply H2, elem_of_app. by left.
Qed.

Lemma unseen_NoDup seen l : NoDup (unseen seen l).
Proof.
  revert seen. induction l as [|y l IH]; intros seen; cbn [unseen]; [constructor|]. case_bool_decide; [done|].
  constructor; [|done]. intros H1. apply unseen_elem in H1 as [_ H1]. apply H1, elem_of_app. right. by left.
Qed.

Lemma unseen_ready first cov seen l : (forall x, x ∈ seen -> cov x) -> ready first cov l -> ready first cov (unseen seen l).
Proof.
  revert cov seen. induction l as [|y l IH]; intros cov seen Hs; cbn [ready unseen]; [done|]. intros [H1 H2].
  case_bool_decide as Hy.
  - apply IH; [done|]. eapply ready_mono; [|exact H2]. intros u [Hu| ->]; [done|by apply Hs].
  - cbn [ready]. split; [done|]. apply IH; [|done]. intros x [Hx|Hx]%elem_of_app; [left; by apply Hs|].
    apply list_elem_of_singleton in Hx as ->. by right.
Qed.

(** The windows of [windows_from] are consecutive. *)
Fixpoint consecutive (start : Z) (l : list Z) : Prop :=
  match l with
  | [] => True
  | x :: r => x = start /\ aligned x /\ consecutive (start + WINDOW) r
  end.

Lemma windows_from_consecutive n start latest l : aligned start -> windows_from n start latest = Ok l -> consecutive start l.
Proof.
  revert start l. induction n as [|n IH]; intros start l Ha; cbn [windows_from]; intros H;
    apply rbind_Ok in H as (finish & Hf & H); apply (shift_window _ _ Ha) in Hf as [-> Hf];
    destruct (_ <=? latest); try (injection H as <-; done).
  apply rbind_Ok in H as (rest & Hr & [= <-]). cbn. split; [done|]. split; [done|]. by apply IH.
Qed.

Lemma consecutive_aligned start l x : consecutive start l -> x ∈ l -> aligned x.
Proof.
  revert start. induction l as [|y l IH]; intros start; cbn; [by intros _ ?%not_elem_of_nil|].
  intros (-> & Hy & Hl) [->|Hx]%elem_of_cons; [done|by eapply IH].
Qed.

Lemma consecutive_ready first (cov : Z -> Prop) (wanted : Z -> bool) start l :
  aligned start -> consecutive start l -> (forall u, aligned u -> first <= u < start -> cov u) ->
  (forall x, x ∈ l -> wanted x = false -> cov x) -> ready first cov (List.filter wanted l).
Proof.
  revert cov start. induction l as [|x l IH]; intros cov start Hs; cbn [consecutive List.filter]; [done|].
  intros (-> & Ha & Hl) Hcov Hw.
  assert (forall cov' : Z -> Prop, (forall u, cov u -> cov' u) -> cov' start ->
    forall u, aligned u -> first <= u < start + WINDOW -> cov' u) as Hnext.
  { intros cov' H1 H2 u Hu Hb. destruct (decide (u < start)); [apply H1, Hcov; [done|lia]|].
    by rewrite (aligned_gap start u) by (try done; lia). }
  destruct l as [|y l']; [destruct (wanted start) eqn:E; cbn [List.filter ready]; done|].
  assert (aligned (start + WINDOW)) as Hs' by (destruct Hl as (-> & Hy & _); done).
  destruct (wanted start) eqn:E.
  - cbn [ready]. split; [done|]. apply (IH _ (start + WINDOW)); [done|done|apply Hnext; auto|]. intros z Hz Hf. left. apply Hw; [by right|done].
  - apply (IH _ (start + WINDOW)); [done|done|apply Hnext; [auto|by apply Hw; [left|]]|]. intros z Hz Hf. apply Hw; [by right|done].
Qed.

(** ** The latest window that did not fail *)
Lemma start_text_nonempty t : aligned t -> String.eqb (soc_rfc3339 t) "" = false.
Proof.
  intros H. apply String.eqb_neq. intros E. pose proof (soc_parse_text t H) as Hp. by rewrite E in Hp.
Qed.

Lemma max_start_snoc l w : max_start (l ++ [w]) = if str_leb (max_start l) (w_start w) then w_start w else max_start l.
Proof. unfold max_start. by rewrite fold_left_app. Qed.

Lemma max_start_spec l : Forall row_ok l -> l <> [] ->
  exists w t, w ∈ l /\ aligned t /\ w_start w = soc_rfc3339 t /\ max_start l = soc_rfc3339 t /\
    forall w' t', w' ∈ l -> aligned t' -> w_start w' = soc_rfc3339 t' -> t' <= t.
Proof.
  induction l as [|w l IH] using rev_ind; [done|]. intros [Hl Hw]%Forall_app _. apply Forall_singleton in Hw as (t & Ht & Hw).
  rewrite max_start_snoc. destruct (decide (l = [])) as [->|Hne].
  { exists w, t. split; [left|]. split; [done|]. split; [done|]. change (max_start []) with "".
    assert (str_leb "" (w_start w) = true) as -> by by destruct (w_start w). split; [done|]. intros w' t' Hw' Ht' E.
    apply list_elem_of_singleton in Hw' as ->. rewrite Hw in E. apply start_text_inj in E; [lia|done|done]. }
  destruct (IH Hl Hne) as (w1 & t1 & Hw1 & Ht1 & E1 & -> & Hmax). rewrite Hw, start_text_order by done.
  destruct (Z.leb_spec t1 t).
  - exists w, t. split; [apply elem_of_app; right; left|]. repeat (split; [done|]). intros w' t' [Hw'|Hw']%elem_of_app Ht' E.
    + specialize (Hmax w' t' Hw' Ht' E). lia.
    + apply list_elem_of_singleton in Hw' as ->. rewrite Hw in E. apply start_text_inj in E; [lia|done|done].
  - exists w1, t1. split; [apply elem_of_app; by left|]. repeat (split; [done|]). intros w' t' [Hw'|Hw']%elem_of_app Ht' E.
    + by apply (Hmax w' t').
    + apply list_elem_of_singleton in Hw' as ->. rewrite Hw in E. apply start_text_inj in E; [lia|done|done].
Qed.

Lemma settled_rows_elem schema s w :
  w ∈ settled_rows schema s <-> w ∈ windows s /\ w_schema w = schema /\ is_settled w = true.
Proof.
  unfold settled_rows. rewrite !list_elem_of_In, List.filter_In, andb_true_iff, String.eqb_eq. tauto.
Qed.

Lemma last_done_spec schema s t0 : ledger_ok (windows s) -> settled schema (windows s) t0 -> aligned t0 ->
  exists t, last_done schema s = Ok (Some t) /\ aligned t /\ settled schema (windows s) t /\ t0 <= t.
Proof.
  intros [Hr _] (w0 & Hw0 & Hs0 & Ht0 & Hd0) Ha.
  assert (w0 ∈ settled_rows schema s) as Hin by by apply settled_rows_elem.
  destruct (max_start_spec (settled_rows schema s)) as (w & t & Hw & Ht & E & Hm & Hmax).
  { apply Forall_forall. intros w Hw. apply settled_rows_elem in Hw as [Hw _]. by apply (proj1 (Forall_forall _ _) Hr). }
  { intros E. rewrite E in Hin. by apply not_elem_of_nil in Hin. }
  exists t. unfold last_done. cbv zeta. rewrite Hm, start_text_nonempty, soc_parse_text by done. split; [done|]. split; [done|].
  apply settled_rows_elem in Hw as (H1 & H2 & H3). split; [by exists w|]. by apply (Hmax w0).
Qed.

Lemma last_done_none schema s : ledger_ok (windows s) -> (forall t, aligned t -> ~ settled schema (windows s) t) ->
  last_done schema s = Ok None.
Proof.
  intros [Hr _] Hn. unfold last_done. destruct (settled_rows schema s) as [|w l] eqn:E; [done|]. exfalso.
  assert (w ∈ settled_rows schema s) as Hw by (rewrite E; left). apply settled_rows_elem in Hw as (H1 & H2 & H3).
  destruct (proj1 (Forall_forall _ _) Hr w H1) as (t & Ht & Hs). apply (Hn t Ht). by exists w.
Qed.

(** ** Windows that failed, and those to be done *)
Lemma failed_windows_spec schema max_windows s l x : ledger_ok (windows s) -> failed_windows schema max_windows s = Ok l -> x ∈ l ->
  aligned x /\ recorded schema (windows s) x /\ ~ settled schema (windows s) x.
Proof.
  intros [Hr Hnd]. unfold failed_windows. intros H. apply rbind_Ok in H as (all & Hall & [= <-]). intros Hx.
  apply elem_of_take in Hx as (i & Hx & _). apply list_elem_of_lookup_2 in Hx.
  apply mapR_Forall2 in Hall. apply list_elem_of_lookup in Hx as [i' Hi]. destruct (Forall2_lookup_r _ _ _ _ _ Hall Hi) as (text & Htext & Hp).
  apply list_elem_of_lookup_2 in Htext. unfold failed_rows in Htext. apply sort_by_elem, list_elem_of_fmap in Htext as (w & -> & Hw).
  apply list_elem_of_In, List.filter_In in Hw as [Hw Hc]. apply list_elem_of_In in Hw. apply andb_true_iff in Hc as [Hs Hf].
  apply String.eqb_eq in Hs. destruct (proj1 (Forall_forall _ _) Hr w Hw) as (t & Ht & E). rewrite E, soc_parse_text in Hp by done.
  injection Hp as <-. split; [done|]. split; [by exists w|]. intros (w' & Hw' & Hs' & E' & Hd').
  assert (w = w') as <-; [|by rewrite Hd' in Hf]. apply (NoDup_map_inj window_key (windows s)); [done..|]. unfold window_key. congruence.
Qed.

Lemma pending_unsettled schema candidates s x : x ∈ pending_windows schema candidates s <-> x ∈ candidates /\ ~ settled schema (windows s) x.
Proof.
  unfold pending_windows. rewrite !list_elem_of_In, List.filter_In, negb_true_iff, <- not_true_iff_false, str_in_elem.
  split; intros [H1 H2]; (split; [done|]); contradict H2.
  - destruct H2 as (w & Hw & Hs & Ht & Hd). rewrite <- Ht. apply list_elem_of_fmap. exists w. split; [done|]. by apply settled_rows_elem.
  - apply list_elem_of_fmap in H2 as (w & Ht & Hw). apply settled_rows_elem in Hw as (H2 & H3 & H4). by exists w.
Qed.

(** ** The plan *)
Lemma planned_windows_spec schema now lag lookback max_windows s starts : ledger_ok (windows s) ->
  planned_windows schema now lag lookback max_windows s = Ok starts ->
  NoDup starts /\ (forall x, x ∈ starts -> aligned x /\ ~ settled schema (windows s) x) /\
  forall first, gapless schema first (windows s) ->
    (exists t0, aligned t0 /\ first <= t0 /\ settled schema (windows s) t0) \/
    (forall t, ~ recorded schema (windows s) t) /\ (exists t, shift now (- lookback) = Ok t /\ first = floor_window t) ->
    ready first (recorded schema (windows s)) starts.
Proof.
  intros Hok H. unfold planned_windows in H. apply rbind_Ok in H as (last & Hl & H). apply rbind_Ok in H as (since & Hs & H).
  apply rbind_Ok in H as (candidates & Hc & H). apply rbind_Ok in H as (again & Ha & [= <-]). rewrite first_occurrences_unseen.
  assert (aligned since /\ consecutive since candidates) as [Hsince Hcons].
  { assert (aligned since) as Hsince.
    { destruct last as [L|].
      - destruct (settled_rows schema s) as [|w l] eqn:E.
        { unfold last_done in Hl. rewrite E in Hl. discriminate. }
        assert (w ∈ settled_rows schema s) as Hw by (rewrite E; left). apply settled_rows_elem in Hw as (H1 & H2 & H3).
        destruct (proj1 (Forall_forall _ _) (rows_ok _ Hok) w H1) as (t & Ht & Hst).
        destruct (last_done_spec schema s t Hok ltac:(by exists w) Ht) as (L' & E' & HL & _). rewrite E' in Hl. injection Hl as <-.
        by apply (shift_window L' since HL) in Hs as [-> ?].
      - apply rbind_Ok in Hs as (t & Ht & [= <-]). apply floor_window_aligned. unfold shift in Ht.
        destruct (in_range (now + - lookback)) eqn:Hr; [by injection Ht as <-|done]. }
    split; [done|]. unfold closed_windows in Hc. apply rbind_Ok in Hc as (latest & _ & Hc). rewrite floor_aligned in Hc by done.
    by apply windows_from_consecutive in Hc. }
  split; [apply unseen_NoDup|]. split.
  { intros x Hx. apply unseen_elem in Hx as [Hx _]. apply elem_of_app in Hx as [Hx|Hx].
    - by destruct (failed_windows_spec _ _ _ _ _ Hok Ha Hx) as (H1 & _ & H3).
    - apply pending_unsettled in Hx as [Hx Hn]. split; [by eapply consecutive_aligned|done]. }
  intros first Hg Hstart. apply unseen_ready; [by intros x ?%not_elem_of_nil|]. apply ready_app_covered.
  { intros x Hx u Hu Hb. destruct (failed_windows_spec _ _ _ _ _ Hok Ha Hx) as (H1 & H2 & _). apply (Hg x u); [done..|lia]. }
  apply (consecutive_ready _ _ _ since); [done|done| |].
  - intros u Hu Hb. destruct Hstart as [(t0 & Ht0 & Hf & Hset)|[Hnone (t & Ht & ->)]].
    + destruct (last_done_spec schema s t0 Hok Hset Ht0) as (L & E & HL & HsL & Hle). rewrite E in Hl. injection Hl as <-.
      apply (shift_window L since HL) in Hs as [-> _]. destruct (decide (u <= L)).
      * apply (Hg L u); [by apply settled_recorded|done..|lia].
      * assert (~ L < u < L + WINDOW) as Hno by (intros Hlu; pose proof (aligned_gap L u HL Hu ltac:(lia)); lia). lia.
    + rewrite last_done_none in Hl; [|done|intros t' _ Hs'; by apply settled_recorded, Hnone in Hs']. injection Hl as <-.
      cbn in Hs. rewrite Ht in Hs. injection Hs as <-. lia.
  - intros x Hx Hw. apply settled_recorded. destruct (decide (str_in (soc_rfc3339 x) (map w_start (settled_rows schema s)) = true)) as [E|E].
    + apply str_in_elem, list_elem_of_fmap in E as (w & Et & Hr). apply settled_rows_elem in Hr as (H1 & H2 & H3). by exists w.
    + exfalso. apply E. by apply negb_false_iff in Hw.
Qed.

(** ** Processing a window *)
Section processing.
Context {W : Type}.
Variable elastic : JsonHTTPS W.
Variable utc_now : M W Z.
Variable schema_file : string -> option (list Z).
Variable conforms : list Z -> mapping -> bool.
Notation S := (Worker W).
Notation rows s := (windows (ledger s)).

(** A window is recorded, as the last thing, or an exception ends its processing: before the row is
    written, or in the commit. *)
Definition records {X} (schema : string) (start : Z) (m : M S X) : Prop := forall s, let '(r, s') := m s in
  (exists w, w_schema w = schema /\ w_start w = soc_rfc3339 start /\ rows s' = upsert_window w (rows s)) \/
  (rows s' = rows s /\ is_ok r = false).

Lemma records_after {X Y} schema start (m : M S X) (k : result X -> M S Y) :
  (forall s, rows (m s).2 = rows s) -> (forall r, records schema start (k r)) -> records schema start (attempt m k).
Proof.
  intros Hm Hk s. unfold attempt. specialize (Hm s). destruct (m s) as [r s1]. cbn in Hm. specialize (Hk r s1).
  destruct (k r s1) as [r' s']. by rewrite Hm in Hk.
Qed.

Lemma records_raise {X} schema start e : records schema start (raise e : M S X).
Proof. intros s. right. done. Qed.

Lemma in_world_rows {X} (m : M W X) s : rows (in_world m s).2 = rows s.
Proof. unfold in_world. by destruct (m (outside s)). Qed.

Lemma finish_records schema start st events vectors error : records schema start (finish_window utc_now schema start st events vectors error).
Proof.
  intros s. unfold finish_window, record, mbind, in_world. destruct (utc_now (outside s)) as [[now|e] w]; [|by right].
  unfold in_ledger, commit_window. cbn [ledger].
  destruct (hd CommitOk (window_faults (ledger s))); cbn [windows ledger]; [left|right|left]; try done; eexists; repeat split; reflexivity.
Qed.

Lemma deliver_records schema git_sha baseline start events :
  records schema start (deliver_window elastic utc_now schema_file conforms schema git_sha baseline start events).
Proof.
  intros s. unfold deliver_window, mbind at 1, lift. destruct (shift start WINDOW) as [finish|e]; [|by right].
  destruct (build_window _ _ _ _ _ _ _ _) as [vectors|e]; [|apply (finish_records schema start)].
  apply (records_after schema start); [intros s'; apply in_world_rows|]. intros [u|e]; [apply finish_records|].
  destruct e; try apply records_raise. apply finish_records.
Qed.

Lemma process_window_records schema git_sha max_events baseline start :
  records schema start (process_window elastic utc_now schema_file conforms schema git_sha max_events baseline start).
Proof.
  unfold process_window. apply records_after; [intros s'; apply in_world_rows|]. intros [[|event events]|e].
  - apply finish_records.
  - apply deliver_records.
  - destruct e; try apply records_raise. apply finish_records.
Qed.

(** What every run keeps, about one schema, and what it leaves of a former ledger. *)
Record windows_inv (schema : string) (first : Z) (old : list Window) (s : S) : Prop := {
  inv_ok : ledger_ok (rows s);
  inv_gapless : gapless schema first (rows s);
  inv_frozen : frozen old (rows s) }.

Lemma upsert_inv which schema first old s s' w x :
  windows_inv which first old s -> aligned x -> ~ settled schema (rows s) x ->
  (schema = which -> forall u, aligned u -> first <= u < x -> recorded which (rows s) u) ->
  w_schema w = schema -> w_start w = soc_rfc3339 x -> rows s' = upsert_window w (rows s) -> windows_inv which first old s'.
Proof.
  intros [H1 H2 H3] Hx Hn Hr Hs Hw Hrows. split; rewrite Hrows.
  - apply upsert_ok; [done|]. by exists x.
  - eapply gapless_upsert; [done|exact Hx|done|done|]. rewrite Hs. exact Hr.
  - eapply frozen_trans; [exact H3|]. eapply frozen_upsert; [done|exact Hw|]. by rewrite Hs.
Qed.

Lemma settled_upsert schema l w x y : ledger_ok l -> aligned x -> aligned y -> x <> y -> w_start w = soc_rfc3339 x ->
  settled schema (upsert_window w l) y -> settled schema l y.
Proof.
  intros [_ Hnd] Hx Hy Hne Hw (r & Hr & Hs & Ht & Hd). apply upsert_elem in Hr as [->|[Hr _]]; [|by exists r|done].
  rewrite Hw in Ht. apply start_text_inj in Ht; [by destruct Hne|done|done].
Qed.

Lemma process_windows_inv which schema first old git_sha max_events baseline starts outcomes s :
  windows_inv which first old s -> NoDup starts -> (forall x, x ∈ starts -> aligned x /\ ~ settled schema (rows s) x) ->
  (schema = which -> ready first (recorded which (rows s)) starts) ->
  windows_inv which first old
    (process_windows elastic utc_now schema_file conforms schema git_sha max_events baseline starts outcomes s).2.
Proof.
  revert outcomes s. induction starts as [|x starts IH]; intros outcomes s Hinv Hnd Hst Hready; cbn [process_windows]; [done|].
  apply NoDup_cons in Hnd as [Hx Hnd]. destruct (Hst x ltac:(left)) as [Ax Ux].
  pose proof (process_window_records schema git_sha max_events baseline x s) as Hp. unfold mbind.
  destruct (process_window _ _ _ _ _ _ _ _ _ s) as [r s1]. destruct Hp as [(w & Hs & Hw & Hrows)|[Hrows Hr]].
  - assert (windows_inv which first old s1) as Hinv1.
    { eapply upsert_inv; [done|exact Ax|exact Ux| |done..]. intros E. by destruct (Hready E). }
    destruct r as [st|e]; [|done]. apply IH; [done|done|..].
    + intros y Hy. destruct (Hst y ltac:(by right)) as [Ay Uy]. split; [done|]. rewrite Hrows. contradict Uy.
      eapply settled_upsert; [apply Hinv|exact Ax|done| |exact Hw|exact Uy]. by intros ->.
    + intros E. destruct (Hready E) as [_ Hr]. eapply ready_mono; [|exact Hr]. rewrite Hrows. intros u [Hu| ->].
      * apply recorded_upsert; [apply Hinv|done].
      * eapply recorded_upserted; [apply Hinv|done|congruence].
  - destruct r as [st|e]; [done|]. destruct Hinv. split; cbn [snd]; by rewrite Hrows.
Qed.

Lemma upsert_sub w x l : x ∈ upsert_window w l -> x = w \/ x ∈ l.
Proof.
  induction l as [|y l IH]; cbn [upsert_window]; [intros H; left; by apply list_elem_of_singleton|].
  destruct (is_window _ _ y); intros [->|H]%elem_of_cons; [by left|right; by right|right; left|].
  apply IH in H as [->|H]; [by left|right; by right].
Qed.

(** The windows of another schema are not touched. *)
Lemma process_windows_other which schema git_sha max_events baseline starts outcomes s : schema <> which ->
  (forall t, ~ recorded which (rows s) t) -> forall t, ~ recorded which
    (rows (process_windows elastic utc_now schema_file conforms schema git_sha max_events baseline starts outcomes s).2) t.
Proof.
  intros Hne. revert outcomes s. induction starts as [|x starts IH]; intros outcomes s Hn; cbn [process_windows]; [done|].
  pose proof (process_window_records schema git_sha max_events baseline x s) as Hp. unfold mbind.
  destruct (process_window _ _ _ _ _ _ _ _ _ s) as [r s1].
  assert (forall t, ~ recorded which (rows s1) t) as Hn1.
  { destruct Hp as [(w & Hs & _ & ->)|[-> _]]; [|done]. intros t (y & Hy & Hs' & Ht). apply upsert_sub in Hy as [->|Hy]; [congruence|].
    apply (Hn t). by exists y. }
  destruct r; [by apply IH|done].
Qed.

(** ** A run *)

(** A window from [first] on is settled, or this is the first run of the schema, and [first] its first
    window. *)
Definition started (schema : string) (first : Z) (now lookback : Z) (l : list Window) : Prop :=
  (exists t0, aligned t0 /\ first <= t0 /\ settled schema l t0) \/
  (forall t, ~ recorded schema l t) /\ exists t, shift now (- lookback) = Ok t /\ first = floor_window t.

Lemma run_schemas_inv which first old schemas git_sha now lag lookback max_windows max_events baseline summary s :
  NoDup schemas -> windows_inv which first old s -> (which ∈ schemas -> started which first now lookback (rows s)) ->
  windows_inv which first old
    (run_schemas elastic utc_now schema_file conforms schemas git_sha now lag lookback max_windows max_events baseline summary s).2.
Proof.
  revert summary s. induction schemas as [|schema schemas IH]; intros summary s Hnd Hinv Hstart; cbn [run_schemas]; [done|].
  apply NoDup_cons in Hnd as [Hsc Hnd]. unfold mbind at 1, gets, mbind at 1, lift.
  destruct (planned_windows _ _ _ _ _ _) as [starts|e] eqn:Hplan; [|done].
  destruct (planned_windows_spec _ _ _ _ _ _ _ (inv_ok _ _ _ _ Hinv) Hplan) as (H1 & H2 & H3).
  assert (windows_inv which first old
    (process_windows elastic utc_now schema_file conforms schema git_sha max_events baseline starts [] s).2) as Hinv'.
  { apply process_windows_inv; [done|done|done|]. intros ->. apply H3; [apply Hinv|]. apply Hstart. left. }
  assert (which ∈ schemas -> started which first now lookback
    (rows (process_windows elastic utc_now schema_file conforms schema git_sha max_events baseline starts [] s).2)) as Hstart'.
  { intros Hw. assert (schema <> which) as Hne by congruence. destruct (Hstart ltac:(by right)) as [(t0 & A & B & C)|[Hn Hf]].
    - left. exists t0. split; [done|]. split; [done|]. eapply frozen_settled; [|exact C].
      apply (process_windows_inv which schema first (rows s)); [|done|done|done]. destruct Hinv. split; [done|done|apply frozen_refl].
    - right. split; [|done]. by apply process_windows_other. }
  unfold mbind. destruct (process_windows _ _ _ _ _ _ _ _ _ _ s) as [[outcomes|e] s1]; [|exact Hinv']. by apply IH.
Qed.
End processing.
