(* ===== verification/Firewalls.v ===== *)
(** The blocklist adapter over ownership-aware firewall peers: the state is the list of the peers'
    states, and the client of peer [i] works on its own. *)

From S2P Require Import Prelude PyText PyNum PyNet PyJson Decision AuditLog Effects Adapters Ownership Blocklist.

(** [m] on the [i]-th component. *)
Definition at_index {S X} (i : nat) (m : M S X) : M (list S) X :=
  fun s => match s !! i with
           | Some p => let '(r, p') := m p in (r, <[i := p']> s)
           | None => (Err (KeyError "peer"), s)
           end.

Lemma at_index_spec {S X} (P : S -> Prop) (m : M S X) Q E i :
  triple P m Q E ->
  triple (fun s => exists p, s !! i = Some p /\ P p) (at_index i m)
    (fun x s => exists p, s !! i = Some p /\ Q x p) (fun e s => exists p, s !! i = Some p /\ E e p).
Proof.
  intros Hm s (p & Hi & Hp). unfold at_index. rewrite Hi. specialize (Hm p Hp).
  pose proof (lookup_lt_Some _ _ _ Hi) as Hlt.
  destruct (m p) as [[x|e] p']; exists p'; (split; [by apply list_lookup_insert_eq|done]).
Qed.

Lemma at_index_other {S X} (m : M S X) i j s : i <> j -> (at_index i m s).2 !! j = s !! j.
Proof.
  intros Hne. unfold at_index. destruct (s !! i) as [p|]; [|done]. destruct (m p) as [r p']. simpl.
  by rewrite list_lookup_insert_ne.
Qed.

Lemma at_index_length {S X} (m : M S X) i s : length (at_index i m s).2 = length s.
Proof.
  unfold at_index. destruct (s !! i) as [p|]; [|done]. destruct (m p) as [r p']. simpl. apply length_insert.
Qed.

Section firewalls.
Context {P : Type}.
Variable raws : nat -> RawSet P.
Variable present : P -> string -> Prop.
Context `{Hlaws : !forall i, RawSetLaws (raws i) present}.
Notation W := (list (Owned P)).

Definition owned_client (i : nat) : BlocklistClient W :=
  {| client_add := fun address key lifetime => at_index i (add_soc_blocklist_address (raws i) address key lifetime);
     client_remove := fun address key => at_index i (remove_soc_blocklist_address (raws i) address key);
     client_contains := fun address => at_index i (soc_blocklist_contains (raws i) address) |}.

(** The peers of [names], from number [i]. *)
Fixpoint owned_peers (i : nat) (names : list string) : list (BlocklistPeer W) :=
  match names with
  | [] => []
  | n :: rest => {| peer_name := n; peer_client := owned_client i |} :: owned_peers (S i) rest
  end.

Definition firewalls (name : string) (names : list string) : BlocklistAdapter W :=
  {| blocklist_name := name; blocklist_peers := owned_peers 0 names |}.

(** [holds], in the peer's own state. *)
Definition peer_holds (address key : string) (p : Owned P) : Prop := held present address key p.

Lemma command_address_norm c address : _command_address c = Ok address -> _norm address = Ok address.
Proof.
  unfold _command_address. intros H. apply raise_seq_Ok in H as [_ H].
  destruct (ip_address (target_value (cmd_target c))) as [a|] eqn:E; [|discriminate]. injection H as <-.
  unfold _norm. rewrite ip_text_parse; [done|]. by eapply ip_address_wf.
Qed.

(** Only component [i] and later ones may change. *)
Definition below_same (i : nat) (s s' : W) : Prop := length s' = length s /\ forall j, (j < i)%nat -> s' !! j = s !! j.

Lemma below_same_trans i s1 s2 s3 : below_same i s1 s2 -> below_same i s2 s3 -> below_same i s1 s3.
Proof. intros [L1 H1] [L2 H2]. split; [congruence|]. intros j Hj. by rewrite H2, H1. Qed.

Lemma below_same_weaken i j s s' : (i <= j)%nat -> below_same j s s' -> below_same i s s'.
Proof. intros Hij [L H]. split; [done|]. intros k Hk. apply H. lia. Qed.

Lemma at_index_below {X} (m : M (Owned P) X) i s : below_same i s (at_index i m s).2.
Proof. split; [apply at_index_length|]. intros j Hj. apply at_index_other. lia. Qed.

(** The client calls of one peer. *)
Lemma client_add_holds i address key n :
  _norm address = Ok address ->
  triple (fun s => exists p, s !! i = Some p) (client_add (owned_client i) address key n)
    (fun _ s => exists p, s !! i = Some p /\ peer_holds address key p) (fun _ _ => True).
Proof.
  intros Hn. simpl.
  eapply triple_conseq; [eapply (at_index_spec anything)| | |].
  - unfold add_soc_blocklist_address. unfold mbind, lift. rewrite Hn.
    apply (add_establishes (raws i) present address key n).
  - intros s [p Hp]. by exists p.
  - intros ? s H. exact H.
  - done.
Qed.

Lemma client_contains_holds i address key :
  _norm address = Ok address ->
  keeps (fun s => exists p, s !! i = Some p /\ peer_holds address key p) (client_contains (owned_client i) address).
Proof.
  intros Hn. simpl. apply at_index_spec. unfold soc_blocklist_contains. unfold mbind, lift. rewrite Hn.
  apply (contains_held (raws i) present address key).
Qed.

Lemma apply_peers_holds b address key n names :
  _norm address = Ok address ->
  forall i applied refs s loop s', length s = (i + length names)%nat ->
  apply_peers b address key n (owned_peers i names) applied refs s = (Ok (loop, true), s') ->
  below_same i s s' /\ forall j, (i <= j < length s)%nat -> exists p, s' !! j = Some p /\ peer_holds address key p.
Proof.
  intros Hn. induction names as [|name names IH]; intros i applied refs s loop s' Hlen H; simpl in Hlen.
  { injection H as _ <-. split; [done|]. intros j Hj. lia. }
  cbn [owned_peers apply_peers] in H. cbv zeta in H. cbn [peer_client] in H.
  assert (exists p, s !! i = Some p) as Hp by (apply lookup_lt_is_Some; lia).
  pose proof (client_add_holds i address key n Hn s Hp) as Hadd. unfold attempt in H.
  pose proof (at_index_below (add_soc_blocklist_address (raws i) address key n) i s) as Hb1.
  cbn [client_add owned_client] in H, Hadd.
  destruct (at_index i (add_soc_blocklist_address (raws i) address key n) s) as [[ref|e] s1]; [|discriminate]. cbn [snd] in Hb1.
  pose proof (client_contains_holds i address key Hn s1 Hadd) as Hc.
  pose proof (at_index_below (soc_blocklist_contains (raws i) address) i s1) as Hb2. cbn [client_contains owned_client] in H, Hc.
  destruct (at_index i (soc_blocklist_contains (raws i) address) s1) as [[[]|e] s2]; [|discriminate..]. cbn [snd] in Hb2.
  apply IH in H as [Hb3 Hall]; [|destruct Hb1 as [? _], Hb2 as [? _]; simpl; lia].
  split.
  - eapply below_same_trans; [exact Hb1|]. eapply below_same_trans; [exact Hb2|]. eapply below_same_weaken; [|exact Hb3]. lia.
  - intros j Hj. destruct (decide (j = i)) as [->|Hne].
    + destruct Hc as (p & Hp2 & Hh). exists p. split; [|done]. rewrite (proj2 Hb3) by lia. done.
    + apply Hall. destruct Hb1 as [? _], Hb2 as [? _]. lia.
Qed.

(** A successful application holds on every peer. *)
Lemma blocklist_apply_holds name names c address s out s' :
  _command_address c = Ok address -> length s = length names ->
  blocklist_apply (firewalls name names) c s = (Ok out, s') -> ok out = true ->
  forall j p, s' !! j = Some p -> peer_holds address (idempotency_key c) p.
Proof.
  intros Ha Hlen H Hok. unfold blocklist_apply in H. rewrite Ha in H. unfold mbind, lift in H.
  destruct (_idempotency_key c) as [key|e] eqn:Ek; [|discriminate].
  assert (key = idempotency_key c) as -> by (unfold _idempotency_key in Ek; apply raise_seq_Ok in Ek as [_ [= ->]]; done).
  destruct (apply_peers _ address (idempotency_key c) (_lifetime c) _ [] [] s) as [[[[applied refs] through]|e] s1] eqn:El; [|discriminate].
  destruct through.
  - apply apply_peers_holds in El as [[HL _] Hall]; [|by eapply command_address_norm|done].
    destruct (blocklist_recovery_reference _ c); [|discriminate]. injection H as <- <-.
    intros j p Hj. pose proof (lookup_lt_Some _ _ _ Hj) as Hlt. destruct (Hall j) as (q & Hq & Hh); [lia|].
    by assert (q = p) as -> by congruence.
  - destruct (_rollback_peers _ applied address (idempotency_key c) s1) as [[rb|e] s2]; [|discriminate]. by injection H as <- _.
Qed.

(** What is left of a key and an address at a peer once the key is released there: the address is
    gone, or another key still holds it, or it was there before the response plane touched it. *)
Definition peer_released (address key : string) (before after : Owned P) : Prop :=
  ~ holds (registry after) address key /\
  (~ present (peer after) address \/ (exists k', holds (registry after) address k') \/
   is_foreign (registry before) address = true).

Lemma contains_exec i address s r s' p :
  _norm address = Ok address -> s !! i = Some p ->
  client_contains (owned_client i) address s = (r, s') ->
  exists w, s' = <[i := set_peer w p]> s /\ (present w address <-> present (peer p) address) /\
    forall b, r = Ok b -> (b = true <-> present w address).
Proof.
  intros Hn Hi. simpl. unfold at_index. rewrite Hi. unfold soc_blocklist_contains. unfold mbind, lift. rewrite Hn.
  unfold on_peer. pose proof (contains_reads (raw := raws i) address (peer p) address) as Hr.
  pose proof (contains_answers (raw := raws i) address (peer p)) as Ha.
  destruct (raw_contains (raws i) address (peer p)) as [r0 w]. simpl in *. intros [= <- <-].
  exists w. split; [done|]. split; [done|]. intros b ->. by rewrite Hr, Ha.
Qed.

Lemma tag_released kind key :
  _released_without_removal (_tag kind key) = starts_with "shared:" (kind +:+ ":" +:+ str_last 12 key)
    || starts_with "preexisting:" (kind +:+ ":" +:+ str_last 12 key).
Proof. done. Qed.

Lemma revert_peer_released b address key name i s refs s' p :
  _norm address = Ok address -> s !! i = Some p ->
  revert_peer b address key {| peer_name := name; peer_client := owned_client i |} s = (Ok (refs, false), s') ->
  exists p', s' = <[i := p']> s /\ peer_released address key p p'.
Proof.
  intros Hn Hi. unfold revert_peer, attempt. cbn [peer_client].
  destruct (client_remove (owned_client i) address key s) as [r s1] eqn:Er. simpl in Er. unfold at_index in Er. rewrite Hi in Er.
  unfold remove_soc_blocklist_address in Er. unfold mbind, lift in Er. rewrite Hn in Er.
  destruct (remove_normalized (raws i) address key p) as [r0 p1] eqn:Erem. injection Er as <- <-.
  destruct r0 as [tag|e]; [|discriminate]. apply remove_releases in Erem as [Hnot Htag].
  assert (<[i := p1]> s !! i = Some p1) as Hi1 by (apply list_lookup_insert_eq; by eapply lookup_lt_Some).
  destruct (client_contains (owned_client i) address (<[i := p1]> s)) as [r1 s2] eqn:Ec.
  destruct (contains_exec _ _ _ _ _ _ Hn Hi1 Ec) as (w & -> & Hw & Hb). rewrite list_insert_insert_eq.
  destruct r1 as [[]|e].
  - destruct (_released_without_removal tag) eqn:Erel; [|discriminate]. intros [= _ <-]. exists (set_peer w p1). split; [done|].
    split; [done|]. right. destruct Htag as [[-> Hk]|[[-> Hf]|[-> | ->]]]; [by left|by right|discriminate..].
  - intros [= _ <-]. exists (set_peer w p1). split; [done|]. split; [done|]. left. simpl.
    intros Hp. by apply (Hb false eq_refl) in Hp.
  - discriminate.
Qed.

Lemma revert_peers_released b address key names :
  _norm address = Ok address ->
  forall i refs s refs' s', length s = (i + length names)%nat ->
  revert_peers b address key (owned_peers i names) refs [] s = (Ok (refs', []), s') ->
  below_same i s s' /\ forall j p p', (i <= j)%nat -> s !! j = Some p -> s' !! j = Some p' -> peer_released address key p p'.
Proof.
  intros Hn. induction names as [|name names IH]; intros i refs s refs' s' Hlen H; simpl in Hlen.
  { injection H as _ <-. split; [done|]. intros j p p' Hj Hs. apply lookup_lt_Some in Hs. lia. }
  cbn [owned_peers revert_peers] in H. unfold mbind in H.
  destruct (revert_peer b address key _ s) as [[[refs1 failed]|e] s1] eqn:E; [|discriminate]. cbn [fst snd] in H.
  assert (failed = false) as ->.
  { destruct failed; [|done]. exfalso. clear -H. cbn [peer_name] in H.
    assert (forall names i refs failures s refs' s', failures <> [] ->
      revert_peers b address key (owned_peers i names) refs failures s <> (Ok (refs', []), s')) as Hne.
    { clear. induction names as [|n names IH]; intros i refs failures s refs' s' Hf; cbn [owned_peers revert_peers].
      - unfold ret. congruence.
      - unfold mbind. destruct (revert_peer b address key _ s) as [[[r1 f1]|e] s1]; [|discriminate].
        apply IH. destruct (f1); simpl; [by destruct failures|done]. }
    by eapply Hne in H. }
  destruct (lookup_lt_is_Some_2 s i ltac:(lia)) as [p Hp].
  destruct (revert_peer_released _ _ _ _ _ _ _ _ _ Hn Hp E) as (p1 & -> & Hrel).
  apply IH in H as [Hb Hall]; [|rewrite length_insert; lia]. split.
  - destruct Hb as [L Hb]. rewrite length_insert in L. split; [done|]. intros j Hj. rewrite Hb by lia.
    by rewrite list_lookup_insert_ne by lia.
  - intros j q q' Hj Hq Hq'. destruct (decide (j = i)) as [->|Hne].
    + assert (q = p) as -> by congruence. rewrite (proj2 Hb) in Hq' by lia.
      rewrite list_lookup_insert_eq in Hq' by (eapply lookup_lt_Some, Hp). by injection Hq' as <-.
    + apply (Hall j); [lia| |done]. by rewrite list_lookup_insert_ne by lia.
Qed.
End firewalls.

(** ** The calls of one application *)
Section one_address.
Context {P : Type}.
Variable raws : nat -> RawSet P.
Variable present : P -> string -> Prop.
Variable address : string.
Hypothesis Hnorm : _norm address = Ok address.
Notation narrowed := (fun i => only_about address (raws i)).

Lemma ensure_narrowed i n : ensure_present (narrowed i) address n = ensure_present (raws i) address n.
Proof. unfold ensure_present, only_about. cbn [raw_contains raw_add]. by rewrite bool_decide_true. Qed.

(** An owned client makes no other call of its peer than those about the address it is asked for. *)
Lemma client_add_narrowed i key n :
  client_add (owned_client narrowed i) address key n = client_add (owned_client raws i) address key n.
Proof.
  cbn [client_add owned_client]. unfold add_soc_blocklist_address, mbind, lift. rewrite Hnorm.
  unfold add_normalized. rewrite ensure_narrowed. unfold only_about. cbn [raw_contains raw_add]. by rewrite bool_decide_true.
Qed.

Lemma client_contains_narrowed i : client_contains (owned_client narrowed i) address = client_contains (owned_client raws i) address.
Proof.
  cbn [client_contains owned_client]. unfold soc_blocklist_contains, mbind, lift. rewrite Hnorm.
  unfold only_about. cbn [raw_contains]. by rewrite bool_decide_true.
Qed.

Lemma apply_peers_narrowed b key n names : forall i applied applied' refs s loop s',
  apply_peers b address key n (owned_peers raws i names) applied refs s = (Ok (loop, true), s') ->
  exists left, apply_peers b address key n (owned_peers narrowed i names) applied' refs s = (Ok (left, loop.2, true), s').
Proof.
  induction names as [|name names IH]; intros i applied applied' refs s loop s' H; cbn [owned_peers apply_peers] in *.
  { injection H as <- <-. by exists applied'. }
  cbv zeta in *. unfold attempt in *. cbn [peer_client] in *. rewrite client_add_narrowed, client_contains_narrowed.
  destruct (client_add _ address key n s) as [[ref|e] s1]; [|discriminate].
  destruct (client_contains _ address s1) as [[[]|e] s2]; [|discriminate..]. by eapply IH.
Qed.

(** A successful application holds on every peer that keeps its promises about the address. *)
Lemma blocklist_apply_holds_about `{Hlaws : !forall i, RawSetLaws (narrowed i) present} name names c s out s' :
  _command_address c = Ok address -> length s = length names ->
  blocklist_apply (firewalls raws name names) c s = (Ok out, s') -> ok out = true ->
  forall j p, s' !! j = Some p -> peer_holds present address (idempotency_key c) p.
Proof.
  intros Ha Hlen H Hok. apply (blocklist_apply_holds narrowed present name names c address s out s' Ha Hlen); [|done].
  unfold blocklist_apply in *. unfold mbind, lift in *. rewrite Ha in *.
  destruct (_idempotency_key c) as [key|e]; [|discriminate].
  destruct (apply_peers _ address key (_lifetime c) _ [] [] s) as [[[[applied refs] through]|e] s1] eqn:El in H; [|discriminate].
  destruct through; [|destruct (_rollback_peers _ applied address key s1) as [[rb|e] s2]; [by injection H as <- _|discriminate]].
  destruct (apply_peers_narrowed _ key (_lifetime c) names 0 [] [] [] s _ s1 El) as [left El'].
  cbn [blocklist_peers firewalls] in *. change (apply_peers (firewalls narrowed name names)) with (apply_peers (firewalls raws name names)).
  by rewrite El'.
Qed.
End one_address.
