(* ===== verification/Engine.v ===== *)
(** [response/orchestrator/engine.py]: the reversible response lifecycle.

    The orchestrator's state is a record; every public method is a computation of the [M] monad
    over it, so that an exception keeps the mutations made before it.  A [_ResponseRecord] is
    mutable and shared with the [_records] dict in the code: here each mutation writes the
    record back under its key.  The mutex makes the methods atomic; [_serialized] is the rest
    of that decorator. *)

From S2P Require Import Prelude PyText PyNum PyTime PyNet PyJson Sha256 Policy Decision AuditLog Effects Store Adapters.

Record ResponseRecord : Type := {
  r_response_id : string;
  r_command : Command;
  r_expires_at : Z;
  r_state : lifecycle;
  r_transition_number : Z;
  r_adapter_reference : option string;
  r_authorized : bool;
  r_pending_operation : option string;
  r_operation_started_at : option string }.

Record OrchestrationResult : Type := {
  o_response_id : string;
  o_state : lifecycle;
  o_accepted : bool;
  o_deduplicated : bool;
  o_message : option string;
  o_audit_event : option AuditEvent }.

(** The audit ledger in use: the in-memory one, or the persistent store. *)
Inductive Backend : Type :=
| Memory (l : Ledger)
| Persistent (s : Store).

Record Orchestrator (W : Type) : Type := {
  records : list (string * ResponseRecord);
  dedup : list (string * (string * Z));
  storage_failed : bool;
  backend : Backend;
  world : W }.
Arguments records {W}.
Arguments dedup {W}.
Arguments storage_failed {W}.
Arguments backend {W}.
Arguments world {W}.

(** * Helpers without state *)
Definition orchestrator_utc (utc_now : Z) (value : option pydatetime) : result Z :=
  match default (Aware utc_now) value with
  | Naive => Err (CommandRejected "orchestrator timestamps must include a timezone")
  | Aware t => Ok t
  end.

Definition parse_rfc3339 (v : val) (label : string) : result Z :=
  match v with
  | VStr s =>
      if String.eqb s "" then Err (CommandRejected (label +:+ " must be an RFC3339 timestamp"))
      else match fromisoformat_z s with
           | None => Err (CommandRejected (label +:+ " is invalid"))
           | Some (_, None) => Err (CommandRejected (label +:+ " must include a timezone"))
           | Some (local, Some offset) => shift local (- offset)
           end
  | _ => Err (CommandRejected (label +:+ " must be an RFC3339 timestamp"))
  end.

Definition _response_id (idempotency_key : string) : string :=
  "resp-" +:+ str_take 24 (hexdigest (sha256 (utf8 idempotency_key))).

Definition _failure_payload (timestamp : Z) (code message : string) : Failure :=
  {| failure_code := str_take 128 code; failure_message := str_take 2048 message; failed_at := _rfc3339 timestamp |}.

(** [a or b] for optional strings: the empty string is false too. *)
Definition or_else (o : option string) (fallback : string) : string :=
  match o with
  | Some s => if String.eqb s "" then fallback else s
  | None => fallback
  end.

Definition _require_state (r : ResponseRecord) (expected : lifecycle) : result unit :=
  raise_if (negb (bool_decide (r_state r = expected)))
    (CommandRejected ("response " +:+ r_response_id r +:+ " is " +:+ state_text (r_state r) +:+ ", expected " +:+ state_text expected)).

(** What a target is contained under: the action and the normalized address or host. *)
Definition target_identity (c : Command) : result (string * string) :=
  let v := target_value (cmd_target c) in
  if String.eqb (target_type (cmd_target c)) "ip" then
    match ip_address v with
    | Some a => Ok (cmd_action c, ip_text a)
    | None => Err (ValueError (py_repr v +:+ " does not appear to be an IPv4 or IPv6 address"))
    end
  else Ok (cmd_action c, py_lower (strip v)).

(** An operation was begun and not concluded, or a failed response still owns a reference. *)
Definition unresolved (r : ResponseRecord) : bool :=
  is_present (r_pending_operation r) || (bool_decide (r_state r = FAILED) && is_present (r_adapter_reference r)).

Definition active_state (s : lifecycle) : bool := bool_decide (s = APPLIED) || bool_decide (s = VERIFIED).

Definition holds_target (r : ResponseRecord) : bool := unresolved r || active_state (r_state r).

Fixpoint _assert_target_available (rs : list (string * ResponseRecord)) (r : ResponseRecord) : result unit :=
  match rs with
  | [] => Ok tt
  | (_, other) :: rest =>
      (if String.eqb (r_response_id other) (r_response_id r) || negb (holds_target other) then Ok tt else
       let? a := target_identity (r_command other) in
       let? b := target_identity (r_command r) in
       raise_if (bool_decide (a = b)) (CommandRejected "target has an active or unresolved containment operation")) ;;?
      _assert_target_available rest r
  end.

Definition snapshot_of (r : ResponseRecord) : Snapshot :=
  {| s_response_id := r_response_id r; s_command := r_command r; s_expires_at := _rfc3339 (r_expires_at r);
     s_state := r_state r; s_transition_number := r_transition_number r; s_adapter_reference := r_adapter_reference r;
     s_authorized := r_authorized r; s_pending_operation := r_pending_operation r;
     s_operation_started_at := r_operation_started_at r |}.

(** ** Record updates *)
Definition with_state (s : lifecycle) (r : ResponseRecord) : ResponseRecord :=
  {| r_response_id := r_response_id r; r_command := r_command r; r_expires_at := r_expires_at r; r_state := s;
     r_transition_number := r_transition_number r + 1; r_adapter_reference := r_adapter_reference r;
     r_authorized := r_authorized r; r_pending_operation := r_pending_operation r;
     r_operation_started_at := r_operation_started_at r |}.

Definition with_pending (op started : option string) (r : ResponseRecord) : ResponseRecord :=
  {| r_response_id := r_response_id r; r_command := r_command r; r_expires_at := r_expires_at r; r_state := r_state r;
     r_transition_number := r_transition_number r; r_adapter_reference := r_adapter_reference r;
     r_authorized := r_authorized r; r_pending_operation := op; r_operation_started_at := started |}.

Definition with_reference (ref : string) (r : ResponseRecord) : ResponseRecord :=
  {| r_response_id := r_response_id r; r_command := r_command r; r_expires_at := r_expires_at r; r_state := r_state r;
     r_transition_number := r_transition_number r; r_adapter_reference := Some ref;
     r_authorized := r_authorized r; r_pending_operation := r_pending_operation r;
     r_operation_started_at := r_operation_started_at r |}.

Definition with_authorized (r : ResponseRecord) : ResponseRecord :=
  {| r_response_id := r_response_id r; r_command := r_command r; r_expires_at := r_expires_at r; r_state := r_state r;
     r_transition_number := r_transition_number r; r_adapter_reference := r_adapter_reference r;
     r_authorized := true; r_pending_operation := r_pending_operation r;
     r_operation_started_at := r_operation_started_at r |}.

Definition new_record (response_id : string) (c : Command) (expires_at : Z) : ResponseRecord :=
  {| r_response_id := response_id; r_command := c; r_expires_at := expires_at; r_state := REQUESTED;
     r_transition_number := 0; r_adapter_reference := None; r_authorized := false; r_pending_operation := None;
     r_operation_started_at := None |}.

Section engine.
Context {W A : Type} `{!CommandAuthenticator A}.
Variable catalog : PolicyCatalog.
Variable authenticator : A.
(** [self._adapters]: one adapter per action. *)
Variable adapters : list (string * ContainmentAdapter W).

Notation O := (Orchestrator W).

(** ** State access *)
Definition set_records (x : list (string * ResponseRecord)) (o : O) : O :=
  {| records := x; dedup := dedup o; storage_failed := storage_failed o; backend := backend o; world := world o |}.
Definition set_dedup (x : list (string * (string * Z))) (o : O) : O :=
  {| records := records o; dedup := x; storage_failed := storage_failed o; backend := backend o; world := world o |}.
Definition set_failed (o : O) : O :=
  {| records := records o; dedup := dedup o; storage_failed := true; backend := backend o; world := world o |}.
Definition set_backend (b : Backend) (o : O) : O :=
  {| records := records o; dedup := dedup o; storage_failed := storage_failed o; backend := b; world := world o |}.
Definition set_world (w : W) (o : O) : O :=
  {| records := records o; dedup := dedup o; storage_failed := storage_failed o; backend := backend o; world := w |}.

Definition put_record (r : ResponseRecord) : M O unit :=
  modify (fun o => set_records (assoc_set (r_response_id r) r (records o)) o).

Definition _record (response_id : string) : M O ResponseRecord :=
  fun o => (match assoc response_id (records o) with
            | Some r => Ok r
            | None => Err (CommandRejected ("unknown response: " +:+ response_id))
            end, o).

Definition lookup_adapter (action : string) : result (ContainmentAdapter W) :=
  match assoc action adapters with
  | Some a => Ok a
  | None => Err (KeyError action)
  end.

(** A call on the persistent store, and one on the in-memory ledger; each is skipped with the
    other backend. *)
Definition on_store {X} (m : M Store X) (otherwise : X) : M O X :=
  fun o => match backend o with
           | Memory _ => (Ok otherwise, o)
           | Persistent s => let '(r, s') := m s in (r, set_backend (Persistent s') o)
           end.

Definition on_ledger (f : Ledger -> result Ledger) : M O unit :=
  fun o => match backend o with
           | Persistent _ => (Ok tt, o)
           | Memory l =>
               match f l with
               | Ok l' => (Ok tt, set_backend (Memory l') o)
               | Err e => (Err e, o)
               end
           end.

Definition backend_events (b : Backend) (response_id : string) : list AuditEvent :=
  match b with
  | Memory l => events l response_id
  | Persistent s => store_events (tables s) response_id
  end.

(** [self._ledger.events(response_id)], [self._ledger.latest(response_id)]. *)
Definition ledger_events (response_id : string) : M O (list AuditEvent) :=
  on_store (exclusive (ret tt)) tt ;;! gets (fun o => backend_events (backend o) response_id).

Definition ledger_requested_since (policy_id : string) (since : Z) : M O Z :=
  fun o => match backend o with
           | Memory l => (requested_since l policy_id since, o)
           | Persistent s => let '(r, s') := store_requested_since policy_id since s in (r, set_backend (Persistent s') o)
           end.

Definition ledger_commands : M O (list (string * Command)) :=
  fun o => match backend o with
           | Memory l => (Ok (saved_commands l), o)
           | Persistent s => let '(r, s') := store_commands s in (r, set_backend (Persistent s') o)
           end.

(** The decorator of every public method. *)
Definition _serialized {X} (m : M O X) : M O X :=
  let! failed := gets storage_failed in
  raise_when failed (RuntimeError "response persistence failed; close and reopen the store before recovery") ;;!
  on_store (exclusive (ret tt)) tt ;;! m.

(** ** Checkpoints and transitions *)
Definition _checkpoint (r : ResponseRecord) (event : option AuditEvent) : M O unit :=
  catch (on_store (checkpoint (snapshot_of r) event) tt) (fun _ => true)
    (fun e => modify set_failed ;;! raise e).

Definition intent_of (r : ResponseRecord) : option ActionIntent :=
  match r_pending_operation r with
  | Some op => if String.eqb op "" then None else
      Some {| intent_operation := op; intent_started_at := r_operation_started_at r;
              intent_reference := r_adapter_reference r |}
  | None => None
  end.

(** [_transition]: the updated record and the event; the caller's record is changed only when
    the event is recorded. *)
Definition _transition (r : ResponseRecord) (state : lifecycle) (timestamp : Z) (app : option Application)
    (ver : option Verification) (rb : option Rollback) (fail : option Failure) (clear_intent : bool) :
    M O (ResponseRecord * AuditEvent) :=
  let! adapter := lift (lookup_adapter (cmd_action (r_command r))) in
  let event := build_event (r_command r) (r_response_id r) (r_expires_at r) (Some (adapter_name adapter)) state
    (if r_transition_number r =? 0 then None else Some (r_state r)) (r_transition_number r + 1) timestamp
    app ver rb fail (intent_of r) in
  let updated := (if clear_intent then with_pending None None else (fun x => x)) (with_state state r) in
  _checkpoint updated (Some event) ;;!
  on_ledger (fun l => append l event) ;;!
  ret (updated, event).

(** The same for a record that is in [_records]. *)
Definition transition_record (r : ResponseRecord) (state : lifecycle) (timestamp : Z) (app : option Application)
    (ver : option Verification) (rb : option Rollback) (fail : option Failure) (clear_intent : bool) :
    M O AuditEvent :=
  let! '(updated, event) := _transition r state timestamp app ver rb fail clear_intent in
  put_record updated ;;! ret event.

Definition _begin_operation (r : ResponseRecord) (operation : string) (timestamp : Z) : M O ResponseRecord :=
  let r := with_pending (Some operation) (Some (_rfc3339 timestamp)) r in
  put_record r ;;! _checkpoint r None ;;! ret r.

Definition _fail (r : ResponseRecord) (timestamp : Z) (code message : string) : M O AuditEvent :=
  transition_record r FAILED timestamp None None None (Some (_failure_payload timestamp code message)) false.

Definition _fail_from_outcome (r : ResponseRecord) (timestamp : Z) (outcome : AdapterOutcome) (fallback : string) : M O AuditEvent :=
  _fail r timestamp (or_else (outcome_code outcome) fallback)
    (or_else (outcome_message outcome) "constrained adapter failed without a message").

(** [_invoke]: whatever an adapter method does, an outcome comes back. *)
Definition _invoke (call : M W raw_outcome) (error_code : string) : M O AdapterOutcome :=
  fun o =>
    let '(r, w') := call (world o) in
    (Ok match r with
        | Err _ => outcome_failure error_code "adapter outcome is unknown; recovery is required" []
        | Ok Malformed => outcome_failure "ADAPTER_INVALID_OUTCOME" "adapter returned no valid outcome; recovery is required" []
        | Ok (Outcome out) =>
            if existsb (fun ref => String.eqb ref "") (evidence_refs out)
            then outcome_failure "ADAPTER_INVALID_OUTCOME" "adapter returned no valid outcome; recovery is required" []
            else out
        end, set_world w' o).

Definition _application (r : ResponseRecord) : M O (option Application) :=
  let! h := ledger_events (r_response_id r) in
  ret (head (omap application (rev h))).

Definition _applied_at (r : ResponseRecord) : M O string :=
  let! app := _application r in
  match app with
  | Some a => ret (applied_at a)
  | None => raise (CommandRejected "response audit history lacks an applied timestamp")
  end.

Definition result_of (response_id : string) (state : lifecycle) (accepted : bool) (message : option string)
    (event : option AuditEvent) : OrchestrationResult :=
  {| o_response_id := response_id; o_state := state; o_accepted := accepted; o_deduplicated := false;
     o_message := message; o_audit_event := event |}.

Definition proves (out : AdapterOutcome) : bool := ok out && negb (Nat.eqb (length (evidence_refs out)) 0).

Definition assert_reference (r : ResponseRecord) : result string :=
  match r_adapter_reference r with
  | Some ref => Ok ref
  | None => Err AssertionError
  end.

Definition _revert (r : ResponseRecord) (timestamp : Z) (terminal : lifecycle) (cause : string) : M O OrchestrationResult :=
  let! ref := lift (assert_reference r) in
  let! adapter := lift (lookup_adapter (cmd_action (r_command r))) in
  let! r := _begin_operation r "revert" timestamp in
  let! out := _invoke (adapter_revert adapter (r_command r) ref) "ADAPTER_OUTCOME_UNKNOWN" in
  if negb (proves out) then
    let! failed := _fail_from_outcome r timestamp out "ADAPTER_REVERT_FAILED" in
    ret (result_of (r_response_id r) FAILED false (Some (or_else (outcome_message out) "rollback failed")) (Some failed))
  else
    let! app := _application r in
    let! event := transition_record r terminal timestamp app None
      (Some {| completed_at := _rfc3339 timestamp; rollback_cause := cause; rollback_refs := evidence_refs out |}) None true in
    ret (result_of (r_response_id r) terminal true (Some "action reversed and verified by the adapter") (Some event)).

(** ** Command validation *)
Definition command_fields : list string :=
  ["schema_version"; "request_id"; "decision_event_id"; "correlation_id"; "policy"; "target"; "action";
   "ttl_seconds"; "allowlist_checked"; "rollback_required"; "idempotency_key"; "authorization"].

Definition command_text (command : mapping) (field : string) : result string :=
  match get field command with
  | VStr s => if String.eqb s "" then Err (CommandRejected ("response command " +:+ field +:+ " must be non-empty")) else Ok s
  | _ => Err (CommandRejected ("response command " +:+ field +:+ " must be non-empty"))
  end.

Definition is_true (v : val) : bool := match v with VBool true => true | _ => false end.

(** The policy the command names, when it is the active one. *)
Definition command_policy (policy_data : val) : result ResponsePolicy :=
  match policy_data with
  | VDict d =>
      raise_if (negb (same_keys (keys d) ["id"; "version"; "sha256"])) (CommandRejected "response command policy is malformed") ;;?
      match get "id" d with
      | VStr id =>
          match policy catalog id with
          | Ok p =>
              raise_if (negb (py_eq (VDict d) (policy_val p)))
                (CommandRejected "response command policy version or hash does not match active policy") ;;?
              Ok p
          | Err _ => Err (CommandRejected "response command policy is unknown")
          end
      | _ => Err (CommandRejected "response command policy is unknown")
      end
  | _ => Err (CommandRejected "response command policy is malformed")
  end.

Definition command_target (value : val) : result target :=
  match value with
  | VDict d =>
      raise_if (negb (same_keys (keys d) ["type"; "value"])) (CommandRejected "response command target is malformed") ;;?
      let bad := CommandRejected "response command target has an unsupported type or value" in
      match get "type" d, get "value" d with
      | VStr ty, VStr v =>
          raise_if (negb (str_in ty ["ip"; "host"]) || String.eqb v "" || (255 <? str_len v)) bad ;;?
          Ok {| target_type := ty; target_value := v |}
      | _, _ => Err bad
      end
  | _ => Err (CommandRejected "response command target is malformed")
  end.

Definition check_action_target (action : string) (t : target) : result unit :=
  raise_if (String.eqb action "block_ip" && negb (String.eqb (target_type t) "ip"))
    (CommandRejected "block_ip command must target an IP address") ;;?
  raise_if (String.eqb action "block_ip" && negb (is_present (ip_address (target_value t))))
    (CommandRejected "block_ip command target is not a valid IP address") ;;?
  raise_if (String.eqb action "isolate_host" && negb (String.eqb (target_type t) "host"))
    (CommandRejected "isolate_host command must target a host").

Definition authorization_fields : list string := ["issuer"; "key_id"; "signature"; "issued_at"; "expires_at"].

Definition text_of (v : val) : string := match v with VStr s => s | _ => "" end.

(** The authorization object and its lifetime. *)
Definition command_authorization (value : val) (now : Z) : result mapping :=
  match value with
  | VDict d =>
      raise_if (negb (same_keys (keys d) authorization_fields)) (CommandRejected "response command authorization is malformed") ;;?
      raise_if (negb (py_eq (get "issuer" d) (VStr "decision_engine"))) (CommandRejected "response command issuer is not trusted") ;;?
      let? issued_at := parse_rfc3339 (get "issued_at" d) "authorization.issued_at" in
      let? expires_at := parse_rfc3339 (get "expires_at" d) "authorization.expires_at" in
      raise_if (expires_at <=? issued_at) (CommandRejected "response command authorization expiry must follow issuance") ;;?
      let? latest := shift now (seconds 60) in
      raise_if (latest <? issued_at) (CommandRejected "response command authorization is issued too far in the future") ;;?
      raise_if (seconds (command_valid_for_seconds catalog) <? expires_at - issued_at)
        (CommandRejected "response command authorization lifetime exceeds active policy") ;;?
      Ok d
  | _ => Err (CommandRejected "response command authorization is malformed")
  end.

(** The number of a TTL field that equals the policy's. *)
Definition ttl_number (v : val) : pynum := default (PInt 0) (as_number v).

Definition _validate_command (value : val) (now : Z) : result Command :=
  match value with
  | VDict command =>
      raise_if (negb (same_keys (keys command) command_fields))
        (CommandRejected "response command has missing or unsupported fields") ;;?
      raise_if (negb (py_eq (get "schema_version" command) (VStr "response-command-v1")))
        (CommandRejected "unsupported response command schema") ;;?
      let? request := command_text command "request_id" in
      let? decision := command_text command "decision_event_id" in
      let? correlation := command_text command "correlation_id" in
      let? idempotency := command_text command "idempotency_key" in
      raise_if (negb (is_true (get "allowlist_checked" command)) || negb (is_true (get "rollback_required" command)))
        (CommandRejected "response command must require allowlist checking and rollback") ;;?
      let? p := command_policy (get "policy" command) in
      raise_if (negb (py_eq (get "action" command) (VStr (policy_action p))))
        (CommandRejected "response command action differs from active policy") ;;?
      raise_if (negb (py_eq (get "ttl_seconds" command) (VInt (ttl_seconds p))))
        (CommandRejected "response command TTL differs from active policy") ;;?
      let? t := command_target (get "target" command) in
      check_action_target (policy_action p) t ;;?
      let? authorization := command_authorization (get "authorization" command) now in
      match verify authenticator now command (Some (Aware now)) with
      | Ok _ =>
          Ok {| request_id := request; decision_event_id := decision; correlation_id := correlation;
                idempotency_key := idempotency; cmd_policy_id := policy_id p; cmd_policy_version := policy_version p;
                cmd_policy_sha256 := policy_sha256 p; cmd_target := t; cmd_action := policy_action p;
                cmd_ttl := ttl_number (get "ttl_seconds" command);
                auth_key_id := get "key_id" authorization; auth_signature := get "signature" authorization;
                auth_issued_at := text_of (get "issued_at" authorization);
                auth_expires_at := text_of (get "expires_at" authorization) |}
      | Err (CorrelationRejected m) => Err (CommandRejected m)
      | Err e => Err e
      end
  | _ => Err (CommandRejected "response command must be an object")
  end.

(** [timedelta(seconds=command["ttl_seconds"])] of a TTL that equals an integer. *)
Definition ttl_delta (c : Command) : result Z := let? z := py_int (cmd_ttl c) in Ok (seconds z).

(** ** Public methods *)
Definition _prune_dedup (now : Z) : M O unit :=
  modify (fun o => set_dedup (List.filter (fun kv => now <? kv.2.2) (dedup o)) o).

Definition duplicate_result (response_id : string) : M O OrchestrationResult :=
  let! r := _record response_id in
  let! h := ledger_events response_id in
  ret {| o_response_id := response_id; o_state := r_state r;
         o_accepted := r_authorized r && negb (bool_decide (r_state r = FAILED)) && negb (is_present (r_pending_operation r));
         o_deduplicated := true; o_message := Some "duplicate command did not create another privileged action";
         o_audit_event := last h |}.

(** The part of [submit] that creates the response: recorded in [REQUESTED], then checked
    against the protections and the rate limit. *)
Definition admit_command (c : Command) (response_id : string) (timestamp : Z) : M O OrchestrationResult :=
  let! ttl := lift (ttl_delta c) in
  let! expires_at := lift (shift timestamp ttl) in
  let r := new_record response_id c expires_at in
  on_ledger (fun l => save_command l response_id c) ;;!
  let! '(r, requested) := _transition r REQUESTED timestamp None None None None false in
  put_record r ;;!
  let! until := lift (shift timestamp (seconds (dedup_seconds catalog))) in
  modify (fun o => set_dedup (assoc_set (idempotency_key c) (response_id, until) (dedup o)) o) ;;!
  match assert_target_allowed (protections catalog) (cmd_action c) (target_type (cmd_target c)) (target_value (cmd_target c)) with
  | Err (PolicyError m) =>
      let! failed := _fail r timestamp "TARGET_PROTECTED" m in
      ret (result_of response_id FAILED false (Some "orchestrator rejected protected target") (Some failed))
  | Err e => raise e
  | Ok _ =>
      let! since := lift (shift timestamp (- seconds (window_seconds (rate_limit catalog)))) in
      let! n := ledger_requested_since (cmd_policy_id c) since in
      if max_actions (rate_limit catalog) <? n then
        let! failed := _fail r timestamp "RATE_LIMITED" "automatic response rate limit reached; no adapter was invoked" in
        ret (result_of response_id FAILED false (Some "automatic response rate limited") (Some failed))
      else
        let r := with_authorized r in
        put_record r ;;! _checkpoint r None ;;!
        ret (result_of response_id REQUESTED true None (Some requested))
  end.

Definition submit (value : val) (utc_now : Z) (now : option pydatetime) : M O OrchestrationResult :=
  _serialized (
    let! timestamp := lift (orchestrator_utc utc_now now) in
    let! c := lift (_validate_command value timestamp) in
    _prune_dedup timestamp ;;!
    let! cached := gets (fun o => assoc (idempotency_key c) (dedup o)) in
    let response_id := _response_id (idempotency_key c) in
    let! known := gets (fun o => is_present (assoc response_id (records o))) in
    match cached with
    | Some (cached_id, _) => duplicate_result cached_id
    | None => if known then duplicate_result response_id else admit_command c response_id timestamp
    end).

(** The adapter call of [apply] and the record of its outcome, once the intent is recorded. *)
Definition conclude_apply (adapter : ContainmentAdapter W) (r : ResponseRecord) (timestamp : Z) : M O OrchestrationResult :=
  let! out := _invoke (adapter_apply adapter (r_command r)) "APPLICATION_OUTCOME_UNKNOWN" in
  if negb (ok out) || String.eqb (default "" (adapter_reference out)) "" then
    let! failed := _fail_from_outcome r timestamp out "ADAPTER_APPLY_FAILED" in
    ret (result_of (r_response_id r) FAILED false (Some (or_else (outcome_message out) "adapter apply failed")) (Some failed))
  else
    let ref := default "" (adapter_reference out) in
    let r := with_reference ref r in
    put_record r ;;!
    let! event := transition_record r APPLIED timestamp
      (Some {| applied_at := _rfc3339 timestamp; app_reference := ref |}) None None None true in
    ret (result_of (r_response_id r) APPLIED true (Some "action applied; containment is not successful until verification") (Some event)).

(** The end of [apply], once every check has passed. *)
Definition run_apply (adapter : ContainmentAdapter W) (r : ResponseRecord) (reference : string) (timestamp : Z) :
    M O OrchestrationResult :=
  let r := with_reference reference r in
  put_record r ;;!
  on_ledger (fun l => claim_apply l (r_response_id r)) ;;!
  let! r := _begin_operation r "apply" timestamp in
  conclude_apply adapter r timestamp.

(** Whether the queued command is still authorized; other exceptions than the two go through. *)
Definition reauthorize (c : Command) (timestamp : Z) : result bool :=
  match (let? _ := _validate_command (VDict (command_mapping_of c)) timestamp in
         assert_target_allowed (protections catalog) (cmd_action c) (target_type (cmd_target c)) (target_value (cmd_target c))) with
  | Ok _ => Ok true
  | Err (CommandRejected _) | Err (PolicyError _) => Ok false
  | Err e => Err e
  end.

Definition apply (response_id : string) (utc_now : Z) (now : option pydatetime) : M O OrchestrationResult :=
  _serialized (
    let! timestamp := lift (orchestrator_utc utc_now now) in
    let! r := _record response_id in
    lift (_require_state r REQUESTED) ;;!
    raise_when (negb (r_authorized r)) (CommandRejected "response submission did not complete authorization") ;;!
    raise_when (is_present (r_adapter_reference r)) (CommandRejected "prior adapter application requires audit reconciliation") ;;!
    if r_expires_at r <=? timestamp then
      let! failed := _fail r timestamp "EXPIRED_BEFORE_APPLY" "containment TTL elapsed before adapter invocation" in
      ret (result_of response_id FAILED false None (Some failed))
    else
      let! authorized := lift (reauthorize (r_command r) timestamp) in
      if negb authorized then
        let! failed := _fail r timestamp "REAUTHORIZATION_FAILED" "queued command no longer authorized" in
        ret (result_of response_id FAILED false None (Some failed))
      else
        let! adapter := lift (lookup_adapter (cmd_action (r_command r))) in
        let! rs := gets records in
        lift (_assert_target_available rs r) ;;!
        let! reference := lift (recovery_reference adapter (r_command r)) in
        raise_when (String.eqb (default "" reference) "")
          (CommandRejected "adapter must provide a stable recovery reference before apply") ;;!
        run_apply adapter r (default "" reference) timestamp).

(** The compensation of a verification that failed. *)
Definition compensate (adapter : ContainmentAdapter W) (r : ResponseRecord) (ref : string) (out : AdapterOutcome) (timestamp : Z) :
    M O OrchestrationResult :=
  let rid := r_response_id r in
  let! r := _begin_operation r "revert" timestamp in
  let! rb := _invoke (adapter_revert adapter (r_command r) ref) "ADAPTER_OUTCOME_UNKNOWN" in
  if proves rb then
    let! at_ := _applied_at r in
    let! event := transition_record r ROLLED_BACK timestamp (Some {| applied_at := at_; app_reference := ref |}) None
      (Some {| completed_at := _rfc3339 timestamp; rollback_cause := "failed_verification"; rollback_refs := evidence_refs rb |})
      (Some (_failure_payload timestamp (or_else (outcome_code out) "VERIFICATION_FAILED")
        (or_else (outcome_message out) "adapter did not prove containment"))) true in
    ret (result_of rid ROLLED_BACK false (Some "verification failed; action rolled back") (Some event))
  else
    let! failed := _fail_from_outcome r timestamp rb "VERIFY_AND_ROLLBACK_FAILED" in
    ret (result_of rid FAILED false (Some "verification failed and rollback could not be proven") (Some failed)).

Definition verify_response (response_id : string) (utc_now : Z) (now : option pydatetime) : M O OrchestrationResult :=
  _serialized (
    let! timestamp := lift (orchestrator_utc utc_now now) in
    let! r := _record response_id in
    lift (_require_state r APPLIED) ;;!
    raise_when (is_present (r_pending_operation r))
      (CommandRejected "unfinished adapter operation must be recovered before verification") ;;!
    if r_expires_at r <=? timestamp then _revert r timestamp ROLLED_BACK "ttl_expired"
    else
      let! ref := lift (assert_reference r) in
      let! adapter := lift (lookup_adapter (cmd_action (r_command r))) in
      let! out := _invoke (adapter_verify adapter (r_command r) ref) "ADAPTER_OUTCOME_UNKNOWN" in
      if proves out then
        let! at_ := _applied_at r in
        let! event := transition_record r VERIFIED timestamp (Some {| applied_at := at_; app_reference := ref |})
          (Some {| verified_at := _rfc3339 timestamp; verification_refs := evidence_refs out |}) None None false in
        ret (result_of response_id VERIFIED true (Some "containment verified") (Some event))
      else compensate adapter r ref out timestamp).

(** Whether a sweep at [timestamp] reverts the record. *)
Definition is_due (timestamp : Z) (r : ResponseRecord) : bool :=
  (active_state (r_state r) || unresolved r) && (r_expires_at r <=? timestamp).

(** One sweep over the records as they were listed when it began. *)
Fixpoint sweep (selected : ResponseRecord -> bool) (act : ResponseRecord -> M O OrchestrationResult) (ids : list string) :
    M O (list OrchestrationResult) :=
  match ids with
  | [] => ret []
  | rid :: rest =>
      let! r := _record rid in
      if selected r then let! x := act r in let! xs := sweep selected act rest in ret (x :: xs)
      else sweep selected act rest
  end.

Definition expire_due (utc_now : Z) (now : option pydatetime) : M O (list OrchestrationResult) :=
  _serialized (
    let! timestamp := lift (orchestrator_utc utc_now now) in
    let! ids := gets (fun o => (records o).*1) in
    sweep (is_due timestamp)
      (fun r => _revert r timestamp (if bool_decide (r_state r = VERIFIED) then EXPIRED else ROLLED_BACK) "ttl_expired") ids).

Definition rollback_response (response_id cause : string) (utc_now : Z) (now : option pydatetime) : M O OrchestrationResult :=
  _serialized (
    raise_when (negb (str_in cause ["manual"; "recovery"])) (CommandRejected "manual rollback cause must be manual or recovery") ;;!
    let! timestamp := lift (orchestrator_utc utc_now now) in
    let! r := _record response_id in
    raise_when (negb (active_state (r_state r)) && negb (unresolved r))
      (CommandRejected ("response " +:+ response_id +:+ " cannot be rolled back from " +:+ state_text (r_state r))) ;;!
    _revert r timestamp ROLLED_BACK cause).

Definition recover_pending (utc_now : Z) (now : option pydatetime) : M O (list OrchestrationResult) :=
  _serialized (
    let! timestamp := lift (orchestrator_utc utc_now now) in
    let! ids := gets (fun o => (records o).*1) in
    sweep (fun r => is_present (r_pending_operation r)) (fun r => _revert r timestamp ROLLED_BACK "recovery") ids).

Definition ready_to_apply (r : ResponseRecord) : bool :=
  bool_decide (r_state r = REQUESTED) && r_authorized r && negb (is_present (r_adapter_reference r))
  && negb (is_present (r_pending_operation r)).

Definition pending_apply : M O (list string) :=
  _serialized (gets (fun o => map r_response_id (List.filter ready_to_apply (map snd (records o))))).

Definition awaiting_verification : M O (list string) :=
  _serialized (gets (fun o => map r_response_id (List.filter
    (fun r => bool_decide (r_state r = APPLIED) && negb (is_present (r_pending_operation r))) (map snd (records o))))).

Definition snapshot (response_id : string) : M O val :=
  _serialized (let! r := _record response_id in
    ret (VDict [("response_id", VStr (r_response_id r)); ("state", VStr (state_text (r_state r)));
      ("action", VStr (cmd_action (r_command r))); ("target", target_val (cmd_target (r_command r)));
      ("expires_at", VStr (_rfc3339 (r_expires_at r))); ("authorized", VBool (r_authorized r));
      ("pending_operation", opt_text_val (r_pending_operation r))])).

Definition audit_history (response_id : string) : M O (list AuditEvent) :=
  _serialized (_record response_id ;;! ledger_events response_id).

(** One event of a recovered history agrees with the signed command. *)
Definition event_agrees (c : Command) (expires_at : string) (e : AuditEvent) : bool :=
  bool_decide (ev_target e = cmd_target c) && String.eqb (ev_action e) (cmd_action c) &&
  String.eqb (ev_idempotency_key e) (idempotency_key c) && String.eqb (ev_expires_at e) expires_at.

(** The rollback-only record of one command of the ledger; none when it has no history. *)
Definition restore_one (response_id : string) (c : Command) : M O (option ResponseRecord) :=
  let! h := ledger_events response_id in
  match head h, last h with
  | Some first, Some final =>
      let! accepted_at := lift (parse_rfc3339 (VStr (ev_timestamp first)) "acceptance timestamp") in
      lift (verify authenticator accepted_at (command_mapping_of c) (Some (Aware accepted_at))) ;;!
      raise_when (negb (String.eqb (_response_id (idempotency_key c)) response_id))
        (CommandRejected "recovery command identity mismatch") ;;!
      raise_when (negb (forallb (event_agrees c (ev_expires_at first)) h))
        (CommandRejected "recovery audit differs from signed command") ;;!
      let! expires_at := lift (parse_rfc3339 (VStr (ev_expires_at first)) "containment expiry") in
      ret (Some {| r_response_id := response_id; r_command := c; r_expires_at := expires_at; r_state := ev_state final;
        r_transition_number := transition_number final;
        r_adapter_reference := option_map app_reference (head (omap application (rev h)));
        r_authorized := false; r_pending_operation := None; r_operation_started_at := None |})
  | _, _ => ret None
  end.

Fixpoint restore_all (commands : list (string * Command)) (restored : list (string * ResponseRecord)) :
    M O (list (string * ResponseRecord)) :=
  match commands with
  | [] => ret restored
  | (rid, c) :: rest =>
      let! r := restore_one rid c in
      restore_all rest (match r with Some r => assoc_set rid r restored | None => restored end)
  end.

Definition restore_recovery : M O (list string) :=
  _serialized (
    let! rs := gets records in
    raise_when (negb (Nat.eqb (length rs) 0)) (CommandRejected "recovery requires a fresh orchestrator") ;;!
    let! commands := ledger_commands in
    let! restored := restore_all commands [] in
    modify (set_records restored) ;;! ret (restored.*1)).

(** ** Construction *)

(** One checkpointed record, checked against its signature and its history. *)
Definition restore_snapshot (s : Snapshot) : M O ResponseRecord :=
  let! expires_at := lift (parse_rfc3339 (VStr (s_expires_at s)) "checkpoint.expires_at") in
  let c := s_command s in
  raise_when (negb (String.eqb (s_response_id s) (_response_id (idempotency_key c))))
    (CommandRejected "checkpoint response identity is invalid") ;;!
  let! h := ledger_events (s_response_id s) in
  let! accepted_at := lift (match head h with
                            | Some first => parse_rfc3339 (VStr (ev_timestamp first)) "checkpoint.accepted_at"
                            | None => Err (KeyError "0")
                            end) in
  lift (verify authenticator accepted_at (command_mapping_of c) (Some (Aware accepted_at))) ;;!
  raise_when (negb (forallb (event_agrees c (_rfc3339 expires_at)) h))
    (CommandRejected "checkpoint audit differs from signed command") ;;!
  ret {| r_response_id := s_response_id s; r_command := c; r_expires_at := expires_at; r_state := s_state s;
         r_transition_number := s_transition_number s; r_adapter_reference := s_adapter_reference s;
         r_authorized := s_authorized s; r_pending_operation := s_pending_operation s;
         r_operation_started_at := s_operation_started_at s |}.

Fixpoint restore_snapshots (l : list Snapshot) : M O unit :=
  match l with
  | [] => ret tt
  | s :: rest => let! r := restore_snapshot s in put_record r ;;! restore_snapshots rest
  end.

Definition initial (b : Backend) (w : W) : O :=
  {| records := []; dedup := []; storage_failed := false; backend := b; world := w |}.

(** [__init__] over a persistent store: claim it, load its checkpoints, check each of them. *)
Definition resume : M O unit :=
  on_store claim tt ;;!
  let! snapshots := on_store load [] in
  restore_snapshots snapshots.
End engine.

(** The adapter table [__init__] builds and checks. *)
Definition permitted_adapter_names : list (string * list string) :=
  [("block_ip", ["opnsense"; "nftables"; "vyos"]); ("isolate_host", ["wazuh"])].

Definition bind_adapters {W} (adapters : list (ContainmentAdapter W)) : result (list (string * ContainmentAdapter W)) :=
  let by_action := fold_left (fun d a => assoc_set (adapter_action a) a d) adapters [] in
  raise_if (negb (Nat.eqb (length by_action) (length adapters)) || negb (same_keys by_action.*1 permitted_adapter_names.*1))
    (ValueError "exactly one constrained adapter is required for block_ip and isolate_host") ;;?
  raise_if (existsb (fun an => match assoc an.1 by_action with
                               | Some a => negb (str_in (adapter_name a) an.2)
                               | None => false
                               end) permitted_adapter_names)
    (ValueError "response action is bound to an unexpected privileged adapter") ;;?
  Ok by_action.

(** [ResponseOrchestrator(...)]: exactly one of a ledger and a store backs it. *)
Definition response_orchestrator {W A} `{!CommandAuthenticator A} (authenticator : A)
    (adapters : list (ContainmentAdapter W)) (ledger : option Ledger) (store : option Store) (w : W) :
    result (list (string * ContainmentAdapter W)) * option (Orchestrator W) :=
  match bind_adapters adapters with
  | Err e => (Err e, None)
  | Ok by_action =>
      match store, ledger with
      | None, None => (Err (ValueError "an audit ledger or persistent response store is required"), None)
      | Some _, Some _ => (Err (ValueError "persistent state and audit must use the same response store"), None)
      | None, Some l => (Ok by_action, Some (initial (Memory l) w))
      | Some s, None =>
          match resume authenticator (initial (Persistent s) w) with
          | (Ok _, o) => (Ok by_action, Some o)
          | (Err e, o) => (Err e, Some o)
          end
      end
  end.
