(* ===== verification/EngineInv.v ===== *)
(** The invariant of the orchestrator: its records agree with an append-only audit history
    whatever operations are run, with either backend and any adapter, authenticator, clock or
    commit failure. *)

From S2P Require Import Prelude PyText PyNum PyTime PyNet PyJson Sha256 Policy Decision AuditLog Effects Store Adapters Engine.

(** * The backend as its clients see it *)
Definition backend_wf (b : Backend) : Prop :=
  match b with
  | Memory l => ledger_wf l
  | Persistent s => store_wf (tables s)
  end.

Definition backend_intents (b : Backend) : list string :=
  match b with
  | Memory l => apply_intents l
  | Persistent s => t_intents (tables s)
  end.

Definition same_view (b b' : Backend) : Prop :=
  (forall rid, backend_events b' rid = backend_events b rid) /\ backend_intents b ⊆ backend_intents b'.

Lemma same_view_refl b : same_view b b.
Proof. done. Qed.

Lemma backend_valid b rid : backend_wf b -> valid_history rid (backend_events b rid).
Proof.
  destruct b as [l|s]; simpl; [auto|]. intros Hwf. rewrite store_events_history by done. apply (wf_history _ Hwf).
Qed.

(** * Events and the commands they record *)

(** What an event of each state carries. *)
Definition event_evidence (e : AuditEvent) : Prop :=
  match ev_state e with
  | REQUESTED => True
  | APPLIED => application e <> None
  | VERIFIED => exists v, verification e = Some v /\ verification_refs v <> []
  | EXPIRED | ROLLED_BACK => exists r, rollback e = Some r /\ rollback_refs r <> []
  | FAILED => failure e <> None
  end.

Definition event_of (r : ResponseRecord) (e : AuditEvent) : Prop :=
  ev_response_id e = r_response_id r /\ ev_idempotency_key e = idempotency_key (r_command r) /\
  ev_target e = cmd_target (r_command r) /\ ev_action e = cmd_action (r_command r) /\
  ev_policy_id e = cmd_policy_id (r_command r) /\
  ev_expires_at e = _rfc3339 (r_expires_at r) /\ event_evidence e.

(** The record and the history agree. *)
Definition tracked (b : Backend) (r : ResponseRecord) : Prop :=
  r_response_id r = _response_id (idempotency_key (r_command r)) /\
  r_transition_number r = Z.of_nat (length (backend_events b (r_response_id r))) /\
  (r_transition_number r <> 0 -> latest_state (backend_events b (r_response_id r)) = Some (r_state r)) /\
  Forall (event_of r) (backend_events b (r_response_id r)).

(** Containment in force, or possibly in force, always has a reference to revert it by. *)
Definition revertible (r : ResponseRecord) : Prop :=
  active_state (r_state r) = true \/ r_pending_operation r <> None -> r_adapter_reference r <> None.

Definition record_ok (b : Backend) (r : ResponseRecord) : Prop :=
  tracked b r /\ r_transition_number r <> 0 /\ revertible r.

Section invariant.
Context {W A : Type} `{!CommandAuthenticator A}.
Variable catalog : PolicyCatalog.
Variable authenticator : A.
Variable adapters : list (string * ContainmentAdapter W).
Notation O := (Orchestrator W).

Definition ev (o : O) (rid : string) : list AuditEvent := backend_events (backend o) rid.

Record memory_ok (o : O) : Prop := {
  mem_keys : NoDup (records o).*1;
  mem_records : forall rid r, assoc rid (records o) = Some r -> rid = r_response_id r /\ record_ok (backend o) r;
  mem_complete : forall rid, ev o rid <> [] -> assoc rid (records o) <> None;
  mem_dedup : Forall (fun kv => kv.2.1 = _response_id kv.1) (dedup o) }.

Definition Inv (o : O) : Prop := backend_wf (backend o) /\ (storage_failed o = false -> memory_ok o).

(** [o'] is [o] after an interaction with the backend that changed no history, or left the
    orchestrator out of service. *)
Record quiet (o o' : O) : Prop := {
  q_records : records o' = records o;
  q_dedup : dedup o' = dedup o;
  q_wf : backend_wf (backend o) -> backend_wf (backend o');
  q_failed : storage_failed o = true -> storage_failed o' = true;
  q_view : storage_failed o' = false -> same_view (backend o) (backend o') }.

Lemma quiet_refl o : quiet o o.
Proof. split; try done. Qed.

Lemma tracked_view b b' r : same_view b b' -> tracked b r -> tracked b' r.
Proof. intros [Hv _]. unfold tracked. by rewrite Hv. Qed.

Lemma memory_ok_view o o' :
  records o' = records o -> dedup o' = dedup o -> same_view (backend o) (backend o') -> memory_ok o -> memory_ok o'.
Proof.
  intros Hr Hd Hv [H1 H2 H3 H4]. split; rewrite ?Hr, ?Hd; try done.
  - intros rid r Hrid. destruct (H2 _ _ Hrid) as [E [Ht Hp]]. split; [done|].
    split; [by eapply tracked_view|done].
  - intros rid. unfold ev. rewrite (proj1 Hv). apply H3.
Qed.

Lemma quiet_inv o o' : quiet o o' -> Inv o -> Inv o'.
Proof.
  intros [Hr Hd Hw Hf Hv] [Hwf Hm]. split; [by apply Hw|]. intros Hfail.
  assert (storage_failed o = false) by (destruct (storage_failed o); [by rewrite Hf in Hfail|done]).
  eapply memory_ok_view; eauto.
Qed.

(** ** Backend calls *)
Lemma query_quiet {X} (f : Tables -> result X) s r s' : query f s = (r, s') -> s' = s.
Proof.
  unfold query, exclusive, mbind, gets, raise_when, lift. destruct (closed s); simpl; by intros [= _ <-].
Qed.

Lemma exclusive_ret_quiet s r s' : exclusive (ret tt) s = (r, s') -> s' = s.
Proof. unfold exclusive, mbind, gets, raise_when, lift, ret. destruct (closed s); simpl; by intros [= _ <-]. Qed.

Lemma guard_same (o : O) r o' : on_store (exclusive (ret tt)) tt o = (r, o') -> o' = o.
Proof.
  unfold on_store. destruct (backend o) as [l|s] eqn:E; [by intros [= _ <-]|].
  destruct (exclusive (ret tt) s) as [r' s'] eqn:Es. intros [= _ <-].
  apply exclusive_ret_quiet in Es as ->. destruct o; simpl in *; by rewrite E.
Qed.

Lemma ledger_events_same (o : O) rid r o' :
  ledger_events rid o = (r, o') -> o' = o /\ forall h, r = Ok h -> h = ev o rid.
Proof.
  unfold ledger_events, mbind. destruct (on_store _ tt o) as [[[]|e] o1] eqn:E; apply guard_same in E as ->.
  - intros [= <- <-]. split; [done|]. by intros ? [= <-].
  - intros [= <- <-]. split; [done|]. by intros ? [=].
Qed.

Lemma requested_since_same (o : O) p t r o' : ledger_requested_since p t o = (r, o') -> o' = o.
Proof.
  unfold ledger_requested_since. destruct (backend o) as [l|s] eqn:E; [by intros [= _ <-]|].
  destruct (store_requested_since p t s) as [r' s'] eqn:Es. intros [= _ <-].
  apply query_quiet in Es as ->. destruct o; simpl in *; by rewrite E.
Qed.

Lemma ledger_commands_same (o : O) r o' : ledger_commands o = (r, o') -> o' = o.
Proof.
  unfold ledger_commands. destruct (backend o) as [l|s] eqn:E; [by intros [= _ <-]|].
  destruct (store_commands s) as [r' s'] eqn:Es. intros [= _ <-].
  apply query_quiet in Es as ->. destruct o; simpl in *; by rewrite E.
Qed.

(** ** Recording an event *)
Record recorded (o : O) (e : AuditEvent) (o' : O) : Prop := {
  rec_records : records o' = records o;
  rec_dedup : dedup o' = dedup o;
  rec_failed : storage_failed o' = storage_failed o;
  rec_world : world o' = world o;
  rec_wf : backend_wf (backend o');
  rec_valid : validate_transition e (ev o (ev_response_id e)) = Ok tt;
  rec_self : ev o' (ev_response_id e) = ev o (ev_response_id e) ++ [e];
  rec_other : forall rid, rid <> ev_response_id e -> ev o' rid = ev o rid;
  rec_intents : backend_intents (backend o') = backend_intents (backend o) }.

Definition transition_event (adapter : ContainmentAdapter W) (r : ResponseRecord) (state : lifecycle) (timestamp : Z)
    (app : option Application) (ver : option Verification) (rb : option Rollback) (fail : option Failure) : AuditEvent :=
  build_event (r_command r) (r_response_id r) (r_expires_at r) (Some (adapter_name adapter)) state
    (if r_transition_number r =? 0 then None else Some (r_state r)) (r_transition_number r + 1) timestamp
    app ver rb fail (intent_of r).

Definition transitioned (clear : bool) (state : lifecycle) (r : ResponseRecord) : ResponseRecord :=
  (if clear then with_pending None None else (fun x => x)) (with_state state r).

Lemma transitioned_id clear state r : r_response_id (transitioned clear state r) = r_response_id r.
Proof. by destruct clear. Qed.

Lemma store_events_view s s' rid :
  store_wf (tables s) -> store_wf (tables s') -> history (tables s') rid = history (tables s) rid ->
  store_events (tables s') rid = store_events (tables s) rid.
Proof. intros H H' E. by rewrite !store_events_history. Qed.

Lemma commit_failure_quiet (o : O) s r s' record event :
  backend o = Persistent s -> checkpoint record event s = (r, s') -> coherent_checkpoint record event ->
  quiet o (set_failed (set_backend (Persistent s') o)).
Proof.
  intros Hb Hc Hco. split; simpl; try done. rewrite Hb. intros Hwf.
  change s' with ((r, s').2). rewrite <- Hc. by apply (run_op_wf (OpCheckpoint record event)).
Qed.

Lemma checkpoint_event_exec (o : O) s record e u s' :
  backend o = Persistent s -> store_wf (tables s) -> coherent_checkpoint record (Some e) ->
  checkpoint record (Some e) s = (Ok u, s') ->
  recorded o e (set_backend (Persistent s') o).
Proof.
  intros Hb Hwf Hco Hc. apply checkpoint_Ok in Hc.
  pose proof (checkpoint_body_wf _ _ _ _ Hwf Hco Hc) as Hwf'.
  pose proof (checkpoint_body_Ok _ _ _ _ Hc) as (Ha & Hi & _ & Hev & _).
  destruct (Hev e eq_refl) as [Hv _]. specialize (Hco e eq_refl).
  assert (forall rid, store_events (tables s') rid =
    store_events (tables s) rid ++ (if decide (rid = s_response_id record) then [e] else [])) as Hh.
  { intros rid. rewrite !store_events_history by done. by rewrite (history_rows_of _ _ _ _ _ Ha). }
  split; simpl; try done; unfold ev; simpl; rewrite ?Hb, ?Hco; simpl; try done.
  - by rewrite Hh, decide_True.
  - intros rid Hne. rewrite Hh, decide_False by done. by rewrite app_nil_r.
  - by rewrite Hi, app_nil_r.
Qed.

Lemma on_store_persistent {X} (m : M Store X) x (o : O) s :
  backend o = Persistent s -> on_store m x o = ((m s).1, set_backend (Persistent (m s).2) o).
Proof. unfold on_store. intros ->. by destruct (m s). Qed.

Lemma transition_exec r state timestamp app ver rb fail clear o res o' :
  backend_wf (backend o) ->
  _transition adapters r state timestamp app ver rb fail clear o = (res, o') ->
  match res with
  | Ok (r', e) =>
      exists adapter, assoc (cmd_action (r_command r)) adapters = Some adapter /\
      r' = transitioned clear state r /\ e = transition_event adapter r state timestamp app ver rb fail /\ recorded o e o'
  | Err _ => quiet o o' /\ world o' = world o
  end.
Proof.
  intros Hwf. unfold _transition, lookup_adapter. unfold mbind at 1, lift.
  destruct (assoc (cmd_action (r_command r)) adapters) as [adapter|]; [|intros [= <- <-]; split; [apply quiet_refl|done]].
  fold (transition_event adapter r state timestamp app ver rb fail). fold (transitioned clear state r).
  set (e := transition_event _ _ _ _ _ _ _ _). set (u := transitioned clear state r).
  assert (coherent_checkpoint (snapshot_of u) (Some e)) as Hco.
  { intros ? [= <-]. unfold u. simpl. by rewrite transitioned_id. }
  destruct (backend o) as [l|s] eqn:Hb.
  - unfold mbind, _checkpoint, catch, on_store, on_ledger. rewrite Hb. simpl. rewrite Hb.
    destruct (append l e) as [l'|err] eqn:Ha; intros [= <- <-].
    + exists adapter. repeat (split; [done|]). pose proof (append_Ok _ _ _ Ha) as (Hv & Hs & Ho & Hi & _).
      split; simpl; try done; unfold ev; rewrite ?Hb; simpl; try done. by eapply append_wf.
    + split; [apply quiet_refl|done].
  - unfold mbind, _checkpoint, catch. rewrite (on_store_persistent _ _ _ _ Hb).
    destruct (checkpoint (snapshot_of u) (Some e) s) as [[[]|err] s'] eqn:Hc; simpl.
    + intros [= <- <-]. exists adapter. repeat (split; [done|]). by eapply checkpoint_event_exec.
    + intros [= <- <-]. split; [|done]. by eapply commit_failure_quiet.
Qed.

(** ** Records written back *)
Definition put (r : ResponseRecord) (o : O) : O := set_records (assoc_set (r_response_id r) r (records o)) o.

Lemma assoc_set_keys {X} k (v : X) l : assoc k l <> None -> (assoc_set k v l).*1 = l.*1.
Proof.
  induction l as [|[k' v'] l IH]; simpl; [done|]. destruct (String.eqb k k') eqn:E; simpl; [done|].
  intros H. f_equal. by apply IH.
Qed.

Lemma assoc_set_new_keys {X} k (v : X) l : assoc k l = None -> (assoc_set k v l).*1 = l.*1 ++ [k].
Proof.
  induction l as [|[k' v'] l IH]; simpl; [done|]. destruct (String.eqb k k') eqn:E; simpl; [done|].
  intros H. f_equal. by apply IH.
Qed.

Lemma assoc_set_NoDup {X} k (v : X) l : NoDup l.*1 -> NoDup (assoc_set k v l).*1.
Proof.
  intros Hnd. destruct (assoc k l) eqn:E.
  - rewrite assoc_set_keys; [done|]. by rewrite E.
  - rewrite assoc_set_new_keys by done. apply assoc_None in E.
    apply NoDup_app. split; [done|]. split; [set_solver|apply NoDup_singleton].
Qed.

Lemma put_memory_ok o0 o r :
  memory_ok o0 -> records o = records o0 -> dedup o = dedup o0 ->
  (forall rid, rid <> r_response_id r -> ev o rid = ev o0 rid) ->
  record_ok (backend o) r -> memory_ok (put r o).
Proof.
  intros [H1 H2 H3 H4] Hr Hd He Hok. split; simpl; rewrite ?Hr, ?Hd; try done.
  - by apply assoc_set_NoDup.
  - intros rid r'. destruct (decide (rid = r_response_id r)) as [->|Hne].
    + rewrite assoc_set_eq. by intros [= <-].
    + rewrite assoc_set_ne by done. intros Ha. destruct (H2 _ _ Ha) as [-> [Ht Hp]]. split; [done|].
      split; [|done]. specialize (He _ Hne). unfold ev in He. unfold tracked in *. by rewrite He.
  - intros rid. destruct (decide (rid = r_response_id r)) as [->|Hne]; [by rewrite assoc_set_eq|].
    rewrite assoc_set_ne by done. unfold ev in *. simpl. rewrite He by done. apply H3.
Qed.

(** [r] is the record the dict holds under its key, in a state where the invariant holds. *)
Definition cur (r : ResponseRecord) (o : O) : Prop :=
  Inv o /\ storage_failed o = false /\ assoc (r_response_id r) (records o) = Some r.

(** In service, with the invariant. *)
Definition Live (o : O) : Prop := Inv o /\ storage_failed o = false.

Lemma cur_live r o : cur r o -> Live o.
Proof. by intros (? & ? & _). Qed.

Lemma cur_record_ok r o : cur r o -> record_ok (backend o) r.
Proof. intros ([_ Hm] & Hf & Ha). by destruct (mem_records _ (Hm Hf) _ _ Ha). Qed.

Lemma event_of_transition adapter r state timestamp app ver rb fail :
  event_evidence (transition_event adapter r state timestamp app ver rb fail) ->
  event_of r (transition_event adapter r state timestamp app ver rb fail).
Proof. by intros H. Qed.

Lemma event_of_same r r' e :
  r_response_id r' = r_response_id r -> r_command r' = r_command r -> r_expires_at r' = r_expires_at r ->
  event_of r e -> event_of r' e.
Proof. unfold event_of. by intros -> -> ->. Qed.

Lemma transitioned_fields clear state r :
  r_command (transitioned clear state r) = r_command r /\ r_expires_at (transitioned clear state r) = r_expires_at r /\
  r_state (transitioned clear state r) = state /\
  r_transition_number (transitioned clear state r) = r_transition_number r + 1 /\
  r_adapter_reference (transitioned clear state r) = r_adapter_reference r.
Proof. by destruct clear. Qed.

(** Recording an event keeps the record and the history in agreement. *)
Lemma recorded_tracked o o' adapter r clear state timestamp app ver rb fail :
  let e := transition_event adapter r state timestamp app ver rb fail in
  tracked (backend o) r -> event_evidence e -> recorded o e o' ->
  tracked (backend o') (transitioned clear state r) /\ r_transition_number (transitioned clear state r) <> 0.
Proof.
  intros e (Hid & Hn & _ & Hall) He Hrec. pose proof (rec_self _ _ _ Hrec) as Hs.
  destruct (transitioned_fields clear state r) as (E1 & E2 & E3 & E4 & E5).
  unfold ev in Hs. change (ev_response_id e) with (r_response_id r) in Hs.
  unfold tracked. rewrite !transitioned_id, E1, E3, E4, Hs. split; [|lia]. split; [done|]. split; [|split].
  - rewrite length_app. simpl. lia.
  - intros _. unfold latest_state. by rewrite last_snoc.
  - apply Forall_app. split.
    + eapply Forall_impl; [done|]. intros x. by apply event_of_same; rewrite ?transitioned_id.
    + constructor; [|constructor]. eapply (event_of_same r); rewrite ?transitioned_id; [done..|].
      by apply event_of_transition.
Qed.

Lemma recorded_put_inv o o' adapter r clear state timestamp app ver rb fail :
  let e := transition_event adapter r state timestamp app ver rb fail in
  Inv o -> storage_failed o = false -> tracked (backend o) r -> event_evidence e -> recorded o e o' ->
  revertible (transitioned clear state r) -> cur (transitioned clear state r) (put (transitioned clear state r) o').
Proof.
  intros e [Hwf Hm] Hf Ht He Hrec Hrev. specialize (Hm Hf).
  destruct (recorded_tracked _ _ adapter _ clear _ timestamp app ver rb fail Ht He Hrec) as [Ht' Hn].
  split; [|split].
  - split; [apply (rec_wf _ _ _ Hrec)|]. intros _. eapply put_memory_ok; [done|by apply Hrec|by apply Hrec| |by split].
    intros rid Hne. apply (rec_other _ _ _ Hrec). by rewrite transitioned_id in Hne.
  - simpl. by rewrite (rec_failed _ _ _ Hrec).
  - simpl. by rewrite assoc_set_eq.
Qed.

Lemma put_record_exec r (o : O) : put_record r o = (Ok tt, put r o).
Proof. done. Qed.

Lemma transition_record_cur r state timestamp app ver rb fail clear :
  (forall adapter, event_evidence (transition_event adapter r state timestamp app ver rb fail)) ->
  revertible (transitioned clear state r) ->
  triple (cur r) (transition_record adapters r state timestamp app ver rb fail clear)
    (fun e o' => cur (transitioned clear state r) o' /\ last (ev o' (r_response_id r)) = Some e /\ ev_state e = state)
    (fun _ => Inv).
Proof.
  intros He Hrev o Hcur. pose proof (cur_record_ok _ _ Hcur) as [Ht _]. destruct Hcur as (Hinv & Hf & Ha).
  unfold transition_record, mbind.
  destruct (_transition _ _ _ _ _ _ _ _ _ o) as [[[u e]|err] o1] eqn:E;
    (eapply transition_exec in E; [|by apply Hinv]).
  - destruct E as (adapter & _ & -> & -> & Hrec). rewrite put_record_exec. unfold ret.
    split; [by eapply recorded_put_inv|]. split; [|done].
    pose proof (rec_self _ _ _ Hrec) as Hs. unfold ev in *. simpl in *. by rewrite Hs, last_snoc.
  - destruct E as [Hq _]. by eapply quiet_inv.
Qed.

(** ** Checkpoints without an event *)
Lemma checkpoint_none_exec r (o : O) res o' :
  backend_wf (backend o) -> _checkpoint r None o = (res, o') ->
  quiet o o' /\ world o' = world o /\ (is_ok res = true -> storage_failed o' = storage_failed o).
Proof.
  intros Hwf. unfold _checkpoint, catch. destruct (backend o) as [l|s] eqn:Hb.
  - unfold on_store. rewrite Hb. intros [= <- <-]. split; [apply quiet_refl|done].
  - rewrite (on_store_persistent _ _ _ _ Hb).
    destruct (checkpoint (snapshot_of r) None s) as [[[]|err] s'] eqn:Hc; simpl; intros [= <- <-].
    + split; [|done]. pose proof (checkpoint_Ok _ _ _ _ _ Hc) as Hbody.
      assert (coherent_checkpoint (snapshot_of r) None) as Hco by by intros ?.
      pose proof (checkpoint_body_wf _ _ _ _ Hwf Hco Hbody) as Hwf'.
      pose proof (checkpoint_body_Ok _ _ _ _ Hbody) as (Ha & Hi & _).
      split; simpl; try done. intros _. rewrite Hb. split; simpl; [|rewrite Hi; set_solver].
      intros rid. rewrite !store_events_history by done. rewrite (history_rows_of _ _ _ _ _ Ha).
      destruct (decide _); simpl; by rewrite app_nil_r.
    + split; [|done]. eapply commit_failure_quiet; [done..|]. by intros ?.
Qed.

Lemma quiet_cur r o o' : quiet o o' -> storage_failed o' = false -> cur r o -> cur r o'.
Proof.
  intros Hq Hf (Hinv & _ & Ha). split; [by eapply quiet_inv|]. split; [done|]. by rewrite (q_records _ _ Hq).
Qed.

(** Replacing the current record by one that agrees with the same history. *)
Lemma put_cur r r' o :
  cur r o -> r_response_id r' = r_response_id r -> r_command r' = r_command r -> r_expires_at r' = r_expires_at r ->
  r_state r' = r_state r -> r_transition_number r' = r_transition_number r -> revertible r' -> cur r' (put r' o).
Proof.
  intros Hcur E1 E2 E3 E4 E5 Hrev. pose proof (cur_record_ok _ _ Hcur) as [(T1 & T2 & T3 & T4) [Hn _]].
  destruct Hcur as ([Hwf Hm] & Hf & Ha). split; [|split]; simpl; [|done|by rewrite assoc_set_eq].
  split; [done|]. intros _. eapply put_memory_ok; [by apply Hm|done..|]. split; [|by rewrite E5].
  unfold tracked. rewrite E1, E2, E4, E5. repeat split; try done.
  eapply Forall_impl; [done|]. intros x. by apply event_of_same.
Qed.

Lemma begin_operation_cur r op timestamp :
  op <> "" -> r_adapter_reference r <> None ->
  triple (cur r) (_begin_operation r op timestamp)
    (fun r' o' => r' = with_pending (Some op) (Some (_rfc3339 timestamp)) r /\ cur r' o') (fun _ => Inv).
Proof.
  intros Hop Href o Hcur. set (r' := with_pending (Some op) (Some (_rfc3339 timestamp)) r).
  assert (cur r' (put r' o)) as Hcur'. { eapply put_cur; [done..|]. by intros _. }
  unfold _begin_operation. fold r'. unfold mbind. rewrite put_record_exec.
  destruct (_checkpoint r' None (put r' o)) as [[[]|err] o1] eqn:E;
    (apply checkpoint_none_exec in E as (Hq & _ & Hf); [|apply Hcur']).
  - unfold ret. split; [done|]. eapply quiet_cur; [done| |done]. rewrite (Hf eq_refl). apply Hcur'.
  - eapply quiet_inv; [done|]. apply Hcur'.
Qed.

(** ** Adapter calls *)
Lemma invoke_exec call code (o : O) res o' :
  _invoke call code o = (res, o') ->
  exists out, res = Ok out /\ o' = set_world (world o') o /\ "" ∉ evidence_refs out.
Proof.
  unfold _invoke. destruct (call (world o)) as [r w]. intros [= <- <-]. eexists. split; [done|]. split; [done|].
  destruct r as [[out|]|e]; simpl; try set_solver.
  destruct (existsb (fun ref => String.eqb ref "") (evidence_refs out)) eqn:E; simpl; [set_solver|].
  intros Hin. apply not_true_iff_false in E. apply E, existsb_exists. exists "". split; [by apply list_elem_of_In|done].
Qed.

Lemma set_world_inv w (o : O) : Inv o -> Inv (set_world w o).
Proof. intros [Hwf Hm]. split; [done|]. intros Hf. destruct (Hm Hf) as [H1 H2 H3 H4]. by split. Qed.

Lemma set_world_cur w r (o : O) : cur r o -> cur r (set_world w o).
Proof. intros (H1 & H2 & H3). split; [by apply set_world_inv|done]. Qed.

Lemma invoke_cur r call code (Q : AdapterOutcome -> O -> Prop) E :
  (forall out o, cur r o -> Q out o) -> triple (cur r) (_invoke call code) Q E.
Proof.
  intros HQ o Hcur. destruct (_invoke call code o) as [res o'] eqn:Ei.
  apply invoke_exec in Ei as (out & -> & -> & _). apply HQ. by apply set_world_cur.
Qed.

(** ** Steps of the public methods *)
Lemma application_cur r r0 (Q : option Application -> O -> Prop) :
  (forall app o, cur r o -> Q app o) -> triple (cur r) (_application r0) Q (fun _ => Inv).
Proof.
  intros HQ o Hcur. unfold _application, mbind.
  destruct (ledger_events (r_response_id r0) o) as [res o'] eqn:E. apply ledger_events_same in E as [-> _].
  destruct res; [by apply HQ|apply Hcur].
Qed.

Lemma applied_at_cur r r0 (Q : string -> O -> Prop) :
  (forall a o, cur r o -> Q a o) -> triple (cur r) (_applied_at r0) Q (fun _ => Inv).
Proof.
  intros HQ. unfold _applied_at. eapply triple_bind.
  { apply (application_cur _ _ (fun _ => cur r)). auto. }
  intros [a|]; [apply triple_ret; auto|apply triple_raise]. by intros s [? _].
Qed.

Lemma cur_revertible r o : cur r o -> revertible r.
Proof. intros H. by destruct (cur_record_ok _ _ H) as (_ & _ & ?). Qed.

Lemma fail_cur r timestamp code message :
  triple (cur r) (_fail adapters r timestamp code message)
    (fun e o' => cur (transitioned false FAILED r) o' /\ last (ev o' (r_response_id r)) = Some e /\ ev_state e = FAILED)
    (fun _ => Inv).
Proof.
  intros o Hcur. apply (transition_record_cur r FAILED timestamp None None None
    (Some (_failure_payload timestamp code message)) false); [done| |done].
  pose proof (cur_revertible _ _ Hcur) as Hrev. intros [H|H]; [done|]. apply Hrev. by right.
Qed.

Lemma fail_inv r timestamp code message (k : AuditEvent -> M O OrchestrationResult) :
  (forall e, triple (cur (transitioned false FAILED r)) (k e) (fun _ => Live) (fun _ => Inv)) ->
  triple (cur r) (mbind (_fail adapters r timestamp code message) k) (fun _ => Live) (fun _ => Inv).
Proof.
  intros Hk. eapply triple_bind; [apply fail_cur|]. intros e. eapply triple_conseq; [apply Hk|tauto|done..].
Qed.

Lemma ret_inv {X} r (x : X) : triple (cur r) (ret x) (fun _ => Live) (fun _ => Inv).
Proof. apply triple_ret. intros s Hc. by eapply cur_live. Qed.

Lemma lift_cur {X} r (x : result X) (k : X -> M O OrchestrationResult) :
  (forall a, x = Ok a -> triple (cur r) (k a) (fun _ => Live) (fun _ => Inv)) ->
  triple (cur r) (mbind (lift x) k) (fun _ => Live) (fun _ => Inv).
Proof.
  intros Hk o Hcur. unfold mbind, lift. destruct x as [a|e]; [by apply Hk|]. apply Hcur.
Qed.

Lemma revert_inv r timestamp terminal cause :
  terminal = EXPIRED \/ terminal = ROLLED_BACK ->
  triple (cur r) (_revert adapters r timestamp terminal cause) (fun _ => Live) (fun _ => Inv).
Proof.
  intros Hterm. unfold _revert. apply lift_cur. intros ref Href. apply lift_cur. intros adapter _.
  eapply triple_bind; [apply begin_operation_cur; [done|]|].
  { unfold assert_reference in Href. by destruct (r_adapter_reference r). }
  intros r'. intros o [-> Hcur]. revert o Hcur.
  set (r' := with_pending (Some "revert") (Some (_rfc3339 timestamp)) r).
  match goal with |- forall o, cur ?r o -> match ?m o with _ => _ end =>
    change (triple (cur r) m (fun _ => Live) (fun _ => Inv)) end.
  eapply triple_bind; [apply (invoke_cur _ _ _ (fun _ => cur r')); auto|].
  intros out. destruct (proves out) eqn:Hp; cbn [negb].
  - eapply triple_bind; [apply (application_cur _ _ (fun _ => cur r')); auto|]. intros app.
    eapply triple_bind; [apply transition_record_cur|].
    + intros a. unfold proves in Hp. bool_inv. unfold event_evidence. simpl.
      destruct Hterm as [-> | ->]; eexists; (split; [done|]); simpl; intros E; by rewrite E in *.
    + intros [H|H]; [|done]. destruct (transitioned_fields true terminal r') as (_ & _ & Hs & _).
      rewrite Hs in H. by destruct Hterm as [-> | ->].
    + intros e. apply triple_ret. intros s [Hc _]. by eapply cur_live.
  - apply fail_inv. intros e. apply ret_inv.
Qed.

Lemma compensate_inv adapter r ref out timestamp :
  r_adapter_reference r <> None ->
  triple (cur r) (compensate adapters adapter r ref out timestamp) (fun _ => Live) (fun _ => Inv).
Proof.
  intros Href. unfold compensate.
  eapply triple_bind; [by apply begin_operation_cur|]. intros r0 o [-> Hcur]. revert o Hcur.
  set (r' := with_pending (Some "revert") (Some (_rfc3339 timestamp)) r).
  match goal with |- forall o, cur ?r o -> match ?m o with _ => _ end =>
    change (triple (cur r) m (fun _ => Live) (fun _ => Inv)) end.
  eapply triple_bind; [apply (invoke_cur _ _ _ (fun _ => cur r')); auto|].
  intros rb. destruct (proves rb) eqn:Hp.
  - eapply triple_bind; [apply (applied_at_cur _ _ (fun _ => cur r')); auto|]. intros at_.
    eapply triple_bind; [apply transition_record_cur|].
    + intros a. unfold proves in Hp. bool_inv. unfold event_evidence. simpl.
      eexists; (split; [done|]); simpl; intros E; by rewrite E in *.
    + by intros [H|H].
    + intros e. apply triple_ret. intros s [Hc _]. by eapply cur_live.
  - apply fail_inv. intros e. apply ret_inv.
Qed.

Lemma claim_apply_quiet rid (o : O) res o' :
  on_ledger (fun l => claim_apply l rid) o = (res, o') ->
  quiet o o' /\ world o' = world o /\ storage_failed o' = storage_failed o.
Proof.
  unfold on_ledger. destruct (backend o) as [l|s] eqn:Hb; [|intros [= <- <-]; split; [apply quiet_refl|done]].
  destruct (claim_apply l rid) as [l'|e] eqn:Ec; intros [= <- <-]; [|split; [apply quiet_refl|done]].
  unfold claim_apply in Ec. rewrite !raise_seq_Ok in Ec. destruct Ec as (_ & _ & [= <-]).
  split; [|done]. split; simpl; try done; rewrite Hb; simpl; [|intros _; split; [done|set_solver]]. done.
Qed.

Lemma conclude_apply_inv adapter r timestamp :
  r_pending_operation r <> None ->
  triple (cur r) (conclude_apply adapters adapter r timestamp) (fun _ => Live) (fun _ => Inv).
Proof.
  intros Hpend. unfold conclude_apply. eapply triple_bind; [apply (invoke_cur _ _ _ (fun _ => cur r)); auto|].
  intros out. destruct (_ || _) eqn:Hok; [apply fail_inv; intros; apply ret_inv|].
  cbv zeta. set (r' := with_reference (default "" (adapter_reference out)) r).
  eapply (triple_bind _ _ _ (fun _ => cur r')).
  { intros o Hcur. rewrite put_record_exec. eapply put_cur; [done..|]. by intros _. }
  intros []. eapply triple_bind; [apply transition_record_cur; [done|by intros _]|].
  intros e. apply triple_ret. intros s [Hc _]. by eapply cur_live.
Qed.

Lemma run_apply_inv adapter r reference timestamp :
  r_pending_operation r = None ->
  triple (cur r) (run_apply adapters adapter r reference timestamp) (fun _ => Live) (fun _ => Inv).
Proof.
  intros Hpend o Hcur. unfold run_apply. cbv zeta. set (r1 := with_reference reference r).
  assert (cur r1 (put r1 o)) as H1. { eapply put_cur; [done..|]. by intros _. }
  unfold mbind at 1. rewrite put_record_exec. unfold mbind at 1.
  destruct (on_ledger _ (put r1 o)) as [res o1] eqn:Ec. apply claim_apply_quiet in Ec as (Hq & _ & Hf).
  assert (cur r1 o1) as H2. { eapply quiet_cur; [done| |done]. rewrite Hf. apply H1. }
  destruct res as [[]|]; [|apply H2]. revert H2. generalize o1. clear o1 Hq Hf.
  change (triple (cur r1) (mbind (_begin_operation r1 "apply" timestamp)
    (fun r => conclude_apply adapters adapter r timestamp)) (fun _ => Live) (fun _ => Inv)).
  eapply triple_bind; [by apply begin_operation_cur|]. intros r2 o2 [-> Hcur2].
  by apply conclude_apply_inv.
Qed.

(** ** Admission of a new command *)
Lemma save_command_quiet rid c (o : O) res o' :
  on_ledger (fun l => save_command l rid c) o = (res, o') ->
  quiet o o' /\ world o' = world o /\ storage_failed o' = storage_failed o.
Proof.
  unfold on_ledger. destruct (backend o) as [l|s] eqn:Hb; [|intros [= <- <-]; split; [apply quiet_refl|done]].
  destruct (save_command l rid c) as [l'|e] eqn:Ec; intros [= <- <-]; [|split; [apply quiet_refl|done]].
  unfold save_command in Ec. rewrite raise_seq_Ok in Ec. destruct Ec as (_ & [= <-]).
  split; [|done]. split; simpl; try done; rewrite Hb; [done|]. intros _. split; [done|simpl; set_solver].
Qed.

Lemma cur_set_dedup r d (o : O) :
  Forall (fun kv => kv.2.1 = _response_id kv.1) d -> cur r o -> cur r (set_dedup d o).
Proof.
  intros Hd ([Hwf Hm] & Hf & Ha). split; [|done]. split; [done|]. intros Hfail.
  destruct (Hm Hfail) as [H1 H2 H3 H4]. by split.
Qed.

Lemma admit_checks_inv c r requested timestamp :
  r_pending_operation r = None -> active_state (r_state r) = false ->
  triple (cur r)
    (match assert_target_allowed (protections catalog) (cmd_action c) (target_type (cmd_target c)) (target_value (cmd_target c)) with
     | Err (PolicyError m) =>
         let! failed := _fail adapters r timestamp "TARGET_PROTECTED" m in
         ret (result_of (r_response_id r) FAILED false (Some "orchestrator rejected protected target") (Some failed))
     | Err e => raise e
     | Ok _ =>
         let! since := lift (shift timestamp (- seconds (window_seconds (rate_limit catalog)))) in
         let! n := ledger_requested_since (cmd_policy_id c) since in
         if max_actions (rate_limit catalog) <? n then
           let! failed := _fail adapters r timestamp "RATE_LIMITED" "automatic response rate limit reached; no adapter was invoked" in
           ret (result_of (r_response_id r) FAILED false (Some "automatic response rate limited") (Some failed))
         else
           put_record (with_authorized r) ;;! _checkpoint (with_authorized r) None ;;!
           ret (result_of (r_response_id r) REQUESTED true None (Some requested))
     end) (fun _ => Live) (fun _ => Inv).
Proof.
  intros Hpend Hact.
  destruct (assert_target_allowed _ _ _ _) as [u|err] eqn:Et.
  - apply lift_cur. intros since _. eapply (triple_bind _ _ _ (fun _ => cur r)).
    { intros o Hcur. destruct (ledger_requested_since _ _ o) as [res o'] eqn:E.
      apply requested_since_same in E as ->. destruct res; [done|apply Hcur]. }
    intros n. destruct (_ <? n); [apply fail_inv; intros; apply ret_inv|].
    intros o Hcur. unfold mbind at 1. rewrite put_record_exec.
    assert (cur (with_authorized r) (put (with_authorized r) o)) as H1.
    { eapply put_cur; [done..|]. intros [H|H]; [|done].
      change (active_state (r_state r) = true) in H. congruence. }
    unfold mbind. destruct (_checkpoint (with_authorized r) None _) as [res o'] eqn:E.
    apply checkpoint_none_exec in E as (Hq & _ & Hf); [|apply H1].
    assert (Inv o') as Ho' by (eapply quiet_inv; [done|apply H1]).
    destruct res; [|done]. split; [done|]. rewrite (Hf eq_refl). apply H1.
  - destruct (target_error_kind _ _ _ _ _ Et) as [m ->]. apply fail_inv. intros e. apply ret_inv.
Qed.

Lemma tracked_new (o : O) rid c expires_at :
  memory_ok o -> rid = _response_id (idempotency_key c) -> assoc rid (records o) = None ->
  tracked (backend o) (new_record rid c expires_at).
Proof.
  intros Hm -> Hnone. assert (backend_events (backend o) (_response_id (idempotency_key c)) = []) as E.
  { destruct (backend_events _ _) eqn:E; [done|]. exfalso. eapply (mem_complete _ Hm); [|exact Hnone]. unfold ev. by rewrite E. }
  unfold tracked. simpl. rewrite E. by split; [|split; [|split]].
Qed.

Lemma admit_inv c timestamp (o : O) :
  Inv o -> storage_failed o = false -> assoc (_response_id (idempotency_key c)) (records o) = None ->
  Inv (admit_command catalog adapters c (_response_id (idempotency_key c)) timestamp o).2.
Proof.
  intros Hinv Hf Hnone. unfold admit_command. set (rid := _response_id (idempotency_key c)).
  unfold mbind at 1, lift at 1. destruct (ttl_delta c) as [ttl|]; [|done].
  unfold mbind at 1, lift at 1. destruct (shift timestamp ttl) as [expires_at|]; [|done]. cbv zeta.
  unfold mbind at 1. destruct (on_ledger _ o) as [res o1] eqn:Es. apply save_command_quiet in Es as (Hq & _ & Hf1).
  assert (Inv o1) as Hinv1 by by eapply quiet_inv. rewrite Hf in Hf1.
  assert (assoc rid (records o1) = None) as Hnone1 by by rewrite (q_records _ _ Hq).
  destruct res as [[]|]; [|done]. unfold mbind at 1.
  set (r := new_record rid c expires_at).
  assert (tracked (backend o1) r) as Ht by (apply tracked_new; [by apply Hinv1|done|done]).
  destruct (_transition adapters r _ _ _ _ _ _ _ o1) as [[[r1 requested]|err] o2] eqn:E;
    (eapply transition_exec in E; [|apply Hinv1]).
  2:{ destruct E as [Hq2 _]. by eapply quiet_inv. }
  destruct E as (adapter & _ & -> & -> & Hrec). unfold mbind at 1. rewrite put_record_exec.
  assert (cur (transitioned false REQUESTED r) (put (transitioned false REQUESTED r) o2)) as Hcur.
  { eapply recorded_put_inv; try done. by intros [?|?]. }
  unfold mbind at 1, lift at 1. destruct (shift timestamp _) as [until|]; [|apply Hcur].
  unfold mbind at 1, modify at 1.
  match goal with |- Inv (match assert_target_allowed _ _ _ _ with _ => _ end ?o3).2 => set (o3' := o3) end.
  assert (cur (transitioned false REQUESTED r) o3') as Hcur3.
  { apply cur_set_dedup; [|done]. apply assoc_set_Forall; [done|].
    pose proof Hcur as ([_ Hm] & Hf2 & _). apply (mem_dedup _ (Hm Hf2)). }
  set (e := transition_event adapter r REQUESTED timestamp None None None None).
  pose proof (admit_checks_inv c (transitioned false REQUESTED r) e timestamp eq_refl eq_refl o3' Hcur3) as Hk.
  cbv beta in Hk. subst e r. clearbody o3'. revert Hk. unfold transitioned, with_state, new_record. simpl r_response_id.
  intros Hk. match type of Hk with match ?m o3' with _ => _ end => change (Inv (m o3').2); destruct (m o3') as [[x|x] o4] end;
    [apply Hk|exact Hk].
Qed.

(** ** Public methods *)
Lemma keeps_iff {X} (m : M O X) : (forall o, Inv o -> Inv (m o).2) -> keeps Inv m.
Proof. intros H o Ho. specialize (H o Ho). by destruct (m o) as [[x|e] o']. Qed.

Lemma keeps_inv {X} (m : M O X) o : keeps Inv m -> Inv o -> Inv (m o).2.
Proof. intros H Ho. specialize (H o Ho). by destruct (m o) as [[x|e] o']. Qed.

Lemma triple_inv {X} r (m : M O X) o :
  triple (cur r) m (fun _ => Live) (fun _ => Inv) -> cur r o -> Inv (m o).2.
Proof. intros H Ho. specialize (H o Ho). destruct (m o) as [[x|e] o']; [apply H|done]. Qed.

(** A serialized method runs its body on an orchestrator that is in service, or refuses. *)
Lemma serialized_run {X} (m : M O X) o :
  (storage_failed o = false /\ _serialized m o = m o) \/ exists e, _serialized m o = (Err e, o).
Proof.
  unfold _serialized, mbind, gets, raise_when, lift, raise_if.
  destruct (storage_failed o) eqn:Hf; [right; by eexists|].
  destruct (on_store _ tt o) as [res o'] eqn:E. apply guard_same in E as ->.
  destruct res; [by left|right; by eexists].
Qed.

Lemma serialized_refused {X} (m : M O X) o : storage_failed o = true -> (_serialized m o).2 = o.
Proof. intros Hf. destruct (serialized_run m o) as [[Hf' _]|[e ->]]; [congruence|done]. Qed.

Lemma serialized_keeps {X} (m : M O X) :
  (forall o, Inv o -> storage_failed o = false -> Inv (m o).2) -> keeps Inv (_serialized m).
Proof.
  intros Hm. apply keeps_iff. intros o Ho. destruct (serialized_run m o) as [[Hf ->]|[e ->]]; [by apply Hm|done].
Qed.

Lemma mbind_lift {X Y} (x : result X) (k : X -> M O Y) o :
  Inv o -> (forall a, x = Ok a -> Inv (k a o).2) -> Inv (mbind (lift x) k o).2.
Proof. intros Ho Hk. unfold mbind, lift. destruct x as [a|e]; [by apply Hk|done]. Qed.

Lemma mbind_raise_when {Y} c e (k : unit -> M O Y) o :
  Inv o -> (c = false -> Inv (k tt o).2) -> Inv (mbind (raise_when c e) k o).2.
Proof. intros Ho Hk. unfold mbind, raise_when, lift, raise_if. destruct c; [done|by apply Hk]. Qed.

Lemma mbind_record {Y} rid (k : ResponseRecord -> M O Y) o :
  Inv o -> storage_failed o = false ->
  (forall r, cur r o -> r_response_id r = rid -> assoc rid (records o) = Some r -> Inv (k r o).2) ->
  Inv (mbind (_record rid) k o).2.
Proof.
  intros Ho Hf Hk. unfold mbind, _record. destruct (assoc rid (records o)) as [r|] eqn:E; [|done].
  pose proof (mem_records _ (proj2 Ho Hf) _ _ E) as [-> _]. by apply Hk.
Qed.

Lemma duplicate_same rid (o : O) : (duplicate_result rid o).2 = o.
Proof.
  unfold duplicate_result, mbind, _record. destruct (assoc rid (records o)); [|done].
  destruct (ledger_events rid o) as [res o'] eqn:E. apply ledger_events_same in E as [-> _]. by destruct res.
Qed.

Lemma prune_inv now o : Inv o -> Inv (set_dedup (List.filter (fun kv => now <? kv.2.2) (dedup o)) o).
Proof.
  intros [Hwf Hm]. split; [done|]. intros Hf. destruct (Hm Hf) as [H1 H2 H3 H4]. split; try done.
  simpl. apply Forall_forall. intros kv [Hin _]%list_elem_of_In%filter_In. rewrite Forall_forall in H4.
  by apply H4, list_elem_of_In.
Qed.

Lemma submit_keeps value utc_now now : keeps Inv (submit catalog authenticator adapters value utc_now now).
Proof.
  apply serialized_keeps. intros o Ho Hf. apply mbind_lift; [done|]. intros t _.
  apply mbind_lift; [done|]. intros c _. unfold _prune_dedup. unfold mbind at 1, modify.
  pose proof (prune_inv t o Ho) as Ho1. set (o1 := set_dedup _ o) in *.
  unfold mbind at 1, gets. cbv zeta. unfold mbind at 1.
  destruct (assoc (idempotency_key c) (dedup o1)) as [[cached until]|]; [by rewrite duplicate_same|].
  destruct (is_present _) eqn:Hk; [by rewrite duplicate_same|].
  apply admit_inv; [done|done|]. by destruct (assoc _ (records o1)).
Qed.

Lemma apply_keeps rid utc_now now : keeps Inv (Engine.apply catalog authenticator adapters rid utc_now now).
Proof.
  apply serialized_keeps. intros o Ho Hf. apply mbind_lift; [done|]. intros t _.
  apply mbind_record; [done|done|]. intros r Hcur <- Ha.
  apply mbind_lift; [done|]. intros [] Hst. apply mbind_raise_when; [done|]. intros Hauth.
  apply mbind_raise_when; [done|]. intros Href.
  destruct (r_expires_at r <=? t).
  { eapply triple_inv; [|exact Hcur]. apply fail_inv. intros e. apply ret_inv. }
  apply mbind_lift; [done|]. intros authorized _. destruct authorized; cbn [negb].
  2:{ eapply triple_inv; [|exact Hcur]. apply fail_inv. intros e. apply ret_inv. }
  apply mbind_lift; [done|]. intros adapter _. unfold mbind at 1, gets.
  apply mbind_lift; [done|]. intros [] _. apply mbind_lift; [done|]. intros reference _.
  apply mbind_raise_when; [done|]. intros _.
  eapply triple_inv; [|exact Hcur]. apply run_apply_inv.
  pose proof (cur_revertible _ _ Hcur) as Hrev. unfold revertible in Hrev.
  destruct (r_pending_operation r); [|done]. destruct (r_adapter_reference r); [done|].
  exfalso. by apply Hrev; [right|].
Qed.

Lemma verify_keeps rid utc_now now : keeps Inv (verify_response adapters rid utc_now now).
Proof.
  apply serialized_keeps. intros o Ho Hf. apply mbind_lift; [done|]. intros t _.
  apply mbind_record; [done|done|]. intros r Hcur <- Ha.
  apply mbind_lift; [done|]. intros [] _. apply mbind_raise_when; [done|]. intros Hpend.
  destruct (r_expires_at r <=? t).
  { eapply triple_inv; [|exact Hcur]. apply revert_inv. by right. }
  apply mbind_lift; [done|]. intros ref Href. apply mbind_lift; [done|]. intros adapter _.
  eapply triple_inv; [|exact Hcur]. eapply triple_bind; [apply (invoke_cur _ _ _ (fun _ => cur r)); auto|].
  intros out. destruct (proves out) eqn:Hp.
  - eapply triple_bind; [apply (applied_at_cur _ _ (fun _ => cur r)); auto|]. intros at_.
    eapply triple_bind; [apply transition_record_cur|].
    + intros a. unfold proves in Hp. bool_inv. unfold event_evidence. simpl.
      eexists; (split; [done|]); simpl; intros E; by rewrite E in *.
    + intros _. rewrite (proj2 (proj2 (proj2 (proj2 (transitioned_fields _ _ _))))).
      unfold assert_reference in Href. by destruct (r_adapter_reference r).
    + intros e. apply triple_ret. intros s [Hc _]. by eapply cur_live.
  - apply compensate_inv. unfold assert_reference in Href. by destruct (r_adapter_reference r).
Qed.

Lemma sweep_live selected act ids :
  (forall r, triple (cur r) (act r) (fun _ => Live) (fun _ => Inv)) ->
  forall o : O, Live o -> Inv (sweep selected act ids o).2.
Proof.
  intros Hact. induction ids as [|rid ids IH]; intros o [Ho Hf]; [done|]. cbn [sweep].
  apply mbind_record; [done|done|]. intros r Hcur <- Ha. destruct (selected r); [|by apply IH].
  unfold mbind at 1. specialize (Hact r o Hcur).
  destruct (act r o) as [[x|e] o1]; [|done]. unfold mbind. specialize (IH o1 Hact).
  destruct (sweep selected act ids o1) as [[xs|e] o2]; done.
Qed.

Lemma expire_keeps utc_now now : keeps Inv (expire_due adapters utc_now now).
Proof.
  apply serialized_keeps. intros o Ho Hf. apply mbind_lift; [done|]. intros t _. unfold mbind at 1, gets.
  apply sweep_live; [|done]. intros r. apply revert_inv. destruct (bool_decide _); auto.
Qed.

Lemma recover_keeps utc_now now : keeps Inv (recover_pending adapters utc_now now).
Proof.
  apply serialized_keeps. intros o Ho Hf. apply mbind_lift; [done|]. intros t _. unfold mbind at 1, gets.
  apply sweep_live; [|done]. intros r. apply revert_inv. auto.
Qed.

Lemma rollback_keeps rid cause utc_now now : keeps Inv (rollback_response adapters rid cause utc_now now).
Proof.
  apply serialized_keeps. intros o Ho Hf. apply mbind_raise_when; [done|]. intros _.
  apply mbind_lift; [done|]. intros t _. apply mbind_record; [done|done|]. intros r Hcur <- Ha.
  apply mbind_raise_when; [done|]. intros _. eapply triple_inv; [|exact Hcur]. apply revert_inv. by right.
Qed.

(** [restore_recovery] finds nothing to restore when every history has its record. *)
Lemma restore_all_empty commands restored (o : O) res o' :
  (forall rid, ev o rid = []) -> restore_all authenticator commands restored o = (res, o') ->
  o' = o /\ forall x, res = Ok x -> x = restored.
Proof.
  intros Hev. revert restored. induction commands as [|[rid c] rest IH]; intros restored H; cbn [restore_all] in H.
  - injection H as <- <-. split; [done|]. by intros ? [= <-].
  - unfold mbind at 1, restore_one in H. unfold mbind at 1 in H.
    destruct (ledger_events rid o) as [r1 o1] eqn:E. apply ledger_events_same in E as [-> Hh].
    destruct r1 as [h|e]; [|injection H as <- <-; by split].
    rewrite (Hh h eq_refl), Hev in H. simpl in H. by apply IH.
Qed.

Lemma restore_keeps : keeps Inv (restore_recovery authenticator).
Proof.
  apply serialized_keeps. intros o Ho Hf. unfold mbind at 1, gets.
  apply mbind_raise_when; [done|]. intros Hnil. bool_inv. apply Nat.eqb_eq, length_zero_iff_nil in Hnil.
  unfold mbind at 1. destruct (ledger_commands o) as [res o1] eqn:E. apply ledger_commands_same in E as ->.
  destruct res as [commands|]; [|done]. unfold mbind at 1.
  assert (forall rid, ev o rid = []) as Hev.
  { intros rid. destruct (ev o rid) eqn:Er; [done|]. exfalso.
    apply (mem_complete _ (proj2 Ho Hf) rid); [by rewrite Er|]. by rewrite Hnil. }
  destruct (restore_all authenticator commands [] o) as [res o1] eqn:E.
  apply restore_all_empty in E as [-> Hx]; [|done]. destruct res as [x|]; [|done].
  rewrite (Hx x eq_refl). unfold mbind, modify, ret. simpl. destruct Ho as [Hwf Hm]. split; [done|].
  intros Hf'. destruct (Hm Hf') as [H1 H2 H3 H4]. split; simpl; try done; [constructor|].
  intros rid Hne. exfalso. exact (Hne (Hev rid)).
Qed.

(** ** Runs *)
Inductive orchestrator_op : Type :=
| OpSubmit (value : val) (utc_now : Z) (now : option pydatetime)
| OpApply (rid : string) (utc_now : Z) (now : option pydatetime)
| OpVerify (rid : string) (utc_now : Z) (now : option pydatetime)
| OpExpire (utc_now : Z) (now : option pydatetime)
| OpRollback (rid cause : string) (utc_now : Z) (now : option pydatetime)
| OpRecover (utc_now : Z) (now : option pydatetime)
| OpRestore.

Definition run_method (op : orchestrator_op) (o : O) : O :=
  match op with
  | OpSubmit value u now => (submit catalog authenticator adapters value u now o).2
  | OpApply rid u now => (Engine.apply catalog authenticator adapters rid u now o).2
  | OpVerify rid u now => (verify_response adapters rid u now o).2
  | OpExpire u now => (expire_due adapters u now o).2
  | OpRollback rid cause u now => (rollback_response adapters rid cause u now o).2
  | OpRecover u now => (recover_pending adapters u now o).2
  | OpRestore => (restore_recovery authenticator o).2
  end.

(** What an orchestrator becomes under any sequence of calls, whatever each of them returns. *)
Inductive reachable (o0 : O) : O -> Prop :=
| reachable_start : reachable o0 o0
| reachable_step op o : reachable o0 o -> reachable o0 (run_method op o).

Lemma run_method_inv op o : Inv o -> Inv (run_method op o).
Proof.
  intros Ho. destruct op; simpl; (eapply keeps_inv; [|exact Ho]).
  - apply submit_keeps.
  - apply apply_keeps.
  - apply verify_keeps.
  - apply expire_keeps.
  - apply rollback_keeps.
  - apply recover_keeps.
  - apply restore_keeps.
Qed.

Lemma reachable_inv o0 o : Inv o0 -> reachable o0 o -> Inv o.
Proof. intros H0. induction 1; [done|]. by apply run_method_inv. Qed.

(** A new orchestrator over an empty ledger or an empty store. *)
Definition fresh_backend (b : Backend) : Prop :=
  b = Memory empty_ledger \/ exists s, b = Persistent s /\ tables s = empty_tables.

Lemma fresh_inv b w : fresh_backend b -> Inv (initial b w).
Proof.
  intros Hb. assert (backend_wf b /\ forall rid, backend_events b rid = []) as [Hwf Hev].
  { destruct Hb as [->|(s & -> & Hs)]; simpl; [split; [intros rid; constructor|done]|]. rewrite Hs. split; [apply wf_empty|done]. }
  split; [done|]. intros _. split; [apply NoDup_nil_2|done| |by apply Forall_nil_2].
  intros rid Hne. unfold ev in Hne. simpl in Hne. by rewrite (Hev rid) in Hne.
Qed.
End invariant.
