(* ===== verification/EngineFrame.v ===== *)
(** What every method of the orchestrator preserves, and what it lets an adapter do.

    A property of the ledger and of the adapters' state that each primitive call keeps ([Frame]) is walked
    through every method once, here; the orchestrator's own records, its deduplication cache and its
    failure flag are no part of it.  Then: at most one apply per response, and never while another
    response contains the same target.  The calls an adapter receives are logged by wrapping it
    ([logged]); the theorems hold of any adapters, wrapped this way. *)

From S2P Require Import Prelude PyText PyNum PyTime PyNet PyJson Sha256 Policy Decision AuditLog Effects Store Adapters Engine.
From S2P Require Import EngineInv.

(** The calls that record keep [Q]. *)
Class FrameRecord {W : Type} (Q : Backend -> W -> Prop) : Prop := {
  frame_checkpoint s w snap e : Q (Persistent s) w -> Q (Persistent (checkpoint snap e s).2) w;
  frame_append l l' w e : append l e = Ok l' -> Q (Memory l) w -> Q (Memory l') w;
  frame_save l l' w rid c : save_command l rid c = Ok l' -> Q (Memory l) w -> Q (Memory l') w;
}.

(** So do the calls that check and the calls that undo. *)
Class Frame {W : Type} (adapters : list (string * ContainmentAdapter W)) (Q : Backend -> W -> Prop) : Prop := {
  frame_record :: FrameRecord Q;
  frame_verify action a c ref b w : assoc action adapters = Some a -> Q b w -> Q b (adapter_verify a c ref w).2;
  frame_revert action a c ref b w : assoc action adapters = Some a -> Q b w -> Q b (adapter_revert a c ref w).2;
}.

(** So do the claim of an intent and the application itself. *)
Class FrameApply {W : Type} (adapters : list (string * ContainmentAdapter W)) (Q : Backend -> W -> Prop) : Prop := {
  frame_claim l l' w rid : claim_apply l rid = Ok l' -> Q (Memory l) w -> Q (Memory l') w;
  frame_apply action a c b w : assoc action adapters = Some a -> Q b w -> Q b (adapter_apply a c w).2;
}.

Section frame.
Context {W A : Type} `{!CommandAuthenticator A}.
Variable catalog : PolicyCatalog.
Variable authenticator : A.
Variable adapters : list (string * ContainmentAdapter W).
Variable Q : Backend -> W -> Prop.
Notation O := (Orchestrator W).

Definition framed (o : O) : Prop := Q (backend o) (world o).

(** ** Calls that change neither *)
Lemma put_framed r : keeps framed (put_record r : M O unit).
Proof. apply keeps_modify. intros o Ho. exact Ho. Qed.

Lemma record_framed rid : keeps framed (_record rid : M O ResponseRecord).
Proof. by apply keeps_pure. Qed.

Lemma guard_framed : keeps framed (on_store (exclusive (ret tt)) tt : M O unit).
Proof. apply keeps_pure. intros o. destruct (on_store _ _ o) eqn:E. by apply guard_same in E. Qed.

Lemma events_framed rid : keeps framed (ledger_events rid : M O (list AuditEvent)).
Proof. apply keeps_pure. intros o. destruct (ledger_events rid o) eqn:E. by apply ledger_events_same in E as [-> _]. Qed.

Lemma requested_framed p t : keeps framed (ledger_requested_since p t : M O Z).
Proof. apply keeps_pure. intros o. destruct (ledger_requested_since p t o) eqn:E. by apply requested_since_same in E. Qed.

Lemma commands_framed : keeps framed (ledger_commands : M O (list (string * Command))).
Proof. apply keeps_pure. intros o. destruct (ledger_commands o) eqn:E. by apply ledger_commands_same in E. Qed.

Lemma application_framed r : keeps framed (_application r : M O (option Application)).
Proof. unfold _application. keeps_walk. apply events_framed. Qed.

Lemma applied_at_framed r : keeps framed (_applied_at r : M O string).
Proof. unfold _applied_at. keeps_walk. apply application_framed. Qed.

Lemma modify_dedup_framed f : keeps framed (modify (fun o : O => set_dedup (f o) o)).
Proof. apply keeps_modify. intros o Ho. exact Ho. Qed.

Lemma serialized_framed {X} (m : M O X) : keeps framed m -> keeps framed (_serialized m).
Proof. intros Hm. unfold _serialized. keeps_walk; [apply guard_framed|exact Hm]. Qed.

Lemma duplicate_framed rid : keeps framed (duplicate_result rid : M O OrchestrationResult).
Proof. unfold duplicate_result. keeps_walk; [apply record_framed|apply events_framed]. Qed.

Lemma sweep_framed selected act ids : (forall r, keeps framed (act r)) -> keeps framed (sweep selected act ids : M O _).
Proof.
  intros Hact. induction ids as [|rid ids IH]; cbn [sweep]; keeps_walk; auto; [apply record_framed].
Qed.

Lemma restore_one_framed rid c : keeps framed (restore_one authenticator rid c : M O _).
Proof. unfold restore_one. keeps_walk. apply events_framed. Qed.

Lemma restore_all_framed l restored : keeps framed (restore_all authenticator l restored : M O _).
Proof.
  revert restored. induction l as [|[rid c] l IH]; intros restored; cbn [restore_all]; keeps_walk;
    [apply restore_one_framed|apply IH].
Qed.

Lemma restore_framed : keeps framed (restore_recovery authenticator : M O (list string)).
Proof.
  unfold restore_recovery. apply serialized_framed. keeps_walk; [apply commands_framed|apply restore_all_framed|].
  apply keeps_modify. intros o Ho. exact Ho.
Qed.

(** ** Calls that record *)
Section recording.
Context `{!FrameRecord Q}.

Lemma checkpoint_framed r event : keeps framed (_checkpoint r event : M O unit).
Proof.
  unfold _checkpoint. apply (triple_catch _ _ _ _ _ _ (fun _ => framed)).
  - intros o Ho. unfold on_store, framed in *. destruct (backend o) as [l|s] eqn:E; [by rewrite E|].
    pose proof (frame_checkpoint s (world o) (snapshot_of r) event Ho) as H.
    destruct (checkpoint _ _ s) as [[x|x] s']; exact H.
  - discriminate.
  - intros e _. apply (keeps_bind framed); [|intros []; apply keeps_raise].
    apply keeps_modify. intros o Ho. exact Ho.
Qed.

Lemma on_ledger_framed f :
  (forall l l' w, f l = Ok l' -> Q (Memory l) w -> Q (Memory l') w) -> keeps framed (on_ledger f : M O unit).
Proof.
  intros Hf o Ho. unfold on_ledger, framed in *. destruct (backend o) as [l|s] eqn:E; [|by rewrite E].
  destruct (f l) as [l'|e] eqn:Efl; cbn; [by eapply Hf|by rewrite E].
Qed.

Lemma append_framed e : keeps framed (on_ledger (fun l => append l e) : M O unit).
Proof. apply on_ledger_framed. intros l l' w. apply frame_append. Qed.

Lemma save_framed rid c : keeps framed (on_ledger (fun l => save_command l rid c) : M O unit).
Proof. apply on_ledger_framed. intros l l' w. apply frame_save. Qed.

Lemma transition_framed r st t app ver rb fail clear : keeps framed (_transition adapters r st t app ver rb fail clear).
Proof. unfold _transition. keeps_walk; [apply checkpoint_framed|apply append_framed]. Qed.

Lemma transition_record_framed r st t app ver rb fail clear :
  keeps framed (transition_record adapters r st t app ver rb fail clear).
Proof. unfold transition_record. keeps_walk; [apply transition_framed|apply put_framed]. Qed.

Lemma begin_framed r op t : keeps framed (_begin_operation r op t : M O ResponseRecord).
Proof. unfold _begin_operation. keeps_walk; [apply put_framed|apply checkpoint_framed]. Qed.

Lemma fail_framed r t code msg : keeps framed (_fail adapters r t code msg).
Proof. apply transition_record_framed. Qed.

End recording.

(** ** Calls that check and calls that undo *)
Context `{!Frame adapters Q}.

Lemma invoke_framed code (call : M W raw_outcome) :
  (forall b w, Q b w -> Q b (call w).2) -> keeps framed (_invoke call code : M O AdapterOutcome).
Proof.
  intros Hcall o Ho. unfold _invoke. specialize (Hcall _ _ Ho). by destruct (call (world o)) as [r w'].
Qed.

(** An adapter the orchestrator looked up is one of the table. *)
Definition installed (a : ContainmentAdapter W) : Prop := exists action, assoc action adapters = Some a.

Lemma lookup_bind {X} action (k : ContainmentAdapter W -> M O X) :
  (forall a, installed a -> keeps framed (k a)) -> keeps framed (mbind (lift (lookup_adapter adapters action)) k).
Proof.
  intros Hk. unfold lookup_adapter. destruct (assoc action adapters) as [a|] eqn:E; [|by intros o Ho].
  intros o Ho. apply Hk; [by exists action|exact Ho].
Qed.

Lemma verify_call_framed a c ref code :
  installed a -> keeps framed (_invoke (adapter_verify a c ref) code : M O AdapterOutcome).
Proof. intros [action Ha]. apply invoke_framed. intros b w. by eapply frame_verify. Qed.

Lemma revert_call_framed a c ref code :
  installed a -> keeps framed (_invoke (adapter_revert a c ref) code : M O AdapterOutcome).
Proof. intros [action Ha]. apply invoke_framed. intros b w. by eapply frame_revert. Qed.

(** Goes through a method; [lookup_bind] keeps the knowledge of where its adapter comes from. *)
Ltac walk :=
  repeat first
    [ match goal with |- keeps _ (mbind (lift (lookup_adapter _ _)) _) => apply lookup_bind; intros ? ? end
    | keeps_step ].

Lemma revert_framed r t terminal cause : keeps framed (_revert adapters r t terminal cause).
Proof.
  unfold _revert. walk.
  - apply begin_framed.
  - by apply revert_call_framed.
  - apply fail_framed.
  - apply application_framed.
  - apply transition_record_framed.
Qed.

Lemma compensate_framed a r ref out t : installed a -> keeps framed (compensate adapters a r ref out t).
Proof.
  intros Ha. unfold compensate. cbv zeta. keeps_walk.
  - apply begin_framed.
  - by apply revert_call_framed.
  - apply applied_at_framed.
  - apply transition_record_framed.
  - apply fail_framed.
Qed.

Lemma admit_framed c rid t : keeps framed (admit_command catalog adapters c rid t).
Proof.
  unfold admit_command. keeps_walk.
  - apply save_framed.
  - apply transition_framed.
  - apply put_framed.
  - apply modify_dedup_framed.
  - apply requested_framed.
  - apply fail_framed.
  - apply put_framed.
  - apply checkpoint_framed.
  - apply fail_framed.
Qed.

(** ** Methods *)
Lemma submit_framed value u now : keeps framed (submit catalog authenticator adapters value u now).
Proof.
  unfold submit. apply serialized_framed. keeps_walk.
  - apply modify_dedup_framed.
  - apply duplicate_framed.
  - apply duplicate_framed.
  - apply admit_framed.
Qed.

Lemma verify_framed rid u now : keeps framed (verify_response adapters rid u now).
Proof.
  unfold verify_response. apply serialized_framed. walk.
  - apply record_framed.
  - apply revert_framed.
  - by apply verify_call_framed.
  - apply applied_at_framed.
  - apply transition_record_framed.
  - by apply compensate_framed.
Qed.

Lemma expire_framed u now : keeps framed (expire_due adapters u now).
Proof. unfold expire_due. apply serialized_framed. keeps_walk. apply sweep_framed. intros r. apply revert_framed. Qed.

Lemma recover_framed u now : keeps framed (recover_pending adapters u now).
Proof. unfold recover_pending. apply serialized_framed. keeps_walk. apply sweep_framed. intros r. apply revert_framed. Qed.

Lemma rollback_framed rid cause u now : keeps framed (rollback_response adapters rid cause u now).
Proof. unfold rollback_response. apply serialized_framed. keeps_walk; [apply record_framed|apply revert_framed]. Qed.

(** [apply] up to its call of the adapter, which the caller accounts for. *)
Lemma apply_framed_until rid u now (o : O) :
  (forall r a reference t, assoc rid (records o) = Some r -> installed a -> keeps framed (run_apply adapters a r reference t)) ->
  framed o -> framed (Engine.apply catalog authenticator adapters rid u now o).2.
Proof.
  intros Hrun Ho. unfold Engine.apply.
  match goal with |- context [_serialized ?m] => destruct (serialized_run m o) as [[Hf ->]|[e ->]] end; [|done].
  unfold mbind at 1. destruct (orchestrator_utc u now) as [t|]; simpl; [|done].
  unfold mbind at 1, _record. destruct (assoc rid (records o)) as [r|] eqn:Ha; [|done].
  match goal with |- framed (?m o).2 => enough (keeps framed m) as Hk by (specialize (Hk o Ho); by destruct (m o) as [[x|x] o']) end.
  walk; [apply fail_framed|apply fail_framed|]. by apply Hrun.
Qed.

(** With adapters whose application keeps [Q] too, every method does. *)
Context `{!FrameApply adapters Q}.

Lemma run_apply_framed a r reference t : installed a -> keeps framed (run_apply adapters a r reference t).
Proof.
  intros [action Ha]. unfold run_apply, conclude_apply. keeps_walk.
  - apply put_framed.
  - apply on_ledger_framed. intros l l' w. apply frame_claim.
  - apply begin_framed.
  - apply invoke_framed. intros b w. by eapply frame_apply.
  - apply fail_framed.
  - apply put_framed.
  - apply transition_record_framed.
Qed.

Lemma apply_framed rid u now : keeps framed (Engine.apply catalog authenticator adapters rid u now).
Proof.
  intros o Ho. pose proof (apply_framed_until rid u now o (fun r a ref t _ => run_apply_framed a r ref t) Ho) as H.
  by destruct (Engine.apply _ _ _ _ _ _ o) as [[x|x] o'].
Qed.
End frame.

Lemma keeps_run {S X} (I : S -> Prop) (m : M S X) s : keeps I m -> I s -> I (m s).2.
Proof. intros H Hs. specialize (H s Hs). by destruct (m s) as [[x|e] s']. Qed.

Definition is_apply (op : orchestrator_op) : bool :=
  match op with
  | OpApply _ _ _ => true
  | _ => false
  end.

Section run_method_frame.
Context {W A : Type} `{!CommandAuthenticator A}.
Variable catalog : PolicyCatalog.
Variable authenticator : A.
Variable adapters : list (string * ContainmentAdapter W).
Variable Q : Backend -> W -> Prop.
Context `{!Frame adapters Q}.
Notation run := (run_method catalog authenticator adapters).

Lemma run_method_framed_but_apply op o : is_apply op = false -> framed Q o -> framed Q (run op o).
Proof.
  intros Hop Ho. destruct op; cbn [run_method]; [|done|..]; (eapply keeps_run; [|exact Ho]).
  - by apply submit_framed.
  - by apply verify_framed.
  - by apply expire_framed.
  - by apply rollback_framed.
  - by apply recover_framed.
  - apply restore_framed.
Qed.

Lemma run_method_framed `{!FrameApply adapters Q} op o : framed Q o -> framed Q (run op o).
Proof.
  intros Ho. destruct (is_apply op) eqn:E; [|by apply run_method_framed_but_apply].
  destruct op; try done. cbn [run_method]. eapply keeps_run; [by apply apply_framed|exact Ho].
Qed.
End run_method_frame.

Inductive call : Type :=
| CallApply (c : Command)
| CallVerify (c : Command) (reference : string)
| CallRevert (c : Command) (reference : string).

Definition log_call {W X} (k : call) (m : M W X) : M (W * list call) X :=
  fun s => let '(r, w) := m s.1 in (r, (w, s.2 ++ [k])).

(** The adapter with its calls recorded next to its state. *)
Definition logged {W} (a : ContainmentAdapter W) : ContainmentAdapter (W * list call) :=
  {| adapter_name := adapter_name a; adapter_action := adapter_action a; recovery_reference := recovery_reference a;
     adapter_apply := fun c => log_call (CallApply c) (adapter_apply a c);
     adapter_verify := fun c ref => log_call (CallVerify c ref) (adapter_verify a c ref);
     adapter_revert := fun c ref => log_call (CallRevert c ref) (adapter_revert a c ref) |}.

Definition logged_table {W} (l : list (string * ContainmentAdapter W)) : list (string * ContainmentAdapter (W * list call)) :=
  map (fun ka => (ka.1, logged ka.2)) l.

Definition is_apply_of (rid : string) (k : call) : bool :=
  match k with
  | CallApply c => String.eqb (_response_id (idempotency_key c)) rid
  | _ => false
  end.

(** How many times the log says a response was applied. *)
Definition apply_count (rid : string) (log : list call) : nat := length (List.filter (is_apply_of rid) log).

Section safety.
Context {W A : Type} `{!CommandAuthenticator A}.
Variable catalog : PolicyCatalog.
Variable authenticator : A.
Variable plain_adapters : list (string * ContainmentAdapter W).
Notation adapters := (logged_table plain_adapters).
Notation O := (Orchestrator (W * list call)).

(** Applies are backed by recorded intents, one each. *)
Definition OnceAt (b : Backend) (w : W * list call) : Prop :=
  forall rid, (apply_count rid w.2 <= if str_in rid (backend_intents b) then 1 else 0)%nat.
Notation Once := (framed OnceAt).

Lemma once_grows b b' w : OnceAt b w -> backend_intents b ⊆ backend_intents b' -> OnceAt b' w.
Proof.
  intros H Hi rid. specialize (H rid).
  destruct (str_in rid (backend_intents b)) eqn:E.
  - apply str_in_elem, Hi, str_in_elem in E. by rewrite E.
  - destruct (str_in rid (backend_intents b')); lia.
Qed.

Lemma extends_intents t t' : extends t t' -> t_intents t ⊆ t_intents t'.
Proof. intros [_ [ids ->] _ _]. set_solver. Qed.

(** Every call on the store only adds to its tables. *)
Definition store_grows {X} (m : M Store X) : Prop := forall s, extends (tables s) (tables (m s).2).

Lemma checkpoint_grows record event : store_grows (checkpoint record event).
Proof. intros s. apply (run_op_extends (OpCheckpoint record event)). Qed.

Lemma adapters_lookup action a :
  assoc action adapters = Some a -> exists p, assoc action plain_adapters = Some p /\ a = logged p.
Proof.
  unfold logged_table. induction plain_adapters as [|[k p] l IH]; simpl; [done|].
  destruct (String.eqb action k); [intros [= <-]; eauto|done].
Qed.

Lemma installed_logged a : installed adapters a -> exists p, a = logged p.
Proof. intros [action Ha]. apply adapters_lookup in Ha as (p & _ & ->). by exists p. Qed.

Lemma log_call_log {X} k (m : M W X) s : (log_call k m s).2.2 = s.2 ++ [k].
Proof. unfold log_call. by destruct (m s.1). Qed.

(** A logged call that is not an apply leaves every count. *)
Lemma apply_count_other {X} rid k (m : M W X) s :
  is_apply_of rid k = false -> apply_count rid (log_call k m s).2.2 = apply_count rid s.2.
Proof. intros Hk. rewrite log_call_log. unfold apply_count. rewrite List.filter_app. simpl. by rewrite Hk, app_nil_r. Qed.

(** The calls that record and the calls that undo apply nothing. *)
Lemma count_frame rid n : Frame adapters (fun _ w => apply_count rid w.2 = n).
Proof.
  split; [by split|..].
  - intros action a c ref b w Ha H. apply adapters_lookup in Ha as (p & _ & ->). simpl. by rewrite apply_count_other.
  - intros action a c ref b w Ha H. apply adapters_lookup in Ha as (p & _ & ->). simpl. by rewrite apply_count_other.
Qed.

#[local] Instance once_frame : Frame adapters OnceAt.
Proof.
  split; [split|..].
  - intros s w snap e H. eapply once_grows; [exact H|]. apply extends_intents, checkpoint_grows.
  - intros l l' w e E H. eapply once_grows; [exact H|]. apply append_Ok in E as (_ & _ & _ & E & _). simpl. by rewrite E.
  - intros l l' w rid c E H. unfold save_command in E. apply raise_seq_Ok in E as [_ [= <-]]. exact H.
  - intros action a c ref b w Ha H rid. apply adapters_lookup in Ha as (p & _ & ->). simpl. rewrite apply_count_other; [apply H|done].
  - intros action a c ref b w Ha H rid. apply adapters_lookup in Ha as (p & _ & ->). simpl. rewrite apply_count_other; [apply H|done].
Qed.

(** ** The one method that applies *)

(** The intent of [rid] is recorded, and nothing of it was applied yet. *)
Definition Claimed (rid : string) (o : O) : Prop :=
  Once o /\ rid ∈ backend_intents (backend o) /\ apply_count rid (world o).2 = 0%nat.

(** Where the intent is claimed: by the ledger before [_begin_operation], by the checkpoint in it. *)
Lemma claim_memory rid (o o' : O) l :
  Once o -> backend o = Memory l -> on_ledger (fun l => claim_apply l rid) o = (Ok tt, o') ->
  Claimed rid o' /\ exists l', backend o' = Memory l'.
Proof.
  intros Ho Hb H. unfold on_ledger in H. rewrite Hb in H.
  destruct (claim_apply l rid) as [l'|e] eqn:Ec; [|discriminate]. injection H as <-.
  unfold claim_apply in Ec. rewrite !raise_seq_Ok in Ec. destruct Ec as (Hn & _ & [= <-]).
  pose proof (Ho rid) as Hz. rewrite Hb in Hz. simpl in Hz. rewrite Hn in Hz. simpl.
  split; [|by eexists]. split; [|split; simpl; [set_solver|lia]].
  unfold framed. cbn [backend world set_backend]. eapply once_grows; [exact Ho|]. rewrite Hb. simpl. set_solver.
Qed.

Lemma begin_memory r op t (o : O) l :
  backend o = Memory l ->
  _begin_operation r op t o = (Ok (with_pending (Some op) (Some (_rfc3339 t)) r),
    put (with_pending (Some op) (Some (_rfc3339 t)) r) o).
Proof. intros Hb. unfold _begin_operation, mbind, put_record, modify, _checkpoint, catch, on_store. simpl. by rewrite Hb. Qed.

Lemma begin_persistent r t (o o' : O) s r' :
  Once o -> backend o = Persistent s -> _begin_operation r "apply" t o = (Ok r', o') ->
  r' = with_pending (Some "apply") (Some (_rfc3339 t)) r /\ Claimed (r_response_id r) o'.
Proof.
  intros Ho Hb. unfold _begin_operation. set (u := with_pending (Some "apply") (Some (_rfc3339 t)) r).
  unfold mbind at 1. rewrite put_record_exec. unfold mbind, _checkpoint, catch.
  rewrite (on_store_persistent _ _ _ s) by done.
  destruct (checkpoint (snapshot_of u) None s) as [[[]|e] s'] eqn:Hc; simpl; [|discriminate].
  intros [= <- <-]. split; [done|]. apply checkpoint_Ok in Hc.
  pose proof (checkpoint_body_extends _ _ _ _ Hc) as Hext.
  apply checkpoint_body_Ok in Hc as (_ & Hi & Hn & _). specialize (Hn eq_refl). simpl in Hi, Hn.
  split; [|split; simpl].
  - unfold framed. cbn. eapply once_grows; [exact Ho|]. rewrite Hb. by apply extends_intents.
  - rewrite Hi. set_solver.
  - specialize (Ho (r_response_id r)). rewrite Hb in Ho. simpl in Ho.
    destruct (str_in _ _) eqn:E; [by apply str_in_elem in E|lia].
Qed.

(** The apply itself: the count of the claimed response becomes one, the others keep theirs. *)
Lemma apply_call_once rid (p : ContainmentAdapter W) c code :
  rid = _response_id (idempotency_key c) ->
  triple (Claimed rid) (_invoke (adapter_apply (logged p) c) code : M O AdapterOutcome) (fun _ => Once) (fun _ => Once).
Proof.
  intros Hrid o (Ho & Hin & Hz). unfold _invoke. pose proof (log_call_log (CallApply c) (adapter_apply p c) (world o)) as Hlog.
  simpl adapter_apply. destruct (log_call _ _ (world o)) as [r w']. simpl in Hlog.
  intros rid'. cbn [set_world world backend]. rewrite Hlog. unfold apply_count.
  rewrite List.filter_app, length_app. cbn [List.filter is_apply_of].
  destruct (String.eqb_spec (_response_id (idempotency_key c)) rid') as [E|E]; cbn [length].
  - rewrite <- E, <- Hrid. unfold apply_count in Hz. rewrite Hz. by rewrite (proj2 (str_in_elem _ _) Hin).
  - specialize (Ho rid'). unfold apply_count in Ho. lia.
Qed.

Lemma conclude_apply_once p r t :
  r_response_id r = _response_id (idempotency_key (r_command r)) ->
  triple (Claimed (r_response_id r)) (conclude_apply adapters (logged p) r t) (fun _ => Once) (fun _ => Once).
Proof.
  intros Hid. unfold conclude_apply. eapply triple_bind; [by apply apply_call_once|]. intros out.
  match goal with |- triple _ ?m _ _ => change (keeps Once m) end.
  keeps_walk; [apply (fail_framed _ _)|apply put_framed|apply (transition_record_framed _ _)].
Qed.

Lemma run_apply_once p r reference t :
  r_response_id r = _response_id (idempotency_key (r_command r)) -> keeps Once (run_apply adapters (logged p) r reference t).
Proof.
  intros Hid o Ho. unfold run_apply. cbv zeta. set (r1 := with_reference reference r).
  unfold mbind at 1. rewrite put_record_exec.
  assert (Once (put r1 o)) as H1 by exact Ho. generalize dependent (put r1 o). clear o Ho. intros o Ho.
  assert (Hend : forall r2 o2, r_response_id r2 = r_response_id r1 -> r_command r2 = r_command r1 -> Claimed (r_response_id r1) o2 ->
    match conclude_apply adapters (logged p) r2 t o2 with (Ok _, s') | (Err _, s') => Once s' end).
  { intros r2 o2 E1 E2 Hc. rewrite <- E1 in Hc. apply conclude_apply_once; [|exact Hc]. by rewrite E1, E2. }
  destruct (backend o) as [l|s] eqn:Hb.
  - unfold mbind at 1. destruct (on_ledger _ o) as [res o1] eqn:Ec.
    destruct res as [[]|e].
    2:{ unfold on_ledger in Ec. rewrite Hb in Ec. destruct (claim_apply l _); [discriminate|]. by injection Ec as _ <-. }
    destruct (claim_memory _ _ _ _ Ho Hb Ec) as [Hc [l' Hb']].
    unfold mbind. rewrite (begin_memory _ _ _ _ _ Hb'). by apply Hend.
  - unfold mbind at 1, on_ledger. rewrite Hb. unfold mbind.
    destruct (_begin_operation r1 "apply" t o) as [[r2|e] o2] eqn:Eb.
    + destruct (begin_persistent _ _ _ _ _ _ Ho Hb Eb) as [-> Hc]. by apply Hend.
    + pose proof (begin_framed OnceAt r1 "apply" t o Ho) as Hb2. by rewrite Eb in Hb2.
Qed.

Lemma apply_once rid u now o : Inv o -> Once o -> Once (Engine.apply catalog authenticator adapters rid u now o).2.
Proof.
  intros Hinv Ho. destruct (storage_failed o) eqn:Hf.
  { unfold Engine.apply. by rewrite serialized_refused. }
  apply apply_framed_until; [exact _| |exact Ho]. intros r a reference t Ha Hin.
  destruct (mem_records _ (proj2 Hinv Hf) _ _ Ha) as [_ [(Hid & _) _]].
  apply installed_logged in Hin as [p ->]. by apply run_apply_once.
Qed.

Lemma run_method_once op o : Inv o -> Once o -> Once (run_method catalog authenticator adapters op o).
Proof.
  intros Hi Ho. destruct (is_apply op) eqn:E; [|by apply run_method_framed_but_apply; [exact _|..]].
  destruct op; try done. by apply apply_once.
Qed.

Lemma reachable_once o0 o :
  Inv o0 -> Once o0 -> reachable catalog authenticator adapters o0 o -> Once o.
Proof.
  intros Hi H0 Hr. induction Hr as [|op o Hr IH]; [done|].
  apply run_method_once; [by eapply reachable_inv|done].
Qed.
End safety.
