(* ===== verification/Service.v ===== *)
(** [response/service/runner.py] and [api.py]: the orchestrator service.

    [ResponseService] drives an orchestrator ([Engine.v]): its intake, its scheduled passes and the
    export of the audit trail.  The orchestrator owns the store, so the exporter works on the store
    inside it.  The Elasticsearch client the exporter uses is a parameter: its [create] over the
    world behind it. *)

From S2P Require Import Prelude PyText PyNum PyTime PyJson Policy Decision AuditLog Effects Store Adapters Engine Https EngineInv.

Inductive service_mode : Type := observe | enforce.

#[global] Instance service_mode_eq_dec : EqDecision service_mode.
Proof. solve_decision. Defined.

Definition mode_of (text : string) : result service_mode :=
  if String.eqb text "observe" then Ok observe
  else if String.eqb text "enforce" then Ok enforce
  else Err (ValueError "mode must be observe or enforce").

(** The counters, and the report of one pass, which lacks the first two and the last. *)
Record Counters : Type := {
  c_accepted : Z; c_rejected : Z; c_applied : Z; c_verified : Z; c_reverted : Z; c_failed : Z; c_recovered : Z }.

Record Report : Type := { applied : Z; verified : Z; reverted : Z; failures : Z }.

Definition no_counts : Counters :=
  {| c_accepted := 0; c_rejected := 0; c_applied := 0; c_verified := 0; c_reverted := 0; c_failed := 0; c_recovered := 0 |}.
Definition no_report : Report := {| applied := 0; verified := 0; reverted := 0; failures := 0 |}.

Record Export : Type := { export_delivered : Z; export_blocked : option string }.

Definition no_export : Export := {| export_delivered := 0; export_blocked := None |}.

Record Service (W E : Type) : Type := {
  orchestrator : Orchestrator W;
  search_index : E;
  ticks : Z;
  started : bool;
  counters : Counters;
  last_export : Export }.
Arguments orchestrator {W E}.
Arguments search_index {W E}.
Arguments ticks {W E}.
Arguments started {W E}.
Arguments counters {W E}.
Arguments last_export {W E}.

Definition add_report (c : Counters) (r : Report) : Counters :=
  {| c_accepted := c_accepted c; c_rejected := c_rejected c; c_applied := c_applied c + applied r;
     c_verified := c_verified c + verified r; c_reverted := c_reverted c + reverted r; c_failed := c_failed c + failures r;
     c_recovered := c_recovered c |}.
Definition count_rejected (c : Counters) : Counters :=
  {| c_accepted := c_accepted c; c_rejected := c_rejected c + 1; c_applied := c_applied c; c_verified := c_verified c;
     c_reverted := c_reverted c; c_failed := c_failed c; c_recovered := c_recovered c |}.
Definition count_accepted (c : Counters) : Counters :=
  {| c_accepted := c_accepted c + 1; c_rejected := c_rejected c; c_applied := c_applied c; c_verified := c_verified c;
     c_reverted := c_reverted c; c_failed := c_failed c; c_recovered := c_recovered c |}.
Definition count_recovered (n : Z) (c : Counters) : Counters :=
  {| c_accepted := c_accepted c; c_rejected := c_rejected c; c_applied := c_applied c; c_verified := c_verified c;
     c_reverted := c_reverted c; c_failed := c_failed c; c_recovered := c_recovered c + n |}.

Definition more_applied (r : Report) : Report := {| applied := applied r + 1; verified := verified r; reverted := reverted r; failures := failures r |}.
Definition more_verified (r : Report) : Report := {| applied := applied r; verified := verified r + 1; reverted := reverted r; failures := failures r |}.
Definition more_reverted (r : Report) : Report := {| applied := applied r; verified := verified r; reverted := reverted r + 1; failures := failures r |}.
Definition more_failed (r : Report) : Report := {| applied := applied r; verified := verified r; reverted := reverted r; failures := failures r + 1 |}.

(** What a caller of [accept] gets. *)
Record Acceptance : Type := {
  acc_response_id : option string;
  acc_state : option lifecycle;
  acc_accepted : bool;
  acc_deduplicated : bool;
  acc_message : option string }.

Definition refused_acceptance (message : string) : Acceptance :=
  {| acc_response_id := None; acc_state := None; acc_accepted := false; acc_deduplicated := false; acc_message := Some message |}.

Definition _summary (r : OrchestrationResult) : Acceptance :=
  {| acc_response_id := Some (o_response_id r); acc_state := Some (o_state r); acc_accepted := o_accepted r;
     acc_deduplicated := o_deduplicated r; acc_message := o_message r |}.

(** The loops of a pass over the outcomes of the orchestrator's operations. *)
Definition count_revert (r : Report) (x : OrchestrationResult) : Report := if o_accepted x then more_reverted r else more_failed r.

Definition count_apply (r : Report) (x : OrchestrationResult) : Report :=
  if bool_decide (o_state x = APPLIED) then more_applied r else more_failed r.

Definition count_verify (r : Report) (x : OrchestrationResult) : Report :=
  match o_state x with
  | VERIFIED => more_verified r
  | ROLLED_BACK => more_reverted r
  | _ => more_failed r
  end.

Section service.
Context {W E A : Type} `{!CommandAuthenticator A}.
Variable catalog : PolicyCatalog.
Variable authenticator : A.
Variable adapters : list (string * ContainmentAdapter W).
Variable mode : service_mode.
Variable recover_every : Z.
(** [self._elastic.create], when there is an exporter. *)
Variable exporter : option (string -> string -> val -> M E bool).
Notation S := (Service W E).

Definition set_orchestrator (o : Orchestrator W) (s : S) : S :=
  {| orchestrator := o; search_index := search_index s; ticks := ticks s; started := started s; counters := counters s; last_export := last_export s |}.
Definition set_counters (c : Counters) (s : S) : S :=
  {| orchestrator := orchestrator s; search_index := search_index s; ticks := ticks s; started := started s; counters := c; last_export := last_export s |}.
Definition set_ticks (n : Z) (s : S) : S :=
  {| orchestrator := orchestrator s; search_index := search_index s; ticks := n; started := started s; counters := counters s; last_export := last_export s |}.
Definition set_export (x : Export) (s : S) : S :=
  {| orchestrator := orchestrator s; search_index := search_index s; ticks := ticks s; started := started s; counters := counters s; last_export := x |}.
Definition set_started (s : S) : S :=
  {| orchestrator := orchestrator s; search_index := search_index s; ticks := ticks s; started := true; counters := counters s; last_export := last_export s |}.
Definition set_index (e : E) (s : S) : S :=
  {| orchestrator := orchestrator s; search_index := e; ticks := ticks s; started := started s; counters := counters s; last_export := last_export s |}.

Definition in_orchestrator {X} (m : M (Orchestrator W) X) : M S X :=
  fun s => let '(r, o) := m (orchestrator s) in (r, set_orchestrator o s).
Definition in_index {X} (m : M E X) : M S X :=
  fun s => let '(r, e) := m (search_index s) in (r, set_index e s).

(** [max(1, int(recover_every))]. *)
Definition recovery_period : Z := Z.max 1 recover_every.

Definition response_service (o : Orchestrator W) (e : E) : S :=
  {| orchestrator := o; search_index := e; ticks := 0; started := false; counters := no_counts; last_export := no_export |}.

Definition start (now : Z) : M S unit :=
  let! recovered := in_orchestrator (recover_pending adapters now (Some (Aware now))) in
  modify (fun s => set_started (set_counters (count_recovered (Z.of_nat (length recovered)) (counters s)) s)).

Definition is_command_rejected (e : exn) : bool :=
  match e with
  | CommandRejected _ => true
  | _ => false
  end.

Definition accept (command : val) (now : Z) : M S Acceptance :=
  if bool_decide (mode = enforce) then
    let! ready := gets started in
    raise_when (negb ready) (RuntimeError "service has not completed startup recovery") ;;!
    attempt (in_orchestrator (submit catalog authenticator adapters command now (Some (Aware now)))) (fun r =>
      match r with
      | Err e =>
          if is_command_rejected e
          then modify (fun s => set_counters (count_rejected (counters s)) s) ;;! ret (refused_acceptance (exn_message e))
          else raise e
      | Ok result =>
          modify (fun s => set_counters ((if o_accepted result then count_accepted else count_rejected) (counters s)) s) ;;!
          ret (_summary result)
      end)
  else
    modify (fun s => set_counters (count_rejected (counters s)) s) ;;!
    ret (refused_acceptance "service is in observe mode; no command accepted").

Definition service_status (response_id : string) : M S val := in_orchestrator (snapshot response_id).

(** ** One pass *)
Fixpoint each_response (act : string -> M (Orchestrator W) OrchestrationResult) (count : Report -> OrchestrationResult -> Report)
    (ids : list string) (r : Report) : M S Report :=
  match ids with
  | [] => ret r
  | rid :: rest => let! outcome := in_orchestrator (act rid) in each_response act count rest (count r outcome)
  end.

Definition recovery_pass (now : Z) (r : Report) : M S Report :=
  modify (fun s => set_ticks (ticks s + 1) s) ;;!
  let! n := gets ticks in
  if n mod recovery_period =? 0 then
    let! outcomes := in_orchestrator (recover_pending adapters now (Some (Aware now))) in
    ret (fold_left count_revert outcomes r)
  else ret r.

Definition enforce_pass (now : Z) : M S Report :=
  let! ready := in_orchestrator pending_apply in
  let! r := each_response (fun rid => Engine.apply catalog authenticator adapters rid now (Some (Aware now))) count_apply ready no_report in
  let! waiting := in_orchestrator awaiting_verification in
  let! r := each_response (fun rid => verify_response adapters rid now (Some (Aware now))) count_verify waiting r in
  let! expired := in_orchestrator (expire_due adapters now (Some (Aware now))) in
  recovery_pass now (fold_left count_revert expired r).

(** ** Export *)

(** A call on the store of the orchestrator; without one the exporter does not exist. *)
Definition in_store {X} (m : M Store X) : M S X :=
  in_orchestrator (fun o =>
    match backend o with
    | Memory _ => (Err (AttributeError "unexported_events"), o)
    | Persistent st => let '(r, st') := m st in (r, set_backend (Persistent st') o)
    end).

Fixpoint export_rows (create : string -> string -> val -> M E bool) (rows : list (string * AuditEvent)) (delivered : Z) : M S Export :=
  match rows with
  | [] => ret {| export_delivered := delivered; export_blocked := None |}
  | (audit_id, event) :: rest =>
      let! day := lift (soc_parse_rfc3339 (ev_timestamp event)) in
      attempt (in_index (create ("soc-response-" +:+ strftime_ymd day) (audit_event_id event) (event_val event))) (fun r =>
        match r with
        | Err (DeliveryError error_code retry status) => ret {| export_delivered := delivered; export_blocked := Some error_code |}
        | Err e => raise e
        | Ok _ => in_store (mark_exported audit_id) ;;! export_rows create rest (delivered + 1)
        end)
  end.

Definition export (create : string -> string -> val -> M E bool) (limit : Z) : M S Export :=
  let! rows := in_store (unexported_events limit) in export_rows create rows 0.

Definition export_pass : M S unit :=
  match exporter with
  | None => ret tt
  | Some create =>
      attempt (export create 200) (fun r =>
        modify (set_export match r with
                           | Ok x => x
                           | Err _ => {| export_delivered := 0; export_blocked := Some "EXPORT_ERROR" |}
                           end))
  end.

Definition tick (now : Z) : M S (Report * Export) :=
  let! r := (if bool_decide (mode = enforce) then enforce_pass now else ret no_report) in
  modify (fun s => set_counters (add_report (counters s) r) s) ;;!
  export_pass ;;!
  let! x := gets last_export in
  ret (r, x).

(** ** The HTTP intake: status codes of [api.py] *)
Definition MAX_COMMAND_BYTES : Z := 16 * 1024.

(** A request body: its length and what its JSON is. *)
Definition submit_status (length : Z) (body : option val) (now : Z) : M S Z :=
  if negb ((0 <? length) && (length <=? MAX_COMMAND_BYTES)) then ret 413
  else match body with
       | Some (VDict command) =>
           attempt (accept (VDict command) now) (fun r =>
             match r with
             | Ok a => ret (if acc_accepted a then 202 else 422)
             | Err e => if is_runtime_error e then ret 503 else raise e
             end)
       | _ => ret 400
       end.

Definition is_blocked (x : Export) : bool :=
  match export_blocked x with
  | Some "" | None => false
  | Some _ => true
  end.

Definition ready_status (s : S) : Z := if started s && negb (is_blocked (last_export s)) then 200 else 503.
End service.
