(* ===== verification/ServiceInv.v ===== *)
(** What the operations of the service ([Service.v]) preserve and what a pass does to the orchestrator,
    and the exporter of the audit trail ([Service.export] over [Https.create]) with the store it marks:
    the lemmas behind [ServiceProps.v].

    Events leave in the order of the audit table: the export marks are always a prefix of it, and a
    marked event is in the search index.  [SearchLaws] states what the index promises. *)

From S2P Require Import Prelude PyText PyNum PyTime PyJson Policy Decision AuditLog Effects Store Adapters Https Engine EngineInv.
From S2P Require Import EngineFrame Service.

Inductive service_op : Type :=
| SvcStart (now : Z)
| SvcAccept (command : val) (now : Z)
| SvcPost (length : Z) (body : option val) (now : Z)
| SvcStatus (response_id : string)
| SvcTick (now : Z).

Section service_inv.
Context {W E A : Type} `{!CommandAuthenticator A}.
Variable catalog : PolicyCatalog.
Variable authenticator : A.
Variable adapters : list (string * ContainmentAdapter W).
Variable mode : service_mode.
Variable recover_every : Z.
Variable exporter : option (string -> string -> val -> M E bool).
Notation S := (Service W E).
Notation O := (Orchestrator W).
Notation run := (run_method catalog authenticator adapters).

(** One operation of the service, whatever it returns or raises. *)
Definition run_service (op : service_op) (s : S) : S :=
  match op with
  | SvcStart now => (start adapters now s).2
  | SvcAccept command now => (accept catalog authenticator adapters mode command now s).2
  | SvcPost n body now => (submit_status catalog authenticator adapters mode n body now s).2
  | SvcStatus rid => (service_status rid s).2
  | SvcTick now => (tick catalog authenticator adapters mode recover_every exporter now s).2
  end.

(** The methods of the orchestrator a service may call. *)
Definition schedulable (op : orchestrator_op) : bool :=
  match mode, op with
  | _, OpRecover _ _ => true
  | enforce, (OpSubmit _ _ _ | OpApply _ _ _ | OpVerify _ _ _ | OpExpire _ _) => true
  | _, _ => false
  end.

Lemma recover_schedulable u now : schedulable (OpRecover u now) = true.
Proof. unfold schedulable. by destruct mode. Qed.

Lemma enforce_schedulable op : mode = enforce ->
  match op with OpRollback _ _ _ _ | OpRestore => False | _ => True end -> schedulable op = true.
Proof. unfold schedulable. intros ->. by destruct op. Qed.

(** A property of the orchestrator and of the search index that the methods and the exporter keep is
    kept by the service. *)
Section keeps_service.
Variable P : O -> E -> Prop.
Hypothesis run_kept : forall op o e, schedulable op = true -> P o e -> P (run op o) e.

Definition kept (s : S) : Prop := P (orchestrator s) (search_index s).

Lemma modify_kept f : (forall s, orchestrator (f s) = orchestrator s) -> (forall s, search_index (f s) = search_index s) ->
  keeps kept (modify f).
Proof. intros Ho He. apply keeps_modify. intros s Hs. unfold kept. by rewrite Ho, He. Qed.

Lemma method_kept {X} (m : M O X) op : schedulable op = true -> (forall o, (m o).2 = run op o) -> keeps kept (in_orchestrator m : M S X).
Proof.
  intros Hop Hm s Hs. unfold in_orchestrator. specialize (Hm (orchestrator s)).
  pose proof (run_kept _ _ _ Hop Hs) as H. rewrite <- Hm in H. destruct (m (orchestrator s)) as [[x|x] o]; exact H.
Qed.

Lemma query_kept {X} (m : M O X) : (forall o, (m o).2 = o) -> keeps kept (in_orchestrator m : M S X).
Proof.
  intros Hm s Hs. unfold in_orchestrator. specialize (Hm (orchestrator s)).
  destruct (m (orchestrator s)) as [[x|x] o]; simpl in Hm; subst; exact Hs.
Qed.

Lemma each_response_kept act count ids r : (forall rid, keeps kept (in_orchestrator (act rid) : M S _)) ->
  keeps kept (each_response act count ids r : M S Report).
Proof. intros Hact. revert r. induction ids as [|rid ids IH]; intros r; cbn [each_response]; keeps_walk; auto. Qed.

Lemma recover_kept now : keeps kept (in_orchestrator (recover_pending adapters now (Some (Aware now))) : M S _).
Proof. apply (method_kept _ (OpRecover now (Some (Aware now)))); [apply recover_schedulable|done]. Qed.

Lemma recovery_pass_kept now r : keeps kept (recovery_pass adapters recover_every now r : M S Report).
Proof. unfold recovery_pass. keeps_walk; [by apply modify_kept|apply recover_kept]. Qed.

Lemma start_kept now : keeps kept (start adapters now : M S unit).
Proof. unfold start. keeps_walk; [apply recover_kept|by apply modify_kept]. Qed.

Lemma accept_kept command now : keeps kept (accept catalog authenticator adapters mode command now : M S _).
Proof.
  unfold accept. case_bool_decide as Hm; keeps_walk; try (by apply modify_kept).
  apply (method_kept _ (OpSubmit command now (Some (Aware now)))); [by apply enforce_schedulable|done].
Qed.

Lemma status_kept rid : keeps kept (service_status rid : M S val).
Proof.
  apply query_kept. intros o. unfold snapshot.
  match goal with |- (_serialized ?m o).2 = o => destruct (serialized_run m o) as [[_ ->]|[e ->]] end; [|done].
  unfold mbind, _record. by destruct (assoc rid (records o)).
Qed.

Lemma listing_kept {X} (f : O -> X) : keeps kept (in_orchestrator (_serialized (gets f)) : M S X).
Proof.
  apply query_kept. intros o. by destruct (serialized_run (gets f) o) as [[_ ->]|[e ->]].
Qed.

Lemma enforce_pass_kept now : mode = enforce ->
  keeps kept (enforce_pass catalog authenticator adapters recover_every now : M S Report).
Proof.
  intros Hm. unfold enforce_pass, pending_apply, awaiting_verification. keeps_walk; try apply listing_kept.
  - apply each_response_kept. intros rid. by apply (method_kept _ (OpApply rid now (Some (Aware now)))); [apply enforce_schedulable|].
  - apply each_response_kept. intros rid. by apply (method_kept _ (OpVerify rid now (Some (Aware now)))); [apply enforce_schedulable|].
  - by apply (method_kept _ (OpExpire now (Some (Aware now)))); [apply enforce_schedulable|].
  - apply recovery_pass_kept.
Qed.

Hypothesis export_kept : forall create limit, exporter = Some create -> keeps kept (export create limit : M S Export).

Lemma tick_kept now : keeps kept (tick catalog authenticator adapters mode recover_every exporter now : M S (Report * Export)).
Proof.
  unfold tick. apply keeps_bind; [case_bool_decide; [by apply enforce_pass_kept|keeps_walk]|]. intros r.
  apply keeps_bind; [by apply modify_kept|]. intros _. apply keeps_bind; [|intros _; keeps_walk].
  pose proof (fun create => export_kept create 200) as Hx. unfold export_pass. destruct exporter as [create|]; [|keeps_walk].
  apply keeps_attempt; [by apply Hx|]. intros x. by apply modify_kept.
Qed.

Lemma run_service_kept op s : kept s -> kept (run_service op s).
Proof.
  intros Hs. destruct op; cbn [run_service]; (eapply keeps_run; [|exact Hs]).
  - apply start_kept.
  - apply accept_kept.
  - unfold submit_status. destruct (negb _); [keeps_walk|]. destruct body as [v|]; [|keeps_walk].
    destruct v; try (by keeps_walk). apply keeps_attempt; [apply accept_kept|]. intros r. keeps_walk.
  - apply status_kept.
  - apply tick_kept.
Qed.
End keeps_service.

(** ** The order of the calls of a pass *)
Definition run_methods (ops : list orchestrator_op) (o : O) : O := fold_left (fun o op => run op o) ops o.

Lemma run_methods_app a b o : run_methods (a ++ b) o = run_methods b (run_methods a o).
Proof. apply fold_left_app. Qed.

(** From a state with [Pre], [m] calls a prefix of the planned methods: all of them when it returns. *)
Definition performs {X} (Pre : S -> Prop) (m : M S X) (plan : O -> list orchestrator_op) (Post : X -> S -> Prop) : Prop :=
  forall s, Pre s ->
    let '(r, s') := m s in
    exists t, t `prefix_of` plan (orchestrator s) /\ orchestrator s' = run_methods t (orchestrator s) /\
      match r with
      | Ok x => t = plan (orchestrator s) /\ Post x s'
      | Err _ => True
      end.

Definition then_plan (p q : O -> list orchestrator_op) (o : O) : list orchestrator_op := p o ++ q (run_methods (p o) o).

Lemma performs_bind {X Y} Pre (m : M S X) (k : X -> M S Y) p q Mid Post :
  performs Pre m p Mid -> (forall x, performs (Mid x) (k x) q Post) -> performs Pre (mbind m k) (then_plan p q) Post.
Proof.
  intros Hm Hk s Hs. specialize (Hm s Hs). unfold mbind. destruct (m s) as [[x|e] s1].
  - destruct Hm as (t & _ & Ho & -> & Hx). specialize (Hk x s1 Hx). destruct (k x s1) as [r s2].
    destruct Hk as (t2 & Hpre & Ho2 & Hr). rewrite Ho in Hpre, Ho2, Hr. exists (p (orchestrator s) ++ t2).
    rewrite run_methods_app. split; [by apply prefix_app|]. split; [done|]. destruct r; [|done]. by destruct Hr as [-> ?].
  - destruct Hm as (t & Hpre & Ho & _). exists t. split; [by apply prefix_app_r|done].
Qed.

Lemma performs_ret {X} Pre (x : X) (Post : X -> S -> Prop) : (forall s, Pre s -> Post x s) -> performs Pre (ret x) (fun _ => []) Post.
Proof. intros H s Hs. exists []. split; [apply prefix_nil|]. split; [done|]. split; [done|by apply H]. Qed.

Lemma performs_method {X} (Pre : S -> Prop) (m : M O X) op (Post : X -> S -> Prop) :
  (forall o, (m o).2 = run op o) -> (forall x s o, Pre s -> Post x (set_orchestrator o s)) ->
  performs Pre (in_orchestrator m) (fun _ => [op]) Post.
Proof.
  intros Hm HP s Hs. unfold in_orchestrator. specialize (Hm (orchestrator s)).
  destruct (m (orchestrator s)) as [r o]. cbn [snd] in Hm. subst o. exists [op]. split; [done|]. split; [done|].
  destruct r; [|done]. split; [done|by apply HP].
Qed.

Lemma performs_listing {X} (Pre : S -> Prop) (f : O -> X) :
  performs Pre (in_orchestrator (_serialized (gets f))) (fun _ => []) (fun x s => Pre s /\ x = f (orchestrator s)).
Proof.
  intros s Hs. unfold in_orchestrator.
  destruct (serialized_run (gets f) (orchestrator s)) as [[_ ->]|[e ->]]; cbn; exists []; (split; [apply prefix_nil|]);
    (split; [done|]); [|done]. split; [done|]. split; [by destruct s|done].
Qed.

(** The ticks so far, which the methods do not touch. *)
Definition at_tick (n : Z) (s : S) : Prop := ticks s = n.

Lemma performs_each n act op count ids r :
  (forall rid o, (act rid o).2 = run (op rid) o) ->
  performs (at_tick n) (each_response act count ids r) (fun _ => map op ids) (fun _ => at_tick n).
Proof.
  intros Hact. revert r. induction ids as [|rid ids IH]; intros r; cbn [each_response map]; [by apply performs_ret|].
  apply (performs_bind _ _ _ (fun _ => [op rid]) (fun _ => map op ids) (fun _ => at_tick n)); [|intros x; apply IH].
  apply performs_method; [apply Hact|done].
Qed.

Definition ready_ids (o : O) : list string := map r_response_id (List.filter ready_to_apply (map snd (records o))).
Definition waiting_ids (o : O) : list string :=
  map r_response_id (List.filter (fun r => bool_decide (r_state r = APPLIED) && negb (is_present (r_pending_operation r))) (map snd (records o))).

(** Apply what is ready, verify what is applied by then, expire, and recover on every
    [recovery_period]th tick [n]. *)
Definition recovery_plan (n now : Z) (o : O) : list orchestrator_op :=
  if (n + 1) mod recovery_period recover_every =? 0 then [OpRecover now (Some (Aware now))] else [].
Definition closing_plan (n now : Z) (o : O) : list orchestrator_op := OpExpire now (Some (Aware now)) :: recovery_plan n now o.
Definition verify_plan (n now : Z) : O -> list orchestrator_op :=
  then_plan (fun o => map (fun rid => OpVerify rid now (Some (Aware now))) (waiting_ids o)) (closing_plan n now).
Definition pass_plan (n now : Z) : O -> list orchestrator_op :=
  then_plan (fun o => map (fun rid => OpApply rid now (Some (Aware now))) (ready_ids o)) (verify_plan n now).

Lemma performs_plan {X} Pre (m : M S X) p q Post : performs Pre m p Post -> (forall o, p o = q o) -> performs Pre m q Post.
Proof.
  intros H Hpq s Hs. specialize (H s Hs). destruct (m s) as [r s']. destruct H as (t & H1 & H2 & H3). exists t.
  rewrite <- Hpq. by split.
Qed.

Lemma performs_pre {X} (Pre Pre' : S -> Prop) (m : M S X) p Post : performs Pre m p Post -> (forall s, Pre' s -> Pre s) -> performs Pre' m p Post.
Proof. intros H HP s Hs. apply H. by apply HP. Qed.

Lemma recovery_pass_performs n now r :
  performs (at_tick n) (recovery_pass adapters recover_every now r) (recovery_plan n now) (fun _ _ => True).
Proof.
  intros s Hs. unfold recovery_pass. unfold mbind at 1, modify. unfold mbind at 1, gets. cbn [ticks set_ticks]. rewrite Hs.
  set (s1 := set_ticks _ s). unfold recovery_plan. destruct (_ =? 0).
  - assert (performs (fun _ => True) (let! outcomes := in_orchestrator (recover_pending adapters now (Some (Aware now))) in
      ret (fold_left count_revert outcomes r)) (then_plan (fun _ => [OpRecover now (Some (Aware now))]) (fun _ => [])) (fun _ _ => True)) as H.
    { apply performs_bind with (fun _ _ => True); [by apply performs_method|]. intros x. by apply performs_ret. }
    exact (H s1 I).
  - exists []. split; [apply prefix_nil|done].
Qed.

Lemma enforce_pass_performs n now :
  performs (at_tick n) (enforce_pass catalog authenticator adapters recover_every now) (pass_plan n now) (fun _ _ => True).
Proof.
  unfold enforce_pass, pending_apply, awaiting_verification.
  apply (performs_plan _ _ (then_plan (fun _ => []) (pass_plan n now))); [|done].
  eapply performs_bind; [apply performs_listing|]. intros ready. cbv beta.
  eapply performs_bind.
  { intros s [Hs ->]. exact (performs_each n (fun rid => Engine.apply catalog authenticator adapters rid now (Some (Aware now)))
      (fun rid => OpApply rid now (Some (Aware now))) count_apply (ready_ids (orchestrator s)) no_report (fun _ _ => eq_refl) s Hs). }
  intros r1. apply (performs_plan _ _ (then_plan (fun _ => []) (verify_plan n now))); [|done].
  eapply performs_bind; [apply performs_listing|]. intros waiting. cbv beta.
  eapply performs_bind.
  { intros s [Hs ->]. exact (performs_each n (fun rid => verify_response adapters rid now (Some (Aware now)))
      (fun rid => OpVerify rid now (Some (Aware now))) count_verify (waiting_ids (orchestrator s)) r1 (fun _ _ => eq_refl) s Hs). }
  intros r2. apply (performs_plan _ _ (then_plan (fun _ => [OpExpire now (Some (Aware now))]) (recovery_plan n now))); [|done].
  eapply performs_bind; [by apply (performs_method (at_tick n) _ (OpExpire now (Some (Aware now))) (fun _ => at_tick n))|].
  intros x. apply recovery_pass_performs.
Qed.

(** What the exporter may change of an orchestrator: the marks of its store. *)
Definition same_but_marks (o o' : O) : Prop :=
  records o' = records o /\ dedup o' = dedup o /\ storage_failed o' = storage_failed o /\ world o' = world o /\
  (forall rid, backend_events (backend o') rid = backend_events (backend o) rid) /\
  backend_intents (backend o') = backend_intents (backend o).

(** ** The intake *)
Lemma submit_validated value now (o : O) x o' :
  submit catalog authenticator adapters value now (Some (Aware now)) o = (Ok x, o') ->
  exists c, _validate_command catalog authenticator value now = Ok c.
Proof.
  unfold submit. match goal with |- context [_serialized ?m o] => destruct (serialized_run m o) as [[_ ->]|[e ->]] end; [|done].
  unfold mbind at 1, orchestrator_utc. cbn [lift default from_option id].
  unfold mbind at 1, lift. destruct (_validate_command _ _ _ _) as [c|e]; [by exists c|done].
Qed.

Lemma accept_ready command now (s : S) a s' :
  accept catalog authenticator adapters mode command now s = (Ok a, s') -> acc_accepted a = true ->
  mode = enforce /\ started s = true /\ exists c, _validate_command catalog authenticator command now = Ok c.
Proof.
  unfold accept. case_bool_decide as Hm; [|by intros [= <- _]]. unfold mbind at 1, gets, raise_when, lift.
  destruct (started s); cbn [negb raise_if]; [|by unfold mbind]. unfold mbind at 1, attempt, in_orchestrator.
  destruct (submit _ _ _ _ _ _ (orchestrator s)) as [[x|e] o] eqn:Es.
  - intros _ _. apply submit_validated in Es. done.
  - destruct (is_command_rejected e); [|done]. intros H Ha. by injection H as <- _.
Qed.

Lemma accept_unready command now (s : S) : started s = false ->
  accept catalog authenticator adapters enforce command now s =
    (Err (RuntimeError "service has not completed startup recovery"), s).
Proof. intros Hst. unfold accept. rewrite bool_decide_true by done. unfold mbind, gets, raise_when, lift. by rewrite Hst. Qed.

(** What the orchestrator alone keeps, the exporter keeps when marking an event does. *)
Lemma export_keeps_marks (P : O -> Prop) create limit :
  (forall id o st, backend o = Persistent st -> P o -> P (set_backend (Persistent (mark_exported id st).2) o)) ->
  keeps (kept (fun o _ => P o)) (export create limit : M S Export).
Proof.
  intros Hmark. unfold export. apply keeps_bind.
  { apply keeps_pure. intros s. unfold in_store, in_orchestrator. destruct (backend (orchestrator s)) as [l|st] eqn:Hb.
    - by destruct s.
    - destruct (unexported_events limit st) as [r st'] eqn:Eq. pose proof (query_quiet _ _ _ _ Eq) as ->.
      rewrite <- Hb. destruct s as [o ? ? ? ? ?]. by destruct o. }
  intros rows. generalize 0. induction rows as [|[id e] rows IH]; intros n; cbn [export_rows]; keeps_walk; try apply IH.
  - intros s Hs. unfold in_index. by destruct (create _ _ _ (search_index s)) as [[b|x] e'].
  - intros s Hs. unfold in_store, in_orchestrator. destruct (backend (orchestrator s)) as [l|st] eqn:Hb; [exact Hs|].
    pose proof (Hmark id _ _ Hb Hs) as H. by destruct (mark_exported id st) as [[x|x] st'].
Qed.

Definition run_services (ops : list service_op) (s : S) : S := fold_left (fun s op => run_service op s) ops s.

Lemma run_services_kept (P : O -> E -> Prop) ops s :
  (forall op o e, schedulable op = true -> P o e -> P (run op o) e) ->
  (forall create limit, exporter = Some create -> keeps (kept P) (export create limit : M S Export)) ->
  kept P s -> kept P (run_services ops s).
Proof.
  intros Hrun Hexp. unfold run_services. revert s. induction ops as [|op ops IH]; intros s Hs; cbn [fold_left]; [done|].
  apply IH. by apply run_service_kept.
Qed.
End service_inv.

(** A mark leaves the histories and the intents alone. *)
Lemma mark_exported_tables id st :
  tables (mark_exported id st).2 = tables st \/ exists x, tables (mark_exported id st).2 = set_exported (tables st) x.
Proof.
  destruct (mark_exported id st) as [r st'] eqn:E. unfold mark_exported in E. cbn [snd].
  apply transaction_cases in E as (_ & [->|[u Hu]] & _); [by left|]. injection Hu as _ Hu. rewrite <- Hu.
  destruct (str_in id _); [by left|right; by eexists].
Qed.

Lemma mark_exported_inv {W} id (o : Orchestrator W) st :
  backend o = Persistent st -> Inv o -> Inv (set_backend (Persistent (mark_exported id st).2) o).
Proof.
  intros Hb Ho. apply (quiet_inv o); [|done]. pose proof (mark_exported_tables id st) as Ht.
  destruct (mark_exported id st) as [r st']. cbn [snd] in *.
  split; cbn [records dedup storage_failed backend set_backend backend_wf]; rewrite ?Hb; try done.
  - destruct Ht as [->|[x ->]]; [done|]. apply set_exported_wf.
  - intros _. destruct Ht as [E|[x E]]; split; cbn; by rewrite E.
Qed.

(** What the exporter needs of its [create]: a document it returns for is in the index, and the
    index loses none. *)
Class CreateLaws {E : Type} (create : string -> string -> val -> M E bool) (stored : E -> string -> Prop) : Prop := {
  create_stores index id document e b e' : create index id document e = (Ok b, e') -> stored e' id;
  create_keeps index id document e x : stored e x -> stored (create index id document e).2 x;
}.

(** What an Elasticsearch node promises to a client that may only create: an acknowledged creation
    is held under its URL, a conflict means one is held there, and nothing is lost. *)
Class SearchLaws {E : Type} (http : JsonHTTPS E) (held : E -> string -> Prop) : Prop := {
  authorization_keeps e u : held e u -> held (authorization http e).2 u;
  opener_keeps r e u : held e u -> held (opener http r e).2 u;
  acknowledged_held r e reply e' :
    req_method r = "PUT" -> opener http r e = (Ok (Replied reply), e') -> reply_status reply = 201 -> held e' (req_url r);
  authorization_plain e c r status : (authorization http e).1 <> Err (DeliveryError c r (Some status));
  opener_plain q e c r status : (opener http q e).1 <> Err (DeliveryError c r (Some status));
  conflict_held r e e' : req_method r = "PUT" -> opener http r e = (Ok (HttpError 409), e') -> held e' (req_url r);
}.

Section client.
Context {E : Type}.
Variable http : JsonHTTPS E.
Variable held : E -> string -> Prop.
Context `{!SearchLaws http held}.

Definition document_url (index id : string) : string := origin http +:+ "/" +:+ index +:+ "/_create/" +:+ quote "" id.

Definition stored (e : E) (id : string) : Prop := exists index, held e (document_url index id).

Lemma request_keeps method path payload u : keeps (fun e => held e u) (request http method path payload).
Proof.
  unfold request. keeps_walk; intros e He.
  - pose proof (authorization_keeps e u He). by destruct (authorization http e) as [[x|x] e'].
  - match goal with |- match opener _ ?r _ with _ => _ end => pose proof (opener_keeps r e u He) end.
    by destruct (opener http _ e) as [[x|x] e'].
Qed.

Lemma decode_answer_conflict b a c r : decode_answer b a = Err (DeliveryError c r (Some 409)) -> a = HttpError 409.
Proof.
  destruct a as [reply|status| |]; cbn [decode_answer]; try discriminate.
  - destruct (MAX_REPLY <? _); [discriminate|]. destruct (_ && _); [discriminate|].
    by destruct (reply_json reply) as [[]|].
  - by intros [= _ _ ->].
Qed.

Lemma decode_answer_status b a n reply : decode_answer b a = Ok (n, reply) -> exists r, a = Replied r /\ reply_status r = n.
Proof.
  destruct a as [r|status| |]; cbn [decode_answer]; try discriminate.
  destruct (MAX_REPLY <? _); [discriminate|]. destruct (_ && _); [discriminate|].
  destruct (reply_json r) as [[]|]; try discriminate. intros [= <- <-]. by exists r.
Qed.

(** A [PUT] that created, or found one there. *)
Lemma request_put path payload :
  triple (fun _ => True) (request http "PUT" path payload)
    (fun reply e => reply.1 = 201 -> held e (origin http +:+ path))
    (fun x e => forall c r, x = DeliveryError c r (Some 409) -> held e (origin http +:+ path)).
Proof.
  unfold request. eapply (triple_bind _ _ _ (fun _ _ => True)); [|intros ?].
  - unfold check_path. apply triple_lift; [done|]. intros x e Hx _ c r ->. by apply raise_if_Err in Hx as [_ [=]].
  - eapply (triple_bind _ _ _ (fun _ _ => True)); [by apply triple_raise_when|intros ?].
    eapply (triple_bind _ _ _ (fun _ _ => True)); [|intros value].
    { intros e _. pose proof (authorization_plain e) as H. destruct (authorization http e) as [[v|x] e']; [done|].
      intros c r ->. by destruct (H c r 409). }
    set (q := {| req_method := "PUT"; req_url := _; req_headers := _; req_data := _ |}).
    apply (triple_bind _ _ _ (fun answer e =>
      (answer = HttpError 409 -> held e (req_url q)) /\
      (forall r, answer = Replied r -> reply_status r = 201 -> held e (req_url q)))).
    { intros e _. pose proof (opener_plain q e) as H. destruct (opener http q e) as [[answer|x] e'] eqn:Eo.
      - split; [intros ->; by apply (conflict_held q e)|intros r ->; by apply (acknowledged_held q e r)].
      - intros c r ->. by destruct (H c r 409). }
    intros answer. apply triple_lift.
    + intros [n reply] e Hd [_ H] Hn. apply decode_answer_status in Hd as (r & -> & <-). by apply (H r).
    + intros x e Hd [H _] c r ->. apply H. by apply decode_answer_conflict in Hd.
Qed.

(** [create] of the client keeps the promise. *)
#[export] Instance create_laws : CreateLaws (create http) stored.
Proof.
  split.
  - intros index id document e b e' H. exists index.
    enough (triple (fun _ => True) (create http index id document) (fun _ e' => held e' (document_url index id)) (fun _ _ => True)) as Ht.
    { specialize (Ht e I). by rewrite H in Ht. }
    unfold create. eapply (triple_bind _ _ _ (fun _ _ => True)); [by apply triple_raise_when|intros ?].
    eapply (triple_bind _ _ _ (fun _ _ => True)); [by apply triple_raise_when|intros ?].
    eapply triple_attempt; [apply request_put| |].
    + intros [status reply]. apply (triple_bind _ _ _ (fun _ e' => held e' (document_url index id))); [|intros ?; by apply triple_ret].
      apply triple_raise_when; [|done]. intros s Hc Hs. bool_inv. by apply Hs.
    + intros x s Hx. destruct x as [| | | | | | | | | | |c r [status|]| | | | | | | | | | | | | | | | |]; try done.
      destruct (Z.eq_dec status 409) as [->|Hne]; [by eapply Hx|]. by repeat case_match.
  - intros index id document e x [u Hu]. exists u. eapply keeps_run; [|exact Hu].
    unfold create. keeps_walk. apply request_keeps.
Qed.
End client.

(** ** The audit table and its marks *)
Definition audit_ids (t : Tables) : list string := map a_id (t_audit t).

Record exportable (t : Tables) : Prop := {
  ex_rows : Forall (fun r => a_id r = audit_event_id (a_payload r)) (t_audit t);
  ex_unique : NoDup (audit_ids t);
  ex_prefix : exists rest, audit_ids t = t_exported t ++ rest;
}.

Definition pending_rows (t : Tables) : list audit_row := drop (length (t_exported t)) (t_audit t).

(** Behind the marks the table splits in two. *)
Lemma exportable_split t : exportable t ->
  exists done_, t_audit t = done_ ++ pending_rows t /\ t_exported t = map a_id done_.
Proof.
  intros [_ _ [rest Hr]]. exists (take (length (t_exported t)) (t_audit t)). unfold pending_rows.
  rewrite take_drop. split; [done|]. unfold audit_ids in Hr. rewrite <- firstn_map, Hr. by rewrite take_app_length.
Qed.

Lemma unexported_pending t : exportable t -> unexported_rows t = pending_rows t.
Proof.
  intros H. destruct (exportable_split t H) as (d & Hsplit & Hmarks). pose proof (ex_unique t H) as Hnd.
  unfold unexported_rows. unfold audit_ids in Hnd. rewrite Hsplit in Hnd |- *. rewrite Hmarks. generalize (pending_rows t) Hnd. clear.
  intros rest Hnd. rewrite List.filter_app. rewrite map_app in Hnd. apply NoDup_app in Hnd as (_ & Hdis & _).
  assert (List.filter (fun r => negb (str_in (a_id r) (map a_id d))) d = []) as ->.
  { assert (Forall (fun r => a_id r ∈ map a_id d) d) as Hd by (apply Forall_forall; intros r Hr; by apply list_elem_of_fmap_2).
    clear Hdis. revert Hd. generalize (map a_id d). intros ids. induction 1 as [|r l Hr _ IH]; cbn; [done|].
    rewrite (proj2 (str_in_elem _ _) Hr). exact IH. }
  cbn. assert (Forall (fun r => a_id r ∉ map a_id d) rest) as Hd.
  { apply Forall_forall. intros r Hr Hin. eapply Hdis; [exact Hin|]. by apply list_elem_of_fmap_2. }
  clear Hdis. induction Hd as [|r l Hr _ IH]; cbn; [done|]. destruct (str_in _ _) eqn:E; [by apply str_in_elem in E|].
  cbn. by rewrite IH.
Qed.

Lemma exportable_empty t : t_audit t = [] -> t_exported t = [] -> exportable t.
Proof. intros Ha He. split; unfold audit_ids; rewrite Ha; [done|apply NoDup_nil_2|]. exists []. by rewrite He. Qed.

(** A checkpoint adds an event behind the marks. *)
Lemma checkpoint_exportable snap e s :
  exportable (tables s) ->
  exportable (tables (checkpoint snap e s).2) /\ t_exported (tables (checkpoint snap e s).2) = t_exported (tables s).
Proof.
  intros H. unfold checkpoint. destruct (transaction _ s) as [r s'] eqn:E. cbn [snd].
  apply transaction_cases in E as (_ & [->|[[] Hb]] & _); [done|].
  apply checkpoint_body_Ok in Hb as (Ha & _ & _ & Hev & _ & _ & Hex). split; [|done].
  destruct H as [Hr Hu [rest Hp]]. split; unfold audit_ids in *; rewrite Ha, ?Hex.
  - apply Forall_app. split; [done|]. destruct e; cbn; [by repeat constructor|done].
  - destruct e as [e|]; cbn; [|by rewrite app_nil_r]. rewrite map_app. apply NoDup_app. destruct (Hev e eq_refl) as [_ Hn].
    split; [done|]. split; [|apply NoDup_singleton]. intros x Hx. cbn. rewrite list_elem_of_singleton. by intros ->.
  - rewrite map_app, Hp, <- app_assoc. by eexists.
Qed.

(** A mark on the first pending row. *)
Lemma mark_next id s rest :
  exportable (tables s) -> audit_ids (tables s) = t_exported (tables s) ++ id :: rest ->
  let '(r, s') := mark_exported id s in
  exportable (tables s') /\ t_audit (tables s') = t_audit (tables s) /\
  (tables s' = tables s \/ t_exported (tables s') = t_exported (tables s) ++ [id]) /\
  (r = Ok tt -> t_exported (tables s') = t_exported (tables s) ++ [id]).
Proof.
  intros H Hids. assert (str_in id (t_exported (tables s)) = false) as Hn.
  { pose proof (ex_unique _ H) as Hnd. rewrite Hids in Hnd. apply NoDup_app in Hnd as (_ & Hd & _).
    destruct (str_in id _) eqn:E; [|done]. apply str_in_elem, Hd in E. set_solver. }
  assert (Hs : forall t', t' = tables s \/ t' = set_exported (tables s) (t_exported (tables s) ++ [id]) ->
    exportable t' /\ t_audit t' = t_audit (tables s)).
  { intros t' [->| ->]; [done|]. destruct H as [Hr Hu _]. split; [|done]. split; [done|done|]. exists rest.
    unfold audit_ids in *. cbn. by rewrite Hids, <- app_assoc. }
  destruct (mark_exported id s) as [r s'] eqn:E. unfold mark_exported in E. apply transaction_cases in E as (Hok & Hc & _).
  cbn beta in Hok, Hc. rewrite Hn in Hok, Hc.
  assert (tables s' = tables s \/ tables s' = set_exported (tables s) (t_exported (tables s) ++ [id])) as Ht.
  { destruct Hc as [?|[u Hu]]; [by left|right]. by injection Hu as _ <-. }
  destruct (Hs _ Ht) as [H1 H2]. split; [done|]. split; [done|]. split.
  - destruct Ht as [->| ->]; [by left|by right].
  - intros ->. specialize (Hok tt eq_refl). injection Hok as Hok. by rewrite <- Hok.
Qed.

(** ** The export loop *)
Definition as_rows (l : list audit_row) : list (string * AuditEvent) := map (fun r => (a_id r, a_payload r)) l.

Section loop.
Context {W E : Type}.
Variable create : string -> string -> val -> M E bool.
Variable stored : E -> string -> Prop.
Context `{!CreateLaws create stored}.
Notation S := (Service W E).

(** The marks are a prefix of the audit table, and what they mark is stored. *)
Definition delivered_prefix (t : Tables) (e : E) : Prop := exportable t /\ Forall (stored e) (t_exported t).

(** From [s] with the store [st], [k] more of [rows] were marked. *)
Record exported_more (rows : list audit_row) (st : Store) (s : S) (k : nat) (s' : S) : Prop := {
  more_count : (k <= length rows)%nat;
  more_after : exists st', orchestrator s' = set_backend (Persistent st') (orchestrator s) /\
    delivered_prefix (tables st') (search_index s') /\ t_audit (tables st') = t_audit (tables st) /\
    t_exported (tables st') = t_exported (tables st) ++ map a_id (take k rows) }.

Lemma exported_none rows st (s : S) e' :
  backend (orchestrator s) = Persistent st -> delivered_prefix (tables st) e' ->
  exported_more rows st s 0 (set_index e' s).
Proof.
  intros Hb Hp. split; [lia|]. exists st. split; [|split; [done|split; [done|cbn; by rewrite app_nil_r]]].
  rewrite <- Hb. cbn [orchestrator set_index]. by destruct (orchestrator s).
Qed.

Lemma delivered_index index id v t e : delivered_prefix t e -> delivered_prefix t (create index id v e).2.
Proof. intros [H1 H2]. split; [done|]. eapply Forall_impl; [exact H2|]. intros x. apply create_keeps. Qed.

Lemma pending_next t row rows rest : exportable t -> pending_rows t = row :: rows ++ rest ->
  audit_ids t = t_exported t ++ a_id row :: map a_id (rows ++ rest) /\ a_id row = audit_event_id (a_payload row).
Proof.
  intros H Hp. destruct (exportable_split t H) as (d & Hs & Hm). rewrite Hp in Hs. split.
  - unfold audit_ids. rewrite Hs, map_app, Hm. done.
  - pose proof (ex_rows t H) as Hr. rewrite Hs, Forall_app, Forall_cons in Hr. apply Hr.
Qed.

Lemma pending_after t t' id row rows : exportable t -> pending_rows t = row :: rows ->
  t_audit t' = t_audit t -> t_exported t' = t_exported t ++ [id] -> pending_rows t' = rows.
Proof.
  unfold pending_rows. intros _ Hp -> ->. rewrite length_app. cbn [length].
  rewrite <- drop_drop, Hp. done.
Qed.

Lemma export_rows_spec rows : forall n st (s : S) rest,
  backend (orchestrator s) = Persistent st -> delivered_prefix (tables st) (search_index s) ->
  pending_rows (tables st) = rows ++ rest ->
  let '(r, s') := export_rows create (as_rows rows) n s in
  exists k, exported_more rows st s k s' /\
    (forall x, r = Ok x -> export_delivered x = n + Z.of_nat k /\ (export_blocked x = None -> k = length rows)).
Proof.
  assert (Hhere : forall rows st (s : S), backend (orchestrator s) = Persistent st -> delivered_prefix (tables st) (search_index s) ->
    exported_more rows st s 0 s).
  { intros rows0 st s Hb Hp. replace s with (set_index (search_index s) s) at 2 by (by destruct s). by apply exported_none. }
  induction rows as [|row rows IH]; intros n st s rest Hb Hp Hpend; cbn [as_rows map export_rows].
  { exists 0%nat. split; [by apply Hhere|]. intros x [= <-]. cbn. split; [lia|done]. }
  unfold mbind at 1, lift. destruct (soc_parse_rfc3339 _) as [day|x]; [|exists 0%nat; split; [by apply Hhere|done]].
  destruct (pending_next _ _ _ _ (proj1 Hp) Hpend) as [Hids Hid].
  unfold attempt, in_index. set (index := "soc-response-" +:+ _).
  pose proof (delivered_index index (audit_event_id (a_payload row)) (event_val (a_payload row)) _ _ Hp) as Hp1.
  destruct (create index _ _ (search_index s)) as [[b|x] e1] eqn:Ec; cbn [snd] in Hp1.
  2:{ destruct x; try (by exists 0%nat; split; [by apply exported_none|]).
      exists 0%nat. split; [by apply exported_none|]. intros x [= <-]. cbn. split; [lia|done]. }
  unfold mbind, in_store, in_orchestrator. change (orchestrator (set_index e1 s)) with (orchestrator s). rewrite Hb.
  pose proof (mark_next (a_id row) st _ (proj1 Hp1) Hids) as Hm.
  destruct (mark_exported (a_id row) st) as [r st1]. destruct Hm as (Hx & Ha & Hor & Hok).
  assert (Hp2 : t_exported (tables st1) = t_exported (tables st) ++ [a_id row] -> delivered_prefix (tables st1) e1).
  { intros Ht. split; [done|]. rewrite Ht. apply Forall_app. split; [apply Hp1|]. apply Forall_singleton.
    rewrite Hid. by eapply create_stores. }
  destruct r as [[]|x].
  - specialize (Hok eq_refl). set (s1 := set_orchestrator _ (set_index e1 s)).
    specialize (IH (n + 1) st1 s1 rest eq_refl (Hp2 Hok) (pending_after _ _ _ _ _ (proj1 Hp) Hpend Ha Hok)).
    fold (as_rows rows). destruct (export_rows create (as_rows rows) (n + 1) s1) as [r s2].
    destruct IH as (k & [Hk (st2 & H1 & H2 & H3 & H4)] & Hr). exists (Datatypes.S k). split.
    + split; [cbn; lia|]. exists st2. split; [by rewrite H1|]. split; [done|]. split; [by rewrite H3|].
      rewrite H4, Hok, <- app_assoc. done.
    + intros x Hr'. destruct (Hr x Hr') as [-> Hn]. split; [lia|]. intros Hnb. cbn. by rewrite Hn.
  - destruct Hor as [Ht|Ht].
    + exists 0%nat. split; [|done]. split; [lia|]. exists st1. split; [done|]. split; [by rewrite Ht|].
      split; [done|]. cbn. by rewrite app_nil_r, Ht.
    + exists 1%nat. split; [|done]. split; [cbn; lia|]. exists st1. split; [done|]. split; [by apply Hp2|].
      split; [done|]. cbn. by rewrite take_0, Ht.
Qed.

Lemma limited_split {X} limit (l : list X) : exists rest, l = limited limit l ++ rest.
Proof.
  unfold limited. destruct (limit <? 0); [exists []; by rewrite app_nil_r|].
  exists (drop (Z.to_nat limit) l). by rewrite take_drop.
Qed.

(** The rows the exporter reads. *)
Definition batch (limit : Z) (t : Tables) : list audit_row := limited limit (pending_rows t).

Lemma export_reads limit st (s : S) :
  backend (orchestrator s) = Persistent st -> exportable (tables st) ->
  (closed st = false /\ export create limit s = export_rows create (as_rows (batch limit (tables st))) 0 s) \/
  (closed st = true /\ exists x, export create limit s = (Err x, s)).
Proof.
  intros Hb Hp.
  assert (set_orchestrator (set_backend (Persistent st) (orchestrator s)) s = s) as Hsame.
  { rewrite <- Hb. destruct s as [o ? ? ? ? ?]. by destruct o. }
  assert (forall r, unexported_events limit st = (r, st) ->
    export create limit s = match r with Ok rows => export_rows create rows 0 s | Err x => (Err x, s) end) as He.
  { intros r Hr. unfold export, mbind, in_store, in_orchestrator. rewrite Hb, Hr, Hsame. by destruct r. }
  unfold unexported_events, query, exclusive, mbind, gets, raise_when, lift, raise_if in He.
  destruct (closed st) eqn:Hcl; [right; split; [done|]; eexists; by apply (He (Err _))|left]. split; [done|].
  apply (He (Ok _)). by rewrite unexported_pending.
Qed.

Lemma export_spec limit st (s : S) :
  backend (orchestrator s) = Persistent st -> delivered_prefix (tables st) (search_index s) ->
  let '(r, s') := export create limit s in
  exists k, exported_more (batch limit (tables st)) st s k s' /\
    (forall x, r = Ok x -> export_delivered x = Z.of_nat k /\ (export_blocked x = None -> k = length (batch limit (tables st)))).
Proof.
  intros Hb Hp. destruct (export_reads limit st s Hb (proj1 Hp)) as [[_ ->]|[_ [x ->]]].
  - destruct (limited_split limit (pending_rows (tables st))) as [rest Hrest].
    apply (export_rows_spec _ 0 st s rest Hb Hp Hrest).
  - exists 0%nat. split; [|done]. replace s with (set_index (search_index s) s) at 2 by (by destruct s). by apply exported_none.
Qed.

(** *** Nothing in the way: everything read is delivered *)
Definition readable (r : audit_row) : Prop := exists day, soc_parse_rfc3339 (ev_timestamp (a_payload r)) = Ok day.

(** A store that works: open, and every commit succeeds. *)
Definition working (st : Store) : Prop := closed st = false /\ faults st = [].

Lemma mark_working id st : working st -> exists st', mark_exported id st = (Ok tt, st') /\ working st'.
Proof.
  intros [Hc Hf]. unfold mark_exported, transaction, exclusive, mbind, gets, raise_when, lift, raise_if. rewrite Hc, Hf.
  cbn [hd tl]. eexists. by split.
Qed.

Lemma export_rows_complete rows n st (s : S) :
  (forall index id v e, exists b e', create index id v e = (Ok b, e')) ->
  backend (orchestrator s) = Persistent st -> working st -> Forall readable rows ->
  let '(r, s') := export_rows create (as_rows rows) n s in
  r = Ok {| export_delivered := n + Z.of_nat (length rows); export_blocked := None |} /\
  exists st', backend (orchestrator s') = Persistent st' /\ working st'.
Proof.
  intros Hc. revert n st s. induction rows as [|row rows IH]; intros n st s Hb Hw Hr; cbn [as_rows map export_rows].
  { split; [cbn; do 2 f_equal; lia|by exists st]. }
  apply Forall_cons in Hr as [[day Hd] Hr]. unfold mbind at 1, lift. cbn [fst snd]. rewrite Hd.
  unfold attempt, in_index. set (index := "soc-response-" +:+ _).
  destruct (Hc index (audit_event_id (a_payload row)) (event_val (a_payload row)) (search_index s)) as (b & e1 & ->).
  unfold mbind, in_store, in_orchestrator. change (orchestrator (set_index e1 s)) with (orchestrator s). rewrite Hb.
  destruct (mark_working (a_id row) st Hw) as (st1 & -> & Hw1). set (s1 := set_orchestrator _ _).
  specialize (IH (n + 1) st1 s1 eq_refl Hw1 Hr). fold (as_rows rows).
  destruct (export_rows create (as_rows rows) (n + 1) s1) as [r s2]. destruct IH as [-> H]. split; [|done].
  cbn [length]. do 2 f_equal. lia.
Qed.

Lemma export_complete limit st (s : S) :
  (forall index id v e, exists b e', create index id v e = (Ok b, e')) ->
  backend (orchestrator s) = Persistent st -> delivered_prefix (tables st) (search_index s) -> working st ->
  Forall readable (pending_rows (tables st)) ->
  exists st', backend (orchestrator (export create limit s).2) = Persistent st' /\ working st' /\
    delivered_prefix (tables st') (search_index (export create limit s).2) /\ t_audit (tables st') = t_audit (tables st) /\
    t_exported (tables st') = t_exported (tables st) ++ map a_id (batch limit (tables st)).
Proof.
  intros Hc Hb Hp Hw Hr. pose proof (export_spec limit st s Hb Hp) as Hs.
  destruct (export_reads limit st s Hb (proj1 Hp)) as [[_ He]|[Hcl _]]; [|by rewrite (proj1 Hw) in Hcl].
  assert (Forall readable (batch limit (tables st))) as Hr'.
  { destruct (limited_split limit (pending_rows (tables st))) as [rest E1]. rewrite E1 in Hr. by apply Forall_app in Hr as [? _]. }
  pose proof (export_rows_complete _ 0 st s Hc Hb Hw Hr') as H. rewrite <- He in H.
    destruct (export create limit s) as [r s']. destruct H as [-> (st' & Hb' & Hw')]. cbn [snd].
    destruct Hs as (k & [_ (st2 & Ho & Hp2 & Ha & Hx)] & Hk). destruct (Hk _ eq_refl) as [_ Hlen].
    rewrite Ho in Hb'. injection Hb' as ->. exists st'. rewrite Ho. repeat (split; [done|]).
    rewrite Hx, (Hlen eq_refl). by rewrite take_ge.
Qed.
End loop.

(** The exporter keeps the marks a prefix of what is stored. *)
Definition export_inv {E W : Type} (stored : E -> string -> Prop) (o : Orchestrator W) (e : E) : Prop :=
  match backend o with
  | Memory _ => False
  | Persistent st => delivered_prefix stored (tables st) e
  end.

Lemma export_keeps_inv {W E} (create : string -> string -> val -> M E bool) stored `{!CreateLaws create stored} limit :
  keeps (kept (export_inv stored)) (export create limit : M (Service W E) Export).
Proof.
  intros s Hs. destruct (backend (orchestrator s)) as [l|st] eqn:Hb.
  - exfalso. unfold kept, export_inv in Hs. by rewrite Hb in Hs.
  - unfold kept, export_inv in Hs. rewrite Hb in Hs. pose proof (export_spec create stored limit st s Hb Hs) as H.
    destruct (export create limit s) as [r s']. destruct H as (k & [_ (st' & Ho & Hp & _)] & _).
    assert (kept (export_inv stored) s') by (unfold kept, export_inv; by rewrite Ho).
    by destruct r.
Qed.

(** The methods of the orchestrator only add events behind the marks. *)
#[export] Instance export_frame {W E} adapters (stored : E -> string -> Prop) (e : E) :
  Frame (W := W) adapters (fun b _ => match b with Memory _ => False | Persistent st => delivered_prefix stored (tables st) e end).
Proof.
  split; [split; try done|done|done]. intros s _ snap ev [H1 H2]. destruct (checkpoint_exportable snap ev s H1) as [H3 H4].
  split; [done|]. by rewrite H4.
Qed.

#[export] Instance export_frame_apply {W E} adapters (stored : E -> string -> Prop) (e : E) :
  FrameApply (W := W) adapters (fun b _ => match b with Memory _ => False | Persistent st => delivered_prefix stored (tables st) e end).
Proof. by split. Qed.
