(* ===== verification/RegistryInv.v ===== *)
(** What a loaded model is known to satisfy, the scores it gives, and what the inference service
    replies: the lemmas behind RegistryProps. *)

From S2P Require Import Prelude PyText PyNum PyTime PyJson Sha256 Policy Decision Effects Store Contracts Sequences Outbox Enrichment.
From S2P Require Import Registry InferApi.

(** * Digests *)
Lemma hex_digit_ok n : 0 <= n < 16 -> (is_ascii_digit (digit_char n) || ((97 <=? code (digit_char n)) && (code (digit_char n) <=? 102))) = true.
Proof.
  intros Hn. apply (all_from_spec (fun n => is_ascii_digit (digit_char n) || ((97 <=? code (digit_char n)) && (code (digit_char n) <=? 102))) 16 0);
    [by vm_compute|lia].
Qed.

Lemma hexdigest_shape l : Forall is_byte l ->
  String.length (hexdigest l) = (2 * length l)%nat /\
  str_forallb (fun a => is_ascii_digit a || ((97 <=? code a) && (code a <=? 102))) (hexdigest l) = true.
Proof.
  unfold hexdigest. induction 1 as [|b l Hb _ [IHl IHc]]; [done|].
  cbn [map concat_str foldr]. fold (concat_str (map hex_byte l)). rewrite str_length_app, str_forallb_app, IHl, IHc. unfold is_byte in Hb. split.
  - cbn. lia.
  - unfold hex_byte. rewrite str_forallb_app. cbn [str1 str_forallb].
    rewrite !hex_digit_ok by (Z.div_mod_to_equations; lia). done.
Qed.

Lemma sha256_text msg : is_sha256_text (hexdigest (sha256 msg)) = true.
Proof.
  destruct (sha256_shape msg) as [Hl Hb]. destruct (hexdigest_shape _ Hb) as [H1 H2].
  unfold is_sha256_text, str_len. rewrite H1, Hl, H2. done.
Qed.

(** * Numbers of a reply *)
Lemma num_ltb_irrel a b : num_leb a b = true -> num_ltb b a = false.
Proof.
  unfold num_leb, num_ltb, num_compare. destruct (num_x a) as [|s|m e], (num_x b) as [|s'|m' e']; try done.
  - by destruct s, s'.
  - by destruct s.
  - by destruct s'.
  - unfold fin_compare. rewrite (Z.min_comm e' e).
    rewrite (Z.compare_antisym (m * 2 ^ (e - Z.min e e')) (m' * 2 ^ (e' - Z.min e e'))). by destruct (_ ?= _).
Qed.

Lemma leb_finite_between x : num_leb (PInt 0) (PFloat x) = true -> num_leb (PFloat x) (PInt 1) = true -> finite_number (PFloat x) = true.
Proof. destruct x as [s|[]| |s m e]; done. Qed.

Lemma in_unit_number_ok x : in_unit x = true -> number_ok true (VNum (PFloat x)) = true.
Proof.
  unfold in_unit. intros [H0 H1]%andb_prop. cbn [number_ok]. rewrite (leb_finite_between x H0 H1).
  by rewrite (num_ltb_irrel _ _ H0), (num_ltb_irrel _ _ H1).
Qed.

Lemma not_negative_number_ok x : not_negative x = true -> f_finite x = true -> number_ok false (VNum (PFloat x)) = true.
Proof.
  unfold not_negative. intros H0 Hf. cbn [number_ok]. rewrite (num_ltb_irrel _ _ H0). by destruct x.
Qed.

(** The clamp gives a share whatever it is given, a NaN included. *)
Lemma num_leb_refl a : num_x a <> XNan -> num_leb a a = true.
Proof.
  unfold num_leb, num_compare. destruct (num_x a) as [|s|m e]; [done| |].
  - by destruct s.
  - unfold fin_compare. by rewrite Z.compare_refl.
Qed.

Lemma num_ltb_leb a b : num_ltb a b = true -> num_leb a b = true.
Proof. unfold num_ltb, num_leb. by destruct (num_compare a b) as [[]|]. Qed.

Lemma f_one_is_one x : num_leb (PFloat x) (PFloat f_one) = num_leb (PFloat x) (PInt 1).
Proof.
  unfold num_leb, num_compare. change (num_x (PFloat f_one)) with (XFin 4503599627370496 (-52)). change (num_x (PInt 1)) with (XFin 1 0).
  destruct (num_x (PFloat x)) as [|s|m e]; try done. unfold fin_compare.
  assert (forall a b c d k, 0 < k -> a = c * k -> b = d * k -> (a ?= b) = (c ?= d)) as Hs.
  { intros a b c d k Hk -> ->. symmetry. apply Zmult_compare_compat_r. lia. }
  destruct (Z.le_gt_cases e (-52)) as [He|He].
  - rewrite !Z.min_l by lia. replace (1 * 2 ^ (0 - e)) with (4503599627370496 * 2 ^ (-52 - e)); [done|].
    change 4503599627370496 with (2 ^ 52). rewrite <- Z.pow_add_r by lia. rewrite Z.mul_1_l. f_equal. lia.
  - rewrite Z.min_r by lia. destruct (Z.le_gt_cases e 0) as [H0|H0].
    + rewrite Z.min_l by lia. rewrite (Hs _ _ (m * 2 ^ (e - e)) (1 * 2 ^ (0 - e)) (2 ^ (e - -52))); [done|lia| |].
      * rewrite Z.sub_diag, Z.mul_1_r. done.
      * change (4503599627370496 * 2 ^ (-52 - -52)) with (2 ^ 52). rewrite Z.mul_1_l, <- Z.pow_add_r by lia. f_equal. lia.
    + rewrite Z.min_r by lia. rewrite (Hs _ _ (m * 2 ^ (e - 0)) (1 * 2 ^ (0 - 0)) (2 ^ 52)); [done|lia| |done].
      rewrite <- Z.mul_assoc, <- Z.pow_add_r by lia. repeat f_equal. lia.
Qed.

Lemma unit_clamp_unit x : in_unit (unit_clamp x) = true.
Proof.
  unfold unit_clamp. set (m := if f_ltb x f_one then x else f_one).
  assert (num_leb (PFloat m) (PInt 1) = true) as H1.
  { rewrite <- f_one_is_one. subst m. destruct (f_ltb x f_one) eqn:E; [by apply num_ltb_leb|done]. }
  unfold in_unit. destruct (f_ltb f_zero m) eqn:E; [|done]. rewrite H1, andb_true_r.
  apply num_ltb_leb in E. exact E.
Qed.

Lemma calibrated_score_unit c raw score : calibrated_score c raw = Ok score -> in_unit score = true.
Proof. unfold calibrated_score. intros H. ok_inv. subst. apply unit_clamp_unit. Qed.

Lemma forest_score_unit f features history score : forest_score f features history = Ok score -> in_unit score = true.
Proof. unfold forest_score. intros H. ok_inv. by eapply calibrated_score_unit. Qed.

Lemma score_matrix_unit r matrix score : score_matrix r matrix = Ok score -> in_unit score = true.
Proof. unfold score_matrix. intros H. ok_inv. by eapply calibrated_score_unit. Qed.

Lemma infer_facts m features history score a : infer m features history = Ok (score, a) ->
  in_unit score = true /\ exists limit, threshold m = Ok limit /\ a = num_leb (PFloat limit) (PFloat score).
Proof.
  unfold infer. intros (s & Hs & H)%rbind_Ok. apply rbind_Ok in H as (limit & Hl & [= <- <-]). split; [|by exists limit].
  destruct (model m) as [f|r]; [by eapply forest_score_unit|]. ok_inv. by eapply score_matrix_unit.
Qed.

(** * Loading *)
Section loading.
Context {W : Type}.
Variable read_bytes : string -> M W (option (list Z)).
Variable is_file : string -> M W bool.
Variable resolve : string -> bool * string.
Variable json_loads : list Z -> result val.
Variable provenance_valid : mapping -> bool.
Variable schema_file : string -> option (list Z).

(** The record the deployment trusts: the JSON of bytes with the trusted digest, well formed and
    approved. *)
Definition trusted_record (trusted : string) (d : mapping) : Prop :=
  (exists bytes, hexdigest (sha256 bytes) = trusted /\ json_loads bytes = Ok (VDict d)) /\
  provenance_valid d = true /\ get "status" d = VStr "approved".

(** The bytes such a record approves. *)
Definition approved_artifact (d : mapping) (bytes : list Z) : Prop :=
  exists artifact, get "artifact" d = VDict artifact /\ get "sha256" artifact = VStr (hexdigest (sha256 bytes)) /\
    py_eq (VInt (Z.of_nat (length bytes))) (get "size_bytes" artifact) = true /\ Z.of_nat (length bytes) <= MAX_ARTIFACT.

(** What holds of a model the loader gave. *)
Record loaded_from (trusted : string) (m : ApprovedModel) : Prop := {
  lf_record : trusted_record trusted (metadata m);
  lf_digest : metadata_sha256 m = trusted /\ is_sha256_text trusted = true;
  lf_artifact : exists bytes, approved_artifact (metadata m) bytes /\ model_sha256 m = hexdigest (sha256 bytes);
  lf_algorithm : get "algorithm" (metadata m) = VStr (match model m with Forest _ => "IsolationForest" | Recurrent _ => "LSTMAutoencoder" end);
  lf_schema : feature_schema_sha256 schema_file (feature_schema (calibration_of (model m))) = Ok (model_schema_sha256 (calibration_of (model m)));
  lf_names : exists names, expected_feature_names (feature_schema (calibration_of (model m))) = Ok names /\
    py_eq (VList (feature_names (calibration_of (model m)))) (VList (map VStr names)) = true;
  lf_calibration : num_leb (PFloat (calibration_high (calibration_of (model m)))) (PFloat (calibration_low (calibration_of (model m)))) = false }.

Lemma trusted_metadata_returns trusted :
  returns (trusted_metadata read_bytes json_loads trusted)
    (fun v => exists bytes, hexdigest (sha256 bytes) = trusted /\ json_loads bytes = Ok v).
Proof.
  unfold trusted_metadata. apply (returns_bind _ _ (fun _ => True)); [apply returns_any|]. intros [bytes|] _; [|apply returns_raise].
  apply returns_when. intros Hd. bool_inv. intros s v s' H. unfold lift in H. injection H as H _.
  exists bytes. split; [done|]. apply try_except_Ok in H as [H|(e & _ & _ & [=])]. done.
Qed.

Lemma verified_artifact_returns name artifact :
  returns (verified_artifact read_bytes is_file name artifact)
    (fun bytes => get "sha256" artifact = VStr (hexdigest (sha256 bytes)) /\ py_eq (VInt (Z.of_nat (length bytes))) (get "size_bytes" artifact) = true /\ Z.of_nat (length bytes) <= MAX_ARTIFACT).
Proof.
  unfold verified_artifact. apply (returns_bind _ _ (fun _ => True)); [apply returns_any|]. intros present _.
  apply returns_when. intros _. apply (returns_bind _ _ (fun _ => True)); [apply returns_any|]. intros [bytes|] _; [|apply returns_raise].
  apply returns_when. intros Hl%Z.ltb_ge. apply returns_when. intros Hd%negb_false_iff%text_py_eq.
  apply returns_when. intros Hs%negb_false_iff. by apply returns_ret.
Qed.

Lemma verified_schema_returns d :
  returns (verified_schema read_bytes is_file schema_file d) (fun p => feature_schema_sha256 schema_file p.1 = Ok p.2).
Proof.
  unfold verified_schema. apply returns_lift. intros fm Hf. destruct fm as [| | | | |fm]; try apply returns_raise.
  apply returns_lift. intros schema Hs. apply returns_lift. intros actual Ha. apply returns_when. intros _.
  apply (returns_bind _ _ (fun _ => True)); [apply returns_any|]. intros present _.
  apply (returns_bind _ _ (fun _ => True)); [apply returns_any|]. intros [copy|] _; [|apply returns_raise].
  apply returns_when. intros _. apply returns_ret. cbn. by apply try_except_Ok in Ha as [Ha|(e & _ & _ & [=])].
Qed.

Lemma validated_dict v : _validate_provenance provenance_valid v = Ok tt -> exists d, dict_of v = Some d /\ provenance_valid d = true.
Proof.
  unfold _validate_provenance. destruct (dict_of v) as [d|] eqn:E; [|done]. intros H%raise_if_Ok. exists d. bool_inv. done.
Qed.

Lemma get_attr_dict k dflt v x : get_attr k dflt v = Ok x -> exists d, v = VDict d.
Proof. destruct v; try done. by eexists. Qed.
Lemma artifact_layout_algorithm a refused layout : artifact_layout a refused = Ok layout ->
  a = VStr "IsolationForest" /\ layout = ("joblib", "model.joblib") \/ a = VStr "LSTMAutoencoder" /\ layout = ("safetensors", "model.safetensors").
Proof.
  unfold artifact_layout, ARTIFACT_BY_ALGORITHM. destruct a as [| | |s| |]; try done. cbn [assoc].
  destruct (String.eqb s "IsolationForest") eqn:E1; [intros [= <-]; left; split; [|done]; bool_inv; by subst|].
  destruct (String.eqb s "LSTMAutoencoder") eqn:E2; [intros [= <-]; right; split; [|done]; bool_inv; by subst|]. done.
Qed.

Lemma check_loaded_facts schema actual c : check_loaded schema actual c = Ok tt ->
  num_leb (PFloat (calibration_high c)) (PFloat (calibration_low c)) = false /\ feature_schema c = schema /\ model_schema_sha256 c = actual /\
  exists names, expected_feature_names schema = Ok names /\ py_eq (VList (feature_names c)) (VList (map VStr names)) = true.
Proof.
  unfold check_loaded. intros H. apply raise_seq_Ok in H as [_ H]. apply raise_seq_Ok in H as [Hc H]. apply raise_seq_Ok in H as [Hs H].
  bool_inv. split; [done|]. split; [done|]. split; [done|]. apply try_except_Ok in H as [H|(e & _ & _ & [=])].
  apply rbind_Ok in H as (names & Hn & H). exists names. split; [done|]. apply raise_if_Ok in H. by bool_inv.
Qed.

Variable joblib_load : list Z -> M W (option SocIsolationForest).
Variable lstm_load : list Z -> M W SocLstmAutoencoder.
Notation load joblib lstm := (load_approved_model read_bytes is_file resolve json_loads provenance_valid schema_file joblib lstm).

Lemma deserialise_returns a d bytes : a = "IsolationForest" \/ a = "LSTMAutoencoder" ->
  returns (deserialise joblib_load lstm_load a d bytes)
    (fun m => a = match m with Forest _ => "IsolationForest" | Recurrent _ => "LSTMAutoencoder" end).
Proof.
  unfold deserialise. intros [-> | ->]; cbn [String.eqb Ascii.eqb Bool.eqb].
  - intros s m s'. unfold attempt. destruct (joblib_load bytes s) as [[[f|]|e] s1]; by intros [= <- _].
  - apply (returns_bind _ _ (fun _ => True)); [apply returns_any|]. intros r _. apply returns_lift. intros declared _.
    apply returns_lift. intros len _. apply returns_when. intros _. by apply returns_ret.
Qed.

Lemma load_returns trusted : returns (load joblib_load lstm_load trusted) (loaded_from (default "" trusted)).
Proof.
  unfold load_approved_model. set (t := default "" trusted). apply returns_when. intros Ht%negb_false_iff.
  eapply returns_bind; [apply trusted_metadata_returns|]. intros v (mb & Hmb & Hv). apply returns_lift. intros [] Hp%validated_dict.
  apply returns_lift. intros status Hst. apply returns_when. intros Ha%negb_false_iff%py_eq_text. apply returns_lift. intros alg Halg.
  apply returns_lift. intros layout Hlay. destruct (get_attr_dict _ _ _ _ Hst) as [d ->]. destruct Hp as (d' & [= <-] & Hp).
  cbn [get_attr] in Hst, Halg. injection Hst as Hst. injection Halg as Halg. apply returns_lift. intros art Hart.
  destruct art as [| | | | |artifact]; try apply returns_raise. apply returns_when. intros _. apply returns_lift. intros name _.
  eapply returns_bind; [apply verified_artifact_returns|]. intros bytes (Hd & Hz & Hl). cbn beta in *.
  eapply returns_bind; [apply verified_schema_returns|]. intros [schema actual] Hs. cbn [fst snd] in Hs.
  assert (exists a, alg = VStr a /\ (a = "IsolationForest" \/ a = "LSTMAutoencoder")) as (a & -> & Hab).
  { destruct (artifact_layout_algorithm _ _ _ Hlay) as [[-> _]|[-> _]]; eexists; (split; [done|tauto]). }
  eapply returns_bind; [by apply deserialise_returns|]. intros m Hm. cbn beta in Hm. apply returns_lift. intros [] Hc.
  apply check_loaded_facts in Hc as (Hcal & Hsch & Hsha & Hnames). apply returns_ret. constructor; cbn.
  - split; [by exists mb|]. split; [done|]. unfold get. rewrite Ha in Hst. exact Hst.
  - done.
  - exists bytes. split; [|done]. exists artifact. split; [|done]. unfold item in Hart. unfold get. by destruct (assoc "artifact" d); simplify_eq/=.
  - unfold get. rewrite <- Hm. exact Halg.
  - by rewrite Hsch, Hsha.
  - destruct Hnames as (names & ? & ?). exists names. by rewrite Hsch.
  - done.
Qed.

(** A model is loaded from what [metadata.json] holds, and only when that says it is approved. *)
Lemma load_reads body trusted : (forall w, exists w', read_bytes "metadata.json" w = (Ok (Some body), w')) ->
  returns (load joblib_load lstm_load trusted) (fun m => json_loads body = Ok (VDict (metadata m)) /\ get "status" (metadata m) = VStr "approved").
Proof.
  intros Hread. unfold load_approved_model. set (t := default "" trusted). apply returns_when. intros _.
  apply (returns_bind _ _ (fun v => json_loads body = Ok v)).
  { intros s v s'. unfold trusted_metadata, mbind. destruct (Hread s) as [w' ->]. unfold raise_when, lift, raise_if. destruct (negb _); [done|].
    intros [= Hv _]. by apply try_except_Ok in Hv as [Hv|(e & _ & _ & [=])]. }
  intros v Hv. apply returns_lift. intros [] _. apply returns_lift. intros status Hst. apply returns_when. intros Ha%negb_false_iff%py_eq_text.
  apply returns_lift. intros alg _. apply returns_lift. intros layout _. destruct (get_attr_dict _ _ _ _ Hst) as [d ->].
  cbn [get_attr] in Hst. injection Hst as Hst. apply returns_lift. intros art _.
  destruct art as [| | | | |artifact]; try apply returns_raise. apply returns_when. intros _. apply returns_lift. intros name _.
  apply (returns_bind _ _ (fun _ => True)); [apply returns_any|]. intros bytes _. apply (returns_bind _ _ (fun _ => True)); [apply returns_any|].
  intros [schema actual] _. apply (returns_bind _ _ (fun _ => True)); [apply returns_any|]. intros m _. apply returns_lift. intros ? _.
  apply returns_ret. cbn. split; [done|]. unfold get. rewrite Ha in Hst. exact Hst.
Qed.

(** The loaders are only called on approved bytes. *)
Lemma load_agrees joblib lstm trusted :
  (forall d bytes s, trusted_record (default "" trusted) d -> approved_artifact d bytes -> joblib_load bytes s = joblib bytes s) ->
  (forall d bytes s, trusted_record (default "" trusted) d -> approved_artifact d bytes -> lstm_load bytes s = lstm bytes s) ->
  forall s, load joblib_load lstm_load trusted s = load joblib lstm trusted s.
Proof.
  intros Hj Hls. unfold load_approved_model. set (t := default "" trusted) in *. apply when_agree. intros Ht.
  eapply mbind_agree; [apply trusted_metadata_returns|]. intros v (mb & Hmb & Hv). apply lift_agree. intros [] Hp%validated_dict.
  apply lift_agree. intros status Hst. apply when_agree. intros Ha%negb_false_iff%py_eq_text. apply lift_agree. intros alg Halg.
  apply lift_agree. intros layout Hlay. destruct (get_attr_dict _ _ _ _ Hst) as [d ->]. destruct Hp as (d' & [= <-] & Hp).
  cbn [get_attr] in Hst. injection Hst as Hst. apply lift_agree. intros art Hart.
  destruct art as [| | | | |artifact]; try done. apply when_agree. intros _. apply lift_agree. intros name _.
  eapply mbind_agree; [apply verified_artifact_returns|]. intros bytes (Hd & Hz & Hl). cbn beta in *.
  assert (trusted_record t d) as Hrec.
  { split; [by exists mb|]. split; [done|]. unfold get. rewrite Ha in Hst. exact Hst. }
  assert (approved_artifact d bytes) as Happ.
  { exists artifact. split; [|done]. unfold item in Hart. unfold get. by destruct (assoc "artifact" d); simplify_eq/=. }
  eapply mbind_agree; [apply returns_any|]. intros [schema actual] _ s. unfold mbind at 1 4.
  assert (deserialise joblib_load lstm_load (str_val alg) d bytes s = deserialise joblib lstm (str_val alg) d bytes s) as ->; [|done].
  unfold deserialise, attempt, catch, mbind. destruct (String.eqb _ _); [by rewrite (Hj d bytes s Hrec Happ)|by rewrite (Hls d bytes s Hrec Happ)].
Qed.
End loading.

(** * The service *)
Inductive api_call : Type :=
| Infer (r : InferenceRequest)
| Ready
| Status.

Section service.
Context {W : Type}.
Variable load_model : M W ApprovedModel.
Variable elapsed_ms : M W SpecFloat.spec_float.

Definition serve_call (c : api_call) : M (Api W) api_reply :=
  match c with
  | Infer r => infer_request load_model elapsed_ms r
  | Ready => ready load_model
  | Status => model_status load_model
  end.

(** A service that has answered some requests, unhandled errors included. *)
Inductive served (w : W) : Api W -> Prop :=
| served_new : served w (new_api w)
| served_call s c : served w s -> served w (serve_call c s).2.

Variable good : ApprovedModel -> Prop.
Hypothesis load_good : returns load_model good.

Definition cached_good (s : Api W) : Prop :=
  match cached (provider s) with
  | Some m => good m
  | None => True
  end.

Lemma in_registry_keeps {X} (m : M W X) (P : ModelProvider -> RuntimeMetrics -> Prop) :
  keeps (fun s => P (provider s) (metrics s)) (in_registry m).
Proof. intros s Hs. unfold in_registry. by destruct (m (registry s)) as [[x|e] w]. Qed.

Lemma get_model_good : triple cached_good (get_model load_model) (fun m s => good m /\ cached_good s) (fun _ => cached_good).
Proof.
  intros s Hs. unfold get_model, mbind, gets. destruct (cached (provider s)) as [m|] eqn:Ec.
  - unfold ret. unfold cached_good in *. by rewrite Ec in *.
  - unfold attempt, in_registry. destruct (load_model (registry s)) as [[m|e] w] eqn:El; cbn.
    + split; [by eapply load_good|]. unfold cached_good. cbn. by eapply load_good.
    + destruct (is_provenance_error e); cbn; [done|]. unfold cached_good. cbn. by rewrite Ec.
Qed.

Lemma record_error_good : keeps cached_good (@record_error W).
Proof. by apply keeps_modify. Qed.

Lemma record_success_good ms : keeps cached_good (@record_success W ms).
Proof. by apply keeps_modify. Qed.

Lemma unavailable_good : keeps cached_good (@_unavailable W).
Proof. unfold _unavailable. apply keeps_bind; [apply record_error_good|]. intros _. apply keeps_bind; [apply keeps_gets|]. intros. apply keeps_ret. Qed.

Lemma rejected_good d : keeps cached_good (@rejected W d).
Proof. unfold rejected. apply keeps_bind; [apply record_error_good|]. intros. apply keeps_ret. Qed.

Lemma infer_with_good r m : keeps cached_good (infer_with elapsed_ms r m).
Proof.
  unfold infer_with. destruct (negb (String.eqb _ _)); [apply rejected_good|]. destruct (negb (_ =? _)); [apply rejected_good|].
  destruct (check_history r) as [u|e]; [|destruct (is_schema_error e); [apply rejected_good|apply keeps_raise]].
  unfold score_request. destruct (infer _ _ _) as [[score a]|e].
  - apply keeps_bind; [apply (in_registry_keeps elapsed_ms (fun p _ => match cached p with Some m => good m | None => True end))|]. intros ms.
    apply keeps_bind; [apply record_success_good|]. intros _. apply keeps_bind; [apply keeps_lift|]. intros. apply keeps_ret.
  - destruct (is_provenance_error e); [apply unavailable_good|]. destruct (is_value_error e); [apply rejected_good|apply keeps_raise].
Qed.

Lemma with_model_good {X} (k : ApprovedModel -> M (Api W) X) (h : exn -> M (Api W) X) :
  (forall m, keeps cached_good (k m)) -> (forall e, keeps cached_good (h e)) ->
  keeps cached_good (attempt (get_model load_model) (fun r => match r with Ok m => k m | Err e => h e end)).
Proof.
  intros Hk Hh. eapply triple_attempt; [exact get_model_good| |].
  - intros m. eapply triple_conseq; [apply Hk| | |]; cbn; tauto.
  - intros e. apply Hh.
Qed.

Lemma serve_call_good c : keeps cached_good (serve_call c).
Proof.
  destruct c as [r| |]; cbn.
  - unfold infer_request. destruct (negb _); [apply keeps_ret|].
    destruct (require_exact_features _ _) as [u|e]; [|destruct (is_schema_error e); [apply rejected_good|apply keeps_raise]].
    apply with_model_good; [apply infer_with_good|]. intros e. destruct (is_provenance_error e); [apply unavailable_good|apply keeps_raise].
  - unfold ready. apply with_model_good.
    + intros m. apply keeps_bind; [apply keeps_lift|]. intros. apply keeps_ret.
    + intros e. destruct (is_provenance_error e); [|apply keeps_raise]. apply keeps_bind; [apply keeps_gets|]. intros. apply keeps_ret.
  - unfold model_status. apply with_model_good.
    + intros m. apply keeps_bind; [apply keeps_lift|]. intros. apply keeps_ret.
    + intros e. destruct (is_provenance_error e); [apply unavailable_good|apply keeps_raise].
Qed.

Lemma served_good w s : served w s -> cached_good s.
Proof.
  induction 1 as [|s c _ IH]; [done|]. pose proof (serve_call_good c s IH) as H. by destruct (serve_call c s) as [[a|e] s'].
Qed.

(** What a 200 reply is made of. *)
Lemma infer_reply r s reply s' : cached_good s -> infer_request load_model elapsed_ms r s = (Ok (200, reply), s') ->
  exists m score a ms w w', good m /\ req_schema r = feature_schema (calibration_of (model m)) /\
    infer m (numbers (req_features r)) (map history_entry (req_history r)) = Ok (score, a) /\
    elapsed_ms w = (Ok ms, w') /\ inference_response m score a ms = Ok reply.
Proof.
  intros Hs. unfold infer_request. destruct (negb (entity_ok _ _)); [by intros [= ?]|].
  destruct (require_exact_features _ _) as [u|e]; [|by destruct (is_schema_error e)].
  unfold attempt. pose proof (get_model_good s Hs) as Hg. destruct (get_model load_model s) as [[m|e] s1];
    [|by destruct (is_provenance_error e)]. destruct Hg as [Hg _]. unfold infer_with.
  destruct (String.eqb (req_schema r) _) eqn:Esch; cbn [negb]; [|done]. destruct (_ =? _); cbn [negb]; [|done].
  destruct (check_history r) as [?|e]; [|by destruct (is_schema_error e)]. unfold score_request.
  destruct (infer m _ _) as [[score anom]|e] eqn:Ei; [|by destruct (is_provenance_error e), (is_value_error e)].
  unfold mbind, in_registry. destruct (elapsed_ms (registry s1)) as [[ms|e] w'] eqn:Em; [|done].
  unfold record_success, modify, lift. destruct (inference_response m score anom ms) as [v|e] eqn:Er; [|done].
  unfold ret. intros [= <- _]. bool_inv. exists m, score, anom, ms, (registry s1), w'. done.
Qed.

(** *** Counters *)
Definition counts (s : Api W) : Z * Z := (requests (metrics s), errors (metrics s)).

(** A reply adds one to the counter of its kind. *)
Definition counted (s s' : Api W) (code : Z) : Prop :=
  counts s' = (if code =? 200 then (requests (metrics s) + 1, errors (metrics s)) else (requests (metrics s), errors (metrics s) + 1)).

Definition replies_counted (m : M (Api W) api_reply) : Prop :=
  forall s code d s', m s = (Ok (code, d), s') -> (code = 200 \/ code = 422 \/ code = 503) /\ counted s s' code.

Lemma unavailable_counted : replies_counted (@_unavailable W).
Proof. intros s code d s' [= <- _ <-]. split; [by right; right|done]. Qed.

Lemma rejected_counted v : replies_counted (@rejected W v).
Proof. intros s code d s' [= <- _ <-]. split; [by right; left|done]. Qed.

Lemma raise_counted e : replies_counted (raise e).
Proof. by intros s code d s' [=]. Qed.

Lemma score_request_counted r m : replies_counted (score_request elapsed_ms r m).
Proof.
  unfold score_request. destruct (infer m _ _) as [[score anom]|e].
  - intros s code d s'. unfold mbind, in_registry. destruct (elapsed_ms (registry s)) as [[ms|e] w]; [|done].
    unfold record_success, modify, lift. destruct (inference_response m score anom ms); [|done]. intros [= <- _ <-]. by split; [left|].
  - destruct (is_provenance_error e); [apply unavailable_counted|]. destruct (is_value_error e); [apply rejected_counted|apply raise_counted].
Qed.

Lemma infer_with_counted r m : replies_counted (infer_with elapsed_ms r m).
Proof.
  unfold infer_with. destruct (negb (String.eqb _ _)); [apply rejected_counted|]. destruct (negb (_ =? _)); [apply rejected_counted|].
  destruct (check_history r) as [u|e]; [apply score_request_counted|]. destruct (is_schema_error e); [apply rejected_counted|apply raise_counted].
Qed.

Lemma get_model_metrics s : metrics (get_model load_model s).2 = metrics s.
Proof.
  unfold get_model, mbind, gets. destruct (cached (provider s)) as [m|]; [done|]. unfold attempt, in_registry.
  destruct (load_model (registry s)) as [[m|e] w]; [done|]. by destruct (is_provenance_error e).
Qed.

Lemma infer_request_counted r : entity_ok (req_schema r) (req_entity r) = true -> replies_counted (infer_request load_model elapsed_ms r).
Proof.
  intros He. unfold infer_request. rewrite He. cbn [negb].
  destruct (require_exact_features _ _) as [u|e]; [|destruct (is_schema_error e); [apply rejected_counted|apply raise_counted]].
  intros s code d s'. unfold attempt. pose proof (get_model_metrics s) as Hm. destruct (get_model load_model s) as [r1 s1].
  cbn in Hm. unfold counted. rewrite <- Hm. destruct r1 as [m|e]; [apply infer_with_counted|].
  destruct (is_provenance_error e); [apply unavailable_counted|apply raise_counted].
Qed.
End service.

(** * What the worker makes of a reply *)

(** The document of a 200 reply, field by field. *)
Lemma response_fields m score anom ms reply : inference_response m score anom ms = Ok reply ->
  exists id name limit, model_id m = Ok id /\ algorithm m = Ok name /\ threshold m = Ok limit /\ in_unit limit = true /\ not_negative ms = true /\
    reply = VDict [("model_id", VStr id); ("algorithm", VStr name); ("feature_schema", VStr (feature_schema (calibration_of (model m))));
             ("feature_schema_sha256", VStr (model_schema_sha256 (calibration_of (model m)))); ("model_sha256", VStr (model_sha256 m));
             ("model_metadata_sha256", VStr (metadata_sha256 m)); ("score", VNum (PFloat score)); ("threshold", VNum (PFloat limit));
             ("is_anomaly", VBool anom); ("inference_ms", VNum (PFloat ms))].
Proof.
  unfold inference_response. intros H. apply rbind_Ok in H as (id & Hi & H). apply rbind_Ok in H as (name & Hn & H).
  apply rbind_Ok in H as (limit & Hl & H). apply raise_seq_Ok in H as [Hu [= <-]]. bool_inv. by exists id, name, limit.
Qed.

Lemma item_value k (d : mapping) v : item k d = Ok v -> get k d = v.
Proof. unfold item, get. destruct (assoc k d); [by intros [= ->]|done]. Qed.

Lemma vector_schema_hash schema_file conforms vector schema : validate_vector schema_file conforms (VDict vector) = Ok tt ->
  get "feature_schema" vector = VStr schema ->
  exists hash, feature_schema_sha256 schema_file schema = Ok hash /\ get "feature_schema_sha256" vector = VStr hash.
Proof.
  unfold validate_vector. intros H Hs. rewrite Hs in H. apply try_except_Ok in H as [H|(e & _ & _ & [=])].
  unfold vector_checks in H. apply rbind_Ok in H as (? & _ & H). apply rbind_Ok in H as (bytes & _ & H). apply raise_seq_Ok in H as [_ H].
  apply rbind_Ok in H as (f & _ & H). apply rbind_Ok in H as (? & _ & H). apply rbind_Ok in H as (a & _ & H). apply rbind_Ok in H as (b & _ & H).
  apply rbind_Ok in H as (c & _ & H). apply rbind_Ok in H as (d & _ & H). apply rbind_Ok in H as (sp & _ & H). apply raise_seq_Ok in H as [_ H].
  apply rbind_Ok in H as (claimed & Hc & H). apply rbind_Ok in H as (actual & Ha & H). apply raise_if_Ok in H.
  apply negb_false_iff, py_eq_text in H as ->. exists actual. split; [done|]. by apply item_value.
Qed.

Lemma present_item k (d : mapping) v : get k d = v -> v <> VNone -> item k d = Ok v.
Proof. unfold item, get. destruct (assoc k d); cbn; congruence. Qed.

(** What the provenance schema promises of a record it accepts. *)
Class ProvenanceLaws (provenance_valid : mapping -> bool) : Prop :=
  provenance_model_id d : provenance_valid d = true -> exists id, get "model_id" d = VStr id /\ id <> "".

(** The reply about a vector of the same contract, as the worker reads it. *)
Lemma reply_checked schema_file conforms json_loads provenance_valid `{ProvenanceLaws provenance_valid} trusted m features history score anom ms reply vector :
  loaded_from json_loads provenance_valid schema_file trusted m ->
  infer m features history = Ok (score, anom) -> f_finite ms = true -> inference_response m score anom ms = Ok (VDict reply) ->
  validate_vector schema_file conforms (VDict vector) = Ok tt -> get "feature_schema" vector = VStr (feature_schema (calibration_of (model m))) ->
  check_result vector reply trusted =
    if String.eqb (str_val (get "algorithm" reply)) "IsolationForest" then Ok tt else Err (refused "INVALID_MODEL_IDENTITY").
Proof.
  intros [[_ [Hp _]] [Hd Ht] (bytes & _ & Hb) Halg Hsch _ _] Hi Hms Hr Hv Hvs.
  apply response_fields in Hr as (id & name & limit & Hid & Hname & Hl & Hu & Hm & [= ->]).
  destruct (vector_schema_hash _ _ _ _ Hv Hvs) as (hash & Hh & Hvh). rewrite Hsch in Hh. injection Hh as <-.
  destruct (infer_facts _ _ _ _ _ Hi) as (Hsu & limit' & Hl' & ->). rewrite Hl in Hl'. injection Hl' as <-.
  destruct (provenance_model_id _ Hp) as (id' & Hid' & Hne). unfold model_id in Hid. rewrite (present_item _ _ _ Hid') in Hid by done.
  injection Hid as <-. cbn [str_val] in *.
  assert (name = match model m with Forest _ => "IsolationForest" | Recurrent _ => "LSTMAutoencoder" end) as ->.
  { unfold algorithm in Hname. rewrite (present_item _ _ _ Halg) in Hname by done. by injection Hname as <-. }
  set (reply := [("model_id", _); _; _; _; _; _; _; _; _; _]).
  unfold check_result. change (same_keys (keys reply) result_fields) with true. cbn [negb raise_if rbind].
  assert (same_model vector reply trusted = Ok true) as ->.
  { unfold same_model. rewrite (present_item _ _ _ Hvs), (present_item _ _ _ Hvh) by done. cbn [rbind].
    change (get "feature_schema" reply) with (VStr (feature_schema (calibration_of (model m)))).
    change (get "feature_schema_sha256" reply) with (VStr (model_schema_sha256 (calibration_of (model m)))).
    change (get "model_metadata_sha256" reply) with (VStr (metadata_sha256 m)).
    cbn [py_eq]. by rewrite !String.eqb_refl, Hd, String.eqb_refl. }
  cbn [rbind negb raise_if].
  change (get "model_sha256" reply) with (VStr (model_sha256 m)). change (get "model_metadata_sha256" reply) with (VStr (metadata_sha256 m)).
  cbn [is_hash_value]. rewrite Hb, sha256_text, Hd, Ht. cbn [negb orb raise_if rbind].
  change (get "model_id" reply) with (VStr id'). change (get "threshold" reply) with (VNum (PFloat limit)).
  change (get "inference_ms" reply) with (VNum (PFloat ms)). change (get "score" reply) with (VNum (PFloat score)).
  change (get "is_anomaly" reply) with (VBool (num_leb (PFloat limit) (PFloat score))).
  change (get "algorithm" reply) with (VStr (match model m with Forest _ => "IsolationForest" | Recurrent _ => "LSTMAutoencoder" end)).
  rewrite (in_unit_number_ok _ Hsu), (in_unit_number_ok _ Hu), (not_negative_number_ok _ Hm Hms).
  apply String.eqb_neq in Hne. cbn [is_text]. rewrite Hne. cbn [decision_consistent]. rewrite Bool.eqb_reflx. by destruct (model m).
Qed.
