(* ===== verification/TrainingInv.v ===== *)
(** What a dataset that passed the partition gate satisfies, and what threshold selection, the hybrid
    detectors and the candidate pipeline compute: the lemmas behind TrainingProps. *)

From S2P Require Import Prelude PyText PyNum PyTime PyJson JsonText Sha256 Policy Decision Effects Store Contracts Sequences Registry.
From S2P Require Import InferApi Partitions Promotion Labels Evaluation Pipeline RegistryInv.

(** The memberships a ledger lists for a partition, and the identifiers of a member. *)
Definition ledger_members (ledger : val) (name : string) : list val :=
  match rbind (rbind (rbind (subscript "partitions" ledger) (subscript name)) (subscript "memberships")) py_iter with
  | Ok l => l
  | Err _ => []
  end.

Definition member_ids (field : string) (member : val) : list string :=
  match rbind (subscript field member) identifiers_of with
  | Ok l => l
  | Err _ => []
  end.

(** The window of a vector, in instants. *)
Definition window_of (vector : val) : option (Z * Z) :=
  match rbind (subscript "window_start" vector) timestamp, rbind (subscript "window_end" vector) timestamp with
  | Ok ws, Ok we => Some (ws, we)
  | _, _ => None
  end.

Definition owned_by (name : string) (o : owners) (ids : list string) : Prop := Forall (fun id => o !! id = Some name) ids.

Lemma owned_by_mono name o o' ids : o ⊆ o' -> owned_by name o ids -> owned_by name o' ids.
Proof. unfold owned_by. rewrite !Forall_forall. intros Ho H id Hid. exact (lookup_weaken _ _ _ _ (H id Hid) Ho). Qed.

Lemma claim_facts name o id o' : claim name o id = Ok o' -> o ⊆ o' /\ o' !! id = Some name.
Proof.
  unfold claim. destruct (o !! id) as [owner|] eqn:E.
  - destruct (String.eqb owner name) eqn:En; [|done]. intros [= <-]. bool_inv. subst. split; [done|exact E].
  - intros [= <-]. split; [by apply insert_subseteq|apply lookup_insert_eq].
Qed.

Lemma claims_facts name o ids o' : foldR (claim name) o ids = Ok o' -> o ⊆ o' /\ owned_by name o' ids.
Proof.
  revert o. induction ids as [|id ids IH]; intros o; cbn; [intros [= <-]; split; [done|constructor]|].
  intros (o1 & H1 & H2)%rbind_Ok. apply claim_facts in H1 as [Hs Hi]. apply IH in H2 as [Hs' Ho].
  split; [by transitivity o1|]. constructor; [|done]. exact (lookup_weaken _ _ _ _ Hi Hs').
Qed.

(** No identifier is owned by two partitions. *)
Lemma owned_disjoint p q o ids ids' : p <> q -> owned_by p o ids -> owned_by q o ids' -> ids ## ids'.
Proof.
  intros Hpq Hp Hq id Hi Hi'. unfold owned_by in *. rewrite Forall_forall in Hp, Hq. specialize (Hp id Hi). specialize (Hq id Hi'). congruence.
Qed.

(** What a member's check adds to the owners of a scan. *)
Definition member_owned (name : string) (sources owned : owners) (member : val) : Prop :=
  owned_by name sources (member_ids "source_event_ids" member) /\ owned_by name owned (member_ids "session_ids" member).

Definition scan_grows (st st' : Scan) : Prop := source_owners st ⊆ source_owners st' /\ session_owners st ⊆ session_owners st'.

Lemma scan_grows_trans a b c : scan_grows a b -> scan_grows b c -> scan_grows a c.
Proof. intros [H1 H2] [H3 H4]. split; [by transitivity (source_owners b)|by transitivity (session_owners b)]. Qed.

Lemma member_owned_mono name s o s' o' m : s ⊆ s' -> o ⊆ o' -> member_owned name s o m -> member_owned name s' o' m.
Proof. intros Hs Ho [H1 H2]. split; [exact (owned_by_mono _ _ _ _ Hs H1)|exact (owned_by_mono _ _ _ _ Ho H2)]. Qed.

Lemma check_member_facts name st vector member st' : check_member name st vector member = Ok st' ->
  scan_grows st st' /\ member_owned name (source_owners st') (session_owners st') member.
Proof.
  unfold check_member. intros H. apply rbind_Ok in H as (closed & _ & H). apply raise_seq_Ok in H as [_ H].
  apply rbind_Ok in H as (bound & _ & H). apply rbind_Ok in H as (actual & _ & H). apply raise_seq_Ok in H as [_ H].
  apply rbind_Ok in H as (sids & Hs & H). apply rbind_Ok in H as (sources & Hso & H). apply rbind_Ok in H as (ids & Hi & H).
  apply rbind_Ok in H as (owned & How & H). apply rbind_Ok in H as (recorded & _ & H). apply raise_seq_Ok in H as [_ [= <-]].
  apply claims_facts in Hso as [? ?]. apply claims_facts in How as [? ?]. split; [done|]. unfold member_owned, member_ids. by rewrite Hs, Hi.
Qed.

Lemma check_vector_facts manifest start finish st d st' : check_vector manifest start finish st d = Ok st' ->
  source_owners st' = source_owners st /\ session_owners st' = session_owners st /\
  exists ws we, window_of (VDict d) = Some (ws, we) /\ start <= ws < we /\ we <= finish.
Proof.
  unfold check_vector. intros H. apply rbind_Ok in H as (schema & _ & H). apply rbind_Ok in H as (wanted & _ & H).
  apply raise_seq_Ok in H as [_ H]. apply rbind_Ok in H as ([ws we] & Hw & H). apply rbind_Ok in H as (entity & _ & H).
  apply raise_seq_Ok in H as [_ H]. apply raise_seq_Ok in H as [_ [= <-]]. cbn. split; [done|]. split; [done|]. exists ws, we.
  unfold window_in in Hw. apply rbind_Ok in Hw as (a & Ha & Hw). apply raise_seq_Ok in Hw as [H1 Hw].
  apply rbind_Ok in Hw as (b & Hb & Hw). apply raise_seq_Ok in Hw as [H2 [= <- <-]]. bool_inv.
  unfold window_of. cbn [subscript]. by rewrite Ha, Hb.
Qed.

Section gate.
Variable schema_file : string -> option (list Z).
Variable conforms : list Z -> mapping -> bool.

Definition inside (start finish : Z) (vector : val) : Prop := exists ws we, window_of vector = Some (ws, we) /\ start <= ws < we /\ we <= finish.

Lemma check_row_facts manifest name start finish st vector member st' :
  check_row schema_file conforms manifest name start finish st (vector, member) = Ok st' ->
  scan_grows st st' /\ member_owned name (source_owners st') (session_owners st') member /\ inside start finish vector.
Proof.
  unfold check_row. intros H. apply rbind_Ok in H as ([] & _ & H). destruct vector as [| | | | |d]; try done.
  apply rbind_Ok in H as (st1 & H1 & H2). apply check_vector_facts in H1 as (Hs & Ho & Hw). apply check_member_facts in H2 as [[Hs' Ho'] Hm].
  rewrite Hs in Hs'. rewrite Ho in Ho'. done.
Qed.

Lemma check_rows_facts manifest name start finish st rows st' :
  foldR (check_row schema_file conforms manifest name start finish) st rows = Ok st' ->
  scan_grows st st' /\ Forall (fun row => member_owned name (source_owners st') (session_owners st') row.2 /\ inside start finish row.1) rows.
Proof.
  revert st. induction rows as [|[v m] rows IH]; intros st; cbn; [intros [= <-]; split; [done|constructor]|].
  intros (st1 & H1 & H2)%rbind_Ok. apply check_row_facts in H1 as (Hg & Hm & Hw). apply IH in H2 as [Hg' Hr].
  split; [by eapply scan_grows_trans|]. constructor; [|done]. split; [|done]. destruct Hg' as [Hs Ho]. exact (member_owned_mono _ _ _ _ _ _ Hs Ho Hm).
Qed.

Variable vectors : string -> list val.
Variable vector_bytes : string -> option (list Z).

Lemma py_iter_len v l n : py_iter v = Ok l -> py_len v = Ok n -> Z.of_nat (length l) = n.
Proof.
  destruct v as [| | |s|l'|d]; cbn; try done.
  - intros [= <-] [= <-]. rewrite length_map. clear. unfold str_len. induction s; cbn; lia.
  - by intros [= <-] [= <-].
  - intros [= <-] [= <-]. unfold keys. by rewrite length_map, length_fmap.
Qed.

(** The check of one partition: its range follows the ones before it, its vectors are within it and its
    identifiers are its own. *)
Lemma check_partition_facts manifest ledger outer_end lo sources owned name hi sources' owned' :
  check_partition schema_file conforms vectors vector_bytes manifest ledger outer_end (lo, (sources, owned)) name = Ok (hi, (sources', owned')) ->
  sources ⊆ sources' /\ owned ⊆ owned' /\
  (forall m, m ∈ ledger_members ledger name -> member_owned name sources' owned' m) /\
  exists start, lo <= start < hi /\ hi <= outer_end /\ Forall (inside start hi) (vectors name).
Proof.
  unfold check_partition. intros H. apply rbind_Ok in H as (bounds & _ & H). apply rbind_Ok in H as ([start finish] & Hb & H).
  apply rbind_Ok in H as (part & Hp & H). apply rbind_Ok in H as (members & Hm & H). apply rbind_Ok in H as (st & Hr & H).
  apply rbind_Ok in H as (digest & _ & H). apply rbind_Ok in H as (recorded & _ & H). apply raise_seq_Ok in H as [_ [= <- <- <-]].
  apply check_rows_facts in Hr as [[Hs Ho] Hall]. cbn in Hs, Ho. split; [done|]. split; [done|].
  unfold partition_members in Hm. apply rbind_Ok in Hm as (? & _ & Hm). apply raise_seq_Ok in Hm as [_ Hm].
  apply rbind_Ok in Hm as (? & _ & Hm). apply rbind_Ok in Hm as (? & _ & Hm). apply raise_seq_Ok in Hm as [_ Hm].
  apply rbind_Ok in Hm as (? & _ & Hm). apply raise_seq_Ok in Hm as [_ Hm]. apply rbind_Ok in Hm as (ms & Hms & Hm).
  apply rbind_Ok in Hm as (n & Hn & Hm). apply raise_seq_Ok in Hm as [Hlen Hm]. bool_inv.
  assert (length members = length (vectors name)) as Hl by (pose proof (py_iter_len _ _ _ Hm Hn); lia).
  assert (ledger_members ledger name = members) as Hlm.
  { unfold ledger_members. rewrite Hp. cbn [rbind]. rewrite Hms. cbn [rbind]. by rewrite Hm. }
  rewrite Hlm. rewrite Forall_forall in Hall. split.
  - intros m (i & Hi)%list_elem_of_lookup. destruct (lookup_lt_is_Some_2 (vectors name) i) as [v Hv].
    { rewrite <- Hl. by eapply lookup_lt_Some. }
    apply (Hall (v, m)). apply list_elem_of_lookup. exists i. apply lookup_zip_Some. done.
  - exists start. unfold check_bounds in Hb. apply rbind_Ok in Hb as (a & _ & Hb). apply rbind_Ok in Hb as (b & _ & Hb).
    apply raise_seq_Ok in Hb as [Hord Hb]. apply rbind_Ok in Hb as (? & _ & [= <- <-]). bool_inv. split; [done|]. split; [done|].
    apply Forall_forall. intros v (i & Hi)%list_elem_of_lookup. destruct (lookup_lt_is_Some_2 members i) as [m Hmi].
    { rewrite Hl. by eapply lookup_lt_Some. }
    apply (Hall (v, m)). apply list_elem_of_lookup. exists i. apply lookup_zip_Some. done.
Qed.
End gate.

Section ledger.
Variable manifest_valid : val -> bool.
Variable json_loads : list Z -> result val.
Variable schema_file : string -> option (list Z).
Variable conforms : list Z -> mapping -> bool.
Variable vectors : string -> list val.
Variable vector_bytes : string -> option (list Z).

(** All three partitions, one after the other. *)
Lemma check_ledger_facts manifest bytes :
  check_ledger manifest_valid json_loads schema_file conforms vectors vector_bytes manifest (Some bytes) = Ok tt ->
  exists ledger, json_loads bytes = Ok ledger /\
    rbind (subscript "split" manifest) (subscript "session_assignment_sha256") = Ok (VStr (hexdigest (sha256 bytes))) /\
    (exists sources owned, forall p m, p ∈ PARTITIONS -> m ∈ ledger_members ledger p -> member_owned p sources owned m) /\
    (forall i j p q v w, PARTITIONS !! i = Some p -> PARTITIONS !! j = Some q -> (i < j)%nat -> v ∈ vectors p -> w ∈ vectors q ->
       exists vs ve ws we, window_of v = Some (vs, ve) /\ window_of w = Some (ws, we) /\ vs < ve /\ ve <= ws /\ ws < we).
Proof.
  unfold check_ledger. intros H. apply raise_seq_Ok in H as [_ H]. cbn [rbind] in H.
  apply rbind_Ok in H as (wanted & Hwant & H). apply raise_seq_Ok in H as [Hd H]. apply negb_false_iff, text_py_eq in Hd as ->.
  apply rbind_Ok in H as (ledger & Hl & H). apply rbind_Ok in H as (? & _ & H). apply raise_seq_Ok in H as [_ H].
  apply rbind_Ok in H as (? & _ & H). apply raise_seq_Ok in H as [_ H]. apply rbind_Ok in H as (? & _ & H). apply raise_seq_Ok in H as [_ H].
  apply rbind_Ok in H as (range & _ & H). apply rbind_Ok in H as (lo & _ & H). apply rbind_Ok in H as (outer & _ & H).
  apply rbind_Ok in H as (final & H & _). unfold PARTITIONS in H. cbn [foldR] in H.
  apply rbind_Ok in H as ([h1 [s1 o1]] & H1 & H). apply rbind_Ok in H as ([h2 [s2 o2]] & H2 & H). apply rbind_Ok in H as ([h3 [s3 o3]] & H3 & _).
  apply check_partition_facts in H1 as (_ & _ & M1 & a1 & B1 & _ & V1). apply check_partition_facts in H2 as (S2 & O2 & M2 & a2 & B2 & _ & V2).
  apply check_partition_facts in H3 as (S3 & O3 & M3 & a3 & B3 & _ & V3).
  exists ledger. split; [done|]. split; [done|]. split.
  - exists s3, o3. intros p m Hp Hm. unfold PARTITIONS in Hp.
    apply elem_of_cons in Hp as [->|Hp]; [|apply elem_of_cons in Hp as [->|Hp]; [|apply list_elem_of_singleton in Hp as ->]].
    + apply (member_owned_mono _ s1 o1); [by transitivity s2|by transitivity o2|by apply M1].
    + apply (member_owned_mono _ s2 o2); [done|done|by apply M2].
    + by apply M3.
  - assert (forall p q v w a b c d, Forall (inside a b) (vectors p) -> Forall (inside c d) (vectors q) -> b <= c -> v ∈ vectors p -> w ∈ vectors q ->
      exists vs ve ws we, window_of v = Some (vs, ve) /\ window_of w = Some (ws, we) /\ vs < ve /\ ve <= ws /\ ws < we) as Hsep.
    { intros p q v w a b c d Hp Hq Hbc Hv Hw. rewrite Forall_forall in Hp, Hq. destruct (Hp v Hv) as (vs & ve & ? & ? & ?).
      destruct (Hq w Hw) as (ws & we & ? & ? & ?). exists vs, ve, ws, we. repeat split; try done; lia. }
    intros i j p q v w Hi Hj Hij Hv Hw. unfold PARTITIONS in Hi, Hj.
    destruct i as [|[|[|i]]], j as [|[|[|j]]]; try lia; cbn in Hi, Hj; simplify_eq.
    + by eapply (Hsep "train" "validation" v w); [exact V1|exact V2|lia|..].
    + by eapply (Hsep "train" "test" v w); [exact V1|exact V3|lia|..].
    + by eapply (Hsep "validation" "test" v w); [exact V2|exact V3|lia|..].
Qed.
End ledger.

Definition is_real (x : float) : Prop := is_number (PFloat x).

Lemma real_share f : up_to 0 f -> is_real f.
Proof. by intros [->|(m & e & -> & _)]. Qed.

Lemma f1_real tp fp fn : 0 <= tp -> 0 <= fp -> 0 <= fn -> is_real (_f1 tp fp fn).
Proof.
  intros Ht Hf Hn. unfold _f1. destruct (_ =? 0); [done|]. apply real_share, truediv_share. lia.
Qed.

Lemma elem_snoc {A} (x y : A) l : x ∈ l ++ [y] <-> x ∈ l \/ x = y.
Proof. rewrite elem_of_app, list_elem_of_singleton. done. Qed.

(** ** Lexicographic order of candidates *)
Definition real_pair (a : float * float) : Prop := is_real a.1 /\ is_real a.2.

Lemma pair_geb_refl a : real_pair a -> pair_geb a a = true.
Proof.
  intros [H1 H2]. unfold pair_geb, f_eqb, f_leb. rewrite (num_eqb_refl _ H1).
  pose proof (num_eqb_refl _ H2) as H. rewrite num_eqb_leb in H. by apply andb_prop in H as [H _].
Qed.

Lemma pair_geb_spec a b : pair_geb a b = true <->
  f_leb b.1 a.1 = true /\ (f_leb a.1 b.1 = true -> f_leb b.2 a.2 = true).
Proof.
  unfold pair_geb, f_eqb, f_leb. rewrite num_eqb_leb.
  destruct (num_leb (PFloat a.1) (PFloat b.1)) eqn:E1, (num_leb (PFloat b.1) (PFloat a.1)) eqn:E2; cbn; naive_solver.
Qed.

Lemma pair_geb_trans a b c : pair_geb a b = true -> pair_geb b c = true -> pair_geb a c = true.
Proof.
  rewrite !pair_geb_spec. intros [H1 H2] [H3 H4]. split; [by eapply num_leb_trans|]. intros H.
  assert (f_leb a.1 b.1 = true) as Hab by (by eapply num_leb_trans). assert (f_leb b.1 c.1 = true) as Hbc by (by eapply num_leb_trans; [exact H1|]).
  eapply num_leb_trans; [by apply H4|by apply H2].
Qed.

Lemma pair_geb_total a b : real_pair a -> real_pair b -> pair_geb a b = false -> pair_geb b a = true.
Proof.
  intros [A1 A2] [B1 B2] H. apply pair_geb_spec. unfold pair_geb, f_eqb, f_leb in *. rewrite num_eqb_leb in H.
  destruct (num_leb (PFloat b.1) (PFloat a.1)) eqn:E1.
  - destruct (num_leb (PFloat a.1) (PFloat b.1)) eqn:E2; cbn in H; [|done]. split; [done|]. intros _. by apply num_leb_total.
  - assert (num_leb (PFloat a.1) (PFloat b.1) = true) as Hab by (by apply num_leb_total). split; [done|]. by intros.
Qed.

(** ** Thresholds *)
Section thresholds.
Variable rows : list (bool * float).
Variable hours budget : float.

Definition f1_of (threshold : float) : float :=
  let tp := firing true rows threshold in
  _f1 tp (firing false rows threshold) (Z.of_nat (length (List.filter fst rows)) - tp).

(** A threshold keeps within the budget. *)
Definition affordable (threshold : float) : Prop :=
  exists rate, per_hour (firing false rows threshold) hours = Ok rate /\ f_ltb budget rate = false.

Lemma firing_nonneg kind t : 0 <= firing kind rows t.
Proof. unfold firing. lia. Qed.

Lemma firing_attacks t : firing true rows t <= Z.of_nat (length (List.filter fst rows)).
Proof.
  unfold firing. apply inj_le. induction rows as [|[b s] l IH]; cbn; [lia|]. destruct b; cbn; [|done].
  destruct (f_leb t s); cbn; lia.
Qed.

Lemma f1_of_real t : is_real (f1_of t).
Proof. pose proof (firing_nonneg true t). pose proof (firing_nonneg false t). pose proof (firing_attacks t). apply f1_real; lia. Qed.

Lemma firing_eqb kind t t' : f_eqb t t' = true -> firing kind rows t = firing kind rows t'.
Proof.
  intros H. unfold firing. do 2 f_equal. clear - H. induction rows as [|[b s] l IH]; [done|]. cbn [List.filter fst snd].
  assert (f_leb t s = f_leb t' s) as -> by exact (num_leb_eqb _ _ (PFloat s) H). by rewrite IH.
Qed.

(** What the loop over the candidates [seen] so far has kept. *)
Definition best_of (seen : list float) (best : option (float * float)) : Prop :=
  match best with
  | None => forall t, t ∈ seen -> ~ affordable t
  | Some b => b.2 ∈ seen /\ b.1 = f1_of b.2 /\ affordable b.2 /\ forall t, t ∈ seen -> affordable t -> pair_geb b (f1_of t, t) = true
  end.

Lemma try_threshold_best seen best t best' : Forall is_real (t :: seen) ->
  best_of seen best -> try_threshold rows hours budget best t = Ok best' -> best_of (seen ++ [t]) best'.
Proof.
  intros Hr Hb. unfold try_threshold. intros (rate & Hrate & H)%rbind_Ok. fold (f1_of t) in H.
  destruct (f_ltb budget rate) eqn:Eb.
  - injection H as <-. assert (~ affordable t) as Hn.
    { intros (r & Hr' & Hb'). rewrite Hrate in Hr'. injection Hr' as <-. congruence. }
    destruct best as [b|]; cbn in *.
    + destruct Hb as (H1 & H2 & H3 & H4). split; [set_solver|]. split; [done|]. split; [done|].
      intros t' [Ht'| ->]%elem_snoc; [by apply H4|by intros ?%Hn].
    + intros t' [Ht'| ->]%elem_snoc; [by apply Hb|done].
  - assert (affordable t) as Ha by (by exists rate). set (c := (f1_of t, t)) in *.
    assert (real_pair c) as Hc by (split; [apply f1_of_real|by inversion Hr]).
    destruct best as [b|]; cbn in Hb.
    + destruct Hb as (H1 & H2 & H3 & H4).
      assert (real_pair b) as Hbr.
      { split; [rewrite H2; apply f1_of_real|]. inversion Hr as [|? ? _ Hs]. rewrite Forall_forall in Hs. by apply Hs. }
      destruct (pair_geb c b) eqn:Eg; injection H as <-; cbn.
      * split; [set_solver|]. split; [done|]. split; [done|].
        intros t' [Ht'| ->]%elem_snoc Ha'; [|by apply pair_geb_refl]. eapply pair_geb_trans; [exact Eg|by apply H4].
      * split; [set_solver|]. split; [done|]. split; [done|].
        intros t' [Ht'| ->]%elem_snoc Ha'; [by apply H4|]. by apply pair_geb_total.
    + injection H as <-. cbn. split; [set_solver|]. split; [done|]. split; [done|].
      intros t' [Ht'| ->]%elem_snoc Ha'; [by exfalso; eapply Hb|by apply pair_geb_refl].
Qed.

Lemma thresholds_best l seen best best' : Forall is_real (seen ++ l) -> best_of seen best ->
  foldR (try_threshold rows hours budget) best l = Ok best' -> best_of (seen ++ l) best'.
Proof.
  revert seen best. induction l as [|t l IH]; intros seen best Hr Hb; cbn.
  - intros [= <-]. by rewrite app_nil_r.
  - intros (b1 & H1 & H2)%rbind_Ok. replace (seen ++ t :: l) with ((seen ++ [t]) ++ l) in * by (by rewrite <- app_assoc).
    apply (IH (seen ++ [t]) b1); [done| |done]. apply Forall_app in Hr as [Hr _]. eapply try_threshold_best; [|exact Hb|exact H1].
    apply Forall_app in Hr as [Hs Ht]. constructor; [by inversion Ht|done].
Qed.
End thresholds.

Lemma distinct_scores_spec scores : Forall is_real scores ->
  (forall t, t ∈ distinct_scores scores -> t ∈ scores) /\ (forall s, s ∈ scores -> exists t, t ∈ distinct_scores scores /\ f_eqb s t = true).
Proof.
  unfold distinct_scores. set (step := fun acc s => _).
  assert (forall l acc, Forall is_real l -> (forall t, t ∈ fold_left step l acc -> t ∈ acc \/ t ∈ l) /\
    (forall t, t ∈ acc -> t ∈ fold_left step l acc) /\ (forall s, s ∈ l -> exists t, t ∈ fold_left step l acc /\ f_eqb s t = true)) as H.
  { induction l as [|x l IH]; intros acc Hr; cbn; [split; [by left|split; [done|set_solver]]|].
    inversion Hr as [|? ? Hx Hl]; subst. destruct (IH (step acc x) Hl) as (H1 & H2 & H3).
    assert (exists t, t ∈ step acc x /\ f_eqb x t = true) as (t0 & Ht0 & E0).
    { unfold step. destruct (existsb (f_eqb x) acc) eqn:E.
      - apply existsb_exists in E as (t & Ht & E). exists t. split; [by apply list_elem_of_In|done].
      - exists x. split; [set_solver|by apply num_eqb_refl]. }
    split; [|split].
    - intros t Ht. apply H1 in Ht as [Ht|Ht]; [|set_solver]. unfold step in Ht. destruct (existsb _ acc); set_solver.
    - intros t Ht. apply H2. unfold step. destruct (existsb _ acc); set_solver.
    - intros s [->|Hs]%elem_of_cons; [exists t0; split; [by apply H2|done]|by apply H3]. }
  intros Hr. destruct (H scores [] Hr) as (H1 & _ & H3). split; [|done]. intros t Ht. apply H1 in Ht. set_solver.
Qed.

Lemma affordable_eqb rows hours budget s t : f_eqb s t = true -> affordable rows hours budget s -> affordable rows hours budget t.
Proof. intros H (rate & Hr & Hb). exists rate. by rewrite <- (firing_eqb rows false s t H). Qed.

Lemma f1_of_eqb rows s t : f_eqb s t = true -> f1_of rows s = f1_of rows t.
Proof. intros H. unfold f1_of. by rewrite !(firing_eqb rows _ s t H). Qed.

Lemma real_ltb a b : is_real a -> is_real b -> f_ltb a b = negb (f_leb b a).
Proof. apply num_ltb_leb_neg. Qed.

(** The highest score of a list of numbers. *)
Lemma max_of_spec scores h : Forall is_real scores -> max_of scores = Some h -> h ∈ scores /\ forall s, s ∈ scores -> f_leb s h = true.
Proof.
  destruct scores as [|s0 rest]; [done|]. cbn [max_of]. intros Hr [= <-]. inversion Hr as [|? ? H0 Hrest]; subst. clear Hr.
  revert s0 H0. induction rest as [|x rest IH]; intros s0 H0; cbn.
  - split; [set_solver|]. intros s ->%list_elem_of_singleton. pose proof (num_eqb_refl _ H0) as E. rewrite num_eqb_leb in E. by apply andb_prop in E as [E _].
  - inversion Hrest as [|? ? Hx Hr]; subst. assert (f_leb s0 s0 = true /\ f_leb x x = true) as [E0 Ex].
    { split; [pose proof (num_eqb_refl _ H0) as E|pose proof (num_eqb_refl _ Hx) as E]; rewrite num_eqb_leb in E; by apply andb_prop in E as [E _]. }
    assert (is_real (f_max s0 x) /\ f_leb s0 (f_max s0 x) = true /\ f_leb x (f_max s0 x) = true) as (Hm & Hs0 & Hxm).
    { unfold f_max. rewrite real_ltb by done. destruct (f_leb x s0) eqn:E; [done|]. cbn. split; [done|]. split; [by apply num_leb_total|done]. }
    destruct (IH Hr (f_max s0 x) Hm) as [Hin Hall]. split.
    + apply elem_of_cons in Hin as [Hin|Hin]; [|set_solver]. rewrite Hin. unfold f_max. destruct (f_ltb s0 x); set_solver.
    + assert (f_leb (f_max s0 x) (fold_left f_max rest (f_max s0 x)) = true) as Hlast by (apply Hall; set_solver).
      intros s Hs. apply elem_of_cons in Hs as [->|Hs]; [by eapply num_leb_trans|]. apply elem_of_cons in Hs as [->|Hs]; [by eapply num_leb_trans|].
      apply Hall. set_solver.
Qed.

(** Selection: an affordable score no affordable score beats, or just above the highest benign one. *)
Definition selected (rows : list (bool * float)) (scores : list float) (hours budget t : float) : Prop :=
  (t ∈ scores /\ affordable rows hours budget t /\
   forall s, s ∈ scores -> affordable rows hours budget s -> pair_geb (f1_of rows t, t) (f1_of rows s, s) = true)
  \/ ((forall s, s ∈ scores -> ~ affordable rows hours budget s) /\
      exists h, h ∈ map snd (List.filter (fun row => negb row.1) rows) /\
        (forall s, s ∈ map snd (List.filter (fun row => negb row.1) rows) -> f_leb s h = true) /\
        f_leb f_one h = false /\ t = f_min f_one (f_add h one_billionth)).

Lemma benign_real (labels : list bool) scores : Forall is_real scores -> Forall is_real (map snd (List.filter (fun row : bool * float => negb row.1) (zip labels scores))).
Proof.
  intros Hr. rewrite Forall_forall in Hr. apply Forall_forall. intros s (row & -> & Hrow)%list_elem_of_fmap.
  apply list_elem_of_In, filter_In in Hrow as [Hrow _]. destruct row as [b s]. apply list_elem_of_In, elem_of_zip_r in Hrow. by apply Hr.
Qed.

Lemma select_threshold_selected labels scores seconds budget t : Forall is_real scores -> select_threshold labels scores seconds budget = Ok t ->
  exists hours, py_fdiv seconds seconds_per_hour = Ok hours /\ selected (zip labels scores) scores hours budget t.
Proof.
  intros Hr. unfold select_threshold. intros H. apply raise_seq_Ok in H as [_ H]. apply raise_seq_Ok in H as [_ H]. apply raise_seq_Ok in H as [_ H].
  apply rbind_Ok in H as (hours & Hh & H). apply rbind_Ok in H as (best & Hb & H). exists hours. split; [done|]. set (rows := zip labels scores) in *.
  destruct (distinct_scores_spec scores Hr) as [Hin Hrep].
  assert (best_of rows hours budget (sort_by f_leb (distinct_scores scores)) best) as Hbest.
  { change (sort_by f_leb (distinct_scores scores)) with ([] ++ sort_by f_leb (distinct_scores scores)). eapply thresholds_best; [| |exact Hb]; [|set_solver].
    cbn. apply Forall_forall. intros s Hs. rewrite sort_by_elem in Hs. rewrite Forall_forall in Hr. by apply Hr, Hin. }
  destruct best as [b|].
  - injection H as <-. destruct Hbest as (H1 & H2 & H3 & H4). rewrite sort_by_elem in H1. left. split; [by apply Hin|]. split; [done|].
    intros s Hs Ha. destruct (Hrep s Hs) as (s' & Hs' & E). specialize (H4 s'). rewrite sort_by_elem in H4.
    eapply pair_geb_trans; [rewrite <- H2; apply H4; [done|by eapply affordable_eqb]|].
    apply pair_geb_spec. cbn. rewrite (f1_of_eqb rows s s' E). unfold f_eqb in E. rewrite num_eqb_leb in E. apply andb_prop in E as [E _]. split; [|done].
    pose proof (num_eqb_refl _ (f1_of_real rows s')) as R. rewrite num_eqb_leb in R. by apply andb_prop in R as [R _].
  - right. destruct (max_of _) as [h|] eqn:Em; [|done]. apply raise_seq_Ok in H as [Hl [= <-]]. split.
    + intros s Hs Ha. destruct (Hrep s Hs) as (s' & Hs' & E). apply (Hbest s'); [by rewrite sort_by_elem|by eapply affordable_eqb].
    + destruct (max_of_spec _ h (benign_real labels scores Hr) Em) as [Hh1 Hh2]. exists h. done.
Qed.

(** ** Hybrids *)
Lemma in_unit_real x : in_unit x = true -> is_real x.
Proof. unfold in_unit. intros [H _]%andb_prop. by apply num_leb_number in H as [_ H]. Qed.

Lemma model_score_real m vector history y : model_score m vector history = Ok y -> is_real y.
Proof.
  unfold model_score. intros (features & _ & H)%rbind_Ok. apply in_unit_real. destruct m as [f|r]; [by eapply forest_score_unit|].
  destruct (1 <? window_count r); [|done]. apply raise_seq_Ok in H as [_ H]. apply rbind_Ok in H as (? & _ & H). apply rbind_Ok in H as (? & _ & H).
  by eapply score_matrix_unit.
Qed.

Lemma fires_at_max s y t : is_real s -> is_real y -> f_leb t (f_max s y) = f_leb t s || f_leb t y.
Proof.
  intros Hs Hy. unfold f_max. rewrite real_ltb by done. destruct (f_leb y s) eqn:E; cbn.
  - destruct (f_leb t s) eqn:Es; [done|]. destruct (f_leb t y) eqn:Ey; [|done].
    assert (f_leb t s = true) by (by eapply num_leb_trans). congruence.
  - assert (f_leb s y = true) as Hsy by (by apply num_leb_total). destruct (f_leb t s) eqn:Es; [|done]. by eapply num_leb_trans.
Qed.

(** ** Labels *)
Lemma load_line_keyed labels line labels' : map_Forall (fun k l => vector_sha256 l = k) labels -> load_line labels line = Ok labels' ->
  map_Forall (fun k l => vector_sha256 l = k) labels'.
Proof.
  intros Hl. unfold load_line. intros (row & _ & H)%rbind_Ok. destruct row; try done. apply raise_seq_Ok in H as [_ H].
  apply rbind_Ok in H as (label & _ & H). apply raise_seq_Ok in H as [_ [= <-]]. by apply map_Forall_insert_2.
Qed.

Lemma load_labels_keyed json_lines data expected labels : load_labels json_lines data expected = Ok labels ->
  map_Forall (fun k l => vector_sha256 l = k) labels.
Proof.
  unfold load_labels. destruct data as [data|]; [|done]. intros H. apply raise_seq_Ok in H as [_ H]. apply rbind_Ok in H as (lines & _ & H).
  eapply (foldR_inv (map_Forall (fun k l => vector_sha256 l = k)) load_line); [apply map_Forall_empty| |exact H].
  intros b line b' _. apply load_line_keyed.
Qed.

(** Each vector with its own label. *)
Definition labelled (v : mapping) (l : Label) : Prop := canonical_hash (VDict v) = Ok (vector_sha256 l).

Lemma labels_for_labelled vectors labels ls : map_Forall (fun k l => vector_sha256 l = k) labels ->
  labels_for (map VDict vectors) labels = Ok ls -> Forall2 labelled vectors ls.
Proof.
  intros Hk. unfold labels_for. revert ls. induction vectors as [|v vectors IH]; intros ls; cbn; [by intros [= <-]|].
  intros (l & Hl & H)%rbind_Ok. apply rbind_Ok in H as (ls' & Hls & [= <-]). constructor; [|by apply IH].
  unfold label_for in Hl. apply rbind_Ok in Hl as (digest & Hd & Hl). destruct (labels !! digest) as [l'|] eqn:E; [|done]. injection Hl as ->.
  unfold labelled. rewrite Hd. f_equal. symmetry. by eapply (map_Forall_lookup_1 _ _ _ _ Hk).
Qed.

(** ** The dataset of a training run *)
Record trainable (json_lines : list Z -> result (list (Z * result val))) (label_bytes : option (list Z)) (d : Dataset) : Prop := {
  t_labelled : forall name, name ∈ PARTITIONS -> Forall2 labelled (partitions d name) (labels d name);
  t_benign : forall l, l ∈ labels d "train" -> attack l = false;
  t_both : forall name, name = "validation" \/ name = "test" -> (exists l, l ∈ labels d name /\ attack l = true) /\ (exists l, l ∈ labels d name /\ attack l = false);
  t_labels : exists bytes labels, label_bytes = Some bytes /\ load_labels json_lines (Some bytes) None = Ok labels /\
    forall name l, name ∈ PARTITIONS -> l ∈ Pipeline.labels d name -> labels !! vector_sha256 l = Some l }.

Lemma by_name_mapR {A} (f : string -> result A) (dflt : A) names l name :
  mapR (fun n => let? a := f n in Ok (n, a)) names = Ok l -> name ∈ names -> f name = Ok (by_name dflt l name).
Proof.
  unfold by_name. revert l. induction names as [|n names IH]; intros l; cbn; [set_solver|].
  intros (na & Hna & H)%rbind_Ok. apply rbind_Ok in H as (r & Hr & [= <-]). apply rbind_Ok in Hna as (a & Ha & [= <-]). cbn.
  destruct (String.eqb_spec name n) as [->|Hn]; [done|]. intros [->|Hin]%elem_of_cons; [done|]. by apply IH.
Qed.

Lemma load_labels_unchecked json_lines data expected labels : load_labels json_lines (Some data) expected = Ok labels -> load_labels json_lines (Some data) None = Ok labels.
Proof. unfold load_labels. intros H. apply raise_seq_Ok in H as [_ H]. exact H. Qed.

Lemma label_for_in labels vectors ls l : labels_for vectors labels = Ok ls -> map_Forall (fun k l => vector_sha256 l = k) labels -> l ∈ ls ->
  labels !! vector_sha256 l = Some l.
Proof.
  intros H Hk. unfold labels_for in H. apply mapR_Forall2 in H. induction H as [|v l' vectors ls Hl H IH]; [set_solver|].
  intros [->|Hin]%elem_of_cons; [|by apply IH]. unfold label_for in Hl. apply rbind_Ok in Hl as (digest & _ & Hl).
  destruct (labels !! digest) as [l0|] eqn:E; [|done]. injection Hl as ->. pose proof (map_Forall_lookup_1 _ _ _ _ Hk E) as <-. done.
Qed.

Lemma check_both_facts ls name : check_both ls name = Ok tt -> (exists l, l ∈ ls name /\ attack l = true) /\ (exists l, l ∈ ls name /\ attack l = false).
Proof.
  unfold check_both. intros H%raise_if_Ok%negb_false_iff. apply andb_prop in H as [H1 H2]. apply existsb_exists in H1 as (l1 & Hl1 & E1).
  apply existsb_exists in H2 as (l2 & Hl2 & E2). split; [exists l1|exists l2]; (split; [by apply list_elem_of_In|]); [done|by apply negb_true_iff].
Qed.

Lemma load_dataset_trainable manifest_valid json_loads schema_file conforms json_lines document vector_bytes ledger_bytes label_bytes schema d :
  load_dataset manifest_valid json_loads schema_file conforms json_lines document vector_bytes ledger_bytes label_bytes schema = Ok d ->
  trainable json_lines label_bytes d /\
  validate_partitions manifest_valid json_loads schema_file conforms (fun name => map VDict (partitions d name)) vector_bytes (VDict (manifest d)) ledger_bytes = Ok tt.
Proof.
  unfold load_dataset. intros (doc & _ & H)%rbind_Ok. destruct doc as [| | | | |m]; try done. apply raise_seq_Ok in H as [_ H].
  apply rbind_Ok in H as ([] & _ & H). apply rbind_Ok in H as (loaded & Hloaded & H). apply rbind_Ok in H as ([] & Hv & H).
  apply rbind_Ok in H as ([] & _ & H). apply rbind_Ok in H as (lab & Hlab & H). apply raise_seq_Ok in H as [Hben H].
  apply rbind_Ok in H as ([] & Hboth & [= <-]). split; [|exact Hv].
  unfold partition_labels in Hlab. apply try_except_Ok in Hlab as [Hlab|(e & _ & _ & [=])].
  apply rbind_Ok in Hlab as (expected & _ & Hlab). apply rbind_Ok in Hlab as (lm & Hlm & Hlab).
  assert (forall name, name ∈ PARTITIONS -> labels_for (map VDict (by_name [] loaded name)) lm = Ok (by_name [] lab name)) as Hl.
  { intros name Hn. by apply (by_name_mapR (fun n => labels_for (map VDict (by_name [] loaded n)) lm) [] PARTITIONS). }
  pose proof (load_labels_keyed _ _ _ _ Hlm) as Hk. constructor; cbn.
  - intros name Hn. eapply labels_for_labelled; [exact Hk|by apply Hl].
  - intros l Hin. apply not_true_iff_false. intros Ha. apply not_true_iff_false in Hben. apply Hben, existsb_exists. exists l. split; [by apply list_elem_of_In|done].
  - cbn [foldR] in Hboth. apply rbind_Ok in Hboth as ([] & Hval & Hboth). apply rbind_Ok in Hboth as ([] & Htest & _).
    intros name [-> | ->]; by apply check_both_facts.
  - destruct label_bytes as [bytes|]; [|done]. exists bytes, lm. split; [done|]. split; [by eapply load_labels_unchecked|].
    intros name l Hn Hin. eapply label_for_in; [by apply Hl|exact Hk|done].
Qed.

(** ** Candidates *)

Lemma item_metric_values metrics names values name v : metric_values metrics names = Ok values -> name ∈ names ->
  item name metrics = Ok v -> get name values = v /\ assoc name values = Some v.
Proof.
  unfold metric_values. intros Hm Hn Hi. revert values Hm. induction names as [|n names IH]; [set_solver|]. intros values Hm. cbn in Hm.
  apply rbind_Ok in Hm as (na & Hna & Hm). apply rbind_Ok in Hm as (r & Hr & [= <-]). apply rbind_Ok in Hna as (x & Hx & [= <-]).
  unfold get. cbn. destruct (String.eqb_spec name n) as [->|Hne]; [rewrite Hi in Hx; by injection Hx as <-|].
  apply IH; [|done]. by apply elem_of_cons in Hn as [->|Hn].
Qed.

(** Every metric of the test partition is a float. *)
Definition float_metrics (metrics : mapping) : Prop := forall name, name ∈ METRIC_FIELDS -> exists f, item name metrics = Ok (VFloat f).

Lemma metric_agrees_written metadata test name f : get_attr name VNone test = Ok (VFloat f) ->
  rbind (item "evaluation" metadata) (subscript name) = Ok (VFloat f) -> is_real f -> metric_agrees metadata test name = Ok tt.
Proof.
  intros Ht Hm Hf. unfold metric_agrees. rewrite Ht, Hm. cbn [rbind py_eq as_number]. rewrite (num_eqb_refl _ Hf). done.
Qed.

Lemma finite_item d k v : finite_val (VDict d) = true -> assoc k d = Some v -> finite_val v = true.
Proof.
  cbn. intros H Ha. rewrite forallb_forall in H. apply (H (k, v)). apply list_elem_of_In. by apply assoc_elem.
Qed.

Lemma finite_float f : finite_val (VFloat f) = true -> is_real f.
Proof. by destruct f. Qed.

Lemma float_values_get metrics evaluation name f : float_values metrics = Ok evaluation -> name ∈ METRIC_FIELDS ->
  item name metrics = Ok (VFloat f) -> assoc name evaluation = Some (VFloat f).
Proof.
  unfold float_values. generalize METRIC_FIELDS. intros names Hm Hn Hi. revert evaluation Hm. induction names as [|n names IH]; [set_solver|].
  intros evaluation Hm. cbn in Hm. apply rbind_Ok in Hm as (na & Hna & Hm). apply rbind_Ok in Hm as (r & Hr & [= <-]).
  apply rbind_Ok in Hna as (g & Hg & [= <-]). apply rbind_Ok in Hg as (x & Hx & Hg). cbn.
  destruct (String.eqb_spec name n) as [->|Hne].
  - rewrite Hi in Hx. injection Hx as <-. cbn in Hg. by injection Hg as <-.
  - apply IH; [|done]. by apply elem_of_cons in Hn as [->|Hn].
Qed.

(** What is described passes the checks a promotion makes of the binding. *)
Lemma described_candidate_verifies schema_file a d f e threshold metrics now metadata binding :
  describe_candidate schema_file a d f e threshold metrics now = Ok (metadata, binding) -> float_metrics metrics.2 -> finite_val (VDict metadata) = true ->
  exists schema_hash values, verify_schema schema_file metadata = Ok (VStr schema_hash) /\
    verify_binding metadata (candidate_artifact f) (VStr schema_hash) binding = Ok (VDict values) /\
    metric_values metrics.2 (METRIC_FIELDS ++ scenario_counts ++ ["event_rate_eps"]) = Ok values.
Proof.
  unfold describe_candidate. intros H Hfloat Hfin. apply rbind_Ok in H as (hash & Hh & H). apply rbind_Ok in H as (evaluation & He & H).
  apply rbind_Ok in H as (id & _ & H). apply rbind_Ok in H as (digest & _ & H). apply rbind_Ok in H as (vv & _ & H).
  apply rbind_Ok in H as (values & Hv & [= <- <-]). exists hash, values.
  assert (is_real threshold) as Ht by (apply finite_float; by eapply (finite_item _ "threshold")).
  assert (finite_val (VDict evaluation) = true) as Hev by (by eapply (finite_item _ "evaluation")).
  split; [|split; [|done]].
  - unfold verify_schema, candidate_metadata. cbn [item assoc String.eqb Ascii.eqb Bool.eqb rbind subscript]. rewrite Hh.
    cbn [rbind py_eq negb]. by rewrite String.eqb_refl.
  - unfold verify_binding. set (metadata := candidate_metadata a f e id digest hash threshold evaluation) in *.
    set (binding := candidate_binding _ _ _ _ _ _ _ _). change (get "schema_version" binding) with (VStr "evaluation-binding-v1"). cbn [py_eq String.eqb Ascii.eqb Bool.eqb negb raise_if rbind].
    change (item "sha256" (candidate_artifact f)) with (Ok (VStr (hexdigest (sha256 (artifact_bytes f))))).
    change (rbind (item "dataset" metadata) (subscript "manifest_sha256")) with (Ok (VStr (manifest_digest e))). cbn [rbind foldR].
    unfold bound_to. cbn [fst snd]. change (get "model_sha256" binding) with (VStr (hexdigest (sha256 (artifact_bytes f)))).
    change (get "feature_schema_sha256" binding) with (VStr hash). change (get "dataset_manifest_sha256" binding) with (VStr (manifest_digest e)).
    cbn [py_eq]. rewrite !String.eqb_refl. cbn [negb raise_if rbind]. change (item "threshold" metadata) with (Ok (VFloat threshold)). cbn [rbind].
    change (get "threshold" binding) with (VFloat threshold). cbn [py_eq as_number]. rewrite (num_eqb_refl _ Ht). cbn [negb raise_if rbind].
    change (default (VDict []) (assoc "test_metrics" binding)) with (VDict values).
    assert (forall names, names ⊆ METRIC_FIELDS -> foldR (fun _ name => metric_agrees metadata (VDict values) name) tt names = Ok tt) as Hall.
    { induction names as [|n names IH]; intros Hsub; cbn [foldR]; [done|]. assert (n ∈ METRIC_FIELDS) as Hn by (apply Hsub; left). destruct (Hfloat n Hn) as [g Hg].
      rewrite (metric_agrees_written metadata (VDict values) n g); cbn [rbind]; [apply IH; set_solver| | |].
      - cbn. destruct (item_metric_values _ _ _ n _ Hv (proj2 (elem_of_app _ _ _) (or_introl Hn)) Hg) as [_ ->]. done.
      - change (item "evaluation" metadata) with (Ok (VDict evaluation)). cbn. unfold item. by rewrite (float_values_get _ _ n g He Hn Hg).
      - apply finite_float. eapply finite_item; [exact Hev|]. by apply (float_values_get _ _ n g He Hn Hg). }
    rewrite Hall by done. cbn [rbind]. done.
Qed.

(** Every metric an evaluation with a detection gives is a float. *)
Lemma evaluate_detector_floats prf ap labels scores t seconds delays latencies metrics :
  evaluate_detector prf ap labels scores t seconds delays latencies true = Ok metrics -> float_metrics metrics.
Proof.
  unfold evaluate_detector. intros H. do 5 apply raise_seq_Ok in H as [_ H]. destruct (prf _ _) as [[precision recall] f1].
  apply raise_seq_Ok in H as [_ H]. apply raise_seq_Ok in H as [Hd H]. rewrite andb_true_r in Hd.
  apply rbind_Ok in H as (hours & _ & H). apply rbind_Ok in H as (rate & _ & H). rewrite Hd in H. apply rbind_Ok in H as (mttd & Hm & H).
  apply rbind_Ok in H as (p95 & _ & [= <-]). apply rbind_Ok in Hm as (n & _ & Hm). apply rbind_Ok in Hm as (g & _ & [= <-]).
  intros name Hn. unfold METRIC_FIELDS in Hn. repeat (apply elem_of_cons in Hn as [->|Hn]; [by eexists|]). set_solver.
Qed.

Lemma item_app (d d' : mapping) k v : item k d = Ok v -> item k (d ++ d') = Ok v.
Proof. unfold item. rewrite assoc_app. by destruct (assoc k d). Qed.

Lemma evaluate_floats {W} prf ap elapsed resources d pd t : returns (@evaluate W prf ap elapsed resources d pd t true) float_metrics.
Proof.
  unfold evaluate. apply (returns_bind _ _ (fun _ => True)); [apply returns_any|]. intros scored _. apply returns_lift. intros [[delays detected] total] _.
  apply returns_lift. intros metrics Hm. apply returns_lift. intros events _. apply returns_lift. intros rate _. apply returns_lift. intros cpu _.
  apply returns_ret. intros name Hn. destruct (evaluate_detector_floats _ _ _ _ _ _ _ _ _ Hm name Hn) as [f Hf]. exists f. by apply item_app.
Qed.

Lemma evaluate_candidate_floats {W} prf ap elapsed resources d v t th :
  returns (@evaluate_candidate W prf ap elapsed resources d v t th) (fun p => float_metrics p.2).
Proof.
  intros s p s'. unfold evaluate_candidate, catch.
  assert (returns (let! v := evaluate prf ap elapsed resources d v th false in let! t := evaluate prf ap elapsed resources d t th true in ret (v, t))
    (fun p => float_metrics p.2)) as H.
  { apply (returns_bind _ _ (fun _ => True)); [apply returns_any|]. intros x _. eapply returns_bind; [apply evaluate_floats|]. intros y Hy. by apply returns_ret. }
  specialize (H s). destruct ((_ : M W _) s) as [[q|e] s1]; [intros [= <- _]; by eapply H|]. by destruct (is_evaluation_error e).
Qed.

(** A candidate directory, once written, holds a record and a binding that agree. *)
Definition consistent_candidate schema_file (f : Fitted) (files : list (string * list Z)) : Prop :=
  exists metadata binding, ("metadata.json", json_file (VDict metadata)) ∈ files /\ ("evaluation.json", json_file (VDict binding)) ∈ files /\
    (artifact_name f, artifact_bytes f) ∈ files /\ get "status" metadata = VStr "candidate" /\ item "artifact" metadata = Ok (VDict (candidate_artifact f)) /\
    (finite_val (VDict metadata) = true -> exists digest test,
       verify_schema schema_file metadata = Ok digest /\ verify_binding metadata (candidate_artifact f) digest binding = Ok test).

Lemma write_candidate_consistent {W} prf ap elapsed resources clock schema_file a d f e :
  returns (@write_candidate W prf ap elapsed resources clock schema_file a d f e) (consistent_candidate schema_file f).
Proof.
  unfold write_candidate. apply returns_lift. intros validation _. apply returns_lift. intros test _.
  apply (returns_bind _ _ (fun _ => True)); [apply returns_any|]. intros threshold _.
  eapply returns_bind; [apply evaluate_candidate_floats|]. intros metrics Hm. apply (returns_bind _ _ (fun _ => True)); [apply returns_any|]. intros benchmark _.
  apply returns_lift. intros schema_bytes _. apply (returns_bind _ _ (fun _ => True)); [apply returns_any|]. intros now _.
  apply returns_lift. intros [metadata binding] Hd. apply returns_lift. intros table _. apply returns_ret. exists metadata, binding.
  split; [set_solver|]. split; [set_solver|]. split; [set_solver|].
  assert (exists id digest hash evaluation, metadata = candidate_metadata a f e id digest hash threshold evaluation) as (id & digest & hash & evaluation & Hmeta).
  { unfold describe_candidate in Hd. apply rbind_Ok in Hd as (hash & _ & Hd). apply rbind_Ok in Hd as (evaluation & _ & Hd). apply rbind_Ok in Hd as (id & _ & Hd).
    apply rbind_Ok in Hd as (digest & _ & Hd). apply rbind_Ok in Hd as (vv & _ & Hd). apply rbind_Ok in Hd as (tv & _ & [= <- _]). by exists id, digest, hash, evaluation. }
  split; [by rewrite Hmeta|]. split; [by rewrite Hmeta|]. intros Hf.
  destruct (described_candidate_verifies _ _ _ _ _ _ _ _ _ _ Hd Hm Hf) as (h & values & H1 & H2 & _). by exists (VStr h), (VDict values).
Qed.
