(* ===== verification/EnrichInv.v ===== *)
(** The enrichment worker ([Enrichment.v]) and its outbox: what one job, one hit and one run may do to
    the jobs, behind [EnrichmentProps.v].

    The copy of closed vectors into the outbox ([Enrichment.pull_features]): what has become of the hits
    it has taken, at every point of the scan. *)

From S2P Require Import Prelude PyText PyNum PyTime PyJson Sha256 Policy Decision Effects Store Https Contracts Sequences Outbox.
From S2P Require Import Enrichment ServiceInv RegistryInv.

(** ** The jobs after an update *)
Lemma update_keeps_all (P : Job -> Prop) selected change o :
  (forall j, j ∈ jobs o -> selected j = true -> P j -> P (change j)) -> Forall P (jobs o) ->
  Forall P (jobs (update selected change o).2).
Proof.
  intros Hch Hall. unfold update.
  destruct (outbox_transaction_cases (fun o => let? r := update_jobs selected change (jobs o) in Ok (r.2, set_jobs r.1 o)) o)
    as [(Hj & _)|(a & o' & Hb & Hj & _)]; [by rewrite Hj|].
  apply rbind_Ok in Hb as ([l' n] & Hu & [= _ <-]). rewrite Hj. cbn. apply update_jobs_spec in Hu. clear Hj.
  induction Hu as [|j j' l l' Hj _ IH]; [done|]. apply Forall_cons in Hall as [H1 H2]. constructor.
  - destruct Hj as [[_ ->]|(Hs & -> & _)]; [done|]. apply Hch; [by left|done..].
  - apply IH; [|done]. intros i Hi. apply Hch. by right.
Qed.

Lemma update_keeps_other k selected change o : selected k = false -> k ∈ jobs o -> k ∈ jobs (update selected change o).2.
Proof.
  intros Hs Hk. unfold update.
  destruct (outbox_transaction_cases (fun o => let? r := update_jobs selected change (jobs o) in Ok (r.2, set_jobs r.1 o)) o)
    as [(Hj & _)|(a & o' & Hb & Hj & _)]; [by rewrite Hj|].
  apply rbind_Ok in Hb as ([l' n] & Hu & [= _ <-]). rewrite Hj. cbn. apply update_jobs_spec in Hu. clear Hj.
  induction Hu as [|j j' l l' Hj _ IH]; [done|]. apply elem_of_cons in Hk as [->|Hk]; [|right; auto].
  destruct Hj as [[_ ->]|(E & _)]; [by left|congruence].
Qed.

(** A committed update has changed every job it selected. *)
Lemma update_changes j selected change o n o' :
  update selected change o = (Ok n, o') -> j ∈ jobs o -> selected j = true -> change j ∈ jobs o'.
Proof.
  unfold update, outbox_transaction. destruct (update_jobs selected change (jobs o)) as [[l' m]|e] eqn:Hu; cbn [rbind]; [|done].
  intros H Hk Hs. assert (jobs o' = l') as ->; [by destruct (hd CommitOk (o_faults o)); cbn in H; [injection H as _ <-| |]|].
  apply update_jobs_spec in Hu. clear H. induction Hu as [|i i' l l' Hi _ IH]; [by apply not_elem_of_nil in Hk|].
  apply elem_of_cons in Hk as [->|Hk]; [|right; auto]. destruct Hi as [[E _]|(_ & -> & _)]; [congruence|by left].
Qed.

(** The state behind [let! _ := m in ret tt]. *)
Lemma ignore_state {S A} (m : M S A) s : ((let! _ := m in ret tt) s).2 = (m s).2.
Proof. unfold mbind. by destruct (m s) as [[a|e] s']. Qed.

Lemma ignore_Ok {S A} (m : M S A) s u s' : (let! _ := m in ret tt) s = (Ok u, s') -> exists a, m s = (Ok a, s').
Proof. unfold mbind, ret. destruct (m s) as [[a|e] s1]; intros [= <- <-]. by exists a. Qed.

(** The text of a document is never empty. *)
Lemma dump_dict d doc : dump (VDict d) = Ok doc -> doc_text doc <> "" /\ doc_value doc = VDict d.
Proof.
  unfold dump, canonical. destruct (finite_val (VDict d)); [|done]. cbn [rbind]. by intros [= <-].
Qed.

(** ** The results stay *)

(** Every result that a job of [o] has, its row in [o'] has. *)
Definition results_kept (o o' : Outbox) : Prop :=
  forall j, j ∈ jobs o -> job_event j <> None -> exists j', j' ∈ jobs o' /\ job_id j' = job_id j /\ job_event j' = job_event j.

Lemma results_same o o' : (forall j, j ∈ jobs o -> j ∈ jobs o') -> results_kept o o'.
Proof. intros H j Hj _. exists j. by split; [apply H|]. Qed.

Lemma changed_results selected change l l' : Forall2 (updated selected change) l l' ->
  (forall j, j ∈ l -> selected j = true -> job_event j <> None -> job_event (change j) = job_event j) ->
  forall j, j ∈ l -> job_event j <> None -> exists j', j' ∈ l' /\ job_id j' = job_id j /\ job_event j' = job_event j.
Proof.
  induction 1 as [|x x' l l' Hx _ IH]; intros Hch j Hj He; [by apply not_elem_of_nil in Hj|].
  apply elem_of_cons in Hj as [->|Hj].
  - exists x'. split; [left|]. destruct Hx as [[_ ->]|(Hs & -> & Hk & _)]; [done|]. unfold input_kept in Hk. bool_inv.
    split; [done|]. apply Hch; [left|done..].
  - destruct (IH (fun k Hk => Hch k (list_elem_of_further _ _ _ Hk)) j Hj He) as (j' & H1 & H2). exists j'. by split; [right|].
Qed.

Lemma update_results selected change o :
  (forall j, j ∈ jobs o -> selected j = true -> job_event j <> None -> job_event (change j) = job_event j) ->
  results_kept o (update selected change o).2.
Proof.
  intros Hch. unfold update.
  destruct (outbox_transaction_cases (fun o => let? r := update_jobs selected change (jobs o) in Ok (r.2, set_jobs r.1 o)) o)
    as [(Hj & _)|(a & o' & Hb & Hj & _)]; [apply results_same; by rewrite Hj|].
  apply rbind_Ok in Hb as ([l' n] & Hu & [= _ <-]). intros j. rewrite Hj. apply (changed_results selected change); [|done].
  by apply update_jobs_spec in Hu.
Qed.

Lemma save_event_results id event now o : outbox_ok o -> results_kept o (save_event id event now o).2.
Proof.
  intros Ho. unfold save_event. unfold mbind at 1, lift. destruct (dump event) as [doc|e]; [|by apply results_same].
  rewrite ignore_state. apply update_results. intros j Hj Hs He. unfold in_state in Hs. bool_inv.
  pose proof (proj1 (Forall_forall _ _) (jobs_ok o Ho) j Hj) as Hok. by destruct (He (job_pending_event j Hok ltac:(assumption))).
Qed.

Lemma mark_sent_results id now o : results_kept o (mark_sent id now o).2.
Proof. unfold mark_sent. rewrite ignore_state. by apply update_results. Qed.

Lemma failed_results id c r now o : results_kept o (failed id c r now o).2.
Proof.
  unfold failed, mbind at 1, gets. destruct (find_job id o); [|by apply results_same]. cbv zeta. rewrite ignore_state. by apply update_results.
Qed.

Lemma enqueue_results v h now o : results_kept o (enqueue v h now o).2.
Proof.
  apply results_same. unfold enqueue, mbind, raise_when, lift, raise_if. destruct (is_sha256_text h); cbn [negb]; [|done].
  destruct (dump v) as [body|e]; [|done]. intros j Hin.
  match goal with |- context [outbox_transaction ?b o] => destruct (outbox_transaction_cases b o) as [(Hj & _)|(a & o' & Hb & Hj & _)] end; rewrite Hj; [done|].
  destruct (find_job _ o); injection Hb as _ <-; [done|]. apply elem_of_app. by left.
Qed.

Lemma requeue_results id now o : results_kept o (requeue id now o).2.
Proof.
  unfold requeue.
  match goal with |- context [outbox_transaction ?b o] => destruct (outbox_transaction_cases b o) as [(Hj & _)|(a & o' & Hb & Hj & _)] end;
    [apply results_same; by rewrite Hj|].
  apply rbind_Ok in Hb as ([l' n] & Hu & Hb). apply raise_seq_Ok in Hb as [_ [= _ <-]]. intros j. rewrite Hj.
  apply (changed_results (in_state id deadletter) (requeued now)); [by apply update_jobs_spec in Hu|done].
Qed.

(** ** The index *)

(** What an Elasticsearch node that only this worker writes to promises: [documents] gives the document
    of an URL, if there is one.  A request other than the creation of a document changes none; a
    creation may put its own body under its own URL and does nothing else to the index; it has done so
    when it is acknowledged; and a conflict means that a document is there. *)
Class IndexLaws {E : Type} (http : JsonHTTPS E) (documents : E -> string -> option val) : Prop := {
  index_authorization e u : documents (authorization http e).2 u = documents e u;
  index_reads q e u : req_method q <> "PUT" -> documents (opener http q e).2 u = documents e u;
  index_writes q e u : req_method q = "PUT" -> documents (opener http q e).2 u = documents e u \/
    (documents e u = None /\ u = req_url q /\ documents (opener http q e).2 u = req_data q);
  index_created q e reply e' : req_method q = "PUT" -> opener http q e = (Ok (Replied reply), e') -> reply_status reply = 201 ->
    documents e' (req_url q) = req_data q;
  index_conflict q e e' : req_method q = "PUT" -> opener http q e = (Ok (HttpError 409), e') -> documents e' (req_url q) <> None;
  index_authorization_plain e c r status : (authorization http e).1 <> Err (DeliveryError c r (Some status));
  index_opener_plain q e c r status : (opener http q e).1 <> Err (DeliveryError c r (Some status));
}.

Section index.
Context {E : Type}.
Variable http : JsonHTTPS E.
Variable documents : E -> string -> option val.
Context `{!IndexLaws http documents}.

Lemma request_reads method path payload u d : method <> "PUT" -> keeps (fun e => documents e u = d) (request http method path payload).
Proof.
  intros Hm. unfold request. keeps_walk; intros e He.
  - pose proof (index_authorization e u). destruct (authorization http e) as [[x|x] e']; cbn in *; congruence.
  - match goal with |- match opener _ ?q _ with _ => _ end => pose proof (index_reads q e u Hm) end.
    destruct (opener http _ e) as [[x|x] e']; cbn in *; congruence.
Qed.

(** What a creation has done, when it is over. *)
Record put_done (e : E) (url : string) (body : option val) (r : result (Z * mapping)) (e' : E) : Prop := {
  put_writes u : documents e' u = documents e u \/ (documents e u = None /\ u = url /\ documents e' u = body);
  put_created reply : r = Ok (201, reply) -> documents e' url = body;
  put_conflict c b : r = Err (DeliveryError c b (Some 409)) -> documents e' url <> None }.

Lemma request_put_done path payload e :
  let '(r, e') := request http "PUT" path payload e in put_done e (origin http +:+ path) payload r e'.
Proof.
  unfold request. unfold mbind at 1, lift. destruct (check_path path) as [u|x] eqn:Ec.
  2:{ split; [by left|done|]. intros c b [= ->]. unfold check_path in Ec. by apply raise_if_Err in Ec as [_ [=]]. }
  unfold mbind at 1, raise_when, lift, raise_if. destruct (match payload with Some v => negb (finite_val v) | None => false end); [split; [by left|done|done]|].
  unfold mbind at 1. pose proof (index_authorization e) as Ha. pose proof (index_authorization_plain e) as Hp.
  destruct (authorization http e) as [[value|x] e1]; cbn [fst snd] in *.
  2:{ split; [intros u'; left; by rewrite Ha|done|]. intros c b [= ->]. by destruct (Hp c b 409). }
  set (q := {| req_method := "PUT"; req_url := _; req_headers := _; req_data := _ |}). unfold mbind.
  assert (forall u, documents (opener http q e1).2 u = documents e u \/ (documents e u = None /\ u = origin http +:+ path /\ documents (opener http q e1).2 u = payload)) as Hw.
  { intros u'. rewrite <- Ha. exact (index_writes q e1 u' eq_refl). }
  pose proof (index_opener_plain q e1) as Hq. destruct (opener http q e1) as [[answer|x] e2] eqn:Eo; cbn [fst snd] in *.
  2:{ split; [done|done|]. intros c b [= ->]. by destruct (Hq c b 409). }
  split; [done| |].
  - intros reply Hd. apply decode_answer_status in Hd as (rep & -> & Hs). exact (index_created q e1 rep e2 eq_refl Eo Hs).
  - intros c b Hd. apply decode_answer_conflict in Hd as ->. exact (index_conflict q e1 e2 eq_refl Eo).
Qed.
End index.

(** ** What was sent is in the index *)
Section deliveries.
Context {W : Type}.
Variables inference elastic : JsonHTTPS W.
Variable clock : M W Z.
Variable schema_file : string -> option (list Z).
Variable conforms : list Z -> mapping -> bool.
Variable history_fetcher : option (mapping -> M W (list val)).
Variable documents : W -> string -> option val.
Context `{!IndexLaws elastic documents}.
(** The index as the run found it. *)
Variable found : W.

(** The clock, the inference service and the history leave the index as it is. *)
Class BystanderLaws : Prop := {
  clock_reads u d : keeps (fun w => documents w u = d) clock;
  inference_reads method path body u d : keeps (fun w => documents w u = d) (request inference method path body);
  history_reads fetch vector u d : history_fetcher = Some fetch -> keeps (fun w => documents w u = d) (fetch vector);
}.
Context `{!BystanderLaws}.
Notation S := (Enrichment W).

Definition result_url (index id : string) : string := origin elastic +:+ "/" +:+ index +:+ "/_create/" +:+ id.

Lemma result_url_id i1 id1 i2 id2 : is_sha256_text id1 = true -> is_sha256_text id2 = true -> result_url i1 id1 = result_url i2 id2 -> id1 = id2.
Proof.
  unfold result_url, is_sha256_text, str_len. intros H1 H2 E. bool_inv. rewrite <- !app_assoc_str in E. apply str_app_end in E; [done|lia].
Qed.

(** A document under the URL of a result is the result that its job has, or was there before. *)
Definition was_found (url : string) (d : val) : Prop := documents found url = Some d.

Definition results_only (o : Outbox) (w : W) : Prop :=
  forall index id d, is_sha256_text id = true -> documents w (result_url index id) = Some d ->
    was_found (result_url index id) d \/ exists j doc, j ∈ jobs o /\ job_id j = id /\ job_event j = Some doc /\ doc_value doc = d.

(** The document is [d], unless there was another one before. *)
Definition settled (w : W) (ud : string * val) : Prop :=
  documents w ud.1 = Some ud.2 \/ exists other, was_found ud.1 other /\ documents w ud.1 = Some other.

(** The result of the job, as the outbox has it, is in the index of its day under the job's id. *)
Definition event_held (w : W) (j : Job) : Prop :=
  exists d event index, job_event j = Some d /\ doc_value d = VDict event /\ event_index event = Ok index /\
    settled w (result_url index (job_id j), VDict event).

Definition event_object (j : Job) : Prop :=
  forall d, job_event j = Some d -> doc_text d <> "" /\ exists event, doc_value d = VDict event.

Definition job_good (w : W) (j : Job) : Prop := event_object j /\ (job_state_of j = sent -> event_held w j).

Record deliveries_ok (s : S) : Prop := {
  box_ok : outbox_ok (box s);
  jobs_good : Forall (job_good (net s)) (jobs (box s));
  only_results : results_only (box s) (net s) }.

(** With a fact about the outbox, and documents the index is known to hold. *)
Definition known (R : Outbox -> Prop) (U : list (string * val)) (s : S) : Prop :=
  deliveries_ok s /\ R (box s) /\ Forall (settled (net s)) U.

(** A document stays. *)
Definition grown (w w' : W) : Prop := forall u d, documents w u = Some d -> documents w' u = Some d.

Lemma settled_grown w w' ud : grown w w' -> settled w ud -> settled w' ud.
Proof. intros Hg [Hd|(other & H1 & H2)]; [left; by apply Hg|right; exists other; split; [done|by apply Hg]]. Qed.

Lemma jobs_grown w w' l : grown w w' -> Forall (job_good w) l -> Forall (job_good w') l.
Proof.
  intros Hg Hl. eapply Forall_impl; [exact Hl|]. intros j [Ho Hs]. split; [done|]. intros Hsent.
  destruct (Hs Hsent) as (d & event & index & Hd & He & Hi & Hu). exists d, event, index. repeat (split; [done|]). by eapply settled_grown.
Qed.

Lemma net_rule {X} R U (m : M W X) : (forall u d, keeps (fun w => documents w u = d) m) -> keeps (known R U) (in_net m).
Proof.
  intros Hm s ([H1 H2 H3] & HR & HU). unfold in_net. destruct (m (net s)) as [r w] eqn:E.
  assert (forall u, documents w u = documents (net s) u) as Hsame.
  { intros u. specialize (Hm u _ (net s) eq_refl). rewrite E in Hm. by destruct r. }
  assert (grown (net s) w) as Hg by (intros u d; by rewrite Hsame).
  assert (known R U {| box := box s; net := w |}) as Hk; [|by destruct r].
  split; [|split; [done|]]; cbn.
  - split; cbn; [done|by eapply jobs_grown|]. intros index id d Hid. rewrite Hsame. by apply H3.
  - eapply Forall_impl; [exact HU|]. intros ud. by apply settled_grown.
Qed.

Lemma results_only_kept o o' w : results_kept o o' -> results_only o w -> results_only o' w.
Proof.
  intros Hk Ho index id d Hid Hd. destruct (Ho index id d Hid Hd) as [Hf|(j & doc & Hj & Hji & He & Hv)]; [by left|right].
  destruct (Hk j Hj ltac:(congruence)) as (j' & H1 & H2 & H3). exists j', doc. split; [done|]. by rewrite H2, H3.
Qed.

(** An operation on the outbox, checked on any world that holds [U]. *)
Lemma box_rule {X} R U (m : M Outbox X) (Q : X -> Outbox -> Prop) :
  (forall o w, outbox_ok o -> Forall (job_good w) (jobs o) -> R o -> Forall (settled w) U ->
     outbox_ok (m o).2 /\ Forall (job_good w) (jobs (m o).2) /\ results_kept o (m o).2 /\ forall x, (m o).1 = Ok x -> Q x (m o).2) ->
  triple (known R U) (in_box m) (fun x => known (Q x) U) (fun _ => deliveries_ok).
Proof.
  intros Hm s ([H1 H2 H3] & HR & HU). specialize (Hm (box s) (net s) H1 H2 HR HU). unfold in_box.
  destruct (m (box s)) as [[x|e] o']; cbn in *; destruct Hm as (Ha & Hb & Hk & Hc).
  - split; [split; [done|done|by eapply results_only_kept]|]. split; [by apply Hc|done].
  - split; [done|done|by eapply results_only_kept].
Qed.

Lemma save_event_good_jobs id event now o w :
  Forall (job_good w) (jobs o) -> Forall (job_good w) (jobs (save_event id (VDict event) now o).2).
Proof.
  intros Hall. unfold save_event. unfold mbind at 1, lift. destruct (dump (VDict event)) as [doc|e] eqn:E; [|done].
  rewrite ignore_state. apply update_keeps_all; [|done]. intros j _ _ _. apply dump_dict in E as [Et Ev]. split; [|done].
  intros d [= <-]. split; [done|by exists event].
Qed.

Lemma mark_sent_good_jobs id now o w :
  (forall j, j ∈ jobs o -> job_id j = id -> job_state_of j = scored -> event_held w j) ->
  Forall (job_good w) (jobs o) -> Forall (job_good w) (jobs (mark_sent id now o).2).
Proof.
  intros Hh Hall. unfold mark_sent. rewrite ignore_state. apply update_keeps_all; [|done].
  intros j Hj Hs [Ho _]. unfold in_state in Hs. apply andb_true_iff in Hs as [H1 H2]. apply String.eqb_eq in H1.
  apply bool_decide_eq_true in H2. split; [exact Ho|]. intros _.
  destruct (Hh j Hj H1 H2) as (d & event & index & Hd & He & Hi & Hu). by exists d, event, index.
Qed.

Lemma failed_good_jobs id c r now o w :
  outbox_ok o -> Forall (job_good w) (jobs o) -> Forall (job_good w) (jobs (failed id c r now o).2).
Proof.
  intros Hok Hall. unfold failed, mbind at 1, gets. destruct (find_job id o) as [j0|] eqn:Ef; [|done].
  cbv zeta. rewrite ignore_state. apply update_keeps_all; [|done]. intros j Hj Hs [Ho Hh].
  unfold has_id in Hs. apply String.eqb_eq in Hs. apply find_job_elem in Ef as [Hin0 Hid0].
  assert (j = j0) as -> by (apply (ids_unique_elem (jobs o)); [apply Hok|done|done|congruence]).
  split; [exact Ho|]. cbn. destruct r; [|done]. intros Hsent.
  destruct (Hh Hsent) as (d & event & index & Hd & He & Hi & Hu). by exists d, event, index.
Qed.

(** Enqueuing and requeuing send nothing. *)
Lemma enqueue_good_jobs v h now o w : Forall (job_good w) (jobs o) -> Forall (job_good w) (jobs (enqueue v h now o).2).
Proof.
  intros Hall. unfold enqueue, mbind, raise_when, lift, raise_if. destruct (is_sha256_text h); cbn [negb]; [|done].
  destruct (dump v) as [body|e]; [|done].
  match goal with |- context [outbox_transaction ?b o] => destruct (outbox_transaction_cases b o) as [(Hj & _)|(a & o' & Hb & Hj & _)] end; rewrite Hj; [done|].
  destruct (find_job _ o); injection Hb as _ <-; [done|]. cbn. apply Forall_app. split; [done|]. by constructor.
Qed.

Lemma requeue_good_jobs id now o w : Forall (job_good w) (jobs o) -> Forall (job_good w) (jobs (requeue id now o).2).
Proof.
  intros Hall. unfold requeue.
  match goal with |- context [outbox_transaction ?b o] => destruct (outbox_transaction_cases b o) as [(Hj & _)|(a & o' & Hb & Hj & _)] end; rewrite Hj; [done|].
  apply rbind_Ok in Hb as ([l' n] & Hu & Hb). apply raise_seq_Ok in Hb as [_ [= _ <-]]. cbn.
  apply update_jobs_spec in Hu. clear Hj. induction Hu as [|j j' l l' Hj _ IH]; [done|]. apply Forall_cons in Hall as [[H1 H2] Hall]. constructor; [|auto].
  destruct Hj as [[_ ->]|(Hs & -> & _)]; [done|]. split; [exact H1|]. cbn. by destruct (job_event j).
Qed.

(** ** One job *)
Lemma known_ok R U s : known R U s -> deliveries_ok s.
Proof. by intros []. Qed.

Lemma known_step {X Y} R U (m : M S X) (k : X -> M S Y) Q :
  keeps (known R U) m -> (forall x, triple (known R U) (k x) Q (fun _ => deliveries_ok)) ->
  triple (known R U) (mbind m k) Q (fun _ => deliveries_ok).
Proof.
  intros Hm Hk. eapply triple_bind; [|exact Hk]. eapply triple_conseq; [exact Hm|done..|].
  intros e s Hs. exact (known_ok _ _ _ Hs).
Qed.

(** The outbox has [event] as the result of the job. *)
Definition scored_row (j : Job) (event : mapping) (o : Outbox) : Prop :=
  exists k d, k ∈ jobs o /\ job_id k = job_id j /\ job_event k = Some d /\ doc_value d = VDict event.

Lemma clock_known R U : keeps (known R U) (in_net clock).
Proof. apply net_rule, clock_reads. Qed.

Lemma infer_body_known R U vector : keeps (known R U) (infer_body history_fetcher vector).
Proof.
  unfold infer_body. do 3 (apply keeps_bind; [apply keeps_lift|intros ?]). cbv zeta.
  case_eq history_fetcher; [|intros _; apply keeps_ret]. intros fetch Hf. keeps_walk. apply net_rule. intros u d. by apply history_reads.
Qed.

Lemma save_event_rule j event now : job_state_of j = pending ->
  triple (known (fun o => j ∈ jobs o) []) (in_box (save_event (job_id j) (VDict event) now))
    (fun _ => known (scored_row j event) []) (fun _ => deliveries_ok).
Proof.
  intros Hp. apply (box_rule _ _ _ (fun _ => scored_row j event)). intros o w Hok Hall Hj _.
  split; [by apply save_event_good|]. split; [by apply save_event_good_jobs|]. split; [by apply save_event_results|].
  intros u Hu. unfold save_event in Hu |- *. unfold mbind at 1, lift in Hu. unfold mbind at 1, lift.
  destruct (dump (VDict event)) as [doc|e] eqn:Ed; [|done].
  destruct ((let! _ := _ in ret tt) o) as [r o'] eqn:E; cbn in Hu |- *; subst r.
  apply ignore_Ok in E as [n En]. eapply update_changes in En; [|exact Hj|].
  - apply dump_dict in Ed as [_ Ev]. by eexists _, doc.
  - unfold in_state. by rewrite String.eqb_refl, bool_decide_true.
Qed.

Lemma score_job_rule j : job_state_of j = pending ->
  triple (known (fun o => j ∈ jobs o) []) (score_job inference clock schema_file conforms history_fetcher j)
    (fun event => known (scored_row j event) []) (fun _ => deliveries_ok).
Proof.
  intros Hp. unfold score_job. apply known_step; [keeps_walk|intros _].
  destruct (doc_value (job_vector j)) as [| | | | |vector].
  1-5: apply triple_raise; intros s' Hs; exact (known_ok _ _ _ Hs).
  apply known_step; [apply infer_body_known|intros body].
  apply known_step; [apply net_rule, inference_reads|intros answer].
  apply known_step; [keeps_walk|intros _]. apply known_step; [apply clock_known|intros now].
  apply known_step; [keeps_walk|intros event]. unfold reading.
  eapply (triple_bind _ _ _ (fun _ => known (scored_row j event) [])); [|intros _; by apply triple_ret].
  apply known_step; [apply clock_known|intros later]. by apply save_event_rule.
Qed.

(** The result of a job is the one the outbox has, old or new. *)
Lemma job_result_rule j : job_state_of j = pending \/ job_state_of j = scored ->
  triple (known (fun o => j ∈ jobs o) []) (job_result inference clock schema_file conforms history_fetcher j)
    (fun event => known (scored_row j event) []) (fun _ => deliveries_ok).
Proof.
  intros Hst s Hs. destruct (id Hs) as ([Hok Hall] & Hj & _).
  rewrite Forall_forall in Hall. destruct (Hall j Hj) as [Hobj _].
  pose proof (proj1 (Forall_forall _ _) (jobs_ok _ Hok) j Hj) as Hjob. unfold job_result, saved_event.
  destruct (job_event j) as [d|] eqn:Ed.
  - destruct (Hobj d Ed) as [Ht [event Ev]]. apply String.eqb_neq in Ht. rewrite Ht, Ev.
    destruct Hs as (H1 & _ & H2). split; [done|]. split; [|done]. by exists j, d.
  - apply score_job_rule; [|done]. destruct Hst as [|Hsc]; [done|]. by destruct (job_scored_event j Hjob (or_introl Hsc) Ed).
Qed.

(** The creation, from any world: its own result may be new under its own URL, which is then that of
    the job's row; and when it was acknowledged, or refused for what is there, the URL is settled. *)
Lemma put_settles j event index (s : S) r w :
  deliveries_ok s -> scored_row j event (box s) -> put_done documents (net s) (result_url index (job_id j)) (Some (VDict event)) r w ->
  deliveries_ok {| box := box s; net := w |} /\
  ((exists reply, r = Ok (201, reply)) \/ (exists c b, r = Err (DeliveryError c b (Some 409))) -> settled w (result_url index (job_id j), VDict event)).
Proof.
  intros [H1 H2 H3] (k & d & Hk & Hid & Hd & Hv) [Hw Hc Hn]. set (url := result_url index (job_id j)) in *.
  assert (is_sha256_text (job_id j) = true) as Hsha.
  { rewrite <- Hid, (job_identity k (proj1 (Forall_forall _ _) (jobs_ok _ H1) k Hk)). apply sha256_text. }
  assert (grown (net s) w) as Hg by (intros u x Hx; destruct (Hw u) as [->|[Hnone _]]; [done|congruence]).
  assert (results_only (box s) w) as Hro.
  { intros i id x Hi Hx. destruct (Hw (result_url i id)) as [E|(_ & Hu & E)]; [rewrite E in Hx; by apply H3|right].
    rewrite E in Hx. injection Hx as <-. apply result_url_id in Hu as ->; [|done..]. by exists k, d. }
  split; [split; cbn; [done|by eapply jobs_grown|done]|]. intros [(reply & ->)|(c & b & ->)].
  - left. by eapply Hc.
  - destruct (documents w url) as [x|] eqn:Ex; [|by destruct (Hn c b eq_refl)].
    destruct (Hro index (job_id j) x Hsha Ex) as [Hf|(k' & doc & Hk' & Hid' & Hd' & Hv')]; [right; by exists x|left].
    assert (k' = k) as -> by (apply (ids_unique_elem (jobs (box s))); [apply H1|done|done|congruence]). cbn. fold url. congruence.
Qed.

Lemma put_event_rule j index event :
  triple (known (scored_row j event) []) (put_event elastic j index event)
    (fun _ => known (scored_row j event) [(result_url index (job_id j), VDict event)]) (fun _ => deliveries_ok).
Proof.
  intros s (Hok & Hrow & _). unfold put_event, attempt, in_net.
  pose proof (request_put_done elastic documents ("/" +:+ index +:+ "/_create/" +:+ job_id j) (Some (VDict event)) (net s)) as Hp.
  destruct (request elastic "PUT" _ _ (net s)) as [r w]. destruct (put_settles j event index s r w Hok Hrow Hp) as [Hok' Hset].
  assert ((exists reply, r = Ok (201, reply)) \/ (exists c b, r = Err (DeliveryError c b (Some 409))) ->
    known (scored_row j event) [(result_url index (job_id j), VDict event)] {| box := box s; net := w |}) as Hgo.
  { intros Hr. split; [done|]. split; [done|]. constructor; [by apply Hset|constructor]. }
  destruct r as [[status reply]|x].
  - unfold raise_when, lift, raise_if. destruct (status =? 201) eqn:Es; cbn [negb orb]; [|done]. apply Z.eqb_eq in Es as ->.
    destruct (negb _); [done|]. apply Hgo. left. by exists reply.
  - destruct x as [| | | | | | | | | | |c b [status|]| | | | | | | | | | | | | | | | |]; try exact Hok'.
    destruct (Z.eq_dec status 409) as [->|Hne]; [apply Hgo; right; by exists c, b|].
    assert (forall A (a a' : A), match status with 409 => a | _ => a' end = a') as Hm by (intros A a a'; by repeat case_match).
    rewrite Hm. exact Hok'.
Qed.

Lemma deliver_job_rule j : job_state_of j = pending \/ job_state_of j = scored ->
  triple (known (fun o => j ∈ jobs o) []) (deliver_job inference elastic clock schema_file conforms history_fetcher j)
    (fun _ => deliveries_ok) (fun _ => deliveries_ok).
Proof.
  intros Hst. unfold deliver_job. eapply triple_bind; [by apply job_result_rule|intros event].
  destruct (event_index event) as [index|e] eqn:Ei; [|intros s Hs; exact (known_ok _ _ _ Hs)].
  unfold mbind at 1, lift. cbn beta iota. eapply triple_bind; [apply put_event_rule|intros ?].
  unfold reading. apply known_step; [apply clock_known|intros now].
  eapply triple_conseq; [apply (box_rule (scored_row j event) [(result_url index (job_id j), VDict event)] _ (fun _ _ => True))|done| |done].
  - intros o w Hok Hall (k & d & Hk & Hid & Hd & Hv) Hu. apply Forall_cons in Hu as [Hu _].
    split; [by apply mark_sent_good|]. split; [|split; [apply mark_sent_results|done]]. apply mark_sent_good_jobs; [|done]. intros k' Hk' Hid' _.
    assert (k' = k) as -> by (apply (ids_unique_elem (jobs o)); [apply Hok|done|done|congruence]).
    exists d, event, index. by rewrite Hid.
  - intros u s. apply known_ok.
Qed.

Lemma drain_job_rule j : job_state_of j = pending \/ job_state_of j = scored ->
  triple (known (fun o => j ∈ jobs o) []) (drain_job inference elastic clock schema_file conforms history_fetcher j)
    (fun _ => deliveries_ok) (fun _ => deliveries_ok).
Proof.
  intros Hst. unfold drain_job. eapply triple_attempt; [by apply deliver_job_rule|intros u; by apply triple_ret|].
  assert (forall c r, triple deliveries_ok (reading clock (failed (job_id j) c r)) (fun _ => deliveries_ok) (fun _ => deliveries_ok)) as Hf.
  { intros c r. unfold reading. apply (triple_conseq (known (fun _ => True) [])
      _ _ (fun _ => known (fun _ => True) []) _ (fun _ => deliveries_ok)); [|intros s Hs; by split|intros u s; apply known_ok|done].
    apply known_step; [apply clock_known|intros now]. apply (box_rule _ _ _ (fun _ _ => True)).
    intros o w Hok Hall _ _. split; [by apply failed_good|]. split; [by apply failed_good_jobs|]. split; [apply failed_results|done]. }
  intros x. destruct x; first [by apply triple_raise|apply Hf].
Qed.

(** ** A batch *)

(** What one job does leaves the rows of the others alone. *)
Lemma box_other {X} k (m : M Outbox X) : (forall o, k ∈ jobs o -> k ∈ jobs (m o).2) -> keeps (fun s : S => k ∈ jobs (box s)) (in_box m).
Proof. intros Hm s Hs. specialize (Hm (box s) Hs). unfold in_box. by destruct (m (box s)) as [[x|e] o']. Qed.

Lemma net_other {X} k (m : M W X) : keeps (fun s : S => k ∈ jobs (box s)) (in_net m).
Proof. intros s Hs. unfold in_net. by destruct (m (net s)) as [[x|e] w]. Qed.

Lemma save_event_other k id event now o : job_id k <> id -> k ∈ jobs o -> k ∈ jobs (save_event id event now o).2.
Proof.
  intros Hne Hk. unfold save_event. unfold mbind at 1, lift. destruct (dump event); [|done]. rewrite ignore_state.
  apply update_keeps_other; [|done]. unfold in_state. by apply String.eqb_neq in Hne as ->.
Qed.

Lemma mark_sent_other k id now o : job_id k <> id -> k ∈ jobs o -> k ∈ jobs (mark_sent id now o).2.
Proof.
  intros Hne Hk. unfold mark_sent. rewrite ignore_state. apply update_keeps_other; [|done].
  unfold in_state. by apply String.eqb_neq in Hne as ->.
Qed.

Lemma failed_other k id c r now o : job_id k <> id -> k ∈ jobs o -> k ∈ jobs (failed id c r now o).2.
Proof.
  intros Hne Hk. unfold failed, mbind at 1, gets. destruct (find_job id o); [|done]. cbv zeta. rewrite ignore_state.
  apply update_keeps_other; [|done]. unfold has_id. by apply String.eqb_neq.
Qed.

Lemma drain_job_other k j : job_id k <> job_id j ->
  keeps (fun s : S => k ∈ jobs (box s)) (drain_job inference elastic clock schema_file conforms history_fetcher j).
Proof.
  intros Hne. unfold drain_job, deliver_job, job_result, score_job, put_event, infer_body, reading. keeps_walk.
  all: first [apply net_other|apply box_other; intros o Hk].
  all: first [by apply save_event_other|by apply mark_sent_other|by apply failed_other].
Qed.

Definition drains (l : list Job) (s : S) : Prop := deliveries_ok s /\ Forall (fun j => j ∈ jobs (box s)) l.

Lemma drain_batch l : NoDup (map job_id l) -> Forall (fun j => job_state_of j = pending \/ job_state_of j = scored) l ->
  triple (drains l) (mapM_ (drain_job inference elastic clock schema_file conforms history_fetcher) l)
    (fun _ => deliveries_ok) (fun _ => deliveries_ok).
Proof.
  induction l as [|j l IH]; cbn [mapM_ map]; intros Hnd Hst; [apply triple_ret; by intros s []|].
  apply NoDup_cons in Hnd as [Hj Hnd]. apply Forall_cons in Hst as [Hst Hrest].
  eapply (triple_bind _ _ _ (fun _ => drains l)).
  - intros s [Hok Hl]. apply Forall_cons in Hl as [Hin Hl].
    pose proof (drain_job_rule j Hst s (conj Hok (conj Hin (Forall_nil_2 _)))) as Hr.
    assert (Forall (fun k => k ∈ jobs (box (drain_job inference elastic clock schema_file conforms history_fetcher j s).2)) l) as Ho.
    { rewrite Forall_forall in Hl |- *. intros k Hk.
      assert (job_id k <> job_id j) as Hne by (intros E; apply Hj; rewrite <- E; by apply list_elem_of_fmap_2).
      pose proof (drain_job_other k j Hne s (Hl k Hk)) as H1. by destruct (drain_job _ _ _ _ _ _ j s) as [[u|e] s']. }
    destruct (drain_job _ _ _ _ _ _ j s) as [[u|e] s']; [by split|done].
  - intros u. eapply triple_bind; [by apply IH|]. intros us. by apply triple_ret.
Qed.

Lemma due_rows limit now o j : j ∈ due limit now o -> j ∈ jobs o /\ (job_state_of j = pending \/ job_state_of j = scored).
Proof.
  unfold due, limited. intros Hin.
  assert (j ∈ sort_by job_leb (List.filter (is_due_job now) (jobs o))) as Hj.
  { destruct (limit <? 0); [done|]. by eapply subseteq_take. }
  apply sort_by_elem, list_elem_of_In, filter_In in Hj as [Hj Hd]. split; [by apply list_elem_of_In|].
  unfold is_due_job in Hd. apply andb_true_iff in Hd as [Hd _]. by apply orb_true_iff in Hd as [Hd|Hd]; apply bool_decide_eq_true in Hd; auto.
Qed.

Lemma due_ids limit now o : NoDup (map job_id (jobs o)) -> NoDup (map job_id (due limit now o)).
Proof.
  intros Hnd. assert (NoDup (map job_id (sort_by job_leb (List.filter (is_due_job now) (jobs o))))) as Hs.
  { rewrite sort_by_perm. by apply NoDup_map_filter. }
  unfold due, limited. destruct (limit <? 0); [done|]. rewrite <- firstn_map. exact (sublist_NoDup _ _ Hs (sublist_take _ _)).
Qed.

Lemma drain_rule limit : keeps deliveries_ok (drain inference elastic clock schema_file conforms history_fetcher limit).
Proof.
  unfold drain. apply keeps_bind; [apply keeps_raise_when|intros _].
  eapply (triple_bind _ _ _ (fun _ => deliveries_ok)).
  { eapply triple_conseq; [apply (clock_known (fun _ => True) [])|intros s Hs; by split|intros u s; apply known_ok..]. }
  intros now s Hs. unfold mbind at 1, gets at 1.
  pose proof (drain_batch (due limit now (box s)) (due_ids _ _ _ (ids_unique _ (box_ok _ Hs)))) as Hb.
  unfold mbind. specialize (Hb ltac:(apply Forall_forall; intros j Hj; by apply due_rows in Hj as [])  s).
  destruct (mapM_ _ _ s) as [[l|e] s'].
  all: apply Hb; split; [done|]; apply Forall_forall; intros j Hj; by apply due_rows in Hj as [].
Qed.
End deliveries.

(** The node with a record of the hits it has given, in order; the clock gives none. *)
Class ObservedSearch {W : Type} (elastic : JsonHTTPS W) (clock : M W Z) (given : W -> list val) : Prop := {
  search_given index body w : match search elastic index body w with
                              | (Ok hits, w') => given w' = given w ++ hits
                              | (Err _, w') => given w' = given w
                              end;
  clock_given w : given (clock w).2 = given w;
}.

Section pulls.
Context {W : Type}.
Variable elastic : JsonHTTPS W.
Variable clock : M W Z.
Variable schema_file : string -> option (list Z).
Variable conforms : list Z -> mapping -> bool.
Variable given : W -> list val.
Context `{!ObservedSearch elastic clock given}.
Variables (metadata_hash : string) (limit : Z).
Notation S := (Enrichment W).

(** A hit is done with: its vector is no valid one, or is the input of a job. *)
Definition handled (o : Outbox) (hit : val) : Prop :=
  exists vector, get_attr "_source" VNone hit = Ok vector /\
    ((exists e, validate_vector schema_file conforms vector = Err e /\ is_schema_error e = true) \/
     (exists doc, dump vector = Ok doc /\ job_identifier metadata_hash (doc_text doc) ∈ map job_id (jobs o))).

Definition hit_sort (hit : val) : val :=
  match get_attr "sort" VNone hit with
  | Ok v => v
  | Err _ => VNone
  end.

(** The sort values of the last hit that has any. *)
Definition cursor_after (cursor : val) (hits : list val) : val := fold_left (fun last hit => or_val (hit_sort hit) last) hits cursor.

Variables (cursor : val) (meta0 : list (string * document)).

Record taken_ok (taken : list val) (c : pull_counts) (s : S) : Prop := {
  taken_seen : seen c = Z.of_nat (length taken);
  taken_limit : seen c <= limit;
  taken_sum : added c + duplicates c + invalid c = seen c;
  taken_last : last_sort c = cursor_after cursor taken;
  taken_handled : Forall (handled (box s)) taken;
  taken_box : outbox_ok (box s);
  taken_meta : meta (box s) = meta0 }.

Definition at_point (taken g : list val) (s : pull_counts * S) : Prop := taken_ok taken s.1 s.2 /\ given (net s.2) = g.

Lemma handled_more o o' hit : map job_id (jobs o) ⊆ map job_id (jobs o') -> handled o hit -> handled o' hit.
Proof.
  intros Hsub (v & Hv & [H1|(doc & Hd & Hid)]); exists v; (split; [done|]); [by left|right]. exists doc. split; [done|]. by apply Hsub.
Qed.

Lemma cursor_after_snoc taken hit : cursor_after cursor (taken ++ [hit]) = or_val (hit_sort hit) (cursor_after cursor taken).
Proof. unfold cursor_after. by rewrite fold_left_app. Qed.

(** Putting a vector into the outbox: the ids stay, and its own is there afterwards. *)
Lemma enqueue_ids v now o : outbox_ok o ->
  let '(r, o') := enqueue v metadata_hash now o in
  outbox_ok o' /\ meta o' = meta o /\ map job_id (jobs o) ⊆ map job_id (jobs o') /\
  (forall b, r = Ok b -> exists doc, dump v = Ok doc /\ job_identifier metadata_hash (doc_text doc) ∈ map job_id (jobs o')).
Proof.
  intros Ho. pose proof (enqueue_good v metadata_hash now o Ho) as [Hok _]. revert Hok.
  unfold enqueue, mbind, raise_when, lift, raise_if. destruct (is_sha256_text metadata_hash); cbn [negb]; [|by intros ?; repeat (split; [done|])].
  destruct (dump v) as [body|e] eqn:Ed; [|by intros ?; repeat (split; [done|])].
  set (id := job_identifier metadata_hash (doc_text body)).
  match goal with |- context [outbox_transaction ?b o] =>
    pose proof (outbox_transaction_cases b o) as Hc; destruct (outbox_transaction b o) as [r o'] end.
  cbn in Hc |- *. intros Hok. split; [done|]. destruct Hc as [(Hj & Hm & Hr)|(a & o1 & Hb & Hj & Hm & Hr)].
  - rewrite Hj, Hm. split; [done|]. split; [done|]. intros b E. by destruct (Hr b).
  - rewrite Hj, Hm. destruct (find_job id o) as [j|] eqn:Ef; injection Hb as <- <-; cbn; (split; [done|]).
    + split; [done|]. intros b _. exists body. split; [done|]. apply find_job_elem in Ef as [Hin Hid].
      fold id. rewrite <- Hid. by apply list_elem_of_fmap_2.
    + rewrite map_app. split; [set_solver|]. intros b _. exists body. split; [done|]. set_solver.
Qed.

(** One hit. *)
Lemma pull_next_point taken g hit :
  triple (at_point taken g) (pull_next clock schema_file conforms limit metadata_hash hit)
    (fun more => if more : bool then at_point (taken ++ [hit]) g else at_point taken g) (fun _ => at_point taken g).
Proof.
  intros [c s] [Ht Hg]. unfold pull_next. cbn [fst snd] in *. destruct (Z.leb_spec limit (seen c)) as [Hl|Hl]; [by split|].
  unfold pull_hit, mbind, lift. destruct (get_attr "sort" VNone hit) as [sort|e] eqn:Es; [|by split].
  destruct (get_attr "_source" VNone hit) as [vector|e] eqn:Ev; [|by split].
  assert (cursor_after cursor (taken ++ [hit]) = or_val sort (last_sort c)) as Hlast.
  { rewrite cursor_after_snoc, (taken_last _ _ _ Ht). unfold hit_sort. by rewrite Es. }
  destruct Ht as [T1 T2 T3 T4 T5 T6 T7].
  destruct (validate_vector schema_file conforms vector) as [u|e] eqn:Ex.
  - unfold in_net, in_box. pose proof (clock_given (net s)) as Hc. destruct (clock (net s)) as [[now|e] w]; cbn [net box fst snd] in *.
    2:{ split; [by split|exact (eq_trans Hc Hg)]. }
    pose proof (enqueue_ids vector now (box s) T6) as He. destruct (enqueue vector metadata_hash now (box s)) as [[b|e] o'].
    all: destruct He as (He1 & He2 & He3 & He4); (split; [|exact (eq_trans Hc Hg)]); split; cbn; try done; try congruence.
    all: try (eapply Forall_impl; [exact T5|]; intros h; by apply handled_more).
    + rewrite length_app. cbn. lia.
    + lia.
    + destruct b; lia.
    + apply Forall_app. split; [eapply Forall_impl; [exact T5|]; intros h; by apply handled_more|]. constructor; [|constructor].
      exists vector. split; [done|right]. by eapply He4.
  - destruct (is_schema_error e) eqn:Ee; [|by split]. split; [|done]. split; cbn; try done.
    + rewrite length_app. cbn. lia.
    + lia.
    + lia.
    + apply Forall_app. split; [done|]. constructor; [|constructor]. exists vector. split; [done|left]. by exists e.
Qed.

Notation hand_over := (pull_next clock schema_file conforms limit metadata_hash).

(** The hits of a page: the ones before the break, or before the exception, are taken. *)
Lemma yields_point hits n taken g :
  triple (at_point taken g) (yield_hits None hand_over n hits)
    (fun r s => exists k, at_point (taken ++ take k hits) g s /\ (r.2 = true -> take k hits = hits))
    (fun _ s => exists k, at_point (taken ++ take k hits) g s).
Proof.
  revert n taken. induction hits as [|hit hits IH]; intros n taken; cbn [yield_hits].
  - apply triple_ret. intros s Hs. exists 0%nat. by rewrite app_nil_r.
  - eapply triple_bind.
    + unfold yield_hit. eapply (triple_bind _ _ _ (fun _ => at_point taken g)); [by apply triple_lift|intros _].
      eapply triple_conseq; [apply pull_next_point|done| |].
      * intros more s Hs. exact Hs.
      * intros e s Hs. exists 0%nat. by rewrite app_nil_r.
    + intros [|].
      * eapply triple_conseq; [apply (IH (n + 1) (taken ++ [hit]))|done| |].
        -- intros r s (k & Hk & Hr). exists (Datatypes.S k). cbn [take]. split; [|intros E; by rewrite Hr].
           by rewrite <- app_assoc in Hk.
        -- intros e s (k & Hk). exists (Datatypes.S k). cbn [take]. by rewrite <- app_assoc in Hk.
      * apply triple_ret. intros s Hs. exists 0%nat. split; [by rewrite app_nil_r|done].
Qed.

Variable given0 : list val.

(** What was taken is the beginning of what the node has given. *)
Definition taking (taken : list val) (s : pull_counts * S) : Prop := at_point taken (given0 ++ taken) s.
Definition has_taken (s : pull_counts * S) : Prop :=
  exists taken, taken_ok taken s.1 s.2 /\ given0 ++ taken `prefix_of` given (net s.2).

Lemma taking_has_taken taken s : taking taken s -> has_taken s.
Proof. intros [H1 H2]. exists taken. by rewrite H2. Qed.

Lemma page_has_taken taken hits k s : at_point (taken ++ take k hits) (given0 ++ taken ++ hits) s -> has_taken s.
Proof.
  intros [H1 H2]. exists (taken ++ take k hits). split; [exact H1|]. rewrite H2.
  exists (drop k hits). by rewrite <- !app_assoc, take_drop.
Qed.

Lemma pulling_search index body taken :
  triple (taking taken) (pulling (search elastic index body))
    (fun hits => at_point taken (given0 ++ taken ++ hits)) (fun _ => taking taken).
Proof.
  intros [c s] [Ht Hg]. unfold pulling, in_net. cbn [fst snd] in *.
  pose proof (search_given index body (net s)) as Hs. destruct (search elastic index body (net s)) as [[hits|e] w].
  - split; cbn [fst snd net]; [|by rewrite Hs, Hg, <- app_assoc]. by destruct Ht.
  - split; cbn [fst snd net]; [|by rewrite Hs]. by destruct Ht.
Qed.

Lemma pages_taken index query sort source page_size fuel n after taken :
  triple (taking taken) (scan_pages elastic (@pulling W) index query sort source page_size None hand_over fuel n after)
    (fun _ => has_taken) (fun _ => has_taken).
Proof.
  revert n after taken. induction fuel as [|fuel IH]; intros n after taken; cbn [scan_pages].
  - apply triple_ret. apply taking_has_taken.
  - eapply triple_bind; [eapply triple_conseq; [apply pulling_search|done|done|intros e s; apply taking_has_taken]|].
    intros hits. eapply triple_bind; [eapply triple_conseq; [apply yields_point|done| |]|].
    + intros r s Hs. exact Hs.
    + intros e s (k & Hk). by eapply page_has_taken.
    + intros [m more]. cbn [snd]. destruct (negb more || _) eqn:Hend.
      { apply triple_ret. intros s (k & Hk & _). by eapply page_has_taken. }
      assert (more = true) as -> by (destruct more; [done|discriminate]).
      eapply (triple_bind _ _ _ (fun _ => taking (taken ++ hits))).
      * apply triple_lift.
        -- intros a s _ (k & Hk & Hr). rewrite (Hr eq_refl) in Hk. exact Hk.
        -- intros e s _ (k & Hk & _). by eapply page_has_taken.
      * intros next. apply IH.
Qed.

Lemma pull_loop_taken feature_schema after :
  triple (taking []) (pull_loop elastic clock schema_file conforms feature_schema metadata_hash limit after)
    (fun _ => has_taken) (fun _ => has_taken).
Proof.
  unfold pull_loop, scan. eapply (triple_bind _ _ _ (fun _ => taking [])); [|intros _; apply pages_taken].
  apply triple_raise_when; [done|]. intros s _. apply taking_has_taken.
Qed.
End pulls.

(** ** The loop ends *)

Lemma pull_hit_seen {W} (clock : M W Z) schema_file conforms hash c hit (s : Enrichment W) c' s' :
  pull_hit clock schema_file conforms hash c hit s = (Ok c', s') -> seen c' = seen c + 1.
Proof.
  unfold pull_hit, mbind, lift, ret, raise. destruct (get_attr _ _ hit); [|done]. destruct (get_attr _ _ hit) as [v|]; [|done].
  destruct (validate_vector _ _ v) as [u|e]; [|destruct (is_schema_error e); [by intros [= <- _]|done]].
  destruct (in_net clock s) as [[now|e] s1]; [|done]. destruct (in_box _ s1) as [[b|e] s2]; [|done]. by intros [= <- _].
Qed.

(** More fuel than [pull_fuel] changes nothing, and the loop never stops for the lack of it. *)
Lemma pull_loop_ends {W} (elastic : JsonHTTPS W) clock schema_file conforms schema hash limit after cursor s :
  0 < limit -> (pull_loop elastic clock schema_file conforms schema hash limit after (no_counts cursor, s)).1 <> Ok false.
Proof.
  intros Hl. unfold pull_loop, pull_fuel.
  apply (scan_agrees elastic (@pulling W) "soc-features-*" (pull_query schema) pull_sort None (Z.min PULL_PAGE limit) None
    (pull_next clock schema_file conforms limit hash) (fun n s => seen s.1 = n) (fun _ => True) limit) with (more := pull_fuel limit).
  - done.
  - intros n X m [c s'] Hs. unfold pulling, in_net. cbn [fst snd] in *. by destruct (m _) as [[x|e] w].
  - intros n hit [c s'] Hs. unfold yield_hit, pull_next, mbind, raise_when, lift. cbn [fst snd raise_if] in *.
    destruct (Z.leb_spec limit (seen c)); [done|]. destruct (pull_hit _ _ _ _ _ _ _) as [[c'|e] s1] eqn:Eh; [|done].
    cbn [fst]. apply pull_hit_seen in Eh. lia.
  - lia.
  - done.
  - done.
Qed.
