(* ===== verification/DecisionRunner.v ===== *)
(** [response/service/decision_runner.py]: from scored anomalies to decisions and commands.

    The Elasticsearch node, the orchestrator that takes commands and the two clocks are parameters
    over the world [W]; the runner's own state is its private SQLite file: the cursor of the last
    anomaly handled, and the outcome of each. *)

From S2P Require Import Prelude PyText PyNum PyTime PyJson Sha256 Policy Decision AuditLog Effects Store Https Service.

Definition SIGNAL_SLACK : Z := minutes 5.
Definition MAX_SIGNALS_PER_TYPE : nat := 3.
Definition POLICY_BY_TARGET : list (string * string) := [("ip", "COR-001"); ("host", "COR-002")].

(** Suricata counts down from 1, policies count up. *)
Definition _alert_severity (v : val) : result Z := let? n := int_of_val v in Ok (Z.max 0 (4 - n)).

Definition newline : string := str1 (chr 10).
Definition _digest (parts : list string) : string :=
  str_take 24 (hexdigest (sha256 (utf8 (str_join newline (sort_by str_leb parts))))).

(** ** The private ledger *)
Record Outcome : Type := {
  outcome_text : string;
  outcome_decision : option string;
  outcome_detail : string;
  outcome_updated_at : string }.

Record DecisionState : Type := {
  state_cursor : option val;
  decisions : list (string * Outcome);
  state_faults : list fault }.

(** [with self.db: ...]. *)
Definition state_write (f : DecisionState -> DecisionState) : M DecisionState unit := fun s =>
  let next t := {| state_cursor := state_cursor t; decisions := decisions t; state_faults := tl (state_faults s) |} in
  match hd CommitOk (state_faults s) with
  | CommitOk => (Ok tt, next (f s))
  | CommitLost => (Err (OperationalError "commit failed"), next s)
  | CommitAmbiguous => (Err (OperationalError "commit outcome unknown"), next (f s))
  end.

(** An absent cursor and a stored [null] both read as none. *)
Definition cursor (s : DecisionState) : option val :=
  match state_cursor s with
  | Some VNone | None => None
  | c => c
  end.

Definition set_cursor (value : val) : M DecisionState unit :=
  state_write (fun s => {| state_cursor := Some value; decisions := decisions s; state_faults := state_faults s |}).

Definition record_outcome (anomaly_id outcome : string) (decision_event_id : option string) (detail : string) (now : Z) :
    M DecisionState unit :=
  state_write (fun s => {| state_cursor := state_cursor s;
    decisions := assoc_set anomaly_id {| outcome_text := outcome; outcome_decision := decision_event_id;
      outcome_detail := str_take 500 detail; outcome_updated_at := soc_rfc3339 now |} (decisions s);
    state_faults := state_faults s |}).

(** [SELECT outcome, COUNT( * ) ... GROUP BY outcome]. *)
Definition counts (s : DecisionState) : list (string * Z) :=
  fold_left (fun acc row => assoc_set (outcome_text row.2) (default 0 (assoc (outcome_text row.2) acc) + 1) acc) (decisions s) [].

(** ** Reading documents *)

(** [_dig], along the parts of the dotted path. *)
Fixpoint _dig (path : list string) (document : val) : val :=
  match path with
  | [] => document
  | part :: rest =>
      match document with
      | VDict d => match assoc part d with Some v => _dig rest v | None => VNone end
      | _ => VNone
      end
  end.

Definition EVENT_ID : list string := ["event"; "id"].
Definition EVENT_SEVERITY : list string := ["event"; "severity"].
Definition ALERT_SEVERITY : list string := ["alert"; "severity"].

Definition is_none (v : val) : bool := match v with VNone => true | _ => false end.

(** [int(v or 0)]. *)
Definition severity_of (document : val) : result Z :=
  let v := _dig EVENT_SEVERITY document in int_of_val (if truthy v then v else VInt 0).

(** [str(document["@timestamp"])]. *)
Definition stamp_of (document : val) : result string := let? v := subscript "@timestamp" document in Ok (str_val v).

(** [max] of texts, and of numbers, of a list that is not empty. *)
Definition max_text (l : list string) : string := fold_left (fun a b => if str_leb a b then b else a) l (hd "" l).
Definition max_int (l : list Z) : Z := fold_left Z.max l (hd 0 l).

(** [sorted(l, key=key)]: every key is computed first; the sort is stable. *)
Definition sorted_by (key : val -> result Z) (l : list val) : result (list val) :=
  let? keyed := mapR (fun v => let? k := key v in Ok (k, v)) l in
  Ok (map snd (sort_by (fun a b => a.1 <=? b.1) keyed)).

Definition signal (target : target) (kind reference observed : string) (extra : mapping) : val :=
  VDict ([("type", VStr kind); ("reference", VStr reference); ("observed_at", VStr observed); ("target", target_val target)] ++ extra).

Definition suricata_signals (t : target) (alerts : list val) : result (list val) :=
  let? ranked := sorted_by (fun a => int_of_val (_dig ALERT_SEVERITY a)) (List.filter (fun a => negb (is_none (_dig ALERT_SEVERITY a))) alerts) in
  mapR (fun a =>
    let? stamp := stamp_of a in
    let? severity := _alert_severity (_dig ALERT_SEVERITY a) in
    Ok (signal t "suricata" (str_val (_dig EVENT_ID a)) stamp [("severity", VInt severity)])) (take MAX_SIGNALS_PER_TYPE ranked).

(** All the interactions with a honeypot are one signal. *)
Definition honeypot_signals (t : target) (hits : list val) : result (list val) :=
  match hits with
  | [] => Ok []
  | _ =>
      let ids := map (fun h => str_val (_dig EVENT_ID h)) hits in
      let? severities := mapR severity_of hits in
      let? stamps := mapR stamp_of hits in
      Ok [signal t "honeypot" ("honeypot:" +:+ _digest ids) (max_text stamps)
            [("severity", VInt (max_int severities)); ("count", VInt (Z.of_nat (length ids)))]]
  end.

Definition wazuh_signals (t : target) (alerts : list val) : result (list val) :=
  let? ranked := sorted_by (fun a => let? n := severity_of a in Ok (- n)) alerts in
  mapR (fun a =>
    let? stamp := stamp_of a in
    let? severity := int_of_val (_dig EVENT_SEVERITY a) in
    Ok (signal t "wazuh" (str_val (_dig EVENT_ID a)) stamp [("severity", VInt severity)]))
    (List.filter (fun a => negb (is_none (_dig EVENT_SEVERITY a))) (take MAX_SIGNALS_PER_TYPE ranked)).

Definition failure_signals (t : target) (hits : list val) : result (list val) :=
  match hits with
  | [] => Ok []
  | _ =>
      let? sources := mapR (subscript "_source") hits in
      let ids := map (fun s => str_val (_dig EVENT_ID s)) sources in
      let? stamps := mapR stamp_of sources in
      Ok [signal t "authentication" ("auth-failures:" +:+ _digest ids) (max_text stamps) [("count", VInt (Z.of_nat (length ids)))]]
  end.

(** [{"range": {"@timestamp": {"gte": start, "lt": end}}}], and [{"term": {field: value}}]. *)
Definition time_range (start finish : Z) : val :=
  VDict [("range", VDict [("@timestamp", VDict [("gte", VStr (soc_rfc3339 start)); ("lt", VStr (soc_rfc3339 finish))])])].
Definition term (field value : string) : val := VDict [("term", VDict [(field, VStr value)])].

Definition query_body (size : Z) (filters : list val) (source : list string) : mapping :=
  [("size", VInt size); ("sort", VList [VDict [("@timestamp", VStr "asc")]]);
   ("query", VDict [("bool", VDict [("filter", VList filters)])]); ("_source", VList (map VStr source))].

(** Would-be requests are shown to analysts instead. *)
Definition _observe_event (event : val) : result val :=
  match event with
  | VDict d =>
      let? decision := item "decision" d in
      match decision with
      | VDict dec =>
          let dec := assoc_set "outcome" (VStr "alert") dec in
          let dec := assoc_set "action" (VStr "none") dec in
          let dec := assoc_set "automatic_response_eligible" (VBool false) dec in
          let dec := assoc_set "reason" (VStr "observe mode: eligible for automatic response, which is disabled") dec in
          Ok (VDict (assoc_set "decision" (VDict (assoc_del "response_request_id" dec)) d))
      | _ => Err (AttributeError "update")
      end
  | _ => Err (TypeError "indices must be integers")
  end.

(** The target an anomaly's feature vector names; [{}] stands for an absent vector. *)
Definition _target (vector : val) : result (option target) :=
  let? kind := get_attr "entity_type" VNone vector in
  let? entity := get_attr "entity" VNone vector in
  let name := str_val kind in
  let ty := if String.eqb name "src_ip" then Some "ip" else if String.eqb name "host" then Some "host" else None in
  Ok match ty, entity with
     | Some ty, VStr value => if String.eqb value "" then None else Some {| target_type := ty; target_value := value |}
     | _, _ => None
     end.

(** [parse_rfc3339(v)] of the workers. *)
Definition instant_of_val (v : val) : result Z :=
  match v with
  | VStr s => soc_parse_rfc3339 s
  | _ => Err (AttributeError "replace")
  end.

Record Runner (W : Type) : Type := { state : DecisionState; outside_world : W }.
Arguments state {W}.
Arguments outside_world {W}.

Section runner.
Context {W A : Type} `{!CommandAuthenticator A}.
Variable elastic : JsonHTTPS W.
Variable engine : DecisionEngine A.
Variable mode : service_mode.
Variable send_command : mapping -> M W unit.
Variable min_score : SpecFloat.spec_float.
Variables protected_assets threat_intel : list string.
Variable policy_by_target : list (string * string).
(** The clock of the constructor, and the one of the module. *)
Variables clock utc_now : M W Z.
Notation R := (Runner W).

Definition in_state {X} (m : M DecisionState X) : M R X :=
  fun s => let '(r, d) := m (state s) in (r, {| state := d; outside_world := outside_world s |}).
Definition in_world {X} (m : M W X) : M R X :=
  fun s => let '(r, w) := m (outside_world s) in (r, {| state := state s; outside_world := w |}).

Definition record (anomaly_id outcome : string) (decision_event_id : option string) (detail : string) : M R unit :=
  let! now := in_world utc_now in in_state (record_outcome anomaly_id outcome decision_event_id detail now).

(** ** Evidence *)
Definition _alerts (dataset field value : string) (start finish : Z) : M W (list val) :=
  let! hits := search elastic "soc-alerts-*" (query_body 50
    [term "event.dataset" dataset; term field value; time_range start finish]
    ["@timestamp"; "event.id"; "event.severity"; "alert.severity"; "host.name"; "source.ip"]) in
  let! sources := lift (mapR (get_attr "_source" VNone) hits) in
  ret (List.filter (fun v => match v with VDict _ => true | _ => false end) sources).

Definition intel_hash : string := match threat_intel with [] => "" | _ => _digest threat_intel end.

Definition intel_signals (t : target) (finish : Z) : list val :=
  if str_in (target_value t) threat_intel
  then [signal t "threat_intel" ("intel:" +:+ str_take 12 intel_hash +:+ ":" +:+ target_value t) (soc_rfc3339 finish) []]
  else [].

Definition asset_signals (t : target) (start finish : Z) : M W (list val) :=
  if String.eqb (target_type t) "ip" && negb (Nat.eqb (length protected_assets) 0) then
    let! flows := search elastic "soc-network-*" (query_body 50
      [term "source.ip" (target_value t);
       VDict [("terms", VDict [("destination.ip", VList (map VStr (sort_by str_leb protected_assets)))])];
       time_range start finish] ["destination.ip"; "@timestamp"]) in
    match flows with
    | [] => ret []
    | flow :: _ =>
        let! source := lift (subscript "_source" flow) in
        let asset := str_val (_dig ["destination"; "ip"] source) in
        ret [signal t "protected_asset" ("asset:" +:+ asset +:+ ":" +:+ soc_rfc3339 finish) (soc_rfc3339 finish) []]
    end
  else ret [].

(** The alerts on an address, or on a host, and where its authentications are found. *)
Definition alert_signals (t : target) (start finish : Z) : M W (list val * list val * (string * list val)) :=
  if String.eqb (target_type t) "ip" then
    let! suricata := _alerts "suricata.eve" "source.ip" (target_value t) start finish in
    let! first := lift (suricata_signals t suricata) in
    let! wazuh := _alerts "wazuh.alerts" "source.ip" (target_value t) start finish in
    let! honeypot := _alerts "cowrie.honeypot" "source.ip" (target_value t) start finish in
    let! second := lift (honeypot_signals t honeypot) in
    ret (first ++ second, wazuh, ("soc-auth-*", [term "source.ip" (target_value t)]))
  else
    let! wazuh := _alerts "wazuh.alerts" "host.name" (target_value t) start finish in
    ret ([], wazuh, ("soc-endpoint-*", [term "host.name" (target_value t); term "event.category" "authentication"])).

Definition _signals (t : target) (window_start window_end : Z) : M W (list val) :=
  let! start := lift (shift window_start (- SIGNAL_SLACK)) in
  let! finish := lift (shift window_end SIGNAL_SLACK) in
  let! '(alerts, wazuh, (auth_index, auth_filter)) := alert_signals t start finish in
  let! second := lift (wazuh_signals t wazuh) in
  let! failures := search elastic auth_index (query_body 500
    (auth_filter ++ [term "event.outcome" "failure"; time_range start finish]) ["@timestamp"; "event.id"]) in
  let! third := lift (failure_signals t failures) in
  let! last := asset_signals t window_start window_end in
  ret (alerts ++ second ++ third ++ intel_signals t window_end ++ last).

(** ** Deciding *)
Definition _write_decision (event : val) : M W unit :=
  let! stamp := lift (subscript "@timestamp" event) in
  let! day := lift (instant_of_val stamp) in
  let! outer := lift (subscript "event" event) in
  let! id := lift (subscript "id" outer) in
  match id with
  | VStr doc_id => let! _ := create elastic ("soc-response-" +:+ strftime_ymd day) doc_id event in ret tt
  | _ => raise (TypeError "quote_from_bytes() expected bytes")
  end.

(** The anomaly as the engine reads it. *)
Definition anomaly_of (anomaly_id : string) (ai : val) (t : target) (window_end : Z) : result val :=
  let? model := get_attr "model_id" VNone ai in
  let? score := get_attr "score" VNone ai in
  let? threshold := get_attr "threshold" VNone ai in
  let? is_anomaly := get_attr "is_anomaly" VNone ai in
  Ok (VDict [("event_id", VStr anomaly_id); ("model_id", model); ("score", score); ("threshold", threshold);
    ("is_anomaly", is_anomaly); ("observed_at", VStr (soc_rfc3339 window_end)); ("target", target_val t)]).

Definition judge (policy_id anomaly_id : string) (an : val) (t : target) (window_start window_end : Z) : M R DecisionResult :=
  let! signals := in_world (_signals t window_start window_end) in
  let! now := in_world clock in
  lift (evaluate engine now policy_id an (VList signals) (target_val t) (Some (Aware now)) VNone).

(** [event[outer][inner]], a text. *)
Definition text_at (outer inner : string) (event : val) : result string :=
  let? o := subscript outer event in
  let? v := subscript inner o in
  Ok (str_val v).

(** The verdict is written before the command leaves, and its outcome recorded last. *)
Definition act_on (anomaly_id : string) (result : DecisionResult) (event : val) : M R unit :=
  if eligible result && bool_decide (mode = enforce) then
    in_world (_write_decision event) ;;!
    in_world (send_command (default [] (command result))) ;;!
    let! id := lift (text_at "event" "id" event) in
    record anomaly_id "response_requested" (Some id) ""
  else
    let! event := lift (if eligible result then _observe_event event else Ok event) in
    in_world (_write_decision event) ;;!
    let! outcome := lift (text_at "decision" "outcome" event) in
    let! id := lift (text_at "event" "id" event) in
    record anomaly_id outcome (Some id) (reason result).

Definition or_empty (v : val) : val := if truthy v then v else VDict [].

(** One anomaly; [false] means: retry later. *)
Definition handle (anomaly_doc : val) : M R bool :=
  let anomaly_id := str_val (_dig EVENT_ID anomaly_doc) in
  let! vector := lift (get_attr "feature_vector" VNone anomaly_doc) in
  let! ai := lift (get_attr "ai" VNone anomaly_doc) in
  let vector := or_empty vector in
  let ai := or_empty ai in
  let! target := lift (_target vector) in
  match target with
  | None => record anomaly_id "unsupported_entity" None "" ;;! ret true
  | Some t =>
      match assoc (target_type t) policy_by_target with
      | None => record anomaly_id "no_policy" None "" ;;! ret true
      | Some policy_id =>
          let! first := lift (subscript "window_start" vector) in
          let! window_start := lift (instant_of_val first) in
          let! second := lift (subscript "window_end" vector) in
          let! window_end := lift (instant_of_val second) in
          let! an := lift (anomaly_of anomaly_id ai t window_end) in
          attempt (judge policy_id anomaly_id an t window_start window_end) (fun r =>
            match r with
            | Err (DeliveryError error_code retryable status) =>
                if retryable then ret false
                else record anomaly_id "evidence_error" None error_code ;;! ret true
            | Err (CorrelationRejected m) | Err (PolicyError m) => record anomaly_id "rejected" None m ;;! ret true
            | Err e => raise e
            | Ok result =>
                match decision_event result with
                | None => record anomaly_id "anomaly_only" None (reason result) ;;! ret true
                | Some event =>
                    attempt (act_on anomaly_id result event) (fun r =>
                      match r with
                      | Err (DeliveryError error_code retryable status) =>
                          if retryable then ret false
                          else record anomaly_id "delivery_failed" None error_code ;;! ret true
                      | Err e => raise e
                      | Ok _ => ret true
                      end)
                end
            end)
      end
  end.

(** ** One run *)
Definition anomaly_query (limit : Z) (after : option val) : mapping :=
  [("size", VInt limit);
   ("sort", VList [VDict [("@timestamp", VStr "asc")]; VDict [("event.id", VStr "asc")]]);
   ("query", VDict [("bool", VDict [("filter", VList
      [VDict [("term", VDict [("ai.is_anomaly", VBool true)])];
       VDict [("range", VDict [("ai.score", VDict [("gte", VFloat min_score)])])]])])])]
  ++ (match after with
      | Some v => if truthy v then [("search_after", v)] else []
      | None => []
      end).

(** Nothing after a failure to be retried is looked at. *)
Fixpoint handle_hits (hits : list val) (processed : Z) : M R (Z * Z) :=
  match hits with
  | [] => ret (processed, 0)
  | hit :: rest =>
      let! source := lift (subscript "_source" hit) in
      let! done_ := handle source in
      if negb done_ then ret (processed, 1)
      else
        let! sort := lift (subscript "sort" hit) in
        in_state (set_cursor sort) ;;! handle_hits rest (processed + 1)
  end.

Definition run_once (limit : Z) : M R (Z * Z) :=
  let! after := gets (fun s => cursor (state s)) in
  let! hits := in_world (search elastic "soc-ai-*" (anomaly_query limit after)) in
  handle_hits hits 0.
End runner.

(** [__init__]: who may run. *)
Definition decision_runner_checks (mode : string) (has_sender : bool) : result service_mode :=
  let? m := mode_of mode in
  raise_if (bool_decide (m = enforce) && negb has_sender) (ValueError "enforce mode needs an orchestrator sender") ;;?
  Ok m.
