(* ===== verification/ServiceConfig.v ===== *)
(** [response/service/config.py]: the closed configurations of the two services, and the adapters
    they ask for.

    A document is what [yaml.safe_load] gives; the clients over certificate, key and database files
    are parameters of [build_adapters]. *)

From S2P Require Import Prelude PyText PyNum PyTime PyJson Policy Decision AuditLog Effects Adapters Blocklist Service.

(** [sorted(s)] of a set of keys, as a list literal. *)
Definition key_list (l : list string) : string := py_repr_list (sort_by str_leb l).

Definition _closed (value : val) (required optional : list string) (label : string) : result mapping :=
  match value with
  | VDict d =>
      let missing := keys_minus required (keys d) in
      let unknown := keys_minus (keys_minus (keys d) required) optional in
      raise_if (negb (Nat.eqb (length missing) 0) || negb (Nat.eqb (length unknown) 0))
        (ConfigError (label +:+ ": missing=" +:+ key_list missing +:+ " unknown=" +:+ key_list unknown)) ;;?
      Ok d
  | _ => Err (ConfigError (label +:+ " must be a mapping"))
  end.

(** Reading and parsing a file: a document, what the [except] clause names, or another exception. *)
Inductive yaml_file : Type :=
| YamlDocument (v : val)
| YamlUnreadable
| YamlRaised (e : exn).

Definition load_yaml (file : yaml_file) (path : string) : result mapping :=
  match file with
  | YamlDocument (VDict d) => Ok d
  | YamlDocument _ => Err (ConfigError "configuration must be a mapping")
  | YamlUnreadable => Err (ConfigError ("cannot read configuration " +:+ path))
  | YamlRaised e => Err e
  end.

Definition _elastic (value : val) : result mapping := _closed value ["url"; "ca"; "api_key_file"] [] "elasticsearch".

(** [v in {...}] of texts: lists and mappings cannot be looked up. *)
Definition in_texts (v : val) (l : list string) : result bool :=
  match v with
  | VStr s => Ok (str_in s l)
  | VList _ => Err (TypeError "unhashable type: 'list'")
  | VDict _ => Err (TypeError "unhashable type: 'dict'")
  | _ => Ok false
  end.

(** The operator's [SOC_MODE], when it is not blank, or the committed mode. *)
Definition _effective_mode (cfg : mapping) (environ : list (string * string)) : result val :=
  let override := strip (default "" (assoc "SOC_MODE" environ)) in
  let? mode := if String.eqb override "" then item "mode" cfg else Ok (VStr override) in
  let? known := in_texts mode ["observe"; "enforce"] in
  raise_if (negb known) (ConfigError "mode must be observe or enforce") ;;?
  Ok mode.

Definition peer_fields (backend : string) : list string :=
  if String.eqb backend "nftables" then ["name"; "url"; "ca"; "client_cert"; "client_key"]
  else if String.eqb backend "vyos" then ["name"; "url"; "ca"; "api_key_file"]
  else ["name"; "url"; "ca"; "credentials_file"].

(** [type(v) is int and low <= v <= high]. *)
Definition int_between (low high : Z) (v : val) : bool :=
  match v with
  | VNum (PInt n) => (low <=? n) && (n <=? high)
  | _ => false
  end.

Definition check_firewall (value : val) : result mapping :=
  let? firewall := _closed value ["backend"; "peers"] [] "firewall" in
  let? backend := item "backend" firewall in
  let? known := in_texts backend ["nftables"; "vyos"; "opnsense"] in
  raise_if (negb known) (ConfigError "firewall backend must be nftables, vyos or opnsense") ;;?
  let? peers := item "peers" firewall in
  match peers with
  | VList l =>
      raise_if (length l <? 2)%nat (ConfigError "at least two firewall peers are required") ;;?
      let? _ := mapR (fun peer => _closed peer (peer_fields (str_val backend)) [] "firewall peer") l in
      Ok firewall
  | _ => Err (ConfigError "at least two firewall peers are required")
  end.

Definition response_required : list string :=
  ["schema_version"; "mode"; "state_dir"; "policy_file"; "verify_keys_dir"; "elasticsearch"; "listen"; "firewall"].

Definition parse_response_service (document : val) (environ : list (string * string)) : result mapping :=
  let? cfg := _closed document response_required ["wazuh"; "tick_seconds"] "response service" in
  raise_if (negb (py_eq (get "schema_version" cfg) (VStr "response-service-v1"))) (ConfigError "unsupported response service schema") ;;?
  let? mode := _effective_mode cfg environ in
  let cfg := assoc_set "mode" mode cfg in
  let? _ := _elastic (get "elasticsearch" cfg) in
  let? _ := _closed (get "listen" cfg) ["host"; "port"; "cert"; "key"; "client_ca"] [] "listen" in
  let? _ := check_firewall (get "firewall" cfg) in
  let? _ := match assoc "wazuh" cfg with
            | Some w => _closed w ["url"; "ca"; "credentials_file"] [] "wazuh"
            | None => Ok []
            end in
  raise_if (negb (int_between 2 300 (default (VInt 10) (assoc "tick_seconds" cfg))))
    (ConfigError "tick_seconds must be an integer between 2 and 300") ;;?
  Ok cfg.

Definition decision_required : list string :=
  ["schema_version"; "mode"; "state_dir"; "policy_file"; "signing_key_file"; "signing_key_id"; "elasticsearch"].

(** The literal [0.90]. *)
Definition NINE_TENTHS : SpecFloat.spec_float := dec_to_float 9 (-1).

Definition score_in_range (v : val) : bool :=
  match v with
  | VNum n => num_leb (PFloat NINE_TENTHS) n && num_leb n (PInt 1)
  | _ => false
  end.

Definition parse_decision_service (document : val) (environ : list (string * string)) : result mapping :=
  let? cfg := _closed document decision_required ["orchestrator"; "protected_assets"; "threat_intel_file"; "poll_seconds"; "min_score"]
    "decision service" in
  raise_if (negb (py_eq (get "schema_version" cfg) (VStr "decision-service-v1"))) (ConfigError "unsupported decision service schema") ;;?
  let? mode := _effective_mode cfg environ in
  let cfg := assoc_set "mode" mode cfg in
  let? _ := _elastic (get "elasticsearch" cfg) in
  let? _ := (if py_eq mode (VStr "enforce")
             then _closed (get "orchestrator" cfg) ["url"; "ca"; "client_cert"; "client_key"] [] "orchestrator"
             else Ok []) in
  raise_if (negb (int_between 5 600 (default (VInt 15) (assoc "poll_seconds" cfg))))
    (ConfigError "poll_seconds must be an integer between 5 and 600") ;;?
  raise_if (negb (score_in_range (default (VFloat NINE_TENTHS) (assoc "min_score" cfg))))
    (ConfigError "min_score must be between 0.90 and 1") ;;?
  Ok cfg.

(** ** The adapters *)
Section adapters.
Context {W : Type}.

(** [UnavailableAdapter]. *)
Definition unavailable_outcome (action : string) : AdapterOutcome :=
  outcome_failure "BACKEND_NOT_CONFIGURED" (action +:+ " has no configured backend") [].

Definition unavailable_adapter (name action : string) : ContainmentAdapter W :=
  {| adapter_name := name; adapter_action := action;
     recovery_reference := fun c => Ok (Some (name +:+ ":unconfigured:" +:+ idempotency_key c));
     adapter_apply := fun _ => ret (Outcome (unavailable_outcome action));
     adapter_verify := fun _ _ => ret (Outcome (unavailable_outcome action));
     adapter_revert := fun _ reference => ret (Outcome (outcome_success reference ["unconfigured:noop"])) |}.

(** The clients of a peer's transport and ownership registry, and of a Wazuh manager. *)
Variable open_peer : string -> mapping -> result (BlocklistClient W).
Variable open_wazuh : mapping -> result (WazuhControlledResponseClient W).

(** A name that is not a text is used through its text. *)
Definition build_peer (backend : string) (peer : val) : result (BlocklistPeer W) :=
  match peer with
  | VDict d =>
      let? client := open_peer backend d in
      let? name := item "name" d in
      Ok {| peer_name := str_val name; peer_client := client |}
  | _ => Err (TypeError "indices must be integers")
  end.

Definition build_blocklist (backend : string) (peers : list (BlocklistPeer W)) : result (BlocklistAdapter W) :=
  if String.eqb backend "nftables" then nftables_blocklist_adapter peers
  else if String.eqb backend "vyos" then vyos_blocklist_adapter peers
  else match peers with
       | [primary; secondary] => opnsense_blocklist_adapter primary secondary
       | _ => Err (ConfigError "OPNsense HA requires exactly two peers")
       end.

Definition build_endpoint (cfg : mapping) : result (ContainmentAdapter W) :=
  match assoc "wazuh" cfg with
  | Some (VDict wazuh) => let? client := open_wazuh wazuh in Ok (wazuh_containment client)
  | Some _ => Err (TypeError "indices must be integers")
  | None => Ok (unavailable_adapter "wazuh" "isolate_host")
  end.

Definition build_adapters (cfg : mapping) : result (list (ContainmentAdapter W)) :=
  let? firewall := item "firewall" cfg in
  let? peers := subscript "peers" firewall in
  let? backend := subscript "backend" firewall in
  let? items := py_iter peers in
  let? clients := mapR (build_peer (str_val backend)) items in
  let? b := build_blocklist (str_val backend) clients in
  let? endpoint := build_endpoint cfg in
  Ok [blocklist_containment b; endpoint].
End adapters.
