(* ===== verification/Deploy.v ===== *)
(** What is rendered for Path C ([scripts/render_k8s_runtime_config.py], [render_k8s_runtime_secrets.py]) and
    the checks of the container images ([scripts/check_image_lock.py], [verify_image_platforms.py]).

    The settings file is read through its text, certificates and keys through [file], [git] and [docker]
    are what they answer.  [yaml.dump] prints the documents and is outside. *)

From S2P Require Import Prelude PyText PyNum PyTime PyJson JsonText Sha256 Policy Compliance Fabric PyRe.

(** * [render_k8s_runtime_config.py] *)
Definition alnum : re := Over is_alnum.
Definition alnum_or_dash : re := Over (fun a => is_alnum a || Ascii.eqb a "-").

(** [[A-Za-z0-9](?:[A-Za-z0-9-]{0,61}[A-Za-z0-9])?]. *)
Definition label_re : re := Cat alnum (opt (Cat (up_to 61 alnum_or_dash) alnum)).
Definition DOMAIN_RE : re :=
  cats [Ahead (cats [any; up_to 252 any; Finish]); some (Cat label_re (lit ".")); label_re].

Definition setting (key otherwise : string) (values : list (string * string)) : string := default otherwise (assoc key values).

(** [settings()] over what [parse_dotenv] reads of [.env]. *)
Definition runtime_settings (env : option string) : result (list (string * string)) :=
  match env with
  | None => Err (ValueError ".env is missing; run make secrets")
  | Some text =>
      let? values := parse_dotenv ".env" text in
      let domain := py_lower (strip (setting "ORG_DOMAIN" "companyxyz.lab" values)) in
      raise_if (negb (matched (re_fullmatch DOMAIN_RE domain))) (ValueError ("ORG_DOMAIN is not a valid DNS domain: " +:+ py_repr domain)) ;;?
      let? numbers := try_except
        (let? port := int_of_text (setting "WG_SERVER_PORT" "51820" values) in
         let? peers := int_of_text (setting "WG_PEER_COUNT" "4" values) in Ok (port, peers))
        is_value_error (fun _ => Err (ValueError "WG_SERVER_PORT and WG_PEER_COUNT must be integers")) in
      let '(port, peers) := numbers in
      raise_if (negb ((1 <=? port) && (port <=? 65535))) (ValueError "WG_SERVER_PORT must be between 1 and 65535") ;;?
      raise_if (negb ((1 <=? peers) && (peers <=? 64))) (ValueError "WG_PEER_COUNT must be between 1 and 64") ;;?
      let endpoint := strip (setting "WG_ENDPOINT" "auto" values) in
      let endpoint := if String.eqb endpoint "" then "auto" else endpoint in
      raise_if (negb (str_forallb (fun a => negb (is_space a)) endpoint)) (ValueError "WG_ENDPOINT must not contain whitespace") ;;?
      Ok [("ORG_DOMAIN", domain); ("AUTHENTIK_BASE_URL", "https://sso." +:+ domain); ("AUTHENTIK_APP_URL", "https://app." +:+ domain);
          ("AUTHENTIK_SSO_URL", "https://sso." +:+ domain); ("WG_SERVER_PORT", str_of_Z port); ("WG_PEER_COUNT", str_of_Z peers);
          ("WG_ENDPOINT", endpoint)]
  end.

(** [s.removeprefix(p)]. *)
Definition remove_prefix (p s : string) : string := if starts_with p s then str_skip (String.length p) s else s.

Definition host_rule (host : string) : string := "Host(`" +:+ host +:+ "`)".

(** The lines of the file-provider configuration; [values] are the settings. *)
Definition traefik_dynamic (values : list (string * string)) : result string :=
  let? app := item "AUTHENTIK_APP_URL" (map (fun kv => (kv.1, VStr kv.2)) values) in
  let? sso := item "AUTHENTIK_SSO_URL" (map (fun kv => (kv.1, VStr kv.2)) values) in
  let app_host := remove_prefix "https://" (str_val app) in
  let sso_host := remove_prefix "https://" (str_val sso) in
  let rule text := "      rule: " +:+ str1 dquote +:+ text +:+ str1 dquote in
  Ok (concat_str (map (fun line => line +:+ newline)
  ["http:";
   "  routers:";
   "    authentik:";
   "      entryPoints: [websecure]";
   rule (host_rule sso_host);
   "      service: authentik";
   "      tls: {}";
   "    ztna-outpost:";
   "      entryPoints: [websecure]";
   rule (host_rule app_host +:+ " && PathPrefix(`/outpost.goauthentik.io/`)");
   "      priority: 100";
   "      service: authentik";
   "      tls: {}";
   "    ztna-demo:";
   "      entryPoints: [websecure]";
   rule (host_rule app_host);
   "      middlewares: [authentik-forwardauth]";
   "      service: ztna-demo";
   "      tls: {}";
   "  middlewares:";
   "    authentik-forwardauth:";
   "      forwardAuth:";
   "        address: http://authentik-server.cxyz-security.svc.cluster.local:9000/outpost.goauthentik.io/auth/traefik";
   "        trustForwardHeader: false";
   "        maxResponseBodySize: 4194304";
   "        authResponseHeaders:";
   "          - X-authentik-username";
   "          - X-authentik-groups";
   "          - X-authentik-email";
   "  services:";
   "    authentik:";
   "      loadBalancer:";
   "        servers:";
   "          - url: http://authentik-server.cxyz-security.svc.cluster.local:9000";
   "    ztna-demo:";
   "      loadBalancer:";
   "        servers:";
   "          - url: http://ztna-demo-app.cxyz-security.svc.cluster.local:8080";
   "tls:";
   "  stores:";
   "    default:";
   "      defaultCertificate:";
   "        certFile: /run/cxyz-ztna/tls.crt";
   "        keyFile: /run/cxyz-ztna/tls.key"])).

Definition lower_hex : re := Over is_lower_hex.
Definition any_hex : re := Over (fun a => is_lower_hex a || ((65 <=? code a) && (code a <=? 70))).
Definition SHA256_RE : re := times 64 lower_hex.
Definition GIT_SHA_RE : re := Cat (times 7 any_hex) (up_to 57 any_hex).

(** [git_head]: what [git rev-parse HEAD] prints. *)
Definition ai_settings (env : option string) (git_head : string) : result (list (string * string)) :=
  let? values := (match env with Some text => parse_dotenv ".env" text | None => Ok [] end) in
  let digest := strip (setting "SOC_AI_METADATA_SHA256" "" values) in
  raise_if (negb (String.eqb digest "") && negb (matched (re_fullmatch SHA256_RE digest)))
    (ValueError "SOC_AI_METADATA_SHA256 must be empty or a lowercase SHA-256") ;;?
  let git_sha := strip (setting "SOC_GIT_SHA" "" values) in
  let git_sha :=
    if negb (matched (re_fullmatch GIT_SHA_RE git_sha)) || (negb (String.eqb git_sha "") && str_forallb (fun a => Ascii.eqb a "0") git_sha)
    then let head := strip git_head in if String.eqb head "" then "0000000" else head
    else git_sha in
  Ok [("SOC_AI_METADATA_SHA256", digest); ("SOC_GIT_SHA", git_sha)].

Definition text_dict (d : list (string * string)) : val := VDict (map (fun kv => (kv.1, VStr kv.2)) d).

Definition config_map (name : string) (data : val) : val :=
  VDict [("apiVersion", VStr "v1"); ("kind", VStr "ConfigMap");
         ("metadata", VDict [("name", VStr name); ("namespace", VStr "cxyz-security")]); ("data", data)].

Definition wireguard_policy (port : Z) : val :=
  VDict [("apiVersion", VStr "networking.k8s.io/v1"); ("kind", VStr "NetworkPolicy");
         ("metadata", VDict [("name", VStr "wireguard-vpn"); ("namespace", VStr "cxyz-security")]);
         ("spec", VDict [("podSelector", VDict [("matchLabels", VDict [("app", VStr "wireguard")])]);
                         ("policyTypes", VList [VStr "Ingress"; VStr "Egress"]);
                         ("ingress", VList [VDict [("ports", VList [VDict [("protocol", VStr "UDP"); ("port", VInt port)]])]]);
                         ("egress", VList [VDict []])])].

Definition runtime_documents (env : option string) (git_head : string) : result (list val) :=
  let? values := runtime_settings env in
  let? ai := ai_settings env git_head in
  let? dynamic := traefik_dynamic values in
  let? port := int_of_text (setting "WG_SERVER_PORT" "" values) in
  Ok [config_map "cxyz-runtime-settings" (text_dict values); config_map "cxyz-soc-ai-settings" (text_dict ai);
      config_map "cxyz-traefik-dynamic" (VDict [("dynamic.yaml", VStr dynamic)]); wireguard_policy port].

(** * [render_k8s_runtime_secrets.py] *)

(** [s.strip(c)] for a character [c]. *)
Fixpoint lstrip_char (c : ascii) (s : string) : string :=
  match s with
  | String a r => if Ascii.eqb a c then lstrip_char c r else s
  | EmptyString => s
  end.
Definition strip_char (c : ascii) (s : string) : string := lstrip_char c (rstrip_by (Ascii.eqb c) s).

Definition unquoted (value : string) : string := strip_char (chr 39) (strip_char dquote (strip value)).

(** One line of [load_env]. *)
Definition secret_line (d : list (string * string)) (raw : string) : list (string * string) :=
  let line := strip raw in
  if String.eqb line "" || starts_with "#" line then d
  else
    let '(key, separator, value) := partition_on "=" line in
    if separator : bool then assoc_set key (unquoted value) d else d.

Definition load_env (env : option string) : result (list (string * string)) :=
  match env with
  | None => Err (OSError ".env is missing; run make secrets")
  | Some text => Ok (fold_left secret_line (splitlines text) [])
  end.

(** [base64.b64encode(bytes).decode()]. *)
Definition standard_char (a : ascii) : ascii := if Ascii.eqb a "-" then "+"%char else if Ascii.eqb a "_" then "/"%char else a.
Definition b64encode (bytes : list Z) : string :=
  str_map standard_char (b64_chars bytes) +:+
  (match Z.of_nat (length bytes) mod 3 with 1 => "==" | 2 => "=" | _ => "" end).

Definition k8s_secret (name : string) (data : list (string * string)) (secret_type : string) : val :=
  VDict [("apiVersion", VStr "v1"); ("kind", VStr "Secret");
         ("metadata", VDict [("name", VStr name); ("namespace", VStr "cxyz-security")]); ("type", VStr secret_type); ("data", text_dict data)].

Definition REQUIRED_SECRETS : list string :=
  ["WAZUH_INDEXER_PASSWORD"; "WAZUH_DASHBOARD_PASSWORD"; "WAZUH_API_PASSWORD"; "WAZUH_REGISTRATION_PASSWORD";
   "AUTHENTIK_SECRET_KEY"; "AUTHENTIK_POSTGRES_PASSWORD"].
Definition SOC_REQUIRED : list string :=
  ["ELASTIC_PASSWORD"; "KIBANA_SYSTEM_PASSWORD"; "KIBANA_BOOTSTRAP_PASSWORD"; "LOGSTASH_PASSWORD"; "KIBANA_SECURITY_ENCRYPTION_KEY";
   "KIBANA_SAVED_OBJECTS_ENCRYPTION_KEY"; "KIBANA_REPORTING_ENCRYPTION_KEY"; "SOC_FEATURE_PASSWORD"; "SOC_AI_WRITER_PASSWORD";
   "SOC_DECISION_PASSWORD"; "SOC_RESPONSE_PASSWORD"].
Definition WAZUH_CERTS : list string :=
  ["root-ca.pem"; "root-ca-manager.pem"; "wazuh-indexer.pem"; "wazuh-indexer-key.pem"; "admin.pem"; "admin-key.pem";
   "wazuh.manager.pem"; "wazuh.manager-key.pem"; "wazuh.dashboard.pem"; "wazuh.dashboard-key.pem"].

(** [not env.get(key) or env[key].startswith("CHANGE_ME")]. *)
Definition uninitialized (env : list (string * string)) (key : string) : bool :=
  match assoc key env with
  | None => true
  | Some value => String.eqb value "" || starts_with "CHANGE_ME" value
  end.

Section secrets.
Variable file : string -> option (list Z).

Definition b64_file (path : string) : result string :=
  match file path with
  | None => Err (OSError ("missing " +:+ path +:+ "; run make wazuh-config/secrets"))
  | Some bytes => Ok (b64encode bytes)
  end.

Definition b64_text (value : string) : string := b64encode (utf8 value).

(** [{name: b64(directory / path) for ...}]. *)
Definition files_data (directory : string) (entries : list (string * string)) : result (list (string * string)) :=
  mapR (fun kv => let? body := b64_file (directory +:+ kv.2) in Ok (kv.1, body)) entries.

(** A secret of files, then the credential an identity logs in with. *)
Definition soc_secret (name : string) (entries : list (string * string)) (credential : option (string * string)) : result val :=
  let? data := files_data "soc/certs/" entries in
  Ok (k8s_secret name (data ++ match credential with Some (user, password) => [("es.cred", b64_text (user +:+ ":" +:+ password))] | None => [] end) "Opaque").

Definition soc_secrets (env : list (string * string)) : result (list val) :=
  let password key := setting key "" env in
  let passwords := k8s_secret "cxyz-soc-passwords" (map (fun key => (key, b64_text (password key))) SOC_REQUIRED) "Opaque" in
  let? documents := mapR (fun s => soc_secret s.1.1 s.1.2 s.2)
    [("cxyz-soc-ca", [("ca.crt", "ca.crt")], None);
     ("cxyz-soc-elasticsearch-tls", [("ca.crt", "ca.crt"); ("elasticsearch.crt", "elasticsearch.crt"); ("elasticsearch.key", "elasticsearch.key")], None);
     ("cxyz-soc-kibana-tls", [("ca.crt", "ca.crt"); ("kibana.crt", "kibana.crt"); ("kibana.key", "kibana.key")], None);
     ("cxyz-soc-ai-api", [("tls.crt", "soc-ai-api.crt"); ("tls.key", "soc-ai-api.key"); ("client-ca.crt", "ai-client-ca.crt")], None);
     ("cxyz-soc-feature", [("ca.crt", "ca.crt")], Some ("cxyz_feature", password "SOC_FEATURE_PASSWORD"));
     ("cxyz-soc-enrichment", [("ca.crt", "ca.crt"); ("client.crt", "soc-enrichment.crt"); ("client.key", "soc-enrichment.key")],
       Some ("cxyz_ai_writer", password "SOC_AI_WRITER_PASSWORD"));
     ("cxyz-soc-decision", [("ca.crt", "ca.crt"); ("signing.key", "decision/decision-key-1.key"); ("client.crt", "soc-decision.crt");
        ("client.key", "soc-decision.key")], Some ("cxyz_decision", password "SOC_DECISION_PASSWORD"));
     ("cxyz-soc-response", [("ca.crt", "ca.crt"); ("tls.crt", "soc-response.crt"); ("tls.key", "soc-response.key");
        ("client.crt", "soc-response.crt"); ("client.key", "soc-response.key"); ("decision-ca.crt", "decision-ca.crt");
        ("decision-key-1.pub", "decision/decision-key-1.pub")], Some ("cxyz_response", password "SOC_RESPONSE_PASSWORD"))] in
  Ok (passwords :: documents).

(** The documents [main] writes; a refusal is printed and the process ends with 1. *)
Definition runtime_secrets (env : option string) : result (list val) :=
  let? env := load_env env in
  let missing := List.filter (uninitialized env) REQUIRED_SECRETS in
  raise_if (negb (Nat.eqb (length missing) 0)) (ValueError ("runtime secret values are missing/uninitialized: " +:+ str_join ", " missing)) ;;?
  let missing := List.filter (uninitialized env) SOC_REQUIRED in
  raise_if (negb (Nat.eqb (length missing) 0)) (ValueError ("SOC secret values are missing/uninitialized: " +:+ str_join ", " missing)) ;;?
  let? soc := soc_secrets env in
  let? wazuh := files_data "docker/wazuh/certs/" (map (fun n => (n, n)) WAZUH_CERTS) in
  let? users := files_data "docker/wazuh/generated/" [("internal_users.yml", "internal_users.yml")] in
  let? ztna := files_data "docker/zero-trust-gateway/certs/" [("tls.crt", "tls.crt"); ("tls.key", "tls.key")] in
  Ok ([k8s_secret "cxyz-security-secrets" (map (fun key => (key, b64_text (setting key "" env))) REQUIRED_SECRETS) "Opaque";
       k8s_secret "cxyz-wazuh-tls" wazuh "Opaque"; k8s_secret "cxyz-wazuh-security-config" users "Opaque";
       k8s_secret "cxyz-ztna-tls" ztna "kubernetes.io/tls"] ++ soc).
End secrets.

(** * [check_image_lock.py] *)

(** A source file: a Dockerfile, a YAML stream with its documents, or another text. *)
Inductive source_kind : Type := Dockerfile | Yaml (documents : list val) | OtherText.
Record source_file : Type := { source_path : string; source_text : string; source_form : source_kind }.

(** The images of a document, the last child first as the stack gives them. *)
Fixpoint images_in (v : val) : list string :=
  match v with
  | VDict d => (match assoc "image" d with Some (VStr s) => [s] | _ => [] end) ++ concat (rev (map (fun kv => images_in kv.2) d))
  | VList l => concat (rev (map images_in l))
  | _ => []
  end.

Definition yaml_images (documents : list val) : list string := concat (map images_in documents).

(** [re.match(r"\s*FROM(?:\s+--platform=\S+)?\s+(\S+)", line, re.I)]. *)
Definition FROM_RE : re :=
  cats [many space; lit_any_case "FROM"; opt (cats [some space; lit_any_case "--platform="; some nonspace]); some space; Group 1 (some nonspace)].

Definition dockerfile_images (text : string) : list string :=
  concat (map (fun line => match re_match FROM_RE line with
                           | Some m => if starts_with "${" (group 1 m) then [] else [group 1 m]
                           | None => []
                           end) (splitlines text)).

(** [TF_IMAGE=\"\$\{TF_IMAGE:-([^}]+)\}\"]. *)
Definition TF_IMAGE_RE : re :=
  cats [lit ("TF_IMAGE=" +:+ str1 dquote +:+ "${TF_IMAGE:-"); Group 1 (some (but "}")); lit ("}" +:+ str1 dquote)].

Definition image_char (a : ascii) : bool := is_alnum a || existsb (Ascii.eqb a) ["."%char; "_"%char; "/"%char; "-"%char].

(** [docker\s+run(?:\s+[^\n]+?\s)([A-Za-z0-9][A-Za-z0-9._/-]*(?::[^\s\\]+|@sha256:[0-9a-f]{64}))(?=\s|\\|$)]. *)
Definition DOCKER_RUN_RE : re :=
  cats [lit "docker"; some space; lit "run"; some space; some_lazy any; space;
        Group 1 (cats [alnum; many (Over image_char);
          Alt (Cat (lit ":") (some (Over (fun a => negb (is_space a) && negb (Ascii.eqb a "\"))))) (Cat (lit "@sha256:") SHA256_RE)]);
        Ahead (Alt space (Alt (lit "\") Finish))].

Definition refs_of (f : source_file) : list string :=
  match source_form f with
  | Dockerfile => dockerfile_images (source_text f)
  | Yaml documents => yaml_images documents
  | OtherText => re_findall TF_IMAGE_RE (source_text f) ++ re_findall DOCKER_RUN_RE (source_text f)
  end.

(** [configured_refs]: every reference with the files it is in. *)
Definition add_ref (path : string) (found : list (string * list string)) (ref : string) : list (string * list string) :=
  let paths := default [] (assoc ref found) in
  assoc_set ref (if str_in path paths then paths else paths ++ [path]) found.

Definition configured_refs (files : list source_file) : list (string * list string) :=
  fold_left (fun found f => fold_left (add_ref (source_path f)) (refs_of f) found) files [].

(** [set(v)] and [v1 <= v2] of sets. *)
Definition set_add (l : list val) (v : val) : result (list val) :=
  raise_if (negb (is_hashable v)) (TypeError "unhashable type") ;;? Ok (if existsb (py_eq v) l then l else l ++ [v]).
Definition set_of (v : val) : result (list val) := let? l := elements_of v in foldR set_add [] l.
Definition is_subset (l1 l2 : list val) : bool := forallb (fun v => existsb (py_eq v) l2) l1.

(** [f"{sorted(s)}"] of a set of texts. *)
Definition sorted_repr (l : list val) : result string :=
  let? texts := mapR (fun v => match v with VStr s => Ok s | _ => Err (TypeError "'<' not supported") end) l in
  Ok (py_repr_list (sort_by str_leb texts)).

(** [x in v]. *)
Definition contains (x : string) (v : val) : result bool :=
  match v with
  | VStr s => Ok (str_contains x s)
  | _ => let? l := elements_of v in Ok (existsb (py_eq (VStr x)) l)
  end.

(** [entry.get(k) or otherwise]. *)
Definition get_or (k : string) (otherwise : val) (d : mapping) : val := let v := get k d in if truthy v then v else otherwise.

Definition mapping_of (v : val) : result mapping :=
  match v with
  | VDict d => Ok d
  | _ => Err (AttributeError "get")
  end.

(** The platforms and local prefixes of the lock's policy. *)
Record lock_policy : Type := { portable_required : list val; path_a_required : list val; ci_required : list val; local_prefixes : list val }.

Definition read_policy (lock : mapping) : result lock_policy :=
  let? policy := mapping_of (default (VDict []) (assoc "policy" lock)) in
  let field k := default (VList []) (assoc k policy) in
  let? portable := set_of (field "portable_runtime_required_platforms") in
  let? path_a := set_of (field "path_a_required_platforms") in
  let? ci := set_of (field "ci_required_platforms") in
  let? prefixes := elements_of (field "local_image_prefixes") in
  Ok {| portable_required := portable; path_a_required := path_a; ci_required := ci; local_prefixes := prefixes |}.

Fixpoint is_local (ref : string) (prefixes : list val) : result bool :=
  match prefixes with
  | [] => Ok false
  | VStr p :: rest => if starts_with p ref then Ok true else is_local ref rest
  | _ :: _ => Err (TypeError "startswith first arg must be str")
  end.

(** The references the lock knows. *)
Definition known_of (entry : val) : result (list string) :=
  let? entry := mapping_of entry in
  Ok (concat (map (fun key => let v := get key entry in if truthy v then [str_val v] else []) ["intent_ref"; "pinned_ref"])).

Definition unlocked (prefixes : list val) (known : list string) (found : string * list string) : result (list string) :=
  let? local := is_local found.1 prefixes in
  Ok (if local || str_in found.1 known then []
      else ["unlocked external image " +:+ found.1 +:+ " in " +:+ str_join ", " (sort_by str_leb found.2)]).

Definition DIGEST_RE : re := cats [lit "@sha256:"; SHA256_RE; Finish].

(** [re.split(r"@sha256:|:(?=[^/]+$)", ref, maxsplit=1)[0]]. *)
Definition REPOSITORY_END : re := Alt (lit "@sha256:") (Cat (lit ":") (Ahead (Cat (some (but "/")) Finish))).
Fixpoint split_before (r : re) (b : option ascii) (s : string) : string :=
  if matched (run r {| before := b; rest := s; groups := [] |} Some) then ""
  else match s with
       | EmptyString => ""
       | String a t => String a (split_before r (Some a) t)
       end.
Definition repository_key (ref : string) : string := split_before REPOSITORY_END None ref.

Definition STATUSES : list string := ["verified"; "deferred"; "inherited-pinned"].
Definition PINNED_STATUSES : list string := ["verified"; "inherited-pinned"].
Definition PORTABLE_SCOPES : list string := ["compose"; "kubernetes"; "dockerfile"; "compose-helper"; "developer-tool"].

Definition fail_when (c : bool) (message : string) : list string := if c then [message] else [].

(** The platforms an entry must cover. *)
Definition platform_errors (policy : lock_policy) (name : string) (scopes : val) (platforms : list val) (verification : mapping) : result (list string) :=
  let covers required what :=
    if is_subset required platforms then Ok []
    else let? shown := sorted_repr required in Ok [name +:+ ": " +:+ what +:+ " must cover " +:+ shown] in
  let? scope_list := elements_of scopes in
  let? portable := existsR (member_of PORTABLE_SCOPES) scope_list in
  let? e1 := (if portable : bool then covers (portable_required policy) "portable runtime/developer image" else Ok []) in
  let? clab := contains "containerlab" scopes in
  let? e2 := (if clab && negb (is_subset (path_a_required policy) platforms) then covers (path_a_required policy) "Path A containerlab image" else Ok []) in
  let? ci := contains "ci" scopes in
  let? e3 := (if ci && negb (is_subset (ci_required policy) platforms) then covers (ci_required policy) "CI image" else Ok []) in
  let kind := get "kind" verification in
  Ok (e1 ++ e2 ++ e3
    ++ fail_when (py_eq kind (VStr "single-platform-manifest") && negb (Nat.eqb (length platforms) 1))
         (name +:+ ": single-platform manifest must declare exactly one required platform")
    ++ fail_when (py_eq kind (VStr "multi-platform-index") && (length platforms <? 2)%nat)
         (name +:+ ": multi-platform index must declare at least two required platforms")).

(** The pin of an entry in force, or the reason of one that is deferred; [all_text]: every source. *)
Definition pin_errors (all_text name status intent : string) (pinned : val) (verification entry : mapping) : list string :=
  if str_in status PINNED_STATUSES then
    (match pinned with
     | VStr p =>
         if matched (re_search DIGEST_RE p)
         then fail_when (negb (str_contains p all_text)) (name +:+ ": pinned_ref is not used by any audited source file")
         else [name +:+ ": " +:+ status +:+ " entry requires an immutable sha256 pinned_ref"]
     | _ => [name +:+ ": " +:+ status +:+ " entry requires an immutable sha256 pinned_ref"]
     end)
    ++ fail_when (String.eqb status "verified" && str_contains intent all_text) (name +:+ ": mutable intent_ref remains in audited source: " +:+ intent)
    ++ fail_when (negb (truthy (get "level" verification))) (name +:+ ": pinned entry lacks verification metadata")
  else
    fail_when (match pinned with VNone => false | _ => true end) (name +:+ ": deferred entry must keep pinned_ref null until resolved")
    ++ fail_when (negb (str_contains intent all_text)) (name +:+ ": deferred intent_ref is no longer used; update the lock: " +:+ intent)
    ++ fail_when (String.eqb (strip (str_val (default (VStr "") (assoc "reason" entry)))) "") (name +:+ ": deferred entry requires a reason").

(** One entry of the lock; [seen]: the repositories of the entries before it. *)
Definition check_entry (policy : lock_policy) (all_text : string) (acc : list (string * string) * list string) (named : string * val)
    : result (list (string * string) * list string) :=
  let '(seen, errors) := acc in
  let '(name, entry) := named in
  let? entry := mapping_of entry in
  let scopes := get_or "scopes" (VList []) entry in
  let? platforms := set_of (get_or "required_platforms" (VList []) entry) in
  let? verification := mapping_of (get_or "verification" (VDict []) entry) in
  let status := get "status" entry in
  let? valid := member_of STATUSES status in
  if negb valid then Ok (seen, errors ++ [name +:+ ": invalid status " +:+ repr_val status])
  else
    match get "intent_ref" entry with
    | VStr intent =>
        if String.eqb intent "" then Ok (seen, errors ++ [name +:+ ": intent_ref is required"])
        else
          let e1 := fail_when (negb (truthy scopes)) (name +:+ ": scopes must not be empty")
                    ++ fail_when (Nat.eqb (length platforms) 0) (name +:+ ": required_platforms must not be empty") in
          let? e2 := platform_errors policy name scopes platforms verification in
          let e3 := pin_errors all_text name (str_val status) intent (get "pinned_ref" entry) verification entry in
          let key := repository_key intent in
          let previous := default "" (assoc key seen) in
          let e4 := fail_when (negb (String.eqb previous "") && negb (String.eqb previous name))
                      ("duplicate logical repository in image lock: " +:+ key +:+ " (" +:+ previous +:+ ", " +:+ name +:+ ")") in
          Ok (assoc_set key name seen, errors ++ e1 ++ e2 ++ e3 ++ e4)
    | _ => Ok (seen, errors ++ [name +:+ ": intent_ref is required"])
    end.

Definition developer_error (images : mapping) (all_text : string) : result (list string) :=
  let? entry := mapping_of (default (VDict []) (assoc "terraform-dev-image" images)) in
  let pinned := get "pinned_ref" entry in
  if truthy pinned then
    match pinned with
    | VStr p => Ok (fail_when (negb (str_contains p all_text)) ("expected developer image reference disappeared: " +:+ p))
    | _ => Err (TypeError "'in <string>' requires string as left operand")
    end
  else Ok [].

Definition load_lock (document : val) : result mapping :=
  match document with
  | VDict lock =>
      if negb (py_eq (get "schema_version" lock) (VInt 1)) then Err (SystemExit "image lock: unsupported or missing schema_version")
      else match get "images" lock with
           | VDict _ => Ok lock
           | _ => Err (SystemExit "image lock: images mapping is missing")
           end
  | _ => Err (SystemExit "image lock: unsupported or missing schema_version")
  end.

(** [main]: what it fails with; it returns 0 when there is nothing. *)
Definition image_lock_errors (document : val) (files : list source_file) : result (list string) :=
  let? lock := load_lock document in
  let? images := mapping_of (get "images" lock) in
  let? policy := read_policy lock in
  let all_text := str_join newline (map source_text files) in
  let? known := mapR (fun e => known_of e.2) images in
  let? unlocked := mapR (unlocked (local_prefixes policy) (concat known)) (sort_by key_leb (configured_refs files)) in
  let? checked := foldR (check_entry policy all_text) ([], []) images in
  let? developer := developer_error images all_text in
  Ok (concat unlocked ++ checked.2 ++ developer).

(** * [verify_image_platforms.py] *)
Definition RESOLVED_RE : re :=
  cats [LineStart; lit "Digest:"; many space; Group 1 (Cat (lit "sha256:") SHA256_RE); many space; LineEnd].
Definition PLATFORM_RE : re :=
  cats [LineStart; many space; lit "Platform:"; many space; Group 1 (some nonspace); many space; LineEnd].

Record command_result : Type := { returncode : Z; stdout : string; stderr : string }.

Definition add_text (l : list string) (s : string) : list string := if str_in s l then l else l ++ [s].

(** [os/architecture], with the variant when there is one. *)
Definition platform_text (platform : mapping) : list string :=
  let os_name := get "os" platform in
  let arch := get "architecture" platform in
  let variant := get "variant" platform in
  if truthy os_name && truthy arch then
    [str_val os_name +:+ "/" +:+ str_val arch +:+ (if truthy variant then "/" +:+ str_val variant else "")]
  else [].

Section registry.
(** What [docker] answers to a command line. *)
Variable docker : list string -> command_result.

Definition imagetools (arguments : list string) : command_result := docker (["docker"; "buildx"; "imagetools"; "inspect"] ++ arguments).

Definition said (otherwise : string) (r : command_result) : exn :=
  RuntimeError (if String.eqb (strip (stderr r)) "" then otherwise else strip (stderr r)).

Definition parsed (what ref text : string) : result val :=
  try_except (loads text) (fun e => match e with JSONDecodeError _ => true | _ => false end) (fun e => Err (RuntimeError ("invalid " +:+ what +:+ " JSON for " +:+ ref +:+ ": " +:+ exn_message e))).

Definition manifest_platforms (acc : list string) (manifest : val) : result (list string) :=
  let? manifest := mapping_of manifest in
  let? platform := mapping_of (get_or "platform" (VDict []) manifest) in
  Ok (fold_left add_text (platform_text platform) acc).

(** The digest a reference resolves to, the platforms reported, and whether it is an index. *)
Definition inspect (ref : string) : result (string * list string * bool) :=
  let proc := imagetools [ref] in
  raise_if (negb (returncode proc =? 0)) (said ("imagetools inspect failed for " +:+ ref) proc) ;;?
  match re_search RESOLVED_RE (stdout proc) with
  | None => Err (RuntimeError ("could not parse top-level digest for " +:+ ref))
  | Some m =>
      let digest := group 1 m in
      let platforms := fold_left add_text (re_findall PLATFORM_RE (stdout proc)) [] in
      let raw := imagetools ["--raw"; ref] in
      raise_if (negb (returncode raw =? 0)) (said ("raw inspect failed for " +:+ ref) raw) ;;?
      let? document := parsed "manifest" ref (stdout raw) in
      let? document := mapping_of document in
      let is_index := match get "manifests" document with VList _ => true | _ => false end in
      let? platforms :=
        (match get "manifests" document, platforms with
         | VList manifests, [] => foldR manifest_platforms [] manifests
         | _, _ => Ok platforms
         end) in
      if negb is_index && Nat.eqb (length platforms) 0 then
        let config := imagetools ["--format"; "{{json .Image}}"; ref] in
        raise_if (negb (returncode config =? 0)) (said ("image-config inspect failed for " +:+ ref) config) ;;?
        let? image := parsed "image-config" ref (stdout config) in
        Ok (digest, match image with VDict d => platform_text d | _ => [] end, is_index)
      else Ok (digest, platforms, is_index)
  end.

(** [linux/arm64/v8] counts as [linux/arm64]. *)
Definition normalized_platforms (values : list string) : list string :=
  fold_left (fun acc value =>
    let acc := if starts_with "linux/arm64/" value then add_text acc "linux/arm64" else acc in
    if starts_with "linux/amd64/" value then add_text acc "linux/amd64" else acc) values values.

(** [ref.rsplit("@", 1)[1]]. *)
Definition after_last_at (ref : string) : result string :=
  if str_has "@" ref then Ok (List.last (split_on "@" ref) "") else Err (IndexError "list index out of range").

Definition text_item (k : string) (entry : mapping) : result string :=
  let? v := item k entry in
  match v with
  | VStr s => Ok s
  | _ => Err (TypeError "expected str, bytes or os.PathLike object")
  end.

(** [entry["pinned_ref"].rsplit("@", 1)[1]]. *)
Definition pinned_digest (entry : mapping) : result string :=
  let? v := item "pinned_ref" entry in
  match v with
  | VStr s => after_last_at s
  | _ => Err (AttributeError "rsplit")
  end.

(** One entry: what fails, and whether it is deferred and resolved. *)
Definition verify_entry (name : string) (entry : mapping) : result (list string * bool) :=
  let? status := text_item "status" entry in
  let? ref := (if String.eqb status "inherited-pinned" then text_item "pinned_ref" entry else text_item "intent_ref" entry) in
  match inspect ref with
  | Err (RuntimeError message) => Ok ([name +:+ ": " +:+ message], false)
  | Err e => Err e
  | Ok (digest, platforms, is_index) =>
      let platforms := normalized_platforms platforms in
      let? required := set_of (get_or "required_platforms" (VList []) entry) in
      let? required := mapR (fun v => match v with VStr s => Ok s | _ => Err (TypeError "'<' not supported") end) required in
      let missing := sort_by str_leb (List.filter (fun p => negb (str_in p platforms)) required) in
      let e1 := fail_when (negb (Nat.eqb (length missing) 0))
        (name +:+ ": missing required platforms " +:+ py_repr_list missing +:+ "; observed " +:+ py_repr_list (sort_by str_leb platforms)) in
      let e2 := fail_when ((1 <? length required)%nat && negb is_index)
        (name +:+ ": multi-platform runtime ref resolved to a single manifest, not an image index") in
      if String.eqb status "verified" then
        let? expected := pinned_digest entry in
        Ok (e1 ++ e2 ++ fail_when (negb (String.eqb digest expected)) (name +:+ ": tag moved: lock=" +:+ expected +:+ ", registry=" +:+ digest), false)
      else if String.eqb status "inherited-pinned" then
        let? expected := pinned_digest entry in
        Ok (e1 ++ e2 ++ fail_when (negb (String.eqb digest expected))
              (name +:+ ": pinned digest inspect mismatch: expected=" +:+ expected +:+ ", got=" +:+ digest), false)
      else Ok (e1 ++ e2, true)
  end.

(** [main]: the failures; [only]: the entries asked for, or all. *)
Definition platform_failures (strict : bool) (only : list string) (images : mapping) : result (list string) :=
  let? results := mapR (fun named =>
      if negb (Nat.eqb (length only) 0) && negb (str_in named.1 only) then Ok ([], None)
      else let? entry := mapping_of named.2 in let? r := verify_entry named.1 entry in Ok (r.1, if r.2 : bool then Some named.1 else None)) images in
  let resolved := omap snd results in
  Ok (concat (map fst results) ++
      fail_when (strict && negb (Nat.eqb (length resolved) 0)) ("deferred entries resolved online but are not yet committed: " +:+ str_join ", " resolved)).
End registry.
