(* ===== verification/NetView.v ===== *)
(** The network explorer ([scripts/netviz.py]): the views it derives of the FRR and nftables
    configurations, of the topology and of the settings file, and the server that shows them.

    The curated descriptions of nodes and services, the pages and what [docker] answers are outside.
    [SECRET_MASK], four bullets U+2022, is outside the modelled characters and a parameter. *)

From S2P Require Import Prelude PyText PyNum PyTime PyNet PyJson JsonText Policy Effects PyRe Fabric FeatureWorker.

(** * Rules of a line *)

(** A rule: the lines it takes, and what it does with one. *)
Definition rule (St : Type) : Type := (string -> option cursor) * (cursor -> St -> St).

Definition by_pattern (r : re) (line : string) : option cursor := re_match r line.
Definition by_prefix (p line : string) : option cursor :=
  if starts_with p line then Some {| before := None; rest := str_skip (String.length p) line; groups := [] |} else None.
Definition exactly (text line : string) : option cursor := if String.eqb line text then Some (from_start "") else None.

(** The first rule that takes the line. *)
Fixpoint apply_rules {St} (rules : list (rule St)) (line : string) (st : St) : St :=
  match rules with
  | [] => st
  | (takes, act) :: rules =>
      match takes line with
      | Some m => act m st
      | None => apply_rules rules line st
      end
  end.

(** [int(m[n])] of digits. *)
Definition number (n : nat) (m : cursor) : Z := default 0 (parse_digits 10 (group n m)).
Definition word (n : nat) : re := Group n (some nonspace).
Definition digits_of (n : nat) : re := Group n (some digit).

(** * The FRR parser *)
Record Bgp : Type := { asn : Z; bgp_router_id : option string; neighbors : list (string * mapping); bgp_networks : list string }.
Record Ospf : Type := {
  ospf_router_id : option string;
  ospf_networks : list (string * string);
  passive_default : bool;
  active : list string;
  default_originate : bool }.
Record Interface : Type := { ospf_auth : option string; vrrp_groups : list (Z * mapping) }.
Record RouteMap : Type := { rm_name : string; rm_action : string; rm_seq : Z; rm_match : list string }.
Record PrefixList : Type := { pl_name : string; pl_seq : Z; pl_action : string; pl_prefix : string }.

Record Frr : Type := {
  hostname : option string;
  bgp : option Bgp;
  ospf : option Ospf;
  static : list (string * string);
  route_maps : list RouteMap;
  prefix_lists : list PrefixList;
  interfaces : list (string * Interface) }.

(** The block the parser is in; [route_map]: the last one opened is current. *)
Inductive block : Type := NoBlock | BgpBlock | OspfBlock | InterfaceBlock (name : string) | RouteMapBlock.
Record parser : Type := { view : Frr; current : block }.

Definition set_view (f : Frr -> Frr) (st : parser) : parser := {| view := f (view st); current := current st |}.
Definition set_block (b : block) (st : parser) : parser := {| view := view st; current := b |}.

Definition set_bgp (b : option Bgp) (v : Frr) : Frr :=
  {| hostname := hostname v; bgp := b; ospf := ospf v; static := static v; route_maps := route_maps v; prefix_lists := prefix_lists v; interfaces := interfaces v |}.
Definition set_ospf (o : option Ospf) (v : Frr) : Frr :=
  {| hostname := hostname v; bgp := bgp v; ospf := o; static := static v; route_maps := route_maps v; prefix_lists := prefix_lists v; interfaces := interfaces v |}.
Definition set_hostname (h : string) (v : Frr) : Frr :=
  {| hostname := Some h; bgp := bgp v; ospf := ospf v; static := static v; route_maps := route_maps v; prefix_lists := prefix_lists v; interfaces := interfaces v |}.
Definition set_static (l : list (string * string)) (v : Frr) : Frr :=
  {| hostname := hostname v; bgp := bgp v; ospf := ospf v; static := l; route_maps := route_maps v; prefix_lists := prefix_lists v; interfaces := interfaces v |}.
Definition set_route_maps (l : list RouteMap) (v : Frr) : Frr :=
  {| hostname := hostname v; bgp := bgp v; ospf := ospf v; static := static v; route_maps := l; prefix_lists := prefix_lists v; interfaces := interfaces v |}.
Definition set_prefix_lists (l : list PrefixList) (v : Frr) : Frr :=
  {| hostname := hostname v; bgp := bgp v; ospf := ospf v; static := static v; route_maps := route_maps v; prefix_lists := l; interfaces := interfaces v |}.
Definition set_interfaces (l : list (string * Interface)) (v : Frr) : Frr :=
  {| hostname := hostname v; bgp := bgp v; ospf := ospf v; static := static v; route_maps := route_maps v; prefix_lists := prefix_lists v; interfaces := l |}.

Definition in_bgp (f : Bgp -> Bgp) : parser -> parser := set_view (fun v => set_bgp (option_map f (bgp v)) v).
Definition in_ospf (f : Ospf -> Ospf) : parser -> parser := set_view (fun v => set_ospf (option_map f (ospf v)) v).

(** [out["interfaces"][iface]] changed. *)
Definition in_interface (name : string) (f : Interface -> Interface) : parser -> parser :=
  set_view (fun v => match assoc name (interfaces v) with
                     | Some i => set_interfaces (assoc_set name (f i) (interfaces v)) v
                     | None => v
                     end).

(** [bgp["neighbors"].setdefault(n, {})[key] = value]. *)
Definition set_neighbor (n key : string) (value : val) (b : Bgp) : Bgp :=
  {| asn := asn b; bgp_router_id := bgp_router_id b; bgp_networks := bgp_networks b;
     neighbors := assoc_set n (assoc_set key value (default [] (assoc n (neighbors b)))) (neighbors b) |}.

(** [_vrrp(info, group)[key] = value]. *)
Fixpoint set_group (g : Z) (key : string) (value : val) (groups : list (Z * mapping)) : list (Z * mapping) :=
  match groups with
  | [] => [(g, [("group", VInt g); (key, value)])]
  | (g', item) :: rest => if g' =? g then (g', assoc_set key value item) :: rest else (g', item) :: set_group g key value rest
  end.
Definition set_vrrp (g : Z) (key : string) (value : val) (i : Interface) : Interface :=
  {| ospf_auth := ospf_auth i; vrrp_groups := set_group g key value (vrrp_groups i) |}.

(** The last route map opened. *)
Fixpoint add_match (name : string) (maps : list RouteMap) : list RouteMap :=
  match maps with
  | [] => []
  | [m] => [{| rm_name := rm_name m; rm_action := rm_action m; rm_seq := rm_seq m; rm_match := rm_match m ++ [name] |}]
  | m :: rest => m :: add_match name rest
  end.

Definition permit_or_deny (n : nat) : re := Group n (Alt (lit "permit") (lit "deny")).

(** A line at the margin. *)
Definition top_rules : list (rule parser) :=
  [(by_prefix "hostname ", fun m => set_view (set_hostname (lstrip (rest m))));
   (by_pattern (Cat (lit "router bgp ") (digits_of 1)),
      fun m st => set_block BgpBlock (set_view (set_bgp (Some {| asn := number 1 m; bgp_router_id := None; neighbors := []; bgp_networks := [] |})) st));
   (exactly "router ospf",
      fun m st => set_block OspfBlock (set_view (set_ospf (Some {| ospf_router_id := None; ospf_networks := []; passive_default := false;
        active := []; default_originate := false |})) st));
   (by_pattern (Cat (lit "interface ") (word 1)),
      fun m st => set_block (InterfaceBlock (group 1 m)) (set_view (fun v =>
        match assoc (group 1 m) (interfaces v) with
        | Some _ => v
        | None => set_interfaces (interfaces v ++ [(group 1 m, {| ospf_auth := None; vrrp_groups := [] |})]) v
        end) st));
   (by_pattern (cats [lit "ip route "; word 1; lit " "; word 2]), fun m => set_view (fun v => set_static (static v ++ [(group 1 m, group 2 m)]) v));
   (by_pattern (cats [lit "ip prefix-list "; word 1; lit " seq "; digits_of 2; lit " "; permit_or_deny 3; lit " "; word 4]),
      fun m => set_view (fun v => set_prefix_lists (prefix_lists v ++
        [{| pl_name := group 1 m; pl_seq := number 2 m; pl_action := group 3 m; pl_prefix := group 4 m |}]) v));
   (by_pattern (cats [lit "route-map "; word 1; lit " "; permit_or_deny 2; lit " "; digits_of 3]),
      fun m st => set_block RouteMapBlock (set_view (fun v => set_route_maps (route_maps v ++
        [{| rm_name := group 1 m; rm_action := group 2 m; rm_seq := number 3 m; rm_match := [] |}]) v) st))].

Section frr.
Variable SECRET_MASK : string.

Definition bgp_rules : list (rule parser) :=
  [(by_pattern (Cat (lit "bgp router-id ") (word 1)),
      fun m => in_bgp (fun b => {| asn := asn b; bgp_router_id := Some (group 1 m); neighbors := neighbors b; bgp_networks := bgp_networks b |}));
   (by_pattern (cats [lit "neighbor "; word 1; lit " remote-as "; digits_of 2]), fun m => in_bgp (set_neighbor (group 1 m) "remote_as" (VInt (number 2 m))));
   (by_pattern (cats [lit "neighbor "; word 1; lit " password "]), fun m => in_bgp (set_neighbor (group 1 m) "password" (VStr SECRET_MASK)));
   (by_pattern (cats [lit "neighbor "; word 1; lit " ttl-security hops "; digits_of 2]),
      fun m => in_bgp (set_neighbor (group 1 m) "ttl_security_hops" (VInt (number 2 m))));
   (by_pattern (cats [lit "neighbor "; word 1; lit " route-map "; word 2; lit " "; Group 3 (Alt (lit "in") (lit "out"))]),
      fun m => in_bgp (set_neighbor (group 1 m) ("route_map_" +:+ group 3 m) (VStr (group 2 m))));
   (by_pattern (Cat (lit "network ") (word 1)),
      fun m => in_bgp (fun b => {| asn := asn b; bgp_router_id := bgp_router_id b; neighbors := neighbors b; bgp_networks := bgp_networks b ++ [group 1 m] |}))].

Definition ospf_rules : list (rule parser) :=
  let with_ f := in_ospf f in
  [(by_pattern (Cat (lit "ospf router-id ") (word 1)), fun m => with_ (fun o => {| ospf_router_id := Some (group 1 m); ospf_networks := ospf_networks o;
      passive_default := passive_default o; active := active o; default_originate := default_originate o |}));
   (by_pattern (cats [lit "network "; word 1; lit " area "; word 2]), fun m => with_ (fun o => {| ospf_router_id := ospf_router_id o;
      ospf_networks := ospf_networks o ++ [(group 1 m, group 2 m)]; passive_default := passive_default o; active := active o; default_originate := default_originate o |}));
   (exactly "passive-interface default", fun m => with_ (fun o => {| ospf_router_id := ospf_router_id o; ospf_networks := ospf_networks o;
      passive_default := true; active := active o; default_originate := default_originate o |}));
   (by_pattern (Cat (lit "no passive-interface ") (word 1)), fun m => with_ (fun o => {| ospf_router_id := ospf_router_id o; ospf_networks := ospf_networks o;
      passive_default := passive_default o; active := active o ++ [group 1 m]; default_originate := default_originate o |}));
   (by_prefix "default-information originate", fun m => with_ (fun o => {| ospf_router_id := ospf_router_id o; ospf_networks := ospf_networks o;
      passive_default := passive_default o; active := active o; default_originate := true |}))].

Definition vrrp_re (setting : string) (value : re) : re := cats [lit "vrrp "; digits_of 1; lit (" " +:+ setting +:+ " "); value].

Definition interface_rules (name : string) : list (rule parser) :=
  [(by_prefix "ip ospf authentication message-digest", fun m => in_interface name (fun i => {| ospf_auth := Some "md5"; vrrp_groups := vrrp_groups i |}));
   (by_pattern (vrrp_re "version" (digits_of 2)), fun m => in_interface name (set_vrrp (number 1 m) "version" (VInt (number 2 m))));
   (by_pattern (vrrp_re "ip" (word 2)), fun m => in_interface name (set_vrrp (number 1 m) "virtual_ip" (VStr (group 2 m))));
   (by_pattern (vrrp_re "priority" (digits_of 2)), fun m => in_interface name (set_vrrp (number 1 m) "priority" (VInt (number 2 m))));
   (by_pattern (vrrp_re "advertisement-interval" (digits_of 2)), fun m => in_interface name (set_vrrp (number 1 m) "advertisement_ms" (VInt (number 2 m))))].

Definition route_map_rules : list (rule parser) :=
  [(by_pattern (Cat (lit "match ip address prefix-list ") (word 1)), fun m => set_view (fun v => set_route_maps (add_match (group 1 m) (route_maps v)) v))].

Definition rules_in (b : block) : list (rule parser) :=
  match b with
  | NoBlock => []
  | BgpBlock => bgp_rules
  | OspfBlock => ospf_rules
  | InterfaceBlock name => interface_rules name
  | RouteMapBlock => route_map_rules
  end.

(** One line: blank lines and comments first, then by its indentation. *)
Definition frr_line (st : parser) (raw : string) : parser :=
  if String.eqb (strip raw) "" || starts_with "!" (lstrip raw) then
    if negb (starts_with " " raw) && String.eqb (strip raw) "!" then set_block NoBlock st else st
  else if starts_with " " raw then apply_rules (rules_in (current st)) (strip raw) st
  else apply_rules top_rules (strip raw) (set_block NoBlock st).

Definition empty_frr : Frr :=
  {| hostname := None; bgp := None; ospf := None; static := []; route_maps := []; prefix_lists := []; interfaces := [] |}.

Definition parse_frr (text : string) : Frr := view (fold_left frr_line (splitlines text) {| view := empty_frr; current := NoBlock |}).

(** [out["vrrp"]]: the groups of the interfaces. *)
Definition vrrp (v : Frr) : list mapping :=
  concat (map (fun i => map (fun g => ("interface", VStr i.1) :: g.2) (vrrp_groups i.2)) (interfaces v)).
End frr.

(** * The nftables parser *)
Record NftSet : Type := { nft_set_name : string; set_type : option string; set_flags : option string; set_elements : list string; set_comment : string }.
Record NftRule : Type := { rule_text : string; rule_verdict : option string; rule_comment : string; rule_log : option string }.
Record NftChain : Type := {
  nft_chain : string;
  hook : option (string * string * string * string);  (** type, hook, priority, policy *)
  rules : list NftRule }.
Record NftTable : Type := { family : string; nft_table : string; nft_sets : list NftSet; nft_counters : list string; chains : list NftChain }.

(** The last table is open when [in_table], its last chain when [in_chain]. *)
Record nft_parser : Type := { tables : list NftTable; in_table : bool; in_chain : bool; comments : list string; pending : string }.

Fixpoint change_last {A} (f : A -> A) (l : list A) : list A :=
  match l with
  | [] => []
  | [x] => [f x]
  | x :: r => x :: change_last f r
  end.

Definition with_tables (f : list NftTable -> list NftTable) (st : nft_parser) : nft_parser :=
  {| tables := f (tables st); in_table := in_table st; in_chain := in_chain st; comments := comments st; pending := pending st |}.
Definition with_comments (c : list string) (st : nft_parser) : nft_parser :=
  {| tables := tables st; in_table := in_table st; in_chain := in_chain st; comments := c; pending := pending st |}.
Definition with_pending (p : string) (st : nft_parser) : nft_parser :=
  {| tables := tables st; in_table := in_table st; in_chain := in_chain st; comments := comments st; pending := p |}.
Definition inside (table chain : bool) (st : nft_parser) : nft_parser :=
  {| tables := tables st; in_table := table; in_chain := chain; comments := comments st; pending := pending st |}.

Definition add_set (s : NftSet) (t : NftTable) : NftTable :=
  {| family := family t; nft_table := nft_table t; nft_sets := nft_sets t ++ [s]; nft_counters := nft_counters t; chains := chains t |}.
Definition add_counter (c : string) (t : NftTable) : NftTable :=
  {| family := family t; nft_table := nft_table t; nft_sets := nft_sets t; nft_counters := nft_counters t ++ [c]; chains := chains t |}.
Definition with_chains (f : list NftChain -> list NftChain) (t : NftTable) : NftTable :=
  {| family := family t; nft_table := nft_table t; nft_sets := nft_sets t; nft_counters := nft_counters t; chains := f (chains t) |}.

(** [(re.search(r, s) or [None, None])[1]]. *)
Definition found_group (r : re) (s : string) : option string := option_map (group 1) (re_search r s).

Definition up_to_semicolon (name : string) : re := cats [lit (name +:+ " "); Group 1 (some_lazy nonspace); lit ";"].
Definition ELEMENTS_RE : re := cats [lit "elements = {"; Group 1 (many (but "}")); lit "}"].

Definition set_of_body (name body : string) (comments : list string) : NftSet :=
  {| nft_set_name := name; set_type := found_group (up_to_semicolon "type") body; set_flags := found_group (up_to_semicolon "flags") body;
     set_elements := match found_group ELEMENTS_RE body with Some e => map strip (split_on "," e) | None => [] end;
     set_comment := str_join " " comments |}.

Definition VERDICT_RE : re := cats [Edge; Group 1 (Alt (lit "accept") (Alt (lit "drop") (lit "reject"))); many space; Finish].
Definition LOG_RE : re := cats [lit ("log prefix " +:+ str1 dquote); Group 1 (some (but dquote)); lit (str1 dquote)].

Definition rule_of (text : string) (comments : list string) : NftRule :=
  {| rule_text := str_join " " (split_words text); rule_verdict := found_group VERDICT_RE text; rule_comment := str_join " " comments;
     rule_log := found_group LOG_RE text |}.

(** [s.lstrip(chars)]. *)
Fixpoint lstrip_any (chars : list ascii) (s : string) : string :=
  match s with
  | String a r => if existsb (Ascii.eqb a) chars then lstrip_any chars r else s
  | EmptyString => s
  end.

Definition TABLE_RE : re := cats [lit "table "; word 1; lit " "; word 2; lit " {"].
Definition SET_RE : re := cats [lit "set "; word 1; many space; lit "{"; Group 2 (many any); lit "}"].
Definition COUNTER_RE : re := cats [lit "counter "; word 1; many space; lit "{"].
Definition CHAIN_RE : re := cats [lit "chain "; word 1; lit " {"].
Definition HOOK_RE : re :=
  cats [lit "type "; word 1; lit " hook "; word 2; lit " priority "; word 3; lit "; policy "; word 4; lit ";"].

(** A whole line of the ruleset. *)
Definition nft_text (stripped : string) (st : nft_parser) : nft_parser :=
  if String.eqb stripped "" || starts_with "#!" stripped then st
  else if starts_with "#" stripped then with_comments (comments st ++ [rstrip (lstrip_any ["#"%char; " "%char] stripped)]) st
  else
    match re_match TABLE_RE stripped with
    | Some m => with_comments [] (inside true false (with_tables (fun l => l ++
        [{| family := group 1 m; nft_table := group 2 m; nft_sets := []; nft_counters := []; chains := [] |}]) st))
    | None =>
        if negb (in_table st) then st
        else
          match (if in_chain st then None else re_match SET_RE stripped) with
          | Some m => with_comments [] (with_tables (change_last (add_set (set_of_body (group 1 m) (group 2 m) (comments st)))) st)
          | None =>
              match (if in_chain st then None else re_match COUNTER_RE stripped) with
              | Some m => with_tables (change_last (add_counter (group 1 m))) st
              | None =>
                  match re_match CHAIN_RE stripped with
                  | Some m => with_comments [] (inside true true (with_tables (change_last (with_chains (fun l => l ++
                      [{| nft_chain := group 1 m; hook := None; rules := [] |}]))) st))
                  | None =>
                      match (if in_chain st then re_match HOOK_RE stripped else None) with
                      | Some m => with_tables (change_last (with_chains (change_last (fun c =>
                          {| nft_chain := nft_chain c; hook := Some (group 1 m, group 2 m, group 3 m, group 4 m); rules := rules c |})))) st
                      | None =>
                          if String.eqb stripped "}" then with_comments [] (if in_chain st then inside true false st else inside false false st)
                          else if in_chain st then
                            with_comments [] (with_tables (change_last (with_chains (change_last (fun c =>
                              {| nft_chain := nft_chain c; hook := hook c; rules := rules c ++ [rule_of stripped (comments st)] |})))) st)
                          else st
                      end
                  end
              end
          end
    end.

Definition backslash : ascii := "\".
Definition without_backslash (s : string) : string := strip (rstrip_by (Ascii.eqb backslash) s).

(** A line, which a backslash continues on the next. *)
Definition nft_line (st : nft_parser) (raw : string) : nft_parser :=
  let stripped := strip (rstrip raw) in
  if negb (String.eqb (pending st) "") then
    let whole := pending st +:+ " " +:+ without_backslash stripped in
    if ends_with (str1 backslash) stripped then with_pending whole st else nft_text whole (with_pending "" st)
  else if ends_with (str1 backslash) stripped then with_pending (without_backslash stripped) st
  else nft_text stripped st.

Definition parse_nft (text : string) : list NftTable :=
  tables (fold_left nft_line (splitlines text) {| tables := []; in_table := false; in_chain := false; comments := []; pending := "" |}).

(** * The topology *)

(** [(node, link) -> interface], from the containerlab link list.  Who is attached to each link: *)
Definition attach (node : string) (attached : list (string * list string)) (item_ : val) : result (list (string * list string)) :=
  let? v := subscript "link" item_ in
  let? link := key_text v in
  let nodes := default [] (assoc link attached) in
  Ok (assoc_set link (if str_in node nodes then nodes else nodes ++ [node]) attached).

Definition attached_nodes (intent : mapping) : result (list (string * list string)) :=
  let? nodes := rbind (item "nodes" intent) items_of in
  foldR (fun attached entry => let? l := rbind (get_attr "attachments" (VList []) entry.2) elements_of in foldR (attach entry.1) attached l) [] nodes.

(** The link of each bridge. *)
Definition bridge_links (links : mapping) : result (list (string * string)) :=
  foldR (fun acc entry =>
    let? bridge := get_attr "bridge" VNone entry.2 in
    if truthy bridge then let? b := key_text bridge in Ok (assoc_set b entry.1 acc) else Ok acc) [] links.

Record link_end : Type := { end_node : string; end_iface : string; end_bridge : option string }.

(** [endpoint.rpartition(":")]. *)
Definition rpartition (c : ascii) (s : string) : string * string :=
  let parts := split_on c s in (str_join (str1 c) (removelast parts), List.last parts "").

Definition end_of_endpoint (bridges : list (string * string)) (endpoint : string) : link_end :=
  let '(node, iface) := rpartition ":" endpoint in
  {| end_node := node; end_iface := iface;
     end_bridge := if str_has "|" node then Some (hd "" (split_on "|" node)) else if str_in node (map fst bridges) then Some node else None |}.

(** [out[(node, link)] = iface]. *)
Definition interface_table : Type := list (string * string * string).
Fixpoint put_interface (node link iface : string) (out : interface_table) : interface_table :=
  match out with
  | [] => [(node, link, iface)]
  | (n, l, i) :: out => if String.eqb n node && String.eqb l link then (n, l, iface) :: out else (n, l, i) :: put_interface node link iface out
  end.

(** A bridge's name that is not empty. *)
Definition is_bridged (e : link_end) : bool := match end_bridge e with Some b => negb (String.eqb b "") | None => false end.

(** Every point-to-point link both nodes are attached to. *)
Definition wire_pair (links : mapping) (a b : link_end) (out : interface_table) (members : string * list string) : result interface_table :=
  if str_in (end_node a) members.2 && str_in (end_node b) members.2 then
    let? link := item members.1 links in
    let? kind := subscript "kind" link in
    Ok (if py_eq kind (VStr "p2p")
        then put_interface (end_node b) members.1 (end_iface b) (put_interface (end_node a) members.1 (end_iface a) out)
        else out)
  else Ok out.

Definition wire_entry (links : mapping) (attached : list (string * list string)) (bridges : list (string * string)) (out : interface_table) (entry : val)
    : result interface_table :=
  let? endpoints := rbind (subscript "endpoints" entry) elements_of in
  let? texts := mapR key_text endpoints in
  let ends := map (end_of_endpoint bridges) texts in
  match List.filter is_bridged ends with
  | first :: _ =>
      match assoc (default "" (end_bridge first)) bridges with
      | Some link =>
          Ok (if String.eqb link "" then out
              else fold_left (fun out e => if is_bridged e then out else put_interface (end_node e) link (end_iface e) out) ends out)
      | None => Ok out
      end
  | [] =>
      match ends with
      | [a; b] => foldR (wire_pair links a b) out attached
      | _ => Err (ValueError "not enough or too many values to unpack (expected 2)")
      end
  end.

Definition _interface_map (intent clab : mapping) : result interface_table :=
  let? links := rbind (item "links" intent) items_of in
  let? attached := attached_nodes intent in
  let? bridges := bridge_links links in
  let? topology := item "topology" clab in
  let? entries := rbind (subscript "links" topology) elements_of in
  foldR (wire_entry links attached bridges) [] entries.

(** * The settings file: names of secrets, never a value *)
Inductive secret_state : Type := Missing | Placeholder | Set_.

(** [s.split("  #")[0]]. *)
Fixpoint before_text (sep s : string) : string :=
  if starts_with sep s then "" else match s with EmptyString => "" | String a r => String a (before_text sep r) end.

(** [s.strip(chars)]. *)
Definition strip_any (chars : list ascii) (s : string) : string := lstrip_any chars (rstrip_by (fun a => existsb (Ascii.eqb a) chars) s).

Definition is_secret_name (key : string) : bool := existsb (fun part => str_contains part key) ["PASSWORD"; "SECRET"; "KEY"; "CRYPT"; "CREDENTIALS"; "TOKEN"].

Definition state_of (value : string) : secret_state :=
  if String.eqb value "" then Missing else if starts_with "CHANGE_ME" value then Placeholder else Set_.

Definition secret_row (line : string) : list (string * secret_state) :=
  if String.eqb (strip line) "" || starts_with "#" (lstrip line) || negb (str_has "=" line) then []
  else
    let '(key, _, value) := partition_on "=" line in
    let value := strip_any [chr 39; dquote] (strip (before_text "  #" value)) in
    if is_secret_name (strip key) then [(strip key, state_of value)] else [].

Definition _mask_secret_names (env : option string) : list (string * secret_state) :=
  match env with
  | None => []
  | Some text => concat (map secret_row (splitlines text))
  end.

(** [_parse_labels]. *)
Definition _parse_labels (text : string) : list (string * string) :=
  fold_left (fun d part => let '(key, sep, value) := partition_on "=" part in if sep : bool then assoc_set key value d else d) (split_on "," text) [].

(** * The server *)

(** [Cache]: a value, built again when it is asked for afresh or older than its time to live. *)
Section cache.
Context {S A : Type}.
Variable build : M S A.
Variable clock : M S Z.
Variable ttl : Z.

Record cached : Type := { cache_value : option A; cache_at : Z; cache_world : S }.
Definition in_cache {X} (m : M S X) : M cached X := fun s =>
  let '(r, w) := m (cache_world s) in (r, {| cache_value := cache_value s; cache_at := cache_at s; cache_world := w |}).

Definition rebuild : M cached A :=
  let! value := in_cache build in
  let! now := in_cache clock in
  modify (fun s => {| cache_value := Some value; cache_at := now; cache_world := cache_world s |}) ;;! ret value.

(** The clock is read only when there is a value and it need not be fresh. *)
Definition cache_get (fresh : bool) : M cached A :=
  let! held := gets cache_value in
  match held, fresh with
  | Some value, false =>
      let! now := in_cache clock in
      let! at_ := gets cache_at in
      if ttl <? now - at_ then rebuild else ret value
  | _, _ => rebuild
  end.
End cache.

Record response : Type := { status : Z; body : list Z }.
Definition plain (status : Z) (text : string) : response := {| status := status; body := utf8 text |}.

(** [serve]: the names a request may come to, when the server listens on the loopback. *)
Definition LOOPBACK : list string := ["127.0.0.1"; "localhost"; "::1"].
Definition allowed_hosts (host : string) : option (list string) := if str_in host LOOPBACK then Some LOOPBACK else None.

(** [header.rsplit(":", 1)[0].strip("[]")]. *)
Definition host_of_header (header : string) : string :=
  strip_any ["["%char; "]"%char] (match split_on ":" header with [_] | [] => header | parts => str_join ":" (removelast parts) end).

Section handler.
Context {S : Type}.
Variable allowed : option (list string).
(** The pages: the interface, the model (afresh when the query asks for it), the live status. *)
Variable index_page : M S (list Z).
Variable model : bool -> M S val.
Variable live : M S val.

Definition json_response (v : val) : response := plain 200 (dumps ", " ": " false v).

Definition page (path query : string) : M S response :=
  if str_in path ["/"; "/index.html"] then let! html := index_page in ret {| status := 200; body := html |}
  else if String.eqb path "/api/model" then let! m := model (str_contains "refresh=1" query) in ret (json_response m)
  else if String.eqb path "/api/live" then let! l := live in ret (json_response l)
  else if String.eqb path "/healthz" then ret (plain 200 "ok")
  else ret (plain 404 "not found").

(** [do_GET]: no name of a class beyond the exception's reaches the browser. *)
Definition do_GET (host_header path query : string) : M S response :=
  if match allowed with Some hosts => negb (str_in (host_of_header host_header) hosts) | None => false end
  then ret (plain 403 "forbidden host")
  else attempt (page path query) (fun r =>
    match r with
    | Ok response => ret response
    | Err e => ret (plain 500 (dumps ", " ": " false (VDict [("error", VStr (exn_name e))])))
    end).

Definition do_POST : M S response := ret (plain 405 "read-only").
End handler.
