(* ===== verification/Lab.v ===== *)
(** The runner of the laboratory ([scripts/try_linux.py]): stages of commands with their needs, what is
    reported of a failure, and the loop that runs, blocks and records them.

    What the code asks of the machine is a record of operations ([Machine]): files, programs, processes,
    the clock.  Any of them may raise, [KeyboardInterrupt] included.  The text printed for the user, the
    report's Markdown and the parsing of arguments are outside; the compliance report, whose marks are beyond
    U+00FF, is read through what the two patterns find in it. *)

From S2P Require Import Prelude PyText PyNum PyTime PyJson JsonText Policy Effects PyRe Fabric Deploy FeatureWorker.

(** * Data *)
Inductive Status : Type := PASS | FAIL | SKIP | BLOCKED | WARN.
#[global] Instance Status_eq_dec : EqDecision Status.
Proof. solve_decision. Defined.

Record Cmd : Type := {
  c_argv : option (list string);
  c_shell : option string;
  c_sudo : bool;
  c_env : list (string * string);
  c_timeout : Z;
  c_ok_codes : list Z;
  c_interactive : bool }.

(** [Cmd(argv=argv)] and [Cmd(shell=text)], with the defaults of the other fields. *)
Definition argv_cmd (argv : list string) : Cmd :=
  {| c_argv := Some argv; c_shell := None; c_sudo := false; c_env := []; c_timeout := 1800; c_ok_codes := [0]; c_interactive := false |}.
Definition shell_cmd (text : string) : Cmd :=
  {| c_argv := None; c_shell := Some text; c_sudo := false; c_env := []; c_timeout := 1800; c_ok_codes := [0]; c_interactive := false |}.
Definition with_timeout (t : Z) (c : Cmd) : Cmd :=
  {| c_argv := c_argv c; c_shell := c_shell c; c_sudo := c_sudo c; c_env := c_env c; c_timeout := t; c_ok_codes := c_ok_codes c; c_interactive := c_interactive c |}.
Definition interactively (c : Cmd) : Cmd :=
  {| c_argv := c_argv c; c_shell := c_shell c; c_sudo := c_sudo c; c_env := c_env c; c_timeout := c_timeout c; c_ok_codes := c_ok_codes c; c_interactive := true |}.
Definition as_root (env : list (string * string)) (c : Cmd) : Cmd :=
  {| c_argv := c_argv c; c_shell := c_shell c; c_sudo := true; c_env := env; c_timeout := c_timeout c; c_ok_codes := c_ok_codes c; c_interactive := c_interactive c |}.

(** [shlex.quote(s)]. *)
Definition is_plain (a : ascii) : bool := is_alnum a || existsb (Ascii.eqb a) ["_"; "@"; "%"; "+"; "="; ":"; ","; "."; "/"; "-"]%char.
Definition single : string := str1 (chr 39).
Definition shlex_quote (s : string) : string :=
  if String.eqb s "" then single +:+ single
  else if str_forallb is_plain s then s
  else single +:+ replace_char (chr 39) (single +:+ str1 dquote +:+ single +:+ str1 dquote +:+ single) s +:+ single.

Definition display (c : Cmd) : string :=
  (if c_sudo c then "sudo " else "") +:+
  match c_shell c with
  | Some text => text
  | None => str_join " " (map shlex_quote (default [] (c_argv c)))
  end.

Record Args : Type := {
  quick : bool;
  offline : bool;
  only : option string;
  start : option string;
  skip : option string;
  dry_run : bool;
  fail_fast : bool;
  no_install : bool;
  with_lstm : bool;
  no_viz : bool;
  viz_host : string;
  viz_port : Z;
  list_stages : bool;
  teardown_asked : bool;
  purge : bool }.

(** The context of a run, with the facts of the machine that do not change: [python] is [sys.executable]. *)
Record Ctx : Type := {
  args : Args;
  argv : list string;
  logdir : string;
  root : string;
  home : string;
  python : string;
  environ : list (string * string);
  is_root : bool;
  system : string;
  release : string;
  machine : string;
  has_terminal : bool }.

Inductive Mode : Type := Full | Quick | Offline.
#[global] Instance Mode_eq_dec : EqDecision Mode.
Proof. solve_decision. Defined.
Definition mode (ctx : Ctx) : Mode := if offline (args ctx) then Offline else if quick (args ctx) then Quick else Full.
Definition linux (ctx : Ctx) : bool := String.eqb (system ctx) "Linux".
Definition VENV (ctx : Ctx) : string := root ctx +:+ "/.venv".

Definition env_of (ctx : Ctx) : list (string * string) :=
  let env := environ ctx in
  let env := assoc_set "PATH" (str_join ":" [VENV ctx +:+ "/bin"; home ctx +:+ "/.local/bin"; default "" (assoc "PATH" env)]) env in
  let env := assoc_set "VIRTUAL_ENV" (VENV ctx) env in
  let env := assoc_set "PYTHONUNBUFFERED" "1" env in
  let env := match assoc "SOC_PATH" env with Some _ => env | None => assoc_set "SOC_PATH" "path-a" env end in
  let env := assoc_set "COMPOSE_PROGRESS" "plain" env in
  let env := assoc_set "DOCKER_BUILDKIT" "1" env in
  assoc_set "BUILDKIT_PROGRESS" "plain" env.

(** A hint: a pattern, searched without regard to case, the cause it points to, and the fix. *)
Record Hint : Type := { pattern : re; cause : string; fix_text : string }.

Record Result : Type := {
  res_stage : string;
  res_title : string;
  res_status : Status;
  res_seconds : Z;
  res_message : string;
  res_command : string;
  res_rc : option Z;
  res_log : string;
  res_points : list string;
  res_hints : list (string * string);
  res_diagnostics : string;
  res_tail : list string }.

(** What a program that was started came to: [Missing] when there is none of that name, [Overdue] when it
    was killed at the end of its time; the lines it printed. *)
Inductive execution : Type :=
| Exited (rc : Z) (lines : list string)
| Missing (error : string)
| Overdue (lines : list string).

(** [subprocess.run(..., capture_output=True, text=True)]. *)
Record Completed : Type := { returncode : Z; stdout : string; stderr : string }.

(** What the runner asks of the machine. *)
Record Machine (W : Type) : Type := {
  append : string -> string -> M W unit;
  write : string -> string -> M W unit;
  read : string -> M W (option string);
  exists_file : string -> M W bool;
  unlink : string -> M W unit;
  make_dir : string -> M W unit;
  list_dir : string -> M W (list string);
  which : string -> M W (option string);
  capture : list string -> option Z -> M W Completed;
  execute : list string -> list (string * string) -> bool -> Z -> M W execution;
  exec : list string -> list (string * string) -> M W unit;
  spawn : list string -> M W Z;
  has_ended : Z -> M W bool;
  kill : Z -> Z -> M W unit;
  answers : Z -> M W bool;
  health : Z -> M W Z;
  sleep : Z -> M W unit;
  monotonic : M W Z;
  disk_free : M W Z;
  keep_sudo_alive : M W unit;
  summary_of : string -> M W (option string * list (string * string)) }.
Arguments append {W}.
Arguments write {W}.
Arguments read {W}.
Arguments exists_file {W}.
Arguments unlink {W}.
Arguments make_dir {W}.
Arguments list_dir {W}.
Arguments which {W}.
Arguments capture {W}.
Arguments execute {W}.
Arguments exec {W}.
Arguments spawn {W}.
Arguments has_ended {W}.
Arguments kill {W}.
Arguments answers {W}.
Arguments health {W}.
Arguments sleep {W}.
Arguments monotonic {W}.
Arguments disk_free {W}.
Arguments keep_sudo_alive {W}.
Arguments summary_of {W}.

(** What a stage does: a check in Python, or commands. *)
Inductive work (W : Type) : Type :=
| Check (f : Ctx -> M W (Status * string))
| Commands (f : Ctx -> M W (list Cmd)).
Arguments Check {W}.
Arguments Commands {W}.

Record Stage (W : Type) : Type := {
  s_id : string;
  s_title : string;
  s_work : work W;
  s_needs : list string;
  s_modes : list Mode;
  s_hints : list Hint;
  s_warn_only : bool;
  s_finding : bool }.
Arguments s_id {W}.
Arguments s_title {W}.
Arguments s_work {W}.
Arguments s_needs {W}.
Arguments s_modes {W}.
Arguments s_hints {W}.
Arguments s_warn_only {W}.
Arguments s_finding {W}.

(** * Where and why a stage failed *)

(** [re.finditer(r, s)], for a pattern that matches no empty text. *)
Fixpoint finditer_from (r : re) (fuel : nat) (b : option ascii) (s : string) : list cursor :=
  match fuel with
  | O => []
  | S fuel =>
      match search_from r b s with
      | Some c => c :: finditer_from r fuel (PyRe.before c) (rest c)
      | None => []
      end
  end.
Definition finditer (r : re) (s : string) : list cursor := finditer_from r (S (String.length s)) None s.

Definition none_of (cs : list ascii) : re := Over (fun a => negb (existsb (Ascii.eqb a) cs)).
Definition one_of (words : list string) : re := foldr (fun w r => Alt (lit w) r) (Over (fun _ => false)) words.

Definition MAKE_ERR : re :=
  cats [lit "make"; opt (cats [lit "["; PyRe.some digit; lit "]"]); lit ": *** ["; Group 1 (PyRe.some (none_of [":"; "]"]%char)); lit ":";
        Group 2 (PyRe.some digit); lit ": "; Group 3 (PyRe.some (none_of ["]"%char])); lit "] Error "; Group 4 (PyRe.some digit)].
Definition PYTEST_FAIL : re :=
  cats [Group 1 (one_of ["FAILED"; "ERROR"]); lit " "; Group 2 (some_lazy nonspace); opt (Cat (lit " - ") (Group 3 (many any))); Finish].
Definition TRACE_FRAME : re :=
  cats [many space; lit ("File " +:+ str1 dquote); Group 1 (PyRe.some (but dquote)); lit (str1 dquote +:+ ", line "); Group 2 (PyRe.some digit); lit ", in ";
        Group 3 (PyRe.some nonspace)].
Definition EXCEPTION_LINE : re :=
  cats [PyRe.some (Over (fun a => is_letter a || Ascii.eqb a ".")); one_of ["Error"; "Exception"; "Exit"]; Edge].
Definition GENERIC_ERR : re :=
  cats [Alt LineStart space;
        one_of ["ERROR"; "Error"; "error"; "FATAL"; "fatal"; "failed"; "Failed"; "FAILED"; "denied"; "refused"; "not found"; "No such file"; "cannot"; "Cannot"];
        Edge; Over (fun a => Ascii.eqb a ":" || is_space a)].

(** [pathlib.Path(path).name]. *)
Definition path_name (path : string) : string :=
  default "" (last (List.filter (fun part => negb (String.eqb part "") && negb (String.eqb part ".")) (split_on "/" path))).

Definition make_point (m : cursor) : string :=
  "make target '" +:+ group 3 m +:+ "' failed at " +:+ group 1 m +:+ ":" +:+ group 2 m +:+ " (exit " +:+ group 4 m +:+ ")".

Definition pytest_point (line : string) : list string :=
  match re_match PYTEST_FAIL (strip line) with
  | Some m => ["pytest " +:+ py_lower (group 1 m) +:+ ": " +:+ group 2 m +:+ (if String.eqb (group 3 m) "" then "" else " - " +:+ str_take 160 (group 3 m))]
  | None => []
  end.

(** The last frame of a traceback, with the lines after it. *)
Fixpoint last_frame (lines : list string) : option (cursor * list string) :=
  match lines with
  | [] => None
  | line :: after =>
      match last_frame after with
      | Some f => Some f
      | None => option_map (fun m => (m, after)) (re_match TRACE_FRAME line)
      end
  end.

Definition frame_point (lines : list string) : list string :=
  match last_frame lines with
  | Some (m, after) =>
      let exception := default "" (List.find (fun line => matched (re_match EXCEPTION_LINE line)) (map strip (take 7 after))) in
      ["python: " +:+ path_name (group 1 m) +:+ ":" +:+ group 2 m +:+ " in " +:+ group 3 m +:+
       (if String.eqb exception "" then "" else " -> " +:+ str_take 160 exception)]
  | None => []
  end.

Definition is_error_line (line : string) : bool :=
  str_contains "Error response from daemon" line || existsb (fun p => starts_with p line) ["E: "; "ERROR: "; "Error: "; "error: "].

Definition last_error (lines : list string) : list string :=
  match List.find (fun line => matched (re_search GENERIC_ERR line) && negb (String.eqb (strip line) "")) (rev lines) with
  | Some line => [str_take 200 (strip line)]
  | None => []
  end.

Definition add_point (seen : list string) (p : string) : list string := if str_in p seen then seen else seen ++ [p].

Definition extract_failure_points (text : string) : list string :=
  let lines := splitlines text in
  let points := map make_point (finditer MAKE_ERR text) ++ concat (map pytest_point lines) ++ frame_point lines ++
    map (fun line => str_take 200 (strip line)) (List.filter is_error_line lines) in
  let points := if Nat.eqb (length points) 0 then last_error lines else points in
  take 8 (fold_left add_point points []).

(** [re.I]: every class takes a letter in either case. *)
Fixpoint no_case (r : re) : re :=
  match r with
  | Over p => Over (fun a => p a || p (lower_char a) || p (upper_char a))
  | Cat r1 r2 => Cat (no_case r1) (no_case r2)
  | Alt r1 r2 => Alt (no_case r1) (no_case r2)
  | Star greedy r => Star greedy (no_case r)
  | Group n r => Group n (no_case r)
  | Ahead r => Ahead (no_case r)
  | _ => r
  end.

Definition pair_eqb (x y : string * string) : bool := String.eqb x.1 y.1 && String.eqb x.2 y.2.

Definition add_hint (text : string) (found : list (string * string)) (h : Hint) : list (string * string) :=
  if matched (re_search (no_case (pattern h)) text) && negb (existsb (pair_eqb (cause h, fix_text h)) found)
  then found ++ [(cause h, fix_text h)] else found.

(** A text of the code with a double quote for each [@]. *)
Definition quoted : string -> string := str_map (fun a => if Ascii.eqb a "@" then dquote else a).
Definition alts (rs : list re) : re := foldr Alt (Over (fun _ => false)) rs.
Definition hint (p : re) (c f : string) : Hint := {| pattern := p; cause := c; fix_text := f |}.
Definition to_end : re := many any.

Definition GLOBAL_HINTS : list Hint :=
  [hint (Alt (cats [lit "permission denied while trying to connect to the "; one_of ["Docker"; "docker"]; lit " daemon"])
             (cats [lit "got permission denied"; to_end; lit "docker.sock"]))
     "your user cannot talk to the Docker daemon (not in the 'docker' group yet)"
     "sudo usermod -aG docker $USER && newgrp docker   # then re-run this script";
   hint (alts [lit "Cannot connect to the Docker daemon"; lit "Is the docker daemon running"; cats [lit "docker"; any; lit "sock: connect: no such file"]])
     "the Docker daemon is not running" "sudo systemctl enable --now docker";
   hint (lit "no space left on device") "the disk is full (Docker images/volumes are large)"
     "df -h /var/lib/docker .   # free space, e.g. `docker system prune` (review what it removes first)";
   hint (alts [lit "toomanyrequests"; lit "pull rate limit"; cats [lit "You have reached your "; to_end; lit "pull rate limit"]])
     "Docker Hub rate limit reached" "docker login   # an authenticated pull has a much higher limit";
   hint (alts [lit "TLS handshake timeout"; lit "i/o timeout"; lit "no such host"; lit "Temporary failure in name resolution";
               cats [lit "dial tcp "; to_end; one_of ["timeout"; "refused"]]; lit "failed to resolve source metadata";
               cats [lit (quoted "Get @https://"); many (but dquote); lit (quoted "@: "); one_of ["dial"; "net/http"]];
               lit "connection reset by peer"; lit "Could not resolve host"])
     "the machine cannot reach a container registry / package mirror (DNS, proxy or firewall)"
     "docker pull hello-world   # if this fails too, fix DNS/proxy (/etc/docker/daemon.json, HTTPS_PROXY) first";
   hint (Alt (lit "max virtual memory areas vm.max_map_count") (cats [lit "vm.max_map_count ["; PyRe.some digit; lit "] is too low"]))
     "Elasticsearch/Wazuh indexer need a larger vm.max_map_count" "sudo sysctl -w vm.max_map_count=262144";
   hint (one_of ["address already in use"; "port is already allocated"; "bind: address already in use"])
     "a host port needed by the lab is already taken" "sudo ss -ltnp | grep -E ':(5601|5602|443|80|51820|8088)\b'   # stop the owner or change the port";
   hint (one_of ["containerlab: command not found"; "sudo: containerlab: command not found"])
     "containerlab is not installed (or not on root's PATH)" (quoted "bash -c @$(curl -sL https://get.containerlab.dev)@");
   hint (alts [lit "exec format error"; cats [lit "no matching manifest for linux/"; one_of ["arm64"; "arm"]]; lit "platform (linux/amd64) does not match"])
     "CPU architecture mismatch: the pinned FRR image is linux/amd64 only" "use an x86-64 Linux host (Path A is not portable to arm64)";
   hint (alts [lit "network cxyz_mgmt declared as external"; cats [lit "network cxyz_mgmt "; to_end; lit " not found"];
               cats [lit "network "; to_end; lit "cxyz_mgmt"; to_end; lit " not found"]])
     "the management network does not exist yet (the containerlab fabric creates it)" "run the fabric stage first: ./scripts/try-on-linux.sh --only fabric-up";
   hint (Alt (lit "network cxyz_dc declared as external") (cats [lit "network cxyz_dc "; to_end; lit " not found"]))
     "the shared DC bridge network does not exist" "./scripts/try-on-linux.sh --only dc-network";
   hint (one_of ["sudo: a password is required"; "sudo: no tty present"; "sudo: a terminal is required"])
     "sudo needs a password and this shell cannot prompt for it" "run from an interactive terminal, or `sudo -v` first";
   hint (cats [lit "ModuleNotFoundError: No module named '"; one_of ["yaml"; "pytest"; "jsonschema"; "fastapi"; "sklearn"; "numpy"]; lit "'"])
     "a Python dependency is missing from the virtual environment" "./scripts/try-on-linux.sh --only deps-python";
   hint (one_of ["ansible-playbook: command not found"; "ansible: command not found"])
     "Ansible is not on PATH in the login shell the Makefile uses" "./scripts/try-on-linux.sh --only deps-python   # links it into ~/.local/bin";
   hint (alts [lit "SOC_AI_METADATA_SHA256 is unset"; cats [lit "does not match ai/registry/active/metadata"; any; lit "json"];
               cats [lit "metadata"; any; lit "json is missing"]])
     "no approved model digest in .env" "./scripts/try-on-linux.sh --only demo-model";
   hint (one_of ["Wazuh PKI directory is missing"; "missing docker/wazuh/certs"]) "the Wazuh certificates were not generated"
     "./scripts/try-on-linux.sh --only wazuh-config";
   hint (Alt (cats [lit "Unknown setting '"; PyRe.some (but (chr 39)); lit "' for "; PyRe.some (Over (fun a => ((97 <=? code a) && (code a <=? 122)) || (code a =? 95)))])
             (lit "Something is wrong with your configuration"))
     "a Logstash pipeline does not compile on the pinned Logstash (Logstash crash-loops)" "scripts/check_logstash_config.sh   # names the plugin and the setting";
   hint (alts [lit "Failed to install template"; cats [lit "_index_template/"; many (but " "); lit "'"; to_end; lit "403"];
               lit "Got response code '403' contacting Elasticsearch"])
     "a Logstash output tries to manage index templates its least-privilege role cannot write"
     "every elasticsearch output needs manage_template => false (python scripts/check_soc_static.py)";
   hint (alts [lit "is unhealthy"; lit "dependency failed to start"; cats [lit "container "; to_end; lit " exited ("; one_of ["1"; "137"; "139"]; lit ")"]])
     "a container started but never became healthy" "see the container logs captured below (the same lines are in the log file)";
   hint (one_of ["test_ntp_authenticated"; "TIME-01"; "chronyc"; "NTS"]) "TIME-01 needs the HOST clock disciplined by authenticated NTS"
     "configure chrony from host/chrony-cxyz.sources.example, then `make host-time-check`";
   hint (Alt (lit "nft: command not found") (cats [lit "nftables"; to_end; lit "not found"])) "nftables is not installed on the host" "sudo apt-get install -y nftables";
   hint (Alt (cats [lit "Operation not permitted"; to_end; lit "sysctl"]) (lit "sysctl: permission denied"))
     "sysctl is not writable here (container/WSL/restricted host)" "set the sysctl on the real host kernel"].

Definition match_hints (text : string) (extra : list Hint) : list (string * string) :=
  take 3 (fold_left (add_hint text) (extra ++ GLOBAL_HINTS) []).

Definition COMPOSE_A : list string :=
  ["docker"; "compose"; "-f"; "docker-compose.yml"; "-f"; "docker-compose.path-a.yml"; "--profile"; "soc"; "--profile"; "soc-ai"].
Definition list_fabric : list string := ["docker"; "ps"; "-a"; "--filter"; "name=clab-"; "--format"; "{{.Names}}" +:+ str1 (chr 9) +:+ "{{.Status}}"].

Definition DIAGNOSTICS : list (string * list (list string)) :=
  [("images", [["docker"; "version"]; ["docker"; "info"; "--format"; "{{.ServerVersion}} root={{.DockerRootDir}} driver={{.Driver}}"]]);
   ("soc-up", [["docker"; "compose"; "--profile"; "soc"; "ps"; "-a"];
               ["docker"; "compose"; "--profile"; "soc"; "logs"; "--tail"; "60"; "elasticsearch"; "kibana"; "logstash"]]);
   ("soc-smoke", [["docker"; "compose"; "--profile"; "soc"; "logs"; "--tail"; "60"; "logstash"; "elasticsearch"]]);
   ("soc-ai-up", [COMPOSE_A ++ ["ps"; "-a"];
                  COMPOSE_A ++ ["logs"; "--tail"; "60"; "soc-service-init"; "soc-ai-api"; "soc-response"; "soc-decision"; "soc-enrichment-worker"; "soc-feature-worker"]]);
   ("fabric-up", [["containerlab"; "inspect"; "-t"; "clab/companyxyz.clab.yml"]; list_fabric]);
   ("fabric-verify", [list_fabric]);
   ("dmzlab-up", [["docker"; "compose"; "--profile"; "dmzlab"; "ps"; "-a"];
                  ["docker"; "compose"; "--profile"; "dmzlab"; "logs"; "--tail"; "40"; "dmz-vuln"; "dmz-honeypot"]]);
   ("dmzlab-siem", [["docker"; "compose"; "--profile"; "soc"; "--profile"; "dmzlab"; "logs"; "--tail"; "60"; "logstash"; "dmz-honeypot"]]);
   ("security-up", [["docker"; "compose"; "--profile"; "siem"; "--profile"; "ids"; "--profile"; "ztna"; "--profile"; "dmz"; "ps"; "-a"];
                    ["docker"; "compose"; "--profile"; "siem"; "logs"; "--tail"; "40"; "wazuh.manager"; "wazuh-indexer"]])].

(** * The machine at hand *)
Section machine.
Context {W : Type}.
Variable m : Machine W.

Definition run_shell (argv : list string) : M W Completed := capture m argv None.
Definition ok_run (argv : list string) : M W bool := let! done_ := run_shell argv in ret (returncode done_ =? 0).

(** [ctx.py]. *)
Definition py (ctx : Ctx) : M W string :=
  let! there := exists_file m (VENV ctx +:+ "/bin/python") in ret (if there : bool then VENV ctx +:+ "/bin/python" else python ctx).

(** ** Running a command *)

(** The lines kept of an output: the first thousand go whenever there are more than four thousand. *)
Definition collect (lines : list string) : list string :=
  fold_left (fun collected line => let c := collected ++ [line] in if (4000 <? length c)%nat then drop 1000 c else c) lines [].

Definition argv_of (ctx : Ctx) (c : Cmd) : list string :=
  let argv :=
    match c_argv c with
    | Some argv => argv
    | None => ["bash"; "-o"; "pipefail"; "-c"; match c_shell c with Some t => if String.eqb t "" then "true" else t | None => "true" end]
    end in
  if c_sudo c && negb (is_root ctx) then ["sudo"; "-E"] ++ argv else argv.

Definition merged (env extra : list (string * string)) : list (string * string) := fold_left (fun d kv => assoc_set kv.1 kv.2 d) extra env.

(** The lines of the output go to the log as they come; here they are written when the program has ended. *)
Definition run_cmd (ctx : Ctx) (c : Cmd) (logfile : string) (env : list (string * string)) : M W (Z * string) :=
  let argv := argv_of ctx c in
  append m logfile (newline +:+ "$ " +:+ display c +:+ newline) ;;!
  if dry_run (args ctx) then append m logfile ("(dry run: not executed)" +:+ newline) ;;! ret (0, "")
  else
    let! ended := execute m argv (merged env (c_env c)) (c_interactive c) (c_timeout c) in
    match ended with
    | Missing error =>
        append m logfile (hd "" argv +:+ ": command not found (" +:+ error +:+ ")" +:+ newline) ;;! ret (127, hd "" argv +:+ ": command not found")
    | Overdue lines =>
        append m logfile (concat_str lines) ;;!
        append m logfile (newline +:+ "[runner] killed after " +:+ str_of_Z (c_timeout c) +:+ "s timeout" +:+ newline) ;;!
        ret (124, concat_str (collect lines) +:+ newline +:+ "command timed out after " +:+ str_of_Z (c_timeout c) +:+ "s")
    | Exited rc lines =>
        append m logfile (concat_str lines) ;;!
        (if negb (existsb (Z.eqb rc) (c_ok_codes c)) then append m logfile (newline +:+ "[runner] exit code " +:+ str_of_Z rc +:+ newline) else ret tt) ;;!
        ret (if existsb (Z.eqb rc) (c_ok_codes c) then 0 else rc, concat_str (collect lines))
    end.

(** ** Running a stage *)
Definition is_gone (e : exn) : bool := match e with TimeoutExpired | OSError _ => true | _ => false end.

Definition diagnostic (argv : list string) : M W (list string) :=
  let! found := which m (hd "" argv) in
  match found with
  | None => ret []
  | Some _ =>
      let! text := catch (let! done_ := capture m argv (Some 25) in ret (strip (stdout done_ +:+ stderr done_))) is_gone
                     (fun e => ret ("(" +:+ exn_message e +:+ ")")) in
      ret ["$ " +:+ str_join " " argv +:+ newline +:+ text]
  end.

Definition diagnose (ctx : Ctx) (stage : Stage W) (logfile : string) : M W string :=
  let! docker := (if dry_run (args ctx) then ret None else which m "docker") in
  match docker with
  | None => ret ""
  | Some _ =>
      let! out := mapM_ diagnostic (default [] (assoc (s_id stage) DIAGNOSTICS)) in
      let joined := str_join (newline +:+ newline) (concat out) in
      (if String.eqb joined "" then ret tt
       else append m logfile (newline +:+ "[diagnostics on failure]" +:+ newline +:+ joined +:+ newline)) ;;!
      ret joined
  end.

(** The result under way: its fields are set one by one, and what was set before an exception stays. *)
Definition MR (A : Type) : Type := M (Result * W) A.
Definition machine_ {A} (c : M W A) : MR A := fun s => let '(r, w) := c s.2 in (r, (s.1, w)).
Definition set_result (f : Result -> Result) : MR unit := modify (fun s => (f s.1, s.2)).

Definition new_result (id title log : string) (status : Status) (message : string) : Result :=
  {| res_stage := id; res_title := title; res_status := status; res_seconds := 0; res_message := message; res_command := ""; res_rc := None;
     res_log := log; res_points := []; res_hints := []; res_diagnostics := ""; res_tail := [] |}.
Definition set_status (status : Status) (r : Result) : Result :=
  {| res_stage := res_stage r; res_title := res_title r; res_status := status; res_seconds := res_seconds r; res_message := res_message r;
     res_command := res_command r; res_rc := res_rc r; res_log := res_log r; res_points := res_points r; res_hints := res_hints r;
     res_diagnostics := res_diagnostics r; res_tail := res_tail r |}.
Definition set_message (message : string) (r : Result) : Result :=
  {| res_stage := res_stage r; res_title := res_title r; res_status := res_status r; res_seconds := res_seconds r; res_message := message;
     res_command := res_command r; res_rc := res_rc r; res_log := res_log r; res_points := res_points r; res_hints := res_hints r;
     res_diagnostics := res_diagnostics r; res_tail := res_tail r |}.
Definition set_points (points : list string) (r : Result) : Result :=
  {| res_stage := res_stage r; res_title := res_title r; res_status := res_status r; res_seconds := res_seconds r; res_message := res_message r;
     res_command := res_command r; res_rc := res_rc r; res_log := res_log r; res_points := points; res_hints := res_hints r;
     res_diagnostics := res_diagnostics r; res_tail := res_tail r |}.
Definition set_hints (hints : list (string * string)) (r : Result) : Result :=
  {| res_stage := res_stage r; res_title := res_title r; res_status := res_status r; res_seconds := res_seconds r; res_message := res_message r;
     res_command := res_command r; res_rc := res_rc r; res_log := res_log r; res_points := res_points r; res_hints := hints;
     res_diagnostics := res_diagnostics r; res_tail := res_tail r |}.
Definition set_failure (rc : Z) (command : string) (tail : list string) (r : Result) : Result :=
  {| res_stage := res_stage r; res_title := res_title r; res_status := FAIL; res_seconds := res_seconds r; res_message := res_message r;
     res_command := command; res_rc := Some rc; res_log := res_log r; res_points := res_points r; res_hints := res_hints r;
     res_diagnostics := res_diagnostics r; res_tail := tail |}.
Definition set_diagnostics (text : string) (r : Result) : Result :=
  {| res_stage := res_stage r; res_title := res_title r; res_status := res_status r; res_seconds := res_seconds r; res_message := res_message r;
     res_command := res_command r; res_rc := res_rc r; res_log := res_log r; res_points := res_points r; res_hints := res_hints r;
     res_diagnostics := text; res_tail := res_tail r |}.
Definition set_seconds (seconds : Z) (r : Result) : Result :=
  {| res_stage := res_stage r; res_title := res_title r; res_status := res_status r; res_seconds := seconds; res_message := res_message r;
     res_command := res_command r; res_rc := res_rc r; res_log := res_log r; res_points := res_points r; res_hints := res_hints r;
     res_diagnostics := res_diagnostics r; res_tail := res_tail r |}.

Definition status_word (s : Status) : string :=
  match s with PASS => "PASS" | FAIL => "FAIL" | SKIP => "SKIP" | BLOCKED => "BLOCKED" | WARN => "WARN" end.

Definition run_check (ctx : Ctx) (stage : Stage W) (check : Ctx -> M W (Status * string)) (logfile : string) : MR unit :=
  if dry_run (args ctx) then
    set_result (fun r => set_message "dry run: check not executed" (set_status SKIP r)) ;;!
    machine_ (write m logfile (s_id stage +:+ ": dry run, check not executed" +:+ newline))
  else
    let! '(status, message) := machine_ (check ctx) in
    set_result (fun r => set_message message (set_status status r)) ;;!
    (if String.eqb (s_id stage) "host-sudo" && bool_decide (status = PASS) then machine_ (keep_sudo_alive m) else ret tt) ;;!
    machine_ (write m logfile (s_id stage +:+ ": " +:+ status_word status +:+ " " +:+ message +:+ newline)) ;;!
    if bool_decide (status = FAIL)
    then set_result (fun r => set_hints (match_hints message (s_hints stage)) (set_points [message] r)) else ret tt.

(** The last lines of an output that say something. *)
Definition tail_of (text : string) : list string :=
  let lines := List.filter (fun line => negb (String.eqb (strip line) "")) (splitlines text) in drop (length lines - 14) lines.

Fixpoint run_commands (ctx : Ctx) (stage : Stage W) (logfile : string) (cmds : list Cmd) : MR unit :=
  match cmds with
  | [] => ret tt
  | c :: cmds =>
      (if c_interactive c then machine_ (keep_sudo_alive m) else ret tt) ;;!
      let! '(rc, output) := machine_ (run_cmd ctx c logfile (env_of ctx)) in
      if rc =? 0 then run_commands ctx stage logfile cmds
      else
        set_result (set_failure rc (display c) []) ;;!
        set_result (fun r => set_hints (match_hints output (s_hints stage)) (set_points (extract_failure_points output) r)) ;;!
        set_result (set_failure rc (display c) (tail_of output)) ;;!
        let! text := machine_ (diagnose ctx stage logfile) in set_result (set_diagnostics text)
  end.

Definition stage_body (ctx : Ctx) (stage : Stage W) (logfile : string) : MR unit :=
  match s_work stage with
  | Check check => run_check ctx stage check logfile
  | Commands commands =>
      let! cmds := machine_ (commands ctx) in
      (if Nat.eqb (length cmds) 0 then set_result (fun r => set_message "nothing to do" (set_status SKIP r)) else ret tt) ;;!
      run_commands ctx stage logfile cmds
  end.

(** Every exception of the stage is its failure; what ends the runner passes. *)
Definition guarded_body (ctx : Ctx) (stage : Stage W) (logfile : string) : MR unit :=
  catch (stage_body ctx stage logfile) is_exception (fun e =>
    let message := "runner error: " +:+ exn_name e +:+ ": " +:+ exn_message e in
    set_result (fun r => set_points [message] (set_message message (set_status FAIL r)))).

Definition log_name (index : Z) (id : string) : string := dec_pad 2 index +:+ "-" +:+ id +:+ ".log".

Definition run_stage (ctx : Ctx) (stage : Stage W) (index : Z) : M W Result := fun w =>
  let logfile := logdir ctx +:+ "/" +:+ log_name index (s_id stage) in
  match monotonic m w with
  | (Err e, w) => (Err e, w)
  | (Ok started, w) =>
      match guarded_body ctx stage logfile (new_result (s_id stage) (s_title stage) logfile PASS "", w) with
      | (Err e, (_, w)) => (Err e, w)
      | (Ok _, (r, w)) =>
          match monotonic m w with
          | (Err e, w) => (Err e, w)
          | (Ok ended, w) =>
              let r := set_seconds (ended - started) r in
              (Ok (if bool_decide (res_status r = FAIL) && (s_warn_only stage || s_finding stage)
                   then set_status (if s_warn_only stage then WARN else FAIL) r else r), w)
          end
      end
  end.

(** ** Checks and commands of the stages *)

(** [s.replace(old, new)] of a text [old] that is not empty. *)
Fixpoint replace_from (old new : string) (fuel : nat) (s : string) : string :=
  match fuel with
  | O => s
  | S fuel =>
      match s with
      | EmptyString => ""
      | String a t => if starts_with old s then new +:+ replace_from old new fuel (str_skip (String.length old) s) else String a (replace_from old new fuel t)
      end
  end.
Definition replace_text (old new s : string) : string := replace_from old new (String.length s) s.

Definition os_release_line (d : list (string * string)) (line : string) : list (string * string) :=
  let '(key, _, value) := partition_on "=" line in assoc_set key (strip_char dquote (strip value)) d.

Definition os_release : M W (list (string * string)) :=
  let! text := read m "/etc/os-release" in
  ret (match text with Some text => fold_left os_release_line (splitlines text) [] | None => [] end).

Inductive Family : Type := Debian | RedHat | OtherFamily.
Definition family : M W Family :=
  let! rel := os_release in
  let ids := py_lower (default "" (assoc "ID" rel) +:+ " " +:+ default "" (assoc "ID_LIKE" rel)) in
  ret (if existsb (fun x => str_contains x ids) ["debian"; "ubuntu"] then Debian
       else if existsb (fun x => str_contains x ids) ["fedora"; "rhel"; "centos"; "rocky"; "almalinux"] then RedHat
       else OtherFamily).

(** [int] of the second word of the line of [MemTotal], if there is such a line. *)
Definition total_memory (text : string) : result (option Z) :=
  match List.find (starts_with "MemTotal:") (splitlines text) with
  | None => Ok None
  | Some line =>
      match split_words line with
      | _ :: word :: _ => let? kb := int_of_text word in Ok (Some kb)
      | _ => Err (IndexError "list index out of range")
      end
  end.

Definition memory_kb : M W (option Z) :=
  catch (let! text := read m "/proc/meminfo" in
         match text with
         | None => raise (OSError "No such file or directory")
         | Some text => lift (total_memory text)
         end)
    (fun e => match e with OSError _ => true | _ => is_value_error e end) (fun _ => ret None).

(** [f"{kb / 1024 / 1024:.1f}"]: the division by a power of two is exact. *)
Definition gib (kb : Z) : string := let tenths := div_half_even (kb * 10) (2 ^ 20) in digits 10 (tenths / 10) +:+ "." +:+ digits 10 (tenths mod 10).

Definition memory_notes (ctx : Ctx) (kb : option Z) : list string * list string :=
  match kb with
  | None => ([], ["could not read /proc/meminfo"])
  | Some kb =>
      let need := if bool_decide (mode ctx = Full) then 12 else 8 in
      (if 2 * kb <? (2 * need - 1) * 2 ^ 20
       then ["only " +:+ gib kb +:+ " GiB RAM; " +:+ str_of_Z need +:+ " GiB are needed for this mode (Wazuh indexer + Elasticsearch are heavy)"]
       else [], [])
  end.

Definition cpu_notes (ctx : Ctx) : list string * list string :=
  let cpu := py_lower (machine ctx) in
  if str_in cpu ["x86_64"; "amd64"] then ([], [])
  else if bool_decide (mode ctx = Full)
  then (["CPU is " +:+ cpu +:+ ": the pinned FRR fabric image is linux/amd64 only. Use --quick (no fabric) or an x86-64 host."], [])
  else ([], ["CPU is " +:+ cpu +:+ "; some images may be emulated"]).

Definition check_host (ctx : Ctx) : M W (Status * string) :=
  if bool_decide (mode ctx = Offline) then ret (PASS, "offline mode runs anywhere (" +:+ system ctx +:+ " " +:+ release ctx +:+ " " +:+ machine ctx +:+ ")")
  else if negb (linux ctx)
  then ret (FAIL, "this stage needs a Linux host (found " +:+ system ctx +:+ "). Use --offline here, or run on an x86-64 Linux machine.")
  else
    let! rel := os_release in
    let os := default "Linux" (assoc "PRETTY_NAME" rel) +:+ " / kernel " +:+ release ctx +:+ " / " +:+ machine ctx in
    let '(p1, n1) := cpu_notes ctx in
    let! kb := memory_kb in
    let '(p2, n2) := memory_notes ctx kb in
    let! free := disk_free m in
    let free_text := str_of_Z (div_half_even free (2 ^ 30)) in
    let p3 := if free <? 25 * 2 ^ 30
              then ["only " +:+ free_text +:+ " GiB free in " +:+ root ctx +:+ "; at least 25 GiB are needed for images and volumes"] else [] in
    let! fam := family in
    let n3 := match fam with
              | OtherFamily => ["unrecognised distribution: automatic package installation is limited to Debian/Ubuntu and Fedora/RHEL families"]
              | _ => []
              end in
    let! cgroup := exists_file m "/sys/fs/cgroup" in
    let p4 := if cgroup : bool then [] else ["no cgroup filesystem: containers cannot run here"] in
    let problems := p1 ++ p2 ++ p3 ++ p4 in
    if negb (Nat.eqb (length problems) 0) then ret (FAIL, str_join "; " problems)
    else ret (PASS, str_join "; " ([os; from_option (fun kb => gib kb +:+ " GiB") "?" kb +:+ " RAM"; free_text +:+ " GiB free"] ++ n1 ++ n2 ++ n3)).

Definition check_sudo (ctx : Ctx) : M W (Status * string) :=
  if is_root ctx then ret (PASS, "running as root")
  else
    let! sudo := which m "sudo" in
    match sudo with
    | None => ret (FAIL, "sudo is not installed and you are not root (the lab needs root for containerlab, sysctl and package installs)")
    | Some _ =>
        let! passwordless := ok_run ["sudo"; "-n"; "true"] in
        if passwordless : bool then ret (PASS, "passwordless sudo")
        else if negb (has_terminal ctx)
        then ret (FAIL, "sudo needs a password and there is no terminal to ask for it: run `sudo -v` first, or run from an interactive shell")
        else let! ok := ok_run ["sudo"; "-v"] in
             ret (if ok : bool then (PASS, "sudo authenticated") else (FAIL, "sudo authentication failed"))
    end.

Definition noninteractive : list (string * string) := [("DEBIAN_FRONTEND", "noninteractive")].
Definition sudo_cmd (env : list (string * string)) (argv : list string) : Cmd := interactively (as_root env (argv_cmd argv)).

Definition pkg_install (ctx : Ctx) : M W (list Cmd) :=
  let! fam := family in
  ret (if no_install (args ctx) then []
       else match fam with
            | Debian =>
                [sudo_cmd noninteractive ["apt-get"; "update"; "-y"];
                 sudo_cmd noninteractive (["apt-get"; "install"; "-y"; "--no-install-recommends"] ++
                   ["ca-certificates"; "curl"; "git"; "make"; "jq"; "openssl"; "iproute2"; "python3"; "python3-venv"; "python3-pip"; "nftables"])]
            | RedHat =>
                [sudo_cmd [] (["dnf"; "install"; "-y"] ++
                   ["ca-certificates"; "curl"; "git"; "make"; "jq"; "openssl"; "iproute"; "python3"; "python3-pip"; "nftables"])]
            | OtherFamily =>
                [shell_cmd "echo 'unsupported distribution: install curl git make jq openssl iproute2 python3 python3-venv nftables yourself' >&2; exit 3"]
            end).

Definition start_docker : Cmd := sudo_cmd [] ["systemctl"; "enable"; "--now"; "docker"].

Definition docker_install (ctx : Ctx) : M W (list Cmd) :=
  if no_install (args ctx) then ret []
  else
    let! docker := which m "docker" in
    let! compose_ok := (match docker with Some _ => ok_run ["docker"; "compose"; "version"] | None => ret false end) in
    if compose_ok : bool then ret [start_docker]
    else
      let! rel := os_release in
      let! fam := family in
      let ubuntu := match fam with Debian => true | _ => false end && String.eqb (default "" (assoc "ID" rel)) "ubuntu" &&
                    str_leb "24.04" (default "0" (assoc "VERSION_ID" rel)) in
      ret [if ubuntu then sudo_cmd noninteractive ["apt-get"; "install"; "-y"; "docker.io"; "docker-compose-v2"]
           else with_timeout 900 (interactively (shell_cmd
             (quoted "d=$(mktemp -d) && curl -fsSL https://get.docker.com -o @$d/get-docker.sh@ && sudo sh @$d/get-docker.sh@")));
           start_docker].

Definition check_docker_access (ctx : Ctx) : M W (Status * string) :=
  let! docker := which m "docker" in
  match docker with
  | None => ret (FAIL, "docker is not installed (re-run without --no-install)")
  | Some _ =>
      let! info := run_shell ["docker"; "info"; "--format"; "{{.ServerVersion}}"] in
      if returncode info =? 0 then
        let! compose := run_shell ["docker"; "compose"; "version"; "--short"] in
        if negb (returncode compose =? 0) then ret (FAIL, "Docker Compose v2 plugin is missing ('docker compose version' failed)")
        else ret (PASS, "Docker " +:+ strip (stdout info) +:+ ", Compose " +:+ strip (stdout compose))
      else
        let err := strip (stdout info +:+ stderr info) in
        let unusable := (FAIL, "the Docker daemon is not usable: " +:+
          match splitlines err with line :: _ => str_take 200 line | [] => "docker info failed" end) in
        if matched (re_search (no_case (lit "permission denied")) err) && negb (is_root ctx) then
          if negb (String.eqb (default "" (assoc "CXYZ_SG_DONE" (environ ctx))) "")
          then ret (FAIL, "still no permission on the Docker socket even after joining the 'docker' group: log out and back in, then re-run")
          else
            let! _ := run_shell ["sudo"; "usermod"; "-aG"; "docker"; default "" (assoc "USER" (environ ctx))] in
            exec m ["sg"; "docker"; "-c"; str_join " " (map shlex_quote ([python ctx; root ctx +:+ "/scripts/try_linux.py"] ++ argv ctx ++ ["--from"; "deps-docker"]))]
              (assoc_set "CXYZ_SG_DONE" "1" (environ ctx)) ;;!
            ret unusable
        else ret unusable
  end.

Fixpoint first_found (names : list string) : M W (option string) :=
  match names with
  | [] => ret None
  | name :: names => let! found := which m name in match found with Some path => ret (Some path) | None => first_found names end
  end.

Definition find_python : M W (option string) :=
  let! found := first_found ["python3.12"; "python3.13"; "python3.11"] in
  match found with
  | Some path => ret (Some path)
  | None =>
      let! current := which m "python3" in
      match current with
      | None => ret None
      | Some path =>
          let! out := run_shell [path; "-c"; "import sys;print(sys.version_info[:2]>=(3, 11))"] in
          ret (if String.eqb (strip (stdout out)) "True" then Some path else None)
      end
  end.

Definition make_venv (ctx : Ctx) (found : option string) : Cmd :=
  match found with
  | Some path => argv_cmd [path; "-m"; "venv"; VENV ctx]
  | None => with_timeout 900 (shell_cmd ("python3 -m pip install --user --break-system-packages uv >/dev/null 2>&1 || python3 -m pip install --user uv; " +:+
              "~/.local/bin/uv venv --python 3.12 " +:+ shlex_quote (VENV ctx)))
  end.

Definition python_env_cmds (ctx : Ctx) : M W (list Cmd) :=
  if no_install (args ctx)
  then let! p := py ctx in ret [argv_cmd [p; "-c"; "import yaml, pytest, jsonschema, fastapi, sklearn; print('dependencies already present')"]]
  else
    let! found := find_python in
    let! there := exists_file m (VENV ctx +:+ "/bin/python") in
    let pip := [VENV ctx +:+ "/bin/python"; "-m"; "pip"] in
    let requirements := ["requirements-ci.txt"; "requirements-soc-test.txt"; "requirements-soc-live.txt"] ++
      (if with_lstm (args ctx) then ["requirements-soc-lstm.txt"] else []) in
    let extra := if with_lstm (args ctx) then ["--extra-index-url"; "https://download.pytorch.org/whl/cpu"] else [] in
    let q := shlex_quote (VENV ctx) in
    let! ansible := exists_file m (root ctx +:+ "/ansible/requirements.yml") in
    ret ((if there : bool then [] else [make_venv ctx found]) ++
         [argv_cmd (pip ++ ["install"; "--upgrade"; "pip"]);
          with_timeout 2400 (argv_cmd (pip ++ ["install"] ++ extra ++ concat (map (fun r => ["-r"; r]) requirements)));
          shell_cmd ("mkdir -p ~/.local/bin && for t in ansible ansible-playbook ansible-galaxy ansible-lint yamllint; do " +:+
            "[ -e " +:+ q +:+ "/bin/$t ] && [ ! -e ~/.local/bin/$t ] && ln -s " +:+ q +:+ "/bin/$t ~/.local/bin/$t; done; true")] ++
         (if ansible : bool
          then [with_timeout 900 (argv_cmd [VENV ctx +:+ "/bin/ansible-galaxy"; "collection"; "install"; "-r"; "ansible/requirements.yml"])] else [])).

Definition containerlab_cmds (ctx : Ctx) : M W (list Cmd) :=
  let! found := which m "containerlab" in
  let version := argv_cmd ["containerlab"; "version"] in
  ret (if match found with Some _ => true | None => no_install (args ctx) end then [version]
       else [with_timeout 900 (interactively (shell_cmd "d=$(mktemp -d); curl -sL https://get.containerlab.dev -o $d/install.sh && sudo bash $d/install.sh")); version]).

Definition sysctl_cmds (ctx : Ctx) : M W (list Cmd) :=
  ret (map (fun setting => sudo_cmd [] ["sysctl"; "-w"; setting]) ["vm.max_map_count=262144"; "fs.inotify.max_user_instances=1024"; "net.ipv4.ip_forward=1"]).

Definition static_cmds (ctx : Ctx) : M W (list Cmd) :=
  let! p := py ctx in
  let! kubectl := which m "kubectl" in
  ret (map (fun check => argv_cmd (p :: check))
         [["scripts/render_fabric.py"; "--check"]; ["scripts/render_batfish_snapshot.py"; "--check"]; ["scripts/render_vm_inventory.py"; "--check"];
          ["scripts/render_k8s_assets.py"; "--check"]; ["scripts/check_vyos_boot.py"]; ["scripts/check_path_b_intent.py"];
          ["scripts/security_static_checks.py"]; ["scripts/check_image_lock.py"]; ["scripts/check_soc_static.py"];
          ["scripts/check_soc_ai_static.py"]; ["scripts/check_ci_contract.py"]; ["scripts/check_yaml_syntax.py"];
          ["scripts/netviz.py"; "--check"]; ["compliance/check_wiring.py"]] ++
       match kubectl with Some _ => [argv_cmd [p; "scripts/check_k8s_schema.py"]] | None => [] end).

Definition profiles (names : list string) : list string := concat (map (fun p => ["--profile"; p]) names).

Definition compose_cmds (ctx : Ctx) : M W (list Cmd) :=
  ret [argv_cmd (["docker"; "compose"; "--env-file"; ".env.example"] ++
         profiles ["siem"; "ids"; "ztna"; "dmz"; "vpn-test"; "soc"; "soc-ai"; "dmzlab"] ++ ["config"; "--quiet"]);
       argv_cmd (["docker"; "compose"; "--env-file"; ".env.example"; "-f"; "docker-compose.yml"; "-f"; "docker-compose.path-a.yml"] ++
         profiles ["soc"; "soc-ai"] ++ ["config"; "--quiet"]);
       argv_cmd [VENV ctx +:+ "/bin/yamllint"; "."]].

(** The explorer: the one that runs already, or a new one on the first port of twenty that nobody answers on. *)
Definition pidfile (ctx : Ctx) : string := root ctx +:+ "/.cxyz-state/netviz.pid".
Definition pid_word (ctx : Ctx) (n : nat) : M W Z :=
  let! text := read m (pidfile ctx) in
  match text with
  | None => raise (OSError "No such file or directory")
  | Some text => match split_words text !! n with Some word => lift (int_of_text word) | None => raise (IndexError "list index out of range") end
  end.
Definition local_url (port : Z) : string := "http://127.0.0.1:" +:+ str_of_Z port.
Definition is_os_error (e : exn) : bool := match e with OSError _ => true | _ => false end.
Definition no_explorer (e : exn) : bool := match e with OSError _ | IndexError _ => true | _ => is_value_error e end.

Definition running_explorer (ctx : Ctx) : M W (option (Status * string)) :=
  let! there := exists_file m (pidfile ctx) in
  if there : bool then
    catch (let! pid := pid_word ctx 0 in kill m pid 0 ;;!
           let! port := pid_word ctx 1 in ret (Some (PASS, "already running: " +:+ local_url port)))
      no_explorer (fun _ => unlink m (pidfile ctx) ;;! ret None)
  else ret None.

Fixpoint free_port (otherwise : Z) (n : nat) (candidate : Z) : M W Z :=
  match n with
  | O => ret otherwise
  | S n => let! taken := answers m candidate in if taken : bool then free_port otherwise n (candidate + 1) else ret candidate
  end.

Fixpoint await_explorer (ctx : Ctx) (pid port : Z) (n : nat) : M W (Status * string) :=
  match n with
  | O => ret (FAIL, "the network explorer did not start; see " +:+ logdir ctx +:+ "/netviz.log")
  | S n =>
      sleep m 250000 ;;!
      let! up := catch (let! status := health m port in
                        if status =? 200 then write m (pidfile ctx) (str_of_Z pid +:+ " " +:+ str_of_Z port +:+ newline) ;;! ret (Some true) else ret (Some false))
                   is_os_error (fun _ => let! ended := has_ended m pid in ret (if ended : bool then None else Some false)) in
      match up with
      | Some true => ret (PASS, "network explorer: " +:+ local_url port +:+ "  (stop: make netviz-stop)")
      | Some false => await_explorer ctx pid port n
      | None => ret (FAIL, "the network explorer did not start; see " +:+ logdir ctx +:+ "/netviz.log")
      end
  end.

Definition viz_start (ctx : Ctx) : M W (Status * string) :=
  if no_viz (args ctx) then ret (SKIP, "disabled with --no-viz")
  else
    make_dir m (root ctx +:+ "/.cxyz-state") ;;!
    let! running := running_explorer ctx in
    match running with
    | Some answer => ret answer
    | None =>
        let! port := free_port (viz_port (args ctx)) 20 (viz_port (args ctx)) in
        let! p := py ctx in
        let! pid := spawn m [p; "scripts/netviz.py"; "--host"; viz_host (args ctx); "--port"; str_of_Z port] in
        await_explorer ctx pid port 40
    end.

Definition make (target : string) : Cmd := argv_cmd ["make"; target].
Definition make_for (t : Z) (target : string) : Cmd := with_timeout t (make target).
Definition fixed (cmds : list Cmd) : work W := Commands (fun _ => ret cmds).

Definition DIGEST_SET : re := cats [LineStart; lit "SOC_AI_METADATA_SHA256="; times 64 lower_hex; many space; LineEnd].

Definition demo_model_cmds (ctx : Ctx) : M W (list Cmd) :=
  let! env := read m (root ctx +:+ "/.env") in
  let env_ok := match env with Some text => matched (re_search DIGEST_SET text) | None => false end in
  let! registry := exists_file m (root ctx +:+ "/ai/registry/active/metadata.json") in
  let! p := py ctx in
  let preflight := argv_cmd [p; "scripts/soc_ai_preflight.py"] in
  ret (if (registry : bool) && env_ok then [preflight]
       else [with_timeout 1500 (argv_cmd ([p; "scripts/demo_registry.py"; "--write-env"] ++ (if with_lstm (args ctx) then ["--with-lstm"] else []))); preflight]).

Definition mgmt_network_cmds (ctx : Ctx) : M W (list Cmd) :=
  ret (if bool_decide (mode ctx = Quick)
       then [shell_cmd ("docker network inspect cxyz_mgmt >/dev/null 2>&1 || docker network create --subnet 10.1.1.0/24 --gateway 10.1.1.1 " +:+
               "--label com.cxyz.created-by=try-on-linux-quick cxyz_mgmt")]
       else []).

(** [x or y] of texts. *)
Definition text_or (x y : string) : string := if String.eqb x "" then y else x.

Definition FABRIC : list string := ["isp1"; "isp2"; "edge"; "fw-core"; "core"; "dist1"; "dist2"; "pc1"; "pc4"; "server1"; "fw-dmz"; "dmz-web"].

(** The first complaint of a list of checks. *)
Fixpoint first_problem {A} (check : A -> M W (option string)) (l : list A) : M W (option string) :=
  match l with
  | [] => ret None
  | x :: l => let! problem := check x in match problem with Some p => ret (Some p) | None => first_problem check l end
  end.

Definition blocklist_problem (fw : string * string) : M W (option string) :=
  let! check := run_shell ["docker"; "exec"; "clab-companyxyz-" +:+ fw.1; "nft"; "list"; "set"; "inet"; fw.2; "soc_blocklist"] in
  ret (if returncode check =? 0 then None
       else Some (fw.1 +:+ ": nftables set inet " +:+ fw.2 +:+ " soc_blocklist is missing (" +:+ str_take 120 (strip (text_or (stderr check) (stdout check))) +:+ ")")).

Definition listener_problem (fw : string) : M W (option string) :=
  let! listen := run_shell ["docker"; "exec"; "clab-companyxyz-" +:+ fw; "sh"; "-c"; "ss -ltn 2>/dev/null | grep -q ':9443' "] in
  ret (if returncode listen =? 0 then None
       else Some (fw +:+ ": the enforcement agent is not listening on 9443 (see /var/log/cxyz-enforcer.log inside the container)")).

Definition fabric_verify (ctx : Ctx) : M W (Status * string) :=
  let! ps := run_shell ["docker"; "ps"; "--filter"; "name=clab-companyxyz-"; "--format"; "{{.Names}} {{.Status}}"] in
  let rows := List.filter (fun line => negb (String.eqb (strip line) "")) (splitlines (stdout ps)) in
  let running := List.filter (str_contains " Up") rows in
  if (length running <? 12)%nat then
    let names := map (fun r => replace_text "clab-companyxyz-" "" (hd "" (split_words r))) running in
    ret (FAIL, str_of_Z (Z.of_nat (length running)) +:+ "/12 lab nodes are running; not running: " +:+ str_join ", " (sort_by str_leb (keys_minus FABRIC names)))
  else
    let! problem := first_problem blocklist_problem [("fw-core", "cxyz"); ("fw-dmz", "dmz")] in
    match problem with
    | Some p => ret (FAIL, p)
    | None =>
        let! problem := first_problem listener_problem ["fw-core"; "fw-dmz"] in
        match problem with
        | Some p => ret (FAIL, p)
        | None => ret (PASS, "12/12 nodes running, containment sets present, enforcement agents listening")
        end
    end.

(** *** The DMZ laboratory *)
Definition _docker (argv : list string) : M W Completed := capture m ("docker" :: argv) (Some 30).
Definition DMZ_TARGET : string := "195.1.1.161".
Definition lab_node (name : string) : string := "clab-companyxyz-" +:+ name.

(** The container of a service, or why it does not run. *)
Definition running_service (service : string) : M W (string + string) :=
  let! ps := _docker ["ps"; "--filter"; "label=com.docker.compose.service=" +:+ service; "--format"; "{{.ID}} {{.Status}}"] in
  let row := hd "" (splitlines (strip (stdout ps))) in
  if negb (str_contains " Up" row)
  then ret (inr (service +:+ " is not running (docker compose --profile dmzlab logs " +:+ service +:+
                 "); it joins the dmz-web namespace, so restart it after any `make net`"))
  else match split_words row with
       | id :: _ => ret (inl id)
       | [] => raise (IndexError "list index out of range")
       end.

Fixpoint await_shop (n : nat) (code : string) : M W string :=
  match n with
  | O => ret code
  | S n =>
      let! got := _docker ["exec"; lab_node "pc1"; "curl"; "-s"; "-o"; "/dev/null"; "-m"; "6"; "-w"; "%{http_code}"; "http://" +:+ DMZ_TARGET +:+ ":3000/"] in
      let code := strip (stdout got) in
      if String.eqb code "200" then ret code else sleep m 5000000 ;;! await_shop n code
  end.

Definition pivot_problem (dest : string) : M W (option string) :=
  let! probe := _docker ["exec"; lab_node "dmz-web"; "sh"; "-c"; "nc -zw 3 " +:+ dest +:+ " 22"] in
  ret (if returncode probe =? 0
       then Some ("ISOLATION BROKEN: the DMZ host reached " +:+ dest +:+ ":22 - the pivot deny on fw-dmz is not working") else None).

(** [next(item["counter"]["packets"] for item in ... if "counter" in item)]: [None] when there is none. *)
Fixpoint first_counter (items : list val) : result (option val) :=
  match items with
  | [] => Ok None
  | i :: items =>
      let? has := contains "counter" i in
      if has : bool then let? c := subscript "counter" i in let? p := subscript "packets" c in Ok (Some p) else first_counter items
  end.

Definition packet_count (text : string) : result (option val) :=
  try_except (let? v := loads text in let? l := subscript "nftables" v in let? items := elements_of l in first_counter items)
    (fun e => match e with KeyError _ => true | _ => is_value_error e end) (fun _ => Ok None).

Definition below_one (v : val) : result bool :=
  match as_number v with Some n => Ok (num_ltb n (PInt 1)) | None => Err (TypeError "'<' not supported") end.

Definition counter_value (name : string) : M W (val + string) :=
  let! out := _docker ["exec"; lab_node "fw-dmz"; "nft"; "-j"; "list"; "counter"; "inet"; "dmz"; name] in
  let! count := lift (packet_count (stdout out)) in
  match count with
  | None => ret (inr ("fw-dmz has no counter " +:+ name +:+ ": the DMZ-lab rules are not loaded (restart the fabric so clab/configs/fw-dmz.nft is applied)"))
  | Some v =>
      let! low := lift (below_one v) in
      ret (if low : bool then inr ("fw-dmz counter " +:+ name +:+ " did not move although traffic was sent: the traffic is not crossing the firewall") else inl v)
  end.

(** [let x := problem or value]. *)
Definition or_fail {A} (x : M W (A + string)) (k : A -> M W (Status * string)) : M W (Status * string) :=
  let! r := x in match r with inl a => k a | inr problem => ret (FAIL, problem) end.

Definition honeypot_log (vuln_hits honeypot_hits : val) (honeypot : string) : M W (Status * string) :=
  let! log := capture m ["docker"; "cp"; honeypot +:+ ":/cowrie/cowrie-git/var/log/cowrie/cowrie.json"; "-"] (Some 20) in
  if (returncode log =? 0) && negb (str_contains "cowrie.session.connect" (replace_char (chr 0) "" (stdout log)))
  then ret (WARN, "the honeypot answered but its JSON log has no session record yet (log buffering); re-check in a minute")
  else ret (PASS, "Juice Shop 200 + SSH honeypot banner via fw-dmz; DMZ host cannot reach internal zones; fw-dmz counters vuln=" +:+
                  str_val vuln_hits +:+ " honeypot=" +:+ str_val honeypot_hits).

Definition dmzlab_verify (ctx : Ctx) : M W (Status * string) :=
  or_fail (running_service "dmz-vuln") (fun vuln =>
  or_fail (running_service "dmz-honeypot") (fun honeypot =>
  let! code := await_shop 18 "" in
  if negb (String.eqb code "200")
  then ret (FAIL, "Juice Shop did not answer HTTP 200 from pc1 through fw-dmz (got " +:+ text_or code "nothing" +:+
                  "): check the fw-dmz rule CXYZ-DMZLAB-VULN and `docker logs " +:+ vuln +:+ "`")
  else
    let! ssh := _docker ["exec"; lab_node "pc1"; "sh"; "-c"; "nc -w 3 " +:+ DMZ_TARGET +:+ " 2222 </dev/null | head -c 20"] in
    let banner := stdout ssh in
    if negb (starts_with "SSH-2.0" banner)
    then ret (FAIL, "the honeypot did not present an SSH banner on tcp/2222 (got " +:+ py_repr banner +:+ "); see `docker logs " +:+ honeypot +:+ "`")
    else
      let! pivot := first_problem pivot_problem ["172.16.50.1"; "192.168.10.1"] in
      match pivot with
      | Some problem => ret (FAIL, problem)
      | None =>
          or_fail (counter_value "dmzlab_vuln_hit") (fun v =>
          or_fail (counter_value "dmzlab_honeypot_hit") (fun h => honeypot_log v h honeypot))
      end)).

Definition report_summary (ctx : Ctx) : M W (Status * string) :=
  let! runs := list_dir m (root ctx +:+ "/evidence/runs") in
  match last (sort_by str_leb runs) with
  | None => ret (WARN, "no evidence run found (validation stages did not produce evidence)")
  | Some run =>
      let out := root ctx +:+ "/evidence/COMPLIANCE-REPORT.md" in
      let! p := py ctx in
      let! done_ := run_shell [p; "-m"; "compliance.generate_report"; "--profile"; "path-a"; "--run"; run; "--out"; out] in
      if negb (returncode done_ =? 0) then
        match last (splitlines (strip (stdout done_ +:+ stderr done_))) with
        | Some line => ret (FAIL, str_take 200 line)
        | None => raise (IndexError "list index out of range")
        end
      else
        let! '(summary, bad) := summary_of m out in
        let message := from_option (replace_text "**" "") "report written" summary +:+ "  -> evidence/COMPLIANCE-REPORT.md" in
        ret (if Nat.eqb (length bad) 0 then (PASS, message)
             else (WARN, message +:+ "; not passing: " +:+ str_join ", " (map (fun b => b.1 +:+ " (" +:+ b.2 +:+ ")") bad)))
  end.

(** *** The stages *)
Definition both : list Mode := [Full; Quick].
Definition all_modes : list Mode := [Full; Quick; Offline].

Definition stage (id title : string) (w : work W) (needs : list string) (modes : list Mode) : Stage W :=
  {| s_id := id; s_title := title; s_work := w; s_needs := needs; s_modes := modes; s_hints := []; s_warn_only := false; s_finding := false |}.
Definition finding (hints : list Hint) (s : Stage W) : Stage W :=
  {| s_id := s_id s; s_title := s_title s; s_work := s_work s; s_needs := s_needs s; s_modes := s_modes s; s_hints := hints; s_warn_only := s_warn_only s;
     s_finding := true |}.
Definition with_hints (hints : list Hint) (s : Stage W) : Stage W :=
  {| s_id := s_id s; s_title := s_title s; s_work := s_work s; s_needs := s_needs s; s_modes := s_modes s; s_hints := hints; s_warn_only := s_warn_only s;
     s_finding := s_finding s |}.

Definition offline_tests (ctx : Ctx) : M W (list Cmd) :=
  let! p := py ctx in ret [argv_cmd [p; "-m"; "pytest"; "tests/unit"; "tests/soc"; "-q"; "-rf"; "-p"; "no:cacheprovider"]].

Definition build_stages (ctx : Ctx) : list (Stage W) :=
  [stage "host-os" "Check the machine (OS, CPU, RAM, disk)" (Check check_host) [] all_modes;
   stage "host-sudo" "Check sudo (needed for packages, sysctl, containerlab)" (Check check_sudo) ["host-os"] both;
   stage "deps-packages" "Install base packages" (Commands pkg_install) ["host-sudo"] both;
   stage "deps-docker" "Install and start Docker + Compose" (Commands docker_install) ["deps-packages"] both;
   stage "deps-docker-access" "Verify this user can use Docker" (Check check_docker_access) ["deps-docker"] both;
   stage "deps-containerlab" "Install containerlab" (Commands containerlab_cmds) ["deps-packages"] [Full];
   stage "deps-sysctl" "Kernel settings (vm.max_map_count, inotify, forwarding)" (Commands sysctl_cmds) ["host-sudo"] both;
   stage "deps-python" "Python virtualenv + test requirements" (Commands python_env_cmds) ["host-os"] all_modes;
   stage "offline-static" "Static gates (render --check, security/SOC/CI invariants, wiring)" (Commands static_cmds) ["deps-python"] all_modes;
   finding [] (stage "offline-tests" "Unit + SOC test suites (pytest)" (Commands offline_tests) ["deps-python"] all_modes);
   stage "offline-compose" "Docker Compose model + YAML lint" (Commands compose_cmds) ["deps-python"; "deps-docker-access"] both;
   stage "viz-start" "Start the network explorer (clickable topology)" (Check viz_start) ["deps-python"] all_modes;
   stage "secrets" "Generate .env, keys and the SOC PKI" (fixed [make "secrets"]) ["deps-python"] both;
   stage "images" "Build the local service images" (fixed [make_for 3600 "images"]) ["deps-docker-access"; "secrets"] both;
   stage "dc-network" "Create the shared DC bridge network" (fixed [interactively (make "dc-network")]) ["deps-docker-access"; "secrets"] both;
   stage "wazuh-config" "Generate the Wazuh certificates" (fixed [make "wazuh-config"]) ["images"; "dc-network"] both;
   stage "fabric-up" "Deploy the routed fabric (containerlab, 12 nodes)" (fixed [interactively (make_for 2400 "net")])
     ["deps-containerlab"; "dc-network"; "deps-sysctl"] [Full];
   stage "fabric-verify" "Verify the fabric: 12 nodes, containment sets, enforcement agents" (Check fabric_verify) ["fabric-up"] [Full];
   stage "security-up" "Start Wazuh, Suricata, ZTNA and the DMZ app" (fixed [make_for 3000 "security"]) ["wazuh-config"; "fabric-verify"] [Full];
   stage "soc-up" "Start the SOC analytics plane (Elasticsearch, Logstash, Kibana)" (fixed [make_for 2400 "soc-up"; make "soc-health"])
     ["images"; "dc-network"; "deps-sysctl"] both;
   stage "soc-smoke" "Prove ingestion: four sources, malformed input, dashboard" (fixed [make_for 900 "soc-smoke"]) ["soc-up"] both;
   stage "mgmt-network" "Management network for the orchestrator (quick mode only)" (Commands mgmt_network_cmds) ["deps-docker-access"] [Quick];
   stage "demo-model" "Build a DEMO approved model (synthetic data; proves wiring only)" (Commands demo_model_cmds) ["deps-python"; "secrets"] both;
   stage "soc-ai-up" "Start features, inference, enrichment, decision, orchestrator (observe mode)" (fixed [make_for 2400 "soc-ai-up"; make "soc-ai-status"])
     ["soc-smoke"; "demo-model"; "mgmt-network"] both;
   stage "dmzlab-up" "Start the DMZ deception lab (OWASP Juice Shop + Cowrie honeypot behind fw-dmz)" (fixed [make_for 1800 "dmzlab-up"])
     ["fabric-verify"; "images"] [Full];
   with_hints [hint (lit "ISOLATION BROKEN") "a deliberately vulnerable host can pivot into the internal network"
                 "inspect clab/configs/fw-dmz.nft (pivot deny) and `nft list ruleset` on fw-dmz"]
     (stage "dmzlab-verify" "Verify the DMZ lab: reachable, counted, logged and contained" (Check dmzlab_verify) ["dmzlab-up"] [Full]);
   finding [hint (lit "ATTACKER PASSWORD INDEXED") "an attacker-supplied honeypot password reached Elasticsearch"
              "check the Cowrie redaction at the top of soc/logstash/pipelines/70-normalize-ecs.conf (tests/soc/test_dmz_lab.py)";
            hint (cats [lit "no cowrie."; PyRe.some (Over (fun a => ((97 <=? code a) && (code a <=? 122)) || Ascii.eqb a ".")); lit " event in soc-alerts"])
              "honeypot events do not reach the SIEM" "docker compose logs logstash; the dmzlab_cowrie_var volume must be mounted read-only into Logstash"]
     (stage "dmzlab-siem" "Honeypot session reaches the SIEM, its password is redacted, it becomes one decision signal" (fixed [make_for 600 "dmzlab-siem-check"])
        ["dmzlab-verify"; "soc-smoke"] [Full]);
   finding [] (stage "configure" "Apply the Ansible hardening roles" (fixed [make_for 3600 "configure"]) ["fabric-verify"; "security-up"] [Full]);
   finding [] (stage "validate" "Live validation: routing, segmentation, hardening" (fixed [make_for 2400 "validate"]) ["configure"] [Full]);
   finding [] (stage "attack" "Replay the attack chain and prove the SIEM sees it" (fixed [make_for 1800 "attack"]) ["validate"] [Full]);
   finding [] (stage "soc-validate" "Live SOC/AI/response verifiers (enforce mode for ~10 min, then restored)" (fixed [interactively (make_for 5400 "soc-ai-validate")])
     ["soc-ai-up"; "fabric-verify"] [Full]);
   stage "report" "Compliance report from the evidence just produced" (Check report_summary) ["soc-validate"] [Full]].

(** ** Which stages run *)
Definition given (o : option string) : option string := match o with Some "" => None | _ => o end.
Definition ids_of (l : list (Stage W)) : list string := map s_id l.

Fixpoint from_stage (id : string) (l : list (Stage W)) : list (Stage W) :=
  match l with
  | [] => []
  | s :: rest => if String.eqb (s_id s) id then l else from_stage id rest
  end.

Definition select (stages : list (Stage W)) (ctx : Ctx) : result (list (Stage W)) :=
  let chosen := List.filter (fun s => bool_decide (mode ctx ∈ s_modes s)) stages in
  let? chosen :=
    match given (only (args ctx)) with
    | Some text =>
        let wanted := List.filter (fun x => negb (String.eqb x "")) (map strip (split_on "," text)) in
        let unknown := List.filter (fun w => negb (str_in w (ids_of stages))) wanted in
        raise_if (negb (Nat.eqb (length unknown) 0)) (SystemExit ("unknown stage(s): " +:+ str_join ", " unknown +:+ " (see --list)")) ;;?
        Ok (List.filter (fun s => str_in (s_id s) wanted) stages)
    | None => Ok chosen
    end in
  let? chosen :=
    match given (start (args ctx)) with
    | Some id =>
        raise_if (negb (str_in id (ids_of chosen))) (SystemExit ("--from " +:+ id +:+ ": not in the selected stages")) ;;?
        Ok (from_stage id chosen)
    | None => Ok chosen
    end in
  Ok (match given (skip (args ctx)) with
      | Some text => let skipped := map strip (split_on "," text) in List.filter (fun s => negb (str_in (s_id s) skipped)) chosen
      | None => chosen
      end).

(** ** The loop *)

(** [ctx.results.get(d)]. *)
Definition recorded (results : list Result) (d : string) : option Result := List.find (fun r => String.eqb (res_stage r) d) (rev results).

(** [by_id[d].finding]. *)
Definition is_finding (stages : list (Stage W)) (d : string) : bool :=
  match List.find (fun s => String.eqb (s_id s) d) (rev stages) with Some s => s_finding s | None => false end.

Definition blocks (stages : list (Stage W)) (results : list Result) (d : string) : bool :=
  match recorded results d with
  | Some r => bool_decide (res_status r = FAIL \/ res_status r = BLOCKED) && negb (is_finding stages d && bool_decide (res_status r = FAIL))
  | None => false
  end.

Definition blockers (stages : list (Stage W)) (selected : list string) (results : list Result) (stage : Stage W) : list string :=
  List.filter (fun d => str_in d selected && blocks stages results d) (s_needs stage).

Definition turn (ctx : Ctx) (stages : list (Stage W)) (selected : list string) (results : list Result) (index : Z) (stage : Stage W) : M W Result :=
  let blocked := blockers stages selected results stage in
  if negb (Nat.eqb (length blocked) 0) && match given (only (args ctx)) with None => true | Some _ => false end
  then ret (new_result (s_id stage) (s_title stage) "" BLOCKED ("blocked by failed stage: " +:+ str_join ", " blocked))
  else run_stage ctx stage index.

(** The results, and whether the user interrupted the run. *)
Fixpoint run_all (ctx : Ctx) (stages : list (Stage W)) (selected : list string) (index : Z) (chosen : list (Stage W)) (results : list Result)
    : M W (list Result * bool) :=
  match chosen with
  | [] => ret (results, false)
  | stage :: rest =>
      attempt (turn ctx stages selected results index stage) (fun ended =>
        match ended with
        | Ok r =>
            if bool_decide (res_status r = FAIL) && fail_fast (args ctx) then ret (results ++ [r], false)
            else run_all ctx stages selected (index + 1) rest (results ++ [r])
        | Err KeyboardInterrupt => ret (results, true)
        | Err e => raise e
        end)
  end.

(** What [summarize] returns. *)
Definition exit_code (results : list Result) : Z := if existsb (fun r => bool_decide (res_status r = FAIL)) results then 1 else 0.

Definition teardown (ctx : Ctx) : M W Z :=
  let pid := root ctx +:+ "/.cxyz-state/netviz.pid" in
  let! text := read m pid in
  (match text with
   | Some text =>
       catch (match split_words text with
              | word :: _ => let! n := lift (int_of_text word) in kill m n 15
              | [] => raise (IndexError "list index out of range")
              end) (fun e => match e with OSError _ => true | IndexError _ => false | _ => is_value_error e end) (fun _ => ret tt) ;;!
       unlink m pid
   | None => ret tt
   end) ;;!
  let! codes := mapM_ run_shell [["make"; "dmzlab-down"]; ["make"; "soc-ai-down"]; ["make"; "soc-down"]; ["make"; "down"]] in
  (if purge (args ctx) then let! _ := run_shell ["docker"; "network"; "rm"; "cxyz_mgmt"] in ret tt else ret tt) ;;!
  ret (fold_left (fun rc c => Z.lor rc (returncode c)) codes 0).

(** [write_report] writes two files. *)
Variable write_report : Ctx -> list Result -> M W unit.

Definition main (ctx : Ctx) : M W Z :=
  let stages := build_stages ctx in
  if list_stages (args ctx) then ret 0
  else if teardown_asked (args ctx) then teardown ctx
  else
    let! chosen := lift (select stages ctx) in
    make_dir m (logdir ctx) ;;!
    let! '(results, _) := run_all ctx stages (ids_of chosen) 1 chosen [] in
    write_report ctx results ;;!
    ret (exit_code results).
End machine.
