(* ===== verification/Entry.v ===== *)
(** The commands around the components: the capture of events ([soc/workers/export_events.py]), the
    export of vectors from a capture ([ai/features/export.py]), and the two processes of the response
    plane ([response/service/__main__.py]).

    A command's arguments are its parameters.  What it writes to a file or to its output is the first
    part of its state, line by line, so that what was written before an exception stays.  uvicorn, the
    threads, [umask] and the opening of stores and sockets are outside: the scheduler is the sequence of
    its turns, and the decision loop the sequence of its runs. *)

From S2P Require Import Prelude PyText PyNum PyTime PyNet PyJson JsonText Sha256 Policy Decision AuditLog Effects Store Adapters Engine.
From S2P Require Import Https Contracts FeatureEngine FeatureWorker Service DecisionRunner ServiceConfig Fabric.

(** * [export_events.py] *)
Section capture.
Context {W : Type}.
Variable elastic : JsonHTTPS W.

(** The lines of the capture and the world. *)
Definition lines_to (X : Type) (m : M W X) : M (list string * W) X := fun s => let '(r, w) := m s.2 in (r, (s.1, w)).

Definition put_line {Y} (line : string) : M (list string * Y) unit := modify (fun s => (s.1 ++ [line], s.2)).

(** [json.dumps(event, sort_keys=True) + "\n"]. *)
Definition json_line (v : val) : string := dumps ", " ": " true v +:+ Fabric.newline.

Definition capture_event (hit : val) : M (list string * W) bool :=
  let! source := lift (subscript "_source" hit) in
  match source with
  | VDict d => let! event := lift (_expand d) in put_line (json_line (VDict event)) ;;! ret true
  | _ => raise (AttributeError "items")
  end.

Definition CAPTURE_PAGE : Z := 5000.
Definition capture_fuel (max_events : Z) : nat := Datatypes.S (Z.to_nat (max_events / CAPTURE_PAGE)).

(** How many events were written. *)
Definition export_events (schema start finish : string) (output_exists : bool) (max_events : Z) : M (list string * W) Z :=
  let! start := lift (soc_parse_rfc3339 start) in
  let! finish := lift (soc_parse_rfc3339 finish) in
  raise_when (finish <=? start) (SystemExit "--end must be after --start") ;;!
  raise_when output_exists (SystemExit "refusing to overwrite an existing capture") ;;!
  let! _ := scan elastic lines_to (if String.eqb schema "network-window-v1" then NETWORK_INDICES else ENDPOINT_INDICES)
    (window_query start finish schema) (VList [VDict [("@timestamp", VStr "asc")]; VDict [("cxyz.ingestion_id", VStr "asc")]])
    (Some (VList (map VStr EVENT_FIELDS))) CAPTURE_PAGE (Some max_events) capture_event (capture_fuel max_events) None in
  gets (fun s => Z.of_nat (length s.1)).
End capture.

(** * [ai/features/export.py] *)
Definition is_git_sha (s : string) : bool :=
  (7 <=? str_len s) && (str_len s <=? 64) &&
  str_forallb (fun a => let c := code a in is_ascii_digit a || ((65 <=? c) && (c <=? 70)) || ((97 <=? c) && (c <=? 102))) s.

(** The window of an event: [datetime.fromisoformat(event["@timestamp"].replace("Z", "+00:00"))] in UTC,
    cut to five minutes. *)
Definition event_window (number : Z) (event : val) : result Z :=
  let? timestamp := subscript "@timestamp" event in
  match timestamp with
  | VStr s =>
      match fromisoformat_z s with
      | None => Err (ValueError ("Invalid isoformat string: " +:+ py_repr (replace_char "Z" "+00:00" s)))
      | Some (_, None) => Err (ValueError ("timestamp at line " +:+ str_of_Z number +:+ " needs a timezone"))
      | Some (local, Some offset) => let? t := shift local (- offset) in Ok (floor_window t)
      end
  | _ => Err (AttributeError "replace")
  end.

(** [windows.setdefault(start, []).append(event)]. *)
Fixpoint add_event (start : Z) (event : val) (windows : list (Z * list val)) : list (Z * list val) :=
  match windows with
  | [] => [(start, [event])]
  | (s, events) :: rest => if s =? start then (s, events ++ [event]) :: rest else (s, events) :: add_event start event rest
  end.

Definition read_line (acc : list (Z * list val) * Z) (line : string) : result (list (Z * list val) * Z) :=
  let '(windows, number) := acc in
  if String.eqb (strip line) "" then Ok (windows, number + 1)
  else
    let? event := loads line in
    let? start := event_window number event in
    Ok (add_event start event windows, number + 1).

Definition read_windows (lines : list string) : result (list (Z * list val)) :=
  let? r := foldR read_line ([], 1) lines in Ok (sort_by (fun a b => a.1 <=? b.1) r.1).

Section vectors.
Variable schema_file : string -> option (list Z).
Variable conforms : list Z -> mapping -> bool.

(** Each vector is checked and written before the next one is looked at. *)
Fixpoint write_vectors (vectors : list val) : M (list string * unit) unit :=
  match vectors with
  | [] => ret tt
  | vector :: rest =>
      lift (validate_vector schema_file conforms vector) ;;!
      raise_when (negb (finite_val vector)) (ValueError "Out of range float values are not JSON compliant") ;;!
      put_line (json_line vector) ;;! write_vectors rest
  end.

Fixpoint write_windows (schema git_sha : string) (windows : list (Z * list val)) : M (list string * unit) unit :=
  match windows with
  | [] => ret tt
  | (start, events) :: rest =>
      let! finish := lift (shift start WINDOW) in
      let builder := if String.eqb schema "network-window-v1" then build_network_vectors schema_file else build_endpoint_vectors schema_file [] None in
      let! vectors := lift (builder events (Instant (Aware start)) (Instant (Aware finish)) git_sha None) in
      write_vectors vectors ;;! write_windows schema git_sha rest
  end.

Definition export_vectors (schema git_sha : string) (lines : list string) : M (list string * unit) unit :=
  raise_when (negb (is_git_sha git_sha)) (SystemExit "valid generator Git SHA required") ;;!
  let! windows := lift (read_windows lines) in
  write_windows schema git_sha windows.
End vectors.

(** * [response/service/__main__.py] *)

(** The lines of the intelligence file that are no comments; without a file there are none. *)
Definition _load_intel (text : option string) : list string :=
  match text with
  | None => []
  | Some t => map strip (List.filter (fun line => negb (String.eqb (strip line) "") && negb (starts_with "#" line)) (splitlines t))
  end.

(** The address the intake listens on; [address_toward]: the local address of the route to a host. *)
Definition listen_address (address_toward : string -> result string) (cfg : mapping) (url_host : string) : result string :=
  let? listen := item "listen" cfg in
  let? host := subscript "host" listen in
  let? host := (if py_eq host (VStr "toward-elasticsearch") then address_toward url_host else Ok (str_val host)) in
  match ip_address host with
  | None => Err (ValueError (py_repr host +:+ " does not appear to be an IPv4 or IPv6 address"))
  | Some address => raise_if (is_unspecified address || is_multicast address) (ConfigError "listen.host must be an explicit interface address") ;;? Ok host
  end.

Section scheduler.
Context {W E A : Type} `{!CommandAuthenticator A}.
Variable catalog : PolicyCatalog.
Variable authenticator : A.
Variable adapters : list (string * ContainmentAdapter W).
Variable mode : service_mode.
Variable recover_every : Z.
Variable exporter : option (string -> string -> val -> M E bool).

(** The scheduler's turns at the instants of its clock: a tick that raises is printed and the next one
    follows. *)
Fixpoint schedule (nows : list Z) : M (Service W E) (list string) :=
  match nows with
  | [] => ret []
  | now :: rest =>
      attempt (tick catalog authenticator adapters mode recover_every exporter now) (fun r =>
        let! printed := schedule rest in
        ret (match r with
             | Ok _ => []
             | Err e => ["tick failed: " +:+ exn_name e]
             end ++ printed))
  end.

(** The service starts, and then only its scheduler and its requests act on it. *)
Definition run_orchestrator (now : Z) (nows : list Z) : M (Service W E) (list string) :=
  start adapters now ;;! schedule nows.
End scheduler.

Section decision.
Context {W A : Type} `{!CommandAuthenticator A}.

(** [sender]: only an accepted command returns. *)
Definition command_accepted (status : Z) : bool := (status =? 200) || (status =? 202).

Definition send_over (transport : JsonHTTPS W) (command : mapping) : M W unit :=
  let! answer := request transport "POST" "/v1/commands" (Some (VDict command)) in
  raise_when (negb (command_accepted answer.1)) (delivery_error "COMMAND_NOT_ACCEPTED" false).

(** Without the enforce mode there is no sender: a call of it would raise. *)
Definition sender (mode : service_mode) (transport : JsonHTTPS W) (command : mapping) : M W unit :=
  if bool_decide (mode = enforce) then send_over transport command else raise (TypeError "'NoneType' object is not callable").

Definition is_delivery_error (e : exn) : bool :=
  match e with
  | DeliveryError _ _ _ => true
  | _ => false
  end.

(** [turns] of the loop around [runner.run_once()], or the one run of [--once]; what each printed. *)
Section loop.
Context {S : Type}.
Variable run : M S (Z * Z).
Variable outcomes : S -> list (string * Z).

Fixpoint decision_loop (turns : nat) (once : bool) : M S (list (result (Z * Z * list (string * Z)))) :=
  match turns with
  | O => ret []
  | Datatypes.S turns =>
      attempt run (fun r =>
        match r with
        | Err e => if is_delivery_error e
                   then if once then ret [Err e] else let! printed := decision_loop turns once in ret (Err e :: printed)
                   else raise e
        | Ok n =>
            let! seen := gets outcomes in
            if once then ret [Ok (n, seen)] else let! printed := decision_loop turns once in ret (Ok (n, seen) :: printed)
        end)
  end.
End loop.

Variable elastic : JsonHTTPS W.
Variable transport : JsonHTTPS W.
Variable engine : DecisionEngine A.
Variables clock utc_now : M W Z.

(** The loop of the configured runner. *)
Definition run_decision (mode : service_mode) (min_score : SpecFloat.spec_float) (protected_assets : list string) (intel : option string)
    (turns : nat) (once : bool) : M (Runner W) (list (result (Z * Z * list (string * Z)))) :=
  decision_loop (run_once elastic engine mode (sender mode transport) min_score protected_assets (_load_intel intel) POLICY_BY_TARGET clock utc_now 200)
    (fun s => counts (state s)) turns once.
End decision.

(** [main]: a configuration that is refused ends the process with its message. *)
Definition main {X} (run : result X) : result X :=
  match run with
  | Err (ConfigError message) => Err (SystemExit ("configuration refused: " +:+ message))
  | r => r
  end.
