(* ===== verification/Sample.v ===== *)
(** Small concrete deployments, on which the witnesses of the theorems evaluate: a policy document, a
    key, evidence, and adapters over a set of contained targets; that deployment in operation, submitted,
    applied and verified over a fresh ledger, with the adapters' calls logged; and a sample peer
    network, where each peer is a list of blocked addresses and a script that says which of its writes
    time out after taking effect, a packet filter with one pair of sets, and an agent over it. *)

From S2P Require Import Prelude PyText PyNum PyTime PyNet PyJson Sha256 Policy Decision Signing AuditLog Effects Store Adapters.
From S2P Require Import Https Ownership Blocklist Transports NftEnforcer NftStack Firewalls Engine EngineInv EngineFrame.

Definition sample_document : val :=
  VDict [("schema_version", VStr "response-policy-set-v1");
    ("defaults", VDict [
      ("protections", VDict [("allowlisted_ips", VList [VStr "198.18.0.1"]); ("protected_networks", VList [VStr "10.0.0.0/8"]);
        ("protected_hosts", VList [VStr "SIEM-01"]); ("allowed_isolation_hosts", VList [VStr "ws-07"])]);
      ("rate_limit", VDict [("max_actions", VInt 1); ("window_seconds", VInt 600)]);
      ("dedup_seconds", VInt 300); ("command_valid_for_seconds", VInt 120); ("evidence_max_age_seconds", VInt 300)]);
    ("policies", VList [VDict [("id", VStr "block-scanner"); ("version", VStr "1"); ("enabled", VBool true);
      ("action", VStr "block_ip"); ("ttl_seconds", VInt 3600);
      ("when", VDict [("ai_score_gte", VFloat float_0_9);
        ("require_any", VList [VDict [("type", VStr "suricata"); ("min_severity", VInt 2)]])])]])].

Definition sample_load : result PolicyCatalog := catalog_from_mapping sample_document "in-memory".

Definition empty_protections : ProtectionPolicy :=
  {| allowlisted_ips := []; allowlisted_networks := []; protected_ips := []; protected_networks := [];
     protected_hosts := []; allowed_isolation_hosts := []; block_private_ip_targets := false |}.

Definition empty_catalog : PolicyCatalog :=
  {| schema_version := ""; protections := empty_protections; rate_limit := {| max_actions := 0; window_seconds := 0 |};
     dedup_seconds := 0; command_valid_for_seconds := 0; evidence_max_age_seconds := 0; policies := []; source_sha256 := "" |}.

Definition result_or {X} (r : result X) (d : X) : X :=
  match r with
  | Ok x => x
  | Err _ => d
  end.

Definition sample_catalog : PolicyCatalog := Eval vm_compute in result_or sample_load empty_catalog.

Definition sample_authenticator : HmacAuthenticator :=
  {| hmac_keys := [("lab", repeat 7 32)]; hmac_signing_key_id := "lab" |}.

Definition sample_engine : DecisionEngine HmacAuthenticator :=
  {| engine_catalog := sample_catalog; engine_authenticator := sample_authenticator; engine_key_id := "lab" |}.

(** 2026-01-01T00:00:00Z *)
Definition sample_now : Z := Eval vm_compute in days_from_civil 2026 1 1 * US_PER_DAY.

Definition sample_target : val := VDict [("type", VStr "ip"); ("value", VStr "8.8.4.4")].

Definition sample_anomaly : val :=
  VDict [("event_id", VStr "ai-1"); ("model_id", VStr "iforest-3"); ("score", VInt 1); ("threshold", VFloat float_0_9);
    ("is_anomaly", VBool true); ("observed_at", VStr "2025-12-31T23:59:30Z"); ("target", sample_target)].

Definition sample_signal (ref : string) (severity : Z) : val :=
  VDict [("type", VStr "suricata"); ("reference", VStr ref); ("severity", VInt severity);
    ("observed_at", VStr "2025-12-31T23:59:00Z"); ("target", sample_target)].

Definition sample_evaluation (signals : list val) (correlation : val) : result DecisionResult :=
  evaluate sample_engine sample_now "block-scanner" sample_anomaly (VList signals) sample_target
    (Some (Aware sample_now)) correlation.

Definition no_decision : DecisionResult :=
  {| eligible := false; reason := ""; decision_event := None; action_request := None; command := None |}.

Definition sample_decision : DecisionResult :=
  Eval vm_compute in result_or (sample_evaluation [sample_signal "alert-1" 3] VNone) no_decision.

(** The signed command of that decision. *)
Definition sample_command : mapping := Eval vm_compute in default [] (command sample_decision).

(** ** Adapters over the list of contained targets *)
Definition contained : Type := list (string * string).

Definition sample_adapter (name action : string) : ContainmentAdapter contained :=
  {| adapter_name := name; adapter_action := action;
     recovery_reference := fun c => Ok (Some (name +:+ ":" +:+ target_value (cmd_target c)));
     adapter_apply := fun c w =>
       (Ok (Outcome (outcome_success (name +:+ ":" +:+ target_value (cmd_target c)) ["applied"])),
        (action, target_value (cmd_target c)) :: w);
     adapter_verify := fun c _ w =>
       (Ok (Outcome (if bool_decide ((action, target_value (cmd_target c)) ∈ w)
                     then outcome_success "" ["present"] else outcome_failure "ABSENT" "not enforced" [])), w);
     adapter_revert := fun c _ w =>
       (Ok (Outcome (outcome_success "" ["removed"])),
        List.filter (fun x => negb (bool_decide (x = (action, target_value (cmd_target c))))) w) |}.

Definition sample_adapters : list (string * ContainmentAdapter contained) :=
  [("block_ip", sample_adapter "nftables" "block_ip"); ("isolate_host", sample_adapter "wazuh" "isolate_host")].

Definition sample_start : Orchestrator contained := initial (Memory empty_ledger) [].

Definition sample_submit (o : Orchestrator contained) : result OrchestrationResult * Orchestrator contained :=
  submit sample_catalog sample_authenticator sample_adapters (VDict sample_command) sample_now (Some (Aware sample_now)) o.

Definition sample_submitted : result OrchestrationResult * Orchestrator contained := Eval vm_compute in sample_submit sample_start.

Definition sample_rid : string := Eval vm_compute in
  _response_id (match get "idempotency_key" sample_command with VStr s => s | _ => "" end).

Definition logged_adapters : list (string * ContainmentAdapter (contained * list call)) := logged_table sample_adapters.

Definition run_start : Orchestrator (contained * list call) := initial (Memory empty_ledger) ([], []).

Definition at_time (seconds : Z) : option pydatetime := Some (Aware (sample_now + seconds * US_PER_SECOND)).

Definition sample_step (op : orchestrator_op) (o : Orchestrator (contained * list call)) : Orchestrator (contained * list call) :=
  run_method sample_catalog sample_authenticator logged_adapters op o.

Definition submit_op : orchestrator_op := OpSubmit (VDict sample_command) sample_now (at_time 0).
Definition apply_op : orchestrator_op := OpApply sample_rid sample_now (at_time 1).
Definition verify_op : orchestrator_op := OpVerify sample_rid sample_now (at_time 2).
Definition expire_op : orchestrator_op := OpExpire sample_now (at_time 3601).

Definition run_submitted : Orchestrator (contained * list call) := Eval vm_compute in sample_step submit_op run_start.
Definition run_applied : Orchestrator (contained * list call) := Eval vm_compute in sample_step apply_op run_submitted.
Definition run_verified : Orchestrator (contained * list call) := Eval vm_compute in sample_step verify_op run_applied.
Definition run_expired : Orchestrator (contained * list call) := Eval vm_compute in sample_step expire_op run_verified.

Definition run_reachable : Orchestrator (contained * list call) -> Prop :=
  reachable sample_catalog sample_authenticator logged_adapters run_start.

Lemma run_step op o o' : sample_step op o = o' -> run_reachable o -> run_reachable o'.
Proof. intros <- H. by apply reachable_step. Qed.

Lemma run_submitted_eq : sample_step submit_op run_start = run_submitted.
Proof. vm_compute. reflexivity. Qed.

Lemma run_applied_eq : sample_step apply_op run_submitted = run_applied.
Proof. vm_compute. reflexivity. Qed.

Lemma run_verified_eq : sample_step verify_op run_applied = run_verified.
Proof. vm_compute. reflexivity. Qed.

Lemma run_expired_eq : sample_step expire_op run_verified = run_expired.
Proof. vm_compute. reflexivity. Qed.

Lemma run_applied_reachable : run_reachable run_applied.
Proof. apply (run_step _ _ _ run_applied_eq), (run_step _ _ _ run_submitted_eq), reachable_start. Qed.

Lemma run_verified_reachable : run_reachable run_verified.
Proof. apply (run_step _ _ _ run_verified_eq), run_applied_reachable. Qed.

Lemma run_expired_reachable : run_reachable run_expired.
Proof. apply (run_step _ _ _ run_expired_eq), run_verified_reachable. Qed.

Lemma fresh_memory : fresh_backend (Memory empty_ledger).
Proof. by left. Qed.

Definition sample_peer : Type := list string * list bool.

Definition scripted_write (f : list string -> list string) : M sample_peer unit :=
  fun w => (if hd true w.2 then Ok tt else Err (DeliveryError "TLS_OR_NETWORK_UNAVAILABLE" true None), (f w.1, tl w.2)).

Definition sample_raw : RawSet sample_peer :=
  {| raw_contains := fun a w => (Ok (str_in a w.1), w);
     raw_add := fun a _ => scripted_write (fun l => if str_in a l then l else a :: l);
     raw_remove := fun a => scripted_write (List.filter (fun x => negb (String.eqb x a))) |}.

Definition sample_present (w : sample_peer) (a : string) : Prop := a ∈ w.1.

Lemma elem_add a x (l : list string) : x ∈ (if str_in a l then l else a :: l) <-> x = a \/ x ∈ l.
Proof.
  destruct (str_in a l) eqn:E; [|set_solver]. apply str_in_elem in E. split; [by right|]. by intros [->|].
Qed.

Lemma elem_remove a x (l : list string) : x ∈ List.filter (fun y => negb (String.eqb y a)) l <-> x ∈ l /\ x <> a.
Proof.
  rewrite !list_elem_of_In, List.filter_In. destruct (String.eqb_spec x a); simpl; intuition congruence.
Qed.

#[export] Instance sample_raw_laws : RawSetLaws sample_raw sample_present.
Proof.
  split; unfold sample_present, same_but; simpl.
  - done.
  - intros a w b [= <-]. apply str_in_elem.
  - intros a n w x Hx. rewrite elem_add. assert (x <> a) by congruence. intuition congruence.
  - intros a n w Hp. apply elem_add. by right.
  - intros a n w _. apply elem_add. by left.
  - intros a w x Hx. rewrite elem_remove. assert (x <> a) by congruence. intuition congruence.
  - intros a w H. by apply elem_remove in H as [? _].
  - intros a w _ H. by apply elem_remove in H as [_ ?].
Qed.

Definition fresh_peer (blocked : list string) (script : list bool) : Owned sample_peer :=
  {| registry := empty_registry; peer := (blocked, script) |}.

Lemma fresh_holds a k blocked script : ~ holds (registry (fresh_peer blocked script)) a k.
Proof. intros H. apply holds_rows in H as (r & Hr & _). set_solver. Qed.

Definition sample_block_command : Command :=
  {| request_id := "req-1"; decision_event_id := "dec-1"; correlation_id := "cor-1"; idempotency_key := "response-a";
     cmd_policy_id := "block-scanner"; cmd_policy_version := "1"; cmd_policy_sha256 := "";
     cmd_target := {| target_type := "ip"; target_value := "8.8.4.4" |}; cmd_action := "block_ip"; cmd_ttl := PInt 3600;
     auth_key_id := VStr "lab"; auth_signature := VStr ""; auth_issued_at := ""; auth_expires_at := "" |}.

Definition kernel : Type := list ip_addr.

Definition process (status : Z) (out : result val) (err : string) : CompletedProcess :=
  {| returncode := status; stdout_json := out; stderr := err |}.

Definition silent : result val := Err (ValueError "Expecting value").

(** The address in an element text: the word after the brace.  A percent sign is no token. *)
Definition element_address (text : string) : option ip_addr :=
  if str_has "%" text then None
  else match split_on " " text with
       | _ :: a :: _ => ip_address a
       | _ => None
       end.

Definition change (verb text : string) : M kernel CompletedProcess :=
  fun k =>
    match element_address text with
    | None => (Ok (process 1 silent "syntax error"), k)
    | Some ip =>
        if String.eqb verb "add" then
          (Ok (process 0 silent ""), if bool_decide (ip ∈ k) then k else ip :: k)
        else if bool_decide (ip ∈ k) then (Ok (process 0 silent ""), List.filter (fun x => negb (bool_decide (x = ip))) k)
        else (Ok (process 1 silent "Error: No such file or directory"), k)
    end.

Definition proper (x : ip_addr) : bool := unscoped x && bool_decide (ip_address (ip_text x) = Some x).

Definition listing (set_ : string) (k : kernel) : val :=
  set_listing VNone [("name", VStr set_)]
    (map (fun x => (x, Some (3900, 3600))) (List.filter (fun x => proper x && Bool.eqb (is_v4 x) (String.eqb set_ "soc_blocklist")) k)).

Definition sample_nft (argv : list string) : M kernel CompletedProcess :=
  match argv with
  | [_; verb; _; _; _; set_; text] =>
      if String.eqb verb "-j" then fun k => (Ok (process 0 (Ok (listing text k)) ""), k) else change verb text
  | _ => ret (process 1 silent "syntax error")
  end.

Definition sample_enforcer : Enforcer kernel :=
  {| nft := "/usr/sbin/nft"; family := "inet"; table := "soc"; set_name := "soc_blocklist"; run := sample_nft |}.

Definition in_kernel (k : kernel) (ip : ip_addr) : Prop := ip ∈ k /\ proper ip = true.

Lemma plain_no_char c s : plain_char c = false -> plain s = true -> no_char c s = true.
Proof.
  intros Hc. apply str_forallb_impl. intros a Ha. destruct (Ascii.eqb_spec a c); [congruence|done].
Qed.

(** What the two commands on an element say. *)
Lemma element_address_text ip rest : ip_wf ip -> str_has "%" rest = false ->
  element_address ("{ " +:+ ip_text ip +:+ String " " rest) = if unscoped ip then Some ip else None.
Proof.
  intros Hw Hr. unfold element_address. destruct (unscoped ip) eqn:Hu.
  - pose proof (ip_text_plain ip Hw Hu) as Hp. rewrite str_has_no_char in Hr |- *. apply negb_false_iff in Hr.
    assert (no_char "%" (String " " rest) = true) as E by exact Hr.
    rewrite !no_char_app, (plain_no_char "%" (ip_text ip)), E by done. cbn -[ip_text split_on String.append].
    change ("{ " +:+ ip_text ip +:+ String " " rest) with ("{" +:+ String " " (ip_text ip +:+ String " " rest)).
    rewrite (split_on_cons " " "{") by done. rewrite split_on_cons by by apply (plain_no_char " "). by apply ip_text_parse.
  - destruct ip as [n|n [s|]]; try done. cbn [ip_text]. destruct Hw as [_ [Hs _]]. destruct (String.eqb_spec s ""); [done|].
    rewrite str_has_no_char, !no_char_app. unfold no_char at 3. cbn. by rewrite !andb_false_r.
Qed.

Lemma digits_no_percent n : 0 <= n -> str_has "%" ("timeout " +:+ str_of_Z n +:+ "s }") = false.
Proof.
  intros Hn. rewrite str_has_no_char, !no_char_app, (plain_no_char "%" (str_of_Z n)); [done|done|]. by apply str_of_Z_plain.
Qed.

(** ** The sample [nft] behaves as documented *)
Lemma run_add ip n k : ip_wf ip -> 0 < n ->
  run sample_enforcer (add_element sample_enforcer ip n) k =
  if unscoped ip then (Ok (process 0 silent ""), if bool_decide (ip ∈ k) then k else ip :: k)
  else (Ok (process 1 silent "syntax error"), k).
Proof.
  intros Hw Hn. cbn -[change ip_text str_of_Z String.append]. unfold change.
  change ("{ " +:+ ip_text ip +:+ " timeout " +:+ str_of_Z n +:+ "s }")
    with ("{ " +:+ ip_text ip +:+ String " " ("timeout " +:+ str_of_Z n +:+ "s }")).
  rewrite element_address_text by (try done; apply digits_no_percent; lia). by destruct (unscoped ip).
Qed.

Lemma run_delete ip k : ip_wf ip ->
  run sample_enforcer (delete_element sample_enforcer ip) k =
  if unscoped ip then
    if bool_decide (ip ∈ k) then (Ok (process 0 silent ""), List.filter (fun x => negb (bool_decide (x = ip))) k)
    else (Ok (process 1 silent "Error: No such file or directory"), k)
  else (Ok (process 1 silent "syntax error"), k).
Proof.
  intros Hw. cbn -[change ip_text String.append]. unfold change.
  change ("{ " +:+ ip_text ip +:+ " }") with ("{ " +:+ ip_text ip +:+ String " " "}").
  rewrite element_address_text by done. by destruct (unscoped ip).
Qed.

Lemma elem_added (x ip : ip_addr) k : x ∈ (if bool_decide (ip ∈ k) then k else ip :: k) <-> x = ip \/ x ∈ k.
Proof.
  destruct (bool_decide_reflect (ip ∈ k)) as [H|H]; [|apply elem_of_cons].
  split; [by right|]. by intros [->|].
Qed.

Lemma elem_removed (x ip : ip_addr) k : x ∈ List.filter (fun x => negb (bool_decide (x = ip))) k <-> x ∈ k /\ x <> ip.
Proof. rewrite !list_elem_of_In, List.filter_In, negb_true_iff, bool_decide_eq_false. done. Qed.

Lemma proper_spec x : proper x = true <-> unscoped x = true /\ ip_wf x.
Proof.
  unfold proper. rewrite andb_true_iff, bool_decide_eq_true. split; intros [H1 H2]; (split; [done|]).
  - by eapply ip_address_wf.
  - by apply ip_text_parse.
Qed.

Lemma elem_timed (x : ip_addr) (l : list ip_addr) : x ∈ (map (fun x => (x, Some (3900, 3600))) l).*1 <-> x ∈ l.
Proof.
  rewrite list_elem_of_fmap. split.
  - intros ([y t] & -> & H). apply list_elem_of_In, in_map_iff in H as (z & [= -> _] & Hz). by apply list_elem_of_In.
  - intros H. exists (x, Some (3900, 3600)). split; [done|]. apply list_elem_of_In, in_map_iff. exists x. by rewrite <- list_elem_of_In.
Qed.

#[export] Instance sample_nft_laws : NftLaws sample_enforcer in_kernel.
Proof.
  split; unfold in_kernel.
  - intros ip n k x Hw Hu Hn Hne. rewrite run_add, Hu by done. cbn [snd]. rewrite elem_added. naive_solver.
  - intros ip n k Hw Hu Hn H. rewrite run_add, Hu by done. cbn [snd]. rewrite elem_added. naive_solver.
  - intros ip n k p Hw Hu Hn. rewrite run_add, Hu by done. cbn [snd]. rewrite elem_added.
    intros _ _. split; [by left|]. by apply proper_spec.
  - intros ip k x Hw Hu Hne. rewrite run_delete, Hu by done.
    destruct (bool_decide (ip ∈ k)); [|done]. cbn [snd]. rewrite elem_removed. naive_solver.
  - intros ip k Hw Hu. rewrite run_delete, Hu by done.
    destruct (bool_decide (ip ∈ k)); [|done]. cbn [snd]. rewrite elem_removed. naive_solver.
  - intros ip k p Hw Hu. rewrite run_delete, Hu by done.
    destruct (bool_decide_reflect (ip ∈ k)) as [Hk|Hk]; cbn [snd]; [|by intros _ _ [? _]].
    intros _ _ [H _]. apply elem_removed in H. naive_solver.
  - done.
  - intros ip k p. cbn -[listing set_of]. intros [= <-] _. unfold listing.
    exists VNone, [("name", VStr (set_of sample_enforcer ip))]. eexists. split; [reflexivity|]. split; [done|]. split.
    + apply Forall_map, Forall_forall. intros x Hx. apply list_elem_of_In, filter_In in Hx as [_ Hx].
      apply andb_true_iff in Hx as [Hx _]. by apply proper_spec.
    + intros x Hv. rewrite elem_timed, list_elem_of_In, filter_In, andb_true_iff, <- list_elem_of_In.
      assert (String.eqb (set_of sample_enforcer ip) "soc_blocklist" = is_v4 ip) as -> by by destruct ip.
      rewrite Hv, Bool.eqb_reflx. naive_solver.
Qed.
