(* ===== verification/SampleWorkers.v ===== *)
(** Samples of the services and workers: a search index that keeps its promises (a node holding the URLs
    of the documents created on it), a store whose audit trail waits for it, a feature vector, a model
    service that scores it, and a node that answers searches from a list of pages. *)

From S2P Require Import Prelude PyText PyNum PyTime PyJson Sha256 Policy Decision AuditLog Effects Store Adapters Https Contracts.
From S2P Require Import Outbox Enrichment Engine EngineFrame Service ServiceInv EnrichInv Sample.

Definition created_reply : http_reply :=
  {| reply_status := 201; reply_length := 64; reply_remaining := Some 0; reply_json := Some (VDict [("result", VStr "created")]) |}.

(** [other] answers every request that creates nothing. *)
Definition answering_node (other : http_answer) (r : http_request) : M (list string) http_answer := fun held =>
  if String.eqb (req_method r) "PUT" then
    if str_in (req_url r) held then (Ok (HttpError 409), held) else (Ok (Replied created_reply), req_url r :: held)
  else (Ok other, held).

Definition answering_http (other : http_answer) : JsonHTTPS (list string) :=
  {| origin := "https://search.example"; opener := answering_node other; authorization := ret "ApiKey sample" |}.

Definition holds_url (held : list string) (url : string) : Prop := url ∈ held.

#[export] Instance answering_search_laws other : SearchLaws (answering_http other) holds_url.
Proof.
  split; unfold holds_url; cbn [authorization opener answering_http]; try done.
  - intros r e u H. unfold answering_node. destruct (String.eqb _ _); [|done]. destruct (str_in _ _); [done|].
    cbn. by apply list_elem_of_further.
  - intros r e reply e' Hm H _. revert H. unfold answering_node. rewrite Hm, String.eqb_refl. destruct (str_in _ _); [done|].
    intros [= _ <-]. by apply list_elem_of_here.
  - intros q e c r status. unfold answering_node. destruct (String.eqb _ _); [|done]. by destruct (str_in _ _).
  - intros r e e' Hm H. revert H. unfold answering_node. rewrite Hm, String.eqb_refl.
    destruct (str_in _ _) eqn:E; [|done]. intros [= <-]. by apply str_in_elem.
Qed.

Definition sample_http : JsonHTTPS (list string) := answering_http NetworkFailure.

(** A node that holds the documents created on it. *)
Definition stored_at (held : list (string * val)) (url : string) : option val := assoc url held.

Definition document_node (r : http_request) : M (list (string * val)) http_answer := fun held =>
  match (if String.eqb (req_method r) "PUT" then req_data r else None) with
  | Some document =>
      if stored_at held (req_url r) then (Ok (HttpError 409), held) else (Ok (Replied created_reply), (req_url r, document) :: held)
  | None => (Ok (HttpError 400), held)
  end.

Definition document_http : JsonHTTPS (list (string * val)) :=
  {| origin := "https://search.example"; opener := document_node; authorization := ret "ApiKey sample" |}.

#[export] Instance document_index_laws : IndexLaws document_http stored_at.
Proof.
  split; unfold stored_at; cbn [authorization opener document_http]; try done.
  - intros q e u Hm. unfold document_node. by apply String.eqb_neq in Hm as ->.
  - intros q e u Hm. unfold document_node. rewrite Hm, String.eqb_refl. destruct (req_data q) as [d|] eqn:Ed; [|by left].
    unfold stored_at. destruct (assoc (req_url q) e) eqn:E; [by left|]. cbn [snd assoc].
    destruct (String.eqb_spec u (req_url q)) as [->|]; [by right|by left].
  - intros q e reply e' Hm. unfold document_node. rewrite Hm, String.eqb_refl. destruct (req_data q) as [d|] eqn:Ed; [|done].
    unfold stored_at. destruct (assoc (req_url q) e); [done|]. intros [= <- <-] _. cbn. by rewrite String.eqb_refl.
  - intros q e e' Hm. unfold document_node. rewrite Hm, String.eqb_refl. destruct (req_data q) as [d|]; [|done].
    unfold stored_at. destruct (assoc (req_url q) e) eqn:E; [|done]. intros [= <-]. by rewrite E.
  - intros q e c r status. unfold document_node. destruct (if String.eqb _ _ then _ else _); [|done]. by destruct (stored_at _ _).
Qed.

(** An index without a transport, which accepts everything. *)
Definition accepting (index id : string) (document : val) : M (list string) bool := fun ids => (Ok true, id :: ids).

#[export] Instance accepting_laws : CreateLaws accepting (fun ids id => id ∈ ids).
Proof.
  split.
  - intros index id document e b e' [= _ <-]. apply list_elem_of_here.
  - intros index id document e x H. by apply list_elem_of_further.
Qed.

(** The store behind the submitted sample response: its one event is not exported. *)
Definition sample_rows : list audit_row := Eval vm_compute in
  map (fun e => {| a_id := audit_event_id e; a_response_id := ev_response_id e; a_number := transition_number e; a_payload := e |})
    (backend_events (backend run_submitted) sample_rid).

Definition sample_trail : Tables :=
  {| t_records := []; t_audit := sample_rows; t_intents := []; t_admissions := []; t_exported := [] |}.

Definition sample_store : Store := {| tables := sample_trail; claimed := true; closed := false; faults := [] |}.

Definition sample_service : Service contained (list string) := response_service (initial (Persistent sample_store) []) [].

Definition sample_schema_file (schema : string) : option (list Z) := Some [].
Definition sample_conforms (schema : list Z) (vector : mapping) : bool := true.
Definition sample_hash : string := Eval vm_compute in hexdigest (sha256 []).

Definition window_vector (entity window_start window_end : string) (bytes_out : Z) : mapping :=
  [("feature_schema", VStr "network-window-v1"); ("feature_schema_sha256", VStr sample_hash);
   ("vector_id", VStr (entity +:+ "@" +:+ window_end)); ("entity_type", VStr "source_ip"); ("entity", VStr entity);
   ("window_start", VStr window_start); ("window_end", VStr window_end); ("source_event_set_sha256", VStr sample_hash);
   ("features", VDict (map (fun name => (name, VInt (if String.eqb name "bytes_out" then bytes_out else 0))) NETWORK_FEATURES))].

Definition sample_vector : mapping := window_vector "203.0.113.9" "2026-01-01T00:00:00Z" "2026-01-01T00:05:00Z" 1200.

Example sample_vector_valid : validate_vector sample_schema_file sample_conforms (VDict sample_vector) = Ok tt.
Proof. vm_compute. reflexivity. Qed.

Definition json_reply (d : mapping) : http_answer :=
  Replied {| reply_status := 200; reply_length := 64; reply_remaining := Some 0; reply_json := Some (VDict d) |}.

(** The model service: what it serves, and one score for everything. *)
Definition model_description : mapping := [("feature_schema", VStr "network-window-v1"); ("sequence_length", VInt 1)].
Definition sample_score : mapping :=
  [("model_id", VStr "iforest-1"); ("algorithm", VStr "IsolationForest"); ("feature_schema", VStr "network-window-v1");
   ("feature_schema_sha256", VStr sample_hash); ("model_sha256", VStr sample_hash); ("model_metadata_sha256", VStr sample_hash);
   ("score", VInt 1); ("threshold", VInt 0); ("is_anomaly", VBool true); ("inference_ms", VInt 2)].

Definition model_http {W} : JsonHTTPS W :=
  {| origin := "https://model.example";
     opener := fun r => ret (json_reply (if String.eqb (req_method r) "GET" then model_description else sample_score));
     authorization := ret "" |}.

Lemma model_http_keeps {W} (P : W -> Prop) method path body : keeps P (request model_http method path body).
Proof. unfold request. keeps_walk; apply keeps_ret. Qed.

Definition sample_now : Z := 1767226000000000.
Definition fixed_clock {W} : M W Z := ret sample_now.

(** ** A node with pages *)
Definition paged : Type := list val * list (list val).

Definition paged_node (r : http_request) : M paged http_answer := fun w =>
  let page := hd [] w.2 in
  (Ok (json_reply [("hits", VDict [("hits", VList page)])]), (w.1 ++ page, tl w.2)).

Definition paged_http : JsonHTTPS paged := {| origin := "https://search.example"; opener := paged_node; authorization := ret "" |}.

#[export] Instance paged_observed : ObservedSearch paged_http fixed_clock fst.
Proof.
  split; [|done]. intros index body w. unfold search, request, mbind, lift, raise_when, raise_if, authorization, paged_http.
  destruct (_index index) as [name|e]; [|done]. destruct (check_path _) as [u|e]; [|done].
  destruct (negb (finite_val (VDict body))); [done|]. reflexivity.
Qed.

Definition feature_hit (vector : mapping) : val :=
  VDict [("_source", VDict vector); ("sort", VList [get "window_end" vector; get "vector_id" vector])].
