(* ===== verification/SampleTraining.v ===== *)
(** Samples of the training side: labelled vectors in three partitions and captures with two sources and
    two scenarios; a registry that holds one approved Isolation Forest, an inference service over it, a
    candidate that meets the policy, its promotion and its retirement; a dataset with labels, a model that
    finds its attack vectors, and scores to choose a threshold from. *)

From S2P Require Import Prelude PyText PyNum PyTime PyNet PyJson JsonText Sha256 Policy Decision Effects Store Contracts Sequences.
From S2P Require Import Outbox Enrichment Registry InferApi Partitions Promotion FeatureEngine Dataset RegistryInv SampleWorkers.

Definition text_hash (s : string) : string := hexdigest (sha256 (utf8 s)).

(** One row: its partition, its event, its session and its vector. *)
Record split_row : Type := { row_partition : string; row_event : string; row_session : string; row_vector : mapping }.

Definition day_vector (id entity day : string) : mapping :=
  assoc_set "source_event_count" (VInt 1) (assoc_set "source_event_set_sha256" (VStr (text_hash id))
    (window_vector entity (day +:+ "T11:00:00Z") (day +:+ "T11:05:00Z") 0)).

Definition split_row_of (name id session entity day : string) : split_row :=
  {| row_partition := name; row_event := id; row_session := session; row_vector := day_vector id entity day |}.

Definition split_table : list split_row := Eval vm_compute in
  [split_row_of "train" "e1" "day-1" "203.0.113.9" "2026-01-01";
   split_row_of "validation" "e2" "day-2" "203.0.113.9" "2026-01-02"; split_row_of "validation" "e3" "scan-1" "198.51.100.7" "2026-01-02";
   split_row_of "test" "e4" "day-3" "203.0.113.9" "2026-01-03"; split_row_of "test" "e5" "scan-2" "198.51.100.7" "2026-01-03"].

Definition rows_of (name : string) : list split_row := List.filter (fun r => String.eqb (row_partition r) name) split_table.
Definition split_rows (name : string) : list val := map (fun r => VDict (row_vector r)) (rows_of name).

Definition ok_text (r : result string) : string := match r with Ok s => s | Err _ => "" end.
Definition row_hash (r : split_row) : string := ok_text (canonical_hash (VDict (row_vector r))).
(** The hash of each vector, by event. *)
Definition row_hashes : list (string * string) := Eval vm_compute in map (fun r => (row_event r, row_hash r)) split_table.
Definition hash_of_row (r : split_row) : string := default "" (assoc (row_event r) row_hashes).

(** A vector file stands for its rows; its bytes are its name. *)
Definition vector_file (name : string) : option (list Z) := Some (utf8 name).

Definition split_ledger : val := Eval vm_compute in
  VDict [("schema_version", VStr "partition-membership-v1");
    ("partitions", VDict (map (fun name => (name, VDict [("vectors_sha256", VStr (text_hash name));
       ("memberships", VList (map (fun r => VDict [("vector_sha256", VStr (hash_of_row r)); ("source_event_ids", VList [VStr (row_event r)]);
                                                   ("session_ids", VList [VStr (row_session r)])]) (rows_of name)))])) PARTITIONS))].

Definition split_range (name start finish profile : string) : val :=
  VDict [("start", VStr start); ("end", VStr finish); ("vector_count", VInt (Z.of_nat (length (rows_of name)))); ("label_profile", VStr profile);
         ("session_ids_sha256", VStr (ok_text (canonical_hash (VList (map (fun r => VStr (row_session r)) (rows_of name))))))].

Definition split_manifest : mapping := Eval vm_compute in
  [("schema_version", VStr "dataset-manifest-v1"); ("dataset_id", VStr "lab-001"); ("sha256", VStr sample_hash); ("feature_schema", VStr "network-window-v1");
   ("feature_schema_sha256", VStr sample_hash); ("raw_data_committed", VBool false);
   ("label_source", VDict [("sha256", VStr (text_hash "labels"))]);
   ("time_range", VDict [("start", VStr "2026-01-01T00:00:00Z"); ("end", VStr "2026-01-04T00:00:00Z")]);
   ("split", VDict [("strategy", VStr "temporal_session_isolated"); ("session_assignment_sha256", VStr (text_hash "ledger"));
      ("train", split_range "train" "2026-01-01T00:00:00Z" "2026-01-02T00:00:00Z" "benign_biased");
      ("validation", split_range "validation" "2026-01-02T00:00:00Z" "2026-01-03T00:00:00Z" "mixed");
      ("test", split_range "test" "2026-01-03T00:00:00Z" "2026-01-04T00:00:00Z" "held_out_attack")])].

Notation any_manifest := (fun _ : val => true).
Notation ledger_json := (fun _ : list Z => Ok split_ledger).

Example split_accepted :
  validate_partitions any_manifest ledger_json sample_schema_file sample_conforms split_rows vector_file (VDict split_manifest) (Some (utf8 "ledger")) = Ok tt.
Proof. vm_compute. reflexivity. Qed.

Definition captured (id source when : string) : val :=
  VDict [("@timestamp", VStr when); ("cxyz", VDict [("schema_version", VStr "soc-event-v1")]);
         ("event", VDict [("id", VStr id); ("dataset", VStr "firewall.syslog")]); ("source", VDict [("ip", VStr source)])].

Definition scenario (id entity start finish : string) : val :=
  VDict [("id", VStr id); ("entity", VStr entity); ("start", VStr start); ("end", VStr finish)].

Definition scenario_file : val :=
  VDict [("schema_version", VStr "scenarios-v1");
         ("scenarios", VList [scenario "scan-1" "203.0.113.9" "2026-01-02T12:55:00Z" "2026-01-02T13:10:00Z";
                              scenario "scan-2" "203.0.113.9" "2026-01-03T12:55:00Z" "2026-01-03T13:10:00Z"])].

Definition capture : list val :=
  [captured "e1" "203.0.113.9" "2026-01-01T11:00:10Z"; captured "e2" "203.0.113.9" "2026-01-01T13:00:10Z";
   captured "e3" "203.0.113.9" "2026-01-02T13:00:10Z"; captured "e4" "198.51.100.7" "2026-01-02T13:01:10Z";
   captured "e5" "203.0.113.9" "2026-01-03T11:00:10Z"; captured "e6" "203.0.113.9" "2026-01-03T13:00:10Z"].

Definition instant (s : string) : Z := match _ts (VStr s) with Ok t => t | Err _ => 0 end.
Definition midnights : list Z := Eval vm_compute in map instant ["2026-01-01T00:00:00Z"; "2026-01-02T00:00:00Z"; "2026-01-03T00:00:00Z"; "2026-01-04T00:00:00Z"].
(** The training part ends at noon. *)
Definition noon_first : list Z := Eval vm_compute in map instant ["2026-01-01T00:00:00Z"; "2026-01-01T12:00:00Z"; "2026-01-03T00:00:00Z"; "2026-01-04T00:00:00Z"].

Definition sample_scenarios : list Scenario := Eval vm_compute in match load_scenarios scenario_file with Ok l => l | Err _ => [] end.

Notation build_sample boundaries :=
  (build sample_schema_file sample_conforms capture sample_scenarios "network-window-v1" boundaries "0123abc" None).

Definition sample_provenance_of_dataset : Provenance :=
  {| dataset_id := "lab-001"; p_schema := "network-window-v1"; p_git_sha := "0123abc"; p_sources := ["firewall"]; events_sha256 := sample_hash;
     collector_config_sha256 := sample_hash; normalization_schema_sha256 := sample_hash; raw_data_location_class := "local_ignored"; created_at := 0 |}.

Notation write_sample b boundaries := (write_dataset sample_schema_file (fun _ => "") true b boundaries sample_provenance_of_dataset).

(** The gate over the files of a build: their digests are those of the files, their documents those
    that were written. *)
Definition gate_of (boundaries : list Z) : result unit :=
  let? b := build_sample boundaries in
  let? '(manifest, files) := write_sample b boundaries in
  let digests := map (fun name => (name, file_sha256 (default [] (assoc (name +:+ ".jsonl") files)))) PARTITIONS in
  validate_partitions (fun _ => true) (fun _ => Ok (ledger_of digests b)) sample_schema_file sample_conforms
    (partitions b) (fun name => assoc (name +:+ ".jsonl") files) manifest (assoc "session-assignments.json" files).

Example midnight_dataset_passes : gate_of midnights = Ok tt.
Proof. vm_compute. reflexivity. Qed.

(** The builder accepts a boundary at noon, and writes a dataset that the gate refuses: a source seen on
    both sides has one session, its day. *)
Example noon_dataset_is_refused :
  is_ok (build_sample noon_first) = true /\
  gate_of noon_first = Err (ModelProvenanceError "dataset partition validation refused: source/session leakage across partitions").
Proof. split; vm_compute; reflexivity. Qed.

Definition sample_forest : SocIsolationForest :=
  {| forest := {| feature_schema := "network-window-v1"; model_schema_sha256 := sample_hash; feature_names := map VStr NETWORK_FEATURES;
                  calibration_low := f_zero; calibration_high := f_one |};
     decision_function := fun row => Ok (SpecFloat.SFopp f_one) |}.

Definition forest_bytes : list Z := utf8 "forest".
Definition forest_hash : string := Eval vm_compute in hexdigest (sha256 forest_bytes).

Definition sample_record : mapping :=
  [("model_id", VStr "iforest-1"); ("algorithm", VStr "IsolationForest"); ("status", VStr "approved");
   ("artifact", VDict [("path", VStr "model.joblib"); ("sha256", VStr forest_hash);
                       ("size_bytes", VInt (Z.of_nat (length forest_bytes))); ("format", VStr "joblib")]);
   ("feature_schema", VDict [("id", VStr "network-window-v1"); ("sha256", VStr sample_hash)]); ("threshold", VInt 1)].

Definition record_bytes : list Z := utf8 "{...}".
Definition record_hash : string := Eval vm_compute in hexdigest (sha256 record_bytes).

Definition sample_json_loads (bytes : list Z) : result val :=
  if bool_decide (bytes = record_bytes) then Ok (VDict sample_record) else Err (ValueError "Expecting value").

(** A record names its model. *)
Definition sample_provenance (d : mapping) : bool :=
  match get "model_id" d with
  | VStr s => negb (String.eqb s "")
  | _ => false
  end.

#[export] Instance sample_provenance_laws : ProvenanceLaws sample_provenance.
Proof.
  intros d. unfold sample_provenance. destruct (get "model_id" d) as [| | |s| |]; try done. intros H. exists s. by bool_inv.
Qed.

Definition sample_read (name : string) : M unit (option (list Z)) :=
  ret (if String.eqb name "metadata.json" then Some record_bytes else if String.eqb name "model.joblib" then Some forest_bytes else Some []).
Definition sample_is_file (name : string) : M unit bool := ret true.
Definition sample_resolve (path : string) : bool * string := (true, path).
Definition sample_joblib (bytes : list Z) : M unit (option SocIsolationForest) := ret (Some sample_forest).
Definition no_lstm (bytes : list Z) : M unit SocLstmAutoencoder := raise (LstmModelError "artifact is not a CompanyXYZ LSTM autoencoder").
Definition sample_elapsed : M unit SpecFloat.spec_float := ret f_one.

Notation sample_load_with joblib :=
  (load_approved_model sample_read sample_is_file sample_resolve sample_json_loads sample_provenance sample_schema_file joblib no_lstm (Some record_hash)).
Notation sample_load := (sample_load_with sample_joblib).

Definition sample_request : InferenceRequest :=
  {| req_schema := "network-window-v1"; req_entity := "203.0.113.9"; req_features := map (fun name => (name, PInt 0)) NETWORK_FEATURES; req_history := [] |}.

Example sample_request_scored :
  (infer_request sample_load sample_elapsed sample_request (new_api tt)).1 =
  Ok (200, VDict [("model_id", VStr "iforest-1"); ("algorithm", VStr "IsolationForest"); ("feature_schema", VStr "network-window-v1");
    ("feature_schema_sha256", VStr sample_hash); ("model_sha256", VStr forest_hash);
    ("model_metadata_sha256", VStr record_hash); ("score", VNum (PFloat f_one)); ("threshold", VNum (PFloat f_one));
    ("is_anomaly", VBool true); ("inference_ms", VNum (PFloat f_one))]).
Proof. vm_compute. reflexivity. Qed.

(** A loader that refuses what does not hash to the approved digest serves the same model. *)
Definition careful_joblib (bytes : list Z) : M unit (option SocIsolationForest) :=
  if String.eqb (hexdigest (sha256 bytes)) forest_hash then sample_joblib bytes else raise (ValueError "refused").

(** The service after one request. *)
Definition one_request : Api unit := (serve_call sample_load sample_elapsed (Infer sample_request) (new_api tt)).2.

Lemma one_request_served : served sample_load sample_elapsed tt one_request.
Proof. apply (served_call sample_load sample_elapsed tt (new_api tt) (Infer sample_request)), served_new. Qed.

Lemma approved_is_forest d bytes : trusted_record sample_json_loads sample_provenance record_hash d -> approved_artifact d bytes ->
  hexdigest (sha256 bytes) = forest_hash.
Proof.
  intros [(b & _ & Hb) _] (artifact & Ha & Hs & _). unfold sample_json_loads in Hb. destruct (bool_decide _); [|done].
  assert (sample_record = d) as <- by congruence. change (get "artifact" sample_record) with (VDict [("path", VStr "model.joblib"); ("sha256", VStr forest_hash);
    ("size_bytes", VInt 6); ("format", VStr "joblib")]) in Ha. revert Hs. generalize (hexdigest (sha256 bytes)). intros h Hs.
  assert (artifact = [("path", VStr "model.joblib"); ("sha256", VStr forest_hash); ("size_bytes", VInt 6); ("format", VStr "joblib")]) as -> by congruence.
  change (get "sha256" _) with (VStr forest_hash) in Hs. congruence.
Qed.

Definition policy_file : val :=
  VDict [("schema_version", VStr "promotion-policy-v1");
         ("minimum", VDict [("precision", VInt 1); ("recall", VInt 1); ("f1", VInt 1); ("scenario_detection_ratio", VInt 1)]);
         ("maximum", VDict [("false_positives_per_hour", VInt 6); ("p95_inference_ms", VInt 50)])].

Definition sample_metrics : list (string * val) := map (fun name => (name, VInt 1)) METRIC_FIELDS.

Definition candidate_record : mapping := Eval vm_compute in
  assoc_set "status" (VStr "candidate") (assoc_set "evaluation" (VDict sample_metrics)
    (assoc_set "dataset" (VDict [("manifest_sha256", VStr sample_hash)]) sample_record)).

Definition candidate_binding : mapping :=
  [("schema_version", VStr "evaluation-binding-v1"); ("model_sha256", VStr forest_hash); ("feature_schema_sha256", VStr sample_hash);
   ("dataset_manifest_sha256", VStr sample_hash); ("threshold", VInt 1); ("threshold_policy", VDict [("selected_on", VStr "validation")]);
   ("test_metrics", VDict (sample_metrics ++ [("scenarios_detected", VInt 2); ("scenarios_total", VInt 2)]))].

(** The approved record as it is written, and as it reads back. *)
Definition approved_bytes : list Z := Eval vm_compute in json_file (VDict (assoc_set "status" (VStr "approved") candidate_record)).
Definition approved_record : mapping := Eval vm_compute in match loads_bytes approved_bytes with Ok (VDict d) => d | _ => [] end.

Definition promotion_json_loads (bytes : list Z) : result val :=
  if bool_decide (bytes = utf8 "candidate") then Ok (VDict candidate_record)
  else if bool_decide (bytes = utf8 "binding") then Ok (VDict candidate_binding)
  else if bool_decide (bytes = approved_bytes) then Ok (VDict (assoc_set "status" (VStr "approved") candidate_record))
  else Err (ValueError "Expecting value").

Definition candidate_files : list (string * list Z) :=
  [("metadata.json", utf8 "candidate"); ("evaluation.json", utf8 "binding"); ("model.joblib", forest_bytes); ("feature_schema.json", [])].

Definition in_directory (files : list (string * list Z)) (name : string) : M unit (option (list Z)) := ret (assoc name files).
Definition has_file (files : list (string * list Z)) (name : string) : M unit bool := ret (if assoc name files then true else false).

Definition empty_output : Promotion unit := {| disk := tt; output := [] |}.
Definition june : M unit Z := ret 1767226000000000.

Notation promote_sample :=
  (promote promotion_json_loads (fun _ => Ok policy_file) sample_provenance sample_schema_file june (has_file candidate_files) (in_directory candidate_files)
     "reviewer" (ret (Some [])) "" None None empty_output).

Notation retire_sample :=
  (retire loads_bytes sample_provenance (has_file (("metadata.json", approved_bytes) :: candidate_files))
     (in_directory (("metadata.json", approved_bytes) :: candidate_files)) "retired" "drift" empty_output).

(** The promoted registry serves its model. *)
Example promoted_is_served :
  let '(r, s) := promote_sample in
  match r with
  | Ok (digest, _) =>
      is_ok (load_approved_model (in_directory (output s)) (has_file (output s)) sample_resolve promotion_json_loads sample_provenance sample_schema_file
               sample_joblib no_lstm (Some digest) tt).1 = true
  | Err _ => False
  end.
Proof. vm_compute. reflexivity. Qed.

(** A count that is no number meets the scenario floor. *)
Example nan_scenarios_pass :
  check_policy (match policy_file with VDict d => d | _ => [] end)
    (VDict (sample_metrics ++ [("scenarios_detected", VFloat SpecFloat.S754_nan); ("scenarios_total", VInt 2)])) = Ok tt.
Proof. vm_compute. reflexivity. Qed.

From S2P Require Import Labels Evaluation Pipeline.

Definition tenth (n : Z) : float := int_truediv n 10.
Definition one_hour : float := float_of_Z 3600.

Example threshold_within_budget : select_threshold [false; false; true; true] [tenth 1; tenth 7; tenth 6; tenth 9] one_hour (float_of_Z 1) = Ok (tenth 6).
Proof. vm_compute. reflexivity. Qed.

Example threshold_without_budget : select_threshold [false; false; true; true] [tenth 1; tenth 7; tenth 6; tenth 9] one_hour f_zero = Ok (tenth 9).
Proof. vm_compute. reflexivity. Qed.

(** ** The labelled dataset *)
Definition label_of (r : split_row) : val :=
  let scenario := starts_with "scan" (row_session r) in
  VDict [("schema_version", VStr "labels-v1"); ("vector_sha256", VStr (hash_of_row r)); ("label", VInt (if scenario then 1 else 0));
         ("scenario_id", if scenario then VStr (row_session r) else VNone);
         ("scenario_start", if scenario then VStr "2026-01-02T10:55:00Z" else VNone)].

Definition numbered (l : list val) : list (Z * result val) := imap (fun i v => (Z.of_nat i + 1, Ok v)) l.

(** The lines of the files whose bytes are their names. *)
Definition sample_lines (bytes : list Z) : result (list (Z * result val)) :=
  if bool_decide (bytes = utf8 "labels") then Ok (numbered (map label_of split_table))
  else match List.find (fun name => bool_decide (bytes = utf8 name)) PARTITIONS with
       | Some name => Ok (numbered (split_rows name))
       | None => Err (ValueError "invalid")
       end.

Notation sample_load_dataset :=
  (load_dataset any_manifest ledger_json sample_schema_file sample_conforms sample_lines (Ok (VDict split_manifest)) vector_file
     (Some (utf8 "ledger")) (Some (utf8 "labels")) "network-window-v1").

Example dataset_loads : is_ok sample_load_dataset = true.
Proof. vm_compute. reflexivity. Qed.

(** ** A candidate trained on it *)
Definition split_label (r : split_row) : Label :=
  let scenario := starts_with "scan" (row_session r) in
  {| vector_sha256 := hash_of_row r; attack := scenario; scenario_id := if scenario then VStr (row_session r) else VNone;
     scenario_start := if scenario then Some 1767351300000000 else None |}.

Definition sample_dataset : Dataset :=
  {| manifest := split_manifest; partitions := fun name => map row_vector (rows_of name); labels := fun name => map split_label (rows_of name) |}.

Definition sample_arguments : Arguments :=
  {| feature_schema_argument := "network-window-v1"; model_id_argument := "iforest-1"; random_seed := 7; git_sha := "0123abc";
     runtime_image_digest := "sha256:" +:+ sample_hash; library_lock_sha256 := sample_hash; max_false_positives_per_hour := float_of_Z 6;
     output_absent_or_empty := true |}.

Definition sample_fitted : Fitted :=
  {| fitted_model := Forest sample_forest; fitted_algorithm := "IsolationForest"; artifact_name := "model.joblib"; artifact_format := "joblib";
     artifact_bytes := forest_bytes; hyperparameters := [("n_estimators", VInt 200)]; started_at := "2026-01-05T00:00:00Z"; completed_at := "2026-01-05T00:01:00Z" |}.

Definition sample_evidence : Evidence :=
  {| manifest_digest := sample_hash; labels_digest := sample_hash; validation_digest := sample_hash; test_digest := sample_hash |}.

Definition perfect_scores (labels predictions : list bool) : float * float * float := (f_one, f_one, f_one).
Definition perfect_precision (labels : list bool) (scores : list float) : float := f_one.

Notation write_sample_candidate :=
  (write_candidate perfect_scores perfect_precision sample_elapsed (ret (f_zero, f_one)) (ret 1767571200000000) sample_schema_file
     sample_arguments sample_dataset sample_fitted sample_evidence tt).

Example candidate_written : is_ok write_sample_candidate.1 = true.
Proof. vm_compute. reflexivity. Qed.
