(* ===== verification/ComplianceProps.v ===== *)
(** Theorems about compliance evidence ([Compliance.v]): what a strict report that passes has checked,
    what an artifact's provenance binds it to, that recorded runs are accepted, and that wired controls
    have a proof each. *)

From S2P Require Import Prelude PyText PyNum PyTime PyJson JsonText Sha256 Policy Compliance.

(** * A small repository *)
Definition sample_digest (data : list Z) : string := str_of_Z (Z.of_nat (length data)).

Definition sample_repository : Repository :=
  {| git_sha := "abc123"; git_dirty := false; tracked_files := [([97], [1; 2]); ([98], [])]; control_catalog := [1]; topology := [2; 3];
     test_files := [([99], [4])]; dotenv := [("DEPLOY_ENV", "lab")]; key_files := fun _ => None |}.

(** One control for both profiles and one for Path B. *)
Definition sample_drop : mapping :=
  [("id", VStr "CTL-1"); ("framework", VList [VStr "AC-4"; VStr "A.8"]); ("severity", VStr "high"); ("verified_by", VStr "fw.py::drop");
   ("verified_by_path_b", VStr "audit.py::drop")].
Definition sample_ids : mapping :=
  [("id", VStr "CTL-2"); ("applicable_profiles", VList [VStr "path-b"]); ("framework", VStr "CIS"); ("severity", VStr "low");
   ("verified_by_path_b", VStr "audit.py::ids")].

Definition sample_arguments (control test : string) : RecordArguments :=
  {| test_id := test; control := control; outcome := "PASS"; assertion := "ok"; enforcement_node := VNone; counter_before := VInt 1; counter_after := VInt 2;
     started_at := "2025-01-01T00:00:00Z"; observed_items := ["hits=1"]; run_identifier := "r1"; lab_environment := "path-b" |}.

Definition sample_now : Z := 1735689601000005.
Definition sample_run : list (RecordArguments * Z) := [(sample_arguments "CTL-1" "audit.py::drop", sample_now); (sample_arguments "CTL-2" "s/audit.py::ids", sample_now)].

Definition the {A} (default_value : A) (m : result A) : A := match m with Ok a => a | Err _ => default_value end.
Definition sample_provenance : mapping := Eval vm_compute in the [] (current_provenance sample_digest sample_repository).
Definition sample_files : list (string * result string) :=
  Eval vm_compute in map (fun a => let f := the ("", []) (record_evidence a.1 sample_provenance a.2) in (f.1, read_text f.2)) sample_run.
Definition sample_report : Report := Eval vm_compute in
  (the ({| report_profile := ""; report_run := ""; report_git_sha := ""; passed := 0; failed := 0; in_error := 0; unverified := 0; rows := [];
           not_applicable := []; invalid_artifacts := [] |}, 1)
    (generate_report [sample_drop; sample_ids] (Some ("r1", sample_files)) (Ok sample_provenance) true "path-b")).1.

Lemma sample_provenance_ok : current_provenance sample_digest sample_repository = Ok sample_provenance.
Proof. reflexivity. Qed.

Lemma sample_report_ok :
  generate_report [sample_drop; sample_ids] (Some ("r1", sample_files)) (current_provenance sample_digest sample_repository) true "path-b" = Ok (sample_report, 0).
Proof. vm_compute. reflexivity. Qed.

Definition sample_written : string * list Z :=
  Eval vm_compute in the ("", []) (record_evidence (sample_arguments "CTL-1" "audit.py::drop") sample_provenance sample_now).

Lemma sample_recorded : record_evidence (sample_arguments "CTL-1" "audit.py::drop") sample_provenance sample_now = Ok (sample_written.1, sample_written.2).
Proof. vm_compute. reflexivity. Qed.

Lemma sample_first : sample_files = (sample_written.1, read_text sample_written.2) :: tail sample_files.
Proof. vm_compute. reflexivity. Qed.

Lemma sample_printable payload : recorded_payload (sample_arguments "CTL-1" "audit.py::drop") sample_provenance sample_now = Ok payload ->
  printable (VDict payload) = true.
Proof. intros H. vm_compute in H. injection H as <-. vm_compute. reflexivity. Qed.

(** * Reading a run *)

(** What an artifact that is kept satisfies. *)
Definition acceptable (p : mapping) : Prop :=
  REQUIRED_FIELDS ⊆ keys p /\ py_eq (get "schema_version" p) (VInt 2) = true /\
  (exists r, r ∈ VALID_RESULTS /\ get "result" p = VStr r) /\ _validate_timestamps p = None.

Lemma existsb_text v names : existsb (fun n => py_eq v (VStr n)) names = true <-> exists n, n ∈ names /\ v = VStr n.
Proof.
  rewrite existsb_exists. split; intros (n & Hn & H); exists n; rewrite <- ?list_elem_of_In, ?list_elem_of_In in *; split; auto; by apply py_eq_text.
Qed.

Lemma artifact_error_None name p : artifact_error name p = Ok None <-> acceptable p.
Proof.
  unfold artifact_error, acceptable. rewrite sort_by_length. split.
  - intros H. destruct (negb (Nat.eqb (length _) 0)) eqn:E1; [done|]. apply negb_false_iff, Nat.eqb_eq, length_zero_iff_nil in E1.
    destruct (negb (py_eq _ _)) eqn:E2; [done|]. apply raise_seq_Ok in H as [E3 H].
    destruct (negb (existsb _ _)) eqn:E4; [done|]. apply negb_false_iff, existsb_text in E4. destruct (_validate_timestamps p); [done|].
    bool_inv. split; [by apply keys_minus_nil|]. done.
  - intros (H1 & H2 & (r & Hr & E) & H4). apply keys_minus_nil in H1. rewrite H1, H2, H4, E. cbn [length Nat.eqb negb is_hashable raise_if rbind].
    assert (existsb (fun n => py_eq (VStr r) (VStr n)) VALID_RESULTS = true) as -> by (apply existsb_text; eauto). done.
Qed.

(** The artifact a file of the run gave. *)
Definition comes_from (files : list (string * result string)) (p : mapping) : Prop :=
  exists file, file ∈ files /\ rbind file.2 loads = Ok (VDict p).

Lemma read_artifact_Ok evidence errors file evidence' errors' : read_artifact (evidence, errors) file = Ok (evidence', errors') ->
  (exists p, rbind file.2 loads = Ok (VDict p) /\ acceptable p /\ evidence' = evidence ++ [p] /\ errors' = errors) \/
  (exists e, evidence' = evidence /\ errors' = errors ++ [e]).
Proof.
  unfold read_artifact. destruct (rbind file.2 loads) as [[| | | | |p]|e] eqn:E; try done.
  - intros H. apply rbind_Ok in H as (m & Hm & H). destruct m as [e|]; injection H as <- <-; [right; eauto|].
    left. exists p. by rewrite <- artifact_error_None.
  - destruct (is_unreadable e); [|done]. intros [= <- <-]. right. eauto.
Qed.

(** Every artifact that is kept comes from a file, and without errors every file gave one. *)
Lemma reads_run files evidence errors evidence' errors' : foldR read_artifact (evidence, errors) files = Ok (evidence', errors') ->
  exists ps es, evidence' = evidence ++ ps /\ errors' = errors ++ es /\ Forall (fun p => acceptable p /\ comes_from files p) ps /\
  (es = [] -> Forall2 (fun file p => rbind file.2 loads = Ok (VDict p)) files ps).
Proof.
  revert evidence errors. induction files as [|file files IH]; intros evidence errors H; cbn [foldR] in H.
  { injection H as <- <-. exists [], []. rewrite !app_nil_r. by repeat constructor. }
  apply rbind_Ok in H as ([ev er] & Hf & H). apply IH in H as (ps & es & -> & -> & Hps & Hes).
  assert (Forall (fun p => acceptable p /\ comes_from (file :: files) p) ps) as Hps'.
  { eapply Forall_impl; [exact Hps|]. intros p (Ha & f & Hin & E). split; [done|]. exists f. split; [by right|done]. }
  apply read_artifact_Ok in Hf as [(p & Hp & Ha & -> & ->)|(e & -> & ->)].
  - exists (p :: ps), es. rewrite <- app_assoc. repeat split; [|by intros ->; constructor; auto].
    constructor; [|done]. split; [done|]. exists file. split; [by left|done].
  - exists ps, ([e] ++ es). rewrite <- app_assoc. by repeat split.
Qed.

(** Without a duplicate the keys differ. *)
Lemma see_keys evidence seen errors : (fold_left see_key evidence (seen, errors)).2 = [] ->
  errors = [] /\ (NoDup seen -> NoDup (seen ++ map evidence_key evidence)).
Proof.
  revert seen errors. induction evidence as [|p evidence IH]; intros seen errors H; cbn [fold_left map] in *.
  { split; [exact H|]. by rewrite app_nil_r. }
  unfold see_key at 2 in H. cbn [fst snd] in H. destruct (bool_decide (evidence_key p ∈ seen)) eqn:E.
  - apply IH in H as [H _]. by destruct errors.
  - apply IH in H as [-> H]. split; [done|]. intros Hs. bool_inv. rewrite <- app_assoc in H. apply H.
    apply NoDup_app. split; [done|]. split; [|apply NoDup_singleton]. intros x Hx ->%list_elem_of_singleton. done.
Qed.

Lemma load_evidence_Ok files evidence errors : load_evidence files = Ok (evidence, errors) ->
  Forall (fun p => acceptable p /\ comes_from files p) evidence /\
  (errors = [] -> NoDup (map evidence_key evidence) /\ Forall2 (fun file p => rbind file.2 loads = Ok (VDict p)) (sort_by key_leb files) evidence).
Proof.
  intros H. unfold load_evidence in H. apply rbind_Ok in H as ([ev er] & Hr & [= -> <-]).
  apply reads_run in Hr as (ps & es & -> & -> & Hps & Hes). cbn [app]. split.
  - eapply Forall_impl; [exact Hps|]. intros p (Ha & f & Hin & E). split; [done|]. exists f. by rewrite <- (sort_by_elem key_leb).
  - intros [-> Hk]%app_nil. split; [|by apply Hes]. apply see_keys in Hk as [_ Hk]. apply Hk. constructor.
Qed.

(** * Provenance *)
Lemma when_nil b e : when b e = [] <-> b = false.
Proof. by destruct b. Qed.

Lemma concat_map_nil {A B} (f : A -> list B) l : concat (map f l) = [] <-> Forall (fun x => f x = []) l.
Proof.
  induction l as [|x l IH]; cbn; [by split|]. rewrite Forall_cons, <- IH. split; [by intros [? ?]%app_nil|by intros [-> ->]].
Qed.

Lemma provenance_errors_nil run_id baseline expected item : artifact_provenance_errors run_id baseline expected item = [] <->
  (run_id <> "" -> get "run_id" item = VStr run_id) /\
  Forall (fun field => py_eq (get field item) (get field baseline) = true) PROVENANCE_FIELDS /\
  Forall (fun kv => py_eq (get kv.1 item) kv.2 = true) expected.
Proof.
  unfold artifact_provenance_errors. rewrite !app_nil, !concat_map_nil.
  assert (forall b, negb b = false <-> b = true) as N by (by intros []). repeat setoid_rewrite when_nil. repeat setoid_rewrite N.
  apply and_iff_compat_r. destruct (String.eqb_spec run_id "") as [->|Hn]; cbn; [by split|].
  rewrite negb_false_iff, py_eq_text. tauto.
Qed.

(** The environments a profile's evidence may come from. *)
Definition environments (profile : string) : list string := if String.eqb profile "path-b" then ["path-b"] else ["local-containerlab"; "path-a"].

Section bound.
Variable digest : list Z -> string.
Variable r : Repository.

(** The artifact names the source, the catalog, the topology, the tests and the settings of the repository. *)
Definition describes (p : mapping) : Prop :=
  get "git_sha" p = VStr (git_sha r) /\ py_eq (get "git_dirty" p) (VBool (git_dirty r)) = true /\
  (exists tree, source_tree_hash digest (tracked_files r) = Ok tree /\ get "source_tree_sha256" p = VStr tree) /\
  get "control_catalog_sha256" p = VStr (digest (control_catalog r)) /\ get "topology_sha256" p = VStr (digest (topology r)) /\
  get "test_suite_sha256" p = VStr (test_suite_hash digest (test_files r)) /\
  get "deployment_config_sha256" p = VStr (deployment_config_hash digest (key_files r) (dotenv r)).

Definition bound (run_id profile : string) (p : mapping) : Prop :=
  (run_id <> "" -> get "run_id" p = VStr run_id) /\ describes p /\ exists e, e ∈ environments profile /\ get "environment" p = VStr e.

Lemma current_describes expected p : current_provenance digest r = Ok expected ->
  Forall (fun kv => py_eq (get kv.1 p) kv.2 = true) expected <-> describes p.
Proof.
  intros H. unfold current_provenance in H. apply rbind_Ok in H as (tree & Ht & [= <-]). unfold describes.
  rewrite !Forall_cons. cbn [fst snd]. rewrite !py_eq_text, Ht. split.
  - intros (? & ? & ? & ? & ? & ? & ? & _). do 2 (split; [done|]). split; [by exists tree|]. tauto.
  - intros (? & ? & (t & [= <-] & ?) & ? & ? & ? & ?). repeat split; auto.
Qed.

Lemma environment_errors_nil profile v : profile ∈ PROFILES -> environment_errors profile v = Ok [] ->
  exists e, e ∈ environments profile /\ v = VStr e.
Proof.
  intros Hp. unfold environment_errors, environments. repeat (apply elem_of_cons in Hp as [->|Hp]); [| |by apply elem_of_nil in Hp]; cbn.
  - unfold environment_in. intros H. apply rbind_Ok in H as (known & Hk & [= H]).
    apply raise_seq_Ok in Hk as [_ [= <-]]. apply when_nil, negb_false_iff in H.
    exact (proj1 (existsb_text v ["local-containerlab"; "path-a"]) H).
  - intros [= H]. apply when_nil, negb_false_iff, py_eq_text in H as ->. exists "path-b". split; [by left|done].
Qed.

Lemma dirty_false v b : py_eq v (VBool b) = true -> truthy v = false -> b = false.
Proof.
  destruct b; [|done]. destruct v as [|[]|n|s|l|d]; [done|done|done| |done|done|done].
  cbn [py_eq as_number truthy]. intros H1 H0%negb_false_iff. revert H1 H0. unfold num_eqb, num_compare.
  destruct (num_x n) as [|i|m e]; [done|by destruct i|]. cbn [num_x]. unfold fin_compare. set (k := Z.min e 0).
  destruct (Z.compare_spec (m * 2 ^ (e - k)) (1 * 2 ^ (0 - k))) as [E1| |]; [|done|done].
  destruct (Z.compare_spec (m * 2 ^ (e - k)) (0 * 2 ^ (0 - k))) as [E0| |]; [|done|done].
  pose proof (Z.pow_pos_nonneg 2 (0 - k)). lia.
Qed.

(** Evidence without provenance errors is bound to the repository, which a strict report wants clean. *)
Lemma validated_evidence_is_bound evidence name profile : profile ∈ PROFILES ->
  validate_provenance evidence name (current_provenance digest r) true profile = Ok [] ->
  Forall (bound name profile) evidence /\ (evidence <> [] -> git_sha r <> "unknown" /\ git_dirty r = false).
Proof.
  intros Hp H. destruct evidence as [|baseline evidence]; [by split|]. unfold validate_provenance in H.
  apply rbind_Ok in H as (expected & He & H). apply rbind_Ok in H as (environment & Henv & [= H]).
  apply app_nil in H as [Hall [-> Hs]%app_nil]. apply (proj1 (concat_map_nil (artifact_provenance_errors name baseline expected) (baseline :: evidence))) in Hall.
  apply environment_errors_nil in Henv as (e & Hin & Hee); [|done].
  assert (Forall (bound name profile) (baseline :: evidence)) as Hb.
  { eapply Forall_impl; [exact Hall|]. intros p (Hr & Hf & Hc)%provenance_errors_nil. split; [exact Hr|].
    split; [by eapply current_describes|]. exists e. split; [done|].
    rewrite Forall_forall in Hf. apply py_eq_text. rewrite <- Hee. apply Hf. repeat (first [left|right]; try reflexivity). }
  split; [done|]. intros _. apply Forall_inv in Hb as (_ & (Hsha & Hd & _) & _).
  unfold strict_errors in Hs. apply app_nil in Hs as [Hu%when_nil Ht%when_nil]. split; [|by eapply dirty_false].
  intros E. rewrite Hsha, E in Hu. by vm_compute in Hu.
Qed.
End bound.

(** * The report *)
Lemma filterR_elem {A} (f : A -> result bool) l l' x : filterR f l = Ok l' -> x ∈ l -> f x = Ok true -> x ∈ l'.
Proof.
  revert l'. induction l as [|y l IH]; intros l' H Hx Hf; cbn in H; [by apply elem_of_nil in Hx|].
  apply rbind_Ok in H as (b & Hb & H). apply rbind_Ok in H as (rest & Hrest & [= <-]).
  apply elem_of_cons in Hx as [->|Hx].
  - rewrite Hf in Hb. injection Hb as <-. left.
  - specialize (IH rest Hrest Hx Hf). destruct b; [by right|done].
Qed.

Lemma filter_all {A} (f : A -> bool) l : length (List.filter f l) = length l -> Forall (fun x => f x = true) l.
Proof.
  induction l as [|x l IH]; intros H; [done|]. cbn in H. pose proof (List.filter_length_le f l).
  destruct (f x) eqn:E; cbn in H; [constructor; auto|lia].
Qed.

Lemma keep_match_found id suffix verified_by evidence found p : foldR (keep_match id suffix verified_by) found evidence = Ok (Some p) ->
  found = Some p \/ p ∈ evidence /\ proves id suffix verified_by p = Ok true.
Proof.
  revert found. induction evidence as [|q evidence IH]; intros found H; cbn in H; [injection H as ->; by left|].
  apply rbind_Ok in H as (found' & Hf & H). unfold keep_match in Hf. apply rbind_Ok in Hf as (m & Hm & [= <-]).
  apply IH in H as [H|[Hin H]]; [|by right; split; [right|]]. destruct m; [|by left]. injection H as ->. right. by split; [left|].
Qed.

(** The evidence that a control passed for the profile: its own test passed, in an artifact of the run
    that is bound to the repository. *)
Definition proven (digest : list Z -> string) (r : Repository) (name : string) (files : list (string * result string)) (profile : string) (c : mapping) : Prop :=
  exists verified_by suffix id p,
    verifier_for c profile = Ok (VStr verified_by) /\ verified_test_suffix verified_by = Ok suffix /\ item "id" c = Ok id /\
    comes_from files p /\ acceptable p /\ bound digest r name profile p /\
    get "result" p = VStr "PASS" /\ py_eq (get "control_id" p) id = true /\ names_test suffix verified_by (get "test_id" p) = Ok true.

Lemma status_pass evidence profile c artifact : Forall acceptable evidence -> status_for c evidence profile = Ok ("PASS", artifact) ->
  exists verified_by suffix id p, verifier_for c profile = Ok (VStr verified_by) /\ verified_test_suffix verified_by = Ok suffix /\ item "id" c = Ok id /\
    p ∈ evidence /\ get "result" p = VStr "PASS" /\ py_eq (get "control_id" p) id = true /\ names_test suffix verified_by (get "test_id" p) = Ok true.
Proof.
  intros Ha H. unfold status_for in H.
  apply rbind_Ok in H as (v & Hv & H). apply rbind_Ok in H as (verified_by & Ht & H). apply rbind_Ok in H as (suffix & Hs & H).
  apply rbind_Ok in H as (id & Hid & H). apply rbind_Ok in H as (found & Hf & H).
  destruct v; try done. injection Ht as ->. destruct found as [p|]; [|done].
  apply keep_match_found in Hf as [|[Hin Hp]]; [done|].
  assert (item "id" c = Ok id) as Hid' by (destruct evidence; [by apply elem_of_nil in Hin|exact Hid]).
  exists verified_by, suffix, id, p. do 4 (split; [done|]).
  rewrite Forall_forall in Ha. destruct (Ha p Hin) as (_ & _ & (res & Hres & E) & _). rewrite E in *. injection H as <- _. split; [done|].
  unfold proves in Hp. by destruct (py_eq (get "control_id" p) id).
Qed.

(** What an exit with 0 says of the steps of the report. *)
Lemma passing_report catalog name files expected profile report :
  generate_report catalog (Some (name, files)) expected true profile = Ok (report, 0) ->
  exists controls evidence rows, filterR (fun c => applies_to_profile c profile) catalog = Ok controls /\
    load_evidence files = Ok (evidence, []) /\ validate_provenance evidence name expected true profile = Ok [] /\
    mapR (report_row evidence profile) controls = Ok rows /\ Forall (fun row => row_status row = "PASS") rows /\ invalid_artifacts report = [].
Proof.
  intros H. unfold generate_report in H. apply rbind_Ok in H as (controls & Hc & H). apply rbind_Ok in H as (elsewhere & _ & H).
  apply rbind_Ok in H as ([evidence unreadable] & Hl & H). apply rbind_Ok in H as (invalid & Hi & H).
  apply rbind_Ok in H as (rows & Hrows & H). apply rbind_Ok in H as (_ & _ & H). injection H as <- H. cbn [fst snd invalid_artifacts] in *.
  match type of H with (if ?b then _ else _) = _ => destruct b eqn:E; [done|] end. clear H.
  cbn [passed failed in_error unverified] in E. bool_inv. pose proof (mapR_length _ _ _ Hrows) as Hlen.
  assert (unreadable ++ invalid = []) as [-> ->]%app_nil.
  { apply length_zero_iff_nil. unfold count_status in *. lia. }
  exists controls, evidence, rows. do 4 (split; [done|]). split; [|done].
  eapply Forall_impl; [apply (filter_all (fun row => String.eqb (row_status row) "PASS")); unfold count_status in *; lia|].
  intros row. apply String.eqb_eq.
Qed.

Lemma passing_files digest r name files profile evidence : profile ∈ PROFILES ->
  load_evidence files = Ok (evidence, []) -> validate_provenance evidence name (current_provenance digest r) true profile = Ok [] ->
  Forall (fun p => acceptable p /\ comes_from files p /\ bound digest r name profile p) evidence /\
  Forall (fun file => exists p, rbind file.2 loads = Ok (VDict p) /\ acceptable p /\ bound digest r name profile p) files /\
  (files <> [] -> git_sha r <> "unknown" /\ git_dirty r = false).
Proof.
  intros Hp Hl Hi. apply load_evidence_Ok in Hl as [Hev [_ Hall]%(fun H => H eq_refl)].
  apply validated_evidence_is_bound in Hi as [Hb Hclean]; [|done]. rewrite Forall_forall in Hev, Hb.
  split; [|split].
  - apply Forall_forall. intros p Hin. destruct (Hev p Hin). auto.
  - apply Forall_forall. intros file Hin. rewrite <- (sort_by_elem key_leb) in Hin.
    destruct (Forall2_elem_l _ _ _ _ Hall Hin) as (p & Hpin & Hload). exists p. split; [done|]. by split; [apply Hev|apply Hb].
  - intros Hf. apply Hclean. intros ->. apply Forall2_length, Logic.eq_sym in Hall. rewrite sort_by_length in Hall. by destruct files.
Qed.

(** * What a hash of the tree fixes *)
Lemma to_bytes_length w n : length (to_bytes w n) = w.
Proof. induction w; cbn; [done|]. by f_equal. Qed.

Lemma to_bytes_mod w a b : to_bytes w a = to_bytes w b -> a mod 256 ^ Z.of_nat w = b mod 256 ^ Z.of_nat w.
Proof.
  induction w as [|w IH]; intros H; [by rewrite !Z.mod_1_r|]. cbn [to_bytes] in H. injection H as Hh Ht%IH. revert Hh Ht.
  change 255 with (Z.ones 8). rewrite !Z.land_ones, !Z.shiftr_div_pow2 by lia. change (2 ^ 8) with 256.
  replace (2 ^ (8 * Z.of_nat w)) with (256 ^ Z.of_nat w) by (rewrite Z.pow_mul_r by lia; done). intros Hh Ht.
  rewrite Nat2Z.inj_succ, Z.pow_succ_r, Z.mul_comm by lia. pose proof (Z.pow_pos_nonneg 256 (Z.of_nat w)).
  rewrite !Z.rem_mul_r by lia. congruence.
Qed.

(** A sized text is read without its end. *)
Lemma sized_prefix w x y sx sy r t : sized w x = Ok sx -> sized w y = Ok sy -> sx ++ r = sy ++ t -> x = y /\ r = t.
Proof.
  unfold sized. intros Hx Hy E. ok_inv. subst sx sy. bool_inv. rewrite <- !app_assoc in E.
  apply app_inj_1 in E as [Hn E]; [|by rewrite !to_bytes_length]. apply to_bytes_mod in Hn. rewrite !Z.mod_small in Hn by lia.
  apply app_inj_1 in E; [done|lia].
Qed.

Lemma tree_entry_prefix f g sf sg r t : tree_entry f = Ok sf -> tree_entry g = Ok sg -> sf ++ r = sg ++ t -> f = g /\ r = t.
Proof.
  unfold tree_entry. intros Hf Hg E. apply rbind_Ok in Hf as (pf & Hpf & Hf). apply rbind_Ok in Hf as (df & Hdf & [= <-]).
  apply rbind_Ok in Hg as (pg & Hpg & Hg). apply rbind_Ok in Hg as (dg & Hdg & [= <-]). rewrite <- !app_assoc in E.
  destruct (sized_prefix _ _ _ _ _ _ _ Hpf Hpg E) as [Hp E']. destruct (sized_prefix _ _ _ _ _ _ _ Hdf Hdg E') as [Hd ->].
  destruct f, g. by simplify_eq/=.
Qed.

Lemma tree_entry_nonempty f s : tree_entry f = Ok s -> s <> [].
Proof.
  unfold tree_entry, sized. intros H. ok_inv. subst. cbn [to_bytes app]. discriminate.
Qed.

Lemma tree_stream_inj f g s : tree_stream f = Ok s -> tree_stream g = Ok s -> f = g.
Proof.
  unfold tree_stream. intros Hf Hg. apply rbind_Ok in Hf as (ef & Hf & [= <-]). apply rbind_Ok in Hg as (eg & Hg & [= E]).
  apply mapR_Forall2 in Hf, Hg. revert g eg Hg E. induction Hf as [|a ea f ef Ha _ IH]; intros g eg Hg E.
  - destruct Hg as [|b eb g eg Hb Hg]; [done|]. apply tree_entry_nonempty in Hb. by apply app_nil in E as [-> _].
  - destruct Hg as [|b eb g eg Hb Hg]; cbn [concat] in E.
    + apply tree_entry_nonempty in Ha. symmetry in E. by apply app_nil in E as [-> _].
    + symmetry in E. destruct (tree_entry_prefix _ _ _ _ _ _ Ha Hb E) as [-> E']. f_equal. by apply (IH g eg).
Qed.

(** * Recording *)
Definition set_all (fields d : mapping) : mapping := fold_left (fun d kv => assoc_set kv.1 kv.2 d) fields d.

Lemma get_set_all k fields d : NoDup (keys fields) -> get k (set_all fields d) = match assoc k fields with Some v => v | None => get k d end.
Proof.
  unfold set_all. revert d. induction fields as [|[k' v] fields IH]; intros d Hnd; [done|].
  cbn in Hnd. apply NoDup_cons in Hnd as [Hk' Hnd]. cbn [fold_left fst snd]. rewrite IH by done. cbn [assoc].
  destruct (String.eqb_spec k k') as [->|Hn].
  - assert (assoc k' fields = None) as -> by (by apply assoc_None). unfold get. by rewrite assoc_set_eq.
  - unfold get. rewrite assoc_set_ne by done. done.
Qed.

Lemma recorded_fields a provenance now payload : recorded_payload a provenance now = Ok payload ->
  exists observed, payload = set_all (provenance ++ [("environment", VStr (lab_environment a))])
    [("schema_version", VInt 2); ("control_id", VStr (control a)); ("test_id", VStr (test_id a)); ("result", VStr (outcome a));
     ("assertion", VStr (assertion a)); ("observed", VDict observed); ("enforcement_node", enforcement_node a);
     ("counter_before", counter_before a); ("counter_after", counter_after a);
     ("failure", if String.eqb (outcome a) "PASS" then VNone else get "failure" observed);
     ("started_at", VStr (started_at a)); ("ended_at", VStr (isoformat_auto now)); ("run_id", VStr (run_identifier a))].
Proof. intros H. unfold recorded_payload in H. apply rbind_Ok in H as (observed & _ & [= <-]). by exists observed. Qed.

Lemma provenance_keys digest r provenance : current_provenance digest r = Ok provenance -> keys provenance =
  ["git_sha"; "git_dirty"; "source_tree_sha256"; "control_catalog_sha256"; "topology_sha256"; "test_suite_sha256"; "deployment_config_sha256"].
Proof. intros H. unfold current_provenance in H. by apply rbind_Ok in H as (tree & _ & [= <-]). Qed.

(** What is read of a recorded file. *)
Lemma recorded_file_loads a provenance now name bytes : record_evidence a provenance now = Ok (name, bytes) ->
  exists payload, recorded_payload a provenance now = Ok payload /\
  (printable (VDict payload) = true -> rbind (read_text bytes) loads = Ok (VDict (sort_by key_leb (map (fun kv => (kv.1, arranged true kv.2)) payload)))).
Proof.
  intros H. unfold record_evidence in H. apply rbind_Ok in H as (payload & Hp & [= <- <-]). exists payload. split; [done|].
  intros Hpr. by apply loads_json_file in Hpr.
Qed.

Lemma keys_app (a b : mapping) : keys (a ++ b) = keys a ++ keys b.
Proof. apply fmap_app. Qed.


(** C19: A strict report that exits with 0 is earned: every file of the run is an artifact of the schema
    that ran in order, names the run and the profile's environment, and describes the repository as it is,
    clean and at a known commit; and every control that applies to the profile has, among them, an
    artifact with the result PASS of the test that verifies it. *)
Theorem strict_report_is_earned digest r catalog name files profile report :
  profile ∈ PROFILES ->
  generate_report catalog (Some (name, files)) (current_provenance digest r) true profile = Ok (report, 0) ->
  invalid_artifacts report = [] /\
  Forall (fun file => exists p, rbind file.2 loads = Ok (VDict p) /\ acceptable p /\ bound digest r name profile p) files /\
  (files <> [] -> git_sha r <> "unknown" /\ git_dirty r = false) /\
  Forall (fun c => applies_to_profile c profile = Ok true -> proven digest r name files profile c) catalog.
Proof.
  intros Hp H. apply passing_report in H as (controls & evidence & rows & Hc & Hl & Hi & Hrows & Hpass & Hinv).
  destruct (passing_files _ _ _ _ _ _ Hp Hl Hi) as (Hev & Hfiles & Hclean). do 3 (split; [done|]).
  apply Forall_forall. intros c Hin Happ. pose proof (filterR_elem _ _ _ _ Hc Hin Happ) as Hin'.
  apply mapR_Forall2 in Hrows. destruct (Forall2_elem_l _ _ _ _ Hrows Hin') as (row & Hrin & Hrow).
  rewrite Forall_forall in Hpass. specialize (Hpass row Hrin).
  unfold report_row in Hrow. apply rbind_Ok in Hrow as ([status artifact] & Hs & Hrow). ok_inv. subst row. cbn [row_status] in Hpass. subst status.
  apply status_pass in Hs as (vb & suffix & id & p & Hv & Hsu & Hid & Hpin & Hres & Hpid & Hn).
  2:{ eapply Forall_impl; [exact Hev|]. by intros ? [? _]. }
  rewrite Forall_forall in Hev. destruct (Hev p Hpin) as (Hacc & Hfrom & Hb). exists vb, suffix, id, p. repeat (split; [by auto|]). done.
Qed.

Lemma strict_report_is_earned_witness :
  git_sha sample_repository <> "unknown" /\ Forall (proven sample_digest sample_repository "r1" sample_files "path-b") [sample_drop; sample_ids].
Proof.
  assert ("path-b" ∈ PROFILES) as Hp by (right; left).
  pose proof (strict_report_is_earned _ _ _ _ _ _ _ Hp sample_report_ok) as (_ & _ & Hclean & Hall). split.
  - apply Hclean. discriminate.
  - rewrite Forall_forall in Hall |- *. intros c Hc. apply Hall; [done|].
    apply elem_of_cons in Hc as [->|Hc]; [reflexivity|]. apply elem_of_cons in Hc as [->|Hc]; [reflexivity|]. by apply elem_of_nil in Hc.
Defined.

(** C20: A PASS does not outlive the source it was recorded for.  If a file recorded in one state of the
    repository is in a run whose strict report exits with 0 in another, the two states have the same
    commit and tracked files, catalog and topology with the same contents, and the first was clean; or
    the digest has two inputs with one value. *)
Theorem recorded_pass_binds_the_tree digest r1 r2 a now provenance f bytes catalog name files profile report :
  current_provenance digest r1 = Ok provenance -> record_evidence a provenance now = Ok (f, bytes) ->
  (forall payload, recorded_payload a provenance now = Ok payload -> printable (VDict payload) = true) ->
  (f, read_text bytes) ∈ files -> profile ∈ PROFILES ->
  generate_report catalog (Some (name, files)) (current_provenance digest r2) true profile = Ok (report, 0) ->
  (git_sha r1 = git_sha r2 /\ git_dirty r1 = false /\ tracked_files r1 = tracked_files r2 /\
   control_catalog r1 = control_catalog r2 /\ topology r1 = topology r2) \/ exists x y, x <> y /\ digest x = digest y.
Proof.
  intros Hc Hr Hpr Hin Hp H. apply recorded_file_loads in Hr as (payload & Hpay & Hload). specialize (Hpr _ Hpay). specialize (Hload Hpr).
  apply passing_report in H as (controls & evidence & rows & _ & Hl & Hi & _).
  destruct (passing_files _ _ _ _ _ _ Hp Hl Hi) as (_ & Hfiles & Hclean). rewrite Forall_forall in Hfiles.
  destruct (Hfiles _ Hin) as (p & Hpl & _ & _ & (Hsha & Hdirty & (tree & Ht & Htree) & Hcat & Htop & _) & _).
  destruct Hclean as [_ Hcl]; [by intros ->; apply elem_of_nil in Hin|].
  cbn [snd] in Hpl. rewrite Hload in Hpl. injection Hpl as <-. apply printable_keys in Hpr.
  rewrite !get_arranged in * by done. apply recorded_fields in Hpay as [observed ->].
  unfold current_provenance in Hc. apply rbind_Ok in Hc as (tree1 & Ht1 & [= <-]). cbn in Hsha, Hdirty, Htree, Hcat, Htop.
  injection Hsha as Hsha. injection Htree as <-. injection Hcat as Hcat. injection Htop as Htop. rewrite Hcl in Hdirty.
  unfold source_tree_hash in Ht, Ht1. apply rbind_Ok in Ht as (s2 & Hs2 & [= Hd2]). apply rbind_Ok in Ht1 as (s1 & Hs1 & [= Hd1]).
  assert (git_dirty r1 = false) as Hcl1 by (by destruct (git_dirty r1)).
  destruct (decide (s1 = s2)) as [->|Hn]; [|right; exists s1, s2; by rewrite Hd1, Hd2].
  destruct (decide (control_catalog r1 = control_catalog r2)) as [Ec|Hn]; [|right; eauto].
  destruct (decide (topology r1 = topology r2)) as [Et|Hn]; [|right; eauto].
  left. repeat split; auto. by eapply tree_stream_inj.
Qed.

Lemma recorded_pass_binds_the_tree_witness :
  (git_sha sample_repository = "abc123" /\ git_dirty sample_repository = false) \/ exists x y, x <> y /\ sample_digest x = sample_digest y.
Proof.
  assert ((sample_written.1, read_text sample_written.2) ∈ sample_files) as Hin by (rewrite sample_first; left).
  destruct (recorded_pass_binds_the_tree sample_digest sample_repository sample_repository _ _ _ _ _ _ _ _ _ _
    sample_provenance_ok sample_recorded sample_printable Hin ltac:(right; left) sample_report_ok)
    as [(_ & Hd & _)|H]; [left|right; exact H]. by split.
Defined.

(** * Recorded runs *)
Lemma parse_isoformat t : in_range t = true -> _parse_timestamp (VStr (isoformat_auto t)) = Some t.
Proof.
  intros Ht. unfold _parse_timestamp. rewrite isoformat_auto_parse by done. rewrite Z.sub_0_r.
  destruct (String.eqb_spec (isoformat_auto t) "") as [E|]; [|done]. apply isoformat_auto_parse in Ht. by rewrite E in Ht.
Qed.

Section recorded.
Variable digest : list Z -> string.
Variable r : Repository.
Variable provenance : mapping.
Hypothesis Hprovenance : current_provenance digest r = Ok provenance.

(** A test of the control passed for the profile, in the run and the environment, and ended at [now]. *)
Definition proves_control (profile environment name : string) (c : mapping) (a : RecordArguments * Z) : Prop :=
  outcome a.1 = "PASS" /\ run_identifier a.1 = name /\ lab_environment a.1 = environment /\
  (exists s, _parse_timestamp (VStr (started_at a.1)) = Some s /\ s <= a.2) /\ in_range a.2 = true /\
  item "id" c = Ok (VStr (control a.1)) /\
  (exists verified_by suffix, verifier_for c profile = Ok (VStr verified_by) /\ verified_test_suffix verified_by = Ok suffix /\
     ends_with suffix (test_id a.1) || String.eqb (test_id a.1) verified_by = true) /\
  is_ok (rbind (item "framework" c) framework_text) = true /\ is_ok (item "severity" c) = true.

(** The file of the run that was recorded for it. *)
Definition recorded_in (a : RecordArguments * Z) (file : string * result string) : Prop :=
  exists payload, recorded_payload a.1 provenance a.2 = Ok payload /\ printable (VDict payload) = true /\
  file = (artifact_name (test_id a.1), read_text (json_file (VDict payload))).

(** The artifact that is read of it. *)
Definition artifact_of (a : RecordArguments * Z) (p : mapping) : Prop :=
  get "control_id" p = VStr (control a.1) /\ get "test_id" p = VStr (test_id a.1) /\ get "result" p = VStr (outcome a.1) /\
  get "run_id" p = VStr (run_identifier a.1) /\ get "environment" p = VStr (lab_environment a.1) /\
  Forall (fun kv => get kv.1 p = kv.2) provenance.

Lemma recorded_artifact a file : recorded_in a file -> outcome a.1 ∈ VALID_RESULTS ->
  (exists s, _parse_timestamp (VStr (started_at a.1)) = Some s /\ s <= a.2) -> in_range a.2 = true ->
  exists p, rbind file.2 loads = Ok (VDict p) /\ acceptable p /\ artifact_of a p.
Proof.
  intros (payload & Hpay & Hpr & ->) Ho (s & Hs & Hle) Hr. cbn [snd]. pose proof (loads_json_file _ Hpr) as Hload.
  exists (sort_by key_leb (map (fun kv => (kv.1, arranged true kv.2)) payload)). split; [exact Hload|]. clear Hload.
  pose proof (printable_keys _ Hpr) as Hnd. clear Hpr. apply recorded_fields in Hpay as [observed Hpay].
  pose proof Hprovenance as Hc. unfold current_provenance in Hc. apply rbind_Ok in Hc as (tree & _ & Hc). injection Hc as Hc. symmetry in Hc.
  unfold acceptable, artifact_of, _validate_timestamps. rewrite !get_arranged by done. split.
  - split; [|split; [by rewrite Hpay, Hc|split; [exists (outcome a.1); split; [done|by rewrite Hpay, Hc]|]]].
    + intros k Hk. apply keys_arranged. revert k Hk. apply keys_minus_nil. by rewrite Hpay, Hc.
    + assert (get "started_at" payload = VStr (started_at a.1)) as -> by (by rewrite Hpay, Hc).
      assert (get "ended_at" payload = VStr (isoformat_auto a.2)) as -> by (by rewrite Hpay, Hc). cbn [arranged]. rewrite Hs.
      rewrite parse_isoformat by done. by rewrite (proj2 (Z.ltb_ge _ _) Hle).
  - do 5 (split; [by rewrite Hpay, Hc|]). rewrite Hc at 1.
    repeat (apply Forall_cons_2; [cbn [fst snd]; rewrite get_arranged by done; by rewrite Hpay, Hc|]). constructor.
Qed.

Lemma reads_all files ps evidence errors : Forall2 (fun file p => rbind file.2 loads = Ok (VDict p) /\ acceptable p) files ps ->
  foldR read_artifact (evidence, errors) files = Ok (evidence ++ ps, errors).
Proof.
  intros H. revert evidence. induction H as [|file p files ps [Hl Ha] _ IH]; intros evidence; [by rewrite app_nil_r|].
  cbn [foldR]. unfold read_artifact at 1. rewrite Hl. apply (artifact_error_None file.1) in Ha. rewrite Ha. cbn [rbind].
  rewrite IH, <- app_assoc. done.
Qed.

Lemma see_fresh evidence seen errors : NoDup (seen ++ map evidence_key evidence) -> (fold_left see_key evidence (seen, errors)).2 = errors.
Proof.
  revert seen. induction evidence as [|p evidence IH]; intros seen H; [done|]. cbn [fold_left map] in *.
  unfold see_key at 2. cbn [fst snd]. rewrite bool_decide_false.
  - apply IH. by rewrite <- app_assoc.
  - intros Hin. apply NoDup_app in H as (_ & H & _). apply (H _ Hin). by left.
Qed.

(** A run of recorded files with a key each is loaded whole. *)
Lemma recorded_run_loads run files : Forall2 recorded_in run files -> NoDup (map (fun a => (control a.1, test_id a.1)) run) ->
  Forall (fun a => outcome a.1 ∈ VALID_RESULTS /\ (exists s, _parse_timestamp (VStr (started_at a.1)) = Some s /\ s <= a.2) /\ in_range a.2 = true) run ->
  exists run' evidence, run ≡ₚ run' /\ Forall2 artifact_of run' evidence /\ load_evidence files = Ok (evidence, []).
Proof.
  intros Hr Hk Hok. apply Forall2_flip in Hr.
  destruct (Permutation_Forall2 (Permutation_sym (sort_by_perm key_leb files)) Hr) as (run' & Hperm & Hr').
  assert (exists evidence, Forall2 (fun file p => rbind file.2 loads = Ok (VDict p) /\ acceptable p) (sort_by key_leb files) evidence /\ Forall2 artifact_of run' evidence)
    as (evidence & Hf & Ha).
  { rewrite Hperm in Hok. clear -Hr' Hok Hprovenance. induction Hr' as [|file a files' run' Hfa _ IH]; [by exists []|].
    apply Forall_cons in Hok as [(Ho & Hs & Hi) Hok]. destruct (IH Hok) as (evidence & H1 & H2).
    destruct (recorded_artifact _ _ Hfa Ho Hs Hi) as (p & Hp & Hacc & Hart). exists (p :: evidence). split; constructor; auto. }
  exists run', evidence. split; [done|]. split; [done|]. unfold load_evidence. rewrite (reads_all _ _ _ _ Hf). cbn [rbind app].
  rewrite see_fresh; [done|]. cbn [app]. assert (map evidence_key evidence = map (fun a => (control a.1, test_id a.1)) run') as ->.
  { clear -Ha. induction Ha as [|a p run' evidence (H1 & H2 & _) _ IH]; [done|]. cbn [map]. f_equal; [|exact IH]. unfold evidence_key. by rewrite H1, H2. }
  by rewrite <- Hperm.
Qed.

(** Artifacts of one environment, recorded in a clean state, have no provenance errors. *)
Lemma recorded_run_valid run evidence name environment profile : Forall2 artifact_of run evidence ->
  Forall (fun a => run_identifier a.1 = name /\ lab_environment a.1 = environment) run -> profile ∈ PROFILES -> environment ∈ environments profile ->
  git_sha r <> "unknown" -> git_dirty r = false ->
  validate_provenance evidence name (current_provenance digest r) true profile = Ok [].
Proof.
  intros Ha Hall Hp He Hsha Hd. unfold validate_provenance. rewrite Hprovenance. destruct evidence as [|baseline evidence]; [done|]. cbn [rbind].
  set (fields := provenance ++ [("environment", VStr environment)]).
  assert (keys fields = PROVENANCE_FIELDS) as Hkeys by (unfold fields; rewrite keys_app; by rewrite (provenance_keys _ _ _ Hprovenance)).
  assert (Forall (fun kv => py_eq kv.2 kv.2 = true) fields) as Hrefl.
  { pose proof Hprovenance as Hc. unfold current_provenance in Hc. apply rbind_Ok in Hc as (tree & _ & Hc). injection Hc as Hc.
    unfold fields. rewrite <- Hc. cbn [app]. repeat (apply Forall_cons_2; [try (by apply py_eq_text); by destruct (git_dirty r)|]). constructor. }
  assert (Forall (fun p => get "run_id" p = VStr name /\ Forall (fun kv => get kv.1 p = kv.2) fields) (baseline :: evidence)) as Hb.
  { clear -Ha Hall. induction Ha as [|a p as_ ps H _ IH]; [done|]. apply Forall_cons in Hall as [[Hn He] Hall].
    destruct H as (_ & _ & _ & H1 & H2 & H3). constructor; [|by apply IH]. rewrite H1, Hn. split; [done|].
    apply Forall_app. split; [done|]. apply Forall_singleton. cbn. by rewrite H2, He. }
  assert (forall p, p ∈ baseline :: evidence -> artifact_provenance_errors name baseline provenance p = []) as Herr.
  { intros p Hin. rewrite Forall_forall in Hb. destruct (Hb p Hin) as [Hn Hf]. destruct (Hb baseline ltac:(left)) as [_ Hf'].
    apply provenance_errors_nil. rewrite Forall_forall in Hf, Hf', Hrefl. split; [done|]. rewrite <- Hkeys. split.
    - apply Forall_forall. intros k (kv & -> & Hk)%list_elem_of_fmap. rewrite (Hf kv Hk), (Hf' kv Hk). by apply Hrefl.
    - apply Forall_forall. intros kv Hk. assert (kv ∈ fields) as Hk' by (unfold fields; set_solver). rewrite (Hf kv Hk'). by apply Hrefl. }
  rewrite (proj2 (concat_map_nil _ (baseline :: evidence))) by (by apply Forall_forall).
  apply Forall_inv in Hb as [_ Hf]. assert (get "environment" baseline = VStr environment) as ->.
  { unfold fields in Hf. apply Forall_app in Hf as [_ Hf]. by apply Forall_inv in Hf. }
  assert (environment_errors profile (VStr environment) = Ok []) as ->.
  { clear -Hp He. repeat (apply elem_of_cons in Hp as [->|Hp]); [| |by apply elem_of_nil in Hp]; cbn in He;
      repeat (apply elem_of_cons in He as [->|He]; [done|]); by apply elem_of_nil in He. }
  cbn [rbind app]. unfold strict_errors.
  assert (get "git_sha" baseline = VStr (git_sha r) /\ get "git_dirty" baseline = VBool false) as [-> ->].
  { pose proof Hprovenance as Hc. unfold current_provenance in Hc. apply rbind_Ok in Hc as (tree & _ & Hc). injection Hc as Hc.
    unfold fields in Hf. rewrite <- Hc, Hd in Hf. split; [by apply Forall_inv in Hf|]. by apply Forall_inv_tail, Forall_inv in Hf. }
  cbn. by rewrite (proj2 (String.eqb_neq _ _) Hsha).
Qed.

(** Among passing artifacts the last match of a control passes. *)
Lemma keep_passing id suffix verified_by evidence found :
  Forall (fun p => get "result" p = VStr "PASS" /\ exists t, get "test_id" p = VStr t) evidence ->
  (forall p, found = Some p -> get "result" p = VStr "PASS") ->
  exists found', foldR (keep_match id suffix verified_by) found evidence = Ok found' /\ (forall p, found' = Some p -> get "result" p = VStr "PASS") /\
    (found' = None -> found = None /\ Forall (fun p => proves id suffix verified_by p = Ok false) evidence).
Proof.
  intros H. revert found. induction H as [|p evidence [Hres (t & Ht)] _ IH]; intros found Hf; [by exists found|]. cbn [foldR].
  assert (exists m, proves id suffix verified_by p = Ok m) as [m Hm].
  { unfold proves. rewrite Ht. cbn. destruct (py_eq _ _); eauto. }
  assert (keep_match id suffix verified_by found p = Ok (if m then Some p else found)) as -> by (unfold keep_match; by rewrite Hm). cbn [rbind].
  destruct (IH (if m then Some p else found)) as (found' & H1 & H2 & H3); [by destruct m; [intros ? [= <-]|]|].
  exists found'. split; [exact H1|]. split; [done|]. intros E. destruct (H3 E) as [H4 H5]. destruct m; [done|]. by repeat constructor.
Qed.

Lemma recorded_row run evidence profile environment name c a : Forall2 artifact_of run evidence -> Forall (fun a => outcome a.1 = "PASS") run ->
  a ∈ run -> proves_control profile environment name c a ->
  exists row, report_row evidence profile c = Ok row /\ row_status row = "PASS".
Proof.
  intros Ha Ho Hin (_ & _ & _ & _ & _ & Hid & (vb & suffix & Hv & Hsu & Hn) & Hfw & Hsev).
  assert (Forall (fun p => get "result" p = VStr "PASS" /\ exists t, get "test_id" p = VStr t) evidence) as Hpass.
  { clear -Ha Ho. induction Ha as [|b p bs ps (_ & H2 & H3 & _) _ IH]; [done|]. apply Forall_cons in Ho as [Hb Ho]. constructor; [|auto]. rewrite H3, Hb. eauto. }
  destruct (Forall2_elem_l _ _ _ _ Ha Hin) as (p & Hp & (Hc & Ht & _)).
  destruct (keep_passing (VStr (control a.1)) suffix vb evidence None Hpass) as (found & Hf & Hres & Hnone); [done|].
  apply is_ok_true in Hfw as [fw Hfw]. apply is_ok_true in Hsev as [sev Hsev].
  destruct found as [q|].
  - unfold report_row, status_for. rewrite Hv, Hid. cbn [rbind text_of_verifier]. rewrite Hsu. cbn [rbind].
    destruct evidence as [|e evidence]; [done|]. cbn [length Nat.eqb rbind].
    match goal with |- context [foldR ?f ?x ?l] => replace (foldR f x l) with (Ok (Some q)) by (symmetry; exact Hf) end. cbn [rbind]. rewrite (Hres q eq_refl), Hfw. cbn [rbind]. rewrite Hsev.
    eexists. split; [reflexivity|]. done.
  - destruct (Hnone eq_refl) as [_ Hno]. rewrite Forall_forall in Hno. specialize (Hno p Hp). unfold proves in Hno.
    rewrite Hc, Ht in Hno. cbn in Hno. rewrite String.eqb_refl in Hno. congruence.
Qed.
End recorded.

Lemma mapR_exists {A B} (f : A -> result B) (P : B -> Prop) l : Forall (fun x => exists y, f x = Ok y /\ P y) l -> exists r, mapR f l = Ok r /\ Forall P r.
Proof.
  induction 1 as [|x l (y & Hy & HP) _ (r & Hr & HPr)]; [by exists []|]. exists (y :: r). cbn. rewrite Hy, Hr. by repeat constructor.
Qed.

Lemma count_all status rows : Forall (fun row => row_status row = status) rows -> count_status status rows = Z.of_nat (length rows).
Proof.
  intros H. unfold count_status. f_equal. induction H as [|row rows Hr _ IH]; [done|]. cbn. by rewrite Hr, String.eqb_refl; cbn; f_equal.
Qed.

Lemma count_none status other rows : Forall (fun row => row_status row = status) rows -> status <> other -> count_status other rows = 0.
Proof.
  intros H Hn. unfold count_status. induction H as [|row rows Hr _ IH]; [done|]. cbn. by rewrite Hr, (proj2 (String.eqb_neq _ _) Hn).
Qed.

(** C21: A run that is recorded passes.  In a clean repository at a known commit, if every control of the
    profile has a passing test of its own, recorded in the run and the profile's environment with a start
    before its end, and no two tests share a key, then the strict report of the recorded files exits with
    0: recording, the printed file, its parser and the checks of the report agree. *)
Theorem recorded_run_passes digest r provenance catalog controls profile environment name run files :
  current_provenance digest r = Ok provenance -> git_sha r <> "unknown" -> git_dirty r = false ->
  profile ∈ PROFILES -> environment ∈ environments profile ->
  filterR (fun c => applies_to_profile c profile) catalog = Ok controls -> Forall (fun c => exists id, item "id" c = Ok (VStr id)) catalog ->
  Forall2 (proves_control profile environment name) controls run -> NoDup (map (fun a => (control a.1, test_id a.1)) run) ->
  Forall2 (recorded_in provenance) run files ->
  exists report, generate_report catalog (Some (name, files)) (current_provenance digest r) true profile = Ok (report, 0).
Proof.
  intros Hprov Hsha Hd Hp He Hc Hids Hrun Hk Hfiles.
  assert (Forall (fun a => outcome a.1 = "PASS" /\ run_identifier a.1 = name /\ lab_environment a.1 = environment /\
    (exists s, _parse_timestamp (VStr (started_at a.1)) = Some s /\ s <= a.2) /\ in_range a.2 = true) run) as Hall.
  { clear -Hrun. induction Hrun as [|c a cs run (?&?&?&?&?&_) _ IH]; [done|]. constructor; tauto. }
  destruct (recorded_run_loads digest r provenance Hprov run files Hfiles Hk) as (run' & evidence & Hperm & Hart & Hl).
  { eapply Forall_impl; [exact Hall|]. intros a (Ho & _ & _ & Hs & Hi). split; [rewrite Ho; by left|done]. }
  rewrite Hperm in Hall.
  assert (Forall (fun a => run_identifier a.1 = name /\ lab_environment a.1 = environment) run') as Hnames.
  { eapply Forall_impl; [exact Hall|]. intros a Ha. cbv beta in Ha. tauto. }
  pose proof (recorded_run_valid digest r provenance Hprov run' evidence name environment profile Hart Hnames Hp He Hsha Hd) as Hv.
  destruct (mapR_exists (report_row evidence profile) (fun row => row_status row = "PASS") controls) as (rows & Hrows & Hpass).
  { apply Forall_forall. intros c Hin. destruct (Forall2_elem_l _ _ _ _ Hrun Hin) as (a & Hain & Hpc). rewrite Hperm in Hain.
    eapply recorded_row; [exact Hart| |exact Hain|exact Hpc]. eapply Forall_impl; [exact Hall|]. intros x Hx. cbv beta in Hx. tauto. }
  destruct (mapR_exists (item "id") (fun v => exists id, v = VStr id) (List.filter (fun c => negb (existsb (same_control c) controls)) catalog)) as (ids & Hids' & Htext).
  { apply Forall_forall. intros c Hin. rewrite list_elem_of_In in Hin. apply filter_In in Hin as [Hin _]. rewrite <- list_elem_of_In in Hin.
    rewrite Forall_forall in Hids. destruct (Hids c Hin) as [id Hid]. eauto. }
  assert (exists t, framework_text (VList ids) = Ok t) as [t Ht].
  { unfold framework_text. destruct (mapR_exists (fun x => match x with VStr s => Ok s | _ => Err (TypeError "sequence item: expected str instance") end) (fun _ => True) ids)
      as (texts & -> & _); [|by eexists]. eapply Forall_impl; [exact Htext|]. intros x [id ->]. eauto. }
  unfold generate_report. rewrite Hc. cbn [rbind]. rewrite Hids'. cbn [rbind snd fst]. rewrite Hl. cbn [rbind]. rewrite Hv. cbn [rbind]. rewrite Hrows. cbn [rbind]. rewrite Ht.
  eexists. cbn -[Z.eqb]. pose proof (mapR_length _ _ _ Hrows) as Hlen.
  rewrite (count_all _ _ Hpass), !(count_none _ _ _ Hpass) by done. rewrite Hlen, Z.eqb_refl. reflexivity.
Qed.

Lemma recorded_run_passes_witness :
  exists report, generate_report [sample_drop; sample_ids] (Some ("r1", sample_files)) (current_provenance sample_digest sample_repository) true "path-b" = Ok (report, 0).
Proof.
  apply (recorded_run_passes sample_digest sample_repository sample_provenance _ [sample_drop; sample_ids] "path-b" "path-b" "r1" sample_run).
  - exact sample_provenance_ok.
  - discriminate.
  - reflexivity.
  - right; left.
  - left.
  - reflexivity.
  - repeat (apply Forall_cons_2; [by eexists|]). constructor.
  - (constructor; [|constructor; [|constructor]]);
      (do 3 (split; [reflexivity|]); split; [exists 1735689600000000; split; [vm_compute; reflexivity|done]|]; split; [reflexivity|]; split; [reflexivity|];
       split; [do 2 eexists; split; [reflexivity|]; split; [reflexivity|vm_compute; reflexivity]|split; reflexivity]).
  - cbn. by apply (bool_decide_unpack _).
  - (constructor; [|constructor; [|constructor]]); (eexists; split; [vm_compute; reflexivity|]; split; [vm_compute; reflexivity|vm_compute; reflexivity]).
Defined.

(** The last match is the one of the last file name: a failure that was recorded later, under a name that
    sorts first, does not show. *)
Definition sample_failure : list (string * result string) :=
  Eval vm_compute in
    let a := {| test_id := "a/audit.py::drop"; control := "CTL-1"; outcome := "FAIL"; assertion := "ok"; enforcement_node := VNone; counter_before := VNone;
                counter_after := VNone; started_at := "2025-01-02T00:00:00Z"; observed_items := []; run_identifier := "r1"; lab_environment := "path-b" |} in
    let f := the ("", []) (record_evidence a sample_provenance (sample_now + US_PER_DAY)) in [(f.1, read_text f.2)].

Example earlier_name_hides_failure :
  generate_report [sample_drop; sample_ids] (Some ("r1", sample_failure ++ sample_files)) (current_provenance sample_digest sample_repository) true "path-b"
  = Ok (sample_report, 0).
Proof. vm_compute. reflexivity. Qed.

(** Moving bytes from a test's content to its name keeps the digest of the tests, not that of the tree. *)
Example suite_stream_is_ambiguous : suite_stream [([1], [2; 3])] = suite_stream [([1; 2], [3])].
Proof. reflexivity. Qed.

(** * Wiring *)
Section wired.
Variable candidates : string -> list string.
Variable functions : string -> list string.

(** The proof names a function of the one file it resolves to. *)
Definition executable (t : string) : Prop :=
  exists filename function path, split_colons t = Some (filename, function) /\ candidates filename = [path] /\ function ∈ functions path.

Lemma problems_problem text w : problems (problem text w) <> [].
Proof. cbn. by destruct (problems w). Qed.

Lemma assignee_None profile t w : assignee profile t w = None -> (profile, t) ∉ map fst (assigned w).
Proof.
  unfold assignee. destruct (find _ _) as [e|] eqn:E; [done|]. intros _ Hin. apply list_elem_of_fmap in Hin as ([[p q] i] & [= <- <-] & Hin).
  apply (find_none _ _ E) in Hin || (rewrite list_elem_of_In, in_rev in Hin; apply (find_none _ _ E) in Hin).
  cbn in Hin. by rewrite !String.eqb_refl in Hin.
Qed.

Lemma check_proof_clean id profile t w : problems (check_proof candidates functions id profile t w) = [] ->
  problems w = [] /\ (profile, t) ∉ map fst (assigned w) /\ executable t /\
  assigned (check_proof candidates functions id profile t w) = assigned w ++ [(profile, t, id)].
Proof.
  unfold check_proof. destruct (assignee profile t w) as [other|] eqn:Ea.
  { intros H. exfalso. revert H. destruct (resolve candidates t) as [[[path|] function] [error|]];
      try destruct (str_in _ _); intros H; try (by apply problems_problem in H); by apply (problems_problem _ w) in H. }
  apply assignee_None in Ea. unfold resolve. destruct (split_colons t) as [[filename function]|] eqn:Es; [|by intros H%problems_problem].
  destruct (candidates filename) as [|path [|? ?]] eqn:Ec; try (by intros H%problems_problem).
  destruct (str_in function (functions path)) eqn:Ef; [|by intros H%problems_problem]. intros H. cbn in H.
  repeat split; auto. exists filename, function, path. by rewrite <- str_in_elem.
Qed.

(** What a field without problems says: no proof outside the scope, one executable and fresh proof within. *)
Lemma check_field_clean control id scoped w profile field w' :
  check_field candidates functions control id scoped w (profile, field) = Ok w' -> problems w' = [] -> problems w = [] /\
  if existsb (fun v => py_eq v (VStr profile)) scoped
  then exists t, get field control = VStr t /\ executable t /\ (profile, t) ∉ map fst (assigned w) /\ assigned w' = assigned w ++ [(profile, t, id)]
  else truthy (get field control) = false /\ assigned w' = assigned w.
Proof.
  unfold check_field. destruct (existsb _ scoped); cbn [negb].
  - destruct (truthy (get field control)); cbn [negb].
    + destruct (get field control) as [| | |t| |]; try discriminate. intros [= <-] H%check_proof_clean. destruct H as (H1 & H2 & H3 & H4). eauto 6.
    + by intros [= <-] H%problems_problem.
  - destruct (truthy (get field control)); intros [= <-]; [by intros H%problems_problem|done].
Qed.

(** The verifiers of a control, one for each profile it applies to. *)
Definition verifier (c : mapping) (profile : string) : list (string * val) :=
  match applies_to_profile c profile, verifier_for c profile with
  | Ok true, Ok v => [(profile, v)]
  | _, _ => []
  end.
Definition verifiers (c : mapping) : list (string * val) := concat (map (verifier c) PROFILES).

(** For each profile the control applies to a proof that can be run, and none for the others. *)
Definition wired (c : mapping) : Prop :=
  forall profile field, (profile, field) ∈ PROOF_FIELDS ->
  exists b, applies_to_profile c profile = Ok b /\
    if b : bool then exists t, verifier_for c profile = Ok (VStr t) /\ executable t else truthy (get field c) = false.

Definition assignments (w : Wiring) : list (string * val) := map (fun e => (e.1.1, VStr e.1.2)) (assigned w).

Lemma item_of_get field c t : get field c = VStr t -> item field c = Ok (VStr t).
Proof. unfold get, item. destruct (assoc field c); cbn; [by intros ->|done]. Qed.

Lemma field_clean c id scoped w w' profile field : verifier_for c profile = item field c ->
  applies_to_profile c profile = Ok (existsb (fun v => py_eq v (VStr profile)) scoped) ->
  check_field candidates functions c id scoped w (profile, field) = Ok w' -> problems w' = [] ->
  problems w = [] /\
  (exists b, applies_to_profile c profile = Ok b /\
     if b : bool then exists t, verifier_for c profile = Ok (VStr t) /\ executable t else truthy (get field c) = false) /\
  assignments w' = assignments w ++ verifier c profile /\ (NoDup (map fst (assigned w)) -> NoDup (map fst (assigned w'))).
Proof.
  intros Hv Happ H Hclean. apply check_field_clean in H as [Hp H]; [|done]. split; [done|]. unfold verifier, assignments. rewrite Happ.
  destruct (existsb _ scoped).
  - destruct H as (t & Ht & He & Hfresh & ->). apply item_of_get in Ht. rewrite Hv, Ht, !map_app. cbn [map fst snd]. split; [by exists true; eauto|]. split; [done|].
    intros Hnd. apply NoDup_app. split; [done|]. split; [|apply NoDup_singleton]. by intros x Hx ->%list_elem_of_singleton.
  - destruct H as [Ht ->]. rewrite app_nil_r. split; [by exists false|done].
Qed.

Lemma check_control_clean w c w' : check_control candidates functions w c = Ok w' -> problems w' = [] ->
  problems w = [] /\ wired c /\ assignments w' = assignments w ++ verifiers c /\ (NoDup (map fst (assigned w)) -> NoDup (map fst (assigned w'))).
Proof.
  unfold check_control. intros H Hclean. apply rbind_Ok in H as (scoped & Hs & H). apply rbind_Ok in H as (id & _ & H).
  assert (scoped <> [] -> forall profile, applies_to_profile c profile = Ok (existsb (fun v => py_eq v (VStr profile)) scoped)) as Happ.
  { intros Hn profile. unfold applies_to_profile. destruct (declared_profiles c) as [| | | |[|p l]|]; try (by injection Hs as <-).
    apply rbind_Ok in Hs as (known & Hk & [= <-]). rewrite Hk. cbn [rbind]. by destruct known. }
  destruct scoped as [|p l]; [injection H as <-; by apply problems_problem in Hclean|]. specialize (Happ ltac:(done)). set (scoped := p :: l) in *.
  cbn [foldR PROOF_FIELDS] in H. apply rbind_Ok in H as (w1 & H1 & H). apply rbind_Ok in H as (w2 & H2 & [= ->]).
  destruct (field_clean c (str_val id) scoped w1 w' "path-b" "verified_by_path_b" eq_refl (Happ _) H2 Hclean) as (Hp1 & Hb & Eb & Nb).
  destruct (field_clean c (str_val id) scoped w w1 "path-a" "verified_by" eq_refl (Happ _) H1 Hp1) as (Hp & Ha & Ea & Na).
  split; [done|]. split; [|split; [|auto]].
  - intros profile field Hin. apply elem_of_cons in Hin as [[= -> ->]|Hin]; [exact Ha|].
    apply elem_of_cons in Hin as [[= -> ->]|Hin]; [exact Hb|]. by apply elem_of_nil in Hin.
  - rewrite Eb, Ea, <- app_assoc. unfold verifiers. cbn [map concat PROFILES]. by rewrite app_nil_r.
Qed.

Lemma check_controls_clean controls w w' : foldR (check_control candidates functions) w controls = Ok w' -> problems w' = [] ->
  problems w = [] /\ Forall wired controls /\ assignments w' = assignments w ++ concat (map verifiers controls) /\
  (NoDup (map fst (assigned w)) -> NoDup (map fst (assigned w'))).
Proof.
  revert w. induction controls as [|c controls IH]; intros w H Hclean; cbn [foldR] in H.
  { injection H as ->. rewrite app_nil_r. auto. }
  apply rbind_Ok in H as (w1 & H1 & H). destruct (IH w1 H Hclean) as (Hp1 & Hw & E & N).
  destruct (check_control_clean _ _ _ H1 Hp1) as (Hp & Hc & E1 & N1). split; [done|]. split; [by constructor|]. split; [|auto].
  rewrite E, E1, <- app_assoc. done.
Qed.
End wired.

Lemma NoDup_texts (l : list (string * string * string)) : NoDup (map fst l) -> NoDup (map (fun e => (e.1.1, VStr e.1.2)) l).
Proof.
  induction l as [|[[p t] i] l IH]; cbn; [intros _; constructor|]. intros [Hn Hnd]%NoDup_cons. apply NoDup_cons. split; [|auto].
  intros ([[q u] j] & [= -> ->] & Hin)%list_elem_of_fmap. apply Hn. apply list_elem_of_fmap. by exists (q, u, j).
Qed.

(** Controls without wiring problems have a proof each.  For every profile a control applies to, the
    verifier that the report looks for is text that names one function of the one file it resolves to;
    a profile that is scoped out has none; and no two controls share a verifier in a profile. *)
Theorem wired_controls_have_one_proof candidates functions controls w :
  check_wiring candidates functions controls = Ok w -> problems w = [] ->
  Forall (wired candidates functions) controls /\ NoDup (concat (map verifiers controls)).
Proof.
  intros H Hclean. destruct (check_controls_clean _ _ _ _ _ H Hclean) as (_ & Hw & E & N). split; [done|].
  assert (concat (map verifiers controls) = assignments w) as -> by exact (Logic.eq_sym E). apply NoDup_texts, N. constructor.
Qed.

Definition sample_candidates (filename : string) : list string := if String.eqb filename "fw.py" then ["tests/fw.py"] else if String.eqb filename "audit.py" then ["scripts/audit.py"] else [].
Definition sample_functions (path : string) : list string := if String.eqb path "tests/fw.py" then ["drop"] else ["drop"; "ids"].

Lemma wired_controls_have_one_proof_witness :
  NoDup (concat (map verifiers [sample_drop; sample_ids])) /\
  is_ok (check_wiring sample_candidates sample_functions [sample_drop; sample_ids]) = true.
Proof.
  split; [|reflexivity]. destruct (check_wiring sample_candidates sample_functions [sample_drop; sample_ids]) as [w|e] eqn:E; [|by vm_compute in E].
  apply (wired_controls_have_one_proof sample_candidates sample_functions _ w E). vm_compute in E. injection E as <-. reflexivity.
Defined.
