(* ===== verification/FabricProps.v ===== *)
(** Theorems about the rendered fabric ([Fabric.v]): every interface of the intent is wired once, what
    arrives on a router's data interfaces stays out of the management subnet, every node is in one group
    of the inventory, and a settings file gives back what was written to it. *)

From S2P Require Import Prelude PyText PyNum PyTime PyJson JsonText Policy Compliance Fabric.

(** * Links *)

(** The interfaces of the nodes: each attachment, numbered from 1. *)
Definition attachments_of (node : val) : list val :=
  match rbind (node_of node) (list_at "attachments") with
  | Ok l => l
  | Err _ => []
  end.
Definition interfaces (nodes : mapping) : list (string * Z) :=
  concat (map (fun entry => from_index (fun i _ => (entry.1, i)) 1 (attachments_of entry.2)) nodes).

Lemma members_add k x (attached : members) l : assoc k attached = Some l ->
  concat (map snd (assoc_set k (l ++ [x]) attached)) ≡ₚ concat (map snd attached) ++ [x] /\ (assoc_set k (l ++ [x]) attached).*1 = attached.*1.
Proof.
  induction attached as [|[k' l'] attached IH]; [done|]. cbn [assoc assoc_set]. destruct (String.eqb_spec k k') as [->|Hn].
  - intros [= ->]. split; [|done]. cbn [map concat snd]. rewrite <- !app_assoc. f_equiv. by rewrite Permutation_app_comm.
  - intros H. destruct (IH H) as [Hp Hk]. split; [cbn [map concat snd]; by rewrite Hp, app_assoc|]. cbn. by f_equal.
Qed.

Lemma add_member_steps node_name attachments attached i r : foldR (add_member node_name) (attached, i) attachments = Ok r ->
  concat (map snd r.1) ≡ₚ concat (map snd attached) ++ from_index (fun i _ => (node_name, i)) i attachments /\ r.1.*1 = attached.*1.
Proof.
  revert attached i. induction attachments as [|a attachments IH]; intros attached i H; cbn [foldR] in H.
  { injection H as <-. cbn. by rewrite app_nil_r. }
  apply rbind_Ok in H as ([attached' j] & Ha & H). unfold add_member in Ha. apply rbind_Ok in Ha as (v & _ & Ha). apply rbind_Ok in Ha as (link & _ & Ha).
  destruct (assoc link attached) as [l|] eqn:E; [|done]. injection Ha as <- <-. destruct (members_add _ (node_name, i) _ _ E) as [Hp Hk].
  apply IH in H as [Hp' Hk']. rewrite Hp', Hp, <- app_assoc. split; [done|]. by rewrite Hk', Hk.
Qed.

Lemma add_members_all nodes attached r : foldR add_members attached nodes = Ok r ->
  concat (map snd r) ≡ₚ concat (map snd attached) ++ interfaces nodes /\ r.*1 = attached.*1.
Proof.
  revert attached. induction nodes as [|entry nodes IH]; intros attached H; cbn [foldR] in H.
  { injection H as <-. cbn. by rewrite app_nil_r. }
  apply rbind_Ok in H as (attached' & Ha & H). unfold add_members in Ha. apply rbind_Ok in Ha as (node & Hn & Ha). apply rbind_Ok in Ha as (l & Hl & Ha).
  apply rbind_Ok in Ha as (s & Hs & [= <-]). apply add_member_steps in Hs as [Hp Hk]. apply IH in H as [Hp' Hk'].
  unfold interfaces. cbn [map concat]. unfold attachments_of. rewrite Hn. cbn [rbind]. rewrite Hl.
  split; [|by rewrite Hk', Hk]. rewrite Hp', Hp, <- app_assoc. done.
Qed.

(** The interfaces of a node, and of all nodes, whose attachment names the link. *)
Definition names_link (k : string) (attachment : val) : bool :=
  match subscript "link" attachment with
  | Ok (VStr s) => String.eqb s k
  | _ => false
  end.
Fixpoint linked (k node : string) (i : Z) (attachments : list val) : list (string * Z) :=
  match attachments with
  | [] => []
  | a :: r => (if names_link k a then [(node, i)] else []) ++ linked k node (i + 1) r
  end.
Definition on_link (k : string) (nodes : mapping) : list (string * Z) :=
  concat (map (fun entry => linked k entry.1 1 (attachments_of entry.2)) nodes).

Lemma add_member_linked k node_name attachments attached i r l : foldR (add_member node_name) (attached, i) attachments = Ok r ->
  assoc k attached = Some l -> assoc k r.1 = Some (l ++ linked k node_name i attachments).
Proof.
  revert attached i l. induction attachments as [|a attachments IH]; intros attached i l H Hl; cbn [foldR] in H.
  { injection H as <-. cbn. by rewrite app_nil_r. }
  apply rbind_Ok in H as ([attached' j] & Ha & H). unfold add_member in Ha. apply rbind_Ok in Ha as (v & Hv & Ha). apply rbind_Ok in Ha as (link & Hk & Ha).
  destruct (assoc link attached) as [m|] eqn:E; [|done]. injection Ha as <- <-. destruct v as [| | |s| |]; try discriminate. injection Hk as ->.
  cbn [linked]. unfold names_link. rewrite Hv. destruct (String.eqb_spec link k) as [->|Hn].
  - rewrite Hl in E. injection E as <-. erewrite IH; [|exact H|apply assoc_set_eq]. by rewrite <- app_assoc.
  - erewrite IH; [|exact H|rewrite assoc_set_ne by congruence; exact Hl]. done.
Qed.

Lemma add_members_linked k nodes attached r l : foldR add_members attached nodes = Ok r -> assoc k attached = Some l ->
  assoc k r = Some (l ++ on_link k nodes).
Proof.
  revert attached l. induction nodes as [|entry nodes IH]; intros attached l H Hl; cbn [foldR] in H.
  { injection H as <-. cbn. by rewrite app_nil_r. }
  apply rbind_Ok in H as (attached' & Ha & H). unfold add_members in Ha. apply rbind_Ok in Ha as (node & Hn & Ha). apply rbind_Ok in Ha as (al & Hal & Ha).
  apply rbind_Ok in Ha as (s & Hs & [= <-]). apply (add_member_linked k _ _ _ _ _ _ Hs) in Hl. rewrite (IH _ _ H Hl), <- app_assoc.
  unfold on_link. cbn [map concat]. unfold attachments_of at 2. rewrite Hn. cbn [rbind]. by rewrite Hal.
Qed.

(** The bridge a link that is not point-to-point goes through: the one it names, in the access switch when
    it is a broadcast domain of the users. *)
Definition bridge_named (link : mapping) (bridge : string) : Prop :=
  exists v, assoc "bridge" link = Some v /\
    (get "kind" link = VStr "lan" -> bridge = str_val v +:+ "|access-switch") /\ (get "kind" link <> VStr "lan" -> bridge = str_val v).

(** The rendered links of one link of the intent, by its kind: the two interfaces of a point-to-point link
    joined with each other; each interface of another link joined with a port of the link's bridge, the
    ports named for the link and numbered without repetition. *)
Inductive wires (name : string) (link : mapping) (members : list (string * Z)) : list (list string) -> Prop :=
| wires_pair a b : get "kind" link = VStr "p2p" -> members = [a; b] -> wires name link members [[device_end a; device_end b]]
| wires_ports bridge numbers ends : get "kind" link <> VStr "p2p" -> bridge_named link bridge -> NoDup numbers ->
    Forall3 (fun m k e => e = [device_end m; bridge +:+ ":" +:+ name +:+ "-" +:+ str_of_Z k]) members numbers ends ->
    wires name link members ends.

Lemma item_is_get k d v : item k d = Ok v -> get k d = v.
Proof. unfold item, get. destruct (assoc k d); [by intros [= ->]|done]. Qed.

Lemma numbered {A B} (f : Z -> A -> B) l i : Forall3 (fun a k b => b = f k a) l (seqZ i (Z.of_nat (length l))) (from_index f i l).
Proof.
  revert i. induction l as [|a l IH]; intros i; [constructor|]. cbn [length from_index]. rewrite Nat2Z.inj_succ, seqZ_cons by lia.
  constructor; [done|]. rewrite Z.pred_succ, <- Z.add_1_r. apply IH.
Qed.

Lemma link_ends_wires attached entry ends : link_ends attached entry = Ok ends ->
  exists link, entry.2 = VDict link /\ wires entry.1 link (default [] (assoc entry.1 attached)) ends.
Proof.
  unfold link_ends. destruct entry as [name link]. intros H. apply rbind_Ok in H as (l & Hl & H). apply rbind_Ok in H as (kind & Hk & H).
  destruct link; try discriminate. injection Hl as <-. apply item_is_get in Hk. cbn [fst snd]. eexists. split; [done|].
  set (members := default [] (assoc name attached)) in *. destruct (py_eq kind (VStr "p2p")) eqn:Hp.
  - apply py_eq_text in Hp as ->. destruct members as [|a [|b [|? ?]]] eqn:E; try discriminate. injection H as <-. by constructor.
  - apply rbind_Ok in H as (v & Hv & [= <-]). assert (get "kind" d <> VStr "p2p") as Hn.
    { intros E. rewrite E in Hk. subst kind. by vm_compute in Hp. }
    set (bridge := str_val v +:+ (if py_eq kind (VStr "lan") then "|access-switch" else "")).
    apply (wires_ports name d members bridge (seqZ 1 (Z.of_nat (length members)))); [done| |apply NoDup_seqZ|apply (numbered (fun k m => _))].
    unfold item in Hv. destruct (assoc "bridge" d) as [v'|] eqn:Eb; [|discriminate]. injection Hv as ->. exists v. split; [done|].
    unfold bridge. rewrite Hk. split; intros E; [by rewrite E|].
    destruct (py_eq kind (VStr "lan")) eqn:El; [by apply py_eq_text in El|apply app_nil_str].
Qed.

(** The name of the bridge a link adds to the nodes. *)
Definition bridge_of (link : val) : option string :=
  match node_of link with
  | Ok d =>
      if py_eq (get "kind" d) (VStr "lan") then Some (str_val (get "bridge" d) +:+ "|access-switch")
      else if py_eq (get "kind" d) (VStr "external_bridge") then Some (str_val (get "bridge" d)) else None
  | Err _ => None
  end.

(** A rendered node that is a bridge. *)
Definition renders_bridge (nodes : mapping) (name : string) : Prop := exists d, assoc name nodes = Some (VDict d) /\ get "kind" d = VStr "bridge".

Lemma set_bridge nodes n d name : get "kind" d = VStr "bridge" -> renders_bridge nodes name \/ name = n -> renders_bridge (assoc_set n (VDict d) nodes) name.
Proof.
  intros Hd Hn. unfold renders_bridge. destruct (decide (name = n)) as [->|Hne]; [rewrite assoc_set_eq; eauto|].
  rewrite assoc_set_ne by congruence. destruct Hn as [Hn|]; [exact Hn|done].
Qed.

Lemma add_bridge_renders entry nodes r name : add_bridge nodes entry = Ok r ->
  renders_bridge nodes name \/ bridge_of entry.2 = Some name -> renders_bridge r name.
Proof.
  unfold add_bridge, bridge_of. intros H Hn. apply rbind_Ok in H as (link & Hl & H). apply rbind_Ok in H as (kind & Hk & H). apply item_is_get in Hk.
  rewrite Hl, Hk in Hn. destruct (py_eq kind (VStr "lan")).
  - apply rbind_Ok in H as (b & Hb%item_is_get & [= <-]). subst b. apply set_bridge; [done|]. destruct Hn as [|[= <-]]; auto.
  - destruct (py_eq kind (VStr "external_bridge")); [|injection H as <-; by destruct Hn].
    apply rbind_Ok in H as (b & Hb%item_is_get & H). apply rbind_Ok in H as (n & Hkey & [= <-]). subst b.
    destruct (get "bridge" link) as [| | |s| |]; try discriminate. injection Hkey as ->. apply set_bridge; [done|]. destruct Hn as [|[= <-]]; auto.
Qed.

Lemma bridges_rendered ls nodes r name : foldR add_bridge nodes ls = Ok r ->
  renders_bridge nodes name \/ (exists entry, entry ∈ ls /\ bridge_of entry.2 = Some name) -> renders_bridge r name.
Proof.
  revert nodes. induction ls as [|e ls IH]; intros nodes H Hn; cbn [foldR] in H.
  { injection H as <-. destruct Hn as [|(? & ?%elem_of_nil & _)]; done. }
  apply rbind_Ok in H as (nodes' & Ha & H). apply (IH _ H). destruct Hn as [Hn|(entry & [->|Hin]%elem_of_cons & Hb)].
  - left. apply (add_bridge_renders _ _ _ _ Ha). by left.
  - left. apply (add_bridge_renders _ _ _ _ Ha). by right.
  - right. eauto.
Qed.

Lemma bridge_named_of link bridge : bridge_named link bridge -> get "kind" link = VStr "lan" \/ get "kind" link = VStr "external_bridge" ->
  bridge_of (VDict link) = Some bridge.
Proof.
  intros (v & Hv & Hlan & Hother) Hk. unfold bridge_of. cbn [node_of].
  assert (get "bridge" link = v) as E by (unfold get; by rewrite Hv). rewrite E.
  destruct Hk as [Hk|Hk]; rewrite Hk; cbn; [by rewrite Hlan|]. rewrite Hother; [done|]. by rewrite Hk.
Qed.

(** The steps of the topology that its links come from. *)
Lemma topology_links intent ns ls t : rbind (item "nodes" intent) items_of = Ok ns -> rbind (item "links" intent) items_of = Ok ls -> topology_of intent = Ok t ->
  exists attached ends defined, foldR add_members (map (fun entry => (entry.1, [])) ls) ns = Ok attached /\ mapR (link_ends attached) ls = Ok ends /\
    foldR add_bridge defined ls = Ok (nodes t) /\ links t = concat ends.
Proof.
  intros Hns Hls H. unfold topology_of in H. apply rbind_Ok in H as (name & _ & H). apply rbind_Ok in H as (management & _ & H).
  apply rbind_Ok in H as (network & _ & H). apply rbind_Ok in H as (subnet & _ & H). apply rbind_Ok in H as (gateway & _ & H).
  rewrite Hns in H. cbn [rbind] in H. apply rbind_Ok in H as (defined & _ & H). rewrite Hls in H. cbn [rbind] in H.
  apply rbind_Ok in H as (nodes & Hn & H). apply rbind_Ok in H as (attached & Ha & H). apply rbind_Ok in H as (ends & He & [= <-]). exists attached, ends. eexists. split; [done|]. split; [done|]. by split; [exact Hn|].
Qed.

Lemma concat_unattached (ls : mapping) : concat (map snd (map (fun entry => (entry.1, [] : list (string * Z))) ls)) = [].
Proof. by induction ls. Qed.

Lemma unattached_keys (ls : mapping) : (map (fun entry => (entry.1, [] : list (string * Z))) ls).*1 = keys ls.
Proof. unfold keys. induction ls as [|entry ls IH]; [done|]. cbn. by f_equal. Qed.

Lemma assoc_unattached k (ls : mapping) : k ∈ keys ls -> assoc k (map (fun entry => (entry.1, [] : list (string * Z))) ls) = Some [].
Proof.
  unfold keys. induction ls as [|[k' v] ls IH]; cbn; [by intros ?%elem_of_nil|]. destruct (String.eqb k k') eqn:E; [done|].
  apply String.eqb_neq in E. intros [Hk|Hk]%elem_of_cons; [done|auto].
Qed.

Lemma concat_assoc {A} (l : list (string * list A)) (f : string -> list A) : NoDup l.*1 -> (forall k, k ∈ l.*1 -> assoc k l = Some (f k)) ->
  concat (map f l.*1) = concat (map snd l).
Proof.
  induction l as [|[k v] l IH]; intros Hnd Hf; [done|]. cbn in Hnd. apply NoDup_cons in Hnd as [Hk Hnd]. cbn.
  pose proof (Hf k ltac:(left)) as E. cbn in E. rewrite String.eqb_refl in E. injection E as ->. f_equal. apply IH; [done|].
  intros k' Hk'. specialize (Hf k' ltac:(by right)). cbn in Hf. destruct (String.eqb k' k) eqn:E; [|exact Hf]. apply String.eqb_eq in E. by subst k'.
Qed.

(** C40: Every interface is wired once.  In the topology rendered of an intent, the links of each declared
    link join exactly the interfaces whose attachment names it: the two of a point-to-point link with
    each other, each of any other link with a port of its own of the bridge the link names, which is a
    bridge of the topology when the link is a lan or an external bridge; and every attachment of
    every node is on exactly one declared link. *)
Theorem every_interface_is_wired_once intent ns ls t :
  rbind (item "nodes" intent) items_of = Ok ns -> rbind (item "links" intent) items_of = Ok ls -> NoDup (keys ls) -> topology_of intent = Ok t ->
  concat (map (fun entry => on_link entry.1 ns) ls) ≡ₚ interfaces ns /\
  (exists ends, links t = concat ends /\
    Forall2 (fun entry e => exists link, entry.2 = VDict link /\ wires entry.1 link (on_link entry.1 ns) e) ls ends) /\
  (forall name link bridge, (name, VDict link) ∈ ls -> get "kind" link = VStr "lan" \/ get "kind" link = VStr "external_bridge" ->
     bridge_named link bridge -> renders_bridge (nodes t) bridge).
Proof.
  intros Hns Hls Hnd H. destruct (topology_links _ _ _ _ Hns Hls H) as (attached & ends & defined & Hadd & Hends & Hbridges & ->).
  assert (forall k, k ∈ keys ls -> assoc k attached = Some (on_link k ns)) as Hon.
  { intros k Hk. apply (add_members_linked k ns _ attached [] Hadd). by apply assoc_unattached. }
  apply add_members_all in Hadd as [Hperm Hkeys]. split; [|split].
  - rewrite concat_unattached in Hperm. cbn [app] in Hperm. rewrite <- Hperm. rewrite unattached_keys in Hkeys.
    rewrite <- (map_map fst (fun k => on_link k ns)). change (map fst ls) with (keys ls). rewrite <- Hkeys.
    rewrite (concat_assoc attached (fun k => on_link k ns)); [done|by rewrite Hkeys|]. intros k. rewrite Hkeys. apply Hon.
  - exists ends. split; [done|]. apply mapR_Forall2 in Hends.
    assert (forall entry, entry ∈ ls -> assoc entry.1 attached = Some (on_link entry.1 ns)) as Hon'.
    { intros entry Hin. apply Hon. by apply list_elem_of_fmap_2. }
    clear -Hends Hon'. induction Hends as [|entry e ls ends He _ IH]; constructor.
    + apply link_ends_wires in He. by rewrite (Hon' entry) in He by left.
    + apply IH. intros entry' Hin. apply Hon'. by right.
  - intros name link bridge Hin Hk Hb. apply (bridges_rendered _ _ _ _ Hbridges). right. exists (name, VDict link). split; [done|].
    by apply bridge_named_of.
Qed.

(** * Nodes *)

Lemma add_bridge_keeps name ls nodes r : foldR add_bridge nodes ls = Ok r -> Forall (fun entry => bridge_of entry.2 <> Some name) ls ->
  assoc name r = assoc name nodes.
Proof.
  revert nodes. induction ls as [|entry ls IH]; intros nodes H Hn; cbn [foldR] in H; [by injection H as <-|].
  apply rbind_Ok in H as (nodes' & Ha & H). apply Forall_cons in Hn as [Hb Hn]. rewrite (IH _ H Hn). clear IH H Hn.
  unfold add_bridge in Ha. apply rbind_Ok in Ha as (link & Hl & Ha). apply rbind_Ok in Ha as (kind & Hk & Ha).
  unfold bridge_of in Hb. rewrite Hl, (item_is_get _ _ _ Hk) in Hb. destruct (py_eq kind (VStr "lan")).
  - apply rbind_Ok in Ha as (bridge & Hg & [= <-]). apply item_is_get in Hg. subst bridge. rewrite assoc_set_ne; [done|]. intros E. apply Hb. by rewrite E.
  - destruct (py_eq kind (VStr "external_bridge")); [|by injection Ha as <-].
    apply rbind_Ok in Ha as (bridge & Hg & Ha). apply rbind_Ok in Ha as (n & Hkey & [= <-]). apply item_is_get in Hg. subst bridge.
    destruct (get "bridge" link) as [| | |s| |]; try discriminate. injection Hkey as ->. rewrite assoc_set_ne; [done|]. intros ->. by apply Hb.
Qed.

Lemma defined_nodes subnet ns nodes r name node : foldR (fun nodes entry => let? d := node_definition entry.1 entry.2 subnet in Ok (assoc_set entry.1 (VDict d) nodes)) nodes ns = Ok r ->
  NoDup (keys ns) -> (name, node) ∈ ns -> exists d, node_definition name node subnet = Ok d /\ assoc name r = Some (VDict d).
Proof.
  revert nodes. induction ns as [|entry ns IH]; intros nodes H Hnd Hin; [by apply elem_of_nil in Hin|]. cbn [foldR] in H.
  apply rbind_Ok in H as (nodes' & Ha & H). apply rbind_Ok in Ha as (d & Hd & [= <-]). cbn in Hnd. apply NoDup_cons in Hnd as [Hk Hnd].
  apply elem_of_cons in Hin as [<-|Hin]; [|by eapply IH].
  exists d. split; [exact Hd|]. cbn [fst snd] in *.
  assert (forall l m r, foldR (fun nodes entry => let? d := node_definition entry.1 entry.2 subnet in Ok (assoc_set entry.1 (VDict d) nodes)) m l = Ok r ->
    name ∉ keys l -> assoc name r = assoc name m) as G.
  { clear. induction l as [|e l IH]; intros m r H Hn; cbn [foldR] in H; [by injection H as <-|].
    apply rbind_Ok in H as (m' & Ha & H). apply rbind_Ok in Ha as (d & _ & [= <-]). cbn in Hn. apply not_elem_of_cons in Hn as [Hn1 Hn2].
    rewrite (IH _ _ H Hn2). by rewrite assoc_set_ne by congruence. }
  rewrite (G _ _ _ H Hk). apply assoc_set_eq.
Qed.

Lemma topology_nodes intent ns ls t : rbind (item "nodes" intent) items_of = Ok ns -> rbind (item "links" intent) items_of = Ok ls -> topology_of intent = Ok t ->
  exists defined, foldR (fun nodes entry => let? d := node_definition entry.1 entry.2 (str_val (subnet t)) in Ok (assoc_set entry.1 (VDict d) nodes)) [] ns = Ok defined /\
    forall name, name <> "access-switch" -> Forall (fun entry => bridge_of entry.2 <> Some name) ls -> assoc name (nodes t) = assoc name defined.
Proof.
  intros Hns Hls H. unfold topology_of in H. apply rbind_Ok in H as (name & _ & H). apply rbind_Ok in H as (management & _ & H).
  apply rbind_Ok in H as (network & _ & H). apply rbind_Ok in H as (subnet & _ & H). apply rbind_Ok in H as (gateway & _ & H).
  rewrite Hns in H. cbn [rbind] in H. apply rbind_Ok in H as (defined & Hd & H). rewrite Hls in H. cbn [rbind] in H.
  apply rbind_Ok in H as (nodes & Hn & H). apply rbind_Ok in H as (attached & Ha & H). apply rbind_Ok in H as (ends & He & [= <-]).
  exists defined. split; [exact Hd|]. intros n Hs Hb. cbn [Fabric.nodes]. rewrite (add_bridge_keeps n _ _ _ Hn Hb). by rewrite assoc_set_ne.
Qed.

Lemma from_index_elem {A B} (f : Z -> A -> B) l i x : x ∈ from_index f i l -> exists j a, x = f j a /\ a ∈ l /\ i <= j < i + Z.of_nat (length l).
Proof.
  revert i. induction l as [|a l IH]; intros i; cbn [from_index]; [by intros ?%elem_of_nil|]. intros [->|H]%elem_of_cons.
  - exists i, a. split; [done|]. split; [left|]. cbn [length]. lia.
  - apply IH in H as (j & b & -> & Hb & Hj). exists j, b. split; [done|]. split; [by right|]. cbn [length]. lia.
Qed.

Lemma guard_elem {A} (f : Z -> string) (l : list A) i j : i <= j < i + Z.of_nat (length l) -> f j ∈ from_index (fun k _ => f k) i l.
Proof.
  revert i. induction l as [|a l IH]; intros i Hj; cbn [length] in Hj; [lia|]. cbn [from_index].
  destruct (decide (i = j)) as [->|]; [left|]. right. apply IH. lia.
Qed.

Lemma interface_index name node (ns : mapping) i : NoDup (keys ns) -> (name, node) ∈ ns -> (name, i) ∈ interfaces ns ->
  1 <= i < 1 + Z.of_nat (length (attachments_of node)).
Proof.
  unfold interfaces. induction ns as [|entry ns IH]; intros Hnd Hin Hi; [by apply elem_of_nil in Hin|]. cbn [map concat] in Hi.
  cbn in Hnd. apply NoDup_cons in Hnd as [Hk Hnd]. apply elem_of_app in Hi as [Hi|Hi].
  - apply from_index_elem in Hi as (j & a & [= E <-] & _ & Hj). apply elem_of_cons in Hin as [<-|Hin]; [exact Hj|].
    exfalso. apply Hk. rewrite <- E. by apply (list_elem_of_fmap_2 fst) in Hin.
  - apply elem_of_cons in Hin as [<-|Hin]; [|by apply IH]. exfalso. apply Hk. cbn [fst].
    apply list_elem_of_In, in_concat in Hi as (l & Hl & Hi). apply in_map_iff in Hl as (e & <- & He). apply list_elem_of_In in Hi, He.
    apply from_index_elem in Hi as (j & a & [= -> _] & _ & _). by apply (list_elem_of_fmap_2 fst) in He.
Qed.

Lemma forward_guard_text subnet i : exists selected,
  forward_guard subnet i = selected +:+ "iif eth" +:+ str_of_Z i +:+ " to " +:+ subnet +:+ " prohibit" +:+ quote.
Proof.
  exists ("sh -c " +:+ quote +:+ "ip rule del pref " +:+ str_of_Z (11000 + i) +:+ " 2>/dev/null || true; ip rule add pref " +:+ str_of_Z (11000 + i) +:+ " ").
  unfold forward_guard, shell. rewrite !app_assoc_str. done.
Qed.

(** Management stays out of band.  Of every node that no bridge overwrites: a router's or provider's
    commands hold, for each of its data interfaces, the rule of that interface that prohibits forwarding
    into the management subnet, before any address is set; and the last command of a workload that is to
    lose its management interface takes that interface down. *)
Theorem management_stays_out_of_band intent ns ls t name node :
  rbind (item "nodes" intent) items_of = Ok ns -> rbind (item "links" intent) items_of = Ok ls -> topology_of intent = Ok t ->
  NoDup (keys ns) -> (name, VDict node) ∈ ns -> name <> "access-switch" -> Forall (fun entry => bridge_of entry.2 <> Some name) ls ->
  exists d, assoc name (nodes t) = Some (VDict d) /\
    ((get "role" node = VStr "router" \/ get "role" node = VStr "isp") ->
     exists guards commands, get "exec" d = texts ("sysctl -w net.ipv4.ip_forward=1" :: guards ++ commands) /\ shell_commands node = Ok commands /\
       forall i, (name, i) ∈ interfaces ns -> exists selected,
         selected +:+ "iif eth" +:+ str_of_Z i +:+ " to " +:+ str_val (subnet t) +:+ " prohibit" +:+ quote ∈ guards) /\
    (get "role" node = VStr "endpoint" -> truthy (get "disable_management_after_boot" node) = true -> name <> "server1" ->
     exists commands, get "exec" d = texts (commands ++ [shell "ip link set eth0 down"])).
Proof.
  intros Hns Hls Ht Hnd Hin Hs Hb. destruct (topology_nodes _ _ _ _ Hns Hls Ht) as (defined & Hd & Hkeep). rewrite (Hkeep name Hs Hb).
  destruct (defined_nodes _ _ _ _ _ _ Hd Hnd Hin) as (d & Hdef & ->). exists d. split; [done|]. clear Hd Hkeep Hb Hls Ht Hns ls.
  unfold node_definition in Hdef. cbn [node_of rbind] in Hdef. apply rbind_Ok in Hdef as (role & Hr & Hdef). apply item_is_get in Hr. rewrite Hr.
  apply rbind_Ok in Hdef as (ip & _ & Hdef). split.
  - intros Hrole. assert (member_of ["router"; "isp"] role = Ok true) as E by (by destruct Hrole as [-> | ->]). rewrite E in Hdef. cbn [rbind] in Hdef.
    unfold router_definition in Hdef. apply rbind_Ok in Hdef as (guards & Hg & Hdef). apply rbind_Ok in Hdef as (commands & Hc & Hdef). injection Hdef as <-.
    exists guards, commands. split; [by destruct (str_in name ["dist1"; "dist2"])|]. split; [done|]. intros i Hi.
    pose proof (interface_index _ _ _ _ Hnd Hin Hi) as Hj. unfold management_forward_guards in Hg. apply rbind_Ok in Hg as (l & Hl & [= <-]).
    unfold attachments_of in Hj. cbn [node_of rbind] in Hj. rewrite Hl in Hj.
    destruct (forward_guard_text (str_val (subnet t)) i) as [selected E']. exists selected. rewrite <- E'. by apply guard_elem.
  - intros -> Hdis Hn. cbn [member_of is_hashable negb raise_if rbind existsb py_eq String.eqb Ascii.eqb] in Hdef. cbn in Hdef.
    unfold endpoint_definition in Hdef. apply rbind_Ok in Hdef as (commands & _ & Hdef). rewrite (proj2 (String.eqb_neq _ _) Hn), Hdis in Hdef. injection Hdef as <-.
    eexists (_ :: _ :: commands). reflexivity.
Qed.

(** * The inventory *)
Definition has_role (roles : list string) (entry : string * val) : bool :=
  match subscript "role" entry.2 with
  | Ok (VStr role) => str_in role roles
  | _ => false
  end.

Lemma member_text names v b : member_of names v = Ok b -> b = match v with VStr s => str_in s names | _ => false end.
Proof.
  unfold member_of. intros H. apply raise_seq_Ok in H as [Hh [= <-]]. clear Hh.
  destruct v as [|x|x|s|x|x]; unfold str_in; (done || (induction names as [|n names IH]; [done|exact IH])).
Qed.

Lemma routers_names ns l : filterR (role_in ["router"; "isp"]) ns = Ok l -> keys l = map fst (List.filter (has_role ["router"; "isp"]) ns).
Proof.
  revert l. induction ns as [|entry ns IH]; intros l H; cbn [filterR] in H; [by injection H as <-|].
  apply rbind_Ok in H as (b & Hb & H). apply rbind_Ok in H as (rest & Hr & [= <-]). apply IH in Hr. unfold role_in in Hb.
  apply rbind_Ok in Hb as (role & Hrole & Hb). apply member_text in Hb. subst b. cbn [List.filter]. unfold has_role at 1. rewrite Hrole.
  destruct role; try exact Hr. destruct (str_in s _); [|exact Hr]. unfold keys in *. cbn. by f_equal.
Qed.

Lemma role_names role ns l : filterR (role_is role) ns = Ok l -> keys l = map fst (List.filter (has_role [role]) ns).
Proof.
  revert l. induction ns as [|entry ns IH]; intros l H; cbn [filterR] in H; [by injection H as <-|].
  apply rbind_Ok in H as (b & Hb & H). apply rbind_Ok in H as (rest & Hr & [= <-]). apply IH in Hr. unfold role_is in Hb.
  apply rbind_Ok in Hb as (r & Hrole & [= <-]). cbn [List.filter]. unfold has_role at 1. rewrite Hrole.
  destruct r as [| | |s| |]; try exact Hr. cbn [py_eq str_in existsb]. rewrite orb_false_r. destruct (String.eqb s role); [|exact Hr]. unfold keys in *. cbn. by f_equal.
Qed.

Lemma mapR_keys (f : string -> result (string * val)) names l : (forall name e, f name = Ok e -> e.1 = name) -> mapR f names = Ok l -> keys l = names.
Proof.
  intros Hf H. apply mapR_Forall2 in H. unfold keys. induction H as [|name e names l He _ IH]; [done|]. cbn. apply Hf in He. by rewrite He; f_equal.
Qed.

Lemma hosts_keys ns names l : hosts ns names = Ok l -> keys l = names.
Proof. apply mapR_keys. intros name e H. apply rbind_Ok in H as (node & _ & H). by apply rbind_Ok in H as (ip & _ & [= <-]). Qed.

Lemma endpoint_keys ns names l : endpoint_hosts ns names = Ok l -> keys l = names.
Proof. apply mapR_keys. intros name e H. unfold endpoint_host in H. repeat (apply rbind_Ok in H as (? & _ & H)). by injection H as <-. Qed.

(** Texts split by two exclusive tests and the rest. *)
Lemma three_ways (p q : string -> bool) (l : list string) : (forall x, p x = true -> q x = false) ->
  List.filter p l ++ List.filter q l ++ List.filter (fun x => negb (str_in x (List.filter p l ++ List.filter q l))) l ≡ₚ l.
Proof.
  intros Hex. assert (List.filter (fun x => negb (str_in x (List.filter p l ++ List.filter q l))) l = List.filter (fun x => negb (p x || q x)) l) as ->.
  { apply List.filter_ext_in. intros x Hx. f_equal. apply eq_true_iff_eq. rewrite str_in_elem, elem_of_app, !list_elem_of_In, !filter_In, orb_true_iff. tauto. }
  induction l as [|x l IH]; [done|]. cbn [List.filter]. specialize (Hex x). destruct (p x); [rewrite (Hex eq_refl); cbn; by f_equiv|].
  destruct (q x); cbn [orb negb]; [cbn; rewrite <- Permutation_middle; by f_equiv|].
  rewrite app_assoc, <- Permutation_middle, <- app_assoc. by f_equiv.
Qed.

Lemma roles_split ns : map fst (List.filter (has_role ["router"; "isp"]) ns) ++ map fst (List.filter (has_role ["firewall"]) ns) ++
  map fst (List.filter (has_role ["endpoint"]) ns) ≡ₚ map fst (List.filter (has_role ["router"; "isp"; "firewall"; "endpoint"]) ns).
Proof.
  induction ns as [|entry ns IH]; [done|]. cbn [List.filter]. unfold has_role at 1 4 7 10. destruct (subscript "role" entry.2) as [[| | |s| |]|]; try exact IH.
  cbn [str_in existsb]. rewrite !orb_false_r.
  destruct (String.eqb_spec s "router") as [->|]; [cbn; by f_equiv|]. destruct (String.eqb_spec s "isp") as [->|]; [cbn; by f_equiv|].
  destruct (String.eqb_spec s "firewall") as [->|]; [cbn; rewrite <- Permutation_middle; by f_equiv|].
  destruct (String.eqb s "endpoint"); cbn; [|exact IH]. rewrite app_assoc, <- Permutation_middle, <- app_assoc. by f_equiv.
Qed.

(** The inventory has every node once.  The five groups of the rendered inventory together hold exactly
    the nodes whose role is router, provider, firewall or endpoint, each in one group. *)
Theorem inventory_partitions_the_nodes intent ns i :
  rbind (item "nodes" intent) items_of = Ok ns -> inventory_of intent = Ok i ->
  keys (vyos_routers i) ++ keys (vyos_firewalls i) ++ keys (clients i) ++ keys (servers i) ++ keys (dmz_hosts i)
  ≡ₚ map fst (List.filter (has_role ["router"; "isp"; "firewall"; "endpoint"]) ns).
Proof.
  intros Hns H. unfold inventory_of in H. rewrite Hns in H. cbn [rbind] in H.
  apply rbind_Ok in H as (routers & Hr & H). apply rbind_Ok in H as (firewalls & Hf & H). apply rbind_Ok in H as (linux & Hl & H).
  apply rbind_Ok in H as (r & Hr' & H). apply rbind_Ok in H as (f & Hf' & H). apply rbind_Ok in H as (c & Hc & H).
  apply rbind_Ok in H as (s & Hs & H). apply rbind_Ok in H as (d & Hd & [= <-]). cbn [vyos_routers vyos_firewalls clients servers dmz_hosts].
  rewrite (hosts_keys _ _ _ Hr'), (hosts_keys _ _ _ Hf'), (endpoint_keys _ _ _ Hc), (endpoint_keys _ _ _ Hs), (endpoint_keys _ _ _ Hd).
  rewrite (three_ways (starts_with "pc") (fun name => String.eqb name "server1")).
  - rewrite (routers_names _ _ Hr), (role_names _ _ _ Hf), (role_names _ _ _ Hl). apply roles_split.
  - intros x Hx. destruct (String.eqb_spec x "server1") as [->|]; [by vm_compute in Hx|done].
Qed.

(** * A small fabric *)
Definition sample_attachment (ip link : string) : val := VDict [("link", VStr link); ("address", VStr ip)].
Definition sample_nodes : mapping :=
  [("edge", VDict [("role", VStr "router"); ("mgmt_ip", VStr "10.1.1.2"); ("attachments", VList [sample_attachment "10.0.0.0/31" "ab"; sample_attachment "192.168.0.1/24" "lan1"])]);
   ("fw-core", VDict [("role", VStr "firewall"); ("mgmt_ip", VStr "10.1.1.3"); ("attachments", VList [sample_attachment "10.0.0.1/31" "ab"; sample_attachment "172.16.0.1/24" "dc"])]);
   ("pc1", VDict [("role", VStr "endpoint"); ("mgmt_ip", VStr "10.1.1.4"); ("path_b_management", VBool false); ("path_b_proxy", VStr "edge");
                  ("disable_management_after_boot", VBool true); ("attachments", VList [sample_attachment "192.168.0.2/24" "lan1"])])].
Definition sample_links : mapping :=
  [("ab", VDict [("kind", VStr "p2p")]); ("lan1", VDict [("kind", VStr "lan"); ("bridge", VStr "v10")]);
   ("dc", VDict [("kind", VStr "external_bridge"); ("bridge", VStr "br")])].
Definition sample_intent : mapping :=
  [("name", VStr "x"); ("management", VDict [("network", VStr "m"); ("subnet", VStr "10.1.1.0/24"); ("gateway", VStr "10.1.1.1")]);
   ("links", VDict sample_links); ("nodes", VDict sample_nodes)].

Lemma every_interface_is_wired_once_witness : is_ok (topology_of sample_intent) = true /\
  concat (map (fun entry => on_link entry.1 sample_nodes) sample_links) ≡ₚ interfaces sample_nodes /\ length (interfaces sample_nodes) = 5%nat /\
  (exists t, topology_of sample_intent = Ok t /\ renders_bridge (nodes t) "v10|access-switch").
Proof.
  split; [vm_compute; reflexivity|].
  destruct (topology_of sample_intent) as [t|e] eqn:E; [|by vm_compute in E].
  destruct (every_interface_is_wired_once sample_intent sample_nodes sample_links t eq_refl eq_refl ltac:(by apply (bool_decide_unpack _)) E) as (Hp & _ & Hb).
  split; [exact Hp|]. split; [vm_compute; reflexivity|]. exists t. split; [done|].
  apply (Hb "lan1" [("kind", VStr "lan"); ("bridge", VStr "v10")]); [right; left|by left|by exists (VStr "v10")].
Defined.

Lemma management_stays_out_of_band_witness :
  exists t d guards commands, topology_of sample_intent = Ok t /\ assoc "edge" (nodes t) = Some (VDict d) /\
    get "exec" d = texts ("sysctl -w net.ipv4.ip_forward=1" :: guards ++ commands) /\
    exists selected, selected +:+ "iif eth2 to 10.1.1.0/24 prohibit" +:+ quote ∈ guards.
Proof.
  destruct (topology_of sample_intent) as [t|e] eqn:E; [|by vm_compute in E].
  destruct (management_stays_out_of_band sample_intent sample_nodes sample_links t "edge" _ eq_refl eq_refl E
    ltac:(by apply (bool_decide_unpack _)) ltac:(left) ltac:(done) ltac:(repeat constructor; by vm_compute)) as (d & Hd & Hr & _).
  destruct (Hr ltac:(by left)) as (guards & commands & He & _ & Hg). exists t, d, guards, commands. split; [done|]. split; [exact Hd|]. split; [exact He|].
  assert (str_val (subnet t) = "10.1.1.0/24") as Es by (vm_compute in E; by injection E as <-). rewrite Es in Hg.
  apply (Hg 2). vm_compute. right. left.
Defined.

Lemma inventory_partitions_the_nodes_witness : exists i, inventory_of sample_intent = Ok i /\
  keys (vyos_routers i) ++ keys (vyos_firewalls i) ++ keys (clients i) ++ keys (servers i) ++ keys (dmz_hosts i) ≡ₚ ["edge"; "fw-core"; "pc1"].
Proof.
  destruct (inventory_of sample_intent) as [i|e] eqn:E; [|by vm_compute in E]. exists i. split; [done|].
  exact (inventory_partitions_the_nodes sample_intent sample_nodes i eq_refl E).
Defined.

(** * Settings *)

(** What a line of a settings file sets, if anything. *)
Definition line_setting (raw : string) : option (option (string * string)) :=
  let line := strip raw in
  if String.eqb line "" || starts_with "#" line then Some None
  else
    let '(key, separator, value) := partition_on "=" line in
    if negb separator || negb (is_key (strip key)) then None else Some (Some (strip key, _clean_value value)).

Definition settings (lines : list string) : list (string * string) :=
  omap (fun raw => match line_setting raw with Some s => s | None => None end) lines.

Lemma dotenv_lines path lines values n : Forall (fun raw => line_setting raw <> None) lines ->
  exists n', foldR (dotenv_line path) (values, n) lines = Ok (fold_left (fun d kv => assoc_set kv.1 kv.2 d) (settings lines) values, n').
Proof.
  intros H. revert values n. induction H as [|raw lines Hr _ IH]; intros values n; [by exists n|]. cbn [foldR].
  unfold dotenv_line at 1. unfold settings. cbn [omap list_omap]. unfold line_setting in *.
  destruct (String.eqb (strip raw) "" || starts_with "#" (strip raw)); [apply IH|].
  destruct (partition_on "=" (strip raw)) as [[key separator] value]. destruct (negb separator || negb (is_key (strip key))); [done|]. apply IH.
Qed.

Lemma dotenv_lines_Ok path lines values n r : foldR (dotenv_line path) (values, n) lines = Ok r ->
  Forall (fun raw => line_setting raw <> None) lines.
Proof.
  revert values n. induction lines as [|raw lines IH]; intros values n H; [constructor|]. cbn [foldR] in H.
  apply rbind_Ok in H as ([values' n'] & Hl & H). constructor; [|by eapply IH]. unfold dotenv_line in Hl. unfold line_setting.
  destruct (String.eqb (strip raw) "" || starts_with "#" (strip raw)); [done|]. destruct (partition_on "=" (strip raw)) as [[key separator] value].
  apply raise_seq_Ok in Hl as [-> _]. done.
Qed.

(** The settings of a text that is read, when each key is set once. *)
Lemma fresh_settings (l acc : list (string * string)) : NoDup (map fst acc ++ map fst l) -> fold_left (fun d kv => assoc_set kv.1 kv.2 d) l acc = acc ++ l.
Proof.
  revert acc. induction l as [|[k v] l IH]; intros acc H; [by rewrite app_nil_r|]. cbn [fold_left fst snd].
  rewrite assoc_set_fresh.
  - rewrite IH; [by rewrite <- app_assoc|]. rewrite map_app. cbn [map fst]. by rewrite <- app_assoc.
  - intros Hin. apply NoDup_app in H as (_ & H & _). apply (H k Hin). cbn. left.
Qed.

(** ** Lines of a text *)
Definition no_break (s : string) : bool := str_forallb (fun a => negb (is_line_break a)) s.

Lemma lines_from_line l pending rest : no_break l = true -> lines_from pending (l +:+ newline +:+ rest) = (pending +:+ l) :: lines_from "" rest.
Proof.
  revert pending. induction l as [|a l IH]; intros pending H.
  - cbn. rewrite app_nil_str. by destruct rest.
  - cbn in H. apply andb_true_iff in H as [Ha Hl]. cbn. rewrite (proj1 (negb_true_iff _) Ha). rewrite IH by done. by rewrite app_assoc_str.
Qed.

Lemma splitlines_join lines : lines <> [] -> Forall (fun l => no_break l = true) lines -> splitlines (str_join newline lines +:+ newline) = lines.
Proof.
  unfold splitlines. intros Hn H. induction H as [|l lines Hl H IH]; [done|]. destruct lines as [|l' lines].
  - cbn [str_join]. rewrite <- (app_nil_str newline), lines_from_line by done. done.
  - cbn [str_join]. rewrite !app_assoc_str, lines_from_line by done. f_equal. by apply IH.
Qed.

Lemma lines_have_no_break s pending : no_break pending = true -> Forall (fun l => no_break l = true) (lines_from pending s).
Proof.
  remember (String.length s) as n eqn:En. assert (String.length s <= n)%nat as Hlen by lia. clear En. revert s pending Hlen.
  induction n as [|n IH]; intros s pending Hlen Hp.
  - destruct s; [|cbn in Hlen; lia]. cbn. destruct (String.eqb pending ""); [constructor|by repeat constructor].
  - destruct s as [|a r]; cbn [lines_from]; [destruct (String.eqb pending ""); [constructor|by repeat constructor]|]. cbn in Hlen.
    destruct (is_line_break a) eqn:E.
    + constructor; [done|]. destruct r as [|b t]; [constructor|]. cbn in Hlen. destruct (_ && _); apply IH; cbn; (lia || done).
    + apply IH; [lia|]. unfold no_break in *. rewrite str_forallb_app, Hp. cbn. by rewrite E.
Qed.

(** ** Keys *)
Lemma key_chars (p : ascii -> bool) : (forall a, is_letter a || is_ascii_digit a = true -> p a = true) -> forall k, is_key k = true -> str_forallb p k = true.
Proof.
  intros Hp [|a k]; [done|]. cbn. intros [Ha Hk]%andb_true_iff. rewrite Hp by (by rewrite Ha). cbn. by apply (str_forallb_impl _ _ _ Hp).
Qed.

Lemma key_char a : is_letter a || is_ascii_digit a = true -> negb (is_space a) && negb (Ascii.eqb a "=") && negb (is_line_break a) && negb (Ascii.eqb a "#") = true.
Proof.
  intros H. pose proof (all_ascii (fun a => negb (is_letter a || is_ascii_digit a) || (negb (is_space a) && negb (Ascii.eqb a "=") && negb (is_line_break a) && negb (Ascii.eqb a "#"))) ltac:(by vm_compute) a) as G.
  cbv beta in G. rewrite H in G. exact G.
Qed.

Lemma partition_fresh k rest : str_forallb (fun a => negb (Ascii.eqb a "=")) k = true -> partition_on "=" (k +:+ String "=" rest) = (k, true, rest).
Proof.
  induction k as [|a k IH]; [done|]. cbn. intros [Ha Hk]%andb_true_iff. apply negb_true_iff in Ha. by rewrite Ha, IH.
Qed.

(** ** Space *)
Lemma rstrip_app_id a c b : is_space c = false -> rstrip b = b -> rstrip (a +:+ String c b) = a +:+ String c b.
Proof.
  intros Hc Hb. unfold rstrip in *. induction a as [|x a IH].
  - cbn [String.append rstrip_by]. rewrite Hb. destruct b; [by rewrite Hc|done].
  - cbn [String.append rstrip_by]. rewrite IH. destruct a; cbn; [done|done].
Qed.

Lemma strip_both v : strip v = v -> rstrip v = v /\ lstrip v = v.
Proof.
  intros H. assert (rstrip v = v) as Hr.
  { rewrite <- H at 1. unfold strip at 1. rewrite rstrip_lstrip. unfold rstrip. rewrite rstrip_by_idem. exact H. }
  split; [done|]. rewrite <- Hr at 1. exact H.
Qed.

Lemma lstrip_space w s : str_forallb is_space w = true -> lstrip (w +:+ s) = lstrip s.
Proof. induction w as [|a w IH]; [done|]. cbn. intros [Ha Hw]%andb_true_iff. by rewrite Ha, IH. Qed.

Lemma lstrip_head s a t : lstrip s = String a t -> is_space a = false.
Proof. induction s as [|b s IH]; [done|]. cbn [lstrip]. destruct (is_space b) eqn:Hb; [exact IH|]. by intros [= -> ->]. Qed.

Lemma lstrip_split s : exists w, str_forallb is_space w = true /\ s = w +:+ lstrip s.
Proof.
  induction s as [|a s (w & Hw & E)]; [by exists ""|]. cbn [lstrip]. destruct (is_space a) eqn:Ha; [|by exists ""].
  exists (String a w). split; [cbn; by rewrite Ha|]. cbn. by rewrite <- E.
Qed.

Lemma rstrip_split s : exists w, s = rstrip s +:+ w.
Proof.
  unfold rstrip. induction s as [|a s (w & E)]; [by exists ""|]. cbn [rstrip_by]. destruct (rstrip_by is_space s) as [|b t].
  - destruct (is_space a); [by exists (String a s)|]. exists s. done.
  - exists w. cbn. by rewrite E at 1.
Qed.

Lemma strip_lstrip s : strip s = rstrip (lstrip s).
Proof. unfold strip. by rewrite rstrip_lstrip. Qed.

Lemma strip_space w s : str_forallb is_space w = true -> strip (w +:+ s) = strip s.
Proof. intros Hw. by rewrite !strip_lstrip, lstrip_space. Qed.

Lemma starts_hash a s : starts_with "#" (String a s) = Ascii.eqb "#" a.
Proof. unfold starts_with. cbn [String.prefix]. destruct (Ascii.ascii_dec "#" a) as [<-|H]; [by destruct s|]. symmetry. by apply Ascii.eqb_neq. Qed.

Lemma hash_rstrip s : starts_with "#" (rstrip s) = starts_with "#" s.
Proof.
  unfold rstrip. destruct s as [|a s]; [done|]. cbn [rstrip_by]. destruct (rstrip_by is_space s); [|by rewrite !starts_hash].
  destruct (is_space a) eqn:Ha; [|by unfold str1; rewrite !starts_hash]. rewrite starts_hash. destruct (Ascii.eqb_spec "#" a) as [<-|]; [by vm_compute in Ha|done].
Qed.

Lemma no_space_strip k : str_forallb (fun a => negb (is_space a)) k = true -> strip k = k.
Proof.
  intros H. assert (rstrip k = k) as Hr.
  { unfold rstrip. induction k as [|a k IH]; [done|]. cbn in H. apply andb_true_iff in H as [Ha%negb_true_iff Hk]. cbn [rstrip_by]. rewrite IH by done. destruct k; [by rewrite Ha|done]. }
  unfold strip. rewrite Hr. destruct k as [|a k]; [done|]. cbn in H. apply andb_true_iff in H as [Ha%negb_true_iff _]. cbn. by rewrite Ha.
Qed.

(** ** What is written as it is *)
Definition plain (v : string) : bool :=
  no_break v && String.eqb (strip v) v && String.eqb (before_comment v) v &&
  match v with String q _ => negb (Ascii.eqb q (chr 39) || Ascii.eqb q dquote) | EmptyString => true end.

Lemma plain_clean v : plain v = true -> _clean_value v = v.
Proof.
  unfold plain. intros (((_ & Hs%String.eqb_eq)%andb_true_iff & Hb)%andb_true_iff & Hq)%andb_true_iff.
  destruct (strip_both v Hs) as [_ Hl]. unfold _clean_value. rewrite Hs. destruct v as [|a v]; [done|].
  assert (is_space a = false) as Ha.
  { cbn [lstrip] in Hl. destruct (is_space a); [|done]. exfalso. assert (String.length (lstrip v) = S (String.length v)) as Hlen by (by rewrite Hl).
    pose proof (lstrip_split v) as (w & _ & E). rewrite E in Hlen at 2. rewrite str_length_app in Hlen. lia. }
  cbn [only_comment]. rewrite Ha. cbn [andb]. apply negb_true_iff in Hq. by rewrite Hq, Hb.
Qed.

Lemma plain_line k v : is_key k = true -> plain v = true -> line_setting (k +:+ "=" +:+ v) = Some (Some (k, v)) /\ no_break (k +:+ "=" +:+ v) = true.
Proof.
  intros Hk Hv. pose proof (plain_clean _ Hv) as Hc. unfold plain in Hv. apply andb_true_iff in Hv as [Hv _]. apply andb_true_iff in Hv as [Hv _].
  apply andb_true_iff in Hv as [Hnb Hs%String.eqb_eq]. destruct (strip_both v Hs) as [Hr _].
  assert (forall p, (forall a, is_letter a || is_ascii_digit a = true -> p a = true) -> str_forallb p k = true) as Hall by (intros; by apply key_chars).
  assert (forall a, is_letter a || is_ascii_digit a = true -> is_space a = false /\ Ascii.eqb a "=" = false /\ is_line_break a = false /\ Ascii.eqb a "#" = false) as Hch.
  { intros a Ha. apply key_char in Ha. bool_inv. auto. }
  assert (strip k = k) as Hsk by (apply no_space_strip, Hall; intros a Ha; by destruct (Hch a Ha) as [-> _]).
  assert (strip (k +:+ "=" +:+ v) = k +:+ "=" +:+ v) as Hst.
  { unfold strip. cbn [String.append]. rewrite rstrip_app_id by done. destruct k as [|a k]; [done|]. cbn.
    assert (is_space a = false) as ->; [|done]. apply Hch. cbn in Hk. apply andb_true_iff in Hk as [Ha _]. by rewrite Ha. }
  split.
  - unfold line_setting. rewrite Hst. cbn [String.append]. destruct k as [|a k]; [done|]. 
    assert (Ascii.eqb a "#" = false) as Hh by (apply Hch; cbn in Hk; apply andb_true_iff in Hk as [Ha _]; by rewrite Ha).
    assert (starts_with "#" (String a k +:+ String "=" v) = false) as ->.
    { cbn [String.append]. by rewrite starts_hash, Ascii.eqb_sym. }
    cbn [orb String.append String.eqb]. change (String a (k +:+ String "=" v)) with (String a k +:+ String "=" v).
    rewrite partition_fresh by (apply Hall; intros b Hb; by destruct (Hch b Hb) as (_ & -> & _)). cbn [negb orb]. rewrite Hsk, Hk. cbn [negb]. by rewrite Hc.
  - unfold no_break in *. rewrite str_forallb_app. cbn. rewrite Hnb, andb_true_r. apply Hall. intros b Hb. by destruct (Hch b Hb) as (_ & _ & -> & _).
Qed.

Lemma partition_found x w k v : partition_on "=" x = (k, true, v) -> partition_on "=" (x +:+ w) = (k, true, v +:+ w).
Proof.
  revert k. induction x as [|a x IH]; intros k; [done|]. cbn. destruct (Ascii.eqb a "="); [by intros [= <- <-]|].
  destruct (partition_on "=" x) as [[k' f] v'] eqn:E. intros [= <- -> ->]. by rewrite (IH k').
Qed.

Lemma partition_space w s : str_forallb is_space w = true -> (partition_on "=" (w +:+ s)).1.1 = w +:+ (partition_on "=" s).1.1.
Proof.
  induction w as [|a w IH]; [done|]. cbn. intros [Ha Hw]%andb_true_iff. destruct (Ascii.eqb_spec a "=") as [->|_]; [by vm_compute in Ha|].
  rewrite <- IH by done. by destruct (partition_on "=" (w +:+ s)) as [[? ?] ?].
Qed.

(** The key [update_env] sees is the one [parse_dotenv] reads. *)
Lemma line_key raw s : line_setting raw = Some s ->
  match s with
  | Some (k, _) => strip (partition_on "=" raw).1.1 = k /\ starts_with "#" (lstrip raw) = false /\ is_key k = true
  | None => starts_with "#" (lstrip raw) = true \/ strip (partition_on "=" raw).1.1 = ""
  end.
Proof.
  unfold line_setting. destruct (lstrip_split raw) as (w & Hw & E). rewrite strip_lstrip, hash_rstrip. intros H.
  assert (strip (partition_on "=" raw).1.1 = strip (partition_on "=" (lstrip raw)).1.1) as Hkey.
  { rewrite E at 1. by rewrite partition_space, strip_space. }
  rewrite Hkey.
  destruct (starts_with "#" (lstrip raw)) eqn:Eh; [rewrite orb_true_r in H; injection H as <-; by left|]. rewrite orb_false_r in H.
  destruct (String.eqb (rstrip (lstrip raw)) "") eqn:E0.
  - injection H as <-. right. apply String.eqb_eq in E0.
    assert (lstrip raw = "") as ->; [|done]. destruct (lstrip raw) as [|a t] eqn:El; [done|].
    exfalso. pose proof (lstrip_head raw a t El) as Ha. revert E0. unfold rstrip. cbn [rstrip_by]. rewrite Ha. by destruct (rstrip_by is_space t).
  - destruct (rstrip_split (lstrip raw)) as (u & Eu). destruct (partition_on "=" (rstrip (lstrip raw))) as [[key separator] value] eqn:Ep.
    destruct separator; [|done]. destruct (is_key (strip key)) eqn:Ek; [|done]. injection H as <-.
    rewrite Eu. erewrite partition_found by exact Ep. done.
Qed.

(** ** Updating *)
Lemma assoc_without {A} k keys_ (l : list (string * A)) : assoc k (List.filter (fun kv => negb (str_in kv.1 keys_)) l) = if str_in k keys_ then None else assoc k l.
Proof.
  induction l as [|[k' v] l IH]; [by destruct (str_in k keys_)|]. cbn [List.filter fst]. destruct (str_in k' keys_) eqn:E; cbn [negb assoc]; rewrite IH.
  - destruct (String.eqb_spec k k') as [->|]; [by rewrite E|done].
  - destruct (String.eqb_spec k k') as [->|]; [by rewrite E|done].
Qed.

Lemma del_without {A} k (l : list (string * A)) : assoc_del k l = List.filter (fun kv => negb (str_in kv.1 [k])) l.
Proof.
  unfold assoc_del. induction l as [|[k' v] l IH]; [done|]. cbn [List.filter fst str_in existsb]. rewrite orb_false_r, (String.eqb_sym k' k).
  destruct (String.eqb_spec k k') as [->|Hn].
  - rewrite filter_cons_False by (cbn; by rewrite String.eqb_refl). cbn [negb]. exact IH.
  - rewrite filter_cons_True by (cbn; by rewrite (proj2 (String.eqb_neq _ _) Hn)). cbn [negb]. by f_equal.
Qed.

Definition replaced (values : list (string * string)) (kv : string * string) : string * string := (kv.1, default kv.2 (assoc kv.1 values)).

Lemma update_lines lines out remaining :
  Forall (fun raw => line_setting raw <> None /\ no_break raw = true) lines -> NoDup (map fst (settings lines)) ->
  Forall (fun kv => is_key kv.1 = true /\ plain kv.2 = true) remaining ->
  exists out', fold_left update_line lines (out, remaining) =
      (out ++ out', List.filter (fun kv => negb (str_in kv.1 (map fst (settings lines)))) remaining) /\
    Forall (fun raw => line_setting raw <> None /\ no_break raw = true) out' /\ settings out' = map (replaced remaining) (settings lines).
Proof.
  revert out remaining. induction lines as [|raw lines IH]; intros out remaining Hl Hnd Hr.
  { exists []. rewrite app_nil_r. split; [|by split; [constructor|]]. cbn. f_equal. induction remaining as [|kv r IH]; [done|]. cbn. f_equal. apply IH. by apply Forall_inv_tail in Hr. }
  apply Forall_cons in Hl as [[Hraw Hnb] Hl]. cbn [fold_left]. destruct (line_setting raw) as [s|] eqn:Es; [|done]. clear Hraw.
  assert (settings (raw :: lines) = match s with Some kv => kv :: settings lines | None => settings lines end) as Eset.
  { unfold settings. cbn [omap list_omap]. rewrite Es. by destruct s. }
  rewrite Eset in *. pose proof (line_key raw s Es) as Hkey. destruct s as [[k v]|].
  - destruct Hkey as (Hk & Hh & Hik). cbn [map fst] in Hnd. apply NoDup_cons in Hnd as [Hfresh Hnd].
    unfold update_line at 2. rewrite Hk, Hh. destruct (assoc k remaining) as [value|] eqn:Ea.
    + assert (is_key k = true /\ plain value = true) as [_ Hp].
      { apply assoc_elem in Ea. rewrite Forall_forall in Hr. by apply (Hr (k, value)). }
      destruct (plain_line k value Hik Hp) as [Hline Hnb'].
      destruct (IH (out ++ [k +:+ "=" +:+ value]) (assoc_del k remaining) Hl Hnd) as (out' & E & Ho & Hs).
      { rewrite del_without. apply Forall_forall. intros x Hx. rewrite Forall_forall in Hr. apply Hr. apply list_elem_of_In in Hx. apply filter_In in Hx as [Hx _]. by apply list_elem_of_In. }
      exists ((k +:+ "=" +:+ value) :: out'). rewrite E, <- app_assoc. split; [|split].
      * f_equal. rewrite del_without. clear. induction remaining as [|[k' v'] r IHr]; [done|]. cbn. rewrite (String.eqb_sym k' k), orb_false_r. destruct (String.eqb k k'); cbn; [done|].
        destruct (str_in k' (map fst (settings lines))) eqn:E'; unfold str_in in E'; rewrite E'; cbn; [done|by f_equal].
      * constructor; [|done]. by rewrite Hline.
      * unfold settings at 1. cbn [omap list_omap]. rewrite Hline. fold (settings out'). rewrite Hs. cbn [map]. unfold replaced at 2. cbn [fst snd]. rewrite Ea. f_equal.
        apply map_ext_in. intros [k' v'] Hin. unfold replaced. cbn. rewrite del_without, assoc_without. cbn [str_in existsb]. rewrite orb_false_r.
        destruct (String.eqb_spec k' k) as [->|]; [|done]. exfalso. apply Hfresh. apply list_elem_of_In. apply in_map_iff. by exists (k, v').
    + destruct (IH (out ++ [raw]) remaining Hl Hnd Hr) as (out' & E & Ho & Hs). exists (raw :: out'). rewrite E, <- app_assoc. split; [|split].
      * f_equal. clear -Ea. induction remaining as [|[k' v'] r IHr]; [done|]. cbn in *. rewrite (String.eqb_sym k' k). destruct (String.eqb k k'); [done|]. cbn.
        destruct (str_in k' (map fst (settings lines))) eqn:E'; unfold str_in in E'; rewrite E'; cbn; [by apply IHr|f_equal; by apply IHr].
      * constructor; [by rewrite Es|done].
      * unfold settings at 1. cbn [omap list_omap]. rewrite Es. fold (settings out'). rewrite Hs. cbn [map]. unfold replaced at 2. cbn [fst snd]. by rewrite Ea.
  - assert (update_line (out, remaining) raw = (out ++ [raw], remaining)) as ->.
    { unfold update_line. destruct (assoc _ remaining) as [value|] eqn:Ea; [|done]. destruct Hkey as [->|Hempty]; [done|]. rewrite Hempty in Ea.
      apply assoc_elem in Ea. rewrite Forall_forall in Hr. by destruct (Hr _ Ea). }
    destruct (IH (out ++ [raw]) remaining Hl Hnd Hr) as (out' & E & Ho & Hs). exists (raw :: out'). rewrite E, <- app_assoc. split; [done|]. split.
    + constructor; [by rewrite Es|done].
    + unfold settings at 1. cbn [omap list_omap]. rewrite Es. exact Hs.
Qed.

Lemma parse_settings path text : Forall (fun raw => line_setting raw <> None) (splitlines text) -> NoDup (map fst (settings (splitlines text))) ->
  parse_dotenv path text = Ok (settings (splitlines text)).
Proof.
  intros Hl Hnd. unfold parse_dotenv. destruct (dotenv_lines path _ [] 1 Hl) as (n & ->). cbn [rbind fst]. by rewrite fresh_settings.
Qed.

Lemma settings_app a b : settings (a ++ b) = settings a ++ settings b.
Proof. apply omap_app. Qed.

Lemma assigned_lines (values : list (string * string)) : Forall (fun kv => is_key kv.1 = true /\ plain kv.2 = true) values ->
  Forall (fun raw => line_setting raw <> None /\ no_break raw = true) (map (fun kv => kv.1 +:+ "=" +:+ kv.2) values) /\
  settings (map (fun kv => kv.1 +:+ "=" +:+ kv.2) values) = values.
Proof.
  induction 1 as [|[k v] values [Hk Hv] _ [IH1 IH2]]; [by split|]. cbn [map fst snd]. destruct (plain_line k v Hk Hv) as [Hl Hn]. split.
  - constructor; [by rewrite Hl|done].
  - unfold settings. cbn [omap list_omap]. rewrite Hl. by f_equal.
Qed.

Lemma assoc_replaced k values (l : list (string * string)) : assoc k (map (replaced values) l) = option_map (fun v => default v (assoc k values)) (assoc k l).
Proof. induction l as [|[k' v] l IH]; [done|]. cbn. destruct (String.eqb_spec k k') as [->|]; [done|exact IH]. Qed.

Lemma str_in_keys k (l : list (string * string)) : str_in k (map fst l) = match assoc k l with Some _ => true | None => false end.
Proof. induction l as [|[k' v] l IH]; [done|]. cbn. destruct (String.eqb k k'); [done|exact IH]. Qed.

(** Settings that are written are read.  If a settings file sets each key once and is read, then after
    [update_env] has put in values that need no quoting it is still read, and gives the new value of every
    key that was put in and the former value of every other. *)
Theorem updated_settings_are_read path text values d :
  parse_dotenv path text = Ok d -> NoDup (map fst (settings (splitlines text))) ->
  NoDup (map fst values) -> Forall (fun kv => is_key kv.1 = true /\ plain kv.2 = true) values ->
  exists d', parse_dotenv path (update_env text values) = Ok d' /\ forall k, assoc k d' = match assoc k values with Some v => Some v | None => assoc k d end.
Proof.
  intros Hp Hnd Hndv Hv.
  assert (Forall (fun raw => line_setting raw <> None) (splitlines text)) as Hl.
  { unfold parse_dotenv in Hp. apply rbind_Ok in Hp as (r & Hp & _). by apply dotenv_lines_Ok in Hp. }
  rewrite parse_settings in Hp by done. injection Hp as <-. set (lines := splitlines text) in *.
  assert (Forall (fun raw => line_setting raw <> None /\ no_break raw = true) lines) as Hll.
  { apply Forall_and. split; [done|]. by apply lines_have_no_break. }
  destruct (update_lines lines [] values Hll Hnd Hv) as (out & E & Hout & Hset). cbn [app] in E.
  set (rest := List.filter (fun kv => negb (str_in kv.1 (map fst (settings lines)))) values) in *.
  assert (Forall (fun kv => is_key kv.1 = true /\ plain kv.2 = true) rest) as Hrest.
  { apply Forall_forall. intros x Hx. rewrite Forall_forall in Hv. apply Hv. apply list_elem_of_In in Hx. apply filter_In in Hx as [Hx _]. by apply list_elem_of_In. }
  destruct (assigned_lines rest Hrest) as [Hal Has].
  assert (Forall (fun raw => line_setting raw <> None /\ no_break raw = true) (out ++ map (fun kv => kv.1 +:+ "=" +:+ kv.2) rest)) as Hall by (by apply Forall_app).
  assert (settings (out ++ map (fun kv => kv.1 +:+ "=" +:+ kv.2) rest) = map (replaced values) (settings lines) ++ rest) as Hs by (by rewrite settings_app, Hset, Has).
  assert (NoDup (map fst (map (replaced values) (settings lines) ++ rest))) as Hn.
  { rewrite map_app, map_map. cbn [replaced fst]. apply NoDup_app. split; [exact Hnd|]. split; [|by apply NoDup_map_filter].
    intros k Hk Hk'. apply list_elem_of_fmap in Hk' as (kv & -> & Hkv). apply list_elem_of_In in Hkv. apply filter_In in Hkv as [_ Hkv].
    apply negb_true_iff in Hkv. apply (str_in_elem kv.1) in Hk. exact (eq_true_false_abs _ Hk Hkv). }
  assert (forall k, assoc k (map (replaced values) (settings lines) ++ rest) = match assoc k values with Some v => Some v | None => assoc k (settings lines) end) as Hassoc.
  { intros k. rewrite assoc_app, assoc_replaced. unfold rest. rewrite assoc_without, str_in_keys. destruct (assoc k (settings lines)), (assoc k values); done. }
  exists (map (replaced values) (settings lines) ++ rest). split; [|exact Hassoc]. unfold update_env. fold lines. rewrite E. rewrite <- Hs.
  destruct (out ++ map (fun kv => kv.1 +:+ "=" +:+ kv.2) rest) as [|l ls] eqn:El; [reflexivity|]. rewrite <- El in *. 
  assert (splitlines (str_join newline (out ++ map (fun kv => kv.1 +:+ "=" +:+ kv.2) rest) +:+ newline) = out ++ map (fun kv => kv.1 +:+ "=" +:+ kv.2) rest) as Hsp.
  { apply splitlines_join; [by rewrite El|]. eapply Forall_impl; [exact Hall|]. by intros ? [_ ?]. }
  rewrite parse_settings; rewrite Hsp; [done| |by rewrite Hs]. eapply Forall_impl; [exact Hall|]. by intros ? [? _].
Qed.

Lemma updated_settings_are_read_witness :
  exists d', parse_dotenv ".env" (update_env ("# lab" +:+ newline +:+ "A = 1 # one" +:+ newline +:+ "B='x y'") [("A", "2"); ("C", "abc")]) = Ok d' /\
    assoc "A" d' = Some "2" /\ assoc "B" d' = Some "x y" /\ assoc "C" d' = Some "abc".
Proof.
  destruct (updated_settings_are_read ".env" ("# lab" +:+ newline +:+ "A = 1 # one" +:+ newline +:+ "B='x y'") [("A", "2"); ("C", "abc")] [("A", "1"); ("B", "x y")])
    as (d' & Hp & Hd).
  - vm_compute. reflexivity.
  - by apply (bool_decide_unpack _).
  - by apply (bool_decide_unpack _).
  - by apply (bool_decide_unpack _).
  - exists d'. rewrite !Hd. by split.
Defined.

(** A key that the file sets twice keeps its last value: the first line is the one replaced. *)
Example repeated_key_keeps_its_value :
  parse_dotenv ".env" (update_env ("A=1" +:+ newline +:+ "A=3" +:+ newline) [("A", "2")]) = Ok [("A", "3")].
Proof. reflexivity. Qed.
