(* ===== verification/RegistryProps.v ===== *)
(** Theorems about models: what an artifact that was fitted and written loads back as ([ModelFit.v]),
    which bytes may be deserialised and which models are served ([Registry.v], [InferApi.v]). *)

From S2P Require Import Prelude PyText PyNum PyTime PyJson JsonText Sha256 Policy Decision Effects Store Contracts Sequences.
From S2P Require Import Outbox Enrichment Registry InferApi Partitions Promotion Labels Evaluation Pipeline ModelFit RegistryInv.
From S2P Require Import SampleWorkers SampleTraining.

(** * Integers as text *)
Lemma int_digits_parse s : str_forallb is_ascii_digit s = true -> forall acc, int_digits true acc s = parse_acc 10 acc s.
Proof.
  induction s as [|a s IH]; [done|]. intros [Ha Hs]%andb_true_iff acc. cbn [int_digits parse_acc]. rewrite Ha, IH by done.
  each_digit Ha; done.
Qed.

Lemma digits_strip s : str_forallb is_ascii_digit s = true -> strip s = s.
Proof.
  intros Hs. unfold strip. assert (rstrip s = s) as ->.
  { unfold rstrip. induction s as [|a s IH]; [done|]. cbn in Hs. apply andb_true_iff in Hs as [Ha Hs]. cbn [rstrip_by].
    rewrite IH by done. each_digit Ha; by destruct s. }
  destruct s as [|a s]; [done|]. cbn in Hs. apply andb_true_iff in Hs as [Ha _]. each_digit Ha; done.
Qed.

Lemma int_of_digits n : 0 <= n -> int_of_text (str_of_Z n) = Ok n.
Proof.
  intros Hn. unfold str_of_Z. rewrite (proj2 (Z.ltb_ge _ _) Hn). unfold int_of_text. pose proof (digits_all n) as Hd.
  rewrite digits_strip by done. pose proof (parse_digits_digits 10 n ltac:(lia) Hn) as Hp. revert Hd Hp.
  destruct (digits 10 n) as [|a s]; [done|]. intros [Ha Hs]%andb_true_iff Hp.
  assert (signed_digits (String a s) = int_digits true 0 (String a s)) as ->.
  { unfold signed_digits. assert (Ascii.eqb a "-" = false /\ Ascii.eqb a "+" = false) as [-> ->] by (clear -Ha; each_digit Ha; done).
    cbn [int_digits]. by rewrite Ha. }
  rewrite int_digits_parse by (by apply andb_true_iff). unfold parse_digits in Hp. by rewrite Hp.
Qed.

(** * Safetensors files *)

(** ** The size *)
Lemma pack_size_length n : length (pack_size n) = 8%nat.
Proof. done. Qed.

Lemma low_byte n : Z.land n 255 = n mod 256.
Proof. exact (Z.land_ones n 8 ltac:(lia)). Qed.

Lemma packed_size n : 0 <= n < 2 ^ 64 -> fold_right (fun b acc => b + 256 * acc) 0 (pack_size n) = n.
Proof.
  intros Hn. unfold pack_size. cbn [map fold_right]. rewrite !low_byte, !Z.shiftr_div_pow2 by lia.
  change (8 * 0) with 0. change (8 * 1) with 8. change (8 * 2) with (8 + 8). change (8 * 3) with (8 + 8 + 8).
  change (8 * 4) with (8 + 8 + 8 + 8). change (8 * 5) with (8 + 8 + 8 + 8 + 8). change (8 * 6) with (8 + 8 + 8 + 8 + 8 + 8).
  change (8 * 7) with (8 + 8 + 8 + 8 + 8 + 8 + 8). rewrite !Z.pow_add_r by lia. rewrite <- !Z.div_div by lia.
  change (2 ^ 0) with 1. rewrite Z.div_1_r. change (2 ^ 8) with 256.
  assert (n / 256 / 256 / 256 / 256 / 256 / 256 / 256 < 256) as Hlast.
  { rewrite !Z.div_div by lia. apply Z.div_lt_upper_bound; [lia|]. change (2 ^ 64) with (256 * 256 * 256 * 256 * 256 * 256 * 256 * 256) in Hn. lia. }
  assert (0 <= n / 256 / 256 / 256 / 256 / 256 / 256 / 256) as Hpos by (repeat (apply Z.div_pos; [|lia]); lia).
  rewrite (Z.mod_small (n / 256 / 256 / 256 / 256 / 256 / 256 / 256)) by lia.
  repeat match goal with |- context [?x mod 256 + 256 * (?x / 256 + 256 * 0)] => replace (x mod 256 + 256 * (x / 256 + 256 * 0)) with x by (pose proof (Z.div_mod x 256 ltac:(lia)); lia) end.
  repeat match goal with |- context [?x mod 256 + 256 * (?x / 256)] => replace (x mod 256 + 256 * (x / 256)) with x by (pose proof (Z.div_mod x 256 ltac:(lia)); lia) end.
  done.
Qed.

Section file.
Context (body tail : list Z) (Hsize : Z.of_nat (length body) < 2 ^ 64).
Notation data := (pack_size (Z.of_nat (length body)) ++ body ++ tail).

Lemma packed_header_size : header_size data = Z.of_nat (length body).
Proof.
  unfold header_size. rewrite take_app_length' by done. apply packed_size. lia.
Qed.

Lemma packed_header : header_bytes data = body.
Proof. unfold header_bytes. rewrite packed_header_size, drop_app_length' by done. by rewrite Nat2Z.id, take_app_length. Qed.

Lemma packed_tensors : tensor_bytes data = tail.
Proof. unfold tensor_bytes. rewrite packed_header_size, drop_app_length' by done. by rewrite Nat2Z.id, drop_app_length. Qed.
End file.

(** ** The header *)
Fixpoint spaces (n : nat) : string :=
  match n with
  | O => ""
  | Datatypes.S m => String " " (spaces m)
  end.

Lemma spaces_space n : str_forallb is_json_space (spaces n) = true.
Proof. by induction n. Qed.

Lemma utf8_spaces n : utf8 (spaces n) = repeat 32 n.
Proof. induction n as [|n IH]; [done|]. simpl. by rewrite <- IH. Qed.

Lemma padded_reads header : printable header = true -> loads_bytes (padded (utf8 (canonical_json header))) = Ok (arranged true header).
Proof.
  intros Hp. unfold padded. rewrite <- utf8_spaces. unfold loads_bytes.
  rewrite (decode_utf8_app _ _ _ (decode_utf8_utf8 _)). cbn [rbind]. rewrite canonical_dumps.
  by apply (loads_dumps_space "" "" true _ _ eq_refl eq_refl); [|apply spaces_space].
Qed.

Lemma padded_length body : Z.of_nat (length (padded body)) mod 8 = 0.
Proof.
  unfold padded. rewrite length_app, repeat_length, Nat2Z.inj_add, Z2Nat.id by (apply Z.mod_pos_bound; lia).
  rewrite Zplus_mod_idemp_r. by rewrite Z.add_opp_diag_r.
Qed.

(** What a rewritten file has: the same object as its header, and the same tensors. *)
Definition rewritten (data out : list Z) (header : val) : Prop :=
  canonical_safetensors data = Ok out /\ loads_bytes (header_bytes out) = Ok (arranged true header) /\
  tensor_bytes out = tensor_bytes data /\ header_size out mod 8 = 0.

Definition canonical_body (header : val) : list Z := padded (utf8 (canonical_json header)).

Lemma canonical_file data header : loads_bytes (header_bytes data) = Ok header ->
  canonical_safetensors data = Ok (pack_size (Z.of_nat (length (canonical_body header))) ++ canonical_body header ++ tensor_bytes data).
Proof. intros Hh. unfold canonical_safetensors. by rewrite Hh. Qed.

Lemma canonical_rewrites data header : loads_bytes (header_bytes data) = Ok header -> printable header = true ->
  Z.of_nat (length (canonical_body header)) < 2 ^ 64 -> exists out, rewritten data out header.
Proof.
  intros Hh Hp Hsize. eexists. split; [by apply canonical_file|]. rewrite packed_header, packed_tensors, packed_header_size by done.
  split; [by apply padded_reads|]. split; [done|apply padded_length].
Qed.

(** Two files with the same header, as an object, and the same tensors. *)
Definition same_contents (d1 d2 : list Z) : Prop :=
  exists h1 h2, loads_bytes (header_bytes d1) = Ok h1 /\ loads_bytes (header_bytes d2) = Ok h2 /\
    printable h1 = true /\ arranged true h1 = arranged true h2 /\ tensor_bytes d1 = tensor_bytes d2.

(** Two writings of the same tensors and metadata, whatever the order of the keys in their headers,
    are rewritten to the same bytes; the rewritten file holds the same header and the same tensors, which
    stay aligned to eight bytes, and rewriting it changes nothing more. *)
Theorem canonical_artifacts_are_reproducible d1 d2 : same_contents d1 d2 ->
  (forall h, loads_bytes (header_bytes d1) = Ok h -> Z.of_nat (length (canonical_body h)) < 2 ^ 64) ->
  exists out, canonical_safetensors d1 = Ok out /\ canonical_safetensors d2 = Ok out /\ canonical_safetensors out = Ok out /\
    tensor_bytes out = tensor_bytes d1 /\ header_size out mod 8 = 0 /\
    loads_bytes (header_bytes out) = (let? h := loads_bytes (header_bytes d1) in Ok (arranged true h)).
Proof.
  intros (h1 & h2 & E1 & E2 & Hp & Hh & Ht) Hsize. specialize (Hsize _ E1).
  assert (canonical_body h2 = canonical_body h1) as Hb.
  { unfold canonical_body. by rewrite <- (canonical_arranged h2), <- Hh, canonical_arranged. }
  pose proof (canonical_file _ _ E1) as C1. pose proof (canonical_file _ _ E2) as C2. rewrite Hb, <- Ht in C2.
  destruct (canonical_rewrites _ _ E1 Hp Hsize) as (out & C & Hread & Htail & Halign).
  rewrite <- C1, C in C2. exists out. split; [done|]. split; [done|]. split.
  - rewrite (canonical_file _ _ Hread), Htail. unfold canonical_body. rewrite canonical_arranged. by rewrite <- C, C1.
  - split; [done|]. split; [done|]. by rewrite E1.
Qed.

(** * Fitted models *)

(** ** What fitting establishes *)
Ltac ok_step H := match type of H with
  | rbind ?m _ = Ok _ => let E := fresh "E" in destruct m eqn:E; [cbn [rbind] in H|discriminate H]
  end.

Definition positive (s : float) : Prop := num_leb (PFloat s) (PInt 0) = false.

Lemma floored_positive x : positive (f_max _STD_FLOOR x).
Proof.
  unfold positive, f_max. destruct (f_ltb _STD_FLOOR x) eqn:E; [|done].
  destruct (num_leb (PFloat x) (PInt 0)) eqn:E0; [|done]. unfold f_ltb in E.
  assert (num_leb (PFloat _STD_FLOOR) (PFloat x) = true) as Hle.
  { rewrite leb_compare. unfold num_ltb in E. destruct (num_compare _ _) as [[]|]; done. }
  pose proof (num_leb_trans _ _ _ Hle E0) as H. by vm_compute in H.
Qed.

Lemma deviation_positive square rows i m s : deviation_of square rows i m = Ok s -> positive s.
Proof.
  unfold deviation_of. intros H. do 4 ok_step H. injection H as <-. apply floored_positive.
Qed.

(** What a fitted autoencoder has of its schema, and of its training. *)
Definition fitted_for (schema_file : string -> option (list Z)) (schema : string) (h : Hyperparameters) (m : FittedLstm) : Prop :=
  fitted_schema m = schema /\ feature_schema_sha256 schema_file schema = Ok (fitted_schema_sha256 m) /\
  expected_feature_names schema = Ok (fitted_names m) /\ dimensions m = h /\
  length (fitted_mean m) = length (fitted_names m) /\ length (fitted_std m) = length (fitted_names m) /\ Forall positive (fitted_std m).

Lemma fit_lstm_facts log1p square errors_of train schema_file schema sequences seed h m :
  fit_lstm log1p square errors_of train schema_file schema sequences seed h = Ok m -> fitted_for schema_file schema h m.
Proof.
  unfold fit_lstm. intros H. ok_step H. destruct (expected_feature_names schema) as [names|] eqn:En; [|done]. cbn [rbind] in H.
  ok_step H. cbv zeta in H. destruct (means _ _) as [mean|] eqn:Em; [|done]. cbn [rbind] in H.
  destruct (deviations _ _ _) as [std|] eqn:Es; [|done]. cbn [rbind] in H. do 5 ok_step H.
  match type of H with (let '(_, _) := ?p in _) = _ => destruct p as [low high] end. injection H as <-.
  unfold means, deviations in *. pose proof (mapR_length _ _ _ Em) as Hl. pose proof (mapR_length _ _ _ Es) as Hs.
  rewrite length_seq in Hl. rewrite length_imap, Hl in Hs. unfold fitted_for. cbn. repeat (split; [done|]).
  eapply mapR_Forall; [exact Es|]. intros [i x] y. apply deviation_positive.
Qed.

(** ** The loader's checks *)
Definition meets_contract (schema_file : string -> option (list Z)) (schema : string) (c : Calibrated) : Prop :=
  feature_schema c = schema /\ feature_schema_sha256 schema_file schema = Ok (model_schema_sha256 c) /\
  exists names, expected_feature_names schema = Ok names /\ feature_names c = map VStr names.

Definition ordered_interval (c : Calibrated) : Prop :=
  f_finite (calibration_low c) = true /\ f_finite (calibration_high c) = true /\
  num_leb (PFloat (calibration_high c)) (PFloat (calibration_low c)) = false.

Lemma texts_py_eq l : py_eq (VList (map VStr l)) (VList (map VStr l)) = true.
Proof. induction l as [|s l IH]; [done|]. cbn in IH |- *. by rewrite String.eqb_refl, IH. Qed.

Lemma contract_loads schema_file schema c : meets_contract schema_file schema c ->
  forall actual, feature_schema_sha256 schema_file schema = Ok actual -> check_loaded schema actual c = Ok tt <-> ordered_interval c.
Proof.
  intros (Hs & Hh & names & Hn & Hf) actual Ha. rewrite Hh in Ha. injection Ha as <-.
  unfold check_loaded, ordered_interval. rewrite Hs, Hn, Hf. cbn [rbind]. rewrite texts_py_eq, !String.eqb_refl.
  destruct (f_finite (calibration_low c)), (f_finite (calibration_high c)); simpl; try (split; [done|]; by intros (? & ? & ?)).
  destruct (num_leb _ _); simpl; [split; [done|by intros (? & ? & ?)]|done].
Qed.

Lemma fit_forest_facts fit_pipeline quantiles schema_file schema vectors seed n contamination m :
  fit_forest fit_pipeline quantiles schema_file schema vectors seed n contamination = Ok m -> meets_contract schema_file schema (forest m).
Proof.
  unfold fit_forest. intros H. do 4 ok_step H. destruct (quantiles _) as [low high]. destruct (interval low high) as [l h].
  destruct (feature_schema_sha256 schema_file schema) as [hash|e] eqn:Eh.
  - destruct (expected_feature_names schema) as [names|e] eqn:En; cbn in H.
    + injection H as <-. unfold meets_contract. cbn. eauto.
    + by destruct (is_schema_error e).
  - cbn in H. by destruct (is_schema_error e).
Qed.

(** A fitted model declares the feature contract of the repository it was fitted in, so the loader
    refuses it for its contract only in a repository with another one, and otherwise exactly when its
    calibration is not a finite, ordered interval. *)
Theorem fitted_models_meet_the_loader log1p square errors_of train fit_pipeline quantiles schema_file schema c :
  (exists sequences seed h m, fit_lstm log1p square errors_of train schema_file schema sequences seed h = Ok m /\
     c = recurrent (lstm_model log1p errors_of m)) \/
  (exists vectors seed n contamination m, fit_forest fit_pipeline quantiles schema_file schema vectors seed n contamination = Ok m /\ c = forest m) ->
  feature_schema_sha256 schema_file schema = Ok (model_schema_sha256 c) /\
  forall actual, feature_schema_sha256 schema_file schema = Ok actual -> check_loaded schema actual c = Ok tt <-> ordered_interval c.
Proof.
  intros Hc. assert (meets_contract schema_file schema c) as H.
  { destruct Hc as [(sequences & seed & h & m & Hm & ->)|(vectors & seed & n & contamination & m & Hm & ->)].
    - destruct (fit_lstm_facts _ _ _ _ _ _ _ _ _ _ Hm) as (Hs & Hh & Hn & _). unfold meets_contract. cbn. eauto.
    - by apply fit_forest_facts in Hm. }
  split; [apply H|]. by apply contract_loads.
Qed.

(** ** Reading an artifact back *)

(** What safetensors documents: a file keeps its metadata and its tensors, and reading it does not depend on
    the order of its header.  A network does not depend on the order its tensors are listed in. *)
Class SafetensorsLaws (save : tensors -> mapping -> list Z) (load : list Z -> result tensors) (savable : tensors -> mapping -> Prop) : Prop := {
  saved_header t m : savable t m -> exists h m', loads_bytes (header_bytes (save t m)) = Ok (VDict h) /\ printable (VDict h) = true /\
    assoc "__metadata__" h = Some (VDict m') /\ m' ≡ₚ m;
  loaded_tensors t m h data : savable t m -> loads_bytes (header_bytes (save t m)) = Ok h -> loads_bytes (header_bytes data) = Ok (arranged true h) ->
    tensor_bytes data = tensor_bytes (save t m) -> exists t', load data = Ok t' /\ t' ≡ₚ t }.

Class NetworkLaws (errors_of : tensors -> Z -> Z -> Z -> list matrix -> result (list float)) : Prop :=
  errors_by_name t t' T h l batch : t ≡ₚ t' -> errors_of t T h l batch = errors_of t' T h l batch.

(** The names a state has to leave to the preprocessing. *)
Definition reserved : list string := ["preprocess.mean"; "preprocess.std"; "calibration"].

Definition proper_state (t : tensors) : Prop := NoDup t.*1 /\ Forall (fun name => name ∉ t.*1) reserved.

Lemma artifact_tensors_app m : proper_state (state m) ->
  artifact_tensors m = state m ++ [("preprocess.mean", fitted_mean m); ("preprocess.std", fitted_std m); ("calibration", [fitted_low m; fitted_high m])]
  /\ NoDup (artifact_tensors m).*1.
Proof.
  intros [Hnd Hr]. unfold reserved in Hr. rewrite !Forall_cons in Hr. destruct Hr as (H1 & H2 & H3 & _).
  assert (artifact_tensors m = state m ++ [("preprocess.mean", fitted_mean m); ("preprocess.std", fitted_std m); ("calibration", [fitted_low m; fitted_high m])]) as ->.
  { unfold artifact_tensors. rewrite (assoc_set_fresh "preprocess.mean") by done.
    rewrite (assoc_set_fresh "preprocess.std") by (rewrite fmap_app; cbn; set_solver).
    rewrite (assoc_set_fresh "calibration") by (rewrite !fmap_app; cbn; set_solver). by rewrite <- !app_assoc. }
  split; [done|]. rewrite fmap_app. cbn. apply NoDup_app. split; [done|]. split; [set_solver|].
  repeat (apply NoDup_cons; split; [set_solver|]). apply NoDup_nil_2.
Qed.

Lemma assoc_del_perm {A} k (l1 l2 : list (string * A)) : l1 ≡ₚ l2 -> assoc_del k l1 ≡ₚ assoc_del k l2.
Proof. intros H. unfold assoc_del. by rewrite H. Qed.

Lemma NoDup_assoc_del {A} k (l : list (string * A)) : NoDup l.*1 -> NoDup (assoc_del k l).*1.
Proof.
  intros H. unfold assoc_del. induction l as [|[k' v] l IH]; [done|]. cbn in H. apply NoDup_cons in H as [Hk Hl].
  rewrite filter_cons. destruct (decide _); cbn; [|by apply IH]. apply NoDup_cons. split; [|by apply IH].
  intros Hin. apply Hk. apply list_elem_of_fmap in Hin as (y & -> & Hin). apply list_elem_of_filter in Hin as [_ Hin].
  by apply list_elem_of_fmap_2.
Qed.

Lemma pop_perm name v (t l : tensors) : NoDup l.*1 -> t ≡ₚ l -> assoc name l = Some v -> exists t', pop name t = Ok (v, t') /\ t' ≡ₚ assoc_del name l.
Proof.
  intros Hnd Hp Hv. unfold pop. rewrite <- (assoc_perm name l t Hnd (symmetry Hp)), Hv. eexists. split; [done|]. by apply assoc_del_perm.
Qed.

Lemma preprocessing_of m t : proper_state (state m) -> t ≡ₚ artifact_tensors m ->
  exists st, preprocessing t = Ok (fitted_mean m, fitted_std m, (fitted_low m, fitted_high m), st) /\ st ≡ₚ state m.
Proof.
  intros Hst Hp. destruct (artifact_tensors_app m Hst) as [E Hnd]. destruct Hst as [Hnds Hr].
  unfold reserved in Hr. rewrite !Forall_cons in Hr. destruct Hr as (H1 & H2 & H3 & _).
  pose proof (proj2 (assoc_None _ _) H1) as N1. pose proof (proj2 (assoc_None _ _) H2) as N2. pose proof (proj2 (assoc_None _ _) H3) as N3.
  rewrite E in Hp, Hnd. unfold preprocessing.
  destruct (pop_perm "preprocess.mean" (fitted_mean m) t _ Hnd Hp) as (t1 & -> & Hp1); [by rewrite assoc_app, N1|]. cbn [rbind].
  pose proof (NoDup_assoc_del "preprocess.mean" _ Hnd) as Hnd1.
  destruct (pop_perm "preprocess.std" (fitted_std m) t1 _ Hnd1 Hp1) as (t2 & -> & Hp2).
  { unfold assoc_del. rewrite filter_app. fold (assoc_del "preprocess.mean" (state m)). rewrite (assoc_del_absent _ _ N1), assoc_app, N2. done. }
  cbn [rbind]. pose proof (NoDup_assoc_del "preprocess.std" _ Hnd1) as Hnd2.
  assert (assoc_del "preprocess.std" (assoc_del "preprocess.mean" (state m ++ [("preprocess.mean", fitted_mean m); ("preprocess.std", fitted_std m);
    ("calibration", [fitted_low m; fitted_high m])])) = state m ++ [("calibration", [fitted_low m; fitted_high m])]) as E2.
  { unfold assoc_del. rewrite !filter_app. fold (assoc_del "preprocess.mean" (state m)). rewrite (assoc_del_absent _ _ N1).
    fold (assoc_del "preprocess.std" (state m)). by rewrite (assoc_del_absent _ _ N2). }
  rewrite E2 in Hp2, Hnd2. destruct (pop_perm "calibration" [fitted_low m; fitted_high m] t2 _ Hnd2 Hp2) as (t3 & -> & Hp3); [by rewrite assoc_app, N3|].
  exists t3. split; [done|]. rewrite Hp3. unfold assoc_del. rewrite filter_app. fold (assoc_del "calibration" (state m)). by rewrite (assoc_del_absent _ _ N3), app_nil_r.
Qed.

(** ** The metadata of an artifact *)
Section metadata.
Context (m : FittedLstm).
Notation h := (dimensions m).
Context (Hlength : 0 <= fitted_length h) (Hhidden : 0 <= hidden h) (Hlatent : 0 <= latent h).

Lemma metadata_NoDup : NoDup (artifact_metadata m).*1.
Proof. by apply (bool_decide_unpack _). Qed.

Lemma metadata_item meta k v : meta ≡ₚ artifact_metadata m -> assoc k (artifact_metadata m) = Some v -> item k meta = Ok v.
Proof. intros Hp Hv. unfold item. by rewrite <- (assoc_perm k _ _ metadata_NoDup (symmetry Hp)), Hv. Qed.

Lemma names_read : loads_bytes (utf8 (dumps ", " ": " false (VList (map VStr (fitted_names m))))) = Ok (VList (map VStr (fitted_names m))).
Proof.
  unfold loads_bytes. rewrite decode_utf8_utf8. cbn [rbind]. rewrite (loads_dumps " " " " false _ eq_refl eq_refl).
  - cbn [arranged]. rewrite map_map. done.
  - cbn. induction (fitted_names m) as [|s l IH]; done.
Qed.

Lemma fields_of meta : meta ≡ₚ artifact_metadata m -> artifact_fields loads_bytes meta =
  Ok (map VStr (fitted_names m), (fitted_length h, hidden h, latent h), (fitted_schema m, fitted_schema_sha256 m)).
Proof.
  intros Hp. unfold artifact_fields.
  rewrite (metadata_item meta "feature_names" _ Hp eq_refl), (metadata_item meta "sequence_length" _ Hp eq_refl), (metadata_item meta "hidden_size" _ Hp eq_refl),
    (metadata_item meta "latent_size" _ Hp eq_refl), (metadata_item meta "feature_schema" _ Hp eq_refl), (metadata_item meta "feature_schema_sha256" _ Hp eq_refl).
  cbn [rbind str_val]. rewrite names_read. cbn [rbind py_iter int_of_val]. by rewrite !int_of_digits by done.
Qed.
End metadata.

Lemma sorted_metadata (d m : mapping) : assoc "__metadata__" d = Some (VDict m) -> forallb (fun kv => Registry.is_str kv.2) m = true -> NoDup d.*1 ->
  exists m', assoc "__metadata__" (arrange true (map (fun kv => (kv.1, arranged true kv.2)) d)) = Some (VDict m') /\ m' ≡ₚ m.
Proof.
  intros Hd Hs Hnd. exists (arrange true m). split; [|apply arrange_perm].
  assert ((map (fun kv => (kv.1, arranged true kv.2)) d).*1 = d.*1) as Hk by (clear; induction d as [|kv d IH]; [done|]; cbn; by f_equal).
  rewrite <- (assoc_perm _ (map (fun kv => (kv.1, arranged true kv.2)) d)); [|by rewrite Hk|by rewrite arrange_perm].
  assert (arranged true (VDict m) = VDict (arrange true m)) as <-.
  { cbn. do 2 f_equal. clear -Hs. induction m as [|[k v] m IH]; [done|]. cbn in Hs |- *. apply andb_true_iff in Hs as [Hv Hs].
    rewrite (IH Hs). by destruct v. }
  clear -Hd. revert Hd. generalize "__metadata__" as key. intros key Hd.
  induction d as [|[k v] d IH]; [done|]. cbn in Hd |- *. destruct (String.eqb key k); [by injection Hd as ->|by apply IH].
Qed.

(** ** The round trip *)

(** The model that was read is the model that was fitted. *)
Definition same_autoencoder (a b : SocLstmAutoencoder) : Prop :=
  recurrent a = recurrent b /\ window_count a = window_count b /\ hidden_size a = hidden_size b /\ latent_size a = latent_size b /\
  mean a = mean b /\ std a = std b /\ forall rows, reconstruct a rows = reconstruct b rows.

(** What [from_safetensors] rebuilds a network from. *)
Definition rebuilt log1p errors_of (names : list val) (mean std : list float) (t : tensors) (T h l : Z) (m : matrix) : result float :=
  lstm_network log1p errors_of (map str_val names) mean std t T h l m.

Definition supported (h : Hyperparameters) : Prop := 2 <= fitted_length h <= 288 /\ 1 <= latent h <= hidden h /\ hidden h <= 512.

Lemma metadata_of_file d meta tail : printable (VDict d) = true -> Z.of_nat (length (canonical_body (VDict d))) <= 16 * 1024 * 1024 ->
  assoc "__metadata__" (arrange true (map (fun kv => (kv.1, arranged true kv.2)) d)) = Some (VDict meta) ->
  forallb (fun kv => Registry.is_str kv.2) meta = true ->
  read_safetensors_metadata loads_bytes (pack_size (Z.of_nat (length (canonical_body (VDict d)))) ++ canonical_body (VDict d) ++ tail) = Ok meta.
Proof.
  intros Hp Hsize Hassoc Hstr. unfold read_safetensors_metadata.
  fold (header_bytes (pack_size (Z.of_nat (length (canonical_body (VDict d)))) ++ canonical_body (VDict d) ++ tail)).
  rewrite packed_header, packed_header_size, !length_app, pack_size_length by lia.
  rewrite (proj2 (Z.ltb_ge _ 8)), (proj2 (Z.ltb_ge (16 * 1024 * 1024) _)), (proj2 (Z.ltb_ge _ (8 + _))) by lia. cbn [raise_if orb rbind].
  unfold canonical_body. rewrite padded_reads by done. cbn [try_except rbind arranged get_attr]. rewrite Hassoc. cbn [default rbind id]. by rewrite Hstr.
Qed.

(** What is read of metadata, tensors and dimensions makes the model. *)
Lemma model_of_parts log1p errors_of load (m : FittedLstm) data meta t `{!NetworkLaws errors_of} :
  read_safetensors_metadata loads_bytes data = Ok meta -> meta ≡ₚ artifact_metadata m -> load data = Ok t -> t ≡ₚ artifact_tensors m ->
  proper_state (state m) -> supported (dimensions m) -> length (fitted_mean m) = length (fitted_names m) ->
  length (fitted_std m) = length (fitted_names m) -> Forall positive (fitted_std m) ->
  exists r, from_safetensors loads_bytes load (rebuilt log1p errors_of) data = Ok r /\ same_autoencoder r (lstm_model log1p errors_of m).
Proof.
  intros Hmd Hmp Ht Htp Hstate (HT & Hl & Hh) Hmean Hstd Hpos. destruct (preprocessing_of m t Hstate Htp) as (st & Hst & Hstp).
  eexists. unfold from_safetensors. rewrite Hmd. cbn [rbind].
  assert (py_eq (get "format" meta) (VStr "cxyz-lstm-autoencoder-v1") = true) as ->.
  { unfold get. by rewrite <- (assoc_perm "format" _ _ (metadata_NoDup m) (symmetry Hmp)). }
  rewrite (fields_of m ltac:(lia) ltac:(lia) ltac:(lia) meta Hmp). cbn [negb raise_if rbind].
  rewrite !(proj2 (Z.leb_le _ _)) by lia. cbn [andb negb raise_if rbind]. rewrite Ht. cbn [rbind]. rewrite Hst. cbn [rbind].
  rewrite Hmean, Hstd, length_map, Nat.eqb_refl. cbn [negb orb].
  assert (existsb (fun s => num_leb (PFloat s) (PInt 0)) (fitted_std m) = false) as ->.
  { clear -Hpos. induction Hpos as [|s l Hs _ IH]; [done|]. cbn [existsb]. unfold positive in Hs. by rewrite Hs, IH. }
  cbn [raise_if rbind]. split; [reflexivity|]. unfold same_autoencoder. repeat (split; [done|]). intros rows.
  cbn [reconstruct lstm_model]. unfold rebuilt. rewrite map_map, map_id. unfold lstm_network.
  destruct (_tensor _ _ _ _ _) as [batch|]; [|done]. cbn [rbind]. by rewrite (errors_by_name st (state m)).
Qed.

(** C39: The artifact a fitted autoencoder is written to is read back as that autoencoder, with its
    contract, its calibration, its preprocessing and the scores of its network, when its dimensions are
    the supported ones and its header fits the limit of the reader. *)
Theorem artifacts_load_back log1p square errors_of train schema_file schema sequences seed h m save load savable
    `{!SafetensorsLaws save load savable} `{!NetworkLaws errors_of} :
  fit_lstm log1p square errors_of train schema_file schema sequences seed h = Ok m -> supported h -> proper_state (state m) ->
  savable (artifact_tensors m) (artifact_metadata m) ->
  (forall header, loads_bytes (header_bytes (save (artifact_tensors m) (artifact_metadata m))) = Ok header ->
     Z.of_nat (length (canonical_body header)) <= 16 * 1024 * 1024) ->
  exists data r, to_safetensors save m = Ok data /\ from_safetensors loads_bytes load (rebuilt log1p errors_of) data = Ok r /\
    same_autoencoder r (lstm_model log1p errors_of m).
Proof.
  intros Hfit Hdims Hstate Hsave Hsize.
  destruct (fit_lstm_facts _ _ _ _ _ _ _ _ _ _ Hfit) as (_ & _ & _ & Hdim & Hmean & Hstd & Hpos). rewrite <- Hdim in Hdims.
  destruct (saved_header _ _ Hsave) as (d & m' & Hd & Hp & Hmeta & Hm'). specialize (Hsize _ Hd).
  destruct (canonical_rewrites _ _ Hd Hp) as (data & Hdata & Hread & Htail & _); [lia|].
  destruct (loaded_tensors _ _ _ data Hsave Hd Hread Htail) as (t & Ht & Htp).
  assert (NoDup d.*1) as Hnd by (cbn in Hp; apply andb_true_iff in Hp as [Hnd%bool_decide_eq_true _]; exact Hnd).
  assert (forall d' : mapping, d' ≡ₚ artifact_metadata m -> forallb (fun kv => Registry.is_str kv.2) d' = true) as Hstr.
  { intros d' Hd'. apply forallb_forall. intros kv Hin%list_elem_of_In. rewrite Hd' in Hin. unfold artifact_metadata in Hin.
    rewrite !elem_of_cons, elem_of_nil in Hin. by destruct Hin as [->|[->|[->|[->|[->|[->|[->|[]]]]]]]]. }
  destruct (sorted_metadata d m' Hmeta (Hstr _ Hm') Hnd) as (meta & Hassoc & Hmp). rewrite Hm' in Hmp.
  pose proof (canonical_file _ _ Hd) as Hform. pose proof (fun tail => metadata_of_file d meta tail Hp Hsize Hassoc (Hstr _ Hmp)) as Hmd.
  destruct (model_of_parts log1p errors_of load m data meta t) as (r & Hr & Hsame); try done.
  - rewrite Hdata in Hform. injection Hform as ->. apply Hmd.
  - by exists data, r.
Qed.

(** ** An autoencoder of endpoint windows *)
Definition flat_matrix (i : Z) : matrix := repeat (repeat (float_of_Z i) (length ENDPOINT_FEATURES)) 2.
Definition sample_sequences : list matrix := map flat_matrix [0; 1; 2; 3].
Definition sample_dimensions : Hyperparameters :=
  {| epochs := 1; hidden := 16; latent := 4; learning_rate := int_truediv 1 100; batch_size := 64; fitted_length := 2 |}.

(** A network whose errors are the places in the batch, times its number of tensors. *)
Definition counting_errors (t : tensors) (T h l : Z) (batch : list matrix) : result (list float) :=
  Ok (imap (fun i _ => float_of_Z (Z.of_nat i * Z.of_nat (length t))) batch).
Definition one_tensor (seed epochs : Z) (rate : float) (batch_size width T h l : Z) (batch : list matrix) : result tensors :=
  Ok [("encoder.weight_ih_l0", [f_one])].

#[export] Instance counting_laws : NetworkLaws counting_errors.
Proof. intros t t' T h l batch Hp. unfold counting_errors. by rewrite (Permutation_length Hp). Qed.

Notation sample_fit := (fit_lstm (fun x => x) (fun x => Ok (f_mul x x)) counting_errors one_tensor sample_schema_file "endpoint-window-v1" sample_sequences 7 sample_dimensions).

Definition sample_autoencoder : FittedLstm :=
  Eval vm_compute in match sample_fit with Ok m => m | Err _ => {| fitted_schema := ""; fitted_schema_sha256 := ""; fitted_names := []; dimensions := sample_dimensions;
    fitted_mean := []; fitted_std := []; fitted_low := f_zero; fitted_high := f_zero; state := [] |} end.

Lemma sample_fit_ok : sample_fit = Ok sample_autoencoder.
Proof. by vm_compute. Qed.

(** A container whose header has the tensors' names before the metadata. *)
Definition sample_header (t : tensors) (m : mapping) : val :=
  VDict (map (fun nv => (nv.1, VDict [("shape", VList [VInt (Z.of_nat (length nv.2))]); ("dtype", VStr "F64")])) t ++ [("__metadata__", VDict m)]).
Definition sample_save (t : tensors) (m : mapping) : list Z :=
  let body := utf8 (dumps "," ":" false (sample_header t m)) in pack_size (Z.of_nat (length body)) ++ body ++ repeat 0 16.
Definition sample_tensors (data : list Z) : result tensors := Ok (reverse (artifact_tensors sample_autoencoder)).
Definition sample_savable (t : tensors) (m : mapping) : Prop := t = artifact_tensors sample_autoencoder /\ m = artifact_metadata sample_autoencoder.

Lemma sample_saved : loads_bytes (header_bytes (sample_save (artifact_tensors sample_autoencoder) (artifact_metadata sample_autoencoder))) =
  Ok (sample_header (artifact_tensors sample_autoencoder) (artifact_metadata sample_autoencoder)).
Proof. by vm_compute. Qed.

#[export] Instance sample_safetensors : SafetensorsLaws sample_save sample_tensors sample_savable.
Proof.
  split.
  - intros t m [-> ->]. eexists _, _. split; [exact sample_saved|]. split; [by vm_compute|]. split; [by vm_compute|]. done.
  - intros t m h data [-> ->] _ _ _. eexists. split; [done|]. apply reverse_Permutation.
Qed.

Lemma sample_header_fits : Z.of_nat (length (canonical_body (sample_header (artifact_tensors sample_autoencoder) (artifact_metadata sample_autoencoder)))) <= 16 * 1024 * 1024.
Proof. by vm_compute. Qed.

Lemma artifacts_load_back_witness : exists data r, to_safetensors sample_save sample_autoencoder = Ok data /\
  from_safetensors loads_bytes sample_tensors (rebuilt (fun x => x) counting_errors) data = Ok r /\
  same_autoencoder r (lstm_model (fun x => x) counting_errors sample_autoencoder).
Proof.
  apply (artifacts_load_back _ _ _ _ _ _ _ _ _ _ _ _ _ sample_fit_ok).
  - repeat split; vm_compute; discriminate.
  - split; [by apply (bool_decide_unpack _)|]. repeat constructor; by apply (bool_decide_unpack _).
  - split; reflexivity.
  - intros header Hh. rewrite sample_saved in Hh. injection Hh as <-. exact sample_header_fits.
Defined.

Lemma fitted_models_meet_the_loader_witness :
  feature_schema_sha256 sample_schema_file "endpoint-window-v1" = Ok (fitted_schema_sha256 sample_autoencoder) /\
  forall actual, feature_schema_sha256 sample_schema_file "endpoint-window-v1" = Ok actual ->
    check_loaded "endpoint-window-v1" actual (recurrent (lstm_model (fun x => x) counting_errors sample_autoencoder)) = Ok tt <->
    ordered_interval (recurrent (lstm_model (fun x => x) counting_errors sample_autoencoder)).
Proof.
  apply (fitted_models_meet_the_loader (fun x => x) (fun x => Ok (f_mul x x)) counting_errors one_tensor (fun _ _ _ _ => Err AssertionError) (fun _ => (f_zero, f_one))
    sample_schema_file "endpoint-window-v1" (recurrent (lstm_model (fun x => x) counting_errors sample_autoencoder))).
  left. exists sample_sequences, 7, sample_dimensions, sample_autoencoder. split; [exact sample_fit_ok|reflexivity].
Defined.

(** The same file with its two members in the other order. *)
Definition swapped_header (t : tensors) (m : mapping) : val :=
  VDict (("__metadata__", VDict m) :: map (fun nv => (nv.1, VDict [("dtype", VStr "F64"); ("shape", VList [VInt (Z.of_nat (length nv.2))])])) t).
Definition swapped_save (t : tensors) (m : mapping) : list Z :=
  let body := utf8 (dumps ", " ": " false (swapped_header t m)) in pack_size (Z.of_nat (length body)) ++ body ++ repeat 0 16.

Definition two_tensors : tensors := [("decoder.bias", [f_one; f_zero]); ("encoder.bias", [f_one])].
Definition short_metadata : mapping := [("format", VStr "cxyz-lstm-autoencoder-v1")].

Lemma swapped_same : same_contents (sample_save two_tensors short_metadata) (swapped_save two_tensors short_metadata).
Proof. eexists _, _. split; [by vm_compute|]. split; [by vm_compute|]. split; [by vm_compute|]. split; by vm_compute. Qed.

Lemma canonical_artifacts_are_reproducible_witness : exists out,
  canonical_safetensors (sample_save two_tensors short_metadata) = Ok out /\ canonical_safetensors (swapped_save two_tensors short_metadata) = Ok out /\
  canonical_safetensors out = Ok out /\ tensor_bytes out = tensor_bytes (sample_save two_tensors short_metadata) /\ header_size out mod 8 = 0 /\
  loads_bytes (header_bytes out) = (let? h := loads_bytes (header_bytes (sample_save two_tensors short_metadata)) in Ok (arranged true h)).
Proof.
  apply (canonical_artifacts_are_reproducible _ _ swapped_same). intros h Hh.
  assert (loads_bytes (header_bytes (sample_save two_tensors short_metadata)) = Ok (sample_header two_tensors short_metadata)) as E by by vm_compute.
  rewrite E in Hh. injection Hh as <-. by vm_compute.
Defined.

(** An interval of one point above 2^14: what is added to it is lost, and the division by its width fails. *)
Example collapsed_interval : interval (float_of_Z 16384) (float_of_Z 16384) = (float_of_Z 16384, float_of_Z 16384) /\
  calibrated_score {| feature_schema := ""; model_schema_sha256 := ""; feature_names := []; calibration_low := (interval (float_of_Z 16384) (float_of_Z 16384)).1;
                      calibration_high := (interval (float_of_Z 16384) (float_of_Z 16384)).2 |} f_one = Err (ZeroDivisionError "float division by zero").
Proof. split; by vm_compute. Qed.

Section loaders.
Context {W : Type}.
Variable read_bytes : string -> M W (option (list Z)).
Variable is_file : string -> M W bool.
Variable resolve : string -> bool * string.
Variable json_loads : list Z -> result val.
Variable provenance_valid : mapping -> bool.
Variable schema_file : string -> option (list Z).
Notation load joblib lstm := (load_approved_model read_bytes is_file resolve json_loads provenance_valid schema_file joblib lstm).

(** C13: no unapproved byte is ever deserialised.  Two pickle loaders and two tensor loaders that differ
    on any bytes but those a record with the trusted digest approves cannot be told apart by the
    loader, whatever the registry holds and however it changes between two reads. *)
Theorem only_approved_bytes_are_deserialised (joblib joblib' : list Z -> M W (option SocIsolationForest)) (lstm lstm' : list Z -> M W SocLstmAutoencoder) trusted :
  (forall d bytes s, trusted_record json_loads provenance_valid (default "" trusted) d -> approved_artifact d bytes -> joblib bytes s = joblib' bytes s) ->
  (forall d bytes s, trusted_record json_loads provenance_valid (default "" trusted) d -> approved_artifact d bytes -> lstm bytes s = lstm' bytes s) ->
  forall s, load joblib lstm trusted s = load joblib' lstm' trusted s.
Proof. intros Hj Hl. by apply load_agrees. Qed.

(** Every model the service has in its cache, after any requests in any order, was loaded from a
    record with the digest the deployment trusts, is approved, has the artifact that record names and
    the feature contract of the repository. *)
Theorem served_models_are_approved joblib lstm elapsed_ms trusted w s m :
  served (load joblib lstm trusted) elapsed_ms w s -> cached (provider s) = Some m ->
  loaded_from json_loads provenance_valid schema_file (default "" trusted) m.
Proof.
  intros Hs Hm. pose proof (served_good (load joblib lstm trusted) elapsed_ms _ (load_returns _ _ _ _ _ _ _ _ trusted) w s Hs) as H.
  unfold cached_good in H. by rewrite Hm in H.
Qed.

(** The worker and the inference service agree.  Whatever requests the service has answered, a 200
    reply about a valid vector passes every check of the enrichment worker that trusts the same
    digest, unless the approved model is no Isolation Forest: then the worker refuses every reply. *)
Theorem inference_replies_meet_the_worker joblib lstm elapsed_ms conforms trusted `{ProvenanceLaws provenance_valid} w s r reply s' vector :
  (forall w ms w', elapsed_ms w = (Ok ms, w') -> f_finite ms = true) ->
  served (load joblib lstm trusted) elapsed_ms w s ->
  validate_vector schema_file conforms (VDict vector) = Ok tt -> get "feature_schema" vector = VStr (req_schema r) ->
  infer_request (load joblib lstm trusted) elapsed_ms r s = (Ok (200, VDict reply), s') ->
  check_result vector reply (default "" trusted) =
    if String.eqb (str_val (get "algorithm" reply)) "IsolationForest" then Ok tt else Err (refused "INVALID_MODEL_IDENTITY").
Proof.
  intros Hclock Hs Hv Hvs Hr. pose proof (load_returns read_bytes is_file resolve json_loads provenance_valid schema_file joblib lstm trusted) as Hl.
  destruct (infer_reply _ _ _ Hl r s (VDict reply) s' (served_good _ _ _ Hl w s Hs) Hr) as (m & score & anom & ms & w1 & w2 & Hg & Hsch & Hi & Hms & Hresp).
  rewrite Hsch in Hvs. by eapply reply_checked; eauto.
Qed.
End loaders.

(** Every reply to a request about an admissible entity is counted once: a 200 as a request served,
    a 422 or 503 as an error; and there is no other status. *)
Theorem inference_replies_are_counted {W} (load_model : M W ApprovedModel) elapsed_ms r s code d s' :
  entity_ok (req_schema r) (req_entity r) = true -> infer_request load_model elapsed_ms r s = (Ok (code, d), s') ->
  (code = 200 \/ code = 422 \/ code = 503) /\
  (requests (metrics s'), errors (metrics s')) =
    (if code =? 200 then (requests (metrics s) + 1, errors (metrics s)) else (requests (metrics s), errors (metrics s) + 1)).
Proof. intros He Hr. exact (infer_request_counted load_model elapsed_ms r He s code d s' Hr). Qed.

(** * Witnesses *)

Lemma only_approved_bytes_are_deserialised_witness :
  is_ok (sample_load_with sample_joblib tt).1 = true /\ is_ok (careful_joblib [] tt).1 = false /\
  forall s, sample_load_with sample_joblib s = sample_load_with careful_joblib s.
Proof.
  split; [by vm_compute|]. split; [by vm_compute|]. apply only_approved_bytes_are_deserialised; [|done].
  intros d bytes s Hd Ha. unfold careful_joblib. by rewrite (approved_is_forest d bytes Hd Ha), String.eqb_refl.
Defined.

Lemma served_models_are_approved_witness : exists m, cached (provider one_request) = Some m /\
  loaded_from sample_json_loads sample_provenance sample_schema_file record_hash m.
Proof.
  eexists. split; [by vm_compute|].
  apply (served_models_are_approved sample_read sample_is_file sample_resolve sample_json_loads sample_provenance sample_schema_file
    sample_joblib no_lstm sample_elapsed (Some record_hash) tt one_request); [apply one_request_served|by vm_compute].
Defined.

Lemma inference_replies_meet_the_worker_witness : exists reply s',
  infer_request sample_load sample_elapsed sample_request one_request = (Ok (200, VDict reply), s') /\ check_result sample_vector reply record_hash = Ok tt.
Proof.
  eexists _, _. split; [by vm_compute|].
  refine (inference_replies_meet_the_worker sample_read sample_is_file sample_resolve sample_json_loads sample_provenance sample_schema_file
    sample_joblib no_lstm sample_elapsed sample_conforms (Some record_hash) tt one_request sample_request _ _ sample_vector _ one_request_served sample_vector_valid _ _);
    [by intros ??? [= <- _]|done|by vm_compute].
Defined.

Lemma inference_replies_are_counted_witness : exists d s', infer_request sample_load sample_elapsed sample_request (new_api tt) = (Ok (200, d), s') /\
  (requests (metrics s'), errors (metrics s')) = (1, 0).
Proof.
  eexists _, _. split; [by vm_compute|].
  refine (proj2 (inference_replies_are_counted sample_load sample_elapsed sample_request (new_api tt) 200 _ _ _ _)); by vm_compute.
Defined.
