(* ===== verification/DeployProps.v ===== *)
(** Theorems about what is rendered for Path C and about the image checks ([Deploy.v]). *)

From S2P Require Import Prelude PyText PyNum PyTime PyJson JsonText Sha256 Policy Decision Signing Compliance PyRe Fabric Deploy RegistryProps FabricProps.

(** ** The settings *)
Definition is_domain_char (a : ascii) : bool := is_alnum a || Ascii.eqb a "-" || Ascii.eqb a ".".

Lemma up_to_over P n r : over_all P r -> over_all P (up_to n r).
Proof. intros H. induction n as [|n IH]; cbn; [done|]. by split. Qed.

Lemma domain_over : over_all (fun a => is_domain_char a = true) (cats [some (Cat label_re (lit ".")); label_re]).
Proof.
  assert (forall a, is_alnum a = true -> is_domain_char a = true) as H1 by (intros a H; unfold is_domain_char; by rewrite H).
  assert (forall a, Ascii.eqb "." a = true -> is_domain_char a = true) as H2
    by (intros a Ha%Ascii.eqb_eq; by subst a).
  assert (over_all (fun a => is_domain_char a = true) label_re) as Hl.
  { split; [done|]. split; [|done]. split; [|done]. apply up_to_over. intros a H. unfold is_domain_char. by rewrite H. }
  clear -Hl H2. cbn [cats foldr some many over_all lit]. repeat (split; try done).
Qed.

Lemma head_of_match c c' : path (cats [any; up_to 252 any; Finish]) c c' ->
  rest c <> "" /\ (String.length (rest c) <= 253 + String.length (rest c'))%nat /\ at_finish c' = true.
Proof.
  intros H. split; [|split].
  - inversion H as [| |? ? ? c1 ? H1 _| | | | | | | | | |]; subst. inversion H1 as [|? a t ? E _| | | | | | | | | | |]; subst. by rewrite E.
  - apply (path_width _ _ _ H 253). vm_compute. reflexivity.
  - inversion H as [| |? ? ? c1 ? _ H1| | | | | | | | | |]; subst. inversion H1 as [| |? ? ? c2 ? _ H2| | | | | | | | | |]; subst.
    inversion H2 as [| |? ? ? c3 ? H3 H4| | | | | | | | | |]; subst. inversion H4; subst. by inversion H3.
Qed.

Lemma domain_matched s : matched (re_fullmatch DOMAIN_RE s) = true ->
  str_forallb is_domain_char s = true /\ 0 < str_len s <= 253.
Proof.
  intros (c & Hp & Hr)%fullmatch_path.
  change DOMAIN_RE with (Cat (Ahead (cats [any; up_to 252 any; Finish])) (cats [some (Cat label_re (lit ".")); label_re])) in Hp.
  inversion Hp as [| |? ? ? c1 ? Ha Hd| | | | | | | | | |]; subst. inversion Ha as [| | | | | | | | | | | |? ? c' Hw]; subst.
  destruct (path_over_all _ _ _ _ Hd domain_over) as (w & E & Hall). rewrite Hr, app_nil_str in E. cbn in E. subst w.
  destruct (head_of_match _ _ Hw) as (Hn & Hl & Hf). destruct (path_suffix _ _ _ Hw) as (w & E). cbn [rest from_start] in *.
  split; [by apply str_all_forallb|].
  assert (rest c' = "") as Hc.
  { unfold at_finish in Hf. destruct (rest c') as [|a [|]]; [done| |done]. apply Ascii.eqb_eq in Hf. subst a s.
    apply str_all_app in Hall as [_ [Hall _]]. by vm_compute in Hall. }
  rewrite Hc in Hl. cbn in Hl. unfold str_len. destruct s as [|a s]; [done|]. cbn [String.length] in *. lia.
Qed.

(** The settings of Path C are within bounds whatever the file says: the domain is text of letters, digits,
    dashes and dots, so that nothing of it ends the rules it is written into, the port and the number of
    peers are theirs, the endpoint is one word, and the policy opens exactly the port set. *)
Theorem runtime_settings_are_bounded env git_head documents : runtime_documents env git_head = Ok documents ->
  exists domain port peers endpoint,
    runtime_settings env = Ok
      [("ORG_DOMAIN", domain); ("AUTHENTIK_BASE_URL", "https://sso." +:+ domain); ("AUTHENTIK_APP_URL", "https://app." +:+ domain);
       ("AUTHENTIK_SSO_URL", "https://sso." +:+ domain); ("WG_SERVER_PORT", str_of_Z port); ("WG_PEER_COUNT", str_of_Z peers);
       ("WG_ENDPOINT", endpoint)] /\
    str_forallb is_domain_char domain = true /\ 0 < str_len domain <= 253 /\
    1 <= port <= 65535 /\ 1 <= peers <= 64 /\
    endpoint <> "" /\ str_forallb (fun a => negb (is_space a)) endpoint = true /\
    wireguard_policy port ∈ documents.
Proof.
  unfold runtime_documents. intros H. apply rbind_Ok in H as (values & Hs & H). apply rbind_Ok in H as (ai & _ & H).
  apply rbind_Ok in H as (dynamic & _ & H). apply rbind_Ok in H as (port' & Hport & [= <-]).
  rewrite Hs. unfold runtime_settings in Hs. destruct env as [text|]; [|done]. apply rbind_Ok in Hs as (d & _ & Hs).
  apply raise_seq_Ok in Hs as [Hd Hs]. apply rbind_Ok in Hs as ([port peers] & _ & Hs).
  apply raise_seq_Ok in Hs as [Hp Hs]. apply raise_seq_Ok in Hs as [Hq Hs]. apply raise_seq_Ok in Hs as [He [= <-]].
  bool_inv. apply domain_matched in Hd as [Hc Hl].
  eexists _, port, peers, _. split; [reflexivity|]. split; [done|]. split; [done|]. split; [lia|]. split; [lia|].
  split; [by destruct (String.eqb_spec (strip (setting "WG_ENDPOINT" "auto" d)) "")|]. split; [done|].
  unfold setting in Hport. cbn [assoc String.eqb default] in Hport. change (int_of_text (str_of_Z port) = Ok port') in Hport.
  rewrite int_of_digits in Hport by lia. injection Hport as <-. do 3 right. left.
Qed.

(** ** The two readers of the settings file *)
Lemma rstrip_none p s : str_forallb (fun a => negb (p a)) s = true -> rstrip_by p s = s.
Proof.
  induction s as [|a s IH]; [done|]. cbn. intros [Ha Hs]%andb_true_iff. rewrite IH by done. apply negb_true_iff in Ha. rewrite Ha. by destruct s.
Qed.

Lemma strip_char_none c s : str_forallb (fun a => negb (Ascii.eqb c a)) s = true -> strip_char c s = s.
Proof.
  intros H. unfold strip_char. rewrite rstrip_none by done. destruct s as [|a s]; [done|]. cbn in *. apply andb_true_iff in H as [H _].
  rewrite Ascii.eqb_sym. apply negb_true_iff in H. by rewrite H.
Qed.

Lemma before_comment_none s : str_forallb (fun a => negb (Ascii.eqb a "#")) s = true -> before_comment s = s.
Proof.
  induction s as [|a s IH]; [done|]. cbn. intros [_ Hs]%andb_true_iff. rewrite IH by done. destruct s as [|b s]; [by rewrite andb_false_r|].
  cbn in Hs. apply andb_true_iff in Hs as [Hb _]. apply negb_true_iff in Hb. by rewrite Hb, andb_false_r.
Qed.

Lemma strip_forallb p s : str_forallb p s = true -> str_forallb p (strip s) = true.
Proof.
  intros H. rewrite strip_lstrip. destruct (lstrip_split s) as (w & _ & E). rewrite E, str_forallb_app in H. apply andb_true_iff in H as [_ H].
  destruct (rstrip_split (lstrip s)) as (u & Eu). rewrite Eu, str_forallb_app in H. by apply andb_true_iff in H as [H _].
Qed.

(** A value that needs no quotes and has no comment. *)
Definition bare (value : string) : bool :=
  str_forallb (fun a => negb (Ascii.eqb (chr 39) a) && negb (Ascii.eqb dquote a) && negb (Ascii.eqb a "#")) value.

Lemma bare_parts value : bare value = true ->
  str_forallb (fun a => negb (Ascii.eqb (chr 39) a)) value = true /\ str_forallb (fun a => negb (Ascii.eqb dquote a)) value = true /\
  str_forallb (fun a => negb (Ascii.eqb a "#")) value = true.
Proof. intros H. repeat split; eapply str_forallb_impl; try exact H; cbv beta; intros a Ha; bool_inv; by apply negb_true_iff. Qed.

Lemma bare_unquoted value : bare value = true -> unquoted value = strip value.
Proof.
  intros (H1 & H2 & _)%bare_parts. unfold unquoted. rewrite (strip_char_none dquote) by (by apply strip_forallb).
  apply strip_char_none. by apply strip_forallb.
Qed.

Lemma bare_clean value : bare value = true -> _clean_value value = strip value.
Proof.
  intros (H1 & H2 & H3)%bare_parts. unfold _clean_value.
  assert (only_comment value = false) as ->.
  { unfold only_comment. destruct value as [|a t]; [done|]. destruct (lstrip_split (String a t)) as (w & _ & E). rewrite E, str_forallb_app in H3.
    apply andb_true_iff in H3 as [_ H3]. destruct (lstrip (String a t)) as [|b u]; [by rewrite andb_false_r|]. cbn [str_forallb] in H3.
    apply andb_true_iff in H3 as [H3 _]. apply negb_true_iff in H3. by rewrite H3, andb_false_r. }
  apply strip_forallb in H1, H2, H3. destruct (strip value) as [|q u] eqn:E; [done|]. cbn [str_forallb] in H1, H2.
  apply andb_true_iff in H1 as [H1 _], H2 as [H2 _]. apply negb_true_iff in H1, H2. rewrite (Ascii.eqb_sym q), H1, (Ascii.eqb_sym q), H2. cbn [orb].
  by rewrite before_comment_none, String.eqb_refl.
Qed.

(** Lines on which the two readers agree: blank, a comment, or a setting of a bare value. *)
Definition bare_line (raw : string) : bool :=
  let line := strip raw in
  String.eqb line "" || starts_with "#" line ||
  let '(key, separator, value) := partition_on "=" line in separator && is_key key && bare value.

Lemma key_strip key : is_key key = true -> strip key = key.
Proof.
  intros H. apply no_space_strip. destruct key as [|a t]; [done|].
  cbn [is_key str_forallb] in *. apply andb_true_iff in H as [Ha Ht].
  assert (forall c, is_letter c || is_ascii_digit c = true -> negb (is_space c) = true) as Hc.
  { intros c. unfold is_letter, is_ascii_digit, is_space. intros Hc. apply negb_true_iff. destruct (_ || (_ =? 160)) eqn:E; [|done]. exfalso.
    repeat (rewrite orb_true_iff in *|| rewrite andb_true_iff in *). rewrite ?Z.leb_le, ?Z.eqb_eq in *. lia. }
  rewrite Hc by (by rewrite Ha). cbn [andb]. eapply str_forallb_impl; [exact Hc|done].
Qed.

(** The settings the Kubernetes secrets are made of are the ones every other command is given, as long as no
    value is quoted or followed by a comment. *)
Theorem secret_settings_are_shared path text : Forall (fun raw => bare_line raw = true) (splitlines text) ->
  load_env (Some text) = parse_dotenv path text.
Proof.
  unfold load_env, parse_dotenv. generalize (@nil (string * string)) as d. generalize 1 as n. induction (splitlines text) as [|raw lines IH]; intros n d H; [done|].
  apply Forall_cons in H as [Hraw H]. cbn [fold_left foldR]. unfold bare_line in Hraw. unfold secret_line at 2. unfold dotenv_line at 1.
  destruct (String.eqb (strip raw) "" || starts_with "#" (strip raw)); [by apply IH|]. cbn [orb] in Hraw.
  destruct (partition_on "=" (strip raw)) as [[key separator] value]. 
  apply andb_true_iff in Hraw as [[-> Hk]%andb_true_iff Hv]. rewrite key_strip by done. rewrite Hk. cbn [negb orb raise_if rbind].
  rewrite bare_unquoted, bare_clean by done. by apply IH.
Qed.

(** With a comment they differ: the secret gets it, quote included. *)
Example comment_in_the_secret :
  let line := "ELASTIC_PASSWORD=" +:+ str1 dquote +:+ "s3cret" +:+ str1 dquote +:+ "   # rotate" in
  parse_dotenv ".env" line = Ok [("ELASTIC_PASSWORD", "s3cret")] /\
  load_env (Some line) = Ok [("ELASTIC_PASSWORD", "s3cret" +:+ str1 dquote +:+ "   # rotate")].
Proof. split; reflexivity. Qed.

(** ** The secrets *)
Definition url_char (a : ascii) : ascii := if Ascii.eqb a "+" then "-"%char else if Ascii.eqb a "/" then "_"%char else a.

(** [base64.b64decode(s)]. *)
Definition b64decode (s : string) : list Z := _unb64 (str_map url_char (rstrip_by (Ascii.eqb "=") s)).

Lemma rstrip_after p s t : str_forallb (fun a => negb (p a)) s = true -> str_forallb p t = true -> rstrip_by p (s +:+ t) = s.
Proof.
  intros Hs Ht. induction s as [|a s IH]; cbn in *.
  - induction t as [|b t IH]; [done|]. cbn in *. apply andb_true_iff in Ht as [Hb Ht]. by rewrite IH, Hb.
  - apply andb_true_iff in Hs as [Ha Hs]. apply negb_true_iff in Ha. change (String.append s t) with (s +:+ t). rewrite IH by done.
    rewrite Ha. by destruct s.
Qed.

Lemma standard_url a : is_b64_char a = true -> url_char (standard_char a) = a /\ negb (Ascii.eqb "=" (standard_char a)) = true.
Proof.
  intros H. destruct a as [[] [] [] [] [] [] [] []]; vm_compute in H; try discriminate H; split; vm_compute; reflexivity.
Qed.

Lemma standard_text s : str_forallb is_b64_char s = true ->
  str_map url_char (str_map standard_char s) = s /\ str_forallb (fun a => negb (Ascii.eqb "=" a)) (str_map standard_char s) = true.
Proof.
  induction s as [|a s IH]; [done|]. cbn [str_forallb str_map]. intros [Ha Hs]%andb_true_iff. destruct (standard_url a Ha) as [-> ->].
  by destruct (IH Hs) as [-> ->].
Qed.

Lemma b64_round_trip l : Forall is_byte l -> b64decode (b64encode l) = l.
Proof.
  intros H. unfold b64decode, b64encode. destruct (standard_text _ (b64_chars_alphabet l H)) as [Hu Hn].
  rewrite rstrip_after; [|done|].
  - rewrite Hu. by apply unb64_b64.
  - by destruct (Z.of_nat (length l) mod 3) as [|[[]|[]|]|].
Qed.

(** The data of the secret of a name, and what one of its keys holds. *)
Definition is_secret (name : string) (d : val) : bool :=
  match d with
  | VDict d => py_eq (get "metadata" d) (VDict [("name", VStr name); ("namespace", VStr "cxyz-security")])
  | _ => false
  end.

Definition secret_value (name key : string) (documents : list val) : option val :=
  match List.find (is_secret name) documents with
  | Some (VDict d) => match get "data" d with VDict data => assoc key data | _ => None end
  | _ => None
  end.

(** The key of the secret holds, in base64, these bytes. *)
Definition holds_bytes (name key : string) (bytes : list Z) (documents : list val) : Prop :=
  exists text, secret_value name key documents = Some (VStr text) /\ b64decode text = bytes.

Lemma utf8_bytes s : Forall is_byte (utf8 s).
Proof.
  induction s as [|a s IH]; [constructor|]. cbn [utf8]. apply Forall_app. split; [|done].
  destruct a as [[] [] [] [] [] [] [] []]; vm_compute; repeat constructor; congruence.
Qed.

Lemma assoc_texts k l : assoc k (map (fun kv : string * string => (kv.1, VStr kv.2)) l) = option_map VStr (assoc k l).
Proof. induction l as [|[k' v] l IH]; [done|]. cbn. by destruct (String.eqb k k'). Qed.

Lemma assoc_keyed {A} (f : string -> A) k l : k ∈ l -> assoc k (map (fun key => (key, f key)) l) = Some (f k).
Proof.
  induction l as [|k' l IH]; [by intros ?%not_elem_of_nil|]. cbn. intros Hk. destruct (String.eqb_spec k k') as [->|Hn]; [done|].
  apply IH. by apply elem_of_cons in Hk as [->|Hk].
Qed.

Lemma files_data_holds file directory names data : files_data file directory (map (fun n => (n, n)) names) = Ok data ->
  forall n, n ∈ names -> exists bytes, file (directory +:+ n) = Some bytes /\ assoc n data = Some (b64encode bytes).
Proof.
  unfold files_data. revert data. induction names as [|n' names IH]; intros data H n Hn; [by apply not_elem_of_nil in Hn|].
  cbn [map mapR fst snd] in H. apply rbind_Ok in H as (y & Hy & H). apply rbind_Ok in H as (ys & Hys & [= <-]). apply rbind_Ok in Hy as (body & Hb & [= <-]).
  cbn [assoc]. destruct (String.eqb_spec n n') as [->|Hne].
  - unfold b64_file in Hb. destruct (file _) as [bytes|]; [|done]. injection Hb as <-. by exists bytes.
  - apply (IH ys Hys). by apply elem_of_cons in Hn as [->|Hn].
Qed.

Lemma none_missing env l : negb (Nat.eqb (length (List.filter (uninitialized env) l)) 0) = false ->
  forall key, key ∈ l -> exists value, assoc key env = Some value /\ value <> "" /\ starts_with "CHANGE_ME" value = false.
Proof.
  intros H%negb_false_iff%Nat.eqb_eq key Hk. destruct (uninitialized env key) eqn:E.
  - exfalso. assert (In key (List.filter (uninitialized env) l)) as Hin by (apply filter_In; split; [by apply list_elem_of_In|done]).
    by destruct (List.filter _ l).
  - unfold uninitialized in E. destruct (assoc key env) as [value|]; [|done]. apply orb_false_iff in E as [E1 E2]. apply String.eqb_neq in E1. eauto.
Qed.

Section carried.
Variable file : string -> option (list Z).
Hypothesis file_bytes : forall path bytes, file path = Some bytes -> Forall is_byte bytes.

(** Every file a secret mounts: the secret, its key, and where the file is. *)
Definition mounted_files : list (string * string * string) :=
  map (fun n => ("cxyz-wazuh-tls", n, "docker/wazuh/certs/" +:+ n)) WAZUH_CERTS ++
  [("cxyz-wazuh-security-config", "internal_users.yml", "docker/wazuh/generated/internal_users.yml");
   ("cxyz-ztna-tls", "tls.crt", "docker/zero-trust-gateway/certs/tls.crt"); ("cxyz-ztna-tls", "tls.key", "docker/zero-trust-gateway/certs/tls.key");
   ("cxyz-soc-ca", "ca.crt", "soc/certs/ca.crt");
   ("cxyz-soc-elasticsearch-tls", "ca.crt", "soc/certs/ca.crt"); ("cxyz-soc-elasticsearch-tls", "elasticsearch.crt", "soc/certs/elasticsearch.crt");
   ("cxyz-soc-elasticsearch-tls", "elasticsearch.key", "soc/certs/elasticsearch.key");
   ("cxyz-soc-kibana-tls", "ca.crt", "soc/certs/ca.crt"); ("cxyz-soc-kibana-tls", "kibana.crt", "soc/certs/kibana.crt");
   ("cxyz-soc-kibana-tls", "kibana.key", "soc/certs/kibana.key");
   ("cxyz-soc-ai-api", "tls.crt", "soc/certs/soc-ai-api.crt"); ("cxyz-soc-ai-api", "tls.key", "soc/certs/soc-ai-api.key");
   ("cxyz-soc-ai-api", "client-ca.crt", "soc/certs/ai-client-ca.crt");
   ("cxyz-soc-feature", "ca.crt", "soc/certs/ca.crt");
   ("cxyz-soc-enrichment", "ca.crt", "soc/certs/ca.crt"); ("cxyz-soc-enrichment", "client.crt", "soc/certs/soc-enrichment.crt");
   ("cxyz-soc-enrichment", "client.key", "soc/certs/soc-enrichment.key");
   ("cxyz-soc-decision", "ca.crt", "soc/certs/ca.crt"); ("cxyz-soc-decision", "signing.key", "soc/certs/decision/decision-key-1.key");
   ("cxyz-soc-decision", "client.crt", "soc/certs/soc-decision.crt"); ("cxyz-soc-decision", "client.key", "soc/certs/soc-decision.key");
   ("cxyz-soc-response", "ca.crt", "soc/certs/ca.crt"); ("cxyz-soc-response", "tls.crt", "soc/certs/soc-response.crt");
   ("cxyz-soc-response", "tls.key", "soc/certs/soc-response.key"); ("cxyz-soc-response", "client.crt", "soc/certs/soc-response.crt");
   ("cxyz-soc-response", "client.key", "soc/certs/soc-response.key"); ("cxyz-soc-response", "decision-ca.crt", "soc/certs/decision-ca.crt");
   ("cxyz-soc-response", "decision-key-1.pub", "soc/certs/decision/decision-key-1.pub")].

(** The secrets a worker logs in with: as whom, and the setting of the password. *)
Definition credentials : list (string * string * string) :=
  [("cxyz-soc-feature", "cxyz_feature", "SOC_FEATURE_PASSWORD"); ("cxyz-soc-enrichment", "cxyz_ai_writer", "SOC_AI_WRITER_PASSWORD");
   ("cxyz-soc-decision", "cxyz_decision", "SOC_DECISION_PASSWORD"); ("cxyz-soc-response", "cxyz_response", "SOC_RESPONSE_PASSWORD")].

(** What a list of named files becomes, whatever the files. *)
Lemma files_data_all directory entries data : files_data file directory entries = Ok data ->
  Forall2 (fun kv d => exists bytes, file (directory +:+ kv.2) = Some bytes /\ Forall is_byte bytes /\ d = (kv.1, b64encode bytes)) entries data.
Proof.
  unfold files_data. intros H. apply mapR_Forall2 in H. induction H as [|kv d entries data Hd _ IH]; [constructor|]. constructor; [|exact IH].
  apply rbind_Ok in Hd as (body & Hb & [= <-]). unfold b64_file in Hb. destruct (file (directory +:+ kv.2)) as [bytes|] eqn:E; [|done].
  injection Hb as <-. exists bytes. split; [done|]. split; [by eapply file_bytes|done].
Qed.

Lemma soc_secret_made name entries credential d : soc_secret file name entries credential = Ok d ->
  exists data, Forall2 (fun kv d => exists bytes, file ("soc/certs/" +:+ kv.2) = Some bytes /\ Forall is_byte bytes /\ d = (kv.1, b64encode bytes)) entries data /\
    d = k8s_secret name (data ++ match credential with Some (user, password) => [("es.cred", b64_text (user +:+ ":" +:+ password))] | None => [] end) "Opaque".
Proof. unfold soc_secret. intros H. apply rbind_Ok in H as (data & Hd & [= <-]). exists data. split; [by apply files_data_all|done]. Qed.

Ltac known_files H :=
  lazymatch type of H with
  | Forall2 _ [] _ => apply Forall2_nil_inv_l in H as ->
  | Forall2 _ (_ :: _) _ =>
      let E := fresh "Hfile" in let B := fresh "Hbytes" in let D := fresh "Hd" in let rest := fresh "Hrest" in
      apply Forall2_cons_inv_l in H as (? & ? & (? & E & B & D) & rest & ->); cbn [fst snd] in E, D; subst; known_files rest
  end.

Ltac known_secrets H :=
  lazymatch type of H with
  | Forall2 _ [] _ => apply Forall2_nil_inv_l in H as ->
  | Forall2 _ (_ :: _) _ =>
      let S := fresh "Hsecret" in let D := fresh "Hdata" in let E := fresh "Hd" in let rest := fresh "Hrest" in
      apply Forall2_cons_inv_l in H as (? & ? & S & rest & ->); cbn [fst snd] in S; apply soc_secret_made in S as (? & D & E); known_files D; subst; known_secrets rest
  end.

Definition holds_file (documents : list val) (f : string * string * string) : Prop :=
  exists bytes, file f.2 = Some bytes /\ holds_bytes f.1.1 f.1.2 bytes documents.

Lemma holds_file_intro documents name key path bytes : secret_value name key documents = Some (VStr (b64encode bytes)) ->
  file path = Some bytes -> Forall is_byte bytes -> holds_file documents (name, key, path).
Proof. intros Hv Hf Hb. exists bytes. split; [done|]. exists (b64encode bytes). split; [done|]. by apply b64_round_trip. Qed.

(** C30: The secrets of Path C are the settings and the files: every password that has to be there is set to
    something other than its placeholder, and the secrets hold, in base64, those values, the
    credentials the workers log in with, and the bytes of every certificate, key and configuration
    file at the key it is mounted under; otherwise nothing is rendered.  The settings are [load_env]'s
    reading of the file, which is the one of every other command where no value is quoted or
    followed by a comment. *)
Theorem secrets_carry_the_settings env documents : runtime_secrets file env = Ok documents ->
  exists settings, load_env env = Ok settings /\
    (forall key, key ∈ REQUIRED_SECRETS -> exists value, assoc key settings = Some value /\ value <> "" /\
       starts_with "CHANGE_ME" value = false /\ holds_bytes "cxyz-security-secrets" key (utf8 value) documents) /\
    (forall key, key ∈ SOC_REQUIRED -> exists value, assoc key settings = Some value /\ value <> "" /\
       starts_with "CHANGE_ME" value = false /\ holds_bytes "cxyz-soc-passwords" key (utf8 value) documents) /\
    Forall (fun c => exists value, assoc c.2 settings = Some value /\ holds_bytes c.1.1 "es.cred" (utf8 (c.1.2 +:+ ":" +:+ value)) documents) credentials /\
    Forall (holds_file documents) mounted_files /\
    (forall path text, env = Some text -> Forall (fun raw => bare_line raw = true) (splitlines text) -> parse_dotenv path text = Ok settings).
Proof.
  unfold runtime_secrets. intros H. apply rbind_Ok in H as (settings & Hs & H). cbv zeta in H. apply raise_seq_Ok in H as [Hm1 H]. apply raise_seq_Ok in H as [Hm2 H].
  apply rbind_Ok in H as (soc & Hsoc & H). apply rbind_Ok in H as (wazuh & Hw & H). apply rbind_Ok in H as (users & Hu & H).
  apply rbind_Ok in H as (ztna & Hz & [= <-]). unfold soc_secrets in Hsoc. apply rbind_Ok in Hsoc as (others & Ho & [= <-]).
  exists settings. split; [done|]. split; [|split; [|split; [|split]]].
  - intros key Hk. destruct (none_missing _ _ Hm1 key Hk) as (value & Ha & Hn & Hc). exists value. repeat (split; [done|]).
    exists (b64_text value). split; [|apply b64_round_trip, utf8_bytes].
    change (secret_value _ _ _) with (assoc key (map (fun kv : string * string => (kv.1, VStr kv.2)) (map (fun key => (key, b64_text (setting key "" settings))) REQUIRED_SECRETS))).
    rewrite assoc_texts, (assoc_keyed (fun key => b64_text (setting key "" settings))) by done. cbn [option_map]. unfold setting. by rewrite Ha.
  - intros key Hk. destruct (none_missing _ _ Hm2 key Hk) as (value & Ha & Hn & Hc). exists value. repeat (split; [done|]).
    exists (b64_text value). split; [|apply b64_round_trip, utf8_bytes].
    change (secret_value _ _ _) with (assoc key (map (fun kv : string * string => (kv.1, VStr kv.2)) (map (fun key => (key, b64_text (setting key "" settings))) SOC_REQUIRED))).
    rewrite assoc_texts, (assoc_keyed (fun key => b64_text (setting key "" settings))) by done. cbn [option_map]. unfold setting. by rewrite Ha.
  - apply mapR_Forall2 in Ho. known_secrets Ho.
    assert (forall key, key ∈ SOC_REQUIRED -> exists value, assoc key settings = Some value /\ setting key "" settings = value) as Hset.
    { intros key Hk. destruct (none_missing _ _ Hm2 key Hk) as (value & Ha & _). exists value. unfold setting. by rewrite Ha. }
    repeat constructor.
    all: match goal with |- exists value, assoc ?key _ = Some value /\ _ =>
      destruct (Hset key ltac:(by apply (bool_decide_unpack _))) as (value & Ha & E); exists value; split; [exact Ha|]; cbn [fst snd]; rewrite <- E;
      eexists; split; [reflexivity|apply b64_round_trip, utf8_bytes] end.
  - apply mapR_Forall2 in Ho. known_secrets Ho. apply files_data_all in Hw, Hu, Hz. unfold WAZUH_CERTS in Hw. cbn [map] in Hw. known_files Hw. known_files Hu. known_files Hz.
    unfold mounted_files, WAZUH_CERTS. cbn [map app]. repeat (apply Forall_cons_2; [eapply holds_file_intro; [reflexivity|eassumption|eassumption]|]). apply Forall_nil_2.
  - intros path text -> Hb. by rewrite <- (secret_settings_are_shared path text Hb).
Qed.
End carried.

(** ** The image lock *)

(** A reference that ends in a digest, perhaps with a line feed after it. *)
Definition is_pinned (p : string) : Prop :=
  exists repository hex finish, p = repository +:+ "@sha256:" +:+ hex +:+ finish /\
    str_len hex = 64 /\ str_forallb is_lower_hex hex = true /\ (finish = "" \/ finish = newline).

Lemma path_lit s c c' : path (lit s) c c' -> rest c = s +:+ rest c'.
Proof.
  revert c. induction s as [|a s IH]; cbn [lit]; intros c H.
  - by inversion H; subst.
  - inversion H as [| |? ? ? c1 ? H1 H2| | | | | | | | | |]; subst. inversion H1 as [|? b t ? E Eb| | | | | | | | | | |]; subst.
    apply Ascii.eqb_eq in Eb. subst b. apply IH in H2. cbn in H2. by rewrite E, H2.
Qed.

Lemma path_times p n c c' : path (times n (Over p)) c c' -> exists w, rest c = w +:+ rest c' /\ str_len w = Z.of_nat n /\ str_forallb p w = true.
Proof.
  revert c. induction n as [|n IH]; cbn [times]; intros c H.
  - inversion H; subst. by exists "".
  - inversion H as [| |? ? ? c1 ? H1 H2| | | | | | | | | |]; subst. inversion H1 as [|? b t ? E Eb| | | | | | | | | | |]; subst.
    apply IH in H2 as (w & E2 & Hl & Hw). exists (String b w). rewrite E. cbn in E2. rewrite E2. split; [done|]. split; [|by cbn; rewrite Eb].
    unfold str_len in *. cbn [String.length]. lia.
Qed.

Lemma digest_matched p : matched (re_search DIGEST_RE p) = true -> is_pinned p.
Proof.
  unfold re_search. destruct (search_from _ _ p) as [c|] eqn:E; [|done]. intros _. apply search_path in E as (pre & c0 & -> & H).
  unfold DIGEST_RE, SHA256_RE, cats, foldr, lower_hex in H.
  inversion H as [| |? ? ? c1 ? H1 H2| | | | | | | | | |]; subst. apply (path_lit "@sha256:") in H1. inversion H2 as [| |? ? ? c2 ? H3 H4| | | | | | | | | |]; subst.
  apply (path_times is_lower_hex 64) in H3 as (hex & E & Hl & Hh). inversion H4 as [| |? ? ? c3 ? H5 H6| | | | | | | | | |]; subst. inversion H6; subst. inversion H5 as [| | | | | | | |? Hf| | | |]; subst.
  exists pre, hex, (rest c). rewrite H1, E. split; [done|]. split; [done|]. split; [done|]. unfold at_finish in Hf.
  destruct (rest c) as [|a [|]]; [by left| |done]. right. apply Ascii.eqb_eq in Hf. by subst a.
Qed.

Lemma fail_when_none b m : fail_when b m = [] -> b = false.
Proof. by destruct b. Qed.

Lemma status_is_text names v : member_of names v = Ok true -> exists s, v = VStr s /\ s ∈ names.
Proof.
  unfold member_of. intros H. apply raise_seq_Ok in H as [Hh [= H]]. apply existsb_exists in H as (s & Hs & E). exists s.
  split; [|by apply list_elem_of_In]. destruct v; try done; cbn in E; try (by destruct (as_number _)). by apply String.eqb_eq in E as ->.
Qed.

(** What the lock says of an entry that raises no objection. *)
Definition entry_in_force (all_text : string) (entry : mapping) : Prop :=
  exists status intent, get "status" entry = VStr status /\ get "intent_ref" entry = VStr intent /\ intent <> "" /\
    ((status = "verified" \/ status = "inherited-pinned") /\
       (exists p, get "pinned_ref" entry = VStr p /\ is_pinned p /\ str_contains p all_text = true) /\
       (status = "verified" -> str_contains intent all_text = false)
     \/ status = "deferred" /\ get "pinned_ref" entry = VNone /\ str_contains intent all_text = true).

Definition entry_key (entry : val) : string := match entry with VDict d => repository_key (str_val (get "intent_ref" d)) | _ => "" end.

Lemma pins_in_force all_text name status intent verification entry : status ∈ STATUSES -> get "status" entry = VStr status ->
  get "intent_ref" entry = VStr intent -> intent <> "" ->
  pin_errors all_text name status intent (get "pinned_ref" entry) verification entry = [] -> entry_in_force all_text entry.
Proof.
  intros Hst Hs Hi Hn H. exists status, intent. repeat (split; [done|]). unfold pin_errors in H.
  destruct (str_in status PINNED_STATUSES) eqn:Ep.
  - left. apply app_eq_nil in H as [H1 H]. apply app_eq_nil in H as [H2%fail_when_none _]. apply str_in_elem in Ep. split; [|split].
    + apply elem_of_cons in Ep as [->|[->|[]%not_elem_of_nil]%elem_of_cons]; auto.
    + destruct (get "pinned_ref" entry) as [| | |p| |]; try done. exists p. split; [done|]. destruct (matched _) eqn:Em; [|done].
      apply fail_when_none, negb_false_iff in H1. split; [by apply digest_matched|done].
    + intros ->. by apply andb_false_iff in H2 as [H2|H2].
  - right. apply app_eq_nil in H as [H1%fail_when_none H]. apply app_eq_nil in H as [H2%fail_when_none _]. apply negb_false_iff in H2.
    split; [|by destruct (get "pinned_ref" entry)].
    apply elem_of_cons in Hst as [->|[->|[->|[]%not_elem_of_nil]%elem_of_cons]%elem_of_cons]; [by vm_compute in Ep|done|by vm_compute in Ep].
Qed.

Lemma check_entry_step policy all_text seen errors name entry seen' errors' :
  check_entry policy all_text (seen, errors) (name, entry) = Ok (seen', errors') ->
  exists more, errors' = errors ++ more /\
    (more = [] -> exists d, entry = VDict d /\ entry_in_force all_text d /\ seen' = assoc_set (entry_key entry) name seen /\
       (default "" (assoc (entry_key entry) seen) = "" \/ default "" (assoc (entry_key entry) seen) = name)).
Proof.
  cbn [check_entry]. intros H. apply rbind_Ok in H as (d & Hd & H). destruct entry as [| | | | |d']; try done. injection Hd as ->.
  apply rbind_Ok in H as (platforms & _ & H). apply rbind_Ok in H as (verification & _ & H). apply rbind_Ok in H as (valid & Hv & H).
  destruct valid; cbn [negb] in H; [|injection H as <- <-; by eexists].
  destruct (status_is_text _ _ Hv) as (status & Hs & Hst). rewrite Hs in H.
  destruct (get "intent_ref" d) as [| | |intent| |] eqn:Hi; try (injection H as <- <-; by eexists).
  destruct (String.eqb_spec intent "") as [|Hn]; [injection H as <- <-; by eexists|].
  apply rbind_Ok in H as (e2 & _ & [= <- <-]). eexists. split; [reflexivity|]. intros H. exists d. split; [done|].
  apply app_eq_nil in H as [_ H]. apply app_eq_nil in H as [_ H]. apply app_eq_nil in H as [Hp Hk].
  assert (entry_key (VDict d) = repository_key intent) as -> by (unfold entry_key; by rewrite Hi).
  split; [by eapply pins_in_force|]. split; [done|]. apply fail_when_none, andb_false_iff in Hk as [Hk%negb_false_iff|Hk%negb_false_iff];
    apply String.eqb_eq in Hk; auto.
Qed.

(** Objections stay. *)
Lemma errors_grow policy all_text images : forall seen errors seen', foldR (check_entry policy all_text) (seen, errors) images = Ok (seen', []) -> errors = [].
Proof.
  induction images as [|[name entry] images IH]; cbn [foldR]; intros seen errors seen' H; [by injection H as _ ->|].
  apply rbind_Ok in H as ([seen1 errors1] & H1 & H). apply check_entry_step in H1 as (more & -> & _). apply IH in H. by apply app_eq_nil in H as [-> _].
Qed.

(** The keys of the entries before, each with its name. *)
Definition seen_names (seen : list (string * string)) (images : mapping) : Prop :=
  forall name entry, (name, entry) ∈ images -> assoc (entry_key entry) seen = Some name.

Lemma entries_checked policy all_text images : forall seen errors before_ seen',
  Forall (fun kv => kv.1 <> "") (before_ ++ images) -> seen_names seen before_ ->
  foldR (check_entry policy all_text) (seen, errors) images = Ok (seen', []) ->
  errors = [] /\ seen_names seen' (before_ ++ images) /\ Forall (fun kv => exists d, kv.2 = VDict d /\ entry_in_force all_text d) images.
Proof.
  induction images as [|[name entry] images IH]; cbn [foldR]; intros seen errors before_ seen' Hn Hseen H.
  { injection H as <- ->. by rewrite app_nil_r. }
  apply rbind_Ok in H as ([seen1 errors1] & H1 & H). apply check_entry_step in H1 as (more & -> & Hmore).
  rewrite (cons_middle (name, entry)), app_assoc in Hn.
  assert (forall P : Prop, (more = [] -> seen_names seen1 (before_ ++ [(name, entry)]) -> P) ->
    (errors ++ more = [] -> P)) as Hcase.
  { intros P HP Hnil. apply app_eq_nil in Hnil as [-> ->]. apply HP; [done|]. destruct (Hmore eq_refl) as (d & -> & _ & -> & Hprev).
    intros name' entry' [Hin|Hin]%elem_of_app.
    - destruct (decide (entry_key entry' = entry_key (VDict d))) as [Ek|Ek].
      + rewrite Ek, assoc_set_eq. f_equal. pose proof (Hseen _ _ Hin) as Ha. rewrite Ek in Ha. rewrite Ha in Hprev. cbn in Hprev.
        rewrite Forall_forall in Hn. specialize (Hn (name', entry')). cbn in Hn. destruct Hprev as [->| ->]; [|done]. destruct Hn; [|done].
        apply elem_of_app. left. apply elem_of_app. by left.
      + rewrite assoc_set_ne by done. by apply Hseen.
    - apply list_elem_of_singleton in Hin as [= -> ->]. by rewrite assoc_set_eq. }
  pose proof (errors_grow _ _ _ _ _ _ H) as Hnil. pose proof (Hcase _ (fun _ H => H) Hnil) as Hs. destruct (IH _ _ _ _ Hn Hs H) as (_ & Hs' & Hall).
  apply app_eq_nil in Hnil as [-> ->]. rewrite (cons_middle (name, entry)), app_assoc. split; [done|]. split; [done|]. constructor; [|done].
  destruct (Hmore eq_refl) as (d & -> & Hd & _). by exists d.
Qed.

Lemma add_ref_keys path refs found : forall k, k ∈ (fold_left (add_ref path) refs found).*1 <-> k ∈ refs \/ k ∈ found.*1.
Proof.
  revert found. induction refs as [|ref refs IH]; intros found k; cbn [fold_left]; [split; [by right|by intros [?%not_elem_of_nil|?]]|].
  rewrite IH, elem_of_cons. assert (k ∈ (add_ref path found ref).*1 <-> k = ref \/ k ∈ found.*1) as ->; [|tauto].
  unfold add_ref. generalize (if str_in path (default [] (assoc ref found)) then default [] (assoc ref found) else default [] (assoc ref found) ++ [path]).
  clear. intros paths. induction found as [|[k' v] found IH]; cbn.
  - rewrite list_elem_of_singleton. split; [by left|by intros [?|?%not_elem_of_nil]].
  - destruct (String.eqb_spec ref k') as [->|]; cbn; rewrite !elem_of_cons; [tauto|]. change (fst <$> ?l) with (l.*1). unfold fmap in IH. rewrite IH. tauto.
Qed.

Lemma refs_are_configured files f ref : f ∈ files -> ref ∈ refs_of f -> exists paths, (ref, paths) ∈ configured_refs files.
Proof.
  intros Hf Hr. assert (ref ∈ (configured_refs files).*1) as Hk.
  { unfold configured_refs. assert (forall fs found, (exists g, g ∈ fs /\ ref ∈ refs_of g) \/ ref ∈ found.*1 ->
      ref ∈ (fold_left (fun found f => fold_left (add_ref (source_path f)) (refs_of f) found) fs found).*1) as H; [|by apply H; left; exists f].
    clear. induction fs as [|g fs IH]; intros found H; cbn [fold_left].
    - destruct H as [(g & Hg & _)|H]; [by apply not_elem_of_nil in Hg|done].
    - apply IH. destruct H as [(h & Hh & Hr)|H]; [|right; apply add_ref_keys; by right].
      apply elem_of_cons in Hh as [->|Hh]; [right; apply add_ref_keys; by left|left; by exists h]. }
  apply list_elem_of_fmap in Hk as ([k paths] & -> & Hk). by exists paths.
Qed.

Lemma concat_nil {A} (l : list (list A)) : concat l = [] <-> Forall (fun x => x = []) l.
Proof.
  induction l as [|x l IH]; cbn; [split; [constructor|done]|]. rewrite Forall_cons, <- IH. split; [apply app_eq_nil|by intros [-> ->]].
Qed.

(** C27: When the image lock raises no objection: every image a source names is a local one or one of the lock;
    every entry in force is pinned to a digest that a source uses, no source names the tag of a verified
    one, and a deferred entry has no pin; and no two entries are of the same repository. *)
Theorem images_are_locked document files : image_lock_errors document files = Ok [] ->
  exists lock images policy, load_lock document = Ok lock /\ get "images" lock = VDict images /\ read_policy lock = Ok policy /\
    (forall f ref, f ∈ files -> ref ∈ refs_of f ->
       is_local ref (local_prefixes policy) = Ok true \/
       exists name d key, (name, VDict d) ∈ images /\ key ∈ ["intent_ref"; "pinned_ref"] /\ str_val (get key d) = ref) /\
    (forall name entry, (name, entry) ∈ images ->
       exists d, entry = VDict d /\ entry_in_force (str_join newline (map source_text files)) d) /\
    (Forall (fun kv => kv.1 <> "") images -> forall name name' entry entry', (name, entry) ∈ images -> (name', entry') ∈ images ->
       entry_key entry = entry_key entry' -> name = name').
Proof.
  unfold image_lock_errors. intros H. apply rbind_Ok in H as (lock & Hl & H). apply rbind_Ok in H as (images & Hi & H).
  apply rbind_Ok in H as (policy & Hp & H). apply rbind_Ok in H as (known & Hk & H). apply rbind_Ok in H as (lists & Hu & H).
  apply rbind_Ok in H as ([seen errors] & Hc & H). apply rbind_Ok in H as (developer & _ & H). injection H as H.
  apply app_eq_nil in H as [Hu0 H]. apply app_eq_nil in H as [-> _]. exists lock, images, policy. split; [done|].
  split; [by destruct (get "images" lock); try done; injection Hi as ->|]. split; [done|]. split; [|split].
  - intros f ref Hf Hr. destruct (refs_are_configured _ _ _ Hf Hr) as [paths Hin]. apply (sort_by_elem key_leb) in Hin.
    apply mapR_Forall2 in Hu. apply concat_nil in Hu0. destruct (Forall2_elem_l _ _ _ _ Hu Hin) as (e & He & Hun).
    rewrite Forall_forall in Hu0. rewrite (Hu0 _ He) in Hun. unfold unlocked in Hun. cbn [fst] in Hun. apply rbind_Ok in Hun as (local & Hlo & Hun).
    destruct local; [by left|]. right. cbn [orb] in Hun. destruct (str_in ref (concat known)) eqn:Ek; [|done]. apply str_in_elem in Ek.
    apply list_elem_of_In, in_concat in Ek as (refs & Hrefs & Ek). apply list_elem_of_In in Hrefs. apply mapR_Forall2 in Hk.
    destruct (Forall2_elem_r _ _ _ _ Hk Hrefs) as ([name entry] & Hent & Hkn). cbn [snd] in Hkn. unfold known_of in Hkn. apply rbind_Ok in Hkn as (d & Hd & [= <-]).
    destruct entry as [| | | | |d']; try done. injection Hd as ->. exists name, d. cbn [map concat] in Ek. rewrite app_nil_r in Ek. apply in_app_iff in Ek as [Ek|Ek].
    + exists "intent_ref". split; [done|]. split; [by left|]. destruct (truthy _); [|done]. by destruct Ek.
    + exists "pinned_ref". split; [done|]. split; [by right; left|]. destruct (truthy _); [|done]. by destruct Ek.
  - assert (Forall (fun kv => exists d, kv.2 = VDict d /\ entry_in_force (str_join newline (map source_text files)) d) images) as Hall.
    { revert Hc. generalize (@nil (string * string)) at 1 as s0. generalize (@nil string) at 1 as e0. clear. induction images as [|[name entry] images IH]; intros e0 s0 Hc; [constructor|].
      cbn [foldR] in Hc. apply rbind_Ok in Hc as ([s1 e1] & H1 & Hc). apply check_entry_step in H1 as (more & -> & Hmore).
      constructor; [|by eapply IH]. assert (e0 ++ more = []) as Hnil by (eapply errors_grow; exact Hc).
      apply app_eq_nil in Hnil as [_ ->]. destruct (Hmore eq_refl) as (d & -> & Hd & _). by exists d. }
    rewrite Forall_forall in Hall. intros name entry Hin. by apply (Hall (name, entry)).
  - intros Hn name name' entry entry' H1 H2 Ek. destruct (entries_checked policy (str_join newline (map source_text files)) images [] [] [] seen) as (_ & Hs & _);
      [done|by intros ? ? ?%not_elem_of_nil|exact Hc|].
    cbn [app] in Hs. apply Hs in H1, H2. rewrite Ek in H1. congruence.
Qed.

(** ** The registry *)
Lemma verify_entry_quiet docker name entry resolved : verify_entry docker name entry = Ok ([], resolved) ->
  exists status ref digest platforms is_index required,
    get "status" entry = VStr status /\ inspect docker ref = Ok (digest, platforms, is_index) /\
    set_of (get_or "required_platforms" (VList []) entry) = Ok required /\
    (forall p, VStr p ∈ required -> p ∈ normalized_platforms platforms) /\
    ((1 < length required)%nat -> is_index = true) /\
    (str_in status PINNED_STATUSES = true -> pinned_digest entry = Ok digest).
Proof.
  unfold verify_entry. intros H. apply rbind_Ok in H as (status & Hs & H). apply rbind_Ok in H as (ref & Hr & H).
  assert (get "status" entry = VStr status) as Hst.
  { unfold text_item in Hs. apply rbind_Ok in Hs as (v & Hv & Hs). unfold item in Hv. unfold get. destruct (assoc "status" entry) as [v'|]; [|done].
    injection Hv as ->. by destruct v; try done; injection Hs as ->. }
  destruct (inspect docker ref) as [[[digest platforms] is_index]|e] eqn:Ei; [|by destruct e].
  apply rbind_Ok in H as (required & Hq & H). apply rbind_Ok in H as (texts & Ht & H).
  set (missing := sort_by str_leb _) in H. set (e2 := fail_when _ (name +:+ ": multi-platform runtime ref resolved to a single manifest, not an image index")) in H.
  assert (fail_when (negb (Nat.eqb (length missing) 0)) (name +:+ ": missing required platforms " +:+ py_repr_list missing +:+ "; observed " +:+
      py_repr_list (sort_by str_leb (normalized_platforms platforms))) = [] /\ e2 = [] /\
      (str_in status PINNED_STATUSES = true -> pinned_digest entry = Ok digest)) as (H1 & H2 & H3).
  { destruct (String.eqb_spec status "verified") as [->|Hv]; [|destruct (String.eqb_spec status "inherited-pinned") as [->|Hp]].
    - apply rbind_Ok in H as (expected & He & [= H _]). apply app_eq_nil in H as [H1 H]. apply app_eq_nil in H as [H2 H3%fail_when_none].
      apply negb_false_iff, String.eqb_eq in H3. subst expected. auto.
    - apply rbind_Ok in H as (expected & He & [= H _]). apply app_eq_nil in H as [H1 H]. apply app_eq_nil in H as [H2 H3%fail_when_none].
      apply negb_false_iff, String.eqb_eq in H3. subst expected. auto.
    - injection H as H _. apply app_eq_nil in H as [H1 H2]. split; [done|]. split; [done|]. intros Hin%str_in_elem.
      apply elem_of_cons in Hin as [->|[->|[]%not_elem_of_nil]%elem_of_cons]; done. }
  exists status, ref, digest, platforms, is_index, required. repeat (split; [done|]). split; [|split; [|done]].
  - intros p Hp. apply mapR_Forall2 in Ht. destruct (Forall2_elem_l _ _ _ _ Ht Hp) as (s & Hs' & [= ->]).
    destruct (str_in s (normalized_platforms platforms)) eqn:Ein; [by apply str_in_elem|]. exfalso.
    apply fail_when_none, negb_false_iff, Nat.eqb_eq in H1. assert (s ∈ missing) as Hm.
    { apply sort_by_elem, list_elem_of_In, filter_In. split; [by apply list_elem_of_In|by rewrite Ein]. }
    by destruct missing; [apply not_elem_of_nil in Hm|].
  - intros Hlen. apply fail_when_none in H2. pose proof (mapR_length _ _ _ Ht) as El. apply andb_false_iff in H2 as [H2|H2]; [|by apply negb_false_iff].
    apply Nat.ltb_ge in H2. lia.
Qed.

(** When the registry check has nothing to say: every entry that was looked at resolves; the registry reports
    every platform the lock requires of it, through an index when there are several; and a pinned entry still
    has the digest it is pinned to.  In the strict run there is no deferred entry among them. *)
Theorem images_resolve_to_their_pins docker strict only images : platform_failures docker strict only images = Ok [] ->
  forall name entry, (name, entry) ∈ images -> only = [] \/ name ∈ only ->
  exists d status ref digest platforms is_index required, entry = VDict d /\ get "status" d = VStr status /\
    inspect docker ref = Ok (digest, platforms, is_index) /\ set_of (get_or "required_platforms" (VList []) d) = Ok required /\
    (forall p, VStr p ∈ required -> p ∈ normalized_platforms platforms) /\
    ((1 < length required)%nat -> is_index = true) /\
    (str_in status PINNED_STATUSES = true -> pinned_digest d = Ok digest).
Proof.
  unfold platform_failures. intros H name entry Hin Honly. apply rbind_Ok in H as (results & Hr & H). injection H as H. apply app_eq_nil in H as [H _].
  apply concat_nil in H. rewrite Forall_forall in H. apply mapR_Forall2 in Hr. destruct (Forall2_elem_l _ _ _ _ Hr Hin) as (r & Hmem & Hv). cbn [fst snd] in Hv.
  assert (negb (Nat.eqb (length only) 0) && negb (str_in name only) = false) as E.
  { destruct Honly as [->|Hn]; [done|]. apply str_in_elem in Hn. by rewrite Hn, andb_false_r. }
  rewrite E in Hv. apply rbind_Ok in Hv as (d & Hd & Hv). apply rbind_Ok in Hv as ([failures resolved] & Hv & [= <-]).
  destruct entry as [| | | | |d']; try done. injection Hd as ->. assert (failures = []) as ->.
  { apply (H failures). apply list_elem_of_fmap. by eexists (failures, _). }
  apply verify_entry_quiet in Hv as (status & ref & digest & platforms & is_index & required & Hall). exists d, status, ref, digest, platforms, is_index, required. by split.
Qed.

(** ** Samples *)
Definition sample_digest : string := "d9e853e87e55526f6b2917df91a2115c36dd7c696a35be12163d44e6e2a4b6bc".

Definition sample_entry (status : string) : val := VDict
  [("intent_ref", VStr "alpine:3.20"); ("pinned_ref", VStr ("alpine@sha256:" +:+ sample_digest)); ("status", VStr status);
   ("scopes", VList [VStr "dockerfile"]); ("required_platforms", VList [VStr "linux/amd64"]);
   ("verification", VDict [("level", VStr "registry-metadata")])].

Definition sample_lock (status : string) : val := VDict
  [("schema_version", VInt 1); ("policy", VDict [("local_image_prefixes", VList [VStr "cxyz/"])]); ("images", VDict [("alpine", sample_entry status)])].

Definition sample_dockerfile (more : string) : source_file :=
  {| source_path := "docker/probe/Dockerfile"; source_text := "FROM alpine@sha256:" +:+ sample_digest +:+ newline +:+ more; source_form := Dockerfile |}.

Lemma images_are_locked_witness :
  image_lock_errors (sample_lock "verified") [sample_dockerfile ""] = Ok [] /\
  exists lock images policy, load_lock (sample_lock "verified") = Ok lock /\ get "images" lock = VDict images /\ read_policy lock = Ok policy /\
    forall name entry, (name, entry) ∈ images -> exists d, entry = VDict d /\ entry_in_force (str_join newline [source_text (sample_dockerfile "")]) d.
Proof.
  split; [vm_compute; reflexivity|].
  destruct (images_are_locked (sample_lock "verified") [sample_dockerfile ""]) as (lock & images & policy & H1 & H2 & H3 & _ & H4 & _); [vm_compute; reflexivity|].
  by exists lock, images, policy.
Defined.

(** The tag of an entry whose pin was there before the lock is known to it, and only of the verified ones is
    it looked for: a source may use it beside the pin. *)
Example inherited_tag_is_accepted :
  image_lock_errors (sample_lock "inherited-pinned") [sample_dockerfile "FROM alpine:3.20"] = Ok [] /\
  image_lock_errors (sample_lock "verified") [sample_dockerfile "FROM alpine:3.20"] =
    Ok ["alpine: mutable intent_ref remains in audited source: alpine:3.20"].
Proof. split; vm_compute; reflexivity. Qed.

Definition sample_settings : string :=
  str_join newline (map (fun key => key +:+ "=s3cret-" +:+ key) (REQUIRED_SECRETS ++ SOC_REQUIRED)).

Lemma secrets_carry_the_settings_witness :
  (forall path bytes, Some (utf8 path) = Some bytes -> Forall is_byte bytes) /\
  exists documents, runtime_secrets (fun path => Some (utf8 path)) (Some sample_settings) = Ok documents /\
  exists settings, load_env (Some sample_settings) = Ok settings /\
    forall key, key ∈ SOC_REQUIRED -> exists value, assoc key settings = Some value /\ value <> "" /\
      starts_with "CHANGE_ME" value = false /\ holds_bytes "cxyz-soc-passwords" key (utf8 value) documents.
Proof.
  assert (forall path bytes, Some (utf8 path) = Some bytes -> Forall is_byte bytes) as Hb by (intros path bytes [= <-]; apply utf8_bytes).
  split; [exact Hb|].
  assert (is_ok (runtime_secrets (fun path => Some (utf8 path)) (Some sample_settings)) = true) as Hok by (vm_compute; reflexivity).
  apply is_ok_true in Hok as [documents E]. exists documents. split; [exact E|].
  destruct (secrets_carry_the_settings (fun path => Some (utf8 path)) Hb (Some sample_settings) documents E) as (settings & Hs & _ & H & _ & _ & _).
  exists settings. split; [exact Hs|exact H].
Defined.

Lemma secret_settings_are_shared_witness :
  Forall (fun raw => bare_line raw = true) (splitlines sample_settings) /\ load_env (Some sample_settings) = parse_dotenv ".env" sample_settings.
Proof.
  assert (Forall (fun raw => bare_line raw = true) (splitlines sample_settings)) as H 
    by (apply List.Forall_forall, forallb_forall; vm_compute; reflexivity).
  split; [exact H|]. exact (secret_settings_are_shared ".env" sample_settings H).
Defined.
