(* ===== verification/NetViewProps.v ===== *)
(** Theorems about the network explorer ([NetView.v]): the view of a routing configuration does not depend on
    the secrets in it, and a foreign name reaches nothing. *)

From S2P Require Import Prelude PyText PyNum PyTime PyNet PyJson JsonText Policy Compliance Effects PyRe Fabric NetView FabricProps DeployProps.

(** ** A word and what follows it *)
Definition is_nonspace (a : ascii) : bool := negb (is_space a).

(** The rest of a pattern goes on with a space. *)
Definition needs_space {A} (k : cursor -> option A) : Prop :=
  forall c a t, rest c = String a t -> is_nonspace a = true -> k c = None.

Fixpoint last_of (b : option ascii) (w : string) : option ascii := match w with "" => b | String a w => last_of (Some a) w end.
Definition past (w t : string) (c : cursor) : cursor := {| before := last_of (before c) w; rest := t; groups := groups c |}.

Lemma star_word {A} (k : cursor -> option A) t : needs_space k -> forall w fuel c, (String.length w < fuel)%nat -> str_forallb is_nonspace w = true ->
  rest c = w +:+ String " " t -> star_loop (run nonspace) true k fuel c = k (past w (String " " t) c).
Proof.
  intros Hk. induction w as [|a w IH]; intros [|fuel] c Hf Hw Hc; try (cbn in Hf; lia); cbn [star_loop run nonspace].
  - rewrite Hc. cbn. f_equal. by destruct c; cbn in *; subst.
  - rewrite Hc. cbn [String.append]. change (String.append w ?x) with (w +:+ x). cbn [str_forallb] in Hw. apply andb_true_iff in Hw as [Ha Hw].
    change (negb (is_space a)) with (is_nonspace a). rewrite Ha.
    assert (shorter (step_over a (w +:+ String " " t) c) c = true) as ->.
    { unfold shorter. rewrite Hc. apply Nat.ltb_lt. cbn [step_over rest]. change (String a w +:+ ?x) with (String a (w +:+ x)). cbn [String.length]. lia. }
    rewrite IH; [|cbn in Hf; lia|done|done]. assert (k c = None) as -> by (eapply Hk; [exact Hc|done]).
    cbn [past last_of before step_over]. unfold first_of. by destruct (k _).
Qed.

Lemma take_app w t : str_take (String.length (w +:+ t) - String.length t) (w +:+ t) = w.
Proof.
  rewrite str_length_app. replace (String.length w + String.length t - String.length t)%nat with (String.length w) by lia.
  induction w as [|a w IH]; cbn; [by destruct t|]. f_equal. exact IH.
Qed.

(** A word is matched whole when a space has to come next. *)
Lemma run_word {A} n (k : cursor -> option A) c w t : (forall c', needs_space (fun c'' => k (close_group n c' c''))) ->
  w <> "" -> str_forallb is_nonspace w = true -> rest c = w +:+ String " " t ->
  run (word n) c k = k {| before := last_of (before c) w; rest := String " " t; groups := (n, w) :: groups c |}.
Proof.
  intros Hk Hn Hw Hc. destruct w as [|a w]; [done|]. cbn [str_forallb] in Hw. apply andb_true_iff in Hw as [Ha Hw].
  unfold word, some, many. cbn [run nonspace]. rewrite Hc. cbn [String.append]. change (String.append w ?x) with (w +:+ x).
  change (negb (is_space a)) with (is_nonspace a). rewrite Ha. cbn [step_over rest].
  rewrite (star_word _ t (Hk c) w); [|rewrite str_length_app; cbn; lia|done|done].
  f_equal. unfold close_group, past, step_over. cbn [before rest groups last_of]. f_equal. f_equal. f_equal. rewrite Hc.
  apply (take_app (String a w) (String " " t)).
Qed.

(** ** Lines with a secret *)
Definition password_line (n p : string) : string := "neighbor " +:+ n +:+ " password " +:+ p.
Definition key_line (k p : string) : string := "ip ospf message-digest-key " +:+ k +:+ " md5 " +:+ p.

Definition login_line (p : string) : string := "password " +:+ p.

Definition is_word_text (w : string) : Prop := w <> "" /\ str_forallb is_nonspace w = true.

(** The same but for the secret of a password or a key. *)
Inductive same_but_secret : string -> string -> Prop :=
| same_line l : same_but_secret l l
| other_password indent n p p' : str_forallb (Ascii.eqb " ") indent = true -> is_word_text n -> is_word_text p -> is_word_text p' ->
    same_but_secret (indent +:+ password_line n p) (indent +:+ password_line n p')
| other_key indent k p p' : str_forallb (Ascii.eqb " ") indent = true -> is_word_text p -> is_word_text p' ->
    same_but_secret (indent +:+ key_line k p) (indent +:+ key_line k p')
| other_login indent p p' : str_forallb (Ascii.eqb " ") indent = true -> is_word_text p -> is_word_text p' ->
    same_but_secret (indent +:+ login_line p) (indent +:+ login_line p').

Section frr.
Variable SECRET_MASK : string.
Notation frr_line := (frr_line SECRET_MASK).

(** What follows the neighbor's name in every rule starts with a space. *)
Lemma lit_space {A} (s : string) r (k : cursor -> option A) : needs_space (fun c => run (Cat (lit (String " " s)) r) c k).
Proof.
  intros c a t Hc Ha. cbn [run lit]. rewrite Hc. destruct (Ascii.eqb_spec " " a) as [<-|]; [by vm_compute in Ha|done].
Qed.

Definition named (n : string) (t : string) : cursor := {| before := last_of (Some " "%char) n; rest := t; groups := [(1%nat, n)] |}.

Lemma neighbor_word s r n t : is_word_text n ->
  re_match (Cat (lit "neighbor ") (Cat (word 1) (Cat (lit (String " " s)) r))) ("neighbor " +:+ n +:+ String " " t) =
  run (Cat (lit (String " " s)) r) (named n (String " " t)) Some.
Proof.
  intros [Hn Hw]. unfold re_match. set (tail := Cat (lit (String " " s)) r).
  change (run (Cat (lit "neighbor ") (Cat (word 1) tail)) (from_start ("neighbor " +:+ n +:+ String " " t)) Some)
    with (run (word 1) {| before := Some " "%char; rest := n +:+ String " " t; groups := [] |} (fun c => run tail c Some)).
  rewrite (run_word 1 _ _ n t); [done| |done|done|done].
  intros c' c a t' Hc Ha. unfold tail. by eapply lit_space.
Qed.

(** In a BGP block a password is recorded as masked; anywhere else the line is nothing. *)
Lemma password_in_block b n p st : is_word_text n ->
  apply_rules (rules_in SECRET_MASK b) (password_line n p) st =
  match b with
  | BgpBlock => in_bgp (set_neighbor n "password" (VStr SECRET_MASK)) st
  | _ => st
  end.
Proof.
  intros Hn. destruct b; try reflexivity. cbn [rules_in]. unfold bgp_rules. cbn [apply_rules].
  assert (by_pattern (Cat (lit "bgp router-id ") (word 1)) (password_line n p) = None) as -> by reflexivity.
  assert (by_pattern (cats [lit "neighbor "; word 1; lit " remote-as "; digits_of 2]) (password_line n p) = None) as ->.
  { exact (neighbor_word "remote-as " _ n ("password " +:+ p) Hn). }
  assert (by_pattern (cats [lit "neighbor "; word 1; lit " password "]) (password_line n p) = Some (step_over " " p (named n ""))) as ->; [|done].
  exact (neighbor_word "password " _ n ("password " +:+ p) Hn).
Qed.

Lemma key_in_block b k p st : apply_rules (rules_in SECRET_MASK b) (key_line k p) st = st.
Proof. by destruct b. Qed.

Lemma login_in_block b p st : apply_rules (rules_in SECRET_MASK b) (login_line p) st = st.
Proof. by destruct b. Qed.

Lemma secret_at_margin line st : (exists n p, line = password_line n p) \/ (exists k p, line = key_line k p) \/ (exists p, line = login_line p) ->
  apply_rules top_rules line st = st.
Proof. by intros [(n & p & ->)|[(k & p & ->)|(p & ->)]]. Qed.

Lemma strip_line indent head p : str_forallb (Ascii.eqb " ") indent = true -> is_word_text p ->
  (exists a t, head = String a t /\ is_space a = false) -> strip (indent +:+ head +:+ p) = head +:+ p.
Proof.
  intros Hi [Hn Hp] (a & t & -> & Ha). rewrite strip_space.
  - rewrite strip_lstrip. cbn [String.append lstrip]. rewrite Ha. change (String a (String.append t p)) with (String a t +:+ p).
    destruct p as [|b p]; [done|]. apply rstrip_app_id; [by cbn [str_forallb] in Hp; apply andb_true_iff in Hp as [Hb _]; apply negb_true_iff in Hb|].
    apply rstrip_none. cbn [str_forallb] in Hp. by apply andb_true_iff in Hp as [_ Hp].
  - eapply str_forallb_impl; [|exact Hi]. by intros c Hc%Ascii.eqb_eq; subst c.
Qed.

(** A line with a secret acts as the text of the line without its indentation does, whatever the secret. *)
Lemma secret_line indent head p st : str_forallb (Ascii.eqb " ") indent = true -> is_word_text p ->
  (exists a t, head = String a t /\ is_space a = false /\ Ascii.eqb "!" a = false) ->
  frr_line st (indent +:+ head +:+ p) =
  if match indent with "" => false | _ => true end then apply_rules (rules_in SECRET_MASK (current st)) (head +:+ p) st
  else apply_rules top_rules (head +:+ p) (set_block NoBlock st).
Proof.
  intros Hi Hp (a & t & -> & Ha & Hb). unfold NetView.frr_line. rewrite strip_line by eauto.
  assert (lstrip (indent +:+ String a t +:+ p) = String a t +:+ p) as ->.
  { rewrite lstrip_space; [cbn; by rewrite Ha|]. eapply str_forallb_impl; [|exact Hi]. by intros c Hc%Ascii.eqb_eq; subst c. }
  cbn [String.append String.eqb orb]. unfold starts_with at 1. cbn [String.prefix]. destruct (Ascii.ascii_dec "!" a) as [<-|_]; [by rewrite Ascii.eqb_refl in Hb|].
  destruct indent as [|c indent].
  - cbn [String.append]. unfold starts_with. cbn [String.prefix]. destruct (Ascii.ascii_dec " " a) as [<-|_]; [by vm_compute in Ha|done].
  - cbn [str_forallb] in Hi. apply andb_true_iff in Hi as [Hc _]. apply Ascii.eqb_eq in Hc. subst c.
    assert (starts_with " " (String " " indent +:+ String a (t +:+ p)) = true) as -> by (by destruct indent). done.
Qed.

Lemma same_line_same_view st l l' : same_but_secret l l' -> frr_line st l = frr_line st l'.
Proof.
  intros [l0|indent n p p' Hi Hn Hp Hp'|indent k p p' Hi Hp Hp'|indent p p' Hi Hp Hp']; [done| | |].
  - assert (forall q, password_line n q = ("neighbor " +:+ n +:+ " password ") +:+ q) as E by (intros q; unfold password_line; by rewrite !app_assoc_str).
    rewrite !E, !secret_line by (done || by eexists _, _). rewrite <- !E.
    rewrite !password_in_block, !secret_at_margin by (done || (left; by eexists _, _)). done.
  - assert (forall q, key_line k q = ("ip ospf message-digest-key " +:+ k +:+ " md5 ") +:+ q) as E by (intros q; unfold key_line; by rewrite !app_assoc_str).
    rewrite !E, !secret_line by (done || by eexists _, _). rewrite <- !E.
    rewrite !key_in_block, !secret_at_margin by (done || (right; left; by eexists _, _)). done.
  - unfold login_line. rewrite !secret_line by (done || by eexists _, _). change ("password " +:+ ?q) with (login_line q).
    rewrite !login_in_block, !secret_at_margin by (done || (right; right; by eexists)). done.
Qed.

(** C29: The view of a routing configuration does not depend on the secrets in it: two configurations whose lines
    differ in nothing but the passwords of BGP neighbors, the keys of OSPF interfaces and the login password, each a
    word, give the same view, so nothing that is derived from the view and shown can tell them apart. *)
Theorem routing_view_hides_secrets text text' : Forall2 same_but_secret (splitlines text) (splitlines text') ->
  parse_frr SECRET_MASK text = parse_frr SECRET_MASK text'.
Proof.
  unfold parse_frr. intros H. f_equal. generalize {| view := empty_frr; current := NoBlock |} as st. induction H as [|l l' lines lines' Hl H IH]; intros st; [done|].
  cbn [fold_left]. by rewrite (same_line_same_view st l l' Hl).
Qed.
End frr.

(** ** The server *)

(** A request that comes by a foreign name to the loopback gets nothing and runs nothing, and no request is
    left without an answer. *)
Theorem foreign_hosts_touch_nothing {S} host index_page model (live : M S val) header path query s :
  (str_in host LOOPBACK = true -> str_in (host_of_header header) LOOPBACK = false ->
     do_GET (allowed_hosts host) index_page model live header path query s = (Ok (NetView.plain 403 "forbidden host"), s)) /\
  is_ok (do_GET (allowed_hosts host) index_page model live header path query s).1 = true.
Proof.
  unfold do_GET, allowed_hosts. split.
  - intros -> ->. done.
  - destruct (if str_in host LOOPBACK then Some LOOPBACK else None) as [hosts|]; [destruct (negb _); [done|]|];
      unfold attempt; destruct (page _ _ _ _ _ s) as [[r|e] s']; done.
Qed.

(** ** Samples *)
Definition sample_config (password : string) : string := str_join newline
  ["hostname edge"; "password " +:+ password; "router bgp 65001"; " neighbor 198.10.10.1 remote-as 65010"; " neighbor 198.10.10.1 password " +:+ password; "!";
   "interface eth1"; " ip ospf message-digest-key 1 md5 " +:+ password; " vrrp 10 priority 150"].

Lemma routing_view_hides_secrets_witness :
  Forall2 same_but_secret (splitlines (sample_config "first")) (splitlines (sample_config "second")) /\
  parse_frr "****" (sample_config "first") = parse_frr "****" (sample_config "second") /\
  option_map neighbors (bgp (parse_frr "****" (sample_config "first"))) =
    Some [("198.10.10.1", [("remote_as", VInt 65010); ("password", VStr "****")])].
Proof.
  assert (Forall2 same_but_secret (splitlines (sample_config "first")) (splitlines (sample_config "second"))) as H.
  { assert (is_word_text "198.10.10.1" /\ is_word_text "first" /\ is_word_text "second") as (Hn & H1 & H2) by (repeat split; discriminate).
    pose proof (other_password " " _ _ _ eq_refl Hn H1 H2) as Hp. pose proof (other_key " " "1" _ _ eq_refl H1 H2) as Hk.
    pose proof (other_login "" _ _ eq_refl H1 H2) as Hl.
    assert (forall q, q = "first" \/ q = "second" -> splitlines (sample_config q) =
      ["hostname edge"; "" +:+ login_line q; "router bgp 65001"; " neighbor 198.10.10.1 remote-as 65010"; " " +:+ password_line "198.10.10.1" q; "!";
       "interface eth1"; " " +:+ key_line "1" q; " vrrp 10 priority 150"]) as E by (intros q [->| ->]; vm_compute; reflexivity).
    rewrite !E by auto. repeat (apply Forall2_cons; split; [apply same_line || exact Hp || exact Hk || exact Hl|]). apply Forall2_nil_2. }
  split; [exact H|]. split; [|reflexivity]. exact (routing_view_hides_secrets "****" (sample_config "first") (sample_config "second") H).
Defined.

(** The interfaces are found again in the topology that is rendered of the intent. *)
Example interfaces_are_found :
  rbind (topology_of sample_intent) (fun t => _interface_map sample_intent (match topology_value t with VDict d => d | _ => [] end)) =
  Ok [(("edge", "ab"), "eth1"); (("fw-core", "ab"), "eth1"); (("edge", "lan1"), "eth2"); (("pc1", "lan1"), "eth1"); (("fw-core", "dc"), "eth2")].
Proof. vm_compute. reflexivity. Qed.
