(* ===== verification/LabProps.v ===== *)
(** Theorems about the runner of the laboratory ([Lab.v]): a stage runs only on top of stages that
    succeeded, a run that exits with 0 has no failed and no blocked stage, and a stage that passed ran all of
    its commands to a good end. *)

From S2P Require Import Prelude PyText PyNum PyTime PyJson Policy Effects PyRe Fabric Lab.

(** ** Sublists *)
Lemma filter_sublist {A} (p : A -> bool) l : List.filter p l `sublist_of` l.
Proof. induction l as [|x l IH]; cbn; [constructor|]. destruct (p x); by constructor. Qed.

Lemma sublist_split {A} (l l' l1 l2 : list A) x : l `sublist_of` l' -> l = l1 ++ x :: l2 ->
  exists k1 k2, l' = k1 ++ x :: k2 /\ l1 `sublist_of` k1 /\ l2 `sublist_of` k2.
Proof.
  intros H. revert l1. induction H as [|y l l' H IH|y l l' H IH]; intros l1 E; [by destruct l1| |].
  - destruct l1 as [|z l1]; injection E as -> E.
    + exists [], l'. subst. split; [done|]. by split; [constructor|].
    + destruct (IH _ E) as (k1 & k2 & -> & H1 & H2). exists (z :: k1), k2. split; [done|]. split; [by constructor|done].
  - destruct (IH _ E) as (k1 & k2 & -> & H1 & H2). exists (y :: k1), k2. split; [done|]. split; [by constructor|done].
Qed.

Section machine.
Context {W : Type}.
Variable m : Machine W.
Implicit Types (stages chosen : list (Stage W)) (s : Stage W).

Lemma from_stage_sublist id l : from_stage (W := W) id l `sublist_of` l.
Proof. induction l as [|x l IH]; cbn; [constructor|]. destruct (String.eqb _ _); [done|by constructor]. Qed.

Lemma select_sublist stages ctx chosen : select stages ctx = Ok chosen -> chosen `sublist_of` stages.
Proof.
  unfold select. intros H.
  assert (forall c, (match given (only (args ctx)) with
    | Some text => let wanted := List.filter (fun x => negb (String.eqb x "")) (map strip (split_on "," text)) in
        let unknown := List.filter (fun w => negb (str_in w (ids_of stages))) wanted in
        raise_if (negb (Nat.eqb (length unknown) 0)) (SystemExit ("unknown stage(s): " +:+ str_join ", " unknown +:+ " (see --list)")) ;;?
        Ok (List.filter (fun s => str_in (s_id s) wanted) stages)
    | None => Ok (List.filter (fun s => bool_decide (mode ctx ∈ s_modes s)) stages)
    end)%py = Ok c -> c `sublist_of` stages) as Hfirst.
  { intros c. destruct (given (only (args ctx))); cbv zeta; [destruct (raise_if _ _); cbn; [|done]|]; intros [= <-]; apply filter_sublist. }
  destruct (match given (only (args ctx)) with Some _ => _ | None => _ end) as [c|e] eqn:E in H; [|done]. cbn in H.
  specialize (Hfirst c E). destruct (given (start (args ctx))) as [id|]; cbn in H.
  - destruct (raise_if _ _); cbn in H; [|done]. injection H as <-.
    destruct (given (skip (args ctx))); [etrans; [apply filter_sublist|]|]; (etrans; [apply from_stage_sublist|done]).
  - injection H as <-. destruct (given (skip (args ctx))); [etrans; [apply filter_sublist|done]|done].
Qed.

(** ** A stage's result *)
(** No check says that its stage was blocked. *)
Definition honest (s : Stage W) : Prop :=
  match s_work s with
  | Check f => forall ctx, returns (f ctx) (fun a => a.1 <> BLOCKED)
  | Commands _ => True
  end.

Definition good (id : string) (x : Result * W) : Prop := res_stage x.1 = id /\ res_status x.1 <> BLOCKED.

Lemma machine_keeps {A} id (c : M W A) : keeps (good id) (machine_ c).
Proof. intros [r w] H. unfold machine_. cbn. by destruct (c w) as [[a|e] w']. Qed.

Lemma machine_returns {A} (c : M W A) Q : returns c Q -> returns (machine_ c) Q.
Proof. intros H [r w] a s'. unfold machine_. cbn. destruct (c w) as [x w'] eqn:E. intros [= -> <-]. by eapply H. Qed.

Lemma set_keeps id f : (forall r, res_stage (f r) = res_stage r) -> (forall r, res_status r <> BLOCKED -> res_status (f r) <> BLOCKED) ->
  keeps (good id) (set_result (W := W) f).
Proof. intros H1 H2. apply keeps_modify. intros [r w] [Hn Hs]. split; cbn in *; [by rewrite H1|auto]. Qed.

(** A value that is returned with [Q], and the invariant kept on the way. *)
Lemma keeps_bind_returns {S A B} (I : S -> Prop) (c : M S A) (k : A -> M S B) Q :
  keeps I c -> returns c Q -> (forall a, Q a -> keeps I (k a)) -> keeps I (mbind c k).
Proof.
  intros Hc Hq Hk s Hs. unfold mbind. specialize (Hc s Hs). destruct (c s) as [[a|e] s'] eqn:E; [|done]. by apply (Hk a (Hq _ _ _ E)).
Qed.

Ltac set_step := match goal with
  | |- keeps _ (machine_ _) => apply machine_keeps
  | |- keeps _ (set_result _) => apply set_keeps; cbn; done
  | |- keeps _ _ => keeps_step
  end.

Lemma run_commands_keeps id ctx s logfile cmds : keeps (good id) (run_commands m ctx s logfile cmds).
Proof.
  induction cmds as [|c cmds IH]; cbn [run_commands]; [apply keeps_ret|]. repeat set_step; try exact IH.
Qed.

Lemma stage_body_keeps id ctx s logfile : honest s -> keeps (good id) (stage_body m ctx s logfile).
Proof.
  unfold honest, stage_body. destruct (s_work s) as [check|commands]; intros Hs.
  - unfold run_check. destruct (dry_run _); [by repeat set_step|].
    eapply keeps_bind_returns; [apply machine_keeps|apply machine_returns, Hs|]. intros [status message] Hb. cbn in Hb.
    apply keeps_bind; [apply set_keeps; [done|by cbn]|]. intros _. by repeat set_step.
  - apply keeps_bind; [apply machine_keeps|intros cmds]. apply keeps_bind; [by repeat set_step|intros _]. apply run_commands_keeps.
Qed.

Lemma guarded_body_keeps id ctx s logfile : honest s -> keeps (good id) (guarded_body m ctx s logfile).
Proof.
  intros Hs. unfold guarded_body. eapply triple_catch; [by apply stage_body_keeps|done|]. intros e _. by apply set_keeps.
Qed.

Lemma run_stage_good ctx s index w r w' : honest s -> run_stage m ctx s index w = (Ok r, w') -> res_stage r = s_id s /\ res_status r <> BLOCKED.
Proof.
  intros Hs. unfold run_stage. cbv zeta. destruct (monotonic m w) as [[t0|e] w0]; [|done].
  set (r0 := new_result _ _ _ _ _). pose proof (guarded_body_keeps (s_id s) ctx s (logdir ctx +:+ "/" +:+ log_name index (s_id s)) Hs (r0, w0)) as Hk.
  unfold triple in Hk. destruct (guarded_body _ _ _ _ (r0, w0)) as [[u|e] [r1 w1]]; [|done].
  destruct (monotonic m w1) as [[t1|e] w2]; [|done]. destruct (Hk ltac:(by split)) as [Hn Hb]. cbn in Hn, Hb.
  intros [= <- _]. destruct (_ && _); [destruct (s_warn_only s)|]; by cbn.
Qed.

(** ** The loop *)
Definition selected_ok (only_given : bool) (stages : list (Stage W)) (selected : list string) (results : list Result) (s : Stage W) (r : Result) : Prop :=
  res_stage r = s_id s /\
  (if bool_decide (res_status r = BLOCKED) then only_given = false /\ blockers stages selected results s <> []
   else only_given = true \/ blockers stages selected results s = []).

Definition is_given (o : option string) : bool := match given o with Some _ => true | None => false end.

Lemma turn_ok ctx stages selected results index s w r w' : honest s ->
  turn m ctx stages selected results index s w = (Ok r, w') -> selected_ok (is_given (only (args ctx))) stages selected results s r.
Proof.
  intros Hs. unfold turn, selected_ok, is_given. cbv zeta. destruct (blockers _ _ _ _) as [|d ds] eqn:E; cbn [length Nat.eqb negb andb].
  - intros H. apply run_stage_good in H as [Hn Hb]; [|done]. rewrite bool_decide_false by done. auto.
  - destruct (given (only (args ctx))).
    + intros H. apply run_stage_good in H as [Hn Hb]; [|done]. rewrite bool_decide_false by done. auto.
    + intros [= <- _]. by cbn.
Qed.

(** The results of the stages of a list, in order, each with what [P] says of its turn. *)
Inductive took_turns (P : list Result -> Stage W -> Result -> Prop) : list Result -> list (Stage W) -> list Result -> Prop :=
| turns_none results : took_turns P results [] []
| turns_more results s r l rs : P results s r -> took_turns P (results ++ [r]) l rs -> took_turns P results (s :: l) (r :: rs).

Lemma run_all_turns ctx stages selected : forall chosen index results w out i w', Forall honest chosen ->
  run_all m ctx stages selected index chosen results w = (Ok (out, i), w') ->
  exists done_ rest new, chosen = done_ ++ rest /\ out = results ++ new /\
    took_turns (selected_ok (is_given (only (args ctx))) stages selected) results done_ new /\
    (i = false -> rest = [] \/ exists r, r ∈ new /\ res_status r = FAIL).
Proof.
  induction chosen as [|s chosen IH]; cbn [run_all]; intros index results w out i w' Hh H.
  - injection H as <- <- _. exists [], [], []. split; [done|]. rewrite app_nil_r. split; [done|]. split; [constructor|auto].
  - apply Forall_cons in Hh as [Hs Hh]. unfold attempt in H. destruct (turn _ _ _ _ _ _ _ w) as [[r|e] w1] eqn:E.
    + apply turn_ok in E; [|done]. destruct (_ && _) eqn:Ef.
      * injection H as <- <- _. exists [s], chosen, [r]. split; [done|]. split; [done|]. split; [apply turns_more; [done|constructor]|].
        intros _. right. exists r. apply andb_true_iff in Ef as [Ef%bool_decide_eq_true _]. split; [by left|done].
      * apply IH in H as (d & rest & new & -> & -> & Ht & Hi); [|done].
        exists (s :: d), rest, (r :: new). split; [done|]. rewrite <- app_assoc. split; [done|]. split; [by constructor|].
        intros Hf. destruct (Hi Hf) as [->|(x & Hx & Hx')]; [by left|right]. exists x. split; [by right|done].
    + destruct e; try done. injection H as <- <- _. exists [], (s :: chosen), []. rewrite app_nil_r. split; [done|]. split; [done|].
      split; [constructor|done].
Qed.

Lemma turns_ids P results l rs : (forall res s r, P res s r -> res_stage r = s_id s) -> took_turns P results l rs -> map res_stage rs = ids_of l.
Proof. intros HP. induction 1 as [|results s r l rs H _ IH]; [done|]. cbn. by rewrite (HP _ _ _ H), IH. Qed.

(** The turn of a result: the stage it is of, and the results and stages before. *)
Lemma turns_split P results l rs pre r post : took_turns P results l rs -> rs = pre ++ r :: post ->
  exists l1 s l2, l = l1 ++ s :: l2 /\ length l1 = length pre /\ P (results ++ pre) s r /\ took_turns P results l1 pre.
Proof.
  intros H. revert pre. induction H as [|results s x l rs Hx Ht IH]; intros pre E; [by destruct pre|].
  destruct pre as [|y pre]; injection E as -> E.
  - exists [], s, l. rewrite app_nil_r. repeat split; [done|constructor].
  - destruct (IH _ E) as (l1 & s' & l2 & -> & Hl & HP & Ht'). exists (s :: l1), s', l2. rewrite <- app_assoc in HP. cbn. rewrite Hl.
    repeat split; [done|by constructor].
Qed.

(** What a stage may rest on: a stage that did not fail, or whose failure is a finding. *)
Definition settled (stages : list (Stage W)) (r : Result) : Prop :=
  res_status r ∈ [PASS; SKIP; WARN] \/ (res_status r = FAIL /\ is_finding stages (res_stage r) = true).

Lemma recorded_app results d r : recorded results d = Some r -> res_stage r = d /\ r ∈ results.
Proof.
  unfold recorded. intros H. apply find_some in H as [Hin E]. apply String.eqb_eq in E. split; [done|].
  by rewrite <- in_rev, <- list_elem_of_In in Hin.
Qed.

Lemma recorded_there results d : d ∈ map res_stage results -> exists r, recorded results d = Some r /\ res_stage r = d /\ r ∈ results.
Proof.
  intros Hin. destruct (recorded results d) as [r|] eqn:E.
  - exists r. split; [done|]. by eapply recorded_app.
  - exfalso. apply list_elem_of_fmap in Hin as (r & -> & Hin). unfold recorded in E. apply (find_none _ _) with (x := r) in E.
    + by rewrite String.eqb_refl in E.
    + by rewrite <- in_rev, <- list_elem_of_In.
Qed.

Lemma not_blocking stages results d r : recorded results d = Some r -> blocks stages results d = false -> settled stages r.
Proof.
  intros Hr. pose proof (proj1 (recorded_app _ _ _ Hr)) as <-. unfold blocks, settled. rewrite Hr.
  intros [Hb%bool_decide_eq_false|Hb]%andb_false_iff.
  - left. destruct (res_status r); set_solver.
  - right. apply negb_false_iff, andb_true_iff in Hb as [Hf Hs%bool_decide_eq_true]. done.
Qed.

Lemma blocking stages results d : blocks stages results d = true -> exists r, r ∈ results /\ res_stage r = d /\ ~ settled stages r.
Proof.
  unfold blocks. destruct (recorded results d) as [r|] eqn:Hr; [|done]. destruct (recorded_app _ _ _ Hr) as [<- Hin].
  intros [Hs Hf]%andb_true_iff. exists r. split; [done|]. split; [done|]. apply bool_decide_eq_true in Hs. apply negb_true_iff in Hf.
  intros [Hok|[Hfail Hfind]].
  - destruct Hs as [E|E]; rewrite E in Hok; set_solver.
  - rewrite Hfind, Hfail in Hf. done.
Qed.

(** What blocks a stage. *)
Lemma blocked_by stages selected results s : blockers stages selected results s <> [] ->
  exists d r, d ∈ s_needs s /\ r ∈ results /\ res_stage r = d /\ ~ settled stages r.
Proof.
  unfold blockers. destruct (List.filter _ _) as [|d ds] eqn:E; [done|]. intros _.
  assert (d ∈ d :: ds) as Hin by left. rewrite <- E, list_elem_of_In, filter_In, <- list_elem_of_In in Hin.
  destruct Hin as [Hd [_ Hb]%andb_true_iff]. apply blocking in Hb as (r & H1 & H2 & H3). eauto 6.
Qed.

(** A stage that was reported and not blocked rests on every need of its that was recorded. *)
Lemma needs_settled stages selected results s : blockers stages selected results s = [] ->
  forall d, d ∈ s_needs s -> d ∈ selected -> d ∈ map res_stage results -> exists r, r ∈ results /\ res_stage r = d /\ settled stages r.
Proof.
  unfold blockers. intros E d Hd Hsel Hrec. apply recorded_there in Hrec as (r & Hr & Hn & Hin). exists r. split; [done|]. split; [done|].
  apply (not_blocking _ results d); [done|]. destruct (blocks stages results d) eqn:Eb; [|done]. exfalso.
  assert (d ∈ List.filter (fun d => str_in d selected && blocks stages results d) (s_needs s)) as Hf.
  { rewrite list_elem_of_In. apply filter_In. rewrite <- list_elem_of_In. split; [done|]. rewrite Eb, andb_true_r. by apply str_in_elem. }
  rewrite E in Hf. by apply not_elem_of_nil in Hf.
Qed.

(** ** The stages of the laboratory *)

(** Every need is the name of a stage before. *)
Fixpoint needs_first (seen : list string) (l : list (string * list string)) : bool :=
  match l with
  | [] => true
  | (id, needs) :: l => forallb (fun d => str_in d seen) needs && negb (str_in id seen) && needs_first (seen ++ [id]) l
  end.
Definition outline (l : list (Stage W)) : list (string * list string) := map (fun s => (s_id s, s_needs s)) l.

Lemma stages_in_order ctx : needs_first [] (outline (build_stages m ctx)) = true.
Proof. reflexivity. Qed.

Lemma needs_first_split l : forall seen k1 s k2, needs_first seen (outline l) = true -> l = k1 ++ s :: k2 ->
  (forall d, d ∈ s_needs s -> d ∈ seen ++ ids_of k1) /\ (forall s', s' ∈ s :: k2 -> s_id s' ∉ seen ++ ids_of k1).
Proof.
  induction l as [|x l IH]; intros seen k1 s k2 H E; [by destruct k1|]. cbn in H. apply andb_true_iff in H as [[H1 H2]%andb_true_iff H3].
  rewrite forallb_forall in H1. apply negb_true_iff in H2.
  assert (forall k s', l = k -> s' ∈ k -> s_id s' ∉ seen ++ [s_id x]) as Hlater.
  { intros k s' <- Hin. apply list_elem_of_split in Hin as (a & b & ->). destruct (IH (seen ++ [s_id x]) a s' b H3 eq_refl) as [_ Hn].
    intros Hs. apply (Hn s' ltac:(by left)). rewrite elem_of_app. by left. }
  destruct k1 as [|y k1]; injection E as -> E.
  - cbn. rewrite app_nil_r. split.
    + intros d Hd. apply str_in_elem, H1. by rewrite <- list_elem_of_In.
    + intros s' [->|Hin]%elem_of_cons; [by rewrite <- str_in_elem, H2|]. intros Hs. apply (Hlater _ _ E Hin). rewrite elem_of_app. by left.
  - destruct (IH (seen ++ [s_id y]) k1 s k2 H3 E) as [Ha Hb]. rewrite <- app_assoc in Ha, Hb. by split.
Qed.

(** Among the stages selected, a need that is selected comes first. *)
Lemma selected_needs_first ctx chosen l1 s l2 : chosen `sublist_of` build_stages m ctx -> chosen = l1 ++ s :: l2 ->
  forall d, d ∈ s_needs s -> d ∈ ids_of chosen -> d ∈ ids_of l1.
Proof.
  intros Hsub E d Hd Hsel. destruct (sublist_split _ _ _ _ _ Hsub E) as (k1 & k2 & Ek & Hl1 & Hl2).
  destruct (needs_first_split _ [] k1 s k2 (stages_in_order ctx) Ek) as [Ha Hb]. specialize (Ha d Hd). cbn in Ha, Hb.
  subst chosen. unfold ids_of in Hsel |- *. rewrite map_app in Hsel. apply elem_of_app in Hsel as [Hsel|Hsel]; [done|]. exfalso.
  apply list_elem_of_fmap in Hsel as (s' & -> & Hin). apply (Hb s'); [|done].
  apply elem_of_cons in Hin as [->|Hin]; [by left|right]. by eapply elem_of_sublist.
Qed.

(** *** What the checks may say *)
Ltac returns_walk := repeat match goal with
  | |- returns (ret _) _ => apply returns_ret
  | |- returns (raise _) _ => apply returns_raise
  | |- returns (let x := _ in _) _ => cbv zeta
  | |- returns (let '(_, _) := ?p in _) _ => destruct p
  | |- returns (if ?b then _ else _) _ => destruct b
  | |- returns (match ?x with _ => _ end) _ => destruct x
  | |- returns (or_fail _ _) _ => unfold or_fail
  | |- (if ?b then _ else _).1 <> _ => destruct b
  | |- returns (mbind _ _) _ => eapply returns_bind; [apply returns_any|intros ? _]
  end; try done.

Lemma returns_catch {S A} (c : M S A) handled h (Q : A -> Prop) : returns c Q -> (forall e, returns (h e) Q) -> returns (catch c handled h) Q.
Proof. intros Hc Hh s a s'. unfold catch. destruct (c s) as [[x|e] s1] eqn:E; [|destruct (handled e); [apply Hh|done]]. intros [= <- <-]. by eapply Hc. Qed.

Lemma await_explorer_honest ctx pid port n : returns (await_explorer m ctx pid port n) (fun a => a.1 <> BLOCKED).
Proof. induction n as [|n IH]; cbn [await_explorer]; [by apply returns_ret|]. returns_walk. Qed.

Lemma running_explorer_honest ctx : returns (running_explorer m ctx) (fun a => from_option (fun x => x.1 <> BLOCKED) True a).
Proof. unfold running_explorer. returns_walk. apply returns_catch; [returns_walk|intros e; returns_walk]. Qed.

Lemma viz_start_honest ctx : returns (viz_start m ctx) (fun a => a.1 <> BLOCKED).
Proof.
  unfold viz_start. destruct (no_viz _); [by apply returns_ret|]. eapply returns_bind; [apply returns_any|intros _ _].
  eapply returns_bind; [apply running_explorer_honest|]. intros [a|] Ha; [by apply returns_ret|]. returns_walk. apply await_explorer_honest.
Qed.

Lemma stages_honest ctx : Forall honest (build_stages m ctx).
Proof.
  unfold build_stages.
  repeat (apply Forall_cons_2; [unfold honest; cbn [s_work stage finding with_hints]; try done|]); [..|constructor].
  all: intros c; first [apply viz_start_honest
    | unfold check_host, check_sudo, check_docker_access, fabric_verify, dmzlab_verify, honeypot_log, report_summary; by returns_walk].
Qed.

(** ** Theorems *)

(** C28: A stage runs only on top of what it needs.  In every run of the selected stages, finished, stopped at
    the first failure or interrupted, each result that does not say the stage was blocked belongs to a
    selected stage whose selected needs all have a result before it, each of them a stage that did not
    fail or one whose failure is a finding of the lab and not an error of the harness; and a stage that was
    blocked has a need before it that is not of these. *)
Theorem stages_wait_for_their_needs ctx chosen results interrupted w w' :
  given (only (args ctx)) = None -> select (build_stages m ctx) ctx = Ok chosen ->
  run_all m ctx (build_stages m ctx) (ids_of chosen) 1 chosen [] w = (Ok (results, interrupted), w') ->
  forall pre r post, results = pre ++ r :: post ->
  exists s, s ∈ chosen /\ s_id s = res_stage r /\
    let rests_on d := exists r', r' ∈ pre /\ res_stage r' = d /\ settled (build_stages m ctx) r' in
    (res_status r <> BLOCKED -> forall d, d ∈ s_needs s -> d ∈ ids_of chosen -> rests_on d) /\
    (res_status r = BLOCKED -> exists d r', d ∈ s_needs s /\ r' ∈ pre /\ res_stage r' = d /\ ~ settled (build_stages m ctx) r').
Proof.
  intros Honly Hsel Hrun pre r post E. pose proof (select_sublist _ _ _ Hsel) as Hsub.
  assert (Forall honest chosen) as Hh.
  { apply Forall_forall. intros s Hs. pose proof (stages_honest ctx) as Hall. rewrite Forall_forall in Hall. apply Hall. by eapply elem_of_sublist. }
  destruct (run_all_turns _ _ _ _ _ _ _ _ _ _ Hh Hrun) as (d0 & rest & new & Ec & Eo & Ht & _). cbn in Eo. subst new.
  destruct (turns_split _ _ _ _ _ _ _ Ht E) as (l1 & s & l2 & El & _ & [Hn Hturn] & Ht1). cbn in Hturn.
  exists s. subst d0. rewrite Ec. split; [|split; [done|]].
  { rewrite !elem_of_app, elem_of_cons. auto. }
  unfold is_given in Hturn. rewrite Honly in Hturn. rewrite <- Ec. split.
  - intros Hb d Hd Hsd. rewrite bool_decide_false in Hturn by done. destruct Hturn as [|Hblk]; [done|].
    eapply needs_settled; [exact Hblk|done|done|].
    rewrite (turns_ids _ _ _ _ (fun _ _ _ H => proj1 H) Ht1).
    eapply (selected_needs_first ctx chosen l1 s (l2 ++ rest)); [done|by rewrite Ec, <- app_assoc|done|done].
  - intros Hb. rewrite bool_decide_true in Hturn by done. destruct Hturn as [_ Hne].
    apply blocked_by in Hne as (d & r' & H1 & H2 & H3 & H4). eauto 6.
Qed.

Definition fine (r : Result) : Prop := res_status r ∈ [PASS; SKIP; WARN].

Lemma turns_fine given_ stages selected results l rs : took_turns (selected_ok given_ stages selected) results l rs ->
  Forall fine results -> Forall (fun r => res_status r <> FAIL) rs -> Forall fine rs.
Proof.
  induction 1 as [|results s r l rs [_ Hr] _ IH]; intros Hres Hf; [constructor|]. apply Forall_cons in Hf as [Hf Hfs].
  assert (fine r) as Hok.
  { unfold fine. destruct (res_status r) eqn:E; try set_solver. rewrite bool_decide_true in Hr by done. destruct Hr as [_ Hne]. exfalso.
    apply blocked_by in Hne as (d & r' & _ & Hin & _ & Hns). apply Hns. left. rewrite Forall_forall in Hres. by apply Hres. }
  constructor; [done|]. apply IH; [|done]. apply Forall_app. split; [done|]. by apply Forall_singleton.
Qed.

(** An exit code of 0 is earned: no stage failed and none was blocked, so unless the user interrupted the run
    every stage selected has a result, in their order, and it passed, warned, or had nothing to do. *)
Theorem success_is_earned write_report ctx w w' : list_stages (args ctx) = false -> teardown_asked (args ctx) = false ->
  main m write_report ctx w = (Ok 0, w') ->
  exists chosen w1 results interrupted w2, select (build_stages m ctx) ctx = Ok chosen /\
    run_all m ctx (build_stages m ctx) (ids_of chosen) 1 chosen [] w1 = (Ok (results, interrupted), w2) /\
    Forall fine results /\ (interrupted = false -> map res_stage results = ids_of chosen).
Proof.
  unfold main. cbv zeta. intros -> ->. unfold mbind at 1, lift. destruct (select _ _) as [chosen|e] eqn:Hsel; [|done].
  unfold mbind. destruct (make_dir m _ w) as [[u|e] w1]; [|done].
  destruct (run_all _ _ _ _ _ _ _ w1) as [[[results i]|e] w2] eqn:Hrun; [|done].
  destruct (write_report ctx results w2) as [[u'|e] w3]; [|done]. unfold ret, exit_code. intros [= Hexit _].
  destruct (existsb _ results) eqn:Hf; [done|]. exists chosen, w1, results, i, w2. split; [done|]. split; [done|].
  assert (Forall honest chosen) as Hh.
  { apply Forall_forall. intros s Hs. pose proof (stages_honest ctx) as Hall. rewrite Forall_forall in Hall. apply Hall.
    eapply elem_of_sublist; [done|]. by eapply select_sublist. }
  destruct (run_all_turns _ _ _ _ _ _ _ _ _ _ Hh Hrun) as (d & rest & new & Ec & Eo & Ht & Hi). cbn in Eo. subst new.
  assert (Forall (fun r => res_status r <> FAIL) results) as Hnf.
  { apply Forall_forall. intros r Hr E. apply not_true_iff_false in Hf. apply Hf, existsb_exists. exists r.
    by rewrite <- list_elem_of_In, bool_decide_true. }
  split; [by eapply turns_fine; [exact Ht|constructor|]|]. intros Hint. rewrite (turns_ids _ _ _ _ (fun _ _ _ H => proj1 H) Ht).
  destruct (Hi Hint) as [->|(r & Hr & E)]; [by rewrite Ec, app_nil_r|]. rewrite Forall_forall in Hnf. by destruct (Hnf r Hr).
Qed.

(** The commands of a stage, run one after the other, each to an accepted end. *)
Inductive all_succeed (ctx : Ctx) (logfile : string) : list Cmd -> W -> W -> Prop :=
| succeed_none w : all_succeed ctx logfile [] w w
| succeed_more c cmds w w1 output w2 w3 :
    (if c_interactive c then keep_sudo_alive m w = (Ok tt, w1) else w1 = w) ->
    run_cmd m ctx c logfile (env_of ctx) w1 = (Ok (0, output), w2) ->
    all_succeed ctx logfile cmds w2 w3 -> all_succeed ctx logfile (c :: cmds) w w3.

Lemma in_machine {A B} (c : M W A) (k : A -> M (Result * W) B) r w :
  mbind (machine_ c) k (r, w) = match c w with (Ok a, w') => k a (r, w') | (Err e, w') => (Err e, (r, w')) end.
Proof. unfold mbind, machine_. cbn. by destruct (c w) as [[a|e] w']. Qed.

(** Once a command failed the result says so, whatever comes of the rest. *)
Lemma failing_says_so {A} (k : M (Result * W) A) : (forall x, res_status x.1 = FAIL -> res_status (k x).2.1 = FAIL) ->
  forall rc text tail x, res_status ((set_result (set_failure rc text tail) ;;! k) x).2.1 = FAIL.
Proof. intros Hk rc text tail [r w]. unfold mbind, set_result, modify. cbn. by apply Hk. Qed.

Lemma run_commands_passed ctx s logfile : forall cmds r w u r' w', run_commands m ctx s logfile cmds (r, w) = (Ok u, (r', w')) ->
  res_status r' <> FAIL -> all_succeed ctx logfile cmds w w' /\ r' = r.
Proof.
  induction cmds as [|c cmds IH]; intros r w u r' w' H Hf; cbn [run_commands] in H.
  - injection H as _ <- <-. split; [constructor|done].
  - assert (exists w1, (if c_interactive c then keep_sudo_alive m w = (Ok tt, w1) else w1 = w) /\
      (let! '(rc, output) := machine_ (run_cmd m ctx c logfile (env_of ctx)) in
       if rc =? 0 then run_commands m ctx s logfile cmds
       else
         set_result (set_failure rc (display c) []) ;;!
         set_result (fun r => set_hints (match_hints output (s_hints s)) (set_points (extract_failure_points output) r)) ;;!
         set_result (set_failure rc (display c) (tail_of output)) ;;!
         let! text := machine_ (diagnose m ctx s logfile) in set_result (set_diagnostics text))%py (r, w1) = (Ok u, (r', w'))) as (w1 & Hk & H').
    { destruct (c_interactive c); [|by eauto]. rewrite in_machine in H. destruct (keep_sudo_alive m w) as [[[]|e] w1]; [|done]. by eauto. }
    rewrite in_machine in H'. destruct (run_cmd m ctx c logfile (env_of ctx) w1) as [[[rc output]|e] w2] eqn:Er; [|done].
    destruct (Z.eqb_spec rc 0) as [->|_].
    + apply IH in H' as [Ha ->]; [|done]. split; [|done]. by eapply succeed_more.
    + exfalso. apply Hf. assert (forall x, x = (Ok u, (r', w')) -> res_status x.2.1 = FAIL -> res_status r' = FAIL) as Hx by (by intros ? ->).
      apply (Hx _ H'). apply failing_says_so. intros [r2 w3] E2. unfold mbind, set_result, modify, machine_. cbn.
      by destruct (diagnose m ctx s logfile w3) as [[text|e] w4].
Qed.

(** A stage of commands that passed ran every one of its commands, in their order, to an accepted exit code:
    nothing failed, timed out or was missing. *)
Theorem passed_stage_ran_its_commands ctx s commands index w r w' :
  s_work s = Commands commands -> run_stage m ctx s index w = (Ok r, w') -> res_status r = PASS ->
  exists w1 cmds w2 w3, commands ctx w1 = (Ok cmds, w2) /\ cmds <> [] /\
    all_succeed ctx (logdir ctx +:+ "/" +:+ log_name index (s_id s)) cmds w2 w3.
Proof.
  intros Hw H Hp. unfold run_stage in H. cbv zeta in H. destruct (monotonic m w) as [[t0|e] w1]; [|done].
  set (logfile := logdir ctx +:+ _) in *. set (r0 := new_result _ _ _ _ _) in H.
  destruct (guarded_body m ctx s logfile (r0, w1)) as [[u|e] [r1 wx]] eqn:Eg; [|done].
  assert (res_status r1 = PASS) as Hr1.
  { destruct (monotonic m wx) as [[t1|e] wy]; [|done]. injection H as <- _. revert Hp.
    destruct (bool_decide _) eqn:Ef; cbn; [|done]. apply bool_decide_eq_true in Ef. cbn in Ef. destruct (s_warn_only s), (s_finding s); cbn; done. }
  unfold guarded_body, catch in Eg. destruct (stage_body m ctx s logfile (r0, w1)) as [[v|e] [r2 w2]] eqn:Eb.
  - injection Eg as _ <- <-. unfold stage_body in Eb. rewrite Hw, in_machine in Eb. destruct (commands ctx w1) as [[cmds|e] w3] eqn:Ec; [|done].
    destruct cmds as [|c cmds].
    + exfalso. unfold mbind, set_result, modify in Eb. cbn in Eb. injection Eb as _ <- _. done.
    + apply run_commands_passed in Eb as [Ha _]; [|by rewrite Hr1]. by exists w1, (c :: cmds), w3, w2.
  - destruct (is_exception e); [|done]. unfold set_result, modify in Eg. injection Eg as _ <- _. done.
Qed.
End machine.

(** ** A machine on which everything is there and programs end with the codes of a script; where the script
    has [None] the user interrupts. *)
Definition scripted (argv : list string) (env : list (string * string)) (interactive : bool) (timeout : Z) : M (list (option Z)) execution :=
  fun script =>
    match script with
    | Some rc :: rest => (Ok (Exited rc []), rest)
    | None :: rest => (Err KeyboardInterrupt, rest)
    | [] => (Ok (Exited 0 []), [])
    end.

Definition sample_machine : Machine (list (option Z)) :=
  {| append := fun _ _ => ret tt; write := fun _ _ => ret tt; read := fun _ => ret None; exists_file := fun _ => ret true; unlink := fun _ => ret tt;
     make_dir := fun _ => ret tt; list_dir := fun _ => ret []; which := fun _ => ret None;
     capture := fun _ _ => ret {| returncode := 0; stdout := ""; stderr := "" |}; execute := scripted; exec := fun _ _ => ret tt; spawn := fun _ => ret 7;
     has_ended := fun _ => ret false; kill := fun _ _ => ret tt; answers := fun _ => ret false; health := fun _ => ret 200; sleep := fun _ => ret tt;
     monotonic := ret 0; disk_free := ret 0; keep_sudo_alive := ret tt; summary_of := fun _ => ret (None, []) |}.

Definition sample_ctx : Ctx :=
  {| args := {| quick := false; offline := true; only := None; start := None; skip := None; dry_run := false; fail_fast := false; no_install := true;
                with_lstm := false; no_viz := true; viz_host := "127.0.0.1"; viz_port := 8088; list_stages := false; teardown_asked := false; purge := false |};
     argv := ["--offline"]; logdir := "logs/try-linux/r1"; root := "/lab"; home := "/root"; python := "/usr/bin/python3"; environ := [];
     is_root := false; system := "Linux"; release := "6.1"; machine := "x86_64"; has_terminal := false |}.

Definition sample_stages : list (Stage (list (option Z))) :=
  match select (build_stages sample_machine sample_ctx) sample_ctx with Ok chosen => chosen | Err _ => [] end.
Definition sample_run (script : list (option Z)) : list (string * Status) * bool :=
  match run_all sample_machine sample_ctx (build_stages sample_machine sample_ctx) (ids_of sample_stages) 1 sample_stages [] script with
  | (Ok (results, interrupted), _) => (map (fun r => (res_stage r, res_status r)) results, interrupted)
  | _ => ([], true)
  end.

(** The stage that needs the environment is not run when it could not be made. *)
Example failed_stage_blocks : sample_run [Some 1] =
  ([("host-os", PASS); ("deps-python", FAIL); ("offline-static", BLOCKED); ("offline-tests", BLOCKED); ("viz-start", BLOCKED)], false).
Proof. vm_compute. reflexivity. Qed.

(** A run that the user interrupts in its second stage exits with 0, although no stage but the first has a
    result. *)
Example interrupted_run_exits_with_0 :
  main sample_machine (fun _ _ => ret tt) sample_ctx [None] = (Ok 0, []) /\ sample_run [None] = ([("host-os", PASS)], true).
Proof. split; vm_compute; reflexivity. Qed.

Definition sample_results : list Result := Eval vm_compute in
  match run_all sample_machine sample_ctx (build_stages sample_machine sample_ctx) (ids_of sample_stages) 1 sample_stages [] [Some 1] with
  | (Ok (results, _), _) => results
  | _ => []
  end.

Lemma sample_selected : select (build_stages sample_machine sample_ctx) sample_ctx = Ok sample_stages.
Proof.
  assert (is_ok (select (build_stages sample_machine sample_ctx) sample_ctx) = true) as H by (vm_compute; reflexivity).
  unfold sample_stages. by destruct (select _ _).
Qed.

Lemma stages_wait_for_their_needs_witness :
  exists r', r' ∈ take 2 sample_results /\ ~ settled (build_stages sample_machine sample_ctx) r'.
Proof.
  destruct (stages_wait_for_their_needs sample_machine sample_ctx sample_stages sample_results false [Some 1] []) with
    (pre := take 2 sample_results) (r := nth 2 sample_results (new_result "" "" "" PASS "")) (post := drop 3 sample_results)
    as (s & _ & _ & _ & H).
  - reflexivity.
  - exact sample_selected.
  - vm_compute. reflexivity.
  - reflexivity.
  - destruct (H eq_refl) as (d & r' & _ & Hin & _ & Hs). by exists r'.
Defined.
