(* ===== verification/PolicyProps.v ===== *)
(** Theorems about [Policy.v] and [Decision.v]: what a loaded catalog satisfies and which targets its
    protections let through; when a containment command exists, and what it does not depend on. *)

From S2P Require Import Prelude PyText PyNum PyTime PyNet PyJson JsonText Sha256 Policy Decision Signing Sample.

(** A catalog that loads is well formed: its windows and rate limit are within their bounds,
    its addresses and host names are normalized, its policy identifiers are unique and match their
    keys, and every policy has a supported action, a TTL from one minute to one day, a score
    threshold from 0.9 to 1 and at least one requirement of a supported, non-AI signal type. *)
Theorem loaded_catalog_is_well_formed v source c : catalog_from_mapping v source = Ok c -> catalog_ok c.
Proof. apply catalog_wf. Qed.

Lemma sample_loads : catalog_from_mapping sample_document "in-memory" = Ok sample_catalog.
Proof. vm_compute. reflexivity. Qed.

Lemma loaded_catalog_is_well_formed_witness : policies sample_catalog <> [] /\ catalog_ok sample_catalog.
Proof. split; [done|]. exact (loaded_catalog_is_well_formed _ _ _ sample_loads). Defined.

(** * Which numbers are special *)
Definition dotted (a b c d : Z) : Z := ((a * 256 + b) * 256 + c) * 256 + d.
Definition hextets (a b c d : Z) : Z := a * 2 ^ 112 + b * 2 ^ 96 + c * 2 ^ 80 + d * 2 ^ 64.

(** Addresses a block may name at all. *)
Definition ordinary (a : ip_addr) : Prop :=
  match a with
  | IPv4 n =>
      0 < n < dotted 224 0 0 0 /\ ~ dotted 127 0 0 0 <= n < dotted 128 0 0 0 /\
      ~ dotted 169 254 0 0 <= n < dotted 169 255 0 0
  | IPv6 n _ =>
      hextets 0x2000 0 0 0 <= n < hextets 0x4000 0 0 0 \/ hextets 0xfc00 0 0 0 <= n < hextets 0xfe00 0 0 0 \/
      hextets 0xfec0 0 0 0 <= n < hextets 0xff00 0 0 0
  end.

(** Those of private use among them. *)
Definition private_use (a : ip_addr) : Prop :=
  match a with
  | IPv4 n =>
      n < dotted 1 0 0 0 \/ dotted 10 0 0 0 <= n < dotted 11 0 0 0 \/ dotted 172 16 0 0 <= n < dotted 172 32 0 0 \/
      (dotted 192 0 0 0 <= n < dotted 192 0 1 0 /\ n <> dotted 192 0 0 9 /\ n <> dotted 192 0 0 10) \/
      dotted 192 0 2 0 <= n < dotted 192 0 3 0 \/ dotted 192 168 0 0 <= n < dotted 192 169 0 0 \/
      dotted 198 18 0 0 <= n < dotted 198 20 0 0 \/ dotted 198 51 100 0 <= n < dotted 198 51 101 0 \/
      dotted 203 0 113 0 <= n < dotted 203 0 114 0
  | IPv6 n _ =>
      hextets 0xfc00 0 0 0 <= n < hextets 0xfe00 0 0 0 \/ hextets 0x2002 0 0 0 <= n < hextets 0x2003 0 0 0 \/
      hextets 0x2001 0xdb8 0 0 <= n < hextets 0x2001 0xdb9 0 0 \/
      (hextets 0x2001 0 0 0 <= n < hextets 0x2001 0x200 0 0 /\ n <> hextets 0x2001 1 0 0 + 1 /\ n <> hextets 0x2001 1 0 0 + 2 /\
       ~ hextets 0x2001 3 0 0 <= n < hextets 0x2001 4 0 0 /\ ~ hextets 0x2001 4 0x112 0 <= n < hextets 0x2001 4 0x113 0 /\
       ~ hextets 0x2001 0x20 0 0 <= n < hextets 0x2001 0x40 0 0)
  end.

Ltac powers :=
  repeat match goal with
  | |- context [2 ^ ?k] => let v := eval vm_compute in (2 ^ k) in change (2 ^ k) with v
  | H : context [2 ^ ?k] |- _ => let v := eval vm_compute in (2 ^ k) in change (2 ^ k) with v in H
  end.

Ltac to_ranges :=
  unfold number_in; cbn [existsb fst snd is_v4 Bool.eqb andb orb ip_number];
  rewrite ?orb_false_r, ?negb_true_iff, <- ?not_true_iff_false, ?andb_true_iff, <- ?not_true_iff_false, ?orb_true_iff, ?andb_true_iff, ?Z.leb_le, ?Z.ltb_lt, ?Z.eqb_eq.

Lemma ordinary_iff a : ip_wf a ->
  is_unspecified a || is_loopback a || is_link_local a || is_multicast a || is_reserved a = false <-> ordinary a.
Proof.
  intros Ha. pose proof (ip_number_bounds a Ha) as Hb. unfold is_unspecified, is_loopback, is_link_local, is_multicast, is_reserved, v6_reserved.
  destruct a as [n|n s]; erewrite !in_nets_range by first [exact Ha|vm_compute; reflexivity].
  all: to_ranges; unfold ordinary, dotted, hextets; cbn [width is_v4 ip_number] in Hb; powers; lia.
Qed.

Lemma private_use_iff a : ip_wf a -> ordinary a -> is_private a = true <-> private_use a.
Proof.
  intros Ha Ho. pose proof (ip_number_bounds a Ha) as Hb. unfold is_private, is_private_v4, v4_private, v4_private_exceptions, v6_private, v6_private_exceptions.
  destruct a as [n|n s].
  - erewrite !in_nets_range by first [exact Ha|vm_compute; reflexivity].
    to_ranges; unfold private_use, ordinary, dotted, hextets in *; cbn [width is_v4 ip_number] in Hb; powers; lia.
  - destruct (Z.eqb_spec (n / 2 ^ 32) 65535) as [E|_]; [exfalso|].
    + unfold ordinary, hextets in Ho. pose proof (Z.div_mod n (2 ^ 32)). pose proof (Z.mod_pos_bound n (2 ^ 32)). lia.
    + erewrite !in_nets_range by first [exact Ha|vm_compute; reflexivity].
      to_ranges; unfold private_use, ordinary, dotted, hextets in *; cbn [width is_v4 ip_number] in Hb; powers; lia.
Qed.

(** * What the document lists *)

(** A text of the document's list [name], the white space around it left out. *)
Definition written (data : mapping) (name s : string) : Prop :=
  exists items w, get name data = VList items /\ VStr w ∈ items /\ s = strip w.

Lemma string_list_written data name label l s : _string_list (get name data) label = Ok l -> s ∈ l <-> written data name s.
Proof.
  unfold _string_list, written. destruct (get name data) as [| | | |items|]; try discriminate.
  - intros [= <-]. split; [by intros ?%elem_of_nil|by intros (? & ? & [=] & _)].
  - intros H. apply rbind_Ok in H as (values & Hall & H). apply raise_seq_Ok in H as [_ [= ->]]. apply mapR_Forall2 in Hall.
    assert (s ∈ l <-> exists w, VStr w ∈ items /\ s = strip w) as ->; [|naive_solver].
    induction Hall as [|v t items l Ht Hall IH]; [by split; [intros ?%elem_of_nil|intros (w & ?%elem_of_nil & _)]|].
    assert (exists w, v = VStr w /\ t = strip w) as (w & -> & ->).
    { unfold _require_string in Ht. destruct v; try discriminate. destruct (String.eqb _ _); [discriminate|]. injection Ht as <-. eauto. }
    rewrite elem_of_cons, IH. setoid_rewrite elem_of_cons. naive_solver.
Qed.

Lemma parse_list_written {A} (parse : string -> option A) data name msg l x :
  parse_list parse data name msg = Ok l -> x ∈ l <-> exists s, written data name s /\ parse s = Some x.
Proof.
  unfold parse_list. intros H. apply try_except_Ok in H as [H|(e & _ & _ & ?)]; [|discriminate].
  apply rbind_Ok in H as (items & Hi & H). setoid_rewrite <- (string_list_written _ _ _ _ _ Hi). clear Hi.
  apply mapR_Forall2 in H. induction H as [|s y items l Hs H IH]; [by split; [intros ?%elem_of_nil|intros (w & ?%elem_of_nil & _)]|].
  rewrite elem_of_cons, IH. setoid_rewrite elem_of_cons. destruct (parse s) as [z|] eqn:E; [|discriminate]. injection Hs as <-. naive_solver.
Qed.

Lemma host_set_written data name label l h :
  _string_list (get name data) label = Ok l -> h ∈ host_set l <-> exists s, written data name s /\ h = py_lower s.
Proof.
  intros H. unfold host_set. rewrite elem_of_remove_dups, list_elem_of_fmap. setoid_rewrite (string_list_written _ _ _ _ _ H). naive_solver.
Qed.

(** The address is written in the list, scope identifier and all. *)
Definition lists_address (data : mapping) (name : string) (a : ip_addr) : Prop :=
  exists s, written data name s /\ ip_address s = Some a.

(** A network of the list has the address's number. *)
Definition lists_network_of (data : mapping) (name : string) (a : ip_addr) : Prop :=
  exists s n, written data name s /\ ip_network s = Some n /\ in_prefix a n.

Definition lists_host (data : mapping) (name host : string) : Prop :=
  exists s, written data name s /\ py_lower s = py_lower (strip host).

(** What a policy document lets a request contain: an ordinary address, not of private use where the
    document blocks those, that neither of its address lists names and none of its networks holds; or a
    host it lists as eligible and not as protected. *)
Inductive may_contain (data : mapping) : string -> string -> string -> Prop :=
| contain_address v a :
    ip_address v = Some a -> ordinary a ->
    (assoc "block_private_ip_targets" data = Some (VBool true) -> ~ private_use a) ->
    ~ lists_address data "allowlisted_ips" a -> ~ lists_address data "protected_ips" a ->
    ~ lists_network_of data "allowlisted_networks" a -> ~ lists_network_of data "protected_networks" a ->
    may_contain data "block_ip" "ip" v
| contain_host v :
    strip v <> "" -> lists_host data "allowed_isolation_hosts" v -> ~ lists_host data "protected_hosts" v ->
    may_contain data "isolate_host" "host" v.

Lemma networks_written data name l a : ip_wf a -> networks data name = Ok l ->
  (forall n, n ∈ l -> in_network a n = false) <-> ~ lists_network_of data name a.
Proof.
  intros Ha H. unfold lists_network_of. split.
  - intros Hl (s & n & Hs & Hn & Hin). assert (n ∈ l) as E by (eapply parse_list_written; eauto).
    specialize (Hl n E). apply in_network_prefix in Hin; [congruence|done|by eapply ip_network_wf].
  - intros Hno n Hn. apply not_true_iff_false. intros Hin. apply (parse_list_written _ _ _ _ _ _ H) in Hn as (s & Hs & Hp).
    apply Hno. exists s, n. split; [done|]. split; [done|]. apply in_network_prefix; [done|by eapply ip_network_wf|done].
Qed.

Lemma host_permitted_written data name label l v :
  _string_list (get name data) label = Ok l -> py_lower (strip v) ∈ host_set l <-> lists_host data name v.
Proof. intros H. rewrite (host_set_written _ _ _ _ _ H). unfold lists_host. naive_solver. Qed.

Lemma target_permitted_written data p action ty v : protection_policy_from_mapping (VDict data) = Ok p ->
  target_permitted p action ty v <-> may_contain data action ty v.
Proof.
  unfold protection_policy_from_mapping. intros H. apply rbind_Ok in H as (d & [= <-] & H).
  apply rbind_Ok in H as (_ & _ & H). apply rbind_Ok in H as (private & Hb & H).
  apply rbind_Ok in H as (ai & Hai & H). apply rbind_Ok in H as (an & Han & H).
  apply rbind_Ok in H as (pi & Hpi & H). apply rbind_Ok in H as (pn & Hpn & H).
  apply rbind_Ok in H as (ph & Hph & H). apply rbind_Ok in H as (ah & Hah & [= <-]).
  assert (private = true <-> assoc "block_private_ip_targets" data = Some (VBool true)) as Hprivate.
  { destruct (assoc _ data) as [[]|]; cbn [default] in Hb; try discriminate; injection Hb as <-; naive_solver. }
  assert (forall w a, ip_address w = Some a -> address_permitted
      {| allowlisted_ips := ai; allowlisted_networks := an; protected_ips := pi; protected_networks := pn;
         protected_hosts := host_set ph; allowed_isolation_hosts := host_set ah; block_private_ip_targets := private |} a <->
      ordinary a /\ (assoc "block_private_ip_targets" data = Some (VBool true) -> ~ private_use a) /\
      ~ lists_address data "allowlisted_ips" a /\ ~ lists_address data "protected_ips" a /\
      ~ lists_network_of data "allowlisted_networks" a /\ ~ lists_network_of data "protected_networks" a) as Haddress.
  { intros w a Ha%ip_address_wf. unfold address_permitted. cbn -[is_private].
    rewrite (networks_written _ _ _ _ Ha Han), (networks_written _ _ _ _ Ha Hpn), (parse_list_written _ _ _ _ _ a Hai),
      (parse_list_written _ _ _ _ _ a Hpi), Hprivate.
    pose proof (ordinary_iff a Ha) as Ho. pose proof (private_use_iff a Ha) as Hp. rewrite !orb_false_iff in Ho.
    rewrite <- not_true_iff_false with (b := is_private a). unfold lists_address. tauto. }
  split.
  - intros [w a Hw Ha|w H1 H2 H3].
    + apply (Haddress w) in Ha as (? & ? & ? & ? & ? & ?); [|done]. by eapply contain_address.
    + cbn in H2, H3. rewrite (host_permitted_written _ _ _ _ _ Hph) in H2. apply (host_permitted_written _ _ _ _ _ Hah) in H3. by constructor.
  - intros [w a Hw|w H1 H2 H3].
    + eapply permitted_ip; [done|]. by apply (Haddress w).
    + constructor; [done|..]; cbn; [by rewrite (host_permitted_written _ _ _ _ _ Hph)|by apply (host_permitted_written _ _ _ _ _ Hah)].
Qed.

(** C25: with the protections a document loads into, [assert_target_allowed] lets a target through
    exactly when the document may have it contained: [block_ip] on an ordinary address (by its
    number, not special-use nor reserved), not of private use where the document blocks those, that no
    address list of the document names and whose number lies in no network it lists; or
    [isolate_host] on a host listed as eligible and not as protected.  Every other action, target
    type or text raises [PolicyError].  An address is listed with its scope identifier, so a scoped
    spelling of a listed address is another one. *)
Theorem assert_target_allowed_spec data p action ty v : protection_policy_from_mapping (VDict data) = Ok p ->
  (assert_target_allowed p action ty v = Ok tt <-> may_contain data action ty v) /\
  (~ may_contain data action ty v -> exists m, assert_target_allowed p action ty v = Err (PolicyError m)).
Proof.
  intros Hp. pose proof (target_permitted_written data p action ty v Hp) as Hw. pose proof (target_allowed_iff p action ty v) as Hi.
  split; [tauto|]. intros Hn. destruct (assert_target_allowed p action ty v) as [[]|e] eqn:E; [tauto|].
  destruct (target_error_kind _ _ _ _ _ E) as [m ->]. by exists m.
Qed.

Definition sample_protections : mapping :=
  [("block_private_ip_targets", VBool true); ("allowlisted_ips", VList [VStr " 198.17.0.1 "]);
   ("protected_ips", VList [VStr "2600::53"]); ("protected_networks", VList [VStr "100.64.7.9/10"])].

Definition sample_protection_policy : ProtectionPolicy :=
  Eval vm_compute in result_or (protection_policy_from_mapping (VDict sample_protections)) empty_protections.

Lemma sample_protections_load : protection_policy_from_mapping (VDict sample_protections) = Ok sample_protection_policy.
Proof. vm_compute. reflexivity. Qed.

Lemma assert_target_allowed_spec_witness :
  may_contain sample_protections "block_ip" "ip" "203.0.112.9" /\ ~ may_contain sample_protections "block_ip" "ip" "100.100.0.1" /\
  ~ may_contain sample_protections "block_ip" "ip" "198.17.0.1" /\ ~ may_contain sample_protections "block_ip" "ip" "192.168.0.9".
Proof.
  pose proof (fun ty v => proj1 (assert_target_allowed_spec _ _ "block_ip" ty v sample_protections_load)) as H.
  split; [apply H; vm_compute; reflexivity|]. rewrite <- !H. split; [vm_compute; discriminate|]. by split; vm_compute.
Defined.

(** The scope identifier is part of an address: another spelling of a protected one passes. *)
Lemma scoped_spelling_passes :
  ~ may_contain sample_protections "block_ip" "ip" "2600::53" /\ may_contain sample_protections "block_ip" "ip" "2600::53%eth0".
Proof.
  rewrite <- !(target_permitted_written _ _ _ _ _ sample_protections_load), <- !target_allowed_iff. by split; vm_compute.
Qed.

(** * Exceptions of the loaders *)
Section errors.
Variable P : exn -> Prop.

(** [m] raises only exceptions of [P]. *)
Definition raises_only {A} (m : result A) : Prop := forall e, m = Err e -> P e.

Lemma raises_Ok {A} (a : A) : raises_only (Ok a).
Proof. by intros e [=]. Qed.

Lemma raises_Err {A} e : P e -> raises_only (@Err A e).
Proof. by intros H ? [= <-]. Qed.

Lemma raises_bind {A B} (m : result A) (k : A -> result B) :
  raises_only m -> (forall a, m = Ok a -> raises_only (k a)) -> raises_only (rbind m k).
Proof. intros Hm Hk e. destruct m as [a|e']; simpl; [by apply Hk|]. intros [= <-]. by apply Hm. Qed.

Lemma raises_if c e : P e -> raises_only (raise_if c e).
Proof. destruct c; [apply raises_Err|intros _; apply raises_Ok]. Qed.

Lemma raises_mapR {A B} (f : A -> result B) l : (forall x, raises_only (f x)) -> raises_only (mapR f l).
Proof.
  intros Hf. induction l as [|x l IH]; simpl; [apply raises_Ok|].
  apply raises_bind; [apply Hf|]. intros y _. apply raises_bind; [apply IH|]. intros ys _. apply raises_Ok.
Qed.

Lemma raises_mapiR {A B} (f : Z -> A -> result B) i l : (forall i x, raises_only (f i x)) -> raises_only (mapiR f i l).
Proof.
  intros Hf. revert i. induction l as [|x l IH]; intros i; simpl; [apply raises_Ok|].
  apply raises_bind; [apply Hf|]. intros y _. apply raises_bind; [apply IH|]. intros ys _. apply raises_Ok.
Qed.
End errors.

Lemma raises_weaken (P Q : exn -> Prop) {A} (m : result A) :
  (forall e, P e -> Q e) -> raises_only P m -> raises_only Q m.
Proof. intros HPQ Hm e He. by apply HPQ, Hm. Qed.

Lemma policy_error_intro m : is_policy_error (PolicyError m).
Proof. by exists m. Qed.

(** Goes through a loader; the basic loaders are resolved from the hint database. *)
Create HintDb loaders.
#[local] Hint Resolve policy_error_intro : loaders.

Ltac raises_walk :=
  repeat match goal with
  | |- raises_only _ (Ok _) => apply raises_Ok
  | |- raises_only _ (Err _) => apply raises_Err; auto with loaders
  | |- raises_only _ (rbind _ _) => apply raises_bind; [|intros ? ?]
  | |- raises_only _ (raise_if _ _) => apply raises_if; auto with loaders
  | |- raises_only _ (mapR _ _) => apply raises_mapR; intros ?
  | |- raises_only _ (mapiR _ _ _) => apply raises_mapiR; intros ? ?
  | |- raises_only _ (let x := _ in _) => cbv zeta
  | |- raises_only _ (if ?b then _ else _) => destruct b
  | |- raises_only _ (match ?x with _ => _ end) => destruct x
  end; auto with loaders.

Lemma require_mapping_raises v l : raises_only is_policy_error (_require_mapping v l).
Proof. unfold _require_mapping. raises_walk. Qed.
Lemma require_string_raises v l : raises_only is_policy_error (_require_string v l).
Proof. unfold _require_string. raises_walk. Qed.
Lemma require_positive_int_raises v l m : raises_only is_policy_error (_require_positive_int v l m).
Proof. unfold _require_positive_int. raises_walk. Qed.
Lemma non_empty_list_raises v m : raises_only is_policy_error (non_empty_list v m).
Proof. unfold non_empty_list. raises_walk. Qed.
Lemma reject_unknown_raises d l n : raises_only is_policy_error (reject_unknown d l n).
Proof. unfold reject_unknown. raises_walk. Qed.
#[local] Hint Resolve require_mapping_raises require_string_raises require_positive_int_raises
  non_empty_list_raises reject_unknown_raises : loaders.

Lemma string_list_raises v l : raises_only is_policy_error (_string_list v l).
Proof. unfold _string_list. raises_walk. Qed.
Lemma optional_int_raises v l m : raises_only is_policy_error (optional_int v l m).
Proof. unfold optional_int. raises_walk. Qed.

(** The [except ValueError] of the address and network lists catches everything their blocks
    raise. *)
Lemma parse_list_raises {A} (p : string -> option A) d n m : raises_only is_policy_error (parse_list p d n m).
Proof.
  unfold parse_list. set (block := rbind _ _).
  assert (raises_only (fun e => is_value_error e = true) block) as Hb.
  { unfold block. apply raises_bind.
    - eapply raises_weaken; [|apply string_list_raises]. by intros e [? ->].
    - intros items _. apply raises_mapR. intros s. destruct (p s); [apply raises_Ok|by apply raises_Err]. }
  unfold try_except. destruct block as [a|e]; [apply raises_Ok|]. rewrite (Hb e eq_refl). raises_walk.
Qed.
#[local] Hint Resolve string_list_raises optional_int_raises parse_list_raises : loaders.

Lemma requirement_raises v l : raises_only is_policy_error (signal_requirement_from_mapping v l).
Proof. unfold signal_requirement_from_mapping. raises_walk. Qed.
Lemma rate_limit_raises v : raises_only is_policy_error (rate_limit_from_mapping v).
Proof. unfold rate_limit_from_mapping. raises_walk. Qed.
Lemma protections_raises v : raises_only is_policy_error (protection_policy_from_mapping v).
Proof. unfold protection_policy_from_mapping, addresses, networks. raises_walk. Qed.
#[local] Hint Resolve requirement_raises rate_limit_raises protections_raises : loaders.

(** The exceptions a document can cause. *)
Definition load_error (e : exn) : Prop := is_policy_error e \/ e = OverflowError "int too large to convert to float".

Lemma load_error_policy e : is_policy_error e -> load_error e.
Proof. by left. Qed.

Lemma lift_policy {A} (m : result A) : raises_only is_policy_error m -> raises_only load_error m.
Proof. apply raises_weaken, load_error_policy. Qed.

Lemma score_raises v l : raises_only load_error (score_threshold v l).
Proof.
  unfold score_threshold. destruct v; try (apply lift_policy; raises_walk; fail).
  apply raises_bind; [|intros f _; apply lift_policy; raises_walk].
  unfold py_float. destruct n as [z|f]; [|apply raises_Ok].
  destruct (float_of_Z z); try apply raises_Ok. apply raises_Err. by right.
Qed.

Ltac loader_step :=
  first [ apply raises_bind; [first [apply score_raises | apply lift_policy; solve [raises_walk]]|intros ? ?]
        | apply lift_policy; solve [raises_walk] ].

Lemma response_policy_raises v i : raises_only load_error (response_policy_from_mapping v i).
Proof. unfold response_policy_from_mapping. cbv zeta. repeat loader_step. Qed.

(** Loading fails closed: a document is refused with [PolicyError], whatever its shape.  The one
    other exception is the [OverflowError] of converting a huge integer score threshold to a float. *)
Theorem catalog_loading_errors v source e :
  catalog_from_mapping v source = Err e -> is_policy_error e \/ e = OverflowError "int too large to convert to float".
Proof.
  revert e. change (raises_only load_error (catalog_from_mapping v source)). unfold catalog_from_mapping.
  repeat loader_step. apply raises_bind; [apply raises_mapiR; intros; apply response_policy_raises|intros ? ?].
  repeat loader_step.
Qed.

Lemma catalog_loading_errors_witness :
  exists e, catalog_from_mapping (VDict []) "in-memory" = Err e /\
  (is_policy_error e \/ e = OverflowError "int too large to convert to float").
Proof.
  eexists. assert (catalog_from_mapping (VDict []) "in-memory" =
    Err (PolicyError "policy document must contain only schema_version, defaults, and policies")) as H by reflexivity.
  split; [exact H|]. exact (catalog_loading_errors _ _ _ H).
Defined.

(** * Validated evidence *)
Definition signal_ok (s : signal) : Prop :=
  signal_type s ∈ SUPPORTED_SIGNAL_TYPES /\ reference s <> "" /\ strip (reference s) = reference s.

Lemma validate_signal_Ok index seen v s :
  validate_signal index seen v = Ok s -> signal_ok s /\ reference s ∉ seen.
Proof.
  unfold validate_signal. destruct v; try discriminate. intros H. ok_inv. subst. bool_inv. simpl.
  split; [split; [|split]|]; simpl.
  - by apply str_in_elem.
  - done.
  - apply strip_idem.
  - match goal with H : str_in _ seen = false |- _ => rewrite <- str_in_elem, H end. done.
Qed.

Lemma validate_signals_Ok index seen vs l :
  validate_signals index seen vs = Ok l ->
  Forall signal_ok l /\ NoDup (map reference l) /\ (forall r, r ∈ map reference l -> r ∉ seen) /\ length l = length vs.
Proof.
  revert index seen l. induction vs as [|v vs IH]; intros index seen l H; cbn [validate_signals] in H.
  - injection H as <-. split; [constructor|]. split; [constructor|]. split; [set_solver|done].
  - apply rbind_Ok in H as (s & Hs & H). apply rbind_Ok in H as (rest & Hr & [= <-]).
    apply validate_signal_Ok in Hs as [Hok Hn]. apply IH in Hr as (H1 & H2 & H3 & H4).
    split; [by constructor|]. split; [|split]; simpl.
    + constructor; [|done]. intros Hin. apply (H3 _ Hin). set_solver.
    + intros r [->|Hr]%elem_of_cons; [done|]. specialize (H3 r Hr). set_solver.
    + by rewrite H4.
Qed.

Lemma independent_signals_Ok v l :
  _validate_independent_signals v = Ok l ->
  exists vs l0, v = VList vs /\ validate_signals 0 [] vs = Ok l0 /\ l = sort_by signal_leb l0.
Proof.
  unfold _validate_independent_signals. destruct v; try discriminate. intros H.
  apply rbind_Ok in H as (l1 & H1 & [= <-]). eauto.
Qed.

Lemma signals_independent v l :
  _validate_independent_signals v = Ok l -> Forall signal_ok l /\ NoDup (map reference l).
Proof.
  intros H. apply independent_signals_Ok in H as (vs & l0 & -> & Hv & ->).
  apply validate_signals_Ok in Hv as (H1 & H2 & _). by rewrite sort_by_perm.
Qed.

Lemma check_signal_targets_Ok t id l :
  check_signal_targets t id l = Ok tt <-> Forall (fun s => signal_target s = t /\ reference s <> id) l.
Proof.
  induction l as [|s l IH]; simpl; [split; [constructor|done]|].
  rewrite !raise_seq_Ok, negb_false_iff, bool_decide_eq_true, String.eqb_neq, IH, Forall_cons. tauto.
Qed.

(** The time an observation text stands for lies in the window. *)
Definition fresh (oldest latest : Z) (observed_at : string) : Prop :=
  exists t, _parse_rfc3339 (VStr observed_at) "evidence.observed_at" = Ok t /\ oldest <= t <= latest.

Lemma stale_evidence_None oldest latest l :
  stale_evidence oldest latest l = Ok None <-> Forall (fresh oldest latest) l.
Proof.
  induction l as [|o l IH]; cbn [stale_evidence]; [split; [constructor|done]|].
  rewrite rbind_Ok, Forall_cons. split.
  - intros (t & Ht & H). destruct (t <? oldest) eqn:E1; [discriminate|].
    destruct (latest <? t) eqn:E2; [discriminate|]. bool_inv. split; [|by apply IH].
    exists t. split; [done|lia].
  - intros [(t & Ht & Hb) Hr]. exists t. split; [done|].
    rewrite (proj2 (Z.ltb_ge t oldest)), (proj2 (Z.ltb_ge latest t)) by lia. by apply IH.
Qed.

(** Some requirement of the policy is met by some signal. *)
Definition corroborated (p : ResponsePolicy) (signals : list signal) : Prop :=
  exists r s, r ∈ require_any p /\ s ∈ signals /\ matches r (signal_mapping s) = true.

Lemma corroborated_bool p signals :
  existsb (fun r => existsb (fun s => matches r (signal_mapping s)) signals) (require_any p) = true <-> corroborated p signals.
Proof.
  rewrite existsb_exists. setoid_rewrite existsb_exists. setoid_rewrite <- list_elem_of_In.
  unfold corroborated. split.
  - intros (r & Hr & s & Hs & Hm). by exists r, s.
  - intros (r & s & Hr & Hs & Hm). eauto.
Qed.

(** Everything the policy asks of the evidence. *)
Record authorizes (c : PolicyCatalog) (p : ResponsePolicy) (an : anomaly) (signals : list signal) (t : target)
    (now : Z) : Prop := {
  auth_fresh : Forall (fresh (now - seconds (evidence_max_age_seconds c)) (now + seconds 60))
    (anomaly_observed_at an :: map signal_observed_at signals);
  auth_anomalous : is_anomaly an = true;
  auth_score : num_ltb (PFloat (score an)) (PFloat (min_ai_score p)) = false;
  auth_corroborated : corroborated p signals;
  auth_target : target_permitted (protections c) (policy_action p) (target_type t) (target_value t) }.

Lemma shift_Ok t d x : shift t d = Ok x -> x = t + d.
Proof. unfold shift. destruct (in_range (t + d)); [by intros [= <-]|discriminate]. Qed.

Lemma rejection_None c p an signals t now :
  _rejection_reason c p an signals t now = Ok None -> authorizes c p an signals t now.
Proof.
  unfold _rejection_reason. intros H. apply rbind_Ok in H as (oldest & Ho & H). apply rbind_Ok in H as (latest & Hl & H).
  apply rbind_Ok in H as (stale & Hs & H). apply shift_Ok in Ho as ->. apply shift_Ok in Hl as ->.
  destruct stale as [s|]; [discriminate|]. apply stale_evidence_None in Hs.
  destruct (is_anomaly an) eqn:Ea; [|discriminate]. cbn [negb] in H.
  destruct (num_ltb _ _) eqn:Es; [discriminate|].
  destruct (existsb _ _) eqn:Ec; [|discriminate]. cbn [negb] in H. apply corroborated_bool in Ec.
  destruct (assert_target_allowed _ _ _ _) as [[]|e] eqn:Et.
  - split; try done. by apply target_allowed_iff.
  - destruct e; discriminate.
Qed.

(** Without a signal there is no request. *)
Lemma evaluate_shape {A} `{!CommandAuthenticator A} (e : DecisionEngine A) u pid av sv tv now cor d :
  evaluate e u pid av sv tv now cor = Ok d ->
  exists p ts an t signals,
    policy (engine_catalog e) pid = Ok p /\ _as_utc u now = Ok ts /\ _validate_anomaly av = Ok an /\
    _validate_target tv = Ok t /\ _validate_independent_signals sv = Ok signals /\ anomaly_target an = t /\
    Forall (fun s => signal_target s = t /\ reference s <> event_id an) signals /\
    ((signals = [] /\ d = anomaly_only) \/
     exists correlation, signals <> [] /\
      let id := _identifier "dec" (decision_material p an t signals) in
      correlation_label cor (_identifier "cor" (decision_material p an t signals)) = Ok correlation /\
      ((exists r, _rejection_reason (engine_catalog e) p an signals t ts = Ok (Some r) /\
          d = refuse_response p an signals t id correlation ts r) \/
       (_rejection_reason (engine_catalog e) p an signals t ts = Ok None /\
          request_response e p an signals t id correlation ts = Ok d))).
Proof.
  unfold evaluate. intros H. apply rbind_Ok in H as (p & Hp & H). apply rbind_Ok in H as (ts & Hts & H).
  apply rbind_Ok in H as (an & Han & H). apply rbind_Ok in H as (t & Ht & H). apply rbind_Ok in H as (signals & Hs & H).
  apply raise_seq_Ok in H as [Hat H]. bool_inv. apply rbind_Ok in H as ([] & Hc & H).
  apply check_signal_targets_Ok in Hc.
  exists p, ts, an, t, signals. repeat (split; [done|]).
  destruct (Nat.eqb (length signals) 0) eqn:En.
  { apply Nat.eqb_eq, length_zero_iff_nil in En. injection H as <-. by left. }
  right. apply rbind_Ok in H as (correlation & Hcor & H). apply rbind_Ok in H as (rejection & Hr & H).
  exists correlation. split; [by intros ->|]. split; [done|]. destruct rejection as [r|]; [left|by right].
  exists r. by injection H as <-.
Qed.

Lemma request_response_eligible {A} `{!CommandAuthenticator A} (e : DecisionEngine A) p an signals t id cor ts d :
  request_response e p an signals t id cor ts = Ok d -> eligible d = true.
Proof.
  unfold request_response. intros H. apply rbind_Ok in H as (x & _ & H). by apply rbind_Ok in H as (s & _ & [= <-]).
Qed.

(** C3: the decision engine issues a command, or says it is eligible, only for hybrid evidence: a
    valid anomaly flagged anomalous with a score at the policy's threshold, at least one
    independent signal about the same target (never the model's own event) that meets one of the
    policy's requirements, all of it fresh, and a target that the protections permit. *)
Theorem command_requires_hybrid_evidence {A} `{!CommandAuthenticator A} (e : DecisionEngine A) u pid av sv tv now cor d :
  evaluate e u pid av sv tv now cor = Ok d ->
  eligible d = true \/ command d <> None \/ action_request d <> None ->
  exists p ts an t signals,
    policy (engine_catalog e) pid = Ok p /\ _as_utc u now = Ok ts /\ _validate_anomaly av = Ok an /\
    _validate_target tv = Ok t /\ _validate_independent_signals sv = Ok signals /\
    anomaly_target an = t /\ Forall (fun s => signal_target s = t /\ reference s <> event_id an) signals /\
    authorizes (engine_catalog e) p an signals t ts.
Proof.
  intros H He. apply evaluate_shape in H as (p & ts & an & t & signals & Hp & Hts & Han & Ht & Hs & Hat & Hall & Hd).
  exists p, ts, an, t, signals. repeat (split; [done|]).
  destruct Hd as [[_ ->]|(c & _ & _ & [(r & _ & ->)|[Hr _]])].
  - simpl in He. naive_solver.
  - simpl in He. naive_solver.
  - by apply rejection_None.
Qed.

Lemma sample_decided :
  evaluate sample_engine sample_now "block-scanner" sample_anomaly (VList [sample_signal "alert-1" 3]) sample_target
    (Some (Aware sample_now)) VNone = Ok sample_decision.
Proof. vm_compute. reflexivity. Qed.

Lemma command_requires_hybrid_evidence_witness :
  eligible sample_decision = true /\
  exists p ts an t signals,
    policy sample_catalog "block-scanner" = Ok p /\ _as_utc sample_now (Some (Aware sample_now)) = Ok ts /\
    _validate_anomaly sample_anomaly = Ok an /\ _validate_target sample_target = Ok t /\
    _validate_independent_signals (VList [sample_signal "alert-1" 3]) = Ok signals /\
    anomaly_target an = t /\ Forall (fun s => signal_target s = t /\ reference s <> event_id an) signals /\
    authorizes sample_catalog p an signals t ts.
Proof.
  split; [reflexivity|].
  exact (command_requires_hybrid_evidence sample_engine _ _ _ _ _ _ _ _ sample_decided (or_introl eq_refl)).
Defined.

(** * What the decision does not depend on *)

(** Validation of one signal, whatever its position. *)
Lemma parse_label v l l' t : _parse_rfc3339 v l = Ok t -> _parse_rfc3339 v l' = Ok t.
Proof.
  unfold _parse_rfc3339. destruct v; try discriminate. destruct (String.eqb _ _); [discriminate|].
  by destruct (fromisoformat_z s) as [[? [?|]]|].
Qed.

Lemma finite_label v l l' n : _finite_number v l = Ok n -> _finite_number v l' = Ok n.
Proof.
  unfold _finite_number. destruct v as [| |n0| | |]; try discriminate. destruct (py_isfinite n0) as [[]|[]]; done.
Qed.

Lemma signal_number_label d f l l' o : signal_number d f l = Ok o -> signal_number d f l' = Ok o.
Proof.
  unfold signal_number. destruct (assoc f d); [|done]. intros H. apply rbind_Ok in H as (n & Hn & H).
  apply raise_seq_Ok in H as [Hc H]. rewrite (finite_label _ _ _ _ Hn). cbn [rbind]. by rewrite Hc.
Qed.

Lemma signal_integer_label d f l l' o : signal_integer d f l = Ok o -> signal_integer d f l' = Ok o.
Proof.
  unfold signal_integer. intros H. apply rbind_Ok in H as (n & Hn & H).
  rewrite (signal_number_label _ _ _ _ _ Hn). cbn [rbind]. destruct n; [|done].
  apply rbind_Ok in H as (z & -> & H). apply raise_seq_Ok in H as [Hc H]. cbn [rbind]. by rewrite Hc.
Qed.

Lemma signal_confidence_label d l l' o : signal_confidence d l = Ok o -> signal_confidence d l' = Ok o.
Proof.
  unfold signal_confidence. intros H. apply rbind_Ok in H as (n & Hn & H).
  rewrite (signal_number_label _ _ _ _ _ Hn). cbn [rbind]. destruct n; [|done].
  apply raise_seq_Ok in H as [Hc H]. by rewrite Hc.
Qed.

Lemma validate_signal_anywhere i seen v s j seen' :
  validate_signal i seen v = Ok s -> reference s ∉ seen' -> validate_signal j seen' v = Ok s.
Proof.
  unfold validate_signal. destruct v as [| | | | |d]; try discriminate. intros H Hn.
  apply raise_seq_Ok in H as [H1 H]. apply raise_seq_Ok in H as [H2 H].
  apply rbind_Ok in H as (ty & H3 & H). apply rbind_Ok in H as (ref & H4 & H).
  apply rbind_Ok in H as (obs & H5 & H). apply raise_seq_Ok in H as [_ H].
  apply rbind_Ok in H as (t & H6 & H). apply rbind_Ok in H as (sev & H7 & H).
  apply rbind_Ok in H as (cnt & H8 & H). apply rbind_Ok in H as (conf & H9 & [= <-]).
  cbn [reference] in Hn. rewrite H1, H2. cbn [raise_if rbind].
  destruct (get "type" d); try discriminate. destruct (str_in s _); [|discriminate]. injection H3 as ->.
  destruct (get "reference" d); try discriminate. destruct (String.eqb _ _); [discriminate|]. injection H4 as <-.
  cbn [rbind]. rewrite (parse_label _ _ _ _ H5). cbn [rbind].
  destruct (str_in _ seen') eqn:E; [by apply str_in_elem in E|]. cbn [raise_if rbind].
  rewrite H6. cbn [rbind]. rewrite (signal_integer_label _ _ _ _ _ H7). cbn [rbind].
  rewrite (signal_integer_label _ _ _ _ _ H8). cbn [rbind]. by rewrite (signal_confidence_label _ _ _ _ H9).
Qed.

Definition valid_signal (v : val) (s : signal) : Prop := validate_signal 0 [] v = Ok s.

Lemma validate_signals_iff i seen vs l :
  validate_signals i seen vs = Ok l <->
  Forall2 valid_signal vs l /\ NoDup (map reference l) /\ (forall r, r ∈ map reference l -> r ∉ seen).
Proof.
  revert i seen l. induction vs as [|v vs IH]; intros i seen l; cbn [validate_signals].
  - split; [|by intros (H & _); inversion H]. intros [= <-]. split; [constructor|]. split; [constructor|set_solver].
  - rewrite rbind_Ok. setoid_rewrite rbind_Ok. split.
    + intros (s & Hs & rest & Hr & [= <-]). pose proof (validate_signal_Ok _ _ _ _ Hs) as [_ Hn].
      apply IH in Hr as (H1 & H2 & H3). split; [|split].
      * constructor; [|done]. eapply validate_signal_anywhere; [done|set_solver].
      * simpl. constructor; [|done]. intros Hin. apply (H3 _ Hin). set_solver.
      * simpl. intros r [->|Hr]%elem_of_cons; [done|]. specialize (H3 r Hr). set_solver.
    + intros (H1 & H2 & H3). inversion H1 as [|? s ? rest Hs Hr]; subst. simpl in *.
      apply NoDup_cons in H2 as [H2 H4]. exists s. split; [eapply validate_signal_anywhere; [done|apply H3; set_solver]|].
      exists rest. split; [|done]. apply IH. split; [done|]. split; [done|].
      intros r Hr' [->|Hin]%elem_of_cons; [done|]. by eapply H3; [apply list_elem_of_further|].
Qed.

Lemma signal_leb_total a b : signal_leb a b = true \/ signal_leb b a = true.
Proof.
  unfold signal_leb. rewrite (String.eqb_sym (signal_type b)).
  destruct (String.eqb _ _); apply str_leb_total.
Qed.

Lemma signal_leb_trans a b c : signal_leb a b = true -> signal_leb b c = true -> signal_leb a c = true.
Proof.
  unfold signal_leb.
  destruct (String.eqb_spec (signal_type a) (signal_type b)) as [E1|E1],
    (String.eqb_spec (signal_type b) (signal_type c)) as [E2|E2],
    (String.eqb_spec (signal_type a) (signal_type c)) as [E3|E3]; try congruence; intros H1 H2;
    try (by eapply str_leb_trans; eauto).
  - exfalso. apply E1. apply str_leb_antisym; [done|]. by rewrite E3.
Qed.

Lemma independent_signals_perm vs vs' l :
  vs ≡ₚ vs' -> _validate_independent_signals (VList vs) = Ok l -> _validate_independent_signals (VList vs') = Ok l.
Proof.
  intros Hp H. unfold _validate_independent_signals in *. apply rbind_Ok in H as (l0 & H0 & [= <-]).
  apply validate_signals_iff in H0 as (H1 & H2 & H3).
  destruct (Permutation_Forall2 Hp H1) as (l1 & Hp1 & H4).
  assert (validate_signals 0 [] vs' = Ok l1) as ->.
  { apply validate_signals_iff. split; [done|]. rewrite <- Hp1. split; [done|set_solver]. }
  cbn [rbind]. f_equal. symmetry. apply sort_by_unique; [apply signal_leb_total|apply signal_leb_trans| |done].
  intros x y Hx Hy Hxy Hyx. eapply NoDup_map_inj; [exact H2|done..|].
  unfold signal_leb in *. rewrite (String.eqb_sym (signal_type y)) in Hyx.
  destruct (String.eqb_spec (signal_type x) (signal_type y)) as [|E]; [by apply str_leb_antisym|].
  exfalso. apply E. by apply str_leb_antisym.
Qed.

(** The decision, with its identifiers, its event and its command, does not depend on the
    order in which the corroborating signals were listed. *)
Theorem decision_ignores_signal_order {A} `{!CommandAuthenticator A} (e : DecisionEngine A) u pid av vs vs' tv now cor d :
  vs ≡ₚ vs' ->
  evaluate e u pid av (VList vs) tv now cor = Ok d -> evaluate e u pid av (VList vs') tv now cor = Ok d.
Proof.
  intros Hp. unfold evaluate. intros H. apply rbind_Ok in H as (p & -> & H). apply rbind_Ok in H as (ts & -> & H).
  apply rbind_Ok in H as (an & -> & H). apply rbind_Ok in H as (t & -> & H). apply rbind_Ok in H as (signals & Hs & H).
  cbn [rbind]. by rewrite (independent_signals_perm _ _ _ Hp Hs).
Qed.

Definition sample_pair : list val := [sample_signal "alert-2" 3; sample_signal "alert-1" 0].

Definition sample_pair_decision : DecisionResult :=
  Eval vm_compute in result_or (sample_evaluation sample_pair (VStr " case-7 ")) no_decision.

Lemma sample_pair_decided :
  evaluate sample_engine sample_now "block-scanner" sample_anomaly (VList sample_pair) sample_target
    (Some (Aware sample_now)) (VStr " case-7 ") = Ok sample_pair_decision.
Proof. vm_compute. reflexivity. Qed.

Lemma decision_ignores_signal_order_witness :
  eligible sample_pair_decision = true /\
  evaluate sample_engine sample_now "block-scanner" sample_anomaly (VList (rev sample_pair)) sample_target
    (Some (Aware sample_now)) (VStr " case-7 ") = Ok sample_pair_decision.
Proof.
  split; [reflexivity|]. apply (decision_ignores_signal_order sample_engine _ _ _ sample_pair); [|exact sample_pair_decided].
  apply perm_swap.
Defined.

(** With no corroborating signal the answer is always the alert-only one: neither a decision
    record nor a request nor a command exists, whatever the anomaly, the policy and the target. *)
Theorem anomaly_only_never_requests {A} `{!CommandAuthenticator A} (e : DecisionEngine A) u pid av tv now cor d :
  evaluate e u pid av (VList []) tv now cor = Ok d ->
  eligible d = false /\ decision_event d = None /\ action_request d = None /\ command d = None.
Proof.
  intros H. apply evaluate_shape in H as (p & ts & an & t & signals & _ & _ & _ & _ & Hs & _ & _ & Hd).
  injection Hs as <-. by destruct Hd as [[_ ->]|(c & Hne & _)].
Qed.

Lemma anomaly_only_never_requests_witness :
  exists d, evaluate sample_engine sample_now "block-scanner" sample_anomaly (VList []) sample_target
    (Some (Aware sample_now)) VNone = Ok d /\
  eligible d = false /\ decision_event d = None /\ action_request d = None /\ command d = None.
Proof.
  exists anomaly_only. assert (evaluate sample_engine sample_now "block-scanner" sample_anomaly (VList []) sample_target
    (Some (Aware sample_now)) VNone = Ok anomaly_only) as H by (vm_compute; reflexivity).
  split; [exact H|]. exact (anomaly_only_never_requests sample_engine _ _ _ _ _ _ _ H).
Defined.

(** The fields that identify a command and what it does. *)
Definition identity_fields : list string :=
  ["request_id"; "decision_event_id"; "idempotency_key"; "policy"; "target"; "action"; "ttl_seconds"].

Definition command_identity (d : DecisionResult) : option (list val) :=
  option_map (fun c => map (fun f => get f c) identity_fields) (command d).

Lemma request_response_identity {A} `{!CommandAuthenticator A} (e : DecisionEngine A) p an signals t id cor ts d :
  request_response e p an signals t id cor ts = Ok d ->
  reason d = "hybrid policy conditions satisfied" /\
  command_identity d = Some (let material := request_material p an t signals id in
    [VStr (_identifier "req" material); VStr id; VStr ("idemp-" +:+ sha256_hex material); policy_val p; target_val t;
     VStr (policy_action p); VInt (ttl_seconds p)]).
Proof.
  unfold request_response. intros H. apply rbind_Ok in H as (x & _ & H). by apply rbind_Ok in H as (s & _ & [= <-]).
Qed.

(** The correlation label is a tracing label only: two evaluations of the same evidence under
    different labels agree on eligibility, on the reason, and on every field that identifies the
    command (request, decision, idempotency key, policy, target, action, TTL). *)
Theorem correlation_label_is_not_identity {A} `{!CommandAuthenticator A} (e : DecisionEngine A) u pid av sv tv now cor1 cor2 d1 d2 :
  evaluate e u pid av sv tv now cor1 = Ok d1 -> evaluate e u pid av sv tv now cor2 = Ok d2 ->
  eligible d1 = eligible d2 /\ reason d1 = reason d2 /\ command_identity d1 = command_identity d2.
Proof.
  intros H1 H2.
  apply evaluate_shape in H1 as (p & ts & an & t & signals & Hp & Hts & Han & Ht & Hs & _ & _ & Hd1).
  apply evaluate_shape in H2 as (p' & ts' & an' & t' & signals' & Hp' & Hts' & Han' & Ht' & Hs' & _ & _ & Hd2).
  rewrite Hp in Hp'. injection Hp' as <-. rewrite Hts in Hts'. injection Hts' as <-.
  rewrite Han in Han'. injection Han' as <-. rewrite Ht in Ht'. injection Ht' as <-.
  rewrite Hs in Hs'. injection Hs' as <-.
  destruct Hd1 as [[E ->]|(c1 & Hne & _ & [(r1 & Hr1 & ->)|[Hr1 Hq1]])],
    Hd2 as [[E' ->]|(c2 & Hne' & _ & [(r2 & Hr2 & ->)|[Hr2 Hq2]])]; try done.
  - rewrite Hr1 in Hr2. by injection Hr2 as <-.
  - rewrite Hr1 in Hr2. discriminate.
  - rewrite Hr1 in Hr2. discriminate.
  - pose proof (request_response_eligible _ _ _ _ _ _ _ _ _ Hq1) as ->.
    pose proof (request_response_eligible _ _ _ _ _ _ _ _ _ Hq2) as ->.
    apply request_response_identity in Hq1 as [-> ->]. by apply request_response_identity in Hq2 as [-> ->].
Qed.

Definition sample_labelled : DecisionResult :=
  Eval vm_compute in result_or (sample_evaluation [sample_signal "alert-1" 3] (VStr "other-label")) no_decision.

Lemma sample_labelled_decided :
  evaluate sample_engine sample_now "block-scanner" sample_anomaly (VList [sample_signal "alert-1" 3]) sample_target
    (Some (Aware sample_now)) (VStr "other-label") = Ok sample_labelled.
Proof. vm_compute. reflexivity. Qed.

Lemma correlation_label_is_not_identity_witness :
  eligible sample_decision = eligible sample_labelled /\ reason sample_decision = reason sample_labelled /\
  command_identity sample_decision = command_identity sample_labelled.
Proof.
  exact (correlation_label_is_not_identity sample_engine _ _ _ _ _ _ _ _ _ _ sample_decided sample_labelled_decided).
Defined.

(** * Targets *)
Lemma rstrip_app a b : rstrip b = b -> b <> "" -> rstrip (a +:+ b) = a +:+ b.
Proof.
  intros Hb Hne. unfold rstrip in *. induction a as [|x a IH]; [done|]. cbn [String.append rstrip_by]. rewrite IH.
  destruct (a +:+ b) eqn:E; [|done]. destruct a; simpl in E; [by subst|done].
Qed.

Lemma rstrip_app_inv a b : rstrip (a +:+ b) = a +:+ b -> b <> "" -> rstrip b = b.
Proof.
  unfold rstrip. intros H Hne. induction a as [|x a IH]; [done|]. apply IH. cbn [String.append rstrip_by] in H.
  destruct (rstrip_by is_space (a +:+ b)) eqn:E.
  - destruct (is_space x); [done|]. injection H as H. destruct a; simpl in H; [by subst|done].
  - injection H as H. by rewrite H.
Qed.

Lemma strip_nonspace s : visible s = true -> rstrip s = s /\ lstrip s = s.
Proof.
  unfold rstrip, visible. induction s as [|a s IH]; [done|]. cbn [str_forallb rstrip_by lstrip]. intros H. bool_inv.
  destruct (IH H0) as [-> _]. rewrite H. split; [|done]. by destruct s.
Qed.

Lemma strip_fixed s : strip s = s -> rstrip s = s /\ lstrip s = s.
Proof.
  intros H. assert (rstrip s = s) as Hr.
  { rewrite <- H at 1. unfold strip. rewrite rstrip_lstrip. unfold rstrip. rewrite rstrip_by_idem. exact H. }
  split; [done|]. unfold strip in H. by rewrite Hr in H.
Qed.

Lemma lstrip_app a b : visible a = true -> a <> "" -> lstrip (a +:+ b) = a +:+ b.
Proof. destruct a as [|x a]; [done|]. unfold visible. simpl. intros H _. bool_inv. by rewrite H. Qed.

Lemma rstrip_cons_inv x s : rstrip (String x s) = String x s -> s <> "" -> rstrip s = s.
Proof. intros H. by apply (rstrip_app_inv (str1 x)). Qed.

(** A parsed address prints without white space around it. *)
Lemma ip_text_strip s a : strip s = s -> ip_address s = Some a -> strip (ip_text a) = ip_text a.
Proof.
  intros Hs Ha. pose proof (ip_address_wf _ _ Ha) as Hwf.
  assert (forall t, visible t = true -> strip t = t) as Hvis.
  { intros t Ht. destruct (strip_nonspace t Ht) as [H1 H2]. unfold strip. by rewrite H1. }
  destruct a as [n|n [scope|]]; cbn [ip_wf ip_text] in *.
  - by apply Hvis, ipv4_text_visible.
  - destruct Hwf as (Hn & Hne & _). rewrite (proj2 (String.eqb_neq scope "")) by done.
    destruct (ip_address_scope _ _ _ Ha) as [x ->]. destruct (strip_fixed _ Hs) as [Hr _].
    apply rstrip_app_inv in Hr; [|done]. change ("%" +:+ scope) with (String "%" scope).
    unfold strip. rewrite rstrip_app by done. apply lstrip_app; [by apply ipv6_text_visible|].
    intros E. pose proof (ipv6_text_colon n Hn) as Hc. by rewrite E in Hc.
  - by apply Hvis, ipv6_text_visible.
Qed.

Lemma ip_text_nonempty a : ip_wf a -> ip_text a <> "".
Proof. intros Hwf E. pose proof (ip_text_parse a Hwf) as H. rewrite E in H. by vm_compute in H. Qed.

Lemma validate_target_Ok v t : _validate_target v = Ok t ->
  target_value t <> "" /\ strip (target_value t) = target_value t /\
  ((target_type t = "ip" /\ exists a, ip_wf a /\ target_value t = ip_text a) \/
   (target_type t = "host" /\ py_lower (target_value t) = target_value t /\ str_len (target_value t) <= 255)).
Proof.
  unfold _validate_target. destruct v as [| | | | |d]; try discriminate. rewrite raise_seq_Ok. intros [_ H].
  destruct (get "type" d) as [| | |ty| |]; try discriminate. destruct (get "value" d) as [| | |w| |]; try discriminate.
  apply raise_seq_Ok in H as [Hc H]. bool_inv. destruct (String.eqb_spec ty "ip") as [->|Hty].
  - destruct (ip_address (strip w)) as [a|] eqn:Ea; [|discriminate]. injection H as <-. simpl.
    pose proof (ip_address_wf _ _ Ea) as Hwf. split; [by apply ip_text_nonempty|].
    split; [by eapply ip_text_strip; [apply strip_idem|]|]. left. eauto.
  - injection H as <-. simpl. split; [|split].
    + intros E. by apply py_lower_empty in E.
    + by rewrite strip_lower, strip_idem.
    + right. match goal with H : str_in ty _ = true |- _ => apply str_in_elem in H end. split; [set_solver|]. split; [apply py_lower_idem|].
      unfold str_len, py_lower in *. by rewrite str_map_length.
Qed.

(** Target normalization is idempotent: what [_validate_target] returns it accepts again
    unchanged, so the engine, its events and the orchestrator all name a target the same way.  (An
    IPv6 address with a scope may print longer than it was written; past 255 characters it is
    refused, never altered.) *)
Theorem validate_target_idempotent v t :
  _validate_target v = Ok t -> str_len (target_value t) <= 255 -> _validate_target (target_val t) = Ok t.
Proof.
  intros H Hlen. apply validate_target_Ok in H as (Hne & Hst & Hty). destruct t as [ty w]. simpl in *.
  unfold _validate_target, target_val. simpl target_type. simpl target_value.
  change (get "type" _) with (VStr ty). change (get "value" _) with (VStr w).
  change (same_keys _ _) with true. cbn [negb raise_if rbind]. rewrite Hst.
  rewrite (proj2 (String.eqb_neq w "")) by done. rewrite (proj2 (Z.ltb_ge 255 (str_len w))) by lia.
  destruct Hty as [[-> (a & Ha & ->)]|(-> & Hl & _)]; simpl.
  - by rewrite ip_text_parse.
  - by rewrite Hl.
Qed.

Lemma validate_target_idempotent_witness :
  let t := {| target_type := "ip"; target_value := "2001:db8::1%eth0" |} in
  _validate_target (VDict [("value", VStr " 2001:0DB8:0:0::1%eth0 "); ("type", VStr "ip")]) = Ok t /\
  _validate_target (target_val t) = Ok t.
Proof.
  intros t. assert (_validate_target (VDict [("value", VStr " 2001:0DB8:0:0::1%eth0 "); ("type", VStr "ip")]) = Ok t) as H
    by (vm_compute; reflexivity).
  split; [exact H|]. apply (validate_target_idempotent _ t H). vm_compute. discriminate.
Defined.

(** * Canonical JSON *)

(** Two values whose numbers print exactly have the same canonical text exactly when they are equal up
    to the order of the keys of their objects: the digest of a text, or a signature over it, is one of the
    value. *)
Theorem canonical_json_identifies_values v w : printable v = true -> printable w = true ->
  canonical_json v = canonical_json w <-> arranged true v = arranged true w.
Proof.
  intros Hv Hw. split; intros H.
  - by apply canonical_json_arranged.
  - by rewrite <- (canonical_arranged v), <- (canonical_arranged w), H.
Qed.

Lemma canonical_json_identifies_values_witness :
  canonical_json (VDict [("policy", VStr "p"); ("nonce", VList [VInt (-7); VBool true])]) =
  canonical_json (VDict [("nonce", VList [VInt (-7); VBool true]); ("policy", VStr "p")]).
Proof. by apply canonical_json_identifies_values. Defined.
