(* ===== verification/EngineProps.v ===== *)
(** Theorems about the orchestrator ([Engine.v]), from the invariants of [EngineInv.v] and
    [EngineFrame.v]. *)

From S2P Require Import Prelude PyText PyNum PyTime PyNet PyJson Sha256 Policy Decision Signing AuditLog Effects Store Adapters.
From S2P Require Import Engine EngineInv EngineFrame Sample.

Section props.
Context {W A : Type} `{!CommandAuthenticator A}.
Variable catalog : PolicyCatalog.
Variable authenticator : A.
Variable adapters : list (string * ContainmentAdapter W).
Notation O := (Orchestrator W).

(** C1: in every state an orchestrator reaches from a fresh ledger or store, under any calls,
    clocks, adapters and commit failures, the audit history of every response is a valid
    lifecycle; and while the orchestrator is in service each of its records agrees with that
    history: same state, same number of transitions, same command fields and expiry in every
    event, every applied, verified, reverted or failed event with its evidence, and a reference
    to revert by wherever containment is, or may be, in force. *)
Theorem records_agree_with_audit_history b w (o : O) :
  fresh_backend b -> reachable catalog authenticator adapters (initial b w) o ->
  (forall rid, valid_history rid (backend_events (backend o) rid)) /\
  (storage_failed o = false -> NoDup (records o).*1 /\
    (forall rid, backend_events (backend o) rid <> [] <-> exists r, assoc rid (records o) = Some r) /\
    forall rid r, assoc rid (records o) = Some r ->
      rid = r_response_id r /\ rid = _response_id (idempotency_key (r_command r)) /\
      latest_state (backend_events (backend o) rid) = Some (r_state r) /\
      r_transition_number r = Z.of_nat (length (backend_events (backend o) rid)) /\
      Forall (event_of r) (backend_events (backend o) rid) /\ revertible r).
Proof.
  intros Hb Hr. apply reachable_inv in Hr as [Hwf Hm]; [|by apply fresh_inv].
  split; [intros rid; by apply backend_valid|]. intros Hf. specialize (Hm Hf). destruct Hm as [H1 H2 H3 _].
  assert (forall rid r, assoc rid (records o) = Some r ->
      rid = r_response_id r /\ rid = _response_id (idempotency_key (r_command r)) /\
      latest_state (backend_events (backend o) rid) = Some (r_state r) /\
      r_transition_number r = Z.of_nat (length (backend_events (backend o) rid)) /\
      Forall (event_of r) (backend_events (backend o) rid) /\ revertible r) as Hall.
  { intros rid r Ha. destruct (H2 _ _ Ha) as [-> ((T1 & T2 & T3 & T4) & Hn & Hrev)].
    split; [done|]. split; [done|]. split; [by apply T3|]. done. }
  split; [done|]. split; [|done]. intros rid. split.
  - intros Hne. specialize (H3 rid Hne). destruct (assoc rid (records o)); [by eexists|done].
  - intros [r Ha] E. destruct (Hall _ _ Ha) as (_ & _ & Hl & _). by rewrite E in Hl.
Qed.

(** C6: only evidence makes a response VERIFIED: in every reachable state, a VERIFIED event
    carries a verification with at least one evidence reference, and comes right after the APPLIED
    event of the same response. *)
Theorem verified_only_with_evidence b w (o : O) rid i e :
  fresh_backend b -> reachable catalog authenticator adapters (initial b w) o -> storage_failed o = false ->
  backend_events (backend o) rid !! i = Some e -> ev_state e = VERIFIED ->
  (exists v, verification e = Some v /\ verification_refs v <> []) /\
  exists j e', i = S j /\ backend_events (backend o) rid !! j = Some e' /\ ev_state e' = APPLIED.
Proof.
  intros Hb Hr Hf Hi Hs. apply reachable_inv in Hr as [Hwf Hm]; [|by apply fresh_inv]. specialize (Hm Hf).
  assert (backend_events (backend o) rid <> []) as Hne by by intros E; rewrite E in Hi.
  pose proof (mem_complete _ Hm rid Hne) as Hsome.
  destruct (assoc rid (records o)) as [r|] eqn:Ha; [|done].
  destruct (mem_records _ Hm _ _ Ha) as [-> ((_ & _ & _ & Hall) & _)].
  rewrite Forall_lookup in Hall. destruct (Hall i e Hi) as (_ & _ & _ & _ & _ & _ & Hev).
  unfold event_evidence in Hev. rewrite Hs in Hev. split; [done|].
  pose proof (backend_valid _ (r_response_id r) Hwf) as Hv. destruct i as [|j].
  - destruct (valid_history_first _ _ e Hv) as [Hq _]; [by rewrite head_lookup|congruence].
  - assert (is_Some (backend_events (backend o) (r_response_id r) !! j)) as [e' He'].
    { apply lookup_lt_is_Some. apply lookup_lt_Some in Hi. lia. }
    exists j, e'. split; [done|]. split; [done|].
    destruct (valid_history_step _ _ _ _ _ Hv He' Hi) as [Hal _]. rewrite Hs in Hal.
    destruct (ev_state e'); set_solver.
Qed.

(** A persistence failure takes the orchestrator out of service: every method then raises, and
    changes nothing, adapters included. *)
Theorem storage_failure_stops_everything (o : O) op :
  storage_failed o = true ->
  run_method catalog authenticator adapters op o = o /\
  (forall value u now, exists m, (submit catalog authenticator adapters value u now o).1 = Err (RuntimeError m)) /\
  (forall rid u now, exists m, (Engine.apply catalog authenticator adapters rid u now o).1 = Err (RuntimeError m)).
Proof.
  intros Hf. assert (forall X (m : M O X), _serialized m o =
    (Err (RuntimeError "response persistence failed; close and reopen the store before recovery"), o)) as Hs.
  { intros X m. unfold _serialized, mbind, gets, raise_when, lift, raise_if. by rewrite Hf. }
  split; [|split].
  - by destruct op; cbn [run_method]; unfold submit, Engine.apply, verify_response, expire_due, rollback_response,
      recover_pending, restore_recovery; rewrite Hs.
  - intros. unfold submit. rewrite Hs. by eexists.
  - intros. unfold Engine.apply. rewrite Hs. by eexists.
Qed.

(** A command whose response exists already is answered from its record: no record, no audit
    event, no intent and no adapter call is added, and only stale entries leave the dedup cache. *)
Theorem duplicate_submission_changes_nothing (o : O) value u t c :
  storage_failed o = false -> _validate_command catalog authenticator value t = Ok c ->
  assoc (_response_id (idempotency_key c)) (records o) <> None ->
  let '(res, o') := submit catalog authenticator adapters value u (Some (Aware t)) o in
  records o' = records o /\ backend o' = backend o /\ world o' = world o /\ storage_failed o' = false /\
  (forall x, res = Ok x -> o_deduplicated x = true).
Proof.
  intros Hf Hc Hk. unfold submit.
  match goal with |- context [_serialized ?m o] => destruct (serialized_run m o) as [[_ ->]|[e ->]] end.
  2:{ repeat split; try done. }
  unfold mbind, lift, gets, modify, _prune_dedup, orchestrator_utc. cbn [default from_option id]. rewrite Hc.
  unfold modify. set (o1 := set_dedup _ o).
  assert (forall rid, let '(res, o') := duplicate_result rid o1 in
    records o' = records o /\ backend o' = backend o /\ world o' = world o /\ storage_failed o' = false /\
    (forall x, res = Ok x -> o_deduplicated x = true)) as Hdup.
  { intros rid. pose proof (duplicate_same rid o1) as Hs. destruct (duplicate_result rid o1) as [res o'] eqn:E.
    simpl in Hs. subst o'. repeat (split; [done|]). intros x ->. unfold duplicate_result in E.
    unfold mbind, _record in E. destruct (assoc rid (records o1)); [|discriminate].
    destruct (ledger_events rid o1) as [[h|] o2]; [|discriminate]. by injection E as <- _. }
  destruct (assoc (idempotency_key c) (dedup o1)) as [[cached until]|]; [apply Hdup|].
  change (records o1) with (records o).
  destruct (assoc (_response_id (idempotency_key c)) (records o)) as [r|] eqn:Ha; [|done]. apply Hdup.
Qed.
End props.

(** C2: whatever is submitted, applied, verified, expired, rolled back or recovered, in any order,
    and whatever the adapters answer or raise, an adapter is told to apply a given response at most
    once; and only if its intent was durably recorded before. *)
Theorem applied_at_most_once {W A} `{!CommandAuthenticator A} catalog (authenticator : A)
    (adapters : list (string * ContainmentAdapter W)) b w o rid :
  fresh_backend b -> reachable catalog authenticator (logged_table adapters) (initial b (w, [])) o ->
  (apply_count rid (world o).2 <= 1)%nat /\
  (apply_count rid (world o).2 = 1%nat -> rid ∈ backend_intents (backend o)).
Proof.
  intros Hb Hr. assert (framed OnceAt o) as Ho.
  { eapply reachable_once; [by apply fresh_inv| |exact Hr].
    intros rid'. unfold apply_count. simpl. apply Nat.le_0_l. }
  specialize (Ho rid). destruct (str_in rid (backend_intents (backend o))) eqn:E; [|lia].
  split; [done|]. intros _. by apply str_in_elem.
Qed.

Lemma records_agree_with_audit_history_witness :
  (forall rid, valid_history rid (backend_events (backend run_expired) rid)) /\ NoDup (records run_expired).*1 /\
  length (backend_events (backend run_expired) sample_rid) = 4%nat.
Proof.
  pose proof (records_agree_with_audit_history _ _ _ _ _ _ fresh_memory run_expired_reachable) as [H1 H2].
  split; [exact H1|]. split; [apply (H2 eq_refl)|reflexivity].
Defined.

Lemma verified_only_with_evidence_witness :
  exists e : AuditEvent, backend_events (backend run_verified) sample_rid !! 2%nat = Some e /\
  (exists v, verification e = Some v /\ verification_refs v <> []) /\
  exists j e', 2%nat = S j /\ backend_events (backend run_verified) sample_rid !! j = Some e' /\ ev_state e' = APPLIED.
Proof.
  eexists. split; [reflexivity|].
  exact (verified_only_with_evidence _ _ _ _ _ _ sample_rid 2 _ fresh_memory run_verified_reachable eq_refl eq_refl eq_refl).
Defined.

(** The same orchestrator after a commit failed. *)
Definition run_stopped : Orchestrator (contained * list call) := set_failed run_applied.

Lemma storage_failure_stops_everything_witness :
  sample_step verify_op run_stopped = run_stopped /\ sample_step expire_op run_applied <> run_applied.
Proof.
  split; [|vm_compute; discriminate].
  exact (proj1 (storage_failure_stops_everything sample_catalog sample_authenticator logged_adapters run_stopped verify_op eq_refl)).
Defined.

Lemma sample_command_valid :
  exists c, _validate_command sample_catalog sample_authenticator (VDict sample_command) sample_now = Ok c /\
  assoc (_response_id (idempotency_key c)) (records run_verified) <> None.
Proof. eexists. split; [vm_compute; reflexivity|]. vm_compute. discriminate. Qed.

Lemma duplicate_submission_changes_nothing_witness :
  let o' := (submit sample_catalog sample_authenticator logged_adapters (VDict sample_command) sample_now (at_time 0) run_verified).2 in
  records o' = records run_verified /\ backend o' = backend run_verified /\ world o' = world run_verified.
Proof.
  destruct sample_command_valid as (c & Hc & Hk).
  pose proof (duplicate_submission_changes_nothing sample_catalog sample_authenticator logged_adapters run_verified
    (VDict sample_command) sample_now sample_now c eq_refl Hc Hk) as H.
  cbv zeta. unfold at_time. change (sample_now + 0 * US_PER_SECOND) with sample_now.
  destruct (submit _ _ _ _ _ _ _) as [res o']. destruct H as (H1 & H2 & H3 & _). split; [exact H1|split; [exact H2|exact H3]].
Defined.

Lemma applied_at_most_once_witness :
  apply_count sample_rid (world run_expired).2 = 1%nat /\ sample_rid ∈ backend_intents (backend run_expired).
Proof.
  assert (apply_count sample_rid (world run_expired).2 = 1%nat) as E by (vm_compute; reflexivity).
  split; [exact E|].
  exact (proj2 (applied_at_most_once _ _ sample_adapters _ _ _ sample_rid fresh_memory run_expired_reachable) E).
Defined.
