(* ===== verification/BlocklistProps.v ===== *)
(** Theorems about the containment adapters: who owns a blocked address ([Ownership.v]), and what
    the outcomes of the blocklist adapter mean on every peer ([Blocklist.v], [Firewalls.v]). *)

From S2P Require Import Prelude PyText PyNum PyNet PyJson Decision AuditLog Effects Adapters Ownership Blocklist Firewalls Sample.

Section ownership.
Context {W : Type}.
Variable raw : RawSet W.
Variable present : W -> string -> Prop.
Context `{!RawSetLaws raw present}.

(** C33: a (normalized) address that was in the peer before the response plane touched it is never removed by it,
    whatever keys add and remove it, in any order, and whatever calls and commits fail. *)
Theorem preexisting_entry_never_removed a ops (s : Owned W) :
  _norm a = Ok a -> present (peer s) a -> (forall k, ~ holds (registry s) a k) -> present (peer (run_client raw ops s)) a.
Proof.
  intros Hn Hp Hk.
  apply (run_client_invariant raw present a (preserved present a) (fun _ => True)); [done|apply preserved_local|..].
  - intros k n x _ _. by apply (add_preserved raw present).
  - intros k x _ _. by apply (remove_preserved raw present).
  - by apply Forall_true.
  - split; [exact Hp|by left].
Qed.

(** The operations that are not a removal of [address] for [key]. *)
Definition keeps_claim (address key : string) (op : client_op) : Prop :=
  match op with
  | ClientRemove x k => ~ (_norm x = Ok address /\ k = key)
  | _ => True
  end.

(** Once an add for a key has succeeded the address stays in the peer until that key itself
    releases it, whatever other keys and other addresses do meanwhile. *)
Theorem held_entry_stays x a k n tag ops (s s1 : Owned W) :
  _norm x = Ok a -> add_soc_blocklist_address raw x k n s = (Ok tag, s1) -> Forall (keeps_claim a k) ops ->
  present (peer (run_client raw ops s1)) a /\ holds (registry (run_client raw ops s1)) a k.
Proof.
  intros Hn Hadd Hops. assert (held present a k s1) as Hs1.
  { unfold add_soc_blocklist_address in Hadd. unfold mbind, lift in Hadd. rewrite Hn in Hadd.
    pose proof (add_establishes raw present a k n s I) as H. by rewrite Hadd in H. }
  assert (held present a k (run_client raw ops s1)) as [Hh Hp]; [|by split].
  apply (run_client_invariant raw present a (held present a k) (keeps_claim a k)); [by eapply norm_idempotent|apply held_local|..]; [| |done|done].
  - intros k' n' y _ _. apply (add_normalized_held raw present).
  - intros k' y Hne Hy. apply (remove_normalized_held raw present). intros ->. by apply Hne.
Qed.

(** A (normalized) address the response plane itself added does not outlive its owners: whenever no key holds
    it any more it is gone from the peer, even when adds and removes timed out on the way. *)
Theorem released_entry_disappears a ops (s : Owned W) :
  _norm a = Ok a -> ~ present (peer s) a -> is_foreign (registry s) a = false ->
  (forall k, ~ holds (registry (run_client raw ops s)) a k) -> ~ present (peer (run_client raw ops s)) a.
Proof.
  intros Hn Hp Hf. assert (clean present a (run_client raw ops s)) as [_ Hc]; [|exact Hc].
  apply (run_client_invariant raw present a (clean present a) (fun _ => True)); [done|apply clean_local|..].
  - intros k n x _ _. by apply add_clean.
  - intros k x _ _. by apply remove_clean.
  - by apply Forall_true.
  - split; [exact Hf|]. intros _. exact Hp.
Qed.
End ownership.

Definition sample_ops : list client_op :=
  [ClientAdd "8.8.4.4" "response-a" (Some 3900); ClientAdd "8.8.4.4" "response-b" None; ClientRemove "8.8.4.4" "response-b"].

Lemma preexisting_entry_never_removed_witness :
  let s := fresh_peer ["8.8.4.4"] [] in
  let ops := sample_ops ++ [ClientRemove "8.8.4.4" "response-a"] in
  sample_present (peer (run_client sample_raw ops s)) "8.8.4.4" /\ owner_rows (registry (run_client sample_raw ops s)) = [].
Proof.
  intros s ops. split; [|vm_compute; reflexivity].
  apply (preexisting_entry_never_removed sample_raw sample_present "8.8.4.4" ops s).
  - vm_compute. reflexivity.
  - unfold sample_present. simpl. set_solver.
  - intros k. apply fresh_holds.
Defined.

Lemma held_entry_stays_witness :
  let s1 := run_client sample_raw [ClientAdd "8.8.4.4" "response-a" (Some 3900)] (fresh_peer [] []) in
  let s := run_client sample_raw [ClientAdd "8.8.4.4" "response-b" None; ClientRemove "8.8.4.4" "response-b"] s1 in
  sample_present (peer s) "8.8.4.4" /\ holds (registry s) "8.8.4.4" "response-a".
Proof.
  intros s1 s. apply (held_entry_stays sample_raw sample_present "8.8.4.4" "8.8.4.4" "response-a" (Some 3900) "added:response-a"
    [ClientAdd "8.8.4.4" "response-b" None; ClientRemove "8.8.4.4" "response-b"] (fresh_peer [] []) s1).
  - vm_compute. reflexivity.
  - vm_compute. reflexivity.
  - constructor; [exact I|]. constructor; [|constructor]. intros [_ H]. discriminate.
Defined.

(** Here the add of the first key times out after taking effect. *)
Lemma released_entry_disappears_witness :
  let s := fresh_peer [] [false] in
  let mid := run_client sample_raw sample_ops s in
  let ops := sample_ops ++ [ClientRemove "8.8.4.4" "response-a"] in
  sample_present (peer mid) "8.8.4.4" /\ ~ sample_present (peer (run_client sample_raw ops s)) "8.8.4.4".
Proof.
  intros s mid ops. split; [vm_compute; left|].
  apply (released_entry_disappears sample_raw sample_present "8.8.4.4" ops s).
  - vm_compute. reflexivity.
  - unfold sample_present. simpl. apply not_elem_of_nil.
  - reflexivity.
  - intros k H. apply holds_rows in H as (r & Hr & _).
    assert (owner_rows (registry (run_client sample_raw ops s)) = []) as E by (vm_compute; reflexivity).
    rewrite E in Hr. by apply not_elem_of_nil in Hr.
Defined.

Section firewalls.
Context {P : Type}.
Variable raws : nat -> RawSet P.
Variable present : P -> string -> Prop.
Context `{Hlaws : !forall i, RawSetLaws (raws i) present}.

(** When the blocklist adapter reports an application, the address is blocked and owned by the
    command's key on every configured peer, none excepted. *)
Theorem apply_ok_enforces_everywhere name names c address s out s' :
  _command_address c = Ok address -> length s = length names ->
  blocklist_apply (firewalls raws name names) c s = (Ok out, s') -> ok out = true ->
  forall j p, s' !! j = Some p -> present (peer p) address /\ holds (registry p) address (idempotency_key c).
Proof.
  intros Ha Hlen H Hok j p Hj. destruct (blocklist_apply_holds raws present name names c address s out s' Ha Hlen H Hok j p Hj).
  by split.
Qed.

(** When the blocklist adapter reports a removal, the command's key owns the address on no peer,
    and on every peer the address is gone, or held by another key, or was there before. *)
Theorem revert_ok_releases_everywhere name names c address reference s out s' :
  _command_address c = Ok address -> length s = length names ->
  blocklist_revert (firewalls raws name names) c reference s = (Ok out, s') -> ok out = true ->
  forall j p p', s !! j = Some p -> s' !! j = Some p' -> peer_released present address (idempotency_key c) p p'.
Proof.
  intros Ha Hlen H Hok. unfold blocklist_revert in H. rewrite Ha in H. unfold mbind, lift in H.
  destruct (_idempotency_key c) as [key|e] eqn:Ek; [|discriminate].
  assert (key = idempotency_key c) as -> by (unfold _idempotency_key in Ek; apply raise_seq_Ok in Ek as [_ [= ->]]; done).
  destruct (revert_peers _ address (idempotency_key c) _ [] [] s) as [[[refs failures]|e] s1] eqn:El; [|discriminate].
  injection H as <- <-. destruct failures as [|f failures]; [|discriminate].
  apply (revert_peers_released raws present) in El as [_ Hall]; [|by eapply command_address_norm|done].
  intros j p p'. apply Hall. lia.
Qed.
End firewalls.

(** ** Compensation *)

(** The calls an adapter makes to its peers. *)
Inductive peer_call : Type :=
| AddCall (name : string)
| RemoveCall (name : string)
| ContainsCall (name : string).

Section compensation.
Context {W : Type}.

Definition log_peer_call {X} (k : peer_call) (m : M W X) : M (W * list peer_call) X :=
  fun s => let '(r, w) := m s.1 in (r, (w, s.2 ++ [k])).

(** A peer with its calls recorded next to the state. *)
Definition logged_peer (p : BlocklistPeer W) : BlocklistPeer (W * list peer_call) :=
  {| peer_name := peer_name p;
     peer_client := {| client_add := fun a k n => log_peer_call (AddCall (peer_name p)) (client_add (peer_client p) a k n);
                       client_remove := fun a k => log_peer_call (RemoveCall (peer_name p)) (client_remove (peer_client p) a k);
                       client_contains := fun a => log_peer_call (ContainsCall (peer_name p)) (client_contains (peer_client p) a) |} |}.

(** What the loop of [apply] does to the peers it gets through, and to the one it stops at. *)
Definition full_calls (p : BlocklistPeer W) : list peer_call := [AddCall (peer_name p); ContainsCall (peer_name p)].
Definition last_calls (asked : bool) (p : BlocklistPeer W) : list peer_call := if asked then full_calls p else [AddCall (peer_name p)].

Lemma rollback_calls b a k peers s :
  exists refs w, rollback_peers b a k (map logged_peer peers) s =
    (Ok refs, (w, s.2 ++ map (fun p => RemoveCall (peer_name p)) peers)).
Proof.
  revert s. induction peers as [|p peers IH]; intros [w l]; cbn [map rollback_peers].
  { exists [], w. unfold ret. simpl. by rewrite app_nil_r. }
  unfold attempt. cbn [client_remove peer_client logged_peer]. unfold log_peer_call. cbn [fst snd].
  destruct (client_remove (peer_client p) a k w) as [r w']. unfold mbind.
  destruct (IH (w', l ++ [RemoveCall (peer_name p)])) as (refs & w2 & ->). cbn [snd].
  eexists _, w2. unfold ret. by rewrite <- app_assoc.
Qed.

Lemma apply_calls b a k n peers applied refs s loop through s' :
  apply_peers b a k n (map logged_peer peers) applied refs s = (Ok (loop, through), s') ->
  if through then s'.2 = s.2 ++ concat (map full_calls peers) else
  exists done p rest asked, peers = done ++ p :: rest /\ loop.1 = applied ++ map logged_peer (done ++ [p]) /\
    s'.2 = s.2 ++ concat (map full_calls done) ++ last_calls asked p.
Proof.
  revert applied refs s. induction peers as [|p peers IH]; intros applied refs [w l] H; cbn [map apply_peers] in H.
  { injection H as _ <- <-. simpl. by rewrite app_nil_r. }
  cbv zeta in H. unfold attempt in H. cbn [client_add client_contains peer_client logged_peer] in H. unfold log_peer_call in H.
  cbn [fst snd] in H. destruct (client_add (peer_client p) a k n w) as [[ref|e] w1].
  2:{ injection H as <- <- <-. exists [], p, peers, false. simpl. done. }
  cbn [fst snd] in H. destruct (client_contains (peer_client p) a w1) as [[[]|e] w2].
  - apply IH in H. cbn [snd] in *. destruct through; [by rewrite H, <- !app_assoc|].
    destruct H as (before & q & rest & asked & -> & Hl & Hs). exists (p :: before), q, rest, asked. split; [done|]. split.
    + rewrite Hl, <- app_assoc. done.
    + rewrite Hs, <- !app_assoc. done.
  - injection H as <- <- <-. exists [], p, peers, true. cbn [snd]. by rewrite <- app_assoc.
  - injection H as <- <- <-. exists [], p, peers, true. cbn [snd]. by rewrite <- app_assoc.
Qed.

(** C34: an application that does not go through everywhere is compensated: every peer it had touched,
    the one in flight included, is asked to release the key, in reverse order, whatever each call
    answered; and a successful one asks no peer to release anything. *)
Theorem failed_apply_compensates b peers c s out s' :
  blocklist_apply {| blocklist_name := b; blocklist_peers := map logged_peer peers |} c s = (Ok out, s') ->
  if ok out then s'.2 = s.2 ++ concat (map full_calls peers) else
  exists done p rest asked, peers = done ++ p :: rest /\
    s'.2 = s.2 ++ concat (map full_calls done) ++ last_calls asked p ++ map (fun p => RemoveCall (peer_name p)) (rev (done ++ [p])).
Proof.
  unfold blocklist_apply. unfold mbind, lift. destruct (_command_address c) as [a|]; [|discriminate].
  destruct (_idempotency_key c) as [k|] eqn:Ek; [|discriminate].
  destruct (apply_peers _ a k (_lifetime c) _ [] [] s) as [[[[applied refs] through]|e] s1] eqn:El; [|discriminate].
  apply apply_calls in El. destruct through.
  - destruct (blocklist_recovery_reference _ c); [|discriminate]. by intros [= <- <-].
  - destruct El as (before & p & rest & asked & -> & Hl & Hs). cbn [fst app] in Hl. subst applied.
    unfold _rollback_peers. rewrite <- map_rev.
    destruct (rollback_calls {| blocklist_name := b; blocklist_peers := map logged_peer (before ++ p :: rest) |} a k (rev (before ++ [p])) s1)
      as (rb & w & ->). intros [= <- <-]. cbn [ok outcome_failure snd].
    exists before, p, rest, asked. split; [done|]. by rewrite Hs, <- !app_assoc.
Qed.
End compensation.

(** ** Witnesses *)

Definition sample_fleet : list (Owned sample_peer) := [fresh_peer [] []; fresh_peer [] []].
Definition sample_firewalls : BlocklistAdapter (list (Owned sample_peer)) := firewalls (fun _ => sample_raw) "nftables" ["fw-core"; "fw-dmz"].
Definition sample_blocked : result AdapterOutcome * list (Owned sample_peer) :=
  Eval vm_compute in blocklist_apply sample_firewalls sample_block_command sample_fleet.

Definition outcome_of (r : result AdapterOutcome) : AdapterOutcome := match r with Ok o => o | Err _ => outcome_failure "" "" [] end.

Lemma sample_block_runs :
  blocklist_apply sample_firewalls sample_block_command sample_fleet = (Ok (outcome_of sample_blocked.1), sample_blocked.2).
Proof. vm_compute. reflexivity. Qed.

Lemma sample_block_address : _command_address sample_block_command = Ok "8.8.4.4".
Proof. vm_compute. reflexivity. Qed.

Lemma apply_ok_enforces_everywhere_witness :
  exists p q, sample_blocked.2 = [p; q] /\ sample_present (peer p) "8.8.4.4" /\ sample_present (peer q) "8.8.4.4".
Proof.
  pose proof (apply_ok_enforces_everywhere (fun _ => sample_raw) sample_present "nftables" ["fw-core"; "fw-dmz"]
    sample_block_command "8.8.4.4" sample_fleet _ _ sample_block_address eq_refl sample_block_runs eq_refl) as H.
  eexists _, _. split; [reflexivity|]. split; [apply (H 0%nat _ eq_refl)|apply (H 1%nat _ eq_refl)].
Defined.

Definition sample_unblocked : result AdapterOutcome * list (Owned sample_peer) :=
  Eval vm_compute in blocklist_revert sample_firewalls sample_block_command "ref" sample_blocked.2.

Lemma sample_unblock_runs :
  blocklist_revert sample_firewalls sample_block_command "ref" sample_blocked.2 = (Ok (outcome_of sample_unblocked.1), sample_unblocked.2).
Proof. vm_compute. reflexivity. Qed.

Lemma revert_ok_releases_everywhere_witness :
  exists p q, sample_unblocked.2 = [p; q] /\ ~ holds (registry p) "8.8.4.4" "response-a" /\ ~ holds (registry q) "8.8.4.4" "response-a".
Proof.
  pose proof (revert_ok_releases_everywhere (fun _ => sample_raw) sample_present "nftables" ["fw-core"; "fw-dmz"]
    sample_block_command "8.8.4.4" "ref" sample_blocked.2 _ _ sample_block_address eq_refl sample_unblock_runs eq_refl) as H.
  eexists _, _. split; [reflexivity|]. split; [apply (H 0%nat _ _ eq_refl eq_refl)|apply (H 1%nat _ _ eq_refl eq_refl)].
Defined.

(** The second peer's write times out. *)
Definition flaky_fleet : list (Owned sample_peer) * list peer_call := ([fresh_peer [] []; fresh_peer [] [false]], []).
Definition flaky_peers : list (BlocklistPeer (list (Owned sample_peer))) := owned_peers (fun _ => sample_raw) 0 ["fw-core"; "fw-dmz"].
Definition flaky_blocked : result AdapterOutcome * (list (Owned sample_peer) * list peer_call) :=
  Eval vm_compute in blocklist_apply {| blocklist_name := "nftables"; blocklist_peers := map logged_peer flaky_peers |} sample_block_command flaky_fleet.

Lemma flaky_runs :
  blocklist_apply {| blocklist_name := "nftables"; blocklist_peers := map logged_peer flaky_peers |} sample_block_command flaky_fleet
  = (Ok (outcome_of flaky_blocked.1), flaky_blocked.2).
Proof. vm_compute. reflexivity. Qed.

Lemma failed_apply_compensates_witness :
  ok (outcome_of flaky_blocked.1) = false /\
  exists done p rest asked, flaky_peers = done ++ p :: rest /\
    flaky_blocked.2.2 = concat (map full_calls done) ++ last_calls asked p ++ map (fun p => RemoveCall (peer_name p)) (rev (done ++ [p])).
Proof. split; [reflexivity|]. exact (failed_apply_compensates "nftables" flaky_peers sample_block_command flaky_fleet _ _ flaky_runs). Defined.
