(* ===== verification/AuditProps.v ===== *)
(** Theorems about [AuditLog.v] and [Store.v]: lifecycle histories, and the persistent journal under
    commit failures.

    Theorems about the durable audit ledger ([SqliteAudit.v]): it refines the in-memory ledger, and
    its recovery queue lists exactly the unresolved attempts. *)

From S2P Require Import Prelude PyText PyNum PyTime PyNet PyJson Sha256 Policy Decision Signing AuditLog Effects Store SqliteAudit.
From S2P Require Import Adapters Engine Sample.

(** * The in-memory ledger *)
Inductive ledger_op : Type :=
| LAppend (e : AuditEvent)
| LClaim (rid : string)
| LSave (rid : string) (c : Command).

Definition ledger_step (l : Ledger) (op : ledger_op) : Ledger :=
  result_or match op with
            | LAppend e => append l e
            | LClaim rid => claim_apply l rid
            | LSave rid c => save_command l rid c
            end l.

Definition ledger_run (ops : list ledger_op) : Ledger := fold_left ledger_step ops empty_ledger.

(** A history is a path of the lifecycle. *)
Record lifecycle_path (rid : string) (h : list AuditEvent) : Prop := {
  path_start : forall e, head h = Some e -> ev_state e = REQUESTED /\ previous_state e = None;
  path_step : forall i e1 e2, h !! i = Some e1 -> h !! S i = Some e2 ->
    ev_state e2 ∈ _ALLOWED (Some (ev_state e1)) /\ previous_state e2 = Some (ev_state e1);
  path_number : forall i e, h !! i = Some e -> transition_number e = Z.of_nat i + 1 /\ ev_response_id e = rid;
  path_terminal : forall i e, h !! i = Some e -> ev_state e ∈ TERMINAL_STATES -> S i = length h }.

Lemma valid_history_path rid h : valid_history rid h -> lifecycle_path rid h.
Proof.
  intros Hv. split.
  - intros e. by eapply valid_history_first.
  - intros i e1 e2. by eapply valid_history_step.
  - intros i e. by eapply valid_history_numbers.
  - intros i e. by eapply terminal_is_last.
Qed.

Lemma ledger_step_wf l op : ledger_wf l -> ledger_wf (ledger_step l op).
Proof.
  intros Hl. unfold ledger_step. destruct op as [e|rid|rid c]; simpl.
  - destruct (append l e) as [l'|] eqn:E; simpl; [by eapply append_wf|done].
  - unfold claim_apply. destruct (str_in _ _); simpl; [done|]. by destruct (bool_decide _).
  - unfold save_command. destruct (assoc _ _) as [c'|]; simpl; [by destruct (command_eqb c' c)|done].
Qed.

(** Whatever is appended to, claimed from or saved in the in-memory ledger, in any order and
    with any event, every response's history is a lifecycle path: it starts with REQUESTED, every
    step is one the transition table allows, the events are numbered 1, 2, 3, ... without a gap,
    and nothing follows EXPIRED or ROLLED_BACK. *)
Theorem ledger_histories_are_lifecycle_paths ops rid : lifecycle_path rid (events (ledger_run ops) rid).
Proof.
  apply valid_history_path. revert rid. change (ledger_wf (ledger_run ops)). unfold ledger_run.
  assert (ledger_wf empty_ledger) as H0 by (intros rid; constructor). revert H0. generalize empty_ledger.
  induction ops as [|op ops IH]; intros l Hl; [done|]. simpl. by apply IH, ledger_step_wf.
Qed.

(** * The persistent journal *)


Definition sample_record (n : Z) (state : lifecycle) (pending : option string) : Snapshot :=
  {| s_response_id := "resp-1"; s_command := {| request_id := "r"; decision_event_id := "d"; correlation_id := "c";
       idempotency_key := "k"; cmd_policy_id := "p"; cmd_policy_version := "1"; cmd_policy_sha256 := "h";
       cmd_target := {| target_type := "ip"; target_value := "8.8.4.4" |}; cmd_action := "block_ip"; cmd_ttl := PInt 60;
       auth_key_id := VStr "lab"; auth_signature := VNone; auth_issued_at := ""; auth_expires_at := "" |};
     s_expires_at := "2026-01-01T00:01:00.000Z"; s_state := state; s_transition_number := n;
     s_adapter_reference := None; s_authorized := true; s_pending_operation := pending; s_operation_started_at := None |}.

Definition sample_event (n : Z) (state : lifecycle) (previous : option lifecycle) (intent : option ActionIntent) : AuditEvent :=
  build_event (s_command (sample_record 0 state None)) "resp-1" (sample_now + seconds 60) None state previous n sample_now
    None None None None intent.

Definition sample_store (f : list fault) : Store := {| tables := empty_tables; claimed := false; closed := false; faults := f |}.



(** Whatever is run against the journal, and however its commits fail, at most one checkpoint
    that announces an apply of a response ever reports success. *)
Theorem apply_claimed_at_most_once rid ops s : (successful_claims rid ops s <= 1)%nat.
Proof.
  revert s. induction ops as [|op ops IH]; intros s; simpl; [lia|].
  destruct (run_op op s) as [res s'] eqn:E. specialize (IH s').
  destruct op as [record event|?| |]; simpl; [|lia..].
  destruct (is_ok res && announces_apply record event && String.eqb (s_response_id record) rid) eqn:Ec; [|lia].
  bool_inv. subst rid. rewrite (claims_after_intent (s_response_id record) ops s'); [lia|].
  destruct res as [[]|]; [|done]. apply checkpoint_Ok, checkpoint_body_Ok in E as (_ & Hi & _).
  rewrite Hi. match goal with H : announces_apply _ _ = true |- _ => rewrite H end. set_solver.
Qed.

(** ** What a checkpoint writes, as a relation on the tables *)
Record checkpointed (record : Snapshot) (event : option AuditEvent) (t t' : Tables) : Prop := {
  (** A record that announces an apply, with no event, claims it: once. *)
  cp_intent : t_intents t' = t_intents t ++ (if announces_apply record event then [s_response_id record] else []) /\
    (announces_apply record event = true -> s_response_id record ∉ t_intents t);
  (** The event is a valid transition of the record's history, under an identifier and a number not used. *)
  cp_valid : forall e, event = Some e ->
    validate_transition e (store_events t (s_response_id record)) = Ok tt /\ finite_val (event_val e) = true /\
    (forall r, r ∈ t_audit t -> a_id r <> audit_event_id e) /\
    (forall r, r ∈ t_audit t -> a_response_id r = s_response_id record -> a_number r <> transition_number e);
  (** It is the last row of the audit table, and nothing else is added there. *)
  cp_audit : t_audit t' = t_audit t ++
    match event with
    | Some e => [{| a_id := audit_event_id e; a_response_id := s_response_id record; a_number := transition_number e; a_payload := e |}]
    | None => []
    end;
  (** A first event admits its response, at its own time and under its own policy, unless it was. *)
  cp_admission : match event with
    | Some e =>
        if transition_number e =? 1 then
          exists at_, instant_of (ev_timestamp e) = Ok at_ /\ t_admissions t' = t_admissions t ++
            (if decide (ev_response_id e ∈ map ad_response_id (t_admissions t)) then []
             else [{| ad_response_id := ev_response_id e; ad_policy_id := ev_policy_id e; admitted_at := at_ |}])
        else t_admissions t' = t_admissions t
    | None => t_admissions t' = t_admissions t
    end;
  (** The record agrees with its latest event. *)
  cp_latest : exists e, store_latest t' (s_response_id record) = Some e /\
    ev_state e = s_state record /\ transition_number e = s_transition_number record;
  (** It takes the place of the response's row, whose command and expiry it must have, or is a new one. *)
  cp_record : finite_val (VDict (command_mapping_of (s_command record))) = true /\ finite_val (snapshot_val record) = true /\
    ((s_response_id record ∉ map row_id (t_records t) /\ t_records t' = t_records t ++ [record_row_of record]) \/
     exists before r after, t_records t = before ++ r :: after /\ s_response_id record ∉ map row_id before /\
       same_input r (record_row_of record) /\ t_records t' = before ++ record_row_of record :: after);
  cp_exported : t_exported t' = t_exported t }.

Lemma upsert_row_iff row rows rows' :
  upsert_row row rows = Ok rows' <->
  (row_id row ∉ map row_id rows /\ rows' = rows ++ [row]) \/
  exists before r after, rows = before ++ r :: after /\ row_id row ∉ map row_id before /\ same_input r row /\ rows' = before ++ row :: after.
Proof.
  revert rows'. induction rows as [|x rows IH]; intros rows'; cbn [upsert_row].
  - split; [intros [= <-]; left; split; [set_solver|done]|]. intros [[_ ->]|(b & r & a & E & _)]; [done|by destruct b].
  - destruct (String.eqb_spec (row_id x) (row_id row)) as [E|E].
    + rewrite raise_seq_Ok, orb_false_iff, !negb_false_iff, !String.eqb_eq. split.
      * intros [[Hc He] [= <-]]. right. exists [], x, rows. split; [done|]. split; [set_solver|]. by repeat split.
      * intros [[Hn _]|(b & r & a & Hr & Hb & (_ & He & Hc) & ->)]; [set_solver|]. destruct b as [|y b]; [|injection Hr as -> ->; set_solver].
        injection Hr as -> ->. by repeat split.
    + split.
      * intros H. apply rbind_Ok in H as (rest & H & [= <-]). apply IH in H as [[Hn ->]|(b & r & a & -> & Hb & Hs & ->)].
        { left. split; [set_solver|done]. }
        right. exists (x :: b), r, a. split; [done|]. split; [set_solver|done].
      * intros [[Hn ->]|(b & r & a & Hr & Hb & Hs & ->)].
        { rewrite (proj2 (IH (rows ++ [row]))); [done|]. left. split; [set_solver|done]. }
        destruct b as [|y b]; [injection Hr as -> ->; by destruct Hs|]. injection Hr as -> ->.
        rewrite (proj2 (IH (b ++ row :: a))); [done|]. right. exists b, r, a. split; [done|]. split; [set_solver|done].
Qed.

Lemma tables_eq t t' : t_records t = t_records t' -> t_audit t = t_audit t' -> t_intents t = t_intents t' ->
  t_admissions t = t_admissions t' -> t_exported t = t_exported t' -> t = t'.
Proof. destruct t, t'. simpl. congruence. Qed.

Lemma store_latest_audit t t' rid : t_audit t = t_audit t' -> store_latest t rid = store_latest t' rid.
Proof. intros H. unfold store_latest, store_events, audit_of. by rewrite H. Qed.

Lemma checkpoint_intent_iff record event t t1 :
  checkpoint_intent record event t = Ok t1 <->
  t1 = set_intents t (t_intents t ++ (if announces_apply record event then [s_response_id record] else [])) /\
  (announces_apply record event = true -> s_response_id record ∉ t_intents t).
Proof.
  unfold checkpoint_intent. fold (announces_apply record event). destruct (announces_apply record event).
  - unfold insert_intent. rewrite <- str_in_elem. destruct (str_in _ _); simpl; [split; [discriminate|intros [_ H]; by destruct H]|].
    split; [intros [= <-]|intros [-> _]]; done.
  - rewrite app_nil_r. split; [intros [= <-]|intros [-> _]]; by destruct t.
Qed.

Lemma record_admission_iff t e t1 :
  _record_admission t e = Ok t1 <->
  exists at_, instant_of (ev_timestamp e) = Ok at_ /\ t1 = set_admissions t (t_admissions t ++
    (if decide (ev_response_id e ∈ map ad_response_id (t_admissions t)) then []
     else [{| ad_response_id := ev_response_id e; ad_policy_id := ev_policy_id e; admitted_at := at_ |}])).
Proof.
  unfold _record_admission. destruct (instant_of (ev_timestamp e)) as [x|]; simpl; [|by split; [|intros (? & ? & _)]].
  assert (existsb (fun r => String.eqb (ad_response_id r) (ev_response_id e)) (t_admissions t) =
    bool_decide (ev_response_id e ∈ map ad_response_id (t_admissions t))) as ->.
  { apply eq_true_iff_eq. rewrite existsb_exists, bool_decide_eq_true, list_elem_of_fmap. setoid_rewrite String.eqb_eq.
    setoid_rewrite list_elem_of_In. naive_solver. }
  destruct (decide _) as [H|H]; [rewrite bool_decide_eq_true_2 by done|rewrite bool_decide_eq_false_2 by done].
  - rewrite app_nil_r. split; [intros [= <-]; exists x|intros (? & _ & ->)]; by destruct t.
  - split; [intros [= <-]; by exists x|by intros (? & [= <-] & ->)].
Qed.

Lemma insert_audit_iff t row t1 :
  insert_audit t row = Ok t1 <->
  t1 = set_audit t (t_audit t ++ [row]) /\ (forall r, r ∈ t_audit t -> a_id r <> a_id row) /\
  (forall r, r ∈ t_audit t -> a_response_id r = a_response_id row -> a_number r <> a_number row).
Proof.
  unfold insert_audit. rewrite !raise_seq_Ok, <- !not_true_iff_false, !existsb_exists.
  setoid_rewrite <- list_elem_of_In. setoid_rewrite andb_true_iff. setoid_rewrite String.eqb_eq. setoid_rewrite Z.eqb_eq. naive_solver.
Qed.

Lemma matches_latest_iff t record :
  matches_latest t record = true <->
  exists e, store_latest t (s_response_id record) = Some e /\ ev_state e = s_state record /\ transition_number e = s_transition_number record.
Proof.
  unfold matches_latest. destruct (store_latest t _) as [e|]; [|by split; [|intros (? & ? & _)]].
  rewrite andb_true_iff, bool_decide_eq_true, Z.eqb_eq. naive_solver.
Qed.

Lemma canonical_Ok v s : canonical v = Ok s -> finite_val v = true.
Proof. unfold canonical. by destruct (finite_val v). Qed.

Lemma checkpoint_event_iff record event t t1 :
  checkpoint_event record event t = Ok t1 <->
  match event with
  | None => t1 = t
  | Some e =>
      validate_transition e (store_events t (s_response_id record)) = Ok tt /\ finite_val (event_val e) = true /\
      (forall r, r ∈ t_audit t -> a_id r <> audit_event_id e) /\
      (forall r, r ∈ t_audit t -> a_response_id r = s_response_id record -> a_number r <> transition_number e) /\
      let t0 := set_audit t (t_audit t ++ [row_of record e]) in
      if transition_number e =? 1 then _record_admission t0 e = Ok t1 else t1 = t0
  end.
Proof.
  unfold checkpoint_event, canonical. destruct event as [e|]; [|split; [by intros [= <-]|by intros ->]].
  destruct (validate_transition e _) as [[]|]; cbn [rbind]; [|split; [discriminate|intros [? _]; discriminate]].
  destruct (finite_val (event_val e)); cbn [rbind]; [|split; [discriminate|intros (_ & ? & _); discriminate]].
  fold (row_of record e). pose proof (insert_audit_iff t (row_of record e)) as Hi.
  destruct (insert_audit t (row_of record e)) as [t0|x]; cbn [rbind].
  - destruct (proj1 (Hi t0) eq_refl) as (-> & H1 & H2). destruct (transition_number e =? 1).
    + split; [by intros H|by intros (_ & _ & _ & _ & H)].
    + split; [by intros [= <-]|by intros (_ & _ & _ & _ & ->)].
  - split; [discriminate|]. intros (_ & _ & H1 & H2 & _).
    discriminate (proj2 (Hi _) (conj eq_refl (conj H1 H2))).
Qed.

(** The body of a checkpoint is exactly that relation: it succeeds where the relation has a result, which it writes. *)
Lemma checkpoint_body_iff record event t t' : checkpoint_body record event t = Ok (tt, t') <-> checkpointed record event t t'.
Proof.
  split.
  - unfold checkpoint_body. intros H. apply rbind_Ok in H as (t1 & H1 & H). apply rbind_Ok in H as (t2 & H2 & H).
    apply raise_seq_Ok in H as [Hm H]. apply rbind_Ok in H as (t3 & H3 & [= <-]). apply negb_false_iff, matches_latest_iff in Hm.
    apply checkpoint_intent_iff in H1 as [-> Hni]. apply checkpoint_event_iff in H2.
    unfold upsert_record in H3. apply rbind_Ok in H3 as (? & Hf1%canonical_Ok & H3). apply rbind_Ok in H3 as (? & Hf2%canonical_Ok & H3).
    apply rbind_Ok in H3 as (rows & Hr & [= <-]). fold (record_row_of record) in Hr. apply upsert_row_iff in Hr.
    destruct event as [e|]; [|subst t2; split; simpl in *; rewrite ?app_nil_r; eauto; done].
    destruct H2 as (Hv & Hf & Hid & Hn & Ht). simpl in Ht. destruct (transition_number e =? 1) eqn:E1.
    + apply record_admission_iff in Ht as (at_ & Hat & ->). split; simpl in *; rewrite ?E1; eauto. by intros ? [= <-].
    + subst t2. split; simpl in *; rewrite ?E1; eauto. by intros ? [= <-].
  - intros [[Hi Hni] Hv Ha Had Hl (Hf1 & Hf2 & Hr) Hx]. unfold checkpoint_body.
    rewrite (proj2 (checkpoint_intent_iff record event t _) (conj eq_refl Hni)). cbn [rbind].
    set (t1 := set_intents t _). set (t2 := {| t_records := t_records t; t_audit := t_audit t'; t_intents := t_intents t';
      t_admissions := t_admissions t'; t_exported := t_exported t' |}).
    rewrite (proj2 (checkpoint_event_iff record event t1 t2)); cbn [rbind].
    + rewrite (proj2 (matches_latest_iff t2 record)) by done. cbn [negb raise_if rbind]. unfold upsert_record, canonical.
      rewrite Hf1, Hf2. cbn [rbind]. fold (record_row_of record). apply (upsert_row_iff (record_row_of record)) in Hr. change (t_records t2) with (t_records t). rewrite Hr. cbn [rbind].
      do 2 f_equal. by destruct t'.
    + destruct event as [e|]; [|by apply tables_eq; simpl; rewrite ?Hi, ?Ha, ?app_nil_r].
      destruct (Hv e eq_refl) as (H1 & H2 & H3 & H4). repeat (split; [done|]). destruct (transition_number e =? 1).
      * destruct Had as (x & Hx1 & Had). apply record_admission_iff. exists x. split; [done|]. by apply tables_eq.
      * by apply tables_eq.
Qed.

(** C32: a checkpoint is all or nothing.  When it returns, the tables are the ones [checkpointed]
    describes: the announced apply claimed, the event appended after its validation, its response
    admitted, the record put in its row's place, everything else as it was.  When it raises they are
    exactly what they were, unless the error is the one of a commit whose outcome is unknown, in
    which case they are either that or what [checkpointed] describes.  And whenever such tables
    exist, the store is open and the commit succeeds, it returns with them. *)
Theorem checkpoint_is_atomic record event s r s' :
  checkpoint record event s = (r, s') ->
  match r with
  | Ok _ => checkpointed record event (tables s) (tables s')
  | Err e => tables s' = tables s \/
      (e = OperationalError "commit outcome unknown" /\ checkpointed record event (tables s) (tables s'))
  end /\
  (forall t', closed s = false -> hd CommitOk (faults s) = CommitOk -> checkpointed record event (tables s) t' ->
     r = Ok tt /\ tables s' = t').
Proof.
  unfold checkpoint, transaction, exclusive, mbind, gets, raise_when, lift, raise_if. setoid_rewrite <- checkpoint_body_iff.
  destruct (closed s); [intros [= <- <-]; split; [by left|intros ? [=]]|].
  destruct (checkpoint_body record event (tables s)) as [[[] t]|e] eqn:Eb; [|intros [= <- <-]; split; [by left|intros ? _ _ [=]]].
  pose proof (proj1 (checkpoint_body_iff _ _ _ _) Eb) as Hc.
  destruct (hd CommitOk (faults s)); intros [= <- <-]; cbn [tables]; (split; [first [exact Hc|by left|by right]|]); try done. by intros t' _ _ [= ->].
Qed.

Lemma checkpoint_is_atomic_witness :
  let record := sample_record 1 REQUESTED None in
  let event := Some (sample_event 1 REQUESTED None None) in
  checkpointed record event empty_tables (tables (checkpoint record event (sample_store [])).2) /\
  (tables (checkpoint record event (sample_store [CommitLost])).2 = empty_tables \/
   (OperationalError "commit failed" = OperationalError "commit outcome unknown" /\
    checkpointed record event empty_tables (tables (checkpoint record event (sample_store [CommitLost])).2))).
Proof.
  intros record event. split.
  - apply (checkpoint_is_atomic record event (sample_store []) (Ok tt)). vm_compute. reflexivity.
  - apply (checkpoint_is_atomic record event (sample_store [CommitLost]) (Err (OperationalError "commit failed"))). vm_compute. reflexivity.
Defined.

(** A consistent store always loads: [load] returns every record's last checkpoint, and after
    a successful checkpoint that is the checkpointed snapshot, the other responses' being the ones
    loaded before. *)
Theorem load_returns_last_checkpoints record event s u s' :
  store_wf (tables s) -> coherent_checkpoint record event -> checkpoint record event s = (Ok u, s') ->
  exists before after, load_tables (tables s) = Ok before /\ load_tables (tables s') = Ok after /\
    record ∈ after /\
    (forall x, x ∈ before -> s_response_id x <> s_response_id record -> x ∈ after) /\
    (forall x, x ∈ after -> x = record \/ x ∈ before /\ s_response_id x <> s_response_id record).
Proof.
  intros Hwf Hco Hc. apply checkpoint_Ok in Hc. pose proof (checkpoint_body_wf _ _ _ _ Hwf Hco Hc) as Hwf'.
  apply checkpoint_body_Ok in Hc as (_ & _ & _ & _ & Hup & _).
  assert (forall t, store_wf t -> load_tables t = Ok (map row_snapshot (t_records t))) as Hload.
  { intros t Ht. unfold load_tables. apply raise_seq_Ok. split; [|done]. apply negb_false_iff, forallb_forall.
    intros x Hx. apply list_elem_of_In, list_elem_of_fmap in Hx as (r & -> & Hr).
    pose proof (wf_records t Ht) as Hrec. rewrite Forall_forall in Hrec. destruct (Hrec r Hr) as (E & _ & _ & e & He & E1 & E2).
    unfold matches_latest, store_latest. rewrite <- E, store_events_history, He by done.
    by rewrite E1, E2, bool_decide_eq_true_2, Z.eqb_refl. }
  exists (map row_snapshot (t_records (tables s))), (map row_snapshot (t_records (tables s'))).
  split; [by apply Hload|]. split; [by apply Hload|].
  destruct (upsert_row_Ok _ _ _ Hup) as (Hin & Hold & Hkeep & _).
  assert (forall t r, store_wf t -> r ∈ t_records t -> row_id r = s_response_id (row_snapshot r)) as Hid.
  { intros t r Ht Hr. pose proof (wf_records t Ht) as Hrec. rewrite Forall_forall in Hrec. by destruct (Hrec r Hr). }
  split; [|split].
  - apply list_elem_of_fmap. by exists (record_row_of record).
  - intros x (r & -> & Hr)%list_elem_of_fmap Hne. apply list_elem_of_fmap. exists r. split; [done|].
    apply Hkeep; [done|]. simpl. by rewrite (Hid (tables s) r).
  - intros x (r & -> & Hr)%list_elem_of_fmap. destruct (Hold r Hr) as [->|[Hr' Hne]]; [by left|right].
    split; [by apply list_elem_of_fmap_2|]. rewrite <- (Hid (tables s) r) by done. by apply Hne, (wf_record_ids _ Hwf).
Qed.

Lemma load_returns_last_checkpoints_witness :
  let record := sample_record 1 REQUESTED None in
  let event := Some (sample_event 1 REQUESTED None None) in
  let s' := (checkpoint record event (sample_store [])).2 in
  exists before after, load_tables (tables (sample_store [])) = Ok before /\ load_tables (tables s') = Ok after /\
    record ∈ after /\
    (forall x, x ∈ before -> s_response_id x <> s_response_id record -> x ∈ after) /\
    (forall x, x ∈ after -> x = record \/ x ∈ before /\ s_response_id x <> s_response_id record).
Proof.
  intros record event s'.
  assert (checkpoint record event (sample_store []) = (Ok tt, s')) as H by (vm_compute; reflexivity).
  refine (load_returns_last_checkpoints record event (sample_store []) _ _ wf_empty _ H).
  intros e He. injection He as <-. reflexivity.
Defined.

(** * The durable ledger *)
Inductive audit_op : Type :=
| AuditAppend (e : AuditEvent)
| AuditClaim (rid : string)
| AuditSave (rid : string) (c : Command).

Definition sqlite_step (op : audit_op) : M SqliteLedger unit :=
  match op with
  | AuditAppend e => sqlite_append e
  | AuditClaim rid => sqlite_claim_apply rid
  | AuditSave rid c => sqlite_save_command rid c
  end.

Definition memory_step (op : audit_op) (l : Ledger) : result Ledger :=
  match op with
  | AuditAppend e => append l e
  | AuditClaim rid => claim_apply l rid
  | AuditSave rid c => save_command l rid c
  end.

(** Runs, with what each operation returned or raised. *)
Fixpoint run_sqlite (ops : list audit_op) (s : SqliteLedger) : list (result unit) * SqliteLedger :=
  match ops with
  | [] => ([], s)
  | op :: rest =>
      let '(r, s1) := sqlite_step op s in
      let '(rs, s2) := run_sqlite rest s1 in (r :: rs, s2)
  end.

Definition after {X} (r : result X) (x : X) : X := match r with Ok y => y | Err _ => x end.

Definition returned {X} (r : result X) : result unit := let? _ := r in Ok tt.

Fixpoint run_memory (ops : list audit_op) (l : Ledger) : list (result unit) * Ledger :=
  match ops with
  | [] => ([], l)
  | op :: rest =>
      let r := memory_step op l in
      let '(rs, l2) := run_memory rest (after r l) in (returned r :: rs, l2)
  end.

(** The operations a list of flags picks. *)
Fixpoint chosen (flags : list bool) (ops : list audit_op) : list audit_op :=
  match flags, ops with
  | true :: flags, op :: ops => op :: chosen flags ops
  | false :: flags, _ :: ops => chosen flags ops
  | _, _ => []
  end.

(** Both return, or both refuse: with the same words, except for a claim that has two reasons to be
    refused, which the ledgers check in a different order. *)
Definition same_outcome (op : audit_op) (r1 r2 : result unit) : Prop :=
  match r1, r2 with
  | Ok _, Ok _ => True
  | Err (CommandRejected m), Err (CommandRejected n) => m = n \/ exists rid, op = AuditClaim rid
  | _, _ => False
  end.

Definition plain_op (op : audit_op) : Prop := forall rid c, op = AuditSave rid c -> plain_command c.

(** The event or the command has no infinite or undefined number in it. *)
Definition serializable (op : audit_op) : bool :=
  match op with
  | AuditAppend e => finite_val (event_val e)
  | AuditClaim _ => true
  | AuditSave _ c => finite_val (VDict (command_mapping_of c))
  end.

Definition step_body (op : audit_op) : AuditTables -> result AuditTables :=
  match op with
  | AuditAppend e => append_body e
  | AuditClaim rid => claim_apply_body rid
  | AuditSave rid c => save_command_body rid c (command_body c)
  end.

Lemma rejects_seq c m (k : result unit) x :
  (raise_if c (CommandRejected m) ;;? k) = Err x -> (exists n, x = CommandRejected n) \/ k = Err x.
Proof. destruct c; [|by right]. intros [= <-]. eauto. Qed.

Lemma append_rejects l e x : append l e = Err x -> exists m, x = CommandRejected m.
Proof.
  unfold append. destruct (validate_transition e _) as [[]|y] eqn:E; [discriminate|]. intros [= <-].
  unfold validate_transition in E. repeat (apply rejects_seq in E as [?|E]; [done|]).
  apply raise_if_Err in E as [_ <-]. eauto.
Qed.

Lemma save_rejects l rid c x : save_command l rid c = Err x -> exists m, x = CommandRejected m.
Proof. unfold save_command. destruct (assoc rid (saved_commands l)) as [d|]; [destruct (negb _)|]; intros [= <-]; eauto. Qed.

Lemma step_body_simulates op t l :
  refines t l -> plain_op op ->
  match step_body op t, memory_step op l with
  | Ok t', Ok l' => refines t' l'
  | Err x, Err y => same_outcome op (Err x) (Err y)
  | _, _ => False
  end.
Proof.
  intros Hr Hp. destruct op as [e|rid|rid c]; simpl.
  - pose proof (append_simulates t l e Hr) as H. pose proof (append_rejects l e) as Hx. destruct (append_body e t), (append l e); try done.
    destruct (Hx _ eq_refl) as [m ->]. subst. by left.
  - pose proof (claim_simulates t l rid Hr) as H. destruct (claim_apply_body rid t) as [|[]], (claim_apply l rid) as [|[]]; try done. right. eauto.
  - pose proof (save_simulates t l rid c Hr (Hp rid c eq_refl)) as H.
    pose proof (save_rejects l rid c) as Hx.
    destruct (save_command_body rid c (command_body c) t), (save_command l rid c); try done.
    destruct (Hx _ eq_refl) as [m ->]. subst. by left.
Qed.

Lemma sqlite_step_shape op s :
  sqlite_step op s = if serializable op then sqlite_transaction (step_body op) s
                     else (Err (ValueError "Out of range float values are not JSON compliant"), s).
Proof.
  destruct op as [e|rid|rid c]; cbn [sqlite_step serializable step_body]; [|done|].
  - unfold sqlite_append, canonical, mbind, lift. by destruct (finite_val (event_val e)).
  - unfold sqlite_save_command, canonical, mbind, lift. by destruct (finite_val _).
Qed.

Lemma sqlite_step_simulates op s l :
  refines (q_tables s) l -> plain_op op ->
  exists executed : bool,
    refines (q_tables (sqlite_step op s).2) (if executed then after (memory_step op l) l else l) /\
    ((sqlite_step op s).1 = Ok tt -> executed = true) /\
    (q_faults s = [] -> serializable op = true ->
       executed = true /\ same_outcome op (sqlite_step op s).1 (returned (memory_step op l)) /\ q_faults (sqlite_step op s).2 = []).
Proof.
  intros Hr Hp. rewrite sqlite_step_shape. destruct (serializable op); [|by exists false].
  pose proof (step_body_simulates op _ _ Hr Hp) as Hs. unfold sqlite_transaction.
  destruct (step_body op (q_tables s)) as [t'|x], (memory_step op l) as [l'|y]; try done; [|by exists true].
  destruct s as [t f]. simpl in *. destruct f as [|[] f]; simpl; [exists true|exists true|exists false|exists true]; (split; [done|]);
    (split; [done|]); first [by intros|discriminate].
Qed.

(** C35: the SQLite ledger refines the in-memory ledger: whatever is appended, claimed and saved (commands
    with an integer TTL and text key and signature, which are equal when their texts are), and however
    commits fail, it holds the histories, intents and commands of an in-memory ledger that
    executed some of the operations in order, among them all that returned; and with no failing
    commit and no unserializable number it executes all of them, each returns or is refused alike,
    and with the same words unless it is a claim. *)
Theorem sqlite_ledger_refines_memory ops s l :
  refines (q_tables s) l -> Forall plain_op ops ->
  exists executed, refines (q_tables (run_sqlite ops s).2) (run_memory (chosen executed ops) l).2 /\
    Forall2 (fun r done => r = Ok tt -> done = true) (run_sqlite ops s).1 executed /\
    (q_faults s = [] -> forallb serializable ops = true ->
       chosen executed ops = ops /\ Forall3 same_outcome ops (run_sqlite ops s).1 (run_memory ops l).1).
Proof.
  intros Hr Hp. revert s l Hr. induction Hp as [|op ops Hop Hp IH]; intros s l Hr; [exists []; split; [exact Hr|]; split; [apply Forall2_nil_2|split; [done|apply Forall3_nil]]|].
  destruct (sqlite_step_simulates op s l Hr Hop) as (ex & Hr1 & Hok & Hfull). simpl run_sqlite.
  destruct (sqlite_step op s) as [r s1]. simpl in Hr1, Hok, Hfull.
  destruct (IH s1 _ Hr1) as (executed & Hr2 & Hres & Hall). destruct (run_sqlite ops s1) as [rs s2]. simpl in *.
  exists (ex :: executed). split; [|split].
  - destruct ex; [|done]. simpl. by destruct (run_memory (chosen executed ops) _).
  - by constructor.
  - intros Hf Hser. apply andb_true_iff in Hser as [Hs Hser]. destruct (Hfull Hf Hs) as (-> & Hsame & Hf1).
    cbn [chosen]. destruct (Hall Hf1 Hser) as [-> Hrs]. split; [done|]. destruct (run_memory ops _) as [rs' l2]. simpl in *. by constructor.
Qed.

(** Counting the requests of a policy gives the same number in both ledgers. *)
Theorem sqlite_requested_since_agrees t l policy_id since :
  refines t l -> timestamps_ok (q_audit t) ->
  exists n, sqlite_requested_since t policy_id since = Ok n /\ requested_since l policy_id since = Ok n.
Proof. apply requested_since_simulates. Qed.

(** The recovery queue lists exactly the responses with a recorded apply intent whose last state is
    neither EXPIRED nor ROLLED_BACK, each by its last event. *)
Theorem recovery_queue_lists_unresolved t l e :
  refines t l ->
  e ∈ recovery_events t <->
  ev_response_id e ∈ apply_intents l /\ latest l (ev_response_id e) = Some e /\ closed_state (ev_state e) = false.
Proof.
  intros [Hwf Hk He Hi _]. unfold recovery_events, latest. rewrite list_elem_of_In, List.filter_In, <- list_elem_of_In.
  rewrite sort_by_elem, list_elem_of_In, in_concat, negb_true_iff, <- He.
  rewrite <- (str_in_elem (ev_response_id e)), <- Hi, str_in_elem. split.
  - intros [(rows & Hrows & Hin) Hc]. apply in_map_iff in Hrows as (rid & <- & Hrid).
    apply List.filter_In in Hin as [Hin Hlast]. pose proof Hin as Hin'. apply List.filter_In in Hin' as [_ E]. apply String.eqb_eq in E.
    subst rid. split; [by apply list_elem_of_In|]. split; [|done]. apply latest_row; [done|by apply list_elem_of_In|done].
  - intros (Hint & Hlast & Hc). split; [|done]. exists (List.filter (is_latest_row t) (rows_for t (ev_response_id e))).
    assert (e ∈ rows_for t (ev_response_id e)) as Hin.
    { rewrite last_lookup in Hlast. by eapply list_elem_of_lookup_2. }
    split; [apply in_map_iff; exists (ev_response_id e); split; [done|by apply list_elem_of_In]|].
    apply List.filter_In. split; [by apply list_elem_of_In|]. by apply latest_row.
Qed.

(** ** Witnesses, on the history the sample response leaves *)

Definition sample_audit : list AuditEvent := Eval vm_compute in backend_events (backend run_verified) sample_rid.

Definition sample_saves : list audit_op :=
  [AuditSave sample_rid {| request_id := "r"; decision_event_id := "d"; correlation_id := "c"; idempotency_key := "k";
     cmd_policy_id := "p"; cmd_policy_version := "1"; cmd_policy_sha256 := "h";
     cmd_target := {| target_type := "ip"; target_value := "8.8.4.4" |}; cmd_action := "block_ip"; cmd_ttl := PInt 60;
     auth_key_id := VStr "lab"; auth_signature := VStr "s"; auth_issued_at := ""; auth_expires_at := "" |}].

Definition sample_audit_ops : list audit_op :=
  (AuditClaim sample_rid :: concat (map (fun e => [AuditAppend e; AuditClaim sample_rid]) sample_audit)) ++ sample_saves.

Definition sample_sqlite (f : list fault) : SqliteLedger := {| q_tables := empty_audit_tables; q_faults := f |}.

Lemma sample_plain : Forall plain_op sample_audit_ops.
Proof.
  assert (forall e, plain_op (AuditAppend e)) as Ha by by intros e ? ?. assert (forall rid, plain_op (AuditClaim rid)) as Hc by by intros rid ? ?.
  apply Forall_app_2.
  - constructor; [done|]. induction sample_audit as [|e l IH]; [constructor|]. by repeat (constructor; [done|]).
  - constructor; [|constructor]. intros rid c [= <- <-]. split; [by eexists|vm_compute; reflexivity|by eexists|by eexists].
Qed.

Lemma sample_refines : refines (q_tables (run_sqlite sample_audit_ops (sample_sqlite [])).2) (run_memory sample_audit_ops empty_ledger).2.
Proof.
  assert (forall ops s l, Forall plain_op ops -> q_faults s = [] -> forallb serializable ops = true -> refines (q_tables s) l ->
    refines (q_tables (run_sqlite ops s).2) (run_memory ops l).2) as Hrun.
  { clear. intros ops s l Hp. revert s l. induction Hp as [|op ops Hop Hp IH]; intros s l Hf Hser Hr; [done|].
    simpl in Hser. apply andb_true_iff in Hser as [Hs Hser].
    destruct (sqlite_step_simulates op s l Hr Hop) as (ex & Hr1 & _ & Hfull). destruct (Hfull Hf Hs) as (-> & _ & Hf1).
    simpl. destruct (sqlite_step op s) as [r s1]. simpl in *. specialize (IH s1 _ Hf1 Hser Hr1).
    destruct (run_sqlite ops s1), (run_memory ops _). done. }
  apply Hrun; [apply sample_plain|done|vm_compute; reflexivity|apply refines_empty].
Qed.

Lemma sqlite_ledger_refines_memory_witness :
  let s := sample_sqlite [CommitAmbiguous; CommitLost] in
  map is_ok (run_sqlite sample_audit_ops s).1 = [false; false; false; true; false; true; false; true] /\
  exists executed, refines (q_tables (run_sqlite sample_audit_ops s).2) (run_memory (chosen executed sample_audit_ops) empty_ledger).2.
Proof.
  intros s. split; [vm_compute; reflexivity|].
  destruct (sqlite_ledger_refines_memory sample_audit_ops s empty_ledger refines_empty sample_plain) as (ex & H & _).
  exists ex. exact H.
Defined.

Lemma sample_rows : q_audit (q_tables (run_sqlite sample_audit_ops (sample_sqlite [])).2) = sample_audit.
Proof. vm_compute. reflexivity. Qed.

Lemma sqlite_requested_since_agrees_witness :
  exists n, sqlite_requested_since (q_tables (run_sqlite sample_audit_ops (sample_sqlite [])).2) "block-scanner" (sample_now - 1) = Ok n /\
    requested_since (run_memory sample_audit_ops empty_ledger).2 "block-scanner" (sample_now - 1) = Ok n.
Proof.
  apply (sqlite_requested_since_agrees _ _ _ _ sample_refines). rewrite sample_rows.
  assert (forallb (fun e => is_ok (instant_of (ev_timestamp e))) sample_audit = true) as H by (vm_compute; reflexivity).
  apply Forall_forall. intros e He. rewrite forallb_forall in H. by apply H, list_elem_of_In.
Defined.

Lemma recovery_queue_lists_unresolved_witness :
  exists e, e ∈ recovery_events (q_tables (run_sqlite sample_audit_ops (sample_sqlite [])).2) /\ ev_state e = VERIFIED.
Proof.
  destruct (last sample_audit) as [e|] eqn:E; [|vm_compute in E; discriminate]. exists e.
  split; [|vm_compute in E; injection E as <-; reflexivity].
  apply (recovery_queue_lists_unresolved _ _ e sample_refines).
  vm_compute in E. injection E as <-. split; [vm_compute; left|]. split; vm_compute; reflexivity.
Defined.
