(* ===== verification/NftProps.v ===== *)
(** Theorems about the nftables path: what the agent may tell [nft], when it answers, and what an
    application means in the kernels behind it. *)

From S2P Require Import Prelude PyText PyNum PyNet PyJson Policy Decision AuditLog Effects Adapters Https Ownership Blocklist Transports.
From S2P Require Import NftEnforcer NftStack Firewalls Sample.

(** * The whole path *)
Section stack.
Context {W : Type}.
Variable agents : nat -> Enforcer W.
Variable in_set : W -> ip_addr -> Prop.
Context `{Hnft : !forall i, NftLaws (agents i) in_set}.
Variable allowed : list string.
Variable client_name : option string.
Variable hosts : nat -> string.
Variable size : val -> Z.

(** The raw set of each firewall: the client, its link, and the agent behind it. *)
Definition stacks (i : nat) : RawSet (W * list link_fault) := nft_stack (agents i) allowed client_name (hosts i) size.

(** C7: when the nftables adapter, built by its constructor over owned clients that talk to the agents
    over lossy links, reports an application of an address without a scope identifier, the address
    is in the packet filter of every firewall, whatever requests and replies were lost and whatever
    the packet filters held before. *)
Theorem nftables_block_reaches_every_kernel names b c address ip s out s' :
  nftables_blocklist_adapter (owned_peers stacks 0 names) = Ok b ->
  _command_address c = Ok address -> ip_address address = Some ip -> unscoped ip = true ->
  length s = length names -> blocklist_apply b c s = (Ok out, s') -> ok out = true ->
  forall j p, s' !! j = Some p -> in_set (peer p).1 ip.
Proof.
  intros Hb Ha Hip Hu Hlen H Hok j p Hj. unfold nftables_blocklist_adapter, blocklist_adapter in Hb.
  apply raise_seq_Ok in Hb as [_ [= <-]].
  assert (forall i, RawSetLaws (only_about address (stacks i)) (stack_present in_set)) as Hlaws.
  { intros i. unfold stacks. refine (nft_stack_laws (agents i) in_set allowed client_name (hosts i) size address _). intros x Hx. congruence. }
  destruct (blocklist_apply_holds_about stacks (stack_present in_set) address (command_address_norm _ _ Ha) "nftables" names c s out s'
    Ha Hlen H Hok j p Hj) as [_ (x & Hx & Hi)]. by assert (x = ip) as -> by congruence.
Qed.
End stack.

(** * What the agent tells nft *)
Section confinement.
Context {W : Type}.
Variable e : Enforcer W.

(** The agent with its commands recorded. *)
Definition recorded : Enforcer (W * list (list string)) :=
  {| nft := nft e; family := family e; table := table e; set_name := set_name e;
     run := fun argv s => let '(r, w) := run e argv s.1 in (r, (w, s.2 ++ [argv])) |}.

(** The scope identifier of an address as its text ends with it. *)
Definition scope_suffix (ip : ip_addr) : string :=
  match ip with
  | IPv6 _ (Some scope) => "%" +:+ scope
  | _ => ""
  end.

(** The command of an operation on [ip], written in a command as [written]. *)
Definition operation_command (path : string) (lifetime : val) (ip : ip_addr) (written : string) (argv : list string) : Prop :=
  let set := if is_v4 ip then set_name e else set_name e +:+ "6" in
  path = "/v1/contains" /\ argv = [nft e; "-j"; "list"; "set"; family e; table e; set] \/
  path = "/v1/remove" /\ argv = [nft e; "delete"; "element"; family e; table e; set; "{ " +:+ written +:+ " }"] \/
  path = "/v1/add" /\ exists seconds, 60 <= seconds <= MAX_LIFETIME /\ lifetime_seconds lifetime = Ok seconds /\
    argv = [nft e; "add"; "element"; family e; table e; set; "{ " +:+ written +:+ " timeout " +:+ str_of_Z seconds +:+ "s }"].

(** The command a request asks for: the operation of its path, on the configured table and set, for
    the address its own body holds, which is not special; the address is written as a number in
    hexadecimal digits, dots and colons, and its scope identifier, when it has one, as it came. *)
Definition confined (p : post) (argv : list string) : Prop :=
  exists n body text ip number, 0 < n <= MAX_BODY /\ post_json p n = Ok (VDict body) /\ get "address" body = VStr text /\
    ip_address text = Some ip /\ special_use ip = false /\ plain number = true /\
    operation_command (post_path p) (get "max_lifetime_seconds" body) ip (number +:+ scope_suffix ip) argv.

(** At most one command, and one that [C] allows. *)
Definition one_command {X} (C : list string -> Prop) (m : M (W * list (list string)) X) : Prop :=
  forall s, (m s).2.2 = s.2 \/ exists argv, C argv /\ (m s).2.2 = s.2 ++ [argv].

Lemma no_command_then {X Y} C (r : result X) (k : X -> M _ Y) :
  (forall x, r = Ok x -> one_command C (k x)) -> one_command C (mbind (lift r) k).
Proof. intros H s. unfold mbind, lift. destruct r as [x|]; [by apply H|by left]. Qed.

Lemma command_then {X} (C : list string -> Prop) argv (k : CompletedProcess -> M _ X) :
  C argv -> (forall p s, (k p s).2 = s) -> one_command C (mbind (run recorded argv) k).
Proof.
  intros Hc Hk s. right. exists argv. split; [done|]. unfold mbind. cbn [run recorded].
  destruct (run e argv s.1) as [[p|x] w]; [|done]. by rewrite Hk.
Qed.

Lemma then_no_command {X Y} C (m : M _ X) (k : X -> Y) : one_command C m -> one_command C (mbind m (fun x => ret (k x))).
Proof. intros H s. specialize (H s). unfold mbind. by destruct (m s) as [[x|x] s']. Qed.

Lemma parse_confined a ip : parse a = Ok ip ->
  exists text number, a = VStr text /\ ip_address text = Some ip /\ special_use ip = false /\
    plain number = true /\ ip_text ip = number +:+ scope_suffix ip.
Proof.
  unfold parse. destruct a as [| | |t| |]; try done. destruct (ip_address t) as [x|] eqn:E; [|done].
  intros H. apply raise_seq_Ok in H as [Hs [= ->]]. pose proof (ip_address_wf _ _ E) as Hw.
  destruct (unscoped ip) eqn:Hu.
  - exists t, (ip_text ip). split; [done|]. split; [done|]. split; [done|]. split; [by apply ip_text_plain|].
    by destruct ip as [n|n [s|]]; [rewrite app_nil_str|done|rewrite app_nil_str].
  - destruct ip as [n|n [s|]]; try done. exists t, (ip_text (IPv6 n None)). split; [done|]. split; [done|]. split; [done|].
    destruct Hw as (Hn & Hne & _). split; [by apply ip_text_plain|]. cbn [ip_text]. by rewrite (proj2 (String.eqb_neq s "")).
Qed.

Lemma lifetime_bounds v n : lifetime_seconds v = Ok n -> 60 <= n <= MAX_LIFETIME.
Proof.
  unfold lifetime_seconds. intros H. apply rbind_Ok in H as (s & _ & H). apply raise_seq_Ok in H as [Hb [= ->]]. lia.
Qed.

Lemma raise_when_same {S} c x (s : S) : (raise_when c x s).2 = s.
Proof. by destruct c. Qed.

(** The operation of a path runs at most its own command. *)
Lemma route_one_command n p body : 0 < n <= MAX_BODY -> post_json p n = Ok (VDict body) ->
  one_command (confined p) (route recorded (post_path p) body).
Proof.
  intros Hn Hj. assert (forall ip argv, parse (get "address" body) = Ok ip ->
    operation_command (post_path p) (get "max_lifetime_seconds" body) ip (ip_text ip) argv -> confined p argv) as Hconf.
  { intros ip argv Hip Ha. apply parse_confined in Hip as (text & number & H1 & H2 & H3 & H4 & H5).
    exists n, body, text, ip, number. rewrite <- H5. by repeat (split; [done|]). }
  unfold route. destruct (String.eqb_spec (post_path p) "/v1/add") as [Ep|_]; [|destruct (String.eqb_spec (post_path p) "/v1/remove") as [Ep|_];
    [|destruct (String.eqb_spec (post_path p) "/v1/contains") as [Ep|_]; [|intros s; by left]]];
    apply then_no_command; apply no_command_then; intros ip Hip.
  - apply no_command_then. intros sec Hsec. apply command_then; [|intros; apply raise_when_same].
    apply (Hconf ip _ Hip). right. right. split; [done|]. exists sec. split; [by eapply lifetime_bounds|by split].
  - apply command_then; [|intros; apply raise_when_same]. apply (Hconf ip _ Hip). right. left. by split.
  - apply command_then; [apply (Hconf ip _ Hip); left; by split|].
    intros q s. unfold mbind, raise_when, lift. destruct (raise_if _ _); [|done]. by destruct (stdout_json q).
Qed.

Lemma handle_one_command p : one_command (confined p) (handle_post recorded p).
Proof.
  unfold handle_post. apply no_command_then. intros n _. destruct (negb _) eqn:Eb; [intros s; by left|].
  apply negb_false_iff, andb_true_iff in Eb as [H1%Z.ltb_lt H2%Z.leb_le].
  apply no_command_then. intros body Hb. destruct body; try (intros ?; by left). by eapply route_one_command.
Qed.

(** C36: whatever a client sends, the agent runs at most one nft command for a request: the one
    its path and body ask for, on the configured table and sets, with a lifetime in its bounds.
    The address stands in it as a number in hexadecimal digits, dots and colons only, followed,
    for an IPv6 literal with a scope identifier and for no other, by that identifier as it came.
    A client whose certificate name is not allowed makes the agent run none. *)
Theorem enforcer_commands_confined allowed p w log :
  let after := (do_POST recorded allowed p (w, log)).2 in
  (after.2 = log \/ exists argv, confined p argv /\ after.2 = log ++ [argv]) /\
  (allowed <> [] -> (forall name, post_client p = Some name -> name ∉ allowed) -> after = (w, log)).
Proof.
  split.
  - unfold do_POST. destruct (_ && _); [by left|]. pose proof (handle_one_command p (w, log)) as H. unfold catch.
    destruct (handle_post recorded p (w, log)) as [[r|x] s]; [done|].
    destruct (is_value_error x || is_type_error x); cbn; [done|]. by destruct (is_backend_error x).
  - intros Hne Hp. unfold do_POST. destruct allowed as [|a allowed]; [done|]. cbn [length Nat.eqb negb andb].
    assert ((match post_client p with Some name => str_in name (a :: allowed) | None => false end) = false) as ->; [|done].
    destruct (post_client p) as [name|]; [|done]. apply not_true_iff_false. rewrite str_in_elem. by apply Hp.
Qed.
End confinement.

(** * The agent always answers, with one exception *)
Section answers.
Context {W : Type}.
Variable e : Enforcer W.
Variable in_set : W -> ip_addr -> Prop.
Context `{Hnft : !NftLaws e in_set}.
(** [subprocess.run] raises nothing else. *)
Hypothesis run_raises : forall argv w x, (run e argv w).1 = Err x -> is_backend_error x = true.

Definition caught (x : exn) : Prop := is_value_error x || is_type_error x || is_backend_error x = true.

(** Every exception of [m] satisfies [E]. *)
Definition raises {X} (m : M W X) (E : exn -> Prop) : Prop := triple (fun _ => True) m (fun _ _ => True) (fun x _ => E x).

Lemma run_raises_bind {X Y} (m : M W X) (k : X -> M W Y) E : raises m E -> (forall x, raises (k x) E) -> raises (mbind m k) E.
Proof. intros Hm Hk. eapply triple_bind; [exact Hm|]. intros x. apply Hk. Qed.

Lemma raises_lift {X} (r : result X) (E : exn -> Prop) : (forall x, r = Err x -> E x) -> raises (lift r) E.
Proof. intros H. apply triple_lift; [done|]. intros x s Hr _. by apply H. Qed.

Lemma raises_ret {X} (a : X) E : raises (ret a) E.
Proof. by apply triple_ret. Qed.

Lemma raises_when b x (E : exn -> Prop) : E x -> raises (raise_when b x) E.
Proof. intros H. by apply triple_raise_when. Qed.

Lemma raises_run argv : raises (run e argv) caught.
Proof.
  intros w _. pose proof (run_raises argv w) as H. destruct (run e argv w) as [[p|x] w']; [done|].
  unfold caught. rewrite (H x eq_refl). by rewrite orb_true_r.
Qed.

Lemma parse_caught a x : parse a = Err x -> caught x.
Proof.
  unfold parse. destruct a; try by intros [= <-]. destruct (ip_address _) as [ip|]; [|by intros [= <-]].
  unfold raise_if. destruct (special_use ip); cbn; by intros [= <-].
Qed.

(** The one exception outside the clauses: [int] of an infinite lifetime. *)
Definition overflows (v : val) (x : exn) : Prop :=
  exists s, v = VFloat (S754_infinity s) /\ x = OverflowError "cannot convert float infinity to integer".

Lemma lifetime_raises v x : lifetime_seconds v = Err x -> caught x \/ overflows v x.
Proof.
  unfold lifetime_seconds. intros H. apply rbind_Err in H as [H|(n & _ & H)].
  - destruct v as [|b|n|s|l|d]; try done; try (injection H as <-; by left).
    + cbn [int_of_val] in H. unfold py_int in H. destruct n as [z|[s|s| |s m ex]]; cbn in H; try done; injection H as <-.
      * right. by exists s.
      * by left.
    + cbn [int_of_val] in H. unfold int_of_text in H. destruct (signed_digits _); [done|]. injection H as <-. by left.
  - left. apply rbind_Err in H as [H|(u & _ & H)]; [|done]. apply raise_if_Err in H as [_ <-]. done.
Qed.

Lemma add_raises a v : raises (enforcer_add e a v) (fun x => caught x \/ overflows v x).
Proof.
  apply run_raises_bind; [apply raises_lift; intros x Hx; left; by eapply parse_caught|]. intros ip.
  apply run_raises_bind; [apply raises_lift; intros x Hx; by apply lifetime_raises|]. intros n.
  apply run_raises_bind; [|intros p; apply raises_when; by left].
  eapply triple_conseq; [apply raises_run|done..|]. intros x s H. by left.
Qed.

Lemma remove_raises a : raises (enforcer_remove e a) caught.
Proof.
  apply run_raises_bind; [apply raises_lift; intros x Hx; by eapply parse_caught|]. intros ip.
  apply run_raises_bind; [apply raises_run|]. intros p. by apply raises_when.
Qed.

Lemma contains_raises a : raises (enforcer_contains e a) caught.
Proof.
  apply run_raises_bind; [apply raises_lift; intros x Hx; by eapply parse_caught|]. intros ip w _. unfold mbind.
  pose proof (raises_run (list_set e ip) w I) as Hr. pose proof (nft_list_answers ip w) as Hl.
  destruct (run e (list_set e ip) w) as [[p|x] w']; [|exact Hr]. unfold raise_when, lift, raise_if.
  destruct (returncode p =? 0) eqn:Erc; [|done]. cbn [negb]. apply Z.eqb_eq in Erc.
  destruct (Hl p eq_refl Erc) as (h & d & l & -> & Hd & Hwf & _). by rewrite (listing_has_spec ip h d l Hd Hwf).
Qed.

Lemma route_raises path body :
  raises (route e path body) (fun x => caught x \/ overflows (get "max_lifetime_seconds" body) x).
Proof.
  unfold route. repeat destruct (String.eqb _ _).
  - apply run_raises_bind; [apply add_raises|intros; apply raises_ret].
  - apply run_raises_bind; [|intros; apply raises_ret]. eapply triple_conseq; [apply remove_raises|done..|]. by left.
  - apply run_raises_bind; [|intros; apply raises_ret]. eapply triple_conseq; [apply contains_raises|done..|]. by left.
  - apply raises_ret.
Qed.

(** A request is always answered, whatever it holds and whatever nft does, except one: an infinite
    [max_lifetime_seconds], which JSON readers accept, makes [int] raise an [OverflowError] that no
    clause of the handler catches. *)
Theorem enforcer_answers_unless_infinite allowed p w x :
  (forall n x, post_json p n = Err x -> is_value_error x || is_runtime_error x = true) ->
  (do_POST e allowed p w).1 = Err x ->
  exists n body s, post_json p n = Ok (VDict body) /\ post_path p = "/v1/add" /\
    get "max_lifetime_seconds" body = VFloat (S754_infinity s) /\
    x = OverflowError "cannot convert float infinity to integer".
Proof.
  intros Hjson H. unfold do_POST in H. destruct (_ && _); [done|]. unfold catch in H.
  assert ((handle_post e p w).1 = Err x /\ ~ caught x) as [Hh Hc].
  { unfold caught. destruct (handle_post e p w) as [[r|y] s]; [done|]. cbn [fst].
    destruct (is_value_error y || is_type_error y) eqn:E1; [done|]. destruct (is_backend_error y) eqn:E2; [done|].
    injection H as ->. by rewrite E1, E2. }
  clear H. unfold handle_post, mbind, lift in Hh. destruct (int_of_text _) as [n|y] eqn:Ei.
  2:{ injection Hh as ->. exfalso. apply Hc. unfold int_of_text in Ei. destruct (signed_digits _); [done|]. by injection Ei as <-. }
  destruct (negb _); [done|]. destruct (post_json p n) as [body|y] eqn:Ej.
  2:{ injection Hh as ->. exfalso. apply Hc. unfold caught, is_backend_error. pose proof (Hjson n x Ej) as Hx.
      destruct (is_value_error x), (is_type_error x); try done. by rewrite (orb_false_l _) in Hx; rewrite Hx. }
  destruct body as [| | | | |body]; try by (injection Hh as <-; exfalso; apply Hc).
  exists n, body. pose proof (route_raises (post_path p) body w I) as Hr.
  assert (String.eqb (post_path p) "/v1/add" = true \/ raises (route e (post_path p) body) caught) as Hp.
  { unfold route. destruct (String.eqb (post_path p) "/v1/add"); [by left|right]. repeat destruct (String.eqb _ _).
    - apply run_raises_bind; [apply remove_raises|intros; apply raises_ret].
    - apply run_raises_bind; [apply contains_raises|intros; apply raises_ret].
    - apply raises_ret. }
  destruct (route e (post_path p) body w) as [[r|y] s] eqn:Er; [done|]. injection Hh as ->.
  destruct Hr as [Hr|(sg & Hv & ->)]; [by destruct Hc|]. exists sg. split; [done|]. split; [|done].
  destruct Hp as [Hp|Hp]; [by apply String.eqb_eq|]. specialize (Hp w I). rewrite Er in Hp. by destruct Hc.
Qed.
End answers.

(** * Witnesses *)
Definition sample_names : list string := ["fw-core"; "fw-dmz"].
Definition sample_stacks : nat -> RawSet (kernel * list link_fault) :=
  stacks (fun _ => sample_enforcer) ["orchestrator"] (Some "orchestrator") (fun _ => "https://fw:9443") (fun _ => 64).

(** The second firewall blocks another address already. *)
Definition sample_network : list (Owned (kernel * list link_fault)) :=
  [{| registry := empty_registry; peer := ([], []) |}; {| registry := empty_registry; peer := ([IPv4 16843009], []) |}].

Definition sample_applied (b : BlocklistAdapter (list (Owned (kernel * list link_fault)))) :=
  blocklist_apply b sample_block_command sample_network.

Lemma nftables_block_reaches_every_kernel_witness :
  exists b out s', nftables_blocklist_adapter (owned_peers sample_stacks 0 sample_names) = Ok b /\
    sample_applied b = (Ok out, s') /\ map (fun p => (peer p).1) s' = [[IPv4 134743044]; [IPv4 134743044; IPv4 16843009]] /\
    forall j p, s' !! j = Some p -> in_kernel (peer p).1 (IPv4 134743044).
Proof.
  do 3 eexists. split; [reflexivity|]. split; [vm_compute; reflexivity|]. split; [reflexivity|].
  eapply (nftables_block_reaches_every_kernel (fun _ => sample_enforcer) in_kernel ["orchestrator"] (Some "orchestrator")
    (fun _ => "https://fw:9443") (fun _ => 64) sample_names _ sample_block_command "8.8.4.4" (IPv4 134743044) sample_network).
  - reflexivity.
  - vm_compute. reflexivity.
  - vm_compute. reflexivity.
  - vm_compute. reflexivity.
  - reflexivity.
  - vm_compute. reflexivity.
  - reflexivity.
Defined.

Definition sample_post (client : string) (lifetime : val) : post :=
  {| post_client := Some client; post_path := "/v1/add"; post_length := Some "64";
     post_json := fun _ => Ok (VDict [("address", VStr "8.8.4.4"); ("max_lifetime_seconds", lifetime)]) |}.

Lemma enforcer_commands_confined_witness :
  let permitted := (do_POST (recorded sample_enforcer) ["orchestrator"] (sample_post "orchestrator" (VInt 60)) ([], [])).2 in
  let foreign := (do_POST (recorded sample_enforcer) ["orchestrator"] (sample_post "intruder" (VInt 60)) ([], [])).2 in
  (permitted.2 = [] \/ exists argv, confined sample_enforcer (sample_post "orchestrator" (VInt 60)) argv /\ permitted.2 = [] ++ [argv]) /\
  length permitted.2 = 1%nat /\ foreign = ([], []).
Proof.
  cbv zeta. split; [apply (enforcer_commands_confined sample_enforcer ["orchestrator"])|]. split; [vm_compute; reflexivity|].
  apply (enforcer_commands_confined sample_enforcer ["orchestrator"]); [done|]. intros name [= <-]. vm_compute. set_solver.
Defined.

Lemma sample_run_raises argv (k : kernel) x : (run sample_enforcer argv k).1 = Err x -> is_backend_error x = true.
Proof.
  cbn [run sample_enforcer]. unfold sample_nft.
  destruct argv as [|n [|v [|c [|d [|f [|g [|t [|]]]]]]]]; try done. destruct (String.eqb v "-j"); [done|].
  unfold change. destruct (element_address t) as [ip|]; [|done]. destruct (String.eqb v "add"); [done|]. by destruct (bool_decide _).
Qed.

Lemma enforcer_answers_unless_infinite_witness :
  let p := sample_post "orchestrator" (VFloat (S754_infinity false)) in
  exists n body s, post_json p n = Ok (VDict body) /\ post_path p = "/v1/add" /\
    get "max_lifetime_seconds" body = VFloat (S754_infinity s) /\
    OverflowError "cannot convert float infinity to integer" = OverflowError "cannot convert float infinity to integer".
Proof.
  intros p. apply (enforcer_answers_unless_infinite sample_enforcer in_kernel sample_run_raises ["orchestrator"] p []).
  - done.
  - vm_compute. reflexivity.
Defined.

(** The text of an accepted address may go on after the number: its scope identifier reaches the
    command as it came. *)
Lemma scope_identifier_reaches_nft :
  exists ip, parse (VStr "2001:db8::1%x } ; flush ruleset ; {") = Ok ip /\
    delete_element sample_enforcer ip = ["/usr/sbin/nft"; "delete"; "element"; "inet"; "soc"; "soc_blocklist6";
      "{ 2001:db8::1%x } ; flush ruleset ; { }"].
Proof.
  exists (IPv6 42540766411282592856903984951653826561 (Some "x } ; flush ruleset ; {")). split; vm_compute; reflexivity.
Qed.
