(* ===== verification/EnrichmentProps.v ===== *)
(** Theorems about the inference outbox ([Outbox.v]).

    Theorems about the enrichment worker ([Enrichment.v]): what it sends, and how far it has copied. *)

From S2P Require Import Prelude PyText PyNum PyTime PyJson Sha256 Policy Decision AuditLog Effects Store Https Contracts Sequences.
From S2P Require Import Outbox Enrichment ServiceInv EnrichInv SampleWorkers.

Lemma empty_outbox_ok commits : outbox_ok (empty_outbox commits).
Proof. split; [done|apply NoDup_nil_2]. Qed.

Lemma run_outbox_good ops o : outbox_ok o -> good_step o (run_outbox ops o).
Proof.
  unfold run_outbox. revert o. induction ops as [|op ops IH]; intros o Ho; cbn [fold_left]; [by apply good_same|].
  destruct (run_outbox_op_good op o Ho) as [H1 H2]. destruct (IH _ H1) as [H3 H4]. split; [done|]. by eapply outbox_evolves_trans.
Qed.

Lemma run_outbox_app a b o : run_outbox (a ++ b) o = run_outbox b (run_outbox a o).
Proof. apply fold_left_app. Qed.

(** ** An update of one job *)
Lemma update_jobs_one selected change l j :
  NoDup (map job_id l) -> j ∈ l -> selected j = true -> (forall x, selected x = true -> job_id x = job_id j) ->
  input_kept j (change j) = true -> result_kept j (change j) = true ->
  exists l', update_jobs selected change l = Ok (l', 1) /\ change j ∈ l' /\ map job_id l' = map job_id l /\
    forall x, job_id x <> job_id j -> x ∈ l -> x ∈ l'.
Proof.
  intros Hnd Hj Hs Honly Hi Hr.
  assert (forall l, Forall (fun x => job_id x <> job_id j) l -> update_jobs selected change l = Ok (l, 0)) as Hnone.
  { induction 1 as [|x m Hx _ IH]; cbn [update_jobs]; [done|]. destruct (selected x) eqn:E; [by destruct (Hx (Honly x E))|]. by rewrite IH. }
  induction l as [|x l IH]; [by apply not_elem_of_nil in Hj|]. cbn [map] in Hnd. apply NoDup_cons in Hnd as [Hx Hnd].
  cbn [update_jobs]. apply elem_of_cons in Hj as [<-|Hj].
  - rewrite Hs, Hi, Hr. cbn [negb raise_if]. rewrite Hnone. 2:{ apply Forall_forall. intros y Hy E. apply Hx. rewrite <- E. by apply list_elem_of_fmap_2. }
    exists (change j :: l). cbn. split; [done|]. split; [by left|].
    unfold input_kept in Hi. rewrite !andb_true_iff, !String.eqb_eq in Hi. split; [by rewrite (proj2 Hi)|].
    intros y Hne Hy. apply elem_of_cons in Hy as [->|Hy]; [done|by right].
  - assert (selected x = false) as Hn.
    { destruct (selected x) eqn:E; [|done]. destruct Hx. rewrite (Honly x E). by apply list_elem_of_fmap_2. }
    rewrite Hn. destruct (IH Hnd Hj) as (l' & Hu & H1 & H2 & H3). rewrite Hu. exists (x :: l'). cbn.
    split; [done|]. split; [by right|]. split; [by rewrite H2|].
    intros y Hne Hy. apply elem_of_cons in Hy as [->|Hy]; [by left|right; by apply H3].
Qed.

Lemma find_job_in id o j : NoDup (map job_id (jobs o)) -> j ∈ jobs o -> job_id j = id -> find_job id o = Some j.
Proof.
  intros Hnd Hj Hid. unfold find_job. destruct (List.find _ _) as [x|] eqn:E.
  - apply find_some in E as [E1 E2]. apply list_elem_of_In in E1. apply String.eqb_eq in E2. f_equal.
    apply (ids_unique_elem (jobs o)); congruence.
  - apply list_elem_of_In in Hj. pose proof (find_none _ _ E j Hj) as Hn. cbn in Hn. by rewrite Hid, String.eqb_refl in Hn.
Qed.

(** A successful commit of it. *)
Lemma commit_ok {X} (body : Outbox -> result (X * Outbox)) o a o1 :
  o_faults o = [] -> body o = Ok (a, o1) ->
  exists o', outbox_transaction body o = (Ok a, o') /\ jobs o' = jobs o1 /\ o_faults o' = [].
Proof. intros Hf Hb. unfold outbox_transaction. rewrite Hb, Hf. cbn. eexists. by split. Qed.

Lemma update_one selected change o id j :
  outbox_ok o -> o_faults o = [] -> find_job id o = Some j -> selected j = true ->
  (forall x, selected x = true -> job_id x = id) -> input_kept j (change j) = true -> result_kept j (change j) = true ->
  exists o', update selected change o = (Ok 1, o') /\ find_job id o' = Some (change j) /\ o_faults o' = [].
Proof.
  intros [_ Hnd] Hf Hj Hs Honly Hi Hr. apply find_job_elem in Hj as [Hin Hid].
  destruct (update_jobs_one selected change (jobs o) j Hnd Hin Hs ltac:(intros; rewrite Hid; auto) Hi Hr) as (l' & Hu & H1 & H2 & _).
  destruct (commit_ok (fun o => let? r := update_jobs selected change (jobs o) in Ok (r.2, set_jobs r.1 o)) o 1 (set_jobs l' o) Hf)
    as (o' & Ho & Hj' & Hf'); [by rewrite Hu|].
  exists o'. split; [exact Ho|]. split; [|done]. apply find_job_in; rewrite ?Hj'; cbn; [by rewrite H2|done|].
  unfold input_kept in Hi. rewrite !andb_true_iff, !String.eqb_eq in Hi. destruct Hi as [_ ->]. done.
Qed.

Lemma kept_same j j' : job_id j' = job_id j -> job_metadata_hash j' = job_metadata_hash j -> job_vector j' = job_vector j ->
  job_event j' = job_event j -> input_kept j j' = true /\ result_kept j j' = true.
Proof.
  intros H1 H2 H3 H4. unfold input_kept, result_kept. rewrite H1, H2, H3, H4, !String.eqb_refl. split; [done|].
  destruct (job_event j); [by rewrite bool_decide_true|done].
Qed.

(** C22: whatever operations run on a new outbox, and however its commits end (each may go through, be
    lost, or end in an unknown state): ids are the content hashes of the inputs and are unique, a job
    has a result exactly from its scoring on, and everything that was in the outbox at some point is
    still there later, in its place, with the same input and, once scored, the same result. *)
Theorem outbox_never_loses_work (commits : list fault) (before after : list outbox_op) :
  let o1 := run_outbox before (empty_outbox commits) in
  let o2 := run_outbox (before ++ after) (empty_outbox commits) in
  outbox_ok o2 /\ outbox_evolves o1 o2.
Proof.
  intros o1 o2. unfold o2. rewrite run_outbox_app. fold o1.
  destruct (run_outbox_good before (empty_outbox commits) (empty_outbox_ok commits)) as [H1 _]. by apply run_outbox_good.
Qed.

(** A job that fails for a transient reason keeps its state and its result, and is handed out
    again: not before its back-off of ten seconds to an hour, and always from then on. *)
Theorem transient_failure_is_retried o id error_code now j :
  outbox_ok o -> o_faults o = [] -> find_job id o = Some j -> job_state_of j = pending \/ job_state_of j = scored ->
  exists o' j', failed id error_code true now o = (Ok tt, o') /\ find_job id o' = Some j' /\
    job_state_of j' = job_state_of j /\ job_event j' = job_event j /\ job_attempts j' = job_attempts j + 1 /\
    seconds 10 <= job_next_attempt j' - now <= seconds 3600 /\
    forall later, is_due_job later j' = true <-> job_next_attempt j' <= later.
Proof.
  intros Ho Hf Hj Hst. set (n := job_attempts j + 1).
  set (change := with_failure (job_state_of j) n error_code (now + seconds (backoff n)) now).
  destruct (kept_same j (change j)) as [Hi Hr]; [done..|].
  destruct (update_one (has_id id) change o id j Ho Hf Hj) as (o' & Hu & Hj' & _); try done.
  { unfold has_id. apply find_job_elem in Hj as [_ ->]. apply String.eqb_refl. }
  { intros x. apply String.eqb_eq. }
  exists o', (change j). split.
  { unfold failed, mbind, gets. rewrite Hj. fold n. fold change. by rewrite Hu. }
  split; [done|]. repeat (split; [done|]). unfold change. cbn [with_failure job_next_attempt job_state_of].
  apply find_job_elem in Hj as [Hin _]. pose proof (proj1 (Forall_forall _ _) (jobs_ok o Ho) j Hin) as Hok.
  pose proof (job_attempts_nonneg j Hok). pose proof (backoff_bounds n ltac:(unfold n; lia)) as Hb.
  split; [unfold seconds, US_PER_SECOND; lia|]. intros later. unfold is_due_job. cbn.
  destruct Hst as [-> | ->]; apply Z.leb_le.
Qed.

(** A permanent failure takes a job out of the queue for good, with its result kept, until an
    operator requeues it; it then is due at once, to be scored or, if it was, to be delivered. *)
Theorem dead_letter_waits_for_requeue o id error_code now j :
  outbox_ok o -> o_faults o = [] -> find_job id o = Some j ->
  exists o1 j1, failed id error_code false now o = (Ok tt, o1) /\ find_job id o1 = Some j1 /\
    (forall later, is_due_job later j1 = false) /\
    exists o2 j2, requeue id now o1 = (Ok tt, o2) /\ find_job id o2 = Some j2 /\
      job_state_of j2 = (match job_event j with None => pending | Some _ => scored end) /\ job_event j2 = job_event j /\
      forall later, 0 <= later -> is_due_job later j2 = true.
Proof.
  intros Ho Hf Hj. set (n := job_attempts j + 1).
  set (change := with_failure deadletter n error_code (now + seconds (backoff n)) now).
  destruct (kept_same j (change j)) as [Hi Hr]; [done..|].
  destruct (update_one (has_id id) change o id j Ho Hf Hj) as (o1 & Hu & Hj1 & Hf1); try done.
  { unfold has_id. apply find_job_elem in Hj as [_ ->]. apply String.eqb_refl. }
  { intros x. apply String.eqb_eq. }
  assert (failed id error_code false now o = (Ok tt, o1)) as Hfail.
  { unfold failed, mbind, gets. rewrite Hj. fold n. fold change. by rewrite Hu. }
  exists o1, (change j). split; [done|]. split; [done|]. split; [done|].
  assert (outbox_ok o1) as Ho1.
  { pose proof (failed_good id error_code false now o Ho) as [H _]. by rewrite Hfail in H. }
  set (j1 := change j) in *. destruct (kept_same j1 (requeued now j1)) as [Hi1 Hr1]; [done..|].
  destruct (update_jobs_one (in_state id deadletter) (requeued now) (jobs o1) j1) as (l & Hl & H1 & H2 & _).
  { apply Ho1. } { by apply find_job_elem in Hj1 as [Hin1 _]. }
  { apply find_job_elem in Hj1 as [_ E]. unfold in_state. rewrite E, String.eqb_refl. done. }
  { intros x Hx. unfold in_state in Hx. apply andb_true_iff in Hx as [Hx _]. apply String.eqb_eq in Hx.
    apply find_job_elem in Hj1 as [_ ->]. done. }
  { done. } { done. }
  destruct (commit_ok (fun o => let? r := update_jobs (in_state id deadletter) (requeued now) (jobs o) in
    raise_if (negb (r.2 =? 1)) (ValueError "unknown dead-letter job") ;;? Ok (tt, set_jobs r.1 o)) o1 tt (set_jobs l o1) Hf1)
    as (o2 & Ho2 & Hjobs & _); [by rewrite Hl|].
  exists o2, (requeued now j1). split; [exact Ho2|]. split; [|split; [done|split; [done|]]].
  - apply find_job_in; rewrite ?Hjobs; cbn; [rewrite H2; apply Ho1|done|]. by apply find_job_elem in Hj as [_ ->].
  - intros later Hl'. unfold is_due_job. cbn. destruct (job_event j); by apply Z.leb_le.
Qed.

(** ** Witnesses *)
Definition queued_hash : string := "0123456789abcdef0123456789abcdef0123456789abcdef0123456789abcdef".
Definition queued_vector : document := {| doc_text := "{}"; doc_value := VDict [] |}.
Definition sample_job_id : string := job_identifier queued_hash "{}".
Definition sample_job : Job := new_job sample_job_id queued_hash queued_vector 0.
Definition sample_box : Outbox := {| jobs := [sample_job]; meta := []; o_faults := [] |}.

Lemma sample_box_ok : outbox_ok sample_box.
Proof. split; [|apply NoDup_singleton]. constructor; [|constructor]. split; [done|done|by intros [|]|done|done]. Qed.

Lemma sample_box_job : find_job sample_job_id sample_box = Some sample_job.
Proof. apply find_job_in; [apply NoDup_singleton|by left|done]. Qed.

Lemma transient_failure_is_retried_witness :
  exists o' j', failed sample_job_id "HTTP_503" true 5 sample_box = (Ok tt, o') /\ find_job sample_job_id o' = Some j' /\
    job_attempts j' = 1.
Proof.
  destruct (transient_failure_is_retried sample_box sample_job_id "HTTP_503" 5 sample_job sample_box_ok eq_refl
    sample_box_job (or_introl eq_refl)) as (o' & j' & H1 & H2 & _ & _ & H3 & _).
  exists o', j'. split; [exact H1|]. split; [exact H2|exact H3].
Defined.

Lemma dead_letter_waits_for_requeue_witness :
  exists o1 o2 j2, failed sample_job_id "HTTP_400" false 5 sample_box = (Ok tt, o1) /\
    requeue sample_job_id 5 o1 = (Ok tt, o2) /\ find_job sample_job_id o2 = Some j2 /\ is_due_job 6 j2 = true.
Proof.
  destruct (dead_letter_waits_for_requeue sample_box sample_job_id "HTTP_400" 5 sample_job sample_box_ok eq_refl sample_box_job)
    as (o1 & j1 & H1 & _ & _ & o2 & j2 & H2 & H3 & _ & _ & H4).
  exists o1, o2, j2. split; [exact H1|]. split; [exact H2|]. split; [exact H3|]. apply H4. lia.
Defined.

(** ** Sending *)
Inductive worker_op : Type :=
| WImport (metadata_hash : string) (lines : list (Z * result val))
| WDrain (limit : Z)
| WPull (asked metadata_hash : string) (limit : Z)
| WServe (metadata_hash : string) (limit : Z)
| WRequeue (id : string) (now : Z).

Section worker.
Context {W : Type}.
Variables inference elastic : JsonHTTPS W.
Variable clock : M W Z.
Variable schema_file : string -> option (list Z).
Variable conforms : list Z -> mapping -> bool.
Notation S := (Enrichment W).

Definition run_worker_op (op : worker_op) (s : S) : S :=
  match op with
  | WImport hash lines => (import_vectors clock schema_file conforms hash lines s).2
  | WDrain limit => (drain_command inference elastic clock schema_file conforms limit s).2
  | WPull asked hash limit => (pull_command inference elastic clock schema_file conforms asked hash limit s).2
  | WServe hash limit => (serve_turn inference elastic clock schema_file conforms hash limit s).2
  | WRequeue id now => (in_box (requeue id now) s).2
  end.

Definition run_worker (ops : list worker_op) (s : S) : S := fold_left (fun s op => run_worker_op op s) ops s.

Variable documents : W -> string -> option val.

(** The clock and the inference service leave the index as it is. *)
Class WorkerLaws : Prop := {
  worker_index :: IndexLaws elastic documents;
  worker_clock u d : keeps (fun w => documents w u = d) clock;
  worker_inference method path body u d : keeps (fun w => documents w u = d) (request inference method path body);
}.
Context `{!WorkerLaws}.
Variable found : W.

Lemma search_reads index body u d : keeps (fun w => documents w u = d) (search elastic index body).
Proof. unfold search. keeps_walk. by apply (request_reads elastic documents). Qed.

Lemma fetcher_laws length : BystanderLaws inference clock (fetcher_for elastic length) documents.
Proof.
  split; [apply worker_clock|apply worker_inference|]. intros fetch vector u d. unfold fetcher_for.
  destruct (1 <? length); [|done]. intros [= <-]. unfold make_history_fetcher. keeps_walk. apply search_reads.
Qed.

Notation ok := (deliveries_ok elastic documents found).

Lemma net_ok {X} (m : M W X) : (forall u d, keeps (fun w => documents w u = d) m) -> keeps ok (in_net m).
Proof.
  intros Hm. eapply triple_conseq; [by apply (net_rule elastic documents found (fun _ => True) [] m)|intros s Hs; by split|intros x s; apply known_ok..].
Qed.

Lemma box_ok_rule {X} (m : M Outbox X) :
  (forall o w, outbox_ok o -> Forall (job_good elastic documents found w) (jobs o) ->
     outbox_ok (m o).2 /\ Forall (job_good elastic documents found w) (jobs (m o).2) /\ results_kept o (m o).2) ->
  keeps ok (in_box m).
Proof.
  intros Hm. eapply triple_conseq; [apply (box_rule elastic documents found (fun _ => True) [] m (fun _ _ => True))|intros s Hs; by split|
    intros x s; apply known_ok|done]. intros o w H1 H2 _ _. destruct (Hm o w H1 H2) as (H3 & H4 & H5). done.
Qed.

Lemma enqueue_keeps vector hash now : keeps ok (in_box (enqueue vector hash now)).
Proof. apply box_ok_rule. intros o w Ho Hall. split; [by apply enqueue_good|]. split; [by apply enqueue_good_jobs|apply enqueue_results]. Qed.

Lemma set_meta_keeps key value : keeps ok (in_box (set_meta key value)).
Proof.
  apply box_ok_rule. intros o w Ho Hall. pose proof (run_outbox_op_good (OSetMeta key value) o Ho) as [Hg _]. split; [exact Hg|].
  assert (jobs (set_meta key value o).2 = jobs o) as E; [|by rewrite E; split; [|apply results_same; rewrite E]].
  unfold set_meta. match goal with |- context [outbox_transaction ?b o] => destruct (outbox_transaction_cases b o) as [(-> & _)|(a & o' & Hb & -> & _)] end; [done|].
  by injection Hb as _ <-.
Qed.

Lemma model_keeps {X} (k : Z * mapping -> M S X) : (forall a, keeps ok (k a)) ->
  keeps ok (let! answer := in_net (request inference "GET" "/model" None) in k answer).
Proof. intros Hk. apply keeps_bind; [apply net_ok, worker_inference|exact Hk]. Qed.

Lemma pull_loop_keeps schema hash limit after :
  keeps (fun s => ok s.2) (pull_loop elastic clock schema_file conforms schema hash limit after).
Proof.
  apply scan_keeps.
  - intros body [c s] Hs. unfold pulling. cbn [fst snd] in *.
    pose proof (net_ok (search elastic "soc-features-*" body) (search_reads _ _) s Hs) as Hn. by destruct (in_net _ s) as [[x|e] s'].
  - intros hit [c s] Hs. unfold pull_next. cbn [fst snd] in *. destruct (limit <=? seen c); [done|].
    assert (keeps ok (pull_hit clock schema_file conforms hash c hit)) as Hp.
    { unfold pull_hit. keeps_walk; [apply net_ok, worker_clock|apply enqueue_keeps]. }
    specialize (Hp s Hs). by destruct (pull_hit _ _ _ _ _ _ _) as [[c'|e] s'].
Qed.

Lemma pull_keeps schema hash limit : keeps ok (pull_features elastic clock schema_file conforms schema hash limit).
Proof.
  unfold pull_features. keeps_walk; [|apply set_meta_keeps..]. intros s Hs.
  match goal with |- context [pull_loop _ _ _ _ _ _ _ ?after (?c, s)] => pose proof (pull_loop_keeps schema hash limit after (c, s) Hs) as Hl end.
  by destruct (pull_loop _ _ _ _ _ _ _ _ _) as [[[|]|e] [c s']].
Qed.

Lemma drain_keeps length limit : keeps ok (drain inference elastic clock schema_file conforms (fetcher_for elastic length) limit).
Proof. apply (drain_rule inference elastic clock schema_file conforms _ documents found (H := fetcher_laws length)). Qed.

Lemma schema_keeps : keeps ok (serving_schema inference).
Proof. apply model_keeps. intros a. keeps_walk. Qed.

Lemma length_keeps : keeps ok (serving_sequence_length inference).
Proof. apply model_keeps. intros a. keeps_walk. Qed.

Lemma run_worker_op_ok op s : ok s -> ok (run_worker_op op s).
Proof.
  assert (forall X (m : M S X), keeps ok m -> ok s -> ok (m s).2) as Hrun.
  { intros X m Hm Hs. specialize (Hm s Hs). by destruct (m s) as [[x|e] s']. }
  destruct op; cbn [run_worker_op]; apply Hrun.
  - unfold import_vectors. apply keeps_bind; [|intros ?; apply keeps_ret]. apply keeps_mapM. intros line.
    unfold import_line. keeps_walk; [apply net_ok, worker_clock|apply enqueue_keeps].
  - unfold drain_command. keeps_walk; [apply length_keeps|apply drain_keeps].
  - unfold pull_command. keeps_walk; [apply schema_keeps|apply pull_keeps].
  - unfold serve_turn. keeps_walk; [apply schema_keeps|apply pull_keeps|apply length_keeps|apply drain_keeps].
  - apply box_ok_rule. intros o w Ho Hall. split; [by apply requeue_good|]. split; [by apply requeue_good_jobs|apply requeue_results].
Qed.

End worker.

Section sent.
Context {W : Type}.
Variables inference elastic : JsonHTTPS W.
Variable clock : M W Z.
Variable schema_file : string -> option (list Z).
Variable conforms : list Z -> mapping -> bool.
Variable documents : W -> string -> option val.

(** C10: whatever the worker is told to do, in whatever order and with whatever failures of the network,
    the model service and the commits, over an index that only it writes to: a job that counts as sent
    has a result, and the index holds that very result, as a document, under the job's own id in the
    index of the result's day.  Only where the index held another document under that id before the
    run does it hold that one still. *)
Theorem sent_jobs_are_in_the_index `{!WorkerLaws inference elastic clock documents} ops w faults :
  let s := run_worker inference elastic clock schema_file conforms ops {| box := empty_outbox faults; net := w |} in
  forall j, j ∈ jobs (box s) -> job_state_of j = sent ->
  exists d event index, job_event j = Some d /\ doc_value d = VDict event /\ event_index event = Ok index /\
    let url := origin elastic +:+ "/" +:+ index +:+ "/_create/" +:+ job_id j in
    documents (net s) url = Some (VDict event) \/ exists other, documents w url = Some other /\ documents (net s) url = Some other.
Proof.
  cbv zeta. set (s0 := {| box := _; net := w |}).
  assert (forall ops s, deliveries_ok elastic documents w s -> deliveries_ok elastic documents w (run_worker inference elastic clock schema_file conforms ops s)) as Hrun.
  { intros l. induction l as [|op l IH]; intros s Hs; [done|]. apply IH. by apply run_worker_op_ok. }
  intros j Hj Hsent. assert (deliveries_ok elastic documents w s0) as H0.
  { split; [split; [done|apply NoDup_nil_2]|done|]. intros index id d _ Hd. by left. }
  apply (Hrun ops) in H0 as [_ Hall _]. rewrite Forall_forall in Hall. destruct (Hall j Hj) as [_ Hh]. by apply Hh.
Qed.
End sent.

#[local] Instance sample_worker_laws : WorkerLaws model_http document_http fixed_clock stored_at.
Proof. split; [apply _|intros u d; apply keeps_ret|intros; apply model_http_keeps]. Qed.

Lemma sent_jobs_are_in_the_index_witness :
  let s := run_worker model_http document_http fixed_clock sample_schema_file sample_conforms
    [WImport sample_hash [(1, Ok (VDict sample_vector))]; WDrain 10] {| box := empty_outbox []; net := [] |} in
  exists j, j ∈ jobs (box s) /\ job_state_of j = sent /\
  exists d event index, job_event j = Some d /\ doc_value d = VDict event /\ event_index event = Ok index /\
    stored_at (net s) (origin document_http +:+ "/" +:+ index +:+ "/_create/" +:+ job_id j) = Some (VDict event).
Proof.
  cbv zeta. pose proof (sent_jobs_are_in_the_index model_http document_http fixed_clock sample_schema_file sample_conforms stored_at
    [WImport sample_hash [(1, Ok (VDict sample_vector))]; WDrain 10] [] []) as H. cbv zeta in H. revert H.
  set (s := run_worker _ _ _ _ _ _ _). intros H.
  assert (map job_state_of (jobs (box s)) = [sent]) as Hs by (vm_compute; reflexivity).
  destruct (jobs (box s)) as [|j l]; [discriminate|]. exists j. injection Hs as Hj _.
  split; [apply list_elem_of_here|]. split; [exact Hj|].
  destruct (H j (list_elem_of_here _ _) Hj) as (d & event & index & H1 & H2 & H3 & [H4|(other & H4 & _)]); [|discriminate].
  exists d, event, index. repeat (split; [assumption|]). exact H4.
Defined.

(** ** Copying *)
Section copying.
Context {W : Type}.
Variable elastic : JsonHTTPS W.
Variable clock : M W Z.
Variable schema_file : string -> option (list Z).
Variable conforms : list Z -> mapping -> bool.
Variable given : W -> list val.
Notation S := (Enrichment W).

(** What the run stores when it has seen a sort value. *)
Definition cursor_document (cursor : val) : document := {| doc_text := json_dumps cursor; doc_value := cursor |}.

Lemma set_meta_cases key value o : let '(r, o') := set_meta key value o in
  jobs o' = jobs o /\ (meta o' = meta o \/ meta o' = assoc_set key value (meta o)) /\ (r = Ok tt -> meta o' = assoc_set key value (meta o)).
Proof.
  unfold set_meta, outbox_transaction. cbn. destruct (hd CommitOk (o_faults o)); cbn; (split; [done|]); (split; [|done]); auto.
Qed.

(** What a run from [s] that ended in [s'] with [r] has done with the hits it took. *)
Definition copied (schema hash : string) (limit : Z) (s : S) (r : result pull_counts) (s' : S) : Prop :=
  let key := FEATURE_CURSOR +:+ ":" +:+ schema in
  exists taken, given (net s) ++ taken `prefix_of` given (net s') /\ Z.of_nat (length taken) <= Z.max 0 limit /\
  Forall (handled schema_file conforms hash (box s')) taken /\
  let cursor := cursor_after (loaded_cursor (get_meta key (box s))) taken in
  let moved := assoc_set key (cursor_document cursor) (meta (box s)) in
  (meta (box s') = meta (box s) \/ (cursor <> VNone /\ meta (box s') = moved)) /\
  (forall c, r = Ok c -> seen c = Z.of_nat (length taken) /\ added c + duplicates c + invalid c = seen c /\
     (cursor <> VNone -> meta (box s') = moved)).

Lemma copied_nothing schema hash limit s r : (forall c, r <> Ok c) -> copied schema hash limit s r s.
Proof.
  intros Hr. exists []. rewrite app_nil_r. split; [done|]. split; [cbn; lia|]. split; [constructor|]. split; [by left|].
  intros c E. by destruct (Hr c).
Qed.

Section loop_end.
Variables (schema hash : string) (limit : Z) (s : S).
Let start := loaded_cursor (get_meta (FEATURE_CURSOR +:+ ":" +:+ schema) (box s)).
Notation taken_until := (taken_ok schema_file conforms hash limit start (meta (box s))).

(** A loop that raised has left the cursor. *)
Lemma copied_loop r taken c s1 : 0 < limit -> given (net s) ++ taken `prefix_of` given (net s1) -> taken_until taken c s1 ->
  (r = Ok c -> last_sort c = VNone) -> (forall c', r = Ok c' -> c' = c) -> copied schema hash limit s r s1.
Proof.
  intros Hl Hpre [T1 T2 T3 T4 T5 T6 T7] Hnone Hr. exists taken. split; [done|]. split; [lia|]. split; [done|]. split; [by left|].
  intros c' ->. rewrite (Hr c' eq_refl) in *. fold start. rewrite <- T4. rewrite Hnone by done. by repeat split.
Qed.

(** A loop that returned, and the commit of the cursor. *)
Lemma copied_cursor taken c s1 k : 0 < limit -> given (net s) ++ taken `prefix_of` given (net s1) -> taken_until taken c s1 ->
  k <> VNone -> last_sort c = k ->
  let '(r, s') := (in_box (set_meta (FEATURE_CURSOR +:+ ":" +:+ schema) (cursor_document k)) ;;! ret c) s1 in copied schema hash limit s r s'.
Proof.
  intros Hl Hpre [T1 T2 T3 T4 T5 T6 T7] Hk Hc. unfold mbind, in_box, ret.
  pose proof (set_meta_cases (FEATURE_CURSOR +:+ ":" +:+ schema) (cursor_document k) (box s1)) as Hm.
  rewrite T7 in Hm. rewrite T4 in Hc. destruct (set_meta _ _ _) as [[[]|e] o']; destruct Hm as (Hj & Hm & Hok).
  all: exists taken; (split; [exact Hpre|]); (split; [lia|]); fold start; rewrite Hc; (split; [|split]); cbn [box net] in *.
  all: try (eapply Forall_impl; [exact T5|]; intros h; apply handled_more; by rewrite Hj).
  all: try (destruct Hm as [->|Hm]; [by left|right; by split]); try done.
  intros c' [= <-]. split; [done|]. split; [done|]. intros _. by apply Hok.
Qed.
End loop_end.

(** C11: a run takes hits from the node in the order they came, up to its limit; every one it took is an
    invalid vector or the input of a job by the end, whether the run returns or raises; the cursor only
    ever moves to the last sort value of the hits taken, and a run that returns counted them all. *)
Theorem cursor_never_passes_a_vector `{!ObservedSearch elastic clock given} schema hash limit (s : S) :
  outbox_ok (box s) ->
  let '(r, s') := pull_features elastic clock schema_file conforms schema hash limit s in copied schema hash limit s r s'.
Proof.
  intros Hbox. unfold pull_features. unfold mbind at 1, raise_when, lift, raise_if.
  destruct (Z.leb_spec 1 limit) as [Hl|Hl]; cbn [andb negb]; [|by apply copied_nothing].
  destruct (limit <=? 100000); cbn [negb]; [|by apply copied_nothing].
  unfold mbind at 1, gets. cbv zeta. unfold mbind at 1. set (start := loaded_cursor _).
  destruct (search_after start) as [after|e]; [|by apply copied_nothing].
  pose proof (pull_loop_taken elastic clock schema_file conforms given hash limit start (meta (box s)) (given (net s)) schema after
    (no_counts start, s)) as Hloop.
  assert (taking schema_file conforms given hash limit start (meta (box s)) (given (net s)) [] (no_counts start, s)) as H0.
  { split; [|by rewrite app_nil_r]. split; cbn; try done. lia. }
  specialize (Hloop H0). unfold mbind at 1.
  destruct (pull_loop _ _ _ _ _ _ _ _ _) as [[[|]|e] [c s1]]; destruct Hloop as (taken & Ht & Hpre); cbn [fst snd] in *.
  2,3: by apply (copied_loop _ _ _ _ _ taken c); [lia|..].
  destruct (last_sort c) as [| | | | |] eqn:Ec; try (by apply (copied_cursor _ _ _ _ taken); [lia|..]).
  unfold mbind, ret. apply (copied_loop _ _ _ _ _ taken c); [lia|done..|by intros c' [= <-]].
Qed.
End copying.

(** Two pages, one hit of them without features: the job is there, and the cursor is that of the last. *)
Definition two_hits : list val := [feature_hit sample_vector; VDict [("_source", VDict []); ("sort", VList [VInt 7])]].

Lemma cursor_never_passes_a_vector_witness :
  let s : Enrichment paged := {| box := empty_outbox []; net := ([], [two_hits]) |} in
  let '(r, s') := pull_features paged_http fixed_clock sample_schema_file sample_conforms "network-window-v1" sample_hash 10 s in
  outbox_ok (box s) /\ copied sample_schema_file sample_conforms fst "network-window-v1" sample_hash 10 s r s' /\
  length (jobs (box s')) = 1%nat /\ map doc_value (map snd (meta (box s'))) = [VList [VInt 7]].
Proof.
  cbv zeta. set (s := {| box := empty_outbox []; net := _ |}).
  assert (outbox_ok (box s)) as Hs by (split; [done|apply NoDup_nil_2]).
  pose proof (cursor_never_passes_a_vector paged_http fixed_clock sample_schema_file sample_conforms fst "network-window-v1" sample_hash 10 s Hs) as H.
  assert (let s' := (pull_features paged_http fixed_clock sample_schema_file sample_conforms "network-window-v1" sample_hash 10 s).2 in
    length (jobs (box s')) = 1%nat /\ map doc_value (map snd (meta (box s'))) = [VList [VInt 7]]) as Hd by (vm_compute; by split).
  destruct (pull_features _ _ _ _ _ _ _ _) as [r s']. split; [done|]. by split.
Defined.
