(* ===== verification/TransportProps.v ===== *)
(** Theorems about the clients of [Https.v] and [Transports.v]: the loops of the Elasticsearch scan
    and of the Wazuh verification end, and with what.

    Theorems about the endpoint's active response ([Endpoint.v]): what its markers say about the
    isolation table, and what they do not. *)

From S2P Require Import Prelude PyText PyNum PyTime PyNet PyJson Sha256 Policy Decision Effects Store Adapters Https Ownership.
From S2P Require Import Blocklist Transports NftEnforcer Endpoint.

(** ** Scanning *)

(** C38: a loop over a scan with a limit ends whatever the node answers and whatever the loop does with
    the hits: [l / page_size + 1] pages are enough, more make no difference, and it has seen at most
    [l] hits. *)
Theorem limited_scan_ends {S W} (transport : JsonHTTPS W) (in_net : forall X, M W X -> M S X) index query sort source page_size l
    (each : val -> M S bool) (seen : S -> Z) more after s :
  (forall X (m : M W X) s, seen (in_net X m s).2 = seen s) -> (forall hit s, seen (each hit s).2 <= seen s + 1) -> 0 <= l ->
  (enough_pages page_size l <= more)%nat ->
  let '(r, s') := scan transport in_net index query sort source page_size (Some l) each (enough_pages page_size l) after s in
  r <> Ok false /\ seen s' <= seen s + l /\
  scan transport in_net index query sort source page_size (Some l) each more after s = (r, s').
Proof.
  intros Hnet Heach Hl Hm.
  assert (agree (fun s' => seen s' <= seen s + l)
    (scan transport in_net index query sort source page_size (Some l) each (enough_pages page_size l) after)
    (scan transport in_net index query sort source page_size (Some l) each more after) s) as (He & Hr & Hj).
  { apply (scan_agrees _ _ _ _ _ _ _ _ _ (fun n s' => seen s' <= seen s + n /\ 0 <= n <= l)); [|..|done|lia|done].
    - intros n s1 Hs. cbv beta. lia.
    - intros n X m s1 Hs. specialize (Hnet X m s1). destruct (in_net X m s1) as [[x|e] s2]; cbn in *; lia.
    - intros n hit s1 Hs. unfold yield_hit, raise_when, lift, mbind. destruct (Z.ltb_spec l (n + 1)); cbn [raise_if]; [lia|].
      specialize (Heach hit s1). destruct (each hit s1) as [[[|]|e] s2]; cbn in *; lia. }
  destruct (scan _ _ _ _ _ _ _ _ _ _ _ s) as [r s']. split; [exact Hr|]. split; [exact Hj|]. by rewrite <- He.
Qed.

(** ** Waiting for a marker *)

(** A clock that does not run backwards, a sleep that lasts, and messages that take their time. *)
Class TimeLaws {W : Type} (basic http : JsonHTTPS W) (clock : M W Z) (sleep : Z -> M W unit) (time : W -> Z) : Prop := {
  time_basic_authorization t : keeps (fun w => t <= time w) (authorization basic);
  time_basic r t : keeps (fun w => t <= time w) (opener basic r);
  time_http r t : keeps (fun w => t <= time w) (opener http r);
  time_clock t : triple (fun w => t <= time w) clock (fun now w => t <= now <= time w) (fun _ w => t <= time w);
  time_sleep seconds t : triple (fun w => t <= time w) (sleep seconds) (fun _ w => t + seconds <= time w) (fun _ _ => True);
}.

Section await.
Context {W : Type}.
Variables basic http : JsonHTTPS W.
Variables timeout poll : Z.
Variable clock : M W Z.
Variable sleep : Z -> M W unit.
Variable time : W -> Z.
Context `{!TimeLaws basic http clock sleep time}.
Notation S := (WazuhSession W).
Notation present_now := (_marker_present basic http clock).

(** At least [t] on the clock. *)
Definition since (t : Z) (s : S) : Prop := t <= time (wz_world s).

Lemma triple_outside {X} (P : W -> Prop) (m : M W X) (Q : X -> W -> Prop) (F : exn -> W -> Prop) :
  triple P m Q F -> triple (fun s : S => P (wz_world s)) (outside m) (fun x s => Q x (wz_world s)) (fun x s => F x (wz_world s)).
Proof. intros H s Hs. unfold outside. specialize (H _ Hs). by destruct (m (wz_world s)) as [[x|x] w']. Qed.

Lemma since_outside {X} t (m : M W X) : keeps (fun w => t <= time w) m -> keeps (since t) (outside m : M S X).
Proof. apply triple_outside. Qed.

Lemma since_request t (h : JsonHTTPS W) method path payload :
  keeps (fun w => t <= time w) (authorization h) -> (forall r, keeps (fun w => t <= time w) (opener h r)) ->
  keeps (fun w => t <= time w) (request h method path payload).
Proof. intros Ha Ho. unfold request. keeps_walk; [exact Ha|apply Ho]. Qed.

Lemma since_clock t : keeps (since t) (outside clock : M S Z).
Proof. apply since_outside. intros w Hw. pose proof (@time_clock _ basic http clock sleep time _ t w Hw) as H. destruct (clock w) as [[n|x] w']; lia. Qed.

Lemma since_token t v at_ : keeps (since t) (set_token v at_ : M S unit).
Proof. by apply keeps_modify. Qed.

Lemma since_authenticate t : keeps (since t) (authenticate basic clock : M S string).
Proof.
  unfold authenticate. keeps_walk.
  - apply since_outside, since_request; [apply time_basic_authorization|intros r; apply time_basic].
  - apply since_clock.
  - apply since_token.
Qed.

Lemma since_bearer_request t method path payload : keeps (since t) (bearer_request basic http clock method path payload : M S _).
Proof.
  unfold bearer_request. apply (triple_bind _ _ _ (fun transport s => since t s /\ exists v, transport = with_authorization http (ret v))).
  - unfold _bearer. apply (triple_bind _ _ _ (fun _ => since t)); [apply keeps_gets|intros token].
    apply (triple_bind _ _ _ (fun _ => since t)).
    + match goal with |- triple ?P ?m _ _ => change (keeps P m) end. keeps_walk; first [apply since_authenticate|apply since_clock].
    + intros v. apply triple_ret. intros s Hs. split; [exact Hs|by eexists].
  - intros transport s [Hs [v ->]]. eapply since_outside; [|exact Hs]. apply since_request; [apply keeps_ret|intros r; exact (@time_http _ basic http clock sleep time _ r t)].
Qed.

Lemma since_call t method path payload : keeps (since t) (wazuh_call basic http clock method path payload : M S mapping).
Proof. unfold wazuh_call. keeps_walk; try apply since_bearer_request. apply since_token. Qed.

Lemma since_marker t host op : keeps (since t) (present_now host op : M S bool).
Proof. unfold _marker_present, _agent_id. keeps_walk; apply since_call. Qed.

(** With [n] turns left the loop ends when the deadline is within [n] sleeps. *)
Lemma await_until_ends n deadline host op present t :
  0 < poll -> deadline <= t + Z.of_nat n * poll ->
  triple (since t) (await_until basic http poll clock sleep (Datatypes.S n) deadline host op present)
    (fun r s => r <> None /\ (r = Some false -> deadline <= time (wz_world s))) (fun _ _ => True).
Proof.
  intros Hp. revert t. induction n as [|n IH]; intros t Ht; cbn [await_until].
  all: apply (triple_bind _ _ _ (fun _ => since t)); [eapply triple_conseq; [apply since_marker|done..]|intros there].
  all: destruct (Bool.eqb there present); [by apply triple_ret|].
  all: apply (triple_bind _ _ _ (fun now s => t <= now <= time (wz_world s)));
    [eapply triple_conseq; [apply (triple_outside (fun w => t <= time w)), (@time_clock _ basic http clock sleep time _)|done..]|intros now].
  all: destruct (Z.leb_spec deadline now); [apply triple_ret; intros s Hs; cbn beta in Hs; split; [done|intros _; lia]|].
  - intros s Hs. cbn beta in Hs. lia.
  - apply (triple_bind _ _ _ (fun _ => since (t + poll))); [|intros _; apply IH; lia].
    intros s Hs. cbn beta in Hs. assert (t <= time (wz_world s)) as Hs' by lia.
    pose proof (triple_outside (fun w => t <= time w) _ _ _ (@time_sleep _ basic http clock sleep time _ poll t) s Hs') as H1.
    by destruct (outside (sleep poll) s) as [[x|x] s'].
Qed.

(** Waiting for a marker ends: [timeout / poll + 2] turns are enough whatever the manager answers,
    and the wait gives up only once the whole timeout has passed. *)
Theorem await_terminates host op present s :
  0 < poll -> 0 <= timeout ->
  let '(r, s') := _await basic http timeout poll clock sleep host op present s in
  r <> Ok None /\ (r = Ok (Some false) -> time (wz_world s) + timeout <= time (wz_world s')).
Proof.
  intros Hp Ht. set (t := time (wz_world s)).
  assert (triple (since t) (_await basic http timeout poll clock sleep host op present)
    (fun r s => r <> None /\ (r = Some false -> t + timeout <= time (wz_world s))) (fun _ _ => True)) as H.
  { unfold _await. apply (triple_bind _ _ _ (fun now s => t <= now <= time (wz_world s))).
    { eapply triple_conseq; [apply (triple_outside (fun w => t <= time w)), (@time_clock _ basic http clock sleep time _)|done..]. }
    intros now s1 Hs1. pose proof (Z.div_mod timeout poll ltac:(lia)). pose proof (Z.mod_pos_bound timeout poll Hp).
    pose proof (Z.div_pos timeout poll Ht Hp).
    pose proof (await_until_ends (Datatypes.S (Z.to_nat (timeout / poll))) (now + timeout) host op present (time (wz_world s1)) Hp
      ltac:(nia) s1 ltac:(unfold since; lia)) as H2.
    unfold await_fuel. destruct (await_until _ _ _ _ _ _ _ _ _ _ s1) as [[r|x] s2]; [|done].
    destruct H2 as [H3 H4]. split; [done|]. intros E. specialize (H4 E). lia. }
  specialize (H s ltac:(unfold since; lia)). destruct (_await _ _ _ _ _ _ _ _ _ s) as [[r|x] s']; [|done].
  destruct H as [H1 H2]. split; [congruence|]. intros [= ->]. by apply H2.
Qed.
End await.

(** ** Witnesses *)

(** A manager that never answers, next to a clock of nanoseconds. *)
Definition silent_http : JsonHTTPS Z := {| origin := "https://manager.example"; opener := fun _ => ret NetworkFailure; authorization := ret "" |}.
Definition sample_clock : M Z Z := gets (fun now => now).
Definition sample_sleep (duration : Z) : M Z unit := modify (fun now => now + Z.max 0 duration).

#[local] Instance sample_time : TimeLaws silent_http silent_http sample_clock sample_sleep (fun now => now).
Proof.
  split; intros.
  - apply keeps_ret.
  - apply keeps_ret.
  - apply keeps_ret.
  - intros now H. cbn. lia.
  - intros now H. cbn. lia.
Qed.

(** A loop that counts the hits. *)
Definition count_hit (hit : val) : M (Z * Z) bool := fun s => (Ok true, (s.1 + 1, s.2)).
Definition counted_net X (m : M Z X) : M (Z * Z) X := fun s => let '(r, w) := m s.2 in (r, (s.1, w)).

Lemma limited_scan_ends_witness :
  let count_hits := scan silent_http counted_net "soc-features-*" (VDict []) (VList []) None 100 (Some 250) count_hit in
  0 <= 250 /\ (count_hits 3%nat None (0, 0)).1 <> Ok false.
Proof.
  cbv zeta. split; [lia|].
  pose proof (limited_scan_ends silent_http counted_net "soc-features-*" (VDict []) (VList []) None 100 250 count_hit fst 3%nat None (0, 0)
    ltac:(intros X m [a b]; unfold counted_net; cbn; by destruct (m b)) ltac:(intros hit s; cbn; lia) ltac:(lia) ltac:(by apply Nat.leb_le)) as H.
  change (enough_pages 100 250) with 3%nat in H.
  destruct (scan _ _ _ _ _ _ _ _ _ _ _ _) as [r w']. exact (proj1 H).
Defined.

Lemma await_terminates_witness :
  let s := {| wz_token := Some "token"; wz_token_at := 0; wz_world := 0 |} in
  0 < 2 * NS /\ 0 <= 25 * NS /\
  (_await silent_http silent_http (25 * NS) (2 * NS) sample_clock sample_sleep "web-1" "operation-000000001" true s).1 <> Ok None.
Proof.
  intros s. split; [reflexivity|]. split; [discriminate|].
  pose proof (await_terminates silent_http silent_http (25 * NS) (2 * NS) sample_clock sample_sleep (fun now => now)
    "web-1" "operation-000000001" true s eq_refl ltac:(discriminate)) as H.
  destruct (_await _ _ _ _ _ _ _ _ _ s) as [r s']. exact (proj1 H).
Defined.

Section endpoint.
Context {W : Type}.
Variable run_nft : list string -> option string -> M W CompletedProcess.
Variable isolated : W -> Prop.
Context `{Hlaws : !IsolationLaws run_nft isolated}.
Variable config : result val.
Variable now : Z.
Notation S := (EndpointState W).

Definition is_isolated (s : S) : Prop := isolated (filter_state s).

(** What a call may do to the markers: a new one only under isolation, a lost one only without. *)
Definition honest (s s' : S) : Prop :=
  forall name, (marked name s' -> ~ marked name s -> is_isolated s') /\ (marked name s -> ~ marked name s' -> ~ is_isolated s').

(** The same files, whatever happened to the table. *)
Definition same_files (s s' : S) : Prop := markers s' = markers s.

Lemma same_files_honest s s' : same_files s s' -> honest s s'.
Proof. intros H name. unfold marked. rewrite H. naive_solver. Qed.

Lemma marked_set name x t (s s' : S) : markers s' = assoc_set x t (markers s) -> marked name s' <-> name = x \/ marked name s.
Proof.
  intros H. unfold marked. rewrite H. destruct (decide (name = x)) as [->|Hne].
  - rewrite assoc_set_eq. naive_solver.
  - rewrite assoc_set_ne by done. naive_solver.
Qed.

Lemma marked_del name x (s s' : S) : markers s' = assoc_del x (markers s) -> marked name s' <-> name <> x /\ marked name s.
Proof.
  intros H. unfold marked, assoc_del in *. rewrite H. rewrite !assoc_None, !list_elem_of_fmap.
  setoid_rewrite list_elem_of_filter. split.
  - intros Hn. split.
    + intros ->. apply Hn. intros ([k v] & Hk & He & _). simpl in *. subst. by rewrite String.eqb_refl in He.
    + intros Hx. apply Hn. intros (kv & Hk & _ & Hi). apply Hx. by exists kv.
  - intros [Hne Hn] Hx. apply Hn. intros (kv & Hk & Hi). apply Hx. exists kv. split; [done|]. split; [|done].
    apply String.eqb_neq. congruence.
Qed.

(** [isolate]: its marker appears only once the ruleset is in force, and is there when it succeeds. *)
Definition isolate_post (op : string) (s : S) (out : result unit * S) : Prop :=
  honest s out.2 /\ (out.1 = Ok tt -> is_isolated out.2 /\ marked (marker_name op) out.2).

(** [restore]: its marker goes only once the table is gone, and both are gone when it succeeds. *)
Definition restore_post (op : string) (s : S) (out : result unit * S) : Prop :=
  honest s out.2 /\ (out.1 = Ok tt -> ~ is_isolated out.2 /\ ~ marked (marker_name op) out.2).

Lemma isolate_failed op s s' x : same_files s s' -> isolate_post op s (Err x, s').
Proof. intros H. split; [by apply same_files_honest|done]. Qed.

Lemma restore_failed op s s' x : same_files s s' -> restore_post op s (Err x, s').
Proof. intros H. split; [by apply same_files_honest|done]. Qed.

(** The marker is written under the ruleset. *)
Lemma written op t s s' r :
  markers s' = assoc_set (marker_name op) t (markers s) -> is_isolated s' -> isolate_post op s (r, s').
Proof.
  intros Hm Hi. assert (forall name, marked name s' <-> name = marker_name op \/ marked name s) as E by (intros name; by eapply marked_set).
  split; [|intros _; split; [done|apply E; by left]].
  intros name. cbn [snd]. rewrite E. split; [done|]. intros H1 H2. exfalso. apply H2. by right.
Qed.

Lemma isolate_spec op s : isolate_post op s (isolate run_nft config now op s).
Proof.
  unfold isolate, mbind, raise_when, lift. destruct (raise_if (negb (valid_op op)) _) as [u|x]; [|by apply isolate_failed].
  destruct (load_allowed config) as [allowed|x]; [|by apply isolate_failed].
  pose proof (ruleset_applied allowed (filter_state s)) as Happ. unfold call_nft.
  destruct (run_nft _ _ (filter_state s)) as [r w]. cbn [fst snd] in Happ. destruct r as [p|x]; [|by apply isolate_failed].
  unfold raise_if. destruct (returncode p =? 0) eqn:Erc; cbn [negb]; [|by apply isolate_failed].
  apply Z.eqb_eq in Erc. assert (isolated w) as Hw by by apply (Happ p).
  unfold on_disk at 1. cbn [markers disk filter_state]. destruct (hd DiskDone (disk s)); [|by apply isolate_failed..].
  unfold write_marker, on_disk at 1. cbn [markers disk filter_state].
  destruct (hd DiskDone (tl (disk s))); [|by apply isolate_failed|by eapply written].
  unfold on_disk. cbn [markers disk filter_state]. destruct (hd DiskDone (tl (tl (disk s)))); by eapply written.
Qed.

Lemma restore_spec op s : restore_post op s (restore run_nft op s).
Proof.
  unfold restore, mbind, raise_when, lift. destruct (raise_if (negb (valid_op op)) _) as [u|x]; [|by apply restore_failed].
  pose proof (table_deleted (filter_state s)) as Hdel. unfold call_nft.
  destruct (run_nft _ _ (filter_state s)) as [r w]. cbn [fst snd] in Hdel. destruct r as [p|x]; [|by apply restore_failed].
  unfold raise_if. destruct (negb (returncode p =? 0) && negb (str_contains "No such file" (stderr p))) eqn:Erc; [by apply restore_failed|].
  assert (~ isolated w) as Hw.
  { apply (Hdel p eq_refl). apply andb_false_iff in Erc as [H|H]; apply negb_false_iff in H; [left; by apply Z.eqb_eq|by right]. }
  unfold unlink_marker, on_disk. cbn [markers disk filter_state].
  destruct (hd DiskDone (disk s)); [|by apply restore_failed..].
  set (s' := {| markers := assoc_del _ _; disk := _; filter_state := w |}).
  assert (forall name, marked name s' <-> name <> marker_name op /\ marked name s) as Hm by (intros name; by eapply marked_del).
  split; [|intros _; split; [done|cbn [snd]; rewrite Hm; naive_solver]].
  intros name. cbn [snd]. rewrite Hm. split; [naive_solver|done].
Qed.

Lemma act_honest isolating line s : honest s (act run_nft config now isolating line s).2.
Proof.
  unfold act, mbind, lift. destruct line as [message|x]; [|by apply same_files_honest].
  destruct (request_of message) as [[command op]|x]; [|by apply same_files_honest]. cbn [fst snd].
  destruct (isolating && _); [apply isolate_spec|apply restore_spec].
Qed.

(** C26: a marker appears only while the isolation ruleset is in force, and disappears only once the
    table is gone, whatever nft and the disk do and whatever the request holds; an isolation that
    reports success left the ruleset in force and its marker written, and a restoration that
    reports success left neither. *)
Theorem markers_follow_isolation mode message s :
  let out := main run_nft config now mode (Ok message) s in
  honest s out.2 /\
  (forall command op, out.1 = Ok 0 -> request_of message = Ok (command, op) ->
     if String.eqb mode "cxyz-isolate-endpoint" && py_eq command (VStr "add")
     then is_isolated out.2 /\ marked (marker_name op) out.2
     else ~ is_isolated out.2 /\ ~ marked (marker_name op) out.2).
Proof.
  cbv zeta. unfold main. destruct (String.eqb mode "cxyz-isolate-endpoint" || _); [|split; [by apply same_files_honest|done]].
  set (isolating := String.eqb mode "cxyz-isolate-endpoint"). unfold catch, mbind.
  pose proof (act_honest isolating (Ok message) s) as Hh.
  assert (forall command op, (act run_nft config now isolating (Ok message) s).1 = Ok tt -> request_of message = Ok (command, op) ->
     if isolating && py_eq command (VStr "add")
     then is_isolated (act run_nft config now isolating (Ok message) s).2 /\ marked (marker_name op) (act run_nft config now isolating (Ok message) s).2
     else ~ is_isolated (act run_nft config now isolating (Ok message) s).2 /\ ~ marked (marker_name op) (act run_nft config now isolating (Ok message) s).2) as Hok.
  { intros command op H Hr. unfold act, mbind, lift in *. rewrite Hr in *. cbn [fst snd] in *.
    destruct (isolating && py_eq command (VStr "add")); [by apply isolate_spec|by apply restore_spec]. }
  destruct (act run_nft config now isolating (Ok message) s) as [[[]|x] s']; cbn [fst snd] in *.
  - split; [done|]. intros command op _. by apply Hok.
  - destruct (reported x); cbn [ret fst snd]; done.
Qed.
End endpoint.

(** * Witnesses *)

(** A packet filter that only knows whether the table is there. *)
Definition toy_nft (argv : list string) (stdin : option string) : M bool CompletedProcess :=
  fun present =>
    match stdin with
    | Some _ => (Ok {| returncode := 0; stdout_json := Err (ValueError ""); stderr := "" |}, true)
    | None =>
        if present then (Ok {| returncode := 0; stdout_json := Err (ValueError ""); stderr := "" |}, false)
        else (Ok {| returncode := 1; stdout_json := Err (ValueError ""); stderr := "Error: No such file or directory" |}, false)
    end.

#[export] Instance toy_nft_laws : IsolationLaws toy_nft (fun w => w = true).
Proof.
  split.
  - done.
  - done.
  - intros [] p; cbn; by intros [= <-].
  - by intros [].
Qed.

Definition sample_config : result val := Ok (VDict [("allowed_addresses", VList [VStr "192.0.2.10"; VStr "2001:db8::a"])]).
Definition request_line (command op : string) : val :=
  VDict [("command", VStr command); ("parameters", VDict [("extra_args", VList [VStr op])])].
Definition bare_endpoint : EndpointState bool := {| markers := []; disk := []; filter_state := false |}.

Definition op_a : string := "response:operation-a".
Definition op_b : string := "response:operation-b".

Definition endpoint_call (mode command op : string) (s : EndpointState bool) : result Z * EndpointState bool :=
  main toy_nft sample_config 1767225600 mode (Ok (request_line command op)) s.

Lemma markers_follow_isolation_witness :
  let out := endpoint_call "cxyz-isolate-endpoint" "add" op_a bare_endpoint in
  out.1 = Ok 0 /\ is_isolated (fun w => w = true) out.2 /\ marked (marker_name op_a) out.2.
Proof.
  cbv zeta. split; [vm_compute; reflexivity|].
  exact (proj2 (markers_follow_isolation toy_nft (fun w => w = true) sample_config 1767225600 "cxyz-isolate-endpoint"
    (request_line "add" op_a) bare_endpoint) (VStr "add") op_a ltac:(vm_compute; reflexivity) ltac:(vm_compute; reflexivity)).
Defined.

(** Two operations isolate the endpoint; the restoration of one of them lifts the isolation of both,
    and leaves the marker that vouches for the other. *)
Lemma restoring_one_operation_lifts_another :
  let s := (endpoint_call "cxyz-isolate-endpoint" "add" op_b (endpoint_call "cxyz-isolate-endpoint" "add" op_a bare_endpoint).2).2 in
  let out := endpoint_call "cxyz-restore-endpoint" "add" op_a s in
  filter_state s = true /\ out.1 = Ok 0 /\ filter_state out.2 = false /\ marked (marker_name op_b) out.2.
Proof.
  cbv zeta. split; [vm_compute; reflexivity|]. split; [vm_compute; reflexivity|]. split; [vm_compute; reflexivity|].
  vm_compute. discriminate.
Qed.
