(* ===== verification/RunnerProps.v ===== *)
(** Theorems about the decision runner ([DecisionRunner.v]). *)

From S2P Require Import Prelude PyText PyNum PyTime PyJson Sha256 Policy Decision AuditLog Effects Store Https Service ServiceInv.
From S2P Require Import DecisionRunner ServiceConfig Entry Signing Sample SampleWorkers.

Section runner_props.
Context {W A : Type} `{!CommandAuthenticator A}.
Variable elastic : JsonHTTPS W.
Variable engine : DecisionEngine A.
Variable min_score : SpecFloat.spec_float.
Variables protected_assets threat_intel : list string.
Variable policy_by_target : list (string * string).
Variables clock utc_now : M W Z.
Notation R := (Runner W).
Notation handle mode send := (handle elastic engine mode send protected_assets threat_intel policy_by_target clock utc_now).
Notation handle_hits mode send := (handle_hits elastic engine mode send protected_assets threat_intel policy_by_target clock utc_now).
Notation run_once mode send := (run_once elastic engine mode send min_score protected_assets threat_intel policy_by_target clock utc_now).

(** ** Handlers that agree *)
Definition same {X} (m m' : M R X) : Prop := forall s, m s = m' s.

Lemma same_bind {X Y} (m m' : M R X) (k k' : X -> M R Y) : same m m' -> (forall x, same (k x) (k' x)) -> same (mbind m k) (mbind m' k').
Proof. intros Hm Hk s. unfold mbind. rewrite Hm. destruct (m' s) as [[x|e] s']; [apply Hk|done]. Qed.

Lemma same_attempt {X Y} (m m' : M R X) (k k' : result X -> M R Y) :
  same m m' -> (forall r, same (k r) (k' r)) -> same (attempt m k) (attempt m' k').
Proof. intros Hm Hk s. unfold attempt. rewrite Hm. destruct (m' s) as [r s']. apply Hk. Qed.

(** Only what becomes of a verdict of the engine depends on the sender. *)
Definition verdict (result : DecisionResult) : Prop :=
  exists now policy_id an signals t, evaluate engine now policy_id an signals t (Some (Aware now)) VNone = Ok result.

Lemma judge_verdict policy_id anomaly_id an t start finish s result s' :
  judge elastic engine protected_assets threat_intel clock policy_id anomaly_id an t start finish s = (Ok result, s') -> verdict result.
Proof.
  unfold judge, mbind. destruct (in_world _ s) as [[signals|e] s1]; [|done].
  destruct (in_world clock s1) as [[now|e] s2]; [|done]. unfold lift. intros [= Hr _]. by exists now, policy_id, an, (VList signals), (target_val t).
Qed.

Lemma handle_same mode send send' doc :
  (forall id result event, verdict result -> decision_event result = Some event ->
     same (act_on elastic mode send utc_now id result event) (act_on elastic mode send' utc_now id result event)) ->
  same (handle mode send doc) (handle mode send' doc).
Proof.
  intros H. unfold DecisionRunner.handle. do 3 (apply same_bind; [done|intros ?]).
  match goal with |- same (match ?x with _ => _ end) _ => destruct x as [t|]; [|done] end.
  destruct (assoc _ _) as [pid|]; [|done]. do 5 (apply same_bind; [done|intros ?]).
  intros s. unfold attempt at 1. unfold attempt at 2.
  destruct (judge _ _ _ _ _ _ _ _ _ _ _ s) as [[result|e] s'] eqn:Hj; [|done]. apply judge_verdict in Hj.
  destruct (decision_event result) as [event|] eqn:He; [|done]. by apply same_attempt; [apply H|].
Qed.

Lemma handle_hits_same mode send send' hits :
  (forall doc, same (handle mode send doc) (handle mode send' doc)) -> forall n, same (handle_hits mode send hits n) (handle_hits mode send' hits n).
Proof.
  intros H. induction hits as [|hit hits IH]; intros n; cbn [DecisionRunner.handle_hits]; [done|].
  apply same_bind; [done|intros source]. apply same_bind; [apply H|intros b]. destruct (negb b); [done|].
  apply same_bind; [done|intros sort]. apply same_bind; [done|intros ?; apply IH].
Qed.

(** In observe mode nothing is sent: a run is the same whatever the sender would do. *)
Theorem observe_mode_sends_nothing send send' limit s : run_once observe send limit s = run_once observe send' limit s.
Proof.
  unfold DecisionRunner.run_once. apply same_bind; [done|intros after]. apply same_bind; [done|intros hits].
  apply handle_hits_same. intros doc. apply handle_same. intros id result event _ _ s'. unfold act_on.
  by rewrite (bool_decide_false (observe = enforce)), andb_false_r.
Qed.

(** ** A command and its decision *)
Lemma evaluate_links now policy_id an signals t result :
  evaluate engine now policy_id an signals t (Some (Aware now)) VNone = Ok result -> eligible result = true ->
  exists event id outer c, decision_event result = Some event /\ subscript "event" event = Ok outer /\
    subscript "id" outer = Ok (VStr id) /\ command result = Some c /\ get "decision_event_id" c = VStr id.
Proof.
  unfold evaluate. intros H Hel. apply rbind_Ok in H as (p & _ & H). apply rbind_Ok in H as (ts & _ & H).
  apply rbind_Ok in H as (a & _ & H). apply rbind_Ok in H as (tg & _ & H). apply rbind_Ok in H as (sg & _ & H).
  apply raise_seq_Ok in H as [_ H]. apply rbind_Ok in H as (u & _ & H).
  destruct (Nat.eqb _ 0); [injection H as <-; discriminate|]. apply rbind_Ok in H as (cor & _ & H).
  apply rbind_Ok in H as ([rej|] & _ & H); [injection H as <-; discriminate|].
  unfold request_response in H. apply rbind_Ok in H as (ex & _ & H). apply rbind_Ok in H as (sig & _ & H).
  injection H as <-. cbn [decision_event command]. do 4 eexists. split; [reflexivity|]. split; [reflexivity|].
  split; [reflexivity|]. split; [reflexivity|]. unfold attach_signature, get. by rewrite assoc_set_ne.
Qed.

(** The sender behind a guard: it raises unless the index holds the decision of the command. *)
Definition guarded (recorded : W -> string -> bool) (send : mapping -> M W unit) (c : mapping) : M W unit :=
  fun w => if recorded w (str_val (get "decision_event_id" c)) then send c w else (Err AssertionError, w).

Lemma write_decision_recorded recorded `{!CreateLaws (create elastic) (fun w id => recorded w id = true)} event outer id w u w' :
  subscript "event" event = Ok outer -> subscript "id" outer = Ok (VStr id) ->
  _write_decision elastic event w = (Ok u, w') -> recorded w' id = true.
Proof.
  intros Ho Hi. unfold _write_decision, mbind, lift. destruct (subscript "@timestamp" event); [|done].
  destruct (instant_of_val _); [|done]. rewrite Ho, Hi.
  destruct (create elastic _ id event w) as [[b|e] w1] eqn:Hc; [|done]. unfold ret. intros [= _ <-].
  apply (create_stores (create := create elastic) (stored := fun w id => recorded w id = true) _ _ _ _ _ _ Hc).
Qed.

Lemma run_follows_decisions recorded mode send limit :
  CreateLaws (create elastic) (fun w id => recorded w id = true) ->
  same (run_once mode send limit) (run_once mode (guarded recorded send) limit).
Proof.
  intros Hlaws s. revert s. unfold DecisionRunner.run_once. apply same_bind; [done|intros after]. apply same_bind; [done|intros hits].
  apply handle_hits_same. intros doc. apply handle_same. intros aid result event (now & pid & an & sg & t & Hv) He s'.
  unfold act_on. destruct (eligible result) eqn:Hel; [|done]. destruct (bool_decide _); [|done]. cbn [andb].
  destruct (evaluate_links _ _ _ _ _ _ Hv Hel) as (ev & did & outer & c & Hev & Ho & Hid & -> & Hc).
  rewrite He in Hev. injection Hev as <-. change (default [] (Some c)) with c.
  unfold mbind at 1. unfold mbind at 3. destruct (in_world (_write_decision elastic event) s') as [[u|e] s1] eqn:Hw; [|done].
  unfold in_world in Hw. destruct (_write_decision elastic event (outside_world s')) as [r w1] eqn:Hw1. injection Hw as -> <-.
  pose proof (write_decision_recorded recorded event outer did _ _ _ Ho Hid Hw1) as Hrec.
  unfold mbind at 1. unfold mbind at 2. unfold in_world, guarded. cbn [outside_world]. rewrite Hc. cbn [str_val]. by rewrite Hrec.
Qed.

Lemma decision_loop_same run run' outcomes once : same run run' ->
  forall turns, same (decision_loop run outcomes turns once) (decision_loop run' outcomes turns once).
Proof.
  intros H. induction turns as [|turns IH]; cbn [decision_loop]; [done|]. apply same_attempt; [done|intros [n|e]].
  - apply same_bind; [done|intros seen]. destruct once; [done|]. by apply same_bind.
  - destruct (is_delivery_error e); [|done]. destruct once; [done|]. by apply same_bind.
Qed.

(** C8: a command leaves only once the index holds the decision it carries out: putting a guard that
    checks this in front of the sender changes nothing, over any number of turns of the decision loop,
    whatever is lost on the way and whichever turns fail. *)
Theorem commands_follow_their_decision recorded mode send outcomes limit turns once s :
  CreateLaws (create elastic) (fun w id => recorded w id = true) ->
  decision_loop (run_once mode send limit) outcomes turns once s =
  decision_loop (run_once mode (guarded recorded send) limit) outcomes turns once s.
Proof. intros Hlaws. by apply decision_loop_same, run_follows_decisions. Qed.

(** ** The cursor *)

(** The outcome of an anomaly is in the ledger. *)
Definition settled (anomaly_id : string) (s : R) : Prop := assoc anomaly_id (decisions (state s)) <> None.

Lemma world_keeps {X} (P : DecisionState -> Prop) (m : M W X) : keeps (fun s : R => P (state s)) (in_world m).
Proof. intros s Hs. unfold in_world. by destruct (m (outside_world s)) as [[x|e] w]. Qed.

Lemma any_world {X} (m : M W X) : triple (fun _ : R => True) (in_world m) (fun _ _ => True) (fun _ _ => True).
Proof. intros s _. unfold in_world. by destruct (m (outside_world s)) as [[x|e] w]. Qed.

Lemma state_write_cases f s : let '(r, s') := state_write f s in
  (state_cursor s' = state_cursor s /\ decisions s' = decisions s /\ r <> Ok tt) \/
  (state_cursor s' = state_cursor (f s) /\ decisions s' = decisions (f s)).
Proof. unfold state_write. destruct (hd CommitOk (state_faults s)); [by right|by left|by right]. Qed.

Lemma record_settles anomaly_id outcome id detail :
  triple (fun _ : R => True) (record utc_now anomaly_id outcome id detail) (fun _ => settled anomaly_id) (fun _ _ => True).
Proof.
  unfold record. eapply triple_bind; [apply any_world|].
  intros now s _. unfold in_state, record_outcome. pose proof (state_write_cases (fun s => {| state_cursor := state_cursor s;
    decisions := assoc_set anomaly_id {| outcome_text := outcome; outcome_decision := id;
      outcome_detail := str_take 500 detail; outcome_updated_at := soc_rfc3339 now |} (decisions s);
    state_faults := state_faults s |}) (state s)) as H.
  destruct (state_write _ (state s)) as [[[]|e] d]; [|done]. destruct H as [(_ & _ & H)|(_ & H)]; [done|].
  unfold settled. cbn. rewrite H. cbn. by rewrite assoc_set_eq.
Qed.

(** Recording keeps the cursor and what is settled. *)
Lemma record_keeps anomaly_id outcome id detail (P : DecisionState -> Prop) :
  (forall d d', state_cursor d' = state_cursor d -> (forall x, assoc x (decisions d) <> None -> assoc x (decisions d') <> None) -> P d -> P d') ->
  keeps (fun s : R => P (state s)) (record utc_now anomaly_id outcome id detail).
Proof.
  intros HP. unfold record. apply keeps_bind; [apply world_keeps|]. intros now s Hs. unfold in_state, record_outcome.
  pose proof (state_write_cases (fun s => {| state_cursor := state_cursor s;
    decisions := assoc_set anomaly_id {| outcome_text := outcome; outcome_decision := id;
      outcome_detail := str_take 500 detail; outcome_updated_at := soc_rfc3339 now |} (decisions s);
    state_faults := state_faults s |}) (state s)) as H.
  destruct (state_write _ (state s)) as [r d]. assert (P d) as Hd.
  { destruct H as [(H1 & H2 & _)|(H1 & H2)]; (apply (HP (state s)); [exact H1| |exact Hs]); intros x Hx; rewrite H2; [done|]. cbn.
    destruct (String.eqb_spec anomaly_id x) as [->|Hne]; [by rewrite assoc_set_eq|by rewrite assoc_set_ne]. }
  by destruct r as [[]|e].
Qed.

Lemma handle_keeps mode send doc (P : DecisionState -> Prop) :
  (forall d d', state_cursor d' = state_cursor d -> (forall x, assoc x (decisions d) <> None -> assoc x (decisions d') <> None) -> P d -> P d') ->
  keeps (fun s : R => P (state s)) (handle mode send doc).
Proof.
  intros HP. unfold DecisionRunner.handle, judge, act_on. keeps_walk; first [apply world_keeps|by apply record_keeps].
Qed.

(** An anomaly that is not to be retried is settled. *)
Lemma handle_settles mode send doc :
  triple (fun _ : R => True) (handle mode send doc) (fun done_ s => done_ = true -> settled (str_val (_dig EVENT_ID doc)) s) (fun _ _ => True).
Proof.
  unfold DecisionRunner.handle. set (aid := str_val (_dig EVENT_ID doc)).
  assert (Hrec : forall outcome id detail, triple (fun _ : R => True) (record utc_now aid outcome id detail ;;! ret true)
    (fun done_ s => done_ = true -> settled aid s) (fun _ _ => True)).
  { intros. eapply triple_bind; [apply record_settles|]. intros u. by apply triple_ret. }
  assert (Hlift : forall X Y (x : result X) (k : X -> M R Y) Q, (forall a, triple (fun _ => True) (k a) Q (fun _ _ => True)) ->
    triple (fun _ => True) (mbind (lift x) k) Q (fun _ _ => True)).
  { intros X Y x k Q Hk. eapply (triple_bind _ _ _ (fun _ _ => True)); [by apply triple_lift|apply Hk]. }
  do 3 (apply Hlift; intros ?). match goal with |- triple _ (match ?x with _ => _ end) _ _ => destruct x as [t|]; [|apply Hrec] end.
  destruct (assoc _ _) as [pid|]; [|apply Hrec]. do 5 (apply Hlift; intros ?).
  apply (triple_attempt _ _ _ (fun _ _ => True) (fun _ _ => True)).
  { intros s _. by destruct (judge _ _ _ _ _ _ _ _ _ _ _ s) as [[x|e] s']. }
  2:{ intros e. destruct e; try apply triple_raise; try apply Hrec; try done. destruct retryable; [by apply triple_ret|apply Hrec]. }
  intros result. destruct (decision_event result) as [event|]; [|apply Hrec].
  apply (triple_attempt _ _ _ (fun _ => settled aid) (fun _ _ => True)).
  - unfold act_on. destruct (_ && _).
    + eapply triple_bind; [apply any_world|intros ?]. eapply triple_bind; [apply any_world|intros ?].
      apply Hlift. intros id. apply record_settles.
    + apply Hlift. intros ev. eapply triple_bind; [apply any_world|intros ?].
      do 2 (apply Hlift; intros ?). apply record_settles.
  - intros u. by apply triple_ret.
  - intros e. destruct e; try apply triple_raise; try done. destruct retryable; [by apply triple_ret|apply Hrec].
Qed.

Lemma handle_keeps_settled mode send doc x : keeps (settled x) (handle mode send doc).
Proof. apply (handle_keeps mode send doc (fun d => assoc x (decisions d) <> None)). auto. Qed.

Lemma handle_keeps_cursor mode send doc c : keeps (fun s => state_cursor (state s) = c) (handle mode send doc).
Proof. apply (handle_keeps mode send doc (fun d => state_cursor d = c)). by intros d d' ->. Qed.

Lemma set_cursor_spec v (s : R) :
  let '(r, s') := in_state (set_cursor v) s in
  (forall x, settled x s -> settled x s') /\
  (state_cursor (state s') = state_cursor (state s) \/ state_cursor (state s') = Some v) /\
  (r = Ok tt -> state_cursor (state s') = Some v).
Proof.
  unfold in_state, set_cursor.
  pose proof (state_write_cases (fun s => {| state_cursor := Some v; decisions := decisions s; state_faults := state_faults s |}) (state s)) as H.
  destruct (state_write _ (state s)) as [r d]. unfold settled. cbn [state].
  destruct H as [(H1 & H2 & H3)|(H1 & H2)]; rewrite H1, H2; (split; [done|]); cbn; (split; [auto|]); [|done].
  by intros ->.
Qed.

Lemma handle_hits_keeps_settled mode send hits x : forall n, keeps (settled x) (handle_hits mode send hits n).
Proof.
  induction hits as [|hit hits IH]; intros n; cbn [DecisionRunner.handle_hits]; keeps_walk; [apply handle_keeps_settled| |apply IH].
  intros s Hs. match goal with |- match in_state (set_cursor ?v) s with _ => _ end => pose proof (set_cursor_spec v s) as H end.
  destruct (in_state _ s) as [[[]|e] s']; by apply H.
Qed.

(** The first [k] hits are settled, and the cursor is where it was or at one of them. *)
Record covers (hits : list val) (k : nat) (s s' : R) : Prop := {
  cov_count : (k <= length hits)%nat;
  cov_settled : forall j h source, (j < k)%nat -> hits !! j = Some h -> subscript "_source" h = Ok source ->
    settled (str_val (_dig EVENT_ID source)) s';
  cov_cursor : state_cursor (state s') = state_cursor (state s) \/
    exists i h v, (i < k)%nat /\ hits !! i = Some h /\ subscript "sort" h = Ok v /\ state_cursor (state s') = Some v }.

(** What a run that returns says of them. *)
Definition accounted (hits : list val) (k : nat) (n : Z) (s s' : R) (r : Z * Z) : Prop :=
  r.1 = n + Z.of_nat k /\
  (r.2 = 0 /\ k = length hits \/ r.2 = 1 /\ (k < length hits)%nat) /\
  match k with
  | O => state_cursor (state s') = state_cursor (state s)
  | S i => exists h v, hits !! i = Some h /\ subscript "sort" h = Ok v /\ state_cursor (state s') = Some v
  end.

Lemma covers_none hits s s' : state_cursor (state s') = state_cursor (state s) -> covers hits 0 s s'.
Proof. intros H. split; [lia|lia|by left]. Qed.

Lemma covers_one hit hits source v s s' :
  subscript "_source" hit = Ok source -> settled (str_val (_dig EVENT_ID source)) s' ->
  state_cursor (state s') = state_cursor (state s) \/ (subscript "sort" hit = Ok v /\ state_cursor (state s') = Some v) ->
  covers (hit :: hits) 1 s s'.
Proof.
  intros H1 H2 H3. split.
  - cbn. lia.
  - intros [|j] h src Hj; [|lia]. cbn. intros [= <-] Hs. assert (source = src) as <- by congruence. done.
  - destruct H3 as [H3|[H3 H4]]; [by left|right]. exists 0%nat, hit, v. split; [lia|done].
Qed.

Lemma covers_cons hit hits source v k s s2 s' :
  subscript "_source" hit = Ok source -> settled (str_val (_dig EVENT_ID source)) s' ->
  subscript "sort" hit = Ok v -> state_cursor (state s2) = Some v -> covers hits k s2 s' -> covers (hit :: hits) (S k) s s'.
Proof.
  intros H1 H2 H3 H4 [C1 C2 C3]. split.
  - cbn. lia.
  - intros [|j] h src Hj; cbn; [intros [= <-] Hs; assert (source = src) as <- by congruence; done|]. apply C2. lia.
  - right. destruct C3 as [C3|(i & h & w & Hi & Hh & Hw & C3)].
    + exists 0%nat, hit, v. split; [lia|]. split; [done|]. split; [done|]. congruence.
    + exists (S i), h, w. split; [lia|done].
Qed.

Lemma handle_hits_spec mode send hits : forall n s,
  let '(r, s') := handle_hits mode send hits n s in
  exists k, covers hits k s s' /\ forall x, r = Ok x -> accounted hits k n s s' x.
Proof.
  induction hits as [|hit hits IH]; intros n s; cbn [DecisionRunner.handle_hits].
  { exists 0%nat. split; [by apply covers_none|]. intros x [= <-]. split; [cbn; lia|]. split; [by left|done]. }
  unfold mbind at 1, lift. destruct (subscript "_source" hit) as [source|e] eqn:Hsrc; [|exists 0%nat; split; [by apply covers_none|done]].
  unfold mbind at 1. pose proof (handle_settles mode send source s I) as Hset.
  pose proof (handle_keeps_cursor mode send source _ s eq_refl) as Hcur.
  destruct (handle mode send source s) as [[[|]|e] s1]; cbn [negb].
  2:{ exists 0%nat. split; [by apply covers_none|]. intros x [= <-]. split; [cbn; lia|]. split; [right; cbn; lia|done]. }
  2:{ exists 0%nat. split; [by apply covers_none|done]. }
  specialize (Hset eq_refl). unfold mbind at 1. destruct (subscript "sort" hit) as [v|e] eqn:Hsort.
  2:{ exists 1%nat. split; [|done]. apply (covers_one hit hits source VNone); auto. }
  unfold mbind at 1. pose proof (set_cursor_spec v s1) as Hset1.
  destruct (in_state (set_cursor v) s1) as [[[]|e] s2]; destruct Hset1 as (Hk1 & Hk2 & Hk3).
  2:{ exists 1%nat. split; [|done]. apply (covers_one hit hits source v); [done|by apply Hk1|]. rewrite <- Hcur.
      destruct Hk2 as [?|?]; [by left|by right]. }
  specialize (Hk3 eq_refl). pose proof (handle_hits_keeps_settled mode send hits (str_val (_dig EVENT_ID source)) (n + 1) s2 (Hk1 _ Hset)) as Hend.
  specialize (IH (n + 1) s2). destruct (handle_hits mode send hits (n + 1) s2) as [r s'].
  destruct IH as (k & Hc & Hr). exists (S k). split.
  { apply (covers_cons hit hits source v k s s2); [done| |done..]. by destruct r. }
  intros x Hx. destruct (Hr x Hx) as (H1 & H2 & H3). split; [lia|]. split.
  - destruct H2 as [[? ->]|[? ?]]; [by left|right; cbn; split; [done|lia]].
  - destruct k as [|i]; [|destruct H3 as (h & w & ? & ? & ?); by exists h, w]. exists hit, v. rewrite H3. done.
Qed.

(** C9: nothing is skipped: whatever happens in a run, its documents, its commits and its peers, the
    cursor is left alone or moved to an anomaly of the answer, and that one and every one before it
    is in the outcome ledger.  A run that returns counts what it settled: all of the answer, or all
    up to a failure to be retried, with the cursor at the last one. *)
Theorem cursor_never_passes_unsettled mode send limit s :
  let '(r, s') := run_once mode send limit s in
  (state_cursor (state s') = state_cursor (state s) /\ is_ok r = false) \/
  exists hits w k, search elastic "soc-ai-*" (anomaly_query min_score limit (cursor (state s))) (outside_world s) = (Ok hits, w) /\
    covers hits k s s' /\ forall x, r = Ok x -> accounted hits k 0 s s' x.
Proof.
  unfold DecisionRunner.run_once. unfold mbind at 1, gets. unfold mbind at 1, in_world.
  destruct (search _ _ _ (outside_world s)) as [[hits|e] w]; [|left; by split].
  set (s1 := {| state := state s; outside_world := w |}).
  pose proof (handle_hits_spec mode send hits 0 s1) as H. destruct (handle_hits mode send hits 0 s1) as [r s'].
  right. destruct H as (k & [C1 C2 C3] & Hr). exists hits, w, k. split; [done|]. split; [by split|exact Hr].
Qed.
End runner_props.

(** ** Witnesses *)

(** Whether a document of this id is on the sample node. *)
Definition on_node (held : list string) (id : string) : bool := existsb (ends_with ("/_create/" +:+ quote "" id)) held.

#[local] Instance on_node_laws : CreateLaws (create sample_http) (fun held id => on_node held id = true).
Proof.
  split.
  - intros index id document e b e' H.
    destruct (create_stores (create := create sample_http) (stored := stored sample_http holds_url) _ _ _ _ _ _ H) as [index' Hu].
    unfold on_node. apply existsb_exists. exists (document_url sample_http index' id). split; [by apply list_elem_of_In|].
    replace (document_url sample_http index' id) with ((origin sample_http +:+ "/" +:+ index') +:+ ("/_create/" +:+ quote "" id))
      by (by rewrite !app_assoc_str).
    apply ends_with_app.
  - intros index id document e x H. unfold on_node in *. apply existsb_exists in H as (u & Hu & He). apply existsb_exists. exists u.
    split; [|done]. apply list_elem_of_In. apply list_elem_of_In in Hu.
    assert (keeps (fun e => holds_url e u) (create sample_http index id document)) as Hk.
    { unfold create. keeps_walk. apply request_keeps. exact _. }
    specialize (Hk e Hu). by destruct (create _ _ _ _ e) as [[y|y] e'].
Qed.

Definition sample_runner : Runner (list string) :=
  {| state := {| state_cursor := None; decisions := []; state_faults := [CommitOk; CommitAmbiguous] |}; outside_world := [] |}.

Lemma commands_follow_their_decision_witness :
  let loop send := decision_loop (run_once sample_http sample_engine enforce send (float_of_Z 1) [] ["203.0.113.9"] POLICY_BY_TARGET
    (ret sample_now) (ret sample_now) 200) (fun s => counts (state s)) 2 false sample_runner in
  CreateLaws (create sample_http) (fun held id => on_node held id = true) /\
  loop (fun _ => ret tt) = loop (guarded on_node (fun _ => ret tt)).
Proof.
  intros loop. split; [exact on_node_laws|]. subst loop. cbv beta.
  apply (commands_follow_their_decision sample_http sample_engine (float_of_Z 1) [] ["203.0.113.9"] POLICY_BY_TARGET
    (ret sample_now) (ret sample_now) on_node enforce (fun _ => ret tt) (fun s => counts (state s)) 200 2 false sample_runner on_node_laws).
Defined.

(** ** A document the runner cannot get past *)

(** A node with one anomaly, and an alert whose severity is not a number. *)
Definition odd_reply (source : val) : http_answer :=
  Replied {| reply_status := 200; reply_length := 100; reply_remaining := Some 0;
    reply_json := Some (VDict [("hits", VDict [("hits", VList [VDict [("_source", source); ("sort", VList [VInt 1])]])])]) |}.

Definition odd_anomaly : val := VDict
  [("event", VDict [("id", VStr "anomaly-1")]); ("ai", VDict []);
   ("feature_vector", VDict [("entity_type", VStr "src_ip"); ("entity", VStr "203.0.113.9");
      ("window_start", VStr "2026-01-01T00:00:00Z"); ("window_end", VStr "2026-01-01T00:05:00Z")])].

Definition odd_alert : val := VDict
  [("@timestamp", VStr "2026-01-01T00:01:00Z"); ("event", VDict [("id", VStr "alert-1")]); ("alert", VDict [("severity", VStr "high")])].

Definition odd_node : JsonHTTPS unit :=
  {| origin := "https://search.example"; authorization := ret "";
     opener := fun r => ret (odd_reply (if starts_with "https://search.example/soc-ai-" (req_url r) then odd_anomaly else odd_alert)) |}.

(** The exception is no [DeliveryError], so the run ends without a verdict and the cursor stays in
    front of the anomaly: the next run fails in the same way. *)
Lemma unreadable_severity_stops_the_runner mode send outcomes faults :
  let s := {| state := {| state_cursor := None; decisions := outcomes; state_faults := faults |}; outside_world := tt |} in
  run_once odd_node sample_engine mode send (float_of_Z 1) [] [] POLICY_BY_TARGET (ret sample_now) (ret sample_now) 200 s =
    (Err (ValueError "invalid literal for int() with base 10: 'high'"), s).
Proof. vm_compute. reflexivity. Qed.
