(* ===== verification/ServiceProps.v ===== *)
(** Theorems about the response service ([Service.v]): what its passes do to the orchestrator, what
    a deployment may rely on whatever it is sent, and what its exporter delivers.

    Theorems about the configuration of the services ([ServiceConfig.v]). *)

From S2P Require Import Prelude PyText PyNum PyTime PyNet PyJson Sha256 Policy Decision Signing AuditLog Effects Store Adapters.
From S2P Require Import Https Blocklist Engine EngineInv EngineFrame Service ServiceInv ServiceConfig Entry Sample SampleWorkers.

Section props.
Context {W E A : Type} `{!CommandAuthenticator A}.
Variable catalog : PolicyCatalog.
Variable authenticator : A.
Variable adapters : list (string * ContainmentAdapter W).
Variable recover_every : Z.
Variable exporter : option (string -> string -> val -> M E bool).
Notation S := (Service W E).

(** One enforcing pass calls the methods of its plan in order: apply on every response that is
    ready, then verify on every response applied by then, then one expiry sweep, then, every
    [recover_every]th tick, one recovery.  When a method raises, the pass stops there; the exporter
    that follows changes nothing but export marks. *)
Theorem tick_follows_its_plan now (s : S) :
  let '(r, s') := tick catalog authenticator adapters enforce recover_every exporter now s in
  exists calls,
    calls `prefix_of` pass_plan catalog authenticator adapters recover_every (ticks s) now (orchestrator s) /\
    same_but_marks (run_methods catalog authenticator adapters calls (orchestrator s)) (orchestrator s') /\
    (forall x, r = Ok x ->
      calls = pass_plan catalog authenticator adapters recover_every (ticks s) now (orchestrator s)).
Proof.
  unfold tick. rewrite bool_decide_true by done. unfold mbind at 1.
  pose proof (enforce_pass_performs catalog authenticator adapters recover_every (ticks s) now s eq_refl) as H.
  destruct (enforce_pass _ _ _ _ now s) as [[r|x] s1].
  2:{ destruct H as (t & Hpre & -> & _). exists t. split; [done|]. split; [by repeat split|done]. }
  destruct H as (t & Hpre & Ho & -> & _). unfold mbind, modify, gets, ret. set (s2 := set_counters _ s1).
  set (o1 := run_methods _ _ _ _ (orchestrator s)) in *.
  assert (kept (fun o _ => same_but_marks o1 o) (export_pass exporter s2).2) as Hend.
  { eapply keeps_run; [|unfold kept; cbn; rewrite Ho; by repeat split].
    unfold export_pass. destruct exporter as [create|]; [|keeps_walk]. apply keeps_attempt; [|intros x; by apply modify_kept].
    apply export_keeps_marks. intros id o st Hb (H1 & H2 & H3 & H4 & H5 & H6). repeat (split; [done|]).
    rewrite Hb in H5, H6. cbn [backend set_backend backend_events backend_intents]. destruct (mark_exported_tables id st) as [->|[x ->]]; by split. }
  destruct (export_pass exporter s2) as [[[]|x] s3]; (eexists; split; [reflexivity|]; split; [exact Hend|done]).
Qed.

(** A service in observe mode never lets an adapter apply anything, whatever runs it for however
    long; and a command it is sent changes nothing but the counter of rejections. *)
Theorem observe_mode_applies_nothing (ops : list service_op) rid (s : Service (W * list call) E) :
  apply_count rid (world (orchestrator
    (run_services catalog authenticator (logged_table adapters) observe recover_every exporter ops s))).2
  = apply_count rid (world (orchestrator s)).2 /\
  forall command now,
    let '(r, s') := accept catalog authenticator (logged_table adapters) observe command now s in
    (exists m, r = Ok (refused_acceptance m)) /\ orchestrator s' = orchestrator s /\ search_index s' = search_index s.
Proof.
  split; [|intros command now; cbn; split; [by eexists|done]].
  apply (run_services_kept catalog authenticator (logged_table adapters) observe recover_every exporter
    (fun o _ => framed (fun _ w => apply_count rid w.2 = apply_count rid (world (orchestrator s)).2) o) ops s); [|  |done].
  - intros op o _ Hop Ho. apply run_method_framed_but_apply; [apply count_frame|by destruct op|exact Ho].
  - intros create limit _. by apply export_keeps_marks.
Qed.

(** A command answered with 202 was sent to an enforcing service that had finished its startup
    recovery, in a body of an admissible size, and passed every check of the orchestrator, the
    signature included; a service that is not ready answers 503 and passes nothing on. *)
Theorem intake_accepts_only_authenticated mode length body now (s : S) :
  let '(r, s') := submit_status catalog authenticator adapters mode length body now s in
  (r = Ok 202 ->
    mode = enforce /\ started s = true /\ 0 < length <= MAX_COMMAND_BYTES /\
    exists command c, body = Some (VDict command) /\ _validate_command catalog authenticator (VDict command) now = Ok c) /\
  (mode = enforce -> started s = false -> s' = s /\ (r = Ok 503 \/ r = Ok 413 \/ r = Ok 400)).
Proof.
  assert (forall v, v = 400 \/ v = 413 -> let '(r, s') := (ret v : M S Z) s in
    (r = Ok 202 -> mode = enforce /\ started s = true /\ 0 < length <= MAX_COMMAND_BYTES /\
      exists command c, body = Some (VDict command) /\ _validate_command catalog authenticator (VDict command) now = Ok c) /\
    (mode = enforce -> started s = false -> s' = s /\ (r = Ok 503 \/ r = Ok 413 \/ r = Ok 400))) as Hbad.
  { intros v Hv. unfold ret. cbv beta iota. split; destruct Hv as [->| ->]; [done|done|tauto|tauto]. }
  unfold submit_status. destruct (_ && _) eqn:Hlen; cbn [negb]; [bool_inv|by apply Hbad; right].
  destruct body as [[| | | | |command]|]; try (by apply Hbad; left). clear Hbad. unfold attempt.
  destruct (accept _ _ _ _ _ _ s) as [[a|e] s'] eqn:Ea.
  - unfold ret. cbv beta iota. split.
    + destruct (acc_accepted a) eqn:Hacc; [|done]. destruct (accept_ready _ _ _ _ _ _ _ _ _ Ea Hacc) as (? & ? & c & ?).
      intros _. split; [done|]. split; [done|]. split; [lia|]. by exists command, c.
    + intros -> Hst. by rewrite (accept_unready _ _ _ _ _ _ Hst) in Ea.
  - destruct (is_runtime_error e) eqn:He; unfold ret, raise; cbv beta iota; (split; [done|]); intros -> Hst;
      rewrite (accept_unready _ _ _ _ _ _ Hst) in Ea; injection Ea as <- <-; [split; [done|by left]|done].
Qed.
End props.

(** ** Whole runs *)
Section runs.
Context {W E A : Type} `{!CommandAuthenticator A}.
Variable catalog : PolicyCatalog.
Variable authenticator : A.
Variable mode : service_mode.
Variable recover_every : Z.
Notation S := (Service W E).

(** What can happen to the orchestrator of a service: it is a new one, or one of the methods that
    a service calls ran on it, or the exporter marked an event in its store as exported. *)
Inductive reached {V : Type} (adapters : list (string * ContainmentAdapter V)) (o0 : Orchestrator V) : Orchestrator V -> Prop :=
| reached_new : reached adapters o0 o0
| reached_method op o : schedulable mode op = true -> reached adapters o0 o ->
    reached adapters o0 (run_method catalog authenticator adapters op o)
| reached_mark audit_id o st : backend o = Persistent st -> reached adapters o0 o ->
    reached adapters o0 (set_backend (Persistent (mark_exported audit_id st).2) o).

(** C4: whatever a new service is sent, in whatever order and at whatever times, with any adapters,
    any exporter and any commit failures: every audit history is a valid lifecycle, the records
    agree with the histories while persistence works, an adapter is told to apply a response at
    most once, after its intent was recorded, and the orchestrator is one that its own methods and
    the exporter's marks lead to from the new one: nothing else touched it. *)
Theorem service_runs_stay_safe (adapters : list (string * ContainmentAdapter W)) exporter (ops : list service_op) b w (e : E) :
  fresh_backend b ->
  let o := orchestrator (run_services catalog authenticator (logged_table adapters) mode recover_every exporter ops
             (response_service (initial b (w, [])) e)) in
  (forall rid, valid_history rid (backend_events (backend o) rid)) /\
  (storage_failed o = false -> memory_ok o) /\
  (forall rid, (apply_count rid (world o).2 <= 1)%nat /\
    (apply_count rid (world o).2 = 1%nat -> rid ∈ backend_intents (backend o))) /\
  reached (logged_table adapters) (initial b (w, [])) o.
Proof.
  intros Hb. cbv zeta. set (s := run_services _ _ _ _ _ _ _ _).
  assert (kept (fun o _ => reached (logged_table adapters) (initial b (w, [])) o) s) as Hreach.
  { apply run_services_kept; [intros op o' _; by apply reached_method| |by apply reached_new].
    intros create limit _. apply export_keeps_marks. intros id o' st. by apply reached_mark. }
  assert (kept (fun o _ => Inv o /\ framed OnceAt o) s) as [[Hwf Hm] Hone].
  { apply run_services_kept.
    - intros op o' _ _ [H1 H2]. split; [by apply run_method_inv|by apply run_method_once].
    - intros create limit _. apply export_keeps_marks. intros id o' st Hst [H1 H2]. split; [by apply mark_exported_inv|].
      unfold framed in *. rewrite Hst in H2. cbn [backend set_backend world]. intros rid. specialize (H2 rid).
      cbn [backend_intents] in *. by destruct (mark_exported_tables id st) as [->|[x ->]].
    - split; [by apply fresh_inv|]. intros rid. unfold apply_count. cbn. lia. }
  clearbody s. split; [intros rid; by apply backend_valid|]. split; [done|]. split; [|exact Hreach]. intros rid. specialize (Hone rid).
  destruct (str_in rid _) eqn:Ei; [|lia]. apply str_in_elem in Ei. by split.
Qed.

(** The scheduler never stops, and its turns are ticks of the service: what holds of every sequence of
    operations holds of the process. *)
Lemma schedule_runs (adapters : list (string * ContainmentAdapter W)) exporter nows : forall (s : Service W E),
  exists printed, schedule catalog authenticator adapters mode recover_every exporter nows s =
    (Ok printed, run_services catalog authenticator adapters mode recover_every exporter (map SvcTick nows) s).
Proof.
  induction nows as [|now nows IH]; intros s; cbn [schedule map]; [by exists []|].
  unfold attempt, mbind, run_services. cbn [fold_left run_service].
  destruct (tick _ _ _ _ _ _ now s) as [r s1]. cbn [snd]. destruct (IH s1) as [printed ->]. by eexists.
Qed.

Theorem process_is_a_service_run (adapters : list (string * ContainmentAdapter W)) exporter now nows (s : Service W E) :
  (run_orchestrator catalog authenticator adapters mode recover_every exporter now nows s).2 =
  run_services catalog authenticator adapters mode recover_every exporter
    (SvcStart now :: if is_ok (start adapters now s).1 then map SvcTick nows else []) s.
Proof.
  unfold run_orchestrator, mbind, run_services. cbn [fold_left run_service].
  destruct (start adapters now s) as [[u|e] s1]; cbn [fst snd is_ok]; [|done]. by destruct (schedule_runs adapters exporter nows s1) as [printed ->].
Qed.

(** Over a persistent store, and with the exporter writing through the Elasticsearch client to
    an index that keeps its promises ([SearchLaws]): in every run the exported events are a prefix
    of the audit trail, in its order, and the index holds a document for each of them. *)
Theorem exported_events_are_stored (adapters : list (string * ContainmentAdapter W)) (http : JsonHTTPS E) held
    `{!SearchLaws http held} (ops : list service_op) st w (e : E) :
  tables st = empty_tables ->
  let s := run_services catalog authenticator adapters mode recover_every (Some (create http)) ops
             (response_service (initial (Persistent st) w) e) in
  exists st', backend (orchestrator s) = Persistent st' /\
    (exists rest, audit_ids (tables st') = t_exported (tables st') ++ rest) /\
    Forall (fun id => exists index, held (search_index s) (document_url http index id)) (t_exported (tables st')).
Proof.
  intros Ht s. assert (kept (export_inv (stored http held)) s) as H.
  { apply run_services_kept.
    - intros op o e' _ Ho.
      apply (run_method_framed catalog authenticator adapters
        (fun b _ => match b with Memory _ => False | Persistent st => delivered_prefix (stored http held) (tables st) e' end) op o Ho).
    - intros c limit Hc. injection Hc as <-. apply export_keeps_inv. exact _.
    - unfold kept, export_inv. cbn. rewrite Ht. split; [by apply exportable_empty|constructor]. }
  unfold kept, export_inv in H. destruct (backend (orchestrator s)) as [l|st']; [done|].
  exists st'. split; [done|]. destruct H as [[_ _ Hp] Hs]. by split.
Qed.

End runs.

(** ** Witnesses *)
Definition sample_ops : list service_op :=
  [SvcStart sample_now; SvcPost 900 (Some (VDict sample_command)) sample_now; SvcTick (sample_now + US_PER_SECOND); SvcTick sample_now].

Lemma service_runs_stay_safe_witness :
  let o := orchestrator (run_services sample_catalog sample_authenticator logged_adapters enforce 6 None sample_ops
             (response_service (initial (Memory empty_ledger) ([], [])) tt)) in
  fresh_backend (Memory empty_ledger) /\ (apply_count sample_rid (world o).2 <= 1)%nat.
Proof.
  split; [exact fresh_memory|].
  apply (service_runs_stay_safe sample_catalog sample_authenticator enforce 6 sample_adapters None sample_ops
    (Memory empty_ledger) [] tt fresh_memory).
Defined.

Lemma exported_events_are_stored_witness :
  let st := {| tables := empty_tables; claimed := false; closed := false; faults := [CommitOk; CommitAmbiguous] |} in
  let s := run_services sample_catalog sample_authenticator sample_adapters enforce 6 (Some (create sample_http)) sample_ops
             (response_service (initial (Persistent st) []) []) in
  tables st = empty_tables /\ exists st', backend (orchestrator s) = Persistent st' /\
    Forall (fun id => exists index, holds_url (search_index s) (document_url sample_http index id)) (t_exported (tables st')).
Proof.
  intros st s. split; [reflexivity|].
  destruct (exported_events_are_stored sample_catalog sample_authenticator enforce 6 sample_adapters sample_http holds_url
    sample_ops st [] [] eq_refl) as (st' & H1 & _ & H2).
  exists st'. split; [exact H1|exact H2].
Defined.


(** ** Closed mappings *)
Definition closed_mapping (required optional : list string) (d : mapping) : Prop :=
  (forall k, k ∈ required -> k ∈ keys d) /\ (forall k, k ∈ keys d -> k ∈ required \/ k ∈ optional).

Definition closed_section (required : list string) (v : val) : Prop :=
  exists d, v = VDict d /\ closed_mapping required [] d.

Lemma keys_minus_elem k a b : k ∈ keys_minus a b <-> k ∈ a /\ k ∉ b.
Proof.
  unfold keys_minus. rewrite !list_elem_of_In, List.filter_In, <- !list_elem_of_In, negb_true_iff.
  rewrite <- not_true_iff_false, str_in_elem. done.
Qed.

Lemma length_zero {X} (l : list X) : negb (Nat.eqb (length l) 0) = false <-> l = [].
Proof. by destruct l. Qed.

Lemma closed_Ok v required optional label d :
  _closed v required optional label = Ok d <-> v = VDict d /\ closed_mapping required optional d.
Proof.
  unfold _closed, closed_mapping. destruct v as [| | | | |d']; try (split; [done|by intros [? _]]).
  rewrite raise_seq_Ok, orb_false_iff, !length_zero, !keys_minus_nil. split.
  - intros [[H1 H2] [= <-]]. split; [done|]. split; [done|]. intros k Hk. destruct (decide (k ∈ required)); [by left|right].
    apply H2. by apply keys_minus_elem.
  - intros ([= <-] & H1 & H2). split; [|done]. split; [done|]. intros k Hk. apply keys_minus_elem in Hk as [H3 H4].
    by destruct (H2 k H3).
Qed.

Lemma closed_Err v required optional label e : _closed v required optional label = Err e -> exists m, e = ConfigError m.
Proof.
  unfold _closed. destruct v; try (intros [= <-]; by eexists). destruct (_ || _); cbn; [|done]. intros [= <-]. by eexists.
Qed.

(** ** A response service configuration *)
Record response_config_wf (cfg : mapping) : Prop := {
  rc_keys : closed_mapping response_required ["wazuh"; "tick_seconds"] cfg;
  rc_schema : get "schema_version" cfg = VStr "response-service-v1";
  rc_mode : get "mode" cfg = VStr "observe" \/ get "mode" cfg = VStr "enforce";
  rc_elastic : closed_section ["url"; "ca"; "api_key_file"] (get "elasticsearch" cfg);
  rc_listen : closed_section ["host"; "port"; "cert"; "key"; "client_ca"] (get "listen" cfg);
  rc_firewall : exists firewall backend peers, get "firewall" cfg = VDict firewall /\
    closed_mapping ["backend"; "peers"] [] firewall /\
    get "backend" firewall = VStr backend /\ backend ∈ ["nftables"; "vyos"; "opnsense"] /\
    get "peers" firewall = VList peers /\ (2 <= length peers)%nat /\ Forall (closed_section (peer_fields backend)) peers;
  rc_wazuh : forall v, assoc "wazuh" cfg = Some v -> closed_section ["url"; "ca"; "credentials_file"] v;
  rc_tick : forall v, assoc "tick_seconds" cfg = Some v -> exists n, v = VInt n /\ 2 <= n <= 300;
}.

Lemma int_between_spec low high v : int_between low high v = true <-> exists n, v = VInt n /\ low <= n <= high.
Proof.
  unfold int_between. destruct v as [| |[n|f]| | |]; try (split; [done|by intros (n' & [=] & _)]).
  rewrite andb_true_iff, !Z.leb_le. split; [intros H; by exists n|]. by intros (n' & [= <-] & H).
Qed.

Lemma item_get k d v : item k d = Ok v -> assoc k d = Some v /\ get k d = v.
Proof. unfold item, get. destruct (assoc k d); [|done]. intros [= ->]. done. Qed.

Lemma get_item k d : k ∈ keys d -> item k d = Ok (get k d).
Proof.
  intros Hk. unfold item, get. destruct (assoc k d) eqn:E; [done|]. exfalso.
  induction d as [|[k' v] d IH]; [by apply not_elem_of_nil in Hk|]. cbn in *. destruct (String.eqb_spec k k'); [done|].
  apply elem_of_cons in Hk as [->|Hk]; [done|]. by apply IH.
Qed.

Lemma mapR_Ok_Forall {X Y} (f : X -> result Y) l ys (P : X -> Prop) :
  (forall x y, f x = Ok y -> P x) -> mapR f l = Ok ys -> Forall P l.
Proof.
  intros Hf. revert ys. induction l as [|x l IH]; intros ys; cbn [mapR]; [done|].
  intros H. apply rbind_Ok in H as (y & Hy & H). apply rbind_Ok in H as (zs & Hz & _).
  constructor; [by eapply Hf|by eapply IH].
Qed.

Lemma Forall_mapR_Ok {X Y} (f : X -> result Y) l (P : X -> Prop) :
  (forall x, P x -> exists y, f x = Ok y) -> Forall P l -> exists ys, mapR f l = Ok ys.
Proof.
  intros Hf. induction 1 as [|x l Hx _ [ys IH]]; cbn [mapR]; [by eexists|].
  destruct (Hf x Hx) as [y ->]. rewrite IH. by eexists.
Qed.

Lemma closed_section_Ok v required label d : _closed v required [] label = Ok d -> closed_section required v.
Proof. intros H. apply closed_Ok in H as [-> H]. by exists d. Qed.

Lemma section_closed_Ok v required label : closed_section required v -> exists d, _closed v required [] label = Ok d.
Proof. intros (d & -> & H). exists d. by apply closed_Ok. Qed.

Lemma in_texts_Ok v l : in_texts v l = Ok true <-> exists s, v = VStr s /\ s ∈ l.
Proof.
  destruct v as [|b|n|s|m|d]; cbn; try (split; [done|by intros (? & [=] & _)]).
  split; [intros [= H]; exists s; split; [done|by apply str_in_elem]|]. intros (s' & [= <-] & H). by apply str_in_elem in H as ->.
Qed.

Lemma firewall_Ok v : is_ok (check_firewall v) = true <-> exists firewall backend peers, v = VDict firewall /\
    closed_mapping ["backend"; "peers"] [] firewall /\
    get "backend" firewall = VStr backend /\ backend ∈ ["nftables"; "vyos"; "opnsense"] /\
    get "peers" firewall = VList peers /\ (2 <= length peers)%nat /\ Forall (closed_section (peer_fields backend)) peers.
Proof.
  unfold check_firewall. split.
  - intros H. destruct (_closed v _ _ _) as [fw|e] eqn:E; [|done]. apply closed_Ok in E as [-> Hc]. cbn [rbind] in H.
    rewrite get_item in H by (apply Hc; set_solver). cbn [rbind] in H.
    destruct (in_texts _ _) as [[|]|] eqn:Eb; try done. apply in_texts_Ok in Eb as (backend & Hb & Hin). cbn [rbind negb raise_if] in H.
    rewrite get_item in H by (apply Hc; set_solver). cbn [rbind] in H.
    destruct (get "peers" fw) as [| | | |l|] eqn:El; try done. destruct (Nat.ltb_spec (length l) 2); [done|]. cbn [raise_if rbind] in H.
    destruct (mapR _ l) as [ys|] eqn:Em; [|done]. exists fw, backend, l. repeat (split; [done|]).
    rewrite Hb in Em. cbn [str_val] in Em. eapply mapR_Ok_Forall; [|exact Em]. intros x y. apply closed_section_Ok.
  - intros (fw & backend & peers & -> & Hc & Hb & Hin & Hp & Hlen & Hall).
    assert (_closed (VDict fw) ["backend"; "peers"] [] "firewall" = Ok fw) as -> by by apply closed_Ok. cbn [rbind].
    rewrite get_item by (apply Hc; set_solver). cbn [rbind]. rewrite Hb.
    assert (in_texts (VStr backend) ["nftables"; "vyos"; "opnsense"] = Ok true) as -> by (apply in_texts_Ok; by exists backend).
    cbn [rbind negb raise_if]. rewrite get_item by (apply Hc; set_solver). cbn [rbind]. rewrite Hp.
    destruct (Nat.ltb_spec (length peers) 2); [lia|]. cbn [raise_if rbind str_val].
    destruct (Forall_mapR_Ok (fun peer => _closed peer (peer_fields backend) [] "firewall peer") peers _
      (fun x => section_closed_Ok x _ "firewall peer") Hall) as [ys ->]. done.
Qed.

(** The mode in force: the operator's, when there is one. *)
Definition chosen_mode (environ : list (string * string)) (cfg : mapping) : val :=
  let override := strip (default "" (assoc "SOC_MODE" environ)) in
  if String.eqb override "" then get "mode" cfg else VStr override.

Lemma effective_mode_Ok cfg environ v : "mode" ∈ keys cfg ->
  _effective_mode cfg environ = Ok v <-> v = chosen_mode environ cfg /\ (v = VStr "observe" \/ v = VStr "enforce").
Proof.
  intros Hk. unfold _effective_mode, chosen_mode. rewrite (get_item "mode" cfg Hk).
  set (m := if String.eqb _ "" then Ok (get "mode" cfg) else Ok (VStr _)).
  assert (m = Ok (if String.eqb (strip (default "" (assoc "SOC_MODE" environ))) "" then get "mode" cfg
                  else VStr (strip (default "" (assoc "SOC_MODE" environ))))) as -> by (unfold m; by destruct (String.eqb _ _)).
  cbn [rbind]. set (w := if String.eqb _ "" then _ else _). split.
  - destruct (in_texts w _) as [[|]|] eqn:E; try done. cbn. intros [= <-]. split; [done|].
    apply in_texts_Ok in E as (s & -> & Hs). set_solver.
  - intros [-> Hw]. assert (in_texts w ["observe"; "enforce"] = Ok true) as ->; [|done].
    apply in_texts_Ok. destruct Hw as [-> | ->]; eexists; (split; [reflexivity|set_solver]).
Qed.

(** A response service configuration is accepted exactly when, once the operator's mode is put in,
    it is closed and within bounds in every section, with two peers or more of the backend it
    names; and what is accepted is that mapping, nothing else. *)
Theorem response_configuration_characterised document environ cfg :
  parse_response_service document environ = Ok cfg <->
  exists d, document = VDict d /\ closed_mapping response_required ["wazuh"; "tick_seconds"] d /\
    cfg = assoc_set "mode" (chosen_mode environ d) d /\ response_config_wf cfg.
Proof.
  unfold parse_response_service. split.
  - intros H. apply rbind_Ok in H as (d & Hd & H). apply closed_Ok in Hd as [-> Hd].
    apply raise_seq_Ok in H as [Hs H]. apply negb_false_iff, py_eq_text in Hs.
    apply rbind_Ok in H as (m & Hm & H). apply effective_mode_Ok in Hm as [-> Hm]; [|apply Hd; unfold response_required; set_solver].
    apply rbind_Ok in H as (e1 & He & H). apply rbind_Ok in H as (e2 & Hl & H). apply rbind_Ok in H as (e3 & Hf & H).
    apply rbind_Ok in H as (e4 & Hw & H). apply raise_seq_Ok in H as [Ht [= <-]]. apply negb_false_iff, int_between_spec in Ht.
    set (cfg := assoc_set "mode" _ d) in *.
    exists d. split; [done|]. split; [done|]. split; [done|]. split.
    + unfold closed_mapping, keys. unfold cfg. rewrite keys_assoc_set; [exact Hd|apply Hd; unfold response_required; set_solver].
    + unfold cfg, get. by rewrite assoc_set_ne.
    + unfold cfg, get. by rewrite assoc_set_eq.
    + by apply closed_section_Ok in He.
    + by apply closed_section_Ok in Hl.
    + apply firewall_Ok. by rewrite Hf.
    + intros v Hv. rewrite Hv in Hw. by apply closed_section_Ok in Hw.
    + intros v Hv. by rewrite Hv in Ht.
  - intros (d & -> & Hd & -> & [H1 H2 H3 H4 H5 H6 H7 H8]). set (cfg := assoc_set "mode" _ d) in *.
    assert (_closed (VDict d) response_required ["wazuh"; "tick_seconds"] "response service" = Ok d) as -> by by apply closed_Ok.
    cbn [rbind]. assert (get "schema_version" d = VStr "response-service-v1") as ->.
    { rewrite <- H2. unfold cfg, get. by rewrite assoc_set_ne. }
    cbn [py_eq negb]. rewrite String.eqb_refl. cbn [negb raise_if rbind].
    assert (_effective_mode d environ = Ok (chosen_mode environ d)) as ->.
    { apply effective_mode_Ok; [apply Hd; unfold response_required; set_solver|]. split; [done|].
      unfold cfg, get in H3. by rewrite assoc_set_eq in H3. }
    cbn [rbind]. fold cfg. unfold _elastic. destruct (section_closed_Ok _ _ "elasticsearch" H4) as [? ->].
    destruct (section_closed_Ok _ _ "listen" H5) as [? ->]. cbn [rbind].
    destruct (check_firewall (get "firewall" cfg)) as [fw|e] eqn:Ef; [|apply firewall_Ok in H6; by rewrite Ef in H6].
    assert (int_between 2 300 (default (VInt 10) (assoc "tick_seconds" cfg)) = true) as Ht.
    { apply int_between_spec. destruct (assoc "tick_seconds" cfg) as [t|] eqn:Et; [by apply H8|by exists 10]. }
    cbn [rbind]. destruct (assoc "wazuh" cfg) as [w|] eqn:Ew; [destruct (section_closed_Ok _ _ "wazuh" (H7 w eq_refl)) as [? ->]|];
      cbn [rbind]; by rewrite Ht.
Qed.

(** ** An action without a backend *)

(** A transition, whatever its result, leaves the world behind the adapters as it is. *)
Instance unchanged_record {W : Type} (w0 : W) : FrameRecord (fun _ w => w = w0).
Proof. by split. Qed.

(** An action whose backend is not configured fails closed: the application of a response by
    [UnavailableAdapter] is never reported as applied, and touches nothing outside the
    orchestrator. *)
Theorem unavailable_backend_fails_closed {W A} `{!CommandAuthenticator A} (adapters : list (string * ContainmentAdapter W))
    name action r timestamp (o : Orchestrator W) :
  let a := unavailable_adapter name action in
  let '(res, o') := conclude_apply adapters a r timestamp o in
  world o' = world o /\ forall x, res = Ok x -> o_state x = FAILED /\ o_accepted x = false.
Proof.
  cbv zeta. unfold conclude_apply, _invoke, mbind. cbn [adapter_apply unavailable_adapter]. unfold ret at 1.
  cbn [unavailable_outcome outcome_failure evidence_refs existsb ok negb orb]. cbv beta iota. unfold _fail_from_outcome.
  match goal with |- context [_fail adapters r timestamp ?c ?m ?s] =>
    pose proof (fail_framed adapters (fun _ w => w = world o) r timestamp c m s eq_refl) as Hw;
    destruct (_fail adapters r timestamp c m s) as [[e|e] o'] end; (split; [exact Hw|]); [|done].
  intros x [= <-]. done.
Qed.
