(* ===== verification/FeatureProps.v ===== *)
(** Theorems about the feature worker ([FeatureWorker.v]). *)

From S2P Require Import Prelude PyText PyNum PyTime PyJson Sha256 Policy Decision Effects Store Https Contracts FeatureEngine.
From S2P Require Import FeatureWorker WindowInv AuditLog Adapters Engine EngineFrame ServiceInv SampleWorkers.

(** The parameters of one run. *)
Record feature_run : Type := {
  fr_schemas : list string;
  fr_git_sha : string;
  fr_now : Z;
  fr_lag : Z;
  fr_lookback : Z;
  fr_max_windows : Z;
  fr_max_events : Z;
  fr_baseline : option (list string) }.

Section runs.
Context {W : Type}.
Variable elastic : JsonHTTPS W.
Variable utc_now : M W Z.
Variable schema_file : string -> option (list Z).
Variable conforms : list Z -> mapping -> bool.

Definition run_features (r : feature_run) (s : Worker W) : Worker W :=
  (run_once elastic utc_now schema_file conforms (fr_schemas r) (fr_git_sha r) (fr_now r) (fr_lag r) (fr_lookback r)
    (fr_max_windows r) (fr_max_events r) (fr_baseline r) s).2.

Definition run_all (runs : list feature_run) (s : Worker W) : Worker W := fold_left (fun s r => run_features r s) runs s.

(** C5: no window is skipped: once a window of a schema is settled, every window from the first one on
    up to any that has a row has one itself, after any later runs with any parameters, answers, clock
    readings and commit failures; and the row of a window that did not fail never changes again. *)
Theorem windows_leave_no_gap runs schema first t0 s :
  ledger_ok (windows (ledger s)) -> gapless schema first (windows (ledger s)) ->
  aligned t0 -> first <= t0 -> settled schema (windows (ledger s)) t0 ->
  Forall (fun r => NoDup (fr_schemas r)) runs ->
  let s' := run_all runs s in
  gapless schema first (windows (ledger s')) /\ frozen (windows (ledger s)) (windows (ledger s')).
Proof.
  intros Hok Hg Ha Hf Hs Hruns.
  assert (forall s1, windows_inv schema first (windows (ledger s)) s1 -> windows_inv schema first (windows (ledger s)) (run_all runs s1)) as H.
  { induction Hruns as [|r runs Hr _ IH]; intros s1 Hinv; cbn [run_all fold_left]; [done|].
    apply IH. apply run_schemas_inv; [done|done|]. intros _. left. exists t0. split; [done|]. split; [done|].
    eapply frozen_settled; [apply Hinv|exact Hs]. }
  destruct (H s) as [_ H1 H2]; [|done]. split; [done|done|apply frozen_refl].
Qed.

(** The first run of a schema leaves no gap either: every window from the first one looked back to
    up to any that has a row has one. *)
Theorem first_run_leaves_no_gap r schema t s :
  ledger_ok (windows (ledger s)) -> (forall u, ~ recorded schema (windows (ledger s)) u) ->
  NoDup (fr_schemas r) -> shift (fr_now r) (- fr_lookback r) = Ok t ->
  gapless schema (floor_window t) (windows (ledger (run_features r s))).
Proof.
  intros Hok Hn Hr Ht.
  apply (run_schemas_inv elastic utc_now schema_file conforms schema (floor_window t) (windows (ledger s))).
  - done.
  - split; [done| |apply frozen_refl]. intros u v Hu. by apply Hn in Hu.
  - intros _. right. split; [done|]. by exists t.
Qed.
End runs.

(** ** Delivery *)
Section delivery.
Context {W : Type}.
Variable elastic : JsonHTTPS W.
Variable utc_now : M W Z.
Variable schema_file : string -> option (list Z).
Variable conforms : list Z -> mapping -> bool.
Variable stored : W -> string -> Prop.
Context `{!CreateLaws (create elastic) stored}.
Hypothesis clock_keeps : forall w id, stored w id -> stored (utc_now w).2 id.

Definition vector_stored (w : W) (vector : val) : Prop := exists id, subscript "vector_id" vector = Ok (VStr id) /\ stored w id.

Lemma create_keeps_stored index id v w x : stored w x -> stored (create elastic index id v w).2 x.
Proof. apply create_keeps. Qed.

Lemma deliver_stores index vectors w w' : deliver elastic index vectors w = (Ok tt, w') ->
  (forall x, stored w x -> stored w' x) /\ Forall (vector_stored w') vectors.
Proof.
  revert w. induction vectors as [|v vectors IH]; intros w; cbn [deliver]; [intros [= <-]; done|].
  unfold mbind, lift. destruct (subscript "vector_id" v) as [id|e] eqn:Ev; [|done]. destruct id as [| | |id| |]; try done.
  pose proof (create_keeps_stored index id v w) as Hk. destruct (create elastic index id v w) as [[b|e] w1] eqn:Ec; [|done].
  intros H. destruct (IH w1 H) as [H1 H2]. split; [intros x Hx; by apply H1, Hk|]. constructor; [|done].
  exists id. split; [done|]. apply H1. by eapply create_stores.
Qed.

Lemma upsert_in w l : w ∈ upsert_window w l.
Proof. induction l as [|x l IH]; cbn [upsert_window]; [left|]. destruct (is_window _ _ x); [left|by right]. Qed.

(** The row of a window, as the worker writes it. *)
Definition row_of (schema : string) (start : Z) (st : window_status) (events vectors : Z) (l : list Window) : Prop :=
  exists w, w ∈ l /\ w_schema w = schema /\ w_start w = soc_rfc3339 start /\ w_status w = st /\ w_events w = events /\ w_vectors w = vectors.

Lemma finish_window_ok schema start st events vectors error s s' r :
  finish_window utc_now schema start st events vectors error s = (Ok r, s') ->
  r = st /\ (forall x, stored (outside s) x -> stored (outside s') x) /\ row_of schema start st events vectors (windows (ledger s')).
Proof.
  unfold finish_window, record, mbind, in_world. pose proof (clock_keeps (outside s)) as Hc.
  destruct (utc_now (outside s)) as [[now|e] w]; [|done]. unfold in_ledger, commit_window. cbn [ledger outside].
  destruct (hd CommitOk (window_faults (ledger s))); try done. intros [= <- <-]. split; [done|]. split; [exact Hc|].
  eexists. split; [apply upsert_in|done].
Qed.

(** A window is reported as done only once every one of its vectors, all of them valid, is in the
    index under its own id, and the ledger says so with their number. *)
Theorem done_windows_are_delivered schema git_sha max_events baseline start s s' :
  process_window elastic utc_now schema_file conforms schema git_sha max_events baseline start s = (Ok Done, s') ->
  exists events w finish vectors, fetch_window_events elastic schema start max_events (outside s) = (Ok events, w) /\ events <> [] /\
    shift start WINDOW = Ok finish /\ build_window schema_file conforms schema git_sha baseline start finish events = Ok vectors /\
    Forall (vector_stored (outside s')) vectors /\
    row_of schema start Done (count_of events) (count_of vectors) (windows (ledger s')).
Proof.
  unfold process_window, attempt, in_world. destruct (fetch_window_events _ _ _ _ (outside s)) as [r w] eqn:Ef.
  destruct r as [[|event events]|e].
  - intros H. by apply finish_window_ok in H as [? _].
  - unfold deliver_window, mbind, lift, attempt, in_world. cbn [outside]. destruct (shift start WINDOW) as [finish|e] eqn:Es; [|done].
    destruct (build_window _ _ _ _ _ _ _ _) as [vectors|e] eqn:Eb; [|intros H; by apply finish_window_ok in H as [? _]].
    cbn [outside ledger]. destruct (deliver _ _ vectors w) as [[[]|e] w1] eqn:Ed.
    + intros H. apply finish_window_ok in H as (_ & Hk & Hrow). apply deliver_stores in Ed as [_ Hst].
      exists (event :: events), w, finish, vectors. repeat (split; [done|]). split; [|exact Hrow].
      eapply Forall_impl; [exact Hst|]. intros v (id & H1 & H2). exists id. split; [done|]. by apply Hk.
    + destruct e; try done. intros H. by apply finish_window_ok in H as [? _].
  - destruct e; try done. intros H. by apply finish_window_ok in H as [? _].
Qed.
End delivery.

(** ** Reading a window *)

(** A window is never truncated in silence: events are returned only by a scan that came to its
    end, within the fuel its limit gives, and they are as many as the limit allows at most. *)
Theorem read_windows_are_whole {W} (elastic : JsonHTTPS W) schema start max_events w events w' :
  0 <= max_events -> fetch_window_events elastic schema start max_events w = (Ok events, w') ->
  Z.of_nat (length events) <= max_events /\
  exists finish, shift start WINDOW = Ok finish /\ scan_window elastic schema start finish max_events ([], w) = (Ok true, (events, w')).
Proof.
  intros Hm. unfold fetch_window_events. destruct (shift start WINDOW) as [finish|e]; [|done].
  pose proof (scan_agrees elastic fetching (if String.eqb schema "network-window-v1" then NETWORK_INDICES else ENDPOINT_INDICES)
    (window_query start finish schema) (VList [VDict [("@timestamp", VStr "asc")]; VDict [("cxyz.ingestion_id", VStr "asc")]])
    (Some (VList (map VStr EVENT_FIELDS))) PAGE_SIZE (Some max_events) take_event
    (fun n s => Z.of_nat (length s.1) <= n /\ 0 <= n <= max_events) (fun s => Z.of_nat (length s.1) <= max_events) max_events) as H.
  destruct (H ltac:(cbv beta; lia)) with (more := fetch_fuel max_events) (after := @None val) (s := (@nil val, w)) as (_ & Hr & Hj).
  - intros n X m [l x] Hs. unfold fetching. cbn [snd]. destruct (m x) as [[y|e] x']; exact Hs.
  - intros n hit [l x] [Hs Hb]. unfold yield_hit, raise_when, lift, mbind. destruct (Z.ltb_spec max_events (n + 1)); cbn [raise_if]; [cbn in *; lia|].
    unfold take_event, lift, mbind. destruct (get_attr _ _ hit) as [source|e]; [|cbn in *; lia].
    destruct source as [| | | | |d]; cbn [ret fst snd] in *; try lia.
    unfold lift. destruct (_expand d) as [event|e]; cbn [modify ret fst snd] in *; rewrite ?length_app; cbn [length]; lia.
  - done.
  - cbn. lia.
  - done.
  - unfold scan_window in *. change (enough_pages PAGE_SIZE max_events) with (fetch_fuel max_events) in Hr, Hj.
    destruct (scan _ _ _ _ _ _ _ _ _ _ _ _) as [[[|]|e] [l w1]] eqn:Es; [|done|done].
    cbn [fst snd] in Hj. intros [= <- <-]. split; [done|]. exists finish. split; [done|exact Es].
Qed.

(** ** Witnesses *)

(** 2026-01-01, five past twelve. *)
Definition sample_window : Z := 1767269100 * US_PER_SECOND.
Definition feature_clock : M (list string) Z := ret (sample_window + minutes 11).

Definition sample_event : val := VDict
  [("@timestamp", VStr "2026-01-01T12:06:00Z"); ("cxyz", VDict [("schema_version", VStr "soc-event-v1")]);
   ("event", VDict [("id", VStr "event-1"); ("dataset", VStr "suricata.eve")]); ("event_type", VStr "flow");
   ("source", VDict [("ip", VStr "203.0.113.9")]); ("destination", VDict [("ip", VStr "10.0.0.5"); ("port", VInt 22)])].

Definition page_of (events : list val) : http_answer :=
  Replied {| reply_status := 200; reply_length := 512; reply_remaining := Some 0;
    reply_json := Some (VDict [("hits", VDict [("hits", VList (map (fun e => VDict [("_source", e)]) events))])]) |}.

Definition sample_worker (rows : list Window) : Worker (list string) :=
  {| ledger := {| windows := rows; window_faults := [] |}; outside := [] |}.

Definition sample_run (schemas : list string) : feature_run :=
  {| fr_schemas := schemas; fr_git_sha := "0123abc"; fr_now := sample_window + minutes 16; fr_lag := minutes 3;
     fr_lookback := minutes 60; fr_max_windows := 24; fr_max_events := 1000; fr_baseline := None |}.

Definition sample_row : Window :=
  {| w_schema := "network-window-v1"; w_start := "2026-01-01T12:05:00Z"; w_status := Empty; w_events := 0; w_vectors := 0;
     w_error := None; w_updated_at := "2026-01-01T12:16:00Z" |}.

Lemma sample_aligned : aligned sample_window.
Proof. split; vm_compute; reflexivity. Qed.

Lemma sample_rows_ok : ledger_ok [sample_row].
Proof.
  split; [|apply NoDup_singleton]. constructor; [|done]. exists sample_window. split; [apply sample_aligned|by vm_compute].
Qed.

Lemma sample_gapless : gapless "network-window-v1" sample_window [sample_row].
Proof.
  intros t u (w & Hw & _ & Ht) At Au Hu. apply list_elem_of_singleton in Hw as ->.
  assert (sample_window = t) as <-.
  { apply start_text_inj; [apply sample_aligned|done|]. rewrite <- Ht. by vm_compute. }
  replace u with sample_window by lia. exists sample_row. split; [left|]. split; [done|by vm_compute].
Qed.

Lemma windows_leave_no_gap_witness :
  let s := sample_worker [sample_row] in
  let s' := run_all (answering_http NetworkFailure) feature_clock (fun _ => Some []) (fun _ _ => true) [sample_run ["network-window-v1"]] s in
  ledger_ok (windows (ledger s)) /\ gapless "network-window-v1" sample_window (windows (ledger s')).
Proof.
  cbv zeta. split; [exact sample_rows_ok|].
  apply (windows_leave_no_gap (answering_http NetworkFailure) feature_clock (fun _ => Some []) (fun _ _ => true)
    [sample_run ["network-window-v1"]] "network-window-v1" sample_window sample_window (sample_worker [sample_row])).
  - exact sample_rows_ok.
  - exact sample_gapless.
  - exact sample_aligned.
  - lia.
  - exists sample_row. split; [left|]. split; [reflexivity|]. split; [by vm_compute|reflexivity].
  - constructor; [|constructor]. apply NoDup_singleton.
Defined.

Lemma done_windows_are_delivered_witness :
  let http := answering_http (page_of [sample_event]) in
  let out := process_window http feature_clock (fun _ => Some []) (fun _ _ => true) "network-window-v1" "0123abc" 1000 None sample_window
    (sample_worker []) in
  out.1 = Ok Done /\ row_of "network-window-v1" sample_window Done 1 1 (windows (ledger out.2)).
Proof.
  intros http out. assert (out = (Ok Done, out.2)) as E by (vm_compute; reflexivity). split; [by rewrite E|].
  destruct (done_windows_are_delivered http feature_clock (fun _ => Some []) (fun _ _ => true) (stored http holds_url)
    (fun w id H => H) "network-window-v1" "0123abc" 1000 None sample_window (sample_worker []) out.2 E)
    as (events & w & finish & vectors & Hf & _ & Hs & Hb & _ & Hrow).
  assert (count_of events = 1) as E1 by (apply (f_equal fst) in Hf; vm_compute in Hf; by injection Hf as <-).
  assert (fetch_window_events http "network-window-v1" sample_window 1000 [] =
    (Ok events, w)) as Hf' by exact Hf.
  vm_compute in Hs. injection Hs as <-. apply (f_equal fst) in Hf'. vm_compute in Hf'. injection Hf' as <-.
  vm_compute in Hb. injection Hb as <-. exact Hrow.
Defined.

Lemma read_windows_are_whole_witness :
  let http := answering_http (page_of [sample_event]) in
  0 <= 1000 /\ exists events w', fetch_window_events http "network-window-v1" sample_window 1000 [] = (Ok events, w') /\
    Z.of_nat (length events) <= 1000.
Proof.
  intros http. split; [lia|]. destruct (fetch_window_events http "network-window-v1" sample_window 1000 []) as [[events|e] w'] eqn:E.
  - exists events, w'. split; [reflexivity|]. exact (proj1 (read_windows_are_whole http "network-window-v1" sample_window 1000 [] events w' ltac:(lia) E)).
  - exfalso. apply (f_equal fst) in E. vm_compute in E. discriminate E.
Defined.
