(* ===== verification/VectorProps.v ===== *)
(** Theorems about feature extraction ([FeatureEngine.v]).

    Theorems about sequences of windows ([Sequences.v]): what a model is served is what it was trained
    on; and about the export of a capture ([Entry.v]): what is written covers what was captured. *)

From S2P Require Import Prelude PyText PyNum PyTime PyNet PyJson Sha256 Policy Decision Effects Store Https.
From S2P Require Import JsonText Contracts Sequences FeatureEngine FeatureWorker WindowInv Fabric Entry SampleWorkers.

(** ** The events of a window *)

(** What [select_event] does with one event: nothing, outside the window, or an entry under its id. *)
Definition entry (window_start window_end : Z) (event : val) : result (option (string * val)) :=
  raise_if (negb (is_mapping event)) (FeatureContractError "feature input must contain JSON objects") ;;?
  raise_if (negb (py_eq (_nested ["cxyz"; "schema_version"] event) (VStr "soc-event-v1")))
    (FeatureContractError "feature input must be normalized soc-event-v1 telemetry") ;;?
  let? timestamp := _event_timestamp event in
  if negb ((window_start <=? timestamp) && (timestamp <? window_end)) then Ok None
  else let? event_id := _event_id event in Ok (Some (event_id, event)).

Definition entry_row (k : string) (e : val) : string * (val * string) := (k, (e, _canonical_event e)).

Lemma select_event_entry a b kept e : select_event a b kept e =
  let? x := entry a b e in
  match x with
  | None => Ok kept
  | Some (k, e) =>
      raise_if (match assoc k kept with Some (_, previous) => negb (String.eqb previous (_canonical_event e)) | None => false end)
        (FeatureContractError ("event.id " +:+ py_repr k +:+ " resolves to conflicting normalized telemetry")) ;;?
      Ok (assoc_set k (e, _canonical_event e) kept)
  end.
Proof.
  unfold select_event, entry. destruct (negb (is_mapping e)); [done|]. cbn [raise_if rbind]. destruct (negb (py_eq _ _)); [done|].
  cbn [raise_if rbind]. destruct (_event_timestamp e) as [t|x]; [|done]. cbn [rbind]. destruct (negb (_ && _)); [done|].
  by destruct (_event_id e) as [k|x].
Qed.

(** The ids identify the events of the window. *)
Definition ids_identify (a b : Z) (events : list val) : Prop :=
  forall e e' k, e ∈ events -> e' ∈ events -> entry a b e = Ok (Some (k, e)) -> entry a b e' = Ok (Some (k, e')) -> e = e'.

Lemma entry_self a b e k e' : entry a b e = Ok (Some (k, e')) -> e' = e.
Proof.
  unfold entry. intros H. apply raise_seq_Ok in H as [_ H]. apply raise_seq_Ok in H as [_ H]. apply rbind_Ok in H as (t & _ & H).
  destruct (negb _); [done|]. apply rbind_Ok in H as (id & _ & [= _ <-]). done.
Qed.

(** The rows kept are those of the events in the window, each once. *)
Definition kept_rows (a b : Z) (events : list val) (kept : selection) : Prop :=
  NoDup kept.*1 /\ forall k row, (k, row) ∈ kept <-> exists e, e ∈ events /\ entry a b e = Ok (Some (k, e)) /\ row = (e, _canonical_event e).

Lemma kept_rows_nil a b : kept_rows a b [] [].
Proof. split; [constructor|]. intros k row. split; [by intros ?%not_elem_of_nil|]. by intros (e & ?%not_elem_of_nil & _). Qed.

Lemma kept_rows_skip a b events kept e : entry a b e = Ok None -> kept_rows a b events kept -> kept_rows a b (events ++ [e]) kept.
Proof.
  intros He [H1 H2]. split; [done|]. intros k row. rewrite H2. split; intros (x & Hx & Hk & Hr).
  - exists x. split; [apply elem_of_app; by left|done].
  - apply elem_of_app in Hx as [Hx|Hx]; [by exists x|]. apply list_elem_of_singleton in Hx as ->. by rewrite He in Hk.
Qed.

Lemma assoc_set_elem {A} k (v : A) l : NoDup l.*1 ->
  NoDup (assoc_set k v l).*1 /\ forall k' v', (k', v') ∈ assoc_set k v l <-> (k' = k /\ v' = v) \/ (k' <> k /\ (k', v') ∈ l).
Proof.
  induction l as [|[k0 v0] l IH]; cbn [assoc_set].
  - intros _. split; [apply NoDup_singleton|]. intros k' v'. rewrite list_elem_of_singleton. split; [intros [= -> ->]; by left|].
    intros [[-> ->]|[_ H]]; [done|by apply not_elem_of_nil in H].
  - cbn [fmap list_fmap fst]. intros [Hk Hnd]%NoDup_cons. destruct (String.eqb_spec k k0) as [<-|Hne].
    + split; [by constructor|]. intros k' v'. rewrite !elem_of_cons. split.
      * intros [[= -> ->]|H]; [by left|]. right. split; [|by right]. intros ->. apply Hk, list_elem_of_fmap. by exists (k, v').
      * intros [[-> ->]|[Hn [[= -> ->]|H]]]; [by left|done|by right].
    + destruct (IH Hnd) as [IH1 IH2]. split.
      * cbn. constructor; [|done]. intros ([k1 v1] & E & H)%list_elem_of_fmap. cbn in E. subst k1.
        apply IH2 in H as [[-> _]|[_ H]]; [done|]. apply Hk, list_elem_of_fmap. by exists (k0, v1).
      * intros k' v'. rewrite !elem_of_cons, IH2. split.
        -- intros [[= -> ->]|[H|[Hn H]]]; [right; split; [congruence|by left]|by left|right; split; [done|by right]].
        -- intros [H|[Hn [H|H]]]; [right; by left|by left|right; right; by split].
Qed.

Lemma kept_rows_add a b events kept e k : entry a b e = Ok (Some (k, e)) -> ids_identify a b (events ++ [e]) ->
  kept_rows a b events kept ->
  match assoc k kept with Some (_, previous) => negb (String.eqb previous (_canonical_event e)) | None => false end = false /\
  kept_rows a b (events ++ [e]) (assoc_set k (e, _canonical_event e) kept).
Proof.
  intros He Hid [H1 H2].
  assert (Hsame : forall x, x ∈ events -> entry a b x = Ok (Some (k, x)) -> x = e).
  { intros x Hx Hk. apply (Hid x e k); [apply elem_of_app; by left|apply elem_of_app; right; left|done|done]. }
  split.
  - destruct (assoc k kept) as [[p fp]|] eqn:Ea; [|done]. apply assoc_elem, H2 in Ea as (x & Hx & Hk & [= -> ->]).
    by rewrite (Hsame x Hx Hk), String.eqb_refl.
  - destruct (assoc_set_elem k (e, _canonical_event e) kept H1) as [Hn He']. split; [done|]. intros k' row. rewrite He', H2. split.
    + intros [[-> ->]|[Hne (x & Hx & Hk & Hr)]]; [exists e|exists x]; (split; [apply elem_of_app|done]); [right; left|by left].
    + intros (x & [Hx|Hx]%elem_of_app & Hk & Hr).
      * destruct (decide (k' = k)) as [->|]; [left; split; [done|]; by rewrite (Hsame x Hx Hk) in Hr|right; split; [done|by exists x]].
      * apply list_elem_of_singleton in Hx as ->. rewrite He in Hk. injection Hk as <-. by left.
Qed.

Lemma ids_identify_prefix a b events e : ids_identify a b (events ++ [e]) -> ids_identify a b events.
Proof. intros H x y k Hx Hy. apply H; apply elem_of_app; by left. Qed.

Lemma select_rows a b events kept : ids_identify a b events -> foldR (select_event a b) [] events = Ok kept ->
  kept_rows a b events kept /\ forall e, e ∈ events -> is_ok (entry a b e) = true.
Proof.
  revert kept. induction events as [|e events IH] using rev_ind; intros kept Hid.
  - intros [= <-]. split; [apply kept_rows_nil|]. by intros e ?%not_elem_of_nil.
  - rewrite foldR_app. intros H. apply rbind_Ok in H as (kept1 & H1 & H). cbn [foldR] in H. apply rbind_Ok in H as (kept2 & H & [= <-]).
    destruct (IH kept1 (ids_identify_prefix _ _ _ _ Hid) H1) as [Hk Hall]. rewrite select_event_entry in H.
    apply rbind_Ok in H as (x & Hx & H).
    assert (forall y, y ∈ events ++ [e] -> is_ok (entry a b y) = true) as Hall'.
    { intros y [Hy|Hy]%elem_of_app; [by apply Hall|]. apply list_elem_of_singleton in Hy as ->. by rewrite Hx. }
    destruct x as [[k e']|].
    + apply entry_self in Hx as He. subst e'. destruct (kept_rows_add a b events kept1 e k Hx Hid Hk) as [Hc Hr].
      apply raise_seq_Ok in H as [_ [= <-]]. done.
    + injection H as <-. split; [by apply kept_rows_skip|done].
Qed.

Lemma select_total a b events : ids_identify a b events -> (forall e, e ∈ events -> is_ok (entry a b e) = true) ->
  exists kept, foldR (select_event a b) [] events = Ok kept.
Proof.
  induction events as [|e events IH] using rev_ind; intros Hid Hall; [by eexists|].
  apply ids_identify_prefix in Hid as Hid'. destruct IH as [kept Hk]; [done|intros x Hx; apply Hall, elem_of_app; by left|].
  rewrite foldR_app, Hk. cbn [rbind foldR]. rewrite select_event_entry.
  pose proof (Hall e ltac:(apply elem_of_app; right; left)) as He. destruct (entry a b e) as [x|] eqn:Hx; [|done]. cbn [rbind].
  destruct x as [[k e']|]; [|by eexists]. apply entry_self in Hx as Hs. subst e'.
  destruct (select_rows a b events kept Hid' Hk) as [Hrows _].
  destruct (kept_rows_add a b events kept e k Hx Hid Hrows) as [-> _]. by eexists.
Qed.

Lemma key_leb_total {A} (x y : string * A) : key_leb x y = true \/ key_leb y x = true.
Proof. apply str_leb_total. Qed.

Lemma key_leb_trans {A} (x y z : string * A) : key_leb x y = true -> key_leb y z = true -> key_leb x z = true.
Proof. apply str_leb_trans. Qed.

(** Rows with the same entries under unique keys sort in the same way. *)
Lemma sort_rows {A} (leb : string * A -> string * A -> bool) (l1 l2 : list (string * A)) :
  (forall x y, leb x y = true \/ leb y x = true) -> (forall x y z, leb x y = true -> leb y z = true -> leb x z = true) ->
  (forall x y, leb x y = true -> leb y x = true -> x.1 = y.1) ->
  NoDup l1.*1 -> NoDup l2.*1 -> (forall x, x ∈ l1 <-> x ∈ l2) -> sort_by leb l1 = sort_by leb l2.
Proof.
  intros Htot Htr Ha H1 H2 He. apply sort_by_unique; [done|done| |].
  - intros x y Hx Hy Hxy Hyx. apply (NoDup_map_inj fst l1); [done..|]. by apply Ha.
  - apply NoDup_Permutation; [by eapply NoDup_fmap_1|by eapply NoDup_fmap_1|done].
Qed.

Lemma selection_order a b events events' selected : ids_identify a b events -> (forall e, e ∈ events <-> e ∈ events') ->
  _validate_and_select events a b = Ok selected -> _validate_and_select events' a b = Ok selected.
Proof.
  intros Hid Heq H. unfold _validate_and_select in *. apply rbind_Ok in H as (kept & Hk & [= <-]).
  assert (ids_identify a b events') as Hid' by (intros x y k Hx Hy; apply Hid; by apply Heq).
  destruct (select_rows a b events kept Hid Hk) as [[H1 H2] Hall].
  destruct (select_total a b events' Hid') as [kept' Hk']; [intros e He; by apply Hall, Heq|].
  rewrite Hk'. cbn [rbind]. destruct (select_rows a b events' kept' Hid' Hk') as [[H1' H2'] _].
  f_equal. f_equal. symmetry. apply sort_rows; [apply key_leb_total|apply key_leb_trans|intros x y; apply str_leb_antisym|done..|].
  intros [k row]. rewrite H2, H2'. by setoid_rewrite Heq.
Qed.

(** C24: the vectors of a window depend on its set of events only: where ids identify events, any order
    and any repetition of the same events give the same vectors, with the same ids, for addresses
    and for hosts. *)
Theorem vectors_ignore_event_order schema_file rare baseline events events' start finish a b git_sha generated_at vectors :
  _window_bounds start finish = Ok (a, b) -> ids_identify a b events -> (forall e, e ∈ events <-> e ∈ events') ->
  (build_network_vectors schema_file events start finish git_sha generated_at = Ok vectors ->
   build_network_vectors schema_file events' start finish git_sha generated_at = Ok vectors) /\
  (build_endpoint_vectors schema_file rare baseline events start finish git_sha generated_at = Ok vectors ->
   build_endpoint_vectors schema_file rare baseline events' start finish git_sha generated_at = Ok vectors).
Proof.
  intros Hb Hid Heq.
  assert (forall schema ty check ent leb feat, build_vectors schema_file schema ty check ent leb feat events start finish git_sha generated_at = Ok vectors ->
    build_vectors schema_file schema ty check ent leb feat events' start finish git_sha generated_at = Ok vectors) as H; [|split; apply H].
  intros schema ty check ent leb feat. unfold build_vectors. rewrite Hb. cbn [rbind fst snd]. intros H.
  apply rbind_Ok in H as (selected & Hs & H). by rewrite (selection_order a b events events' selected Hid Heq Hs).
Qed.

(** ** Grouping *)
Definition group_of (entity_of : val -> option string) (entity : string) (events : list val) : list val :=
  List.filter (fun e => bool_decide (entity_of e = Some entity)) events.

(** The groups of the events read so far. *)
Definition grouped_by (entity_of : val -> option string) (events : list val) (grouped : list (string * list val)) : Prop :=
  NoDup grouped.*1 /\ forall k group, (k, group) ∈ grouped <-> group = group_of entity_of k events /\ group <> [].

Lemma group_of_app entity_of k l1 l2 : group_of entity_of k (l1 ++ l2) = group_of entity_of k l1 ++ group_of entity_of k l2.
Proof. unfold group_of. apply List.filter_app. Qed.

Lemma group_of_one entity_of k e : group_of entity_of k [e] = if bool_decide (entity_of e = Some k) then [e] else [].
Proof. done. Qed.

Lemma assoc_grouped entity_of events grouped k : grouped_by entity_of events grouped ->
  default [] (assoc k grouped) = group_of entity_of k events.
Proof.
  intros [Hnd H]. destruct (assoc k grouped) as [g|] eqn:E.
  - apply assoc_elem, H in E as [-> _]. done.
  - apply assoc_None in E. cbn. destruct (group_of entity_of k events) as [|e l] eqn:Eg; [done|]. exfalso. apply E, list_elem_of_fmap.
    exists (k, e :: l). split; [done|]. apply H. by rewrite Eg.
Qed.

Lemma grouped_step check entity_of events grouped e grouped' : grouped_by entity_of events grouped ->
  group_event check entity_of grouped e = Ok grouped' -> grouped_by entity_of (events ++ [e]) grouped'.
Proof.
  intros Hg H. unfold group_event in H. destruct (entity_of e) as [k|] eqn:Ee.
  - apply rbind_Ok in H as (u & _ & [= <-]). unfold add_to_group. rewrite (assoc_grouped entity_of events) by done.
    destruct Hg as [Hnd Hg]. destruct (assoc_set_elem k (group_of entity_of k events ++ [e]) grouped Hnd) as [Hnd' He]. split; [done|].
    intros k' group. rewrite He, Hg, group_of_app, group_of_one. split.
    + intros [[-> ->]|[Hne [-> Hn]]].
      * rewrite bool_decide_true by done. split; [done|]. by destruct (group_of entity_of k events).
      * rewrite bool_decide_false by (intros E; congruence). by rewrite app_nil_r.
    + intros [-> Hn]. destruct (decide (k' = k)) as [->|Hne]; [left|right].
      * by rewrite bool_decide_true.
      * rewrite bool_decide_false, app_nil_r in * by (intros E; congruence). done.
  - injection H as <-. destruct Hg as [Hnd Hg]. split; [done|]. intros k' group. rewrite Hg, group_of_app, group_of_one.
    rewrite bool_decide_false by (intros E; congruence). by rewrite app_nil_r.
Qed.

Lemma grouped_all check entity_of events grouped : foldR (group_event check entity_of) [] events = Ok grouped ->
  grouped_by entity_of events grouped.
Proof.
  revert grouped. induction events as [|e events IH] using rev_ind; intros grouped.
  - intros [= <-]. split; [constructor|]. intros k group. split; [by intros ?%not_elem_of_nil|]. by intros [-> H].
  - rewrite foldR_app. intros H. apply rbind_Ok in H as (g & Hg & H). cbn [foldR] in H. apply rbind_Ok in H as (g' & H & [= <-]).
    eapply grouped_step; [by apply IH|exact H].
Qed.

(** What a vector says of its group. *)
Definition describes (entity_type : string) (features : list val -> result mapping) (entity : string) (group : list val) (vector : val) : Prop :=
  exists d values, vector = VDict d /\ get "entity_type" d = VStr entity_type /\ get "entity" d = VStr entity /\
    get "source_event_count" d = VInt (Z.of_nat (length group)) /\ features group = Ok values /\ get "features" d = VDict values.

Lemma make_vector_describes schema hash ty features a b t sha group v :
  make_vector schema hash ty features a b t sha group = Ok v -> describes ty features group.1 group.2 v.
Proof.
  unfold make_vector. intros H. apply rbind_Ok in H as (eh & _ & H). apply rbind_Ok in H as (values & Hv & [= <-]).
  do 2 eexists. split; [reflexivity|]. repeat (split; [reflexivity|]). split; [exact Hv|reflexivity].
Qed.

(** One vector for each entity of the window, made of that entity's events. *)
Definition one_vector_each (entity_of : val -> option string) (entity_type : string) (features : list val -> result mapping)
    (selected vectors : list val) : Prop :=
  exists entities, NoDup entities /\ (forall x, x ∈ entities <-> exists e, e ∈ selected /\ entity_of e = Some x) /\
    Forall2 (fun x v => describes entity_type features x (group_of entity_of x selected) v) entities vectors.

Lemma build_vectors_each schema_file schema ty check ent leb feat events start finish sha generated_at vectors :
  build_vectors schema_file schema ty check ent leb feat events start finish sha generated_at = Ok vectors ->
  exists a b selected, _window_bounds start finish = Ok (a, b) /\ _validate_and_select events a b = Ok selected /\
    one_vector_each ent ty feat selected vectors.
Proof.
  unfold build_vectors. intros H. apply rbind_Ok in H as ([a b] & Hb & H). apply rbind_Ok in H as (selected & Hs & H).
  apply rbind_Ok in H as (grouped & Hg & H). apply rbind_Ok in H as (t & _ & H). apply rbind_Ok in H as (hash & _ & H).
  exists a, b, selected. split; [done|]. split; [done|]. apply grouped_all in Hg as [Hnd Hg].
  exists (sort_by leb grouped).*1. split; [by rewrite sort_by_perm|]. split.
  - intros x. rewrite list_elem_of_fmap. split.
    + intros ([k group] & -> & Hx). apply sort_by_elem, Hg in Hx as [-> Hne]. cbn.
      destruct (group_of ent k selected) as [|e l] eqn:E; [done|]. exists e.
      assert (e ∈ group_of ent k selected) as He by (rewrite E; left).
      apply list_elem_of_In, List.filter_In in He as [He Hk]. apply bool_decide_eq_true in Hk. by rewrite list_elem_of_In.
    + intros (e & He & Hk). exists (x, group_of ent x selected). split; [done|]. apply sort_by_elem, Hg. split; [done|].
      intros E. assert (e ∈ group_of ent x selected) as Hin.
      { apply list_elem_of_In, List.filter_In. rewrite <- list_elem_of_In, bool_decide_eq_true. done. }
      rewrite E in Hin. by apply not_elem_of_nil in Hin.
  - apply mapR_Forall2 in H. apply Forall2_fmap_l.
    assert (Forall (fun x => x ∈ grouped) (sort_by leb grouped)) as Hin.
    { apply Forall_forall. intros x Hx. by apply sort_by_elem in Hx. }
    revert H Hin. generalize (sort_by leb grouped). intros l H. induction H as [|[k group] v l vs Hv _ IH]; intros Hin; constructor.
    + apply Forall_cons in Hin as [Hin _]. apply Hg in Hin as [-> _]. by apply make_vector_describes in Hv.
    + apply IH. by apply Forall_cons in Hin as [_ Hin].
Qed.

(** The vectors partition the window's events: one vector for each source address, or host, that
    occurs in it, with the features and the count of exactly the events that name it. *)
Theorem one_vector_for_each_entity schema_file rare baseline events start finish sha generated_at :
  (forall vectors, build_network_vectors schema_file events start finish sha generated_at = Ok vectors ->
     exists a b selected, _window_bounds start finish = Ok (a, b) /\ _validate_and_select events a b = Ok selected /\
       one_vector_each source_entity "src_ip" _network_features selected vectors) /\
  (forall vectors, build_endpoint_vectors schema_file rare baseline events start finish sha generated_at = Ok vectors ->
     exists a b selected, _window_bounds start finish = Ok (a, b) /\ _validate_and_select events a b = Ok selected /\
       one_vector_each host_entity "host"
         (fun group => Ok (_endpoint_features group (lowered rare) (option_map lowered baseline))) selected vectors).
Proof. split; intros vectors H; by apply build_vectors_each in H. Qed.

(** ** The feature contract *)

(** A count the contract accepts. *)
Definition countable (v : val) : Prop := exists n, v = VInt n /\ 0 <= n < 2 ^ 1023.

Lemma check_countable name v : name <> "blocked_ratio" -> countable v -> check_feature name v = Ok tt.
Proof.
  intros Hn (n & -> & H). cbn [check_feature]. unfold finite_number. rewrite int_finite by done. cbn [negb raise_if rbind].
  destruct (num_leb_ltb_Z n 0) as [-> _]. destruct (Z.ltb_spec n 0); [lia|]. cbn [raise_if rbind].
  destruct (String.eqb_spec name "blocked_ratio"); [done|].
  assert (is_count (PInt n) = true) as ->; [|done]. unfold is_count, py_int, num_x. cbn [Z.leb]. change (0 <=? 0) with true. cbv iota.
  unfold num_eqb, num_compare, num_x. rewrite Z.pow_0_r, Z.mul_1_r. by rewrite fin_compare_eq.
Qed.

Lemma check_share f : up_to 0 f -> check_feature "blocked_ratio" (VFloat f) = Ok tt.
Proof.
  intros H. destruct (share_checks f H) as (H1 & H2 & H3). cbn [check_feature]. unfold finite_number. rewrite H1, H2. cbn [negb raise_if rbind].
  change (String.eqb "blocked_ratio" "blocked_ratio") with true. cbv iota. by rewrite H3.
Qed.

Lemma filter_le {A} (p : A -> bool) l : Z.of_nat (length (List.filter p l)) <= Z.of_nat (length l).
Proof. apply inj_le, List.filter_length_le. Qed.

Lemma ratio_share p connections : up_to 0 (block_ratio (count p connections) (Z.of_nat (length connections))).
Proof.
  unfold block_ratio. destruct (_ =? 0); [by left|]. apply truediv_share. unfold count. pose proof (filter_le p connections). lia.
Qed.

Lemma numeric_nonneg v n : _numeric v = Ok n -> 0 <= n.
Proof.
  unfold _numeric. destruct v; try (intros [= <-]; done); destruct (int_of_val _) as [k|e]; try (intros [= <-]; lia); by destruct e.
Qed.

Lemma event_bytes_nonneg e b : _event_bytes e = Ok b -> 0 <= b.1 /\ 0 <= b.2.
Proof.
  unfold _event_bytes. destruct (String.eqb _ _).
  - destruct (negb _); [intros [= <-]; done|]. intros H. apply rbind_Ok in H as (o & Ho & H). apply rbind_Ok in H as (i & Hi & [= <-]).
    split; by eapply numeric_nonneg.
  - intros H. apply rbind_Ok in H as (o & Ho & [= <-]). split; [by eapply numeric_nonneg|done].
Qed.

Lemma bytes_nonneg connections b : bytes_of connections = Ok b -> 0 <= b.1 /\ 0 <= b.2.
Proof.
  unfold bytes_of. apply (foldR_inv (fun b : Z * Z => 0 <= b.1 /\ 0 <= b.2)); [done|].
  intros acc e b' _ Ha H. apply rbind_Ok in H as (c & Hc & [= <-]). apply event_bytes_nonneg in Hc. cbn. lia.
Qed.

(** Every count of the features has a float. *)
Definition affordable (values : mapping) : Prop := forall name n, (name, VInt n) ∈ values -> n < 2 ^ 1023.

Lemma affordable_cons name n rest : affordable ((name, VInt n) :: rest) -> 0 <= n -> countable (VInt n) /\ affordable rest.
Proof.
  intros H Hn. split; [exists n; split; [done|]; split; [done|]; apply (H name); left|]. intros k m Hk. apply (H k). by right.
Qed.

Lemma network_contract v1 v2 v3 v4 v5 f v7 v8 v9 v10 v11 :
  countable v1 -> countable v2 -> countable v3 -> countable v4 -> countable v5 -> up_to 0 f -> countable v7 -> countable v8 ->
  countable v9 -> countable v10 -> countable v11 ->
  require_exact_features "network-window-v1" (VDict [("connection_count", v1); ("unique_dst_ip", v2); ("unique_dst_port", v3);
    ("bytes_out", v4); ("bytes_in", v5); ("blocked_ratio", VFloat f); ("dns_query_count", v7); ("unique_domain_count", v8);
    ("tls_count", v9); ("suricata_alert_count", v10); ("failed_auth_count", v11)]) = Ok tt.
Proof.
  intros. unfold require_exact_features. cbn -[check_feature]. rewrite check_share by done. rewrite !check_countable by done. done.
Qed.

Lemma endpoint_contract v1 v2 v3 v4 v5 v6 v7 :
  countable v1 -> countable v2 -> countable v3 -> countable v4 -> countable v5 -> countable v6 -> countable v7 ->
  require_exact_features "endpoint-window-v1" (VDict [("process_count", v1); ("rare_process_count", v2); ("powershell_count", v3);
    ("failed_login_count", v4); ("fim_change_count", v5); ("account_change_count", v6); ("privilege_change_count", v7)]) = Ok tt.
Proof. intros. unfold require_exact_features. cbn -[check_feature]. rewrite !check_countable by done. done. Qed.

Ltac take_count H := apply affordable_cons in H as [? H]; [|unfold count, distinct; lia].

(** C23: what the extractor builds the contract accepts: the features of every vector have exactly the
    names of their schema, every count is a non-negative integer and the blocked ratio lies between 0
    and 1, rounding included, unless a count is too large for a float. *)
Theorem built_features_meet_contract events values rare baseline :
  (_network_features events = Ok values -> affordable values ->
   require_exact_features "network-window-v1" (VDict values) = Ok tt) /\
  (affordable (_endpoint_features events rare baseline) ->
   require_exact_features "endpoint-window-v1" (VDict (_endpoint_features events rare baseline)) = Ok tt).
Proof.
  split.
  - unfold _network_features. intros H. apply rbind_Ok in H as (ports & _ & H). apply rbind_Ok in H as (bytes & Hb & [= <-]).
    apply bytes_nonneg in Hb as [H1 H2]. intros H. do 5 take_count H.
    assert (affordable [("dns_query_count", VInt (Z.of_nat (length (List.filter _is_dns_query events))));
      ("unique_domain_count", VInt (distinct (domains_of (List.filter _is_dns_query events))));
      ("tls_count", VInt (count (is_suricata "tls") events)); ("suricata_alert_count", VInt (count suricata_alert events));
      ("failed_auth_count", VInt (count failed_authentication events))]) as H' by (intros k n Hk; apply (H k); by right).
    do 5 take_count H'. apply network_contract; try done. apply ratio_share.
  - unfold _endpoint_features. intros H. do 7 take_count H. by apply endpoint_contract.
Qed.

(** ** The export of a capture *)

(** The events of the window that starts at [s]. *)
Fixpoint group_at (s : Z) (windows : list (Z * list val)) : list val :=
  match windows with
  | [] => []
  | (s', g) :: rest => if s' =? s then g else group_at s rest
  end.

Lemma group_at_add s start e windows :
  group_at s (add_event start e windows) = group_at s windows ++ (if start =? s then [e] else []).
Proof.
  induction windows as [|[s0 g] rest IH]; cbn [add_event group_at]; [done|].
  destruct (Z.eqb_spec s0 start) as [->|Hne]; cbn [group_at].
  - destruct (start =? s); [done|]. by rewrite app_nil_r.
  - destruct (Z.eqb_spec s0 s) as [->|]; [|apply IH]. destruct (Z.eqb_spec start s); [done|]. by rewrite app_nil_r.
Qed.

Lemma add_event_keys start e windows :
  (add_event start e windows).*1 = if bool_decide (start ∈ windows.*1) then windows.*1 else windows.*1 ++ [start].
Proof.
  induction windows as [|[s0 g] rest IH]; cbn [add_event fmap list_fmap fst]; [done|].
  destruct (Z.eqb_spec s0 start) as [->|Hne]; cbn [fmap list_fmap fst].
  - rewrite bool_decide_true; [done|left].
  - rewrite IH. assert (start ∈ s0 :: rest.*1 <-> start ∈ rest.*1) as Hiff by (rewrite elem_of_cons; naive_solver).
    by rewrite (bool_decide_ext _ _ Hiff); case_bool_decide.
Qed.

Lemma add_event_nodup start e windows : NoDup windows.*1 -> NoDup (add_event start e windows).*1.
Proof.
  intros H. rewrite add_event_keys. case_bool_decide as Hin; [done|]. apply NoDup_app. split; [done|].
  split; [|apply NoDup_singleton]. by intros x Hx ->%list_elem_of_singleton.
Qed.

Lemma add_event_full start e windows : Forall (fun w => w.2 <> []) windows -> Forall (fun w => w.2 <> []) (add_event start e windows).
Proof.
  induction 1 as [|[s0 g] rest Hg Hrest IH]; cbn [add_event]; [by repeat constructor|].
  destruct (s0 =? start); constructor; [by destruct g|done..].
Qed.

Lemma group_at_elem s g windows : NoDup windows.*1 -> (s, g) ∈ windows -> group_at s windows = g.
Proof.
  induction windows as [|[s0 g0] rest IH]; cbn [fmap list_fmap fst group_at]; [by intros _ ?%not_elem_of_nil|].
  intros [Hs Hnd]%NoDup_cons [[= -> ->]|H]%elem_of_cons; [by rewrite Z.eqb_refl|].
  destruct (Z.eqb_spec s0 s) as [->|]; [|by apply IH]. destruct Hs. by apply (list_elem_of_fmap_2' fst _ (s, g)).
Qed.

Lemma group_at_member s e windows : e ∈ group_at s windows -> s ∈ windows.*1.
Proof.
  induction windows as [|[s0 g0] rest IH]; cbn [fmap list_fmap fst group_at]; [by intros ?%not_elem_of_nil|].
  destruct (Z.eqb_spec s0 s) as [->|]; [left|]. intros H. right. by apply IH.
Qed.

(** The line number is only in the message. *)
Lemma event_window_line n m e s : event_window n e = Ok s -> event_window m e = Ok s.
Proof.
  unfold event_window. intros H. apply rbind_Ok in H as (t & -> & H). cbn [rbind].
  destruct t; try done. by destruct (fromisoformat_z _) as [[? [?|]]|].
Qed.

(** The export puts the event in the window that starts at [s]. *)
Definition starts_at (s : Z) (e : val) : bool :=
  match event_window 0 e with
  | Ok s' => s' =? s
  | Err _ => false
  end.

(** The lines with an event. *)
Definition written_lines (lines : list string) : list string := List.filter (fun l => negb (String.eqb (strip l) "")) lines.

Definition grouped_in (windows : list (Z * list val)) (events : list val) : Prop :=
  NoDup windows.*1 /\ Forall (fun w => w.2 <> []) windows /\ (forall s, group_at s windows = List.filter (starts_at s) events) /\
  Forall (fun e => is_ok (event_window 0 e) = true) events.

Lemma lines_grouped lines : forall windows n windows' n', foldR read_line (windows, n) lines = Ok (windows', n') ->
  forall events, grouped_in windows events ->
  exists more, mapR loads (written_lines lines) = Ok more /\ grouped_in windows' (events ++ more).
Proof.
  induction lines as [|l lines IH]; cbn [foldR written_lines List.filter]; intros windows n windows' n' H events Hg.
  { injection H as <- <-. exists []. by rewrite app_nil_r. }
  apply rbind_Ok in H as ([windows1 n1] & H1 & H). unfold read_line in H1. destruct (String.eqb (strip l) "") eqn:El; cbn [negb].
  - injection H1 as <- <-. by apply (IH _ _ _ _ H).
  - apply rbind_Ok in H1 as (e & He & H1). apply rbind_Ok in H1 as (s & Hs & [= <- <-]).
    apply (event_window_line n 0) in Hs. destruct Hg as (Hn & Hf & Ha & Hok).
    destruct (IH _ _ _ _ H (events ++ [e])) as (more & Hm & Hg').
    { split; [by apply add_event_nodup|]. split; [by apply add_event_full|]. split.
      - intros s'. rewrite group_at_add, Ha, List.filter_app. cbn [List.filter]. unfold starts_at at 3. by rewrite Hs; destruct (s =? s').
      - apply Forall_app. split; [done|]. by rewrite Forall_singleton, Hs. }
    exists (e :: more). cbn [mapR]. rewrite He. cbn [rbind]. fold (written_lines lines). rewrite Hm. split; [done|].
    by rewrite (assoc_L (++)) in Hg' || rewrite <- app_assoc in Hg'.
Qed.

Lemma read_windows_spec lines windows : read_windows lines = Ok windows ->
  exists events, mapR loads (written_lines lines) = Ok events /\
    StronglySorted Z.lt windows.*1 /\
    Forall (fun w => w.2 = List.filter (starts_at w.1) events /\ w.2 <> []) windows /\
    Forall (fun e => exists s, event_window 0 e = Ok s /\ s ∈ windows.*1) events.
Proof.
  intros H. apply rbind_Ok in H as ([ws n] & H & [= <-]).
  destruct (lines_grouped _ _ _ _ _ H []) as (events & He & Hn & Hf & Ha & Hok).
  { split; [constructor|]. split; [constructor|]. by split; [|constructor]. }
  exists events. split; [done|]. set (leb := fun a b : Z * list val => a.1 <=? b.1). cbn [fst app] in *.
  pose proof (sort_by_perm leb ws) as Hp. split; [|split].
  - assert (NoDup (sort_by leb ws).*1) as Hnd by by rewrite Hp.
    assert (StronglySorted (fun a b => leb a b = true) (sort_by leb ws)) as Hs.
    { apply sort_by_sorted; unfold leb; intros; rewrite !Z.leb_le in *; lia. }
    clear -Hnd Hs. induction Hs as [|w l Hl IH Hw]; cbn [fmap list_fmap] in *; [constructor|].
    apply NoDup_cons in Hnd as [Hin Hnd]. constructor; [by apply IH|]. apply Forall_forall. intros s Hs.
    assert (s <> w.1) by (by intros ->). apply list_elem_of_fmap in Hs as (x & -> & Hx).
    rewrite Forall_forall in Hw. specialize (Hw x Hx). apply Z.leb_le in Hw. lia.
  - apply Forall_forall. intros [s g] Hw%sort_by_elem. cbn [fst snd]. split; [|by rewrite Forall_forall in Hf; apply (Hf (s, g))].
    by rewrite <- Ha, (group_at_elem s g).
  - apply Forall_forall. intros e Hin. rewrite Forall_forall in Hok.
    destruct (proj1 (is_ok_true _) (Hok e Hin)) as [s Hs].
    exists s. split; [done|]. rewrite Hp. apply (group_at_member s e). rewrite Ha. apply list_elem_of_In, filter_In.
    split; [by apply list_elem_of_In|]. unfold starts_at. rewrite Hs. apply Z.eqb_refl.
Qed.

Section exported.
Variable schema_file : string -> option (list Z).
Variable conforms : list Z -> mapping -> bool.

Definition exportable (v : val) : Prop := validate_vector schema_file conforms v = Ok tt /\ finite_val v = true.

Definition window_builder (schema : string) : list val -> moment -> moment -> string -> option moment -> result (list val) :=
  if String.eqb schema "network-window-v1" then build_network_vectors schema_file else build_endpoint_vectors schema_file [] None.

Lemma write_vectors_Ok vectors : forall written written',
  write_vectors schema_file conforms vectors (written, tt) = (Ok tt, (written', tt)) ->
  written' = written ++ map json_line vectors /\ Forall exportable vectors.
Proof.
  induction vectors as [|v rest IH]; cbn [write_vectors]; intros written written' H.
  { injection H as <-. by rewrite app_nil_r. }
  unfold mbind, lift, raise_when in H. destruct (validate_vector _ _ v) as [[]|] eqn:Ev; [|done].
  destruct (finite_val v) eqn:Ef; [|done]. cbn [negb raise_if put_line modify fst snd lift] in H.
  apply IH in H as [-> Hr]. split; [by rewrite <- app_assoc|]. by constructor.
Qed.

Lemma write_windows_Ok schema git_sha windows : forall written written',
  write_windows schema_file conforms schema git_sha windows (written, tt) = (Ok tt, (written', tt)) ->
  exists built, Forall2 (fun w vectors => window_builder schema w.2 (Instant (Aware w.1)) (Instant (Aware (w.1 + WINDOW))) git_sha None = Ok vectors)
      windows built /\
    written' = written ++ map json_line (concat built) /\ Forall exportable (concat built).
Proof.
  induction windows as [|[start events] rest IH]; cbn [write_windows]; intros written written' H.
  { injection H as <-. exists []. split; [constructor|]. by rewrite app_nil_r. }
  unfold mbind, lift in H. destruct (shift start WINDOW) as [finish|] eqn:Es; [|done]. fold (window_builder schema) in H.
  destruct (window_builder schema _ _ _ _ _) as [vectors|] eqn:Eb; [|done].
  destruct (write_vectors _ _ vectors _) as [[[]|] [written1 []]] eqn:Ew; [|done].
  apply write_vectors_Ok in Ew as [-> Hv]. apply IH in H as (built & Hb & -> & Hr). exists (vectors :: built).
  split; [|split].
  - constructor; [|done]. cbn [fst snd]. unfold shift in Es. ok_inv. by subst finish.
  - cbn [concat]. by rewrite map_app, <- app_assoc.
  - cbn [concat]. by apply Forall_app.
Qed.

(** ** Five minutes *)
Definition five_minutes : Z := 5 * 60 * 1000000.

(** The microseconds since 1970, in UTC, that the timestamp of an event denotes. *)
Definition event_instant (e : val) : option Z :=
  match subscript "@timestamp" e with
  | Ok (VStr text) =>
      match fromisoformat_z text with
      | Some (local, Some offset) => Some (local - offset)
      | _ => None
      end
  | _ => None
  end.

Definition in_window (s : Z) (e : val) : bool :=
  match event_instant e with
  | Some t => (s <=? t) && (t <? s + five_minutes)
  | None => false
  end.

Lemma event_window_instant n e s : event_window n e = Ok s -> exists t, event_instant e = Some t /\ s = floor_window t.
Proof.
  unfold event_window, event_instant. intros (x & -> & H)%rbind_Ok. destruct x as [| | |text| |]; try done.
  destruct (fromisoformat_z text) as [[local [offset|]]|]; try done. apply rbind_Ok in H as (t & Ht & [= <-]).
  exists t. split; [|done]. unfold shift in Ht. by destruct (in_range _); simplify_eq/=.
Qed.

(** A window that starts at a multiple of five minutes has the instants the export puts there. *)
Lemma floor_window_at t s : s mod five_minutes = 0 -> floor_window t = s <-> s <= t < s + five_minutes.
Proof.
  rewrite floor_window_spec. change FeatureWorker.WINDOW with five_minutes. unfold five_minutes.
  intros Hs. Z.div_mod_to_equations. lia.
Qed.

Lemma starts_in_window e s s' : event_window 0 e = Ok s' -> s mod five_minutes = 0 -> starts_at s e = in_window s e.
Proof.
  intros He Hs. unfold starts_at, in_window. rewrite He. apply event_window_instant in He as (t & -> & ->).
  apply eq_true_iff_eq. rewrite Z.eqb_eq, andb_true_iff, Z.leb_le, Z.ltb_lt. by apply floor_window_at.
Qed.

(** The vectors of a window are dated as it is. *)
Definition dated (start : Z) (v : val) : Prop :=
  get_attr "window_start" VNone v = Ok (VStr (_rfc3339 start)) /\ get_attr "window_end" VNone v = Ok (VStr (_rfc3339 (start + five_minutes))).

Lemma build_vectors_dated schema ty check ent leb feat events start sha vectors :
  build_vectors schema_file schema ty check ent leb feat events (Instant (Aware start)) (Instant (Aware (start + five_minutes))) sha None = Ok vectors ->
  Forall (dated start) vectors.
Proof.
  unfold build_vectors. intros H. apply rbind_Ok in H as ([a b] & Hb & H). apply rbind_Ok in H as (selected & _ & H).
  apply rbind_Ok in H as (grouped & _ & H). apply rbind_Ok in H as (t & _ & H). apply rbind_Ok in H as (hash & _ & H).
  assert (a = start /\ b = start + five_minutes) as [-> ->].
  { unfold _window_bounds in Hb. apply rbind_Ok in Hb as (x & [= <-] & Hb). apply rbind_Ok in Hb as (y & [= <-] & Hb).
    apply raise_seq_Ok in Hb as [_ Hb]. by apply raise_seq_Ok in Hb as [_ [= <- <-]]. }
  apply mapR_Forall2, Forall2_flip in H. induction H as [|v g vs gs Hv _ IH]; [constructor|]. constructor; [|done].
  unfold flip, make_vector in Hv. apply rbind_Ok in Hv as (eh & _ & Hv). by apply rbind_Ok in Hv as (values & _ & [= <-]).
Qed.

(** C18: An export that ends has covered its capture: every line with an event parsed, and the event has an
    instant that lies in one of the windows.  The windows start at multiples of five minutes, in
    increasing order, so no two share an instant; those without an event are left out.  Each holds
    exactly the events whose instant is in its five minutes, in the order of the capture; and what was
    written is, window by window, the vectors the builder makes of them, dated as the window, each
    accepted by its schema and finite, and each readable back as it was. *)
Theorem exported_vectors_cover_the_capture schema git_sha lines written :
  export_vectors schema_file conforms schema git_sha lines ([], tt) = (Ok tt, (written, tt)) ->
  exists events windows built,
    mapR loads (written_lines lines) = Ok events /\
    Forall (fun e => exists t s, event_instant e = Some t /\ s ∈ windows.*1 /\ s <= t < s + five_minutes) events /\
    StronglySorted Z.lt windows.*1 /\ Forall (fun s => s mod five_minutes = 0) windows.*1 /\
    Forall (fun w => w.2 = List.filter (in_window w.1) events /\ w.2 <> []) windows /\
    Forall2 (fun w vectors => window_builder schema w.2 (Instant (Aware w.1)) (Instant (Aware (w.1 + five_minutes))) git_sha None = Ok vectors /\
      Forall (dated w.1) vectors) windows built /\
    written = map json_line (concat built) /\
    Forall exportable (concat built) /\
    forall v, v ∈ concat built -> printable v = true -> loads (json_line v) = Ok (arranged true v).
Proof.
  intros H. unfold export_vectors, mbind, lift, raise_when in H. destruct (raise_if _ _) as [|]; [|done]. cbn [lift] in H.
  destruct (read_windows lines) as [windows|] eqn:Er; [|done].
  apply read_windows_spec in Er as (events & He & Hs & Hw & Hc). apply write_windows_Ok in H as (built & Hb & -> & Hv).
  rewrite Forall_forall in Hc.
  assert (Forall (fun w => w.1 mod five_minutes = 0 /\ w.2 = List.filter (in_window w.1) events /\ w.2 <> []) windows) as Hin.
  { eapply Forall_impl; [exact Hw|]. intros [s g]. cbn [fst snd]. intros [-> Hne].
    assert (exists e, e ∈ events /\ starts_at s e = true) as (e & Hie & Hse).
    { destruct (List.filter _ events) as [|e l] eqn:E; [done|]. exists e.
      assert (In e (List.filter (starts_at s) events)) as Hf by (rewrite E; by left). apply filter_In in Hf as [Hf ?]. by rewrite list_elem_of_In. }
    assert (s mod five_minutes = 0) as Hal.
    { destruct (Hc e Hie) as (s' & Hs' & _). unfold starts_at in Hse. rewrite Hs' in Hse. apply Z.eqb_eq in Hse as ->.
      apply event_window_instant in Hs' as (t & _ & ->). rewrite floor_window_spec. change FeatureWorker.WINDOW with five_minutes. unfold five_minutes.
      Z.div_mod_to_equations. lia. }
    split; [done|]. split; [|done]. apply List.filter_ext_in. intros x Hx. apply list_elem_of_In in Hx. destruct (Hc x Hx) as (s' & Hs' & _).
    by eapply starts_in_window. }
  exists events, windows, built. split; [done|]. split.
  { apply Forall_forall. intros e Hie. destruct (Hc e Hie) as (s & Hes & Hsw). apply event_window_instant in Hes as (t & Ht & ->).
    exists t, (floor_window t). split; [done|]. split; [done|]. apply floor_window_at; [|done].
    apply list_elem_of_fmap in Hsw as (w & -> & Hwi). rewrite Forall_forall in Hin. by destruct (Hin w Hwi). }
  split; [done|]. split; [apply Forall_fmap; eapply Forall_impl; [exact Hin|by intros w [? _]]|].
  split; [eapply Forall_impl; [exact Hin|by intros w [_ ?]]|]. split.
  { eapply Forall2_impl; [exact Hb|]. cbn beta. intros w vectors Hvec. split; [done|]. unfold window_builder in Hvec.
    destruct (String.eqb schema "network-window-v1"); by eapply build_vectors_dated. }
  repeat (split; [done|]). intros v _ Hp. by apply loads_dumps_space.
Qed.
End exported.

(** ** Witnesses *)
Definition event_at (id clock : string) : val := VDict
  [("@timestamp", VStr ("2026-01-01T12:" +:+ clock +:+ "Z")); ("cxyz", VDict [("schema_version", VStr "soc-event-v1")]);
   ("event", VDict [("id", VStr id)]); ("source", VDict [("ip", VStr "203.0.113.9")])].

Definition first_event : val := event_at "event-1" "06:00".
Definition second_event : val := event_at "event-2" "07:30".
Definition from_noon : Z := 1767269100 * 1000000.

Lemma vectors_ignore_event_order_witness :
  let build events := build_network_vectors (fun _ => Some []) events (Text "2026-01-01T12:05:00Z") (Text "2026-01-01T12:10:00Z") "0123abc" None in
  _window_bounds (Text "2026-01-01T12:05:00Z") (Text "2026-01-01T12:10:00Z") = Ok (from_noon, from_noon + FIVE_MINUTES) /\
  forall vectors, build [first_event; second_event] = Ok vectors -> build [second_event; first_event; second_event] = Ok vectors.
Proof.
  intros build. split; [vm_compute; reflexivity|]. intros vectors.
  apply (vectors_ignore_event_order (fun _ => Some []) [] None [first_event; second_event] [second_event; first_event; second_event]
    (Text "2026-01-01T12:05:00Z") (Text "2026-01-01T12:10:00Z") from_noon (from_noon + FIVE_MINUTES) "0123abc" None vectors).
  - vm_compute. reflexivity.
  - intros e e' k [->|[->|[]%not_elem_of_nil]%elem_of_cons]%elem_of_cons [->|[->|[]%not_elem_of_nil]%elem_of_cons]%elem_of_cons H H';
      try reflexivity; exfalso; vm_compute in H, H'; congruence.
  - intros e. rewrite !elem_of_cons. split; [intros [->|[->|H]]|intros [->|[->|[->|H]]]]; try (by apply not_elem_of_nil in H); auto.
Defined.

Definition capture_lines : list string := [json_line first_event; Fabric.newline; json_line second_event].
Definition exported : list string :=
  Eval vm_compute in (export_vectors sample_schema_file sample_conforms "network-window-v1" "0123abc" capture_lines ([], tt)).2.1.

Lemma exported_vectors_cover_the_capture_witness :
  length exported = 1%nat /\ exists events windows built, mapR loads (written_lines capture_lines) = Ok events /\
    Forall (fun w => w.2 = List.filter (in_window w.1) events /\ w.2 <> []) windows /\ exported = map json_line (concat built).
Proof.
  split; [reflexivity|].
  destruct (exported_vectors_cover_the_capture sample_schema_file sample_conforms "network-window-v1" "0123abc" capture_lines exported)
    as (events & windows & built & He & _ & _ & _ & Hw & _ & Hx & _); [vm_compute; reflexivity|].
  by exists events, windows, built.
Defined.

(** ** Tables of vectors *)
Lemma fold_insert_lookup {V K A} `{Countable K} (f : V -> K) (g : V -> A) l (m : gmap K A) k x :
  NoDup (map f l) ->
  foldl (fun m v => <[f v := g v]> m) m l !! k = Some x <->
  (exists v, v ∈ l /\ f v = k /\ g v = x) \/ (k ∉ map f l /\ m !! k = Some x).
Proof.
  revert m. induction l as [|v l IH]; cbn [foldl map]; intros m Hnd.
  { split; [intros Hx; right; split; [apply not_elem_of_nil|done]|]. intros [(v & Hv & _)|[_ Hx]]; [by apply not_elem_of_nil in Hv|done]. }
  apply NoDup_cons in Hnd as [Hv Hnd]. rewrite IH by done. split.
  - intros [(u & Hu & Hk & Hx)|[Hk Hx]]; [left; exists u; split; [by right|done]|].
    destruct (decide (f v = k)) as [<-|Hne].
    + rewrite lookup_insert_eq in Hx. injection Hx as Hx. left. exists v. split; [by left|done].
    + rewrite lookup_insert_ne in Hx by done. right. split; [|done]. rewrite not_elem_of_cons. by split.
  - intros [(u & Hu & Hk & Hx)|[Hk Hx]].
    + apply elem_of_cons in Hu as [->|Hu]; [|left; by exists u]. right. subst k. split; [done|]. by rewrite lookup_insert_eq, Hx.
    + apply not_elem_of_cons in Hk as [Hne Hk]. right. split; [done|]. by rewrite lookup_insert_ne.
Qed.

(** The key of a vector as it is. *)
Definition key_of (v : mapping) : string * string := (str_val (get "entity" v), str_val (get "window_end" v)).

(** A vector of [schema] as the feature worker writes it. *)
Record well_formed (schema : string) (v : mapping) : Prop := {
  wf_schema : get "feature_schema" v = VStr schema;
  wf_entity : exists entity, assoc "entity" v = Some (VStr entity);
  wf_end : exists t, in_range t = true /\ whole_second t /\ assoc "window_end" v = Some (VStr (isoformat_auto t));
  wf_features : assoc "features" v = Some (get "features" v) }.

Lemma index_key_wf schema v : well_formed schema v -> index_key v = Ok (key_of v).
Proof.
  intros [_ [entity He] [t (Hr & Hw & Ht)] _]. unfold index_key, key_of, item, get. rewrite He, Ht. cbn [rbind str_val default].
  unfold _parse, soc_parse_rfc3339. rewrite isoformat_parse by done. cbn [Z.opp]. unfold shift. rewrite Z.add_0_r, Hr. done.
Qed.

Lemma index_vectors_wf schema vectors : Forall (well_formed schema) vectors ->
  index_vectors_by_window_end vectors = Ok (foldl (fun m v => <[key_of v := v]> m) ∅ vectors).
Proof.
  unfold index_vectors_by_window_end. generalize (∅ : vector_index).
  induction vectors as [|v vectors IH]; intros m Hwf; [done|]. apply Forall_cons in Hwf as [Hv Hwf].
  cbn [foldR foldl]. rewrite (index_key_wf schema v Hv). by apply IH.
Qed.

(** ** The index that serves *)
Definition matching (schema entity : string) (ends : list string) (v : mapping) : bool :=
  String.eqb (str_val (get "feature_schema" v)) schema && String.eqb (str_val (get "entity" v)) entity
  && str_in (str_val (get "window_end" v)) ends.

(** A hit with the two fields the query asks for. *)
Definition as_hit (v : mapping) : val :=
  VDict [("_source", VDict [("window_end", get "window_end" v); ("features", get "features" v)])].

(** The node holds [vectors]: it answers a history query with the ones that match, in some order, when
    they are no more than the size asked for. *)
Class HistoryNode {W : Type} (elastic : JsonHTTPS W) (vectors : list mapping) : Prop := {
  history_answered schema entity ends w :
    (length (List.filter (matching schema entity ends) vectors) <= length ends)%nat ->
    exists hits w', search elastic "soc-features-*" (history_query (VStr schema) (VStr entity) ends) w = (Ok hits, w') /\
      hits ≡ₚ map as_hit (List.filter (matching schema entity ends) vectors);
}.

(** The tables of the two sides. *)
Definition end_of (v : mapping) : string := str_val (get "window_end" v).

Lemma add_hits_wf schema l m : Forall (well_formed schema) l ->
  foldR add_hit m (map as_hit l) = Ok (foldl (fun m v => <[end_of v := get "features" v]> m) m l).
Proof.
  revert m. induction l as [|v l IH]; intros m Hwf; [done|]. apply Forall_cons in Hwf as [Hv Hwf].
  cbn [map foldR foldl]. destruct (wf_end _ _ Hv) as (t & _ & _ & Ht).
  assert (get "window_end" v = VStr (isoformat_auto t)) as E by (unfold get; by rewrite Ht).
  unfold as_hit at 1, add_hit at 1, end_of at 2. cbn. rewrite E. cbn. by apply IH.
Qed.

Lemma earlier_all schema index entity ends :
  (forall k v, index !! k = Some v -> well_formed schema v) ->
  mapR (earlier_features index entity) ends =
  Ok (map (fun e => match index !! (entity, e) with None => VNone | Some v => get "features" v end) ends).
Proof.
  intros Hwf. induction ends as [|e ends IH]; cbn [mapR map]; [done|]. unfold earlier_features at 1.
  destruct (index !! (entity, e)) as [v|] eqn:E; cbn [rbind]; [|by rewrite IH].
  apply Hwf in E. unfold item. rewrite (wf_features _ _ E). cbn [rbind]. by rewrite IH.
Qed.

Section serving.
Variables (schema entity : string) (vectors : list mapping) (ends : list string).
Hypothesis wf : Forall (well_formed schema) vectors.
Hypothesis unique : NoDup (map key_of vectors).
Notation matches := (List.filter (matching schema entity ends) vectors).

Lemma matches_spec v : v ∈ matches <-> v ∈ vectors /\ str_val (get "entity" v) = entity /\ end_of v ∈ ends.
Proof.
  transitivity (In v vectors /\ matching schema entity ends v = true).
  { rewrite <- filter_In. apply list_elem_of_In. }
  rewrite <- list_elem_of_In. unfold matching, end_of. rewrite !andb_true_iff, !String.eqb_eq, str_in_elem.
  split; [naive_solver|]. intros (Hv & He & Hin). split; [done|]. split; [|done]. split; [|done].
  rewrite Forall_forall in wf. by rewrite (wf_schema _ _ (wf v Hv)).
Qed.

(** One vector for each window of the entity. *)
Lemma matches_unique : NoDup (map end_of matches).
Proof.
  assert (NoDup (map key_of matches)) as Hnd by (by apply NoDup_map_filter).
  assert (Forall (fun v => str_val (get "entity" v) = entity) matches) as He.
  { apply Forall_forall. intros v Hv. by apply matches_spec in Hv as (_ & -> & _). }
  revert Hnd He. generalize matches. induction l as [|v l IH]; cbn [map]; intros Hnd He; [constructor|].
  apply NoDup_cons in Hnd as [Hv Hnd]. apply Forall_cons in He as [Hev He]. apply NoDup_cons. split; [|by apply IH].
  intros Hin. apply Hv. apply list_elem_of_In, in_map_iff in Hin as (u & Hu & Hin). apply list_elem_of_In in Hin.
  apply list_elem_of_fmap. exists u. split; [|done]. unfold key_of. fold (end_of u) (end_of v). rewrite Hu, Hev.
  rewrite Forall_forall in He. by rewrite (He u Hin).
Qed.

Lemma matches_fit : (length matches <= length ends)%nat.
Proof.
  rewrite <- (length_map end_of). apply NoDup_incl_length; [by apply NoDup_ListNoDup, matches_unique|].
  intros e He. apply in_map_iff in He as (v & <- & Hv). apply list_elem_of_In, matches_spec in Hv as (_ & _ & Hin). by apply list_elem_of_In.
Qed.

(** The two tables agree on the windows asked for. *)
Lemma tables_agree l e : l ≡ₚ matches -> e ∈ ends ->
  default VNone (foldl (fun m v => <[end_of v := get "features" v]> m) (∅ : gmap string val) l !! e) =
  match foldl (fun m v => <[key_of v := v]> m) (∅ : vector_index) vectors !! (entity, e) with
  | None => VNone
  | Some v => get "features" v
  end.
Proof.
  intros Hl He. assert (NoDup (map end_of l)) as Hnd by (rewrite Hl; apply matches_unique).
  set (by_end := foldl _ _ l). set (index := foldl _ _ vectors).
  assert (forall x, by_end !! e = Some x <-> exists v, v ∈ vectors /\ key_of v = (entity, e) /\ get "features" v = x) as H1.
  { intros x. unfold by_end. rewrite fold_insert_lookup by done. split.
    - intros [(v & Hv & Hk & Hx)|[_ Hx]]; [|by rewrite lookup_empty in Hx]. rewrite Hl in Hv. apply matches_spec in Hv as (Hv & Hen & _).
      exists v. split; [done|]. split; [|done]. unfold key_of. fold (end_of v). by rewrite Hen, Hk.
    - intros (v & Hv & Hk & Hx). left. exists v. injection Hk as Hen Hend. split; [|done]. rewrite Hl. apply matches_spec.
      split; [done|]. split; [done|]. unfold end_of. by rewrite Hend. }
  assert (forall v, index !! (entity, e) = Some v <-> v ∈ vectors /\ key_of v = (entity, e)) as H2.
  { intros v. unfold index. rewrite fold_insert_lookup by done. split.
    - intros [(u & Hu & Hk & ->)|[_ Hx]]; [done|by rewrite lookup_empty in Hx].
    - intros [Hv Hk]. left. by exists v. }
  clearbody by_end index. destruct (index !! (entity, e)) as [v|] eqn:Ei.
  - destruct (proj1 (H2 v) eq_refl) as [Hv Hk]. by rewrite (proj2 (H1 (get "features" v)) (ex_intro _ v (conj Hv (conj Hk eq_refl)))).
  - destruct (by_end !! e) as [x|] eqn:Eb; [|done]. destruct (proj1 (H1 x) eq_refl) as (v & Hv & Hk & _).
    discriminate (proj2 (H2 v) (conj Hv Hk)).
Qed.
End serving.

(** C12: the history a sequence model is served, read from an index that holds the vectors, is the one
    its training sequences had, computed from the vectors themselves: window by window, a missing
    window included, and with the same error for a length or a window end that makes no sense. *)
Theorem serving_history_is_training_history {W} (elastic : JsonHTTPS W) schema vectors length vector entity finish w :
  HistoryNode elastic vectors -> Forall (well_formed schema) vectors -> NoDup (map key_of vectors) ->
  assoc "feature_schema" vector = Some (VStr schema) -> assoc "entity" vector = Some (VStr entity) ->
  assoc "window_end" vector = Some (VStr finish) ->
  (make_history_fetcher elastic length vector w).1 =
  (let? index := index_vectors_by_window_end vectors in entity_history vector index length).
Proof.
  intros Hnode Hwf Hnd Hs He Hf. rewrite (index_vectors_wf schema vectors Hwf). cbn [rbind].
  assert (forall k v, assoc k vector = Some v -> item k vector = Ok v) as Hitem by (intros k v E; unfold item; by rewrite E).
  unfold make_history_fetcher, entity_history, mbind, lift, raise_when, raise_if.
  rewrite (Hitem _ _ Hs), (Hitem _ _ He), (Hitem _ _ Hf). cbn [rbind str_val].
  destruct (length <? 2) eqn:El.
  { unfold history_window_ends. by rewrite El. }
  destruct (history_window_ends finish length) as [ends|e]; cbn [rbind]; [|done].
  change (lift (Ok tt) w) with (@Ok unit tt, w). cbv beta iota.
  destruct (history_answered schema entity ends w (matches_fit schema entity vectors ends Hwf Hnd)) as (hits & w' & -> & Hp).
  apply Permutation_map_inv in Hp as (l & -> & Hl). symmetry in Hl.
  rewrite (add_hits_wf schema).
  2:{ apply Forall_forall. intros v Hv. rewrite Hl in Hv. apply (matches_spec schema entity vectors ends Hwf) in Hv as [Hv _].
      rewrite Forall_forall in Hwf. by apply Hwf. }
  unfold ret. cbn [fst]. rewrite (earlier_all schema).
  2:{ intros k v Hv. apply fold_insert_lookup in Hv; [|done]. destruct Hv as [(u & Hu & _ & ->)|[_ Hx]]; [|by rewrite lookup_empty in Hx].
      rewrite Forall_forall in Hwf. by apply Hwf. }
  f_equal. apply map_ext_in. intros e He'. apply (tables_agree schema entity vectors ends Hwf Hnd l e Hl). by apply list_elem_of_In.
Qed.

(** ** A node that holds vectors *)

(** [v[k][i]...] along a path. *)
Fixpoint at_path (path : list (string + nat)) (v : val) : val :=
  match path, v with
  | [], _ => v
  | inl k :: rest, VDict d => at_path rest (get k d)
  | inr i :: rest, VList l => at_path rest (nth i l VNone)
  | _, _ => VNone
  end.

Definition filter_clause (i : nat) (clause field : string) : list (string + nat) :=
  [inl "query"; inl "bool"; inl "filter"; inr i; inl clause; inl field].

Definition asked_ends (v : val) : list string :=
  match v with
  | VList l => map str_val l
  | _ => []
  end.

Definition history_node (vectors : list mapping) (r : http_request) : M unit http_answer :=
  let body := default VNone (req_data r) in
  ret (json_reply [("hits", VDict [("hits", VList (map as_hit (List.filter
    (matching (str_val (at_path (filter_clause 0 "term" "feature_schema") body)) (str_val (at_path (filter_clause 1 "term" "entity") body))
       (asked_ends (at_path (filter_clause 2 "terms" "window_end") body))) vectors)))])]).

Definition history_http (vectors : list mapping) : JsonHTTPS unit :=
  {| origin := "https://search.example"; opener := history_node vectors; authorization := ret "" |}.

#[export] Instance history_http_node vectors : HistoryNode (history_http vectors) vectors.
Proof.
  split. intros schema entity ends w _. eexists _, w. split; [|reflexivity].
  unfold search, request, mbind, lift, raise_when.
  assert (finite_val (VDict (history_query (VStr schema) (VStr entity) ends)) = true) as ->.
  { cbn. assert (forall l : list string, forallb finite_val (map VStr l) = true) as Hl by (by induction l). by rewrite Hl. }
  cbn. do 6 f_equal. by rewrite map_map, map_id.
Qed.

Definition earlier_vectors : list mapping :=
  [window_vector "203.0.113.9" "2026-01-01T00:00:00Z" "2026-01-01T00:05:00Z" 1200;
   window_vector "203.0.113.9" "2026-01-01T00:10:00Z" "2026-01-01T00:15:00Z" 40;
   window_vector "203.0.113.77" "2026-01-01T00:05:00Z" "2026-01-01T00:10:00Z" 9].

Lemma window_vector_wf entity window_start window_end bytes t :
  in_range t = true -> whole_second t -> isoformat_auto t = window_end ->
  well_formed "network-window-v1" (window_vector entity window_start window_end bytes).
Proof. intros Hr Hw <-. split; [reflexivity|by exists entity|by exists t|reflexivity]. Qed.

(** The four windows to 00:20: the second is missing, and the one of the other source does not fill it. *)
Lemma serving_history_is_training_history_witness :
  let vector := window_vector "203.0.113.9" "2026-01-01T00:15:00Z" "2026-01-01T00:20:00Z" 7 in
  (make_history_fetcher (history_http earlier_vectors) 4 vector tt).1 =
  (let? index := index_vectors_by_window_end earlier_vectors in entity_history vector index 4) /\
  rbind (make_history_fetcher (history_http earlier_vectors) 4 vector tt).1
    (fun l => Ok (map (fun v => match v with VNone => VNone | VDict d => get "bytes_out" d | _ => v end) l)) = Ok [VInt 1200; VNone; VInt 40].
Proof.
  cbv zeta. split; [|vm_compute; reflexivity].
  apply (serving_history_is_training_history (history_http earlier_vectors) "network-window-v1" earlier_vectors 4 _ "203.0.113.9" "2026-01-01T00:20:00Z" tt).
  - apply _.
  - repeat apply Forall_cons_2; [..|apply Forall_nil_2].
    + by apply (window_vector_wf _ _ _ _ 1767225900000000).
    + by apply (window_vector_wf _ _ _ _ 1767226500000000).
    + by apply (window_vector_wf _ _ _ _ 1767226200000000).
  - apply NoDup_ListNoDup. repeat constructor; vm_compute; intuition discriminate.
  - reflexivity.
  - reflexivity.
  - reflexivity.
Defined.

(** The history of a window is the [length - 1] windows before it, in order. *)
Theorem history_windows_are_consecutive finish length ends t :
  history_window_ends finish length = Ok ends -> _parse finish = Ok t ->
  Z.of_nat (List.length ends) = length - 1 /\
  forall i : nat, Z.of_nat i < length - 1 -> ends !! i = Some (isoformat_auto (t - WINDOW * (length - 1 - Z.of_nat i))).
Proof.
  unfold history_window_ends. intros H Ht. apply raise_seq_Ok in H as [Hl H]. apply Z.ltb_ge in Hl.
  rewrite Ht in H. cbn [rbind] in H. apply mapR_Forall2 in H. pose proof (Forall2_length _ _ _ H) as Hlen.
  unfold offsets in *. rewrite length_reverse, length_seqZ in Hlen. split; [lia|]. intros i Hi.
  assert (reverse (seqZ 1 (length - 1)) !! i = Some (length - 1 - Z.of_nat i)) as Ho.
  { rewrite reverse_lookup by (rewrite length_seqZ; lia). rewrite length_seqZ. apply lookup_seqZ. lia. }
  destruct (Forall2_lookup_l _ _ _ _ _ H Ho) as (e & -> & He). apply rbind_Ok in He as (u & Hu & [= <-]).
  unfold shift in Hu. destruct (in_range _); [|done]. injection Hu as <-. by unfold _rfc3339.
Qed.
