(* ===== verification/TrainingProps.v ===== *)
(** Theorems about the training side: the partition gate, promotion and retirement, threshold
    selection, the detectors and the candidate pipeline. *)

From S2P Require Import Prelude PyText PyNum PyTime PyJson JsonText Sha256 Policy Decision Effects Store Contracts Sequences Registry.
From S2P Require Import InferApi Partitions Promotion Labels Evaluation Pipeline RegistryInv TrainingInv SampleWorkers SampleTraining.

(** C15: a dataset that passes the gate does not leak.  Its ledger is the one the manifest names; no source
    event and no session belongs to two of the three partitions; and every vector of an earlier
    partition ends before any vector of a later one starts. *)
Theorem accepted_partitions_do_not_leak manifest_valid json_loads schema_file conforms vectors vector_bytes manifest bytes :
  validate_partitions manifest_valid json_loads schema_file conforms vectors vector_bytes manifest (Some bytes) = Ok tt ->
  exists ledger, json_loads bytes = Ok ledger /\
    rbind (subscript "split" manifest) (subscript "session_assignment_sha256") = Ok (VStr (hexdigest (sha256 bytes))) /\
    (forall p q m m' field, p ∈ PARTITIONS -> q ∈ PARTITIONS -> p <> q -> field = "source_event_ids" \/ field = "session_ids" ->
       m ∈ ledger_members ledger p -> m' ∈ ledger_members ledger q -> member_ids field m ## member_ids field m') /\
    (forall i j p q v w, PARTITIONS !! i = Some p -> PARTITIONS !! j = Some q -> (i < j)%nat -> v ∈ vectors p -> w ∈ vectors q ->
       exists vs ve ws we, window_of v = Some (vs, ve) /\ window_of w = Some (ws, we) /\ vs < ve /\ ve <= ws /\ ws < we).
Proof.
  unfold validate_partitions. intros H. apply try_except_Ok in H as [H|(e & _ & _ & [=])]. apply check_ledger_facts in H as (ledger & Hl & Hd & Ho & Ht).
  exists ledger. split; [done|]. split; [done|]. split.
  - intros p q m m' field Hp Hq Hpq Hf Hm Hm'. destruct Ho as (sources & owned & Ho). destruct (Ho p m Hp Hm) as [? ?].
    destruct (Ho q m' Hq Hm') as [? ?]. destruct Hf as [-> | ->]; [by apply (owned_disjoint p q sources)|by apply (owned_disjoint p q owned)].
  - intros i j p q v w Hi Hj Hij Hv Hw. exact (Ht i j p q v w Hi Hj Hij Hv Hw).
Qed.

(** * Witnesses *)
Lemma accepted_partitions_do_not_leak_witness : exists ledger, ledger = split_ledger /\
  (forall p q m m' field, p ∈ PARTITIONS -> q ∈ PARTITIONS -> p <> q -> field = "source_event_ids" \/ field = "session_ids" ->
     m ∈ ledger_members ledger p -> m' ∈ ledger_members ledger q -> member_ids field m ## member_ids field m').
Proof.
  destruct (accepted_partitions_do_not_leak any_manifest ledger_json sample_schema_file sample_conforms split_rows vector_file (VDict split_manifest) (utf8 "ledger") split_accepted)
    as (ledger & [= <-] & _ & H & _). by exists split_ledger.
Defined.

(** ** What a promotion promises *)

(** [x <= y]: both are numbers and neither is a NaN. *)
Definition number_leq (x y : val) : Prop := exists m n, as_number x = Some m /\ as_number y = Some n /\ num_leb m n = true.

(** A bound that is a number. *)
Definition real_bound (v : val) : Prop := exists n, as_number v = Some n /\ is_number n.

(** The share of the scenarios that were detected, of a count of each. *)
Definition share_detected (detected total : Z) : val := VFloat (if total =? 0 then f_zero else int_truediv detected total).

(** The policy has every bound.  A floor that is a number is at most the metric, and a ceiling at least;
    so a NaN metric clears neither.  The floor of the detected scenarios is at most their share: for
    any counts a run can have, and for other numbers in the place of the counts unless their
    quotient is a NaN, which the comparison of the code lets pass. *)
Record clears (policy : mapping) (test : val) : Prop := {
  c_floors : forall name, name ∈ ["precision"; "recall"; "f1"] ->
    exists minimum floor, item "minimum" policy = Ok minimum /\ subscript name minimum = Ok floor /\
      (real_bound floor -> exists measured, subscript name test = Ok measured /\ number_leq floor measured);
  c_ceilings : forall name, name ∈ ["false_positives_per_hour"; "p95_inference_ms"] ->
    exists maximum ceiling, item "maximum" policy = Ok maximum /\ subscript name maximum = Ok ceiling /\
      (real_bound ceiling -> exists measured, subscript name test = Ok measured /\ number_leq measured ceiling);
  c_scenarios : exists minimum floor, item "minimum" policy = Ok minimum /\ subscript "scenario_detection_ratio" minimum = Ok floor /\
    (real_bound floor ->
      (forall detected total, 0 <= detected <= total -> get_attr "scenarios_detected" (VInt 0) test = Ok (VInt detected) ->
        get_attr "scenarios_total" VNone test = Ok (VInt total) -> number_leq floor (share_detected detected total)) /\
      exists ratio, detection_ratio test = Ok ratio /\ (number_leq floor (VNum ratio) \/ ~ is_number ratio)) }.

(** The metric the record gives, and the one of the bound evaluation. *)
Definition metric_recorded (metadata : mapping) (test : val) (name : string) : Prop :=
  exists measured recorded, get_attr name VNone test = Ok measured /\ rbind (item "evaluation" metadata) (subscript name) = Ok recorded /\
    py_eq measured recorded = true.

Definition test_metrics (binding : mapping) : val := default (VDict []) (assoc "test_metrics" binding).

(** An evaluation is of the artifact, the dataset and the threshold of a record, whose metrics it has;
    the threshold was chosen on the validation partition. *)
Record bound_evaluation (metadata artifact binding : mapping) : Prop := {
  b_model : exists digest, item "sha256" artifact = Ok digest /\ py_eq (get "model_sha256" binding) digest = true;
  b_dataset : exists digest, rbind (item "dataset" metadata) (subscript "manifest_sha256") = Ok digest /\
    py_eq (get "dataset_manifest_sha256" binding) digest = true;
  b_threshold : exists threshold, item "threshold" metadata = Ok threshold /\ py_eq (get "threshold" binding) threshold = true;
  b_selected : get_attr "selected_on" VNone (default (VDict []) (assoc "threshold_policy" binding)) = Ok (VStr "validation");
  b_metrics : Forall (metric_recorded metadata (test_metrics binding)) METRIC_FIELDS }.

(** * Lemmas *)
Lemma subscript_attr name v x otherwise : subscript name v = Ok x -> get_attr name otherwise v = Ok x.
Proof. destruct v; try done. unfold subscript, item, get_attr. destruct (assoc name d); [|done]. by intros [= ->]. Qed.

(** A number that is not below another is at least it, when both are numbers. *)
Lemma not_below x y n : py_lt x y = Ok false -> as_number y = Some n -> exists m, as_number x = Some m /\
  (is_number m -> is_number n -> num_leb n m = true).
Proof.
  unfold py_lt. intros H Hy. rewrite Hy in H. destruct (as_number x) as [m|] eqn:Ex; [|by destruct x, y].
  exists m. split; [done|]. intros Hm Hn. injection H as H. rewrite num_ltb_leb_neg in H by done. by apply negb_false_iff.
Qed.

Lemma not_above x y n : py_lt y x = Ok false -> as_number y = Some n -> exists m, as_number x = Some m /\
  (is_number m -> is_number n -> num_leb m n = true).
Proof.
  unfold py_lt. intros H Hy. rewrite Hy in H. destruct (as_number x) as [m|] eqn:Ex; [|by destruct x, y].
  exists m. split; [done|]. intros Hm Hn. injection H as H. rewrite num_ltb_leb_neg in H by done. by apply negb_false_iff.
Qed.

(** A recorded metric that is a number is not a NaN. *)
Lemma recorded_number metadata test name measured m : metric_recorded metadata test name ->
  subscript name test = Ok measured -> as_number measured = Some m -> is_number m.
Proof.
  intros (x & recorded & Hx & _ & He) Hs Hm. rewrite (subscript_attr _ _ _ VNone Hs) in Hx. injection Hx as <-.
  assert (match as_number recorded with Some n => num_eqb m n | None => false end = true) as H.
  { destruct measured as [|b|n| | |]; try done; cbn [py_eq] in He; by rewrite Hm in He. }
  destruct (as_number recorded) as [n|]; [|done]. rewrite num_eqb_leb in H. apply andb_prop in H as [H _]. by apply num_leb_number in H as [? _].
Qed.

(** What the loops over the bounds pass over. *)
Lemma all_none (f : string -> result (list string)) names l name :
  mapR f names = Ok l -> concat l = [] -> name ∈ names -> f name = Ok [].
Proof.
  revert l. induction names as [|n names IH]; intros l; cbn; [by intros _ _ ?%not_elem_of_nil|].
  intros (x & Hx & H)%rbind_Ok. apply rbind_Ok in H as (r & Hr & [= <-]). cbn. intros [-> Hc]%app_eq_nil.
  intros [->|Hn]%elem_of_cons; [done|by eapply IH].
Qed.

Lemma floor_cleared metadata test minimum name : metric_recorded metadata test name -> floor_failure test minimum name = Ok [] ->
  exists floor, subscript name minimum = Ok floor /\
    (real_bound floor -> exists measured, subscript name test = Ok measured /\ number_leq floor measured).
Proof.
  intros Hrec. unfold floor_failure. intros H. apply rbind_Ok in H as (x & Hx & H). apply rbind_Ok in H as (y & Hy & H).
  apply rbind_Ok in H as ([] & Hb & H); [by apply rbind_Ok in H as (t & _ & [=])|]. exists y. split; [done|]. intros (n & Hn & Hnum).
  exists x. split; [done|]. destruct (not_below x y n Hb Hn) as (m & Hm & Hle). exists n, m. split; [done|]. split; [done|].
  apply Hle; [|done]. by eapply recorded_number.
Qed.

Lemma ceiling_cleared metadata test maximum name : metric_recorded metadata test name -> ceiling_failure test maximum name = Ok [] ->
  exists ceiling, subscript name maximum = Ok ceiling /\
    (real_bound ceiling -> exists measured, subscript name test = Ok measured /\ number_leq measured ceiling).
Proof.
  intros Hrec. unfold ceiling_failure. intros H. apply rbind_Ok in H as (x & Hx & H). apply rbind_Ok in H as (y & Hy & H).
  apply rbind_Ok in H as ([] & Hb & H); [by apply rbind_Ok in H as (t & _ & [=])|]. exists y. split; [done|]. intros (n & Hn & Hnum).
  exists x. split; [done|]. destruct (not_above x y n Hb Hn) as (m & Hm & Hle). exists m, n. split; [done|]. split; [done|].
  apply Hle; [|done]. by eapply recorded_number.
Qed.

(** The share of two counts is what the code computes, and a number. *)
Lemma ratio_of_counts test detected total : 0 <= detected <= total ->
  get_attr "scenarios_detected" (VInt 0) test = Ok (VInt detected) -> get_attr "scenarios_total" VNone test = Ok (VInt total) ->
  exists ratio, detection_ratio test = Ok ratio /\ is_number ratio /\ share_detected detected total = VNum ratio.
Proof.
  intros Hc Hd Ht. unfold detection_ratio. rewrite Hd, Ht. pose proof (proj2 (proj2 (num_leb_ltb_Z total 0))) as Et.
  cbn [rbind truthy]. rewrite Et. unfold share_detected. destruct (Z.eqb_spec total 0) as [->|Hne]; [by exists (PFloat f_zero)|].
  cbn [negb truthy]. rewrite Et. cbn [negb]. unfold py_truediv. cbn [as_number].
  rewrite (proj2 (Z.eqb_neq total 0)), !Z.abs_eq by lia.
  pose proof (truediv_share detected total Hc) as Hr. apply real_share in Hr.
  rewrite (proj2 (Z.ltb_ge detected 0)), (proj2 (Z.ltb_ge total 0)) by lia.
  destruct (int_truediv detected total) eqn:Eq; try (eexists; split; [reflexivity|split; [exact Hr|reflexivity]]).
  exfalso. pose proof (truediv_share detected total Hc) as [H|(m & ex & H & _)]; congruence.
Qed.

Lemma scenarios_cleared ratio test minimum : detection_ratio test = Ok ratio -> ratio_failure ratio minimum = Ok [] ->
  exists floor, subscript "scenario_detection_ratio" minimum = Ok floor /\
    (real_bound floor ->
      (forall detected total, 0 <= detected <= total -> get_attr "scenarios_detected" (VInt 0) test = Ok (VInt detected) ->
        get_attr "scenarios_total" VNone test = Ok (VInt total) -> number_leq floor (share_detected detected total)) /\
      exists ratio, detection_ratio test = Ok ratio /\ (number_leq floor (VNum ratio) \/ ~ is_number ratio)).
Proof.
  intros Hr. unfold ratio_failure. intros H. apply rbind_Ok in H as (floor & Hf & H).
  apply rbind_Ok in H as ([] & Hb & H); [by apply rbind_Ok in H as (t & _ & [=])|]. exists floor. split; [done|]. intros (n & Hn & Hnum).
  destruct (not_below (VNum ratio) floor n Hb Hn) as (m & [= <-] & Hle). split.
  - intros detected total Hc Hd Ht. destruct (ratio_of_counts test detected total Hc Hd Ht) as (q & Hq & Hreal & ->).
    assert (q = ratio) as -> by congruence. exists n, ratio. split; [done|]. split; [done|]. by apply Hle.
  - exists ratio. split; [done|]. destruct (num_x ratio) eqn:Ex; [by right; intros []|left..]; exists n, ratio;
      (split; [done|]); (split; [done|]); apply Hle; [unfold is_number; congruence|done|unfold is_number; congruence|done].
Qed.

Lemma check_policy_clears metadata policy test : Forall (metric_recorded metadata test) METRIC_FIELDS ->
  check_policy policy test = Ok tt -> clears policy test.
Proof.
  intros Hrec. rewrite Forall_forall in Hrec. unfold check_policy. intros (failures & Hf & H)%rbind_Ok. apply raise_if_Ok in H. destruct failures as [|]; [|done].
  unfold policy_failures in Hf. apply rbind_Ok in Hf as (minimum & Hmin & Hf). apply rbind_Ok in Hf as (maximum & Hmax & Hf).
  apply rbind_Ok in Hf as (ratio & Hr & Hf). apply rbind_Ok in Hf as (low & Hlow & Hf). apply rbind_Ok in Hf as (mid & Hmid & Hf).
  apply rbind_Ok in Hf as (high & Hhigh & [= He]). apply app_eq_nil in He as [El He]. apply app_eq_nil in He as [-> Eh]. constructor.
  - intros name Hn. exists minimum. destruct (floor_cleared metadata test minimum name) as (floor & H1 & H2).
    + apply Hrec. unfold METRIC_FIELDS. set_solver.
    + by apply (all_none _ _ _ _ Hlow El).
    + by exists floor.
  - intros name Hn. exists maximum. destruct (ceiling_cleared metadata test maximum name) as (ceiling & H1 & H2).
    + apply Hrec. unfold METRIC_FIELDS. set_solver.
    + by apply (all_none _ _ _ _ Hhigh Eh).
    + by exists ceiling.
  - exists minimum. destruct (scenarios_cleared ratio test minimum Hr Hmid) as (floor & H1 & H2). by exists floor.
Qed.

Lemma metrics_recorded metadata test names : foldR (fun _ name => metric_agrees metadata test name) tt names = Ok tt ->
  Forall (metric_recorded metadata test) names.
Proof.
  induction names as [|n names IH]; cbn; [by constructor|]. intros ([] & H1 & H2)%rbind_Ok. constructor; [|by apply IH].
  unfold metric_agrees in H1. apply rbind_Ok in H1 as (m & Hm & H1). apply rbind_Ok in H1 as (r & Hr & H1). apply raise_if_Ok in H1.
  apply negb_false_iff in H1. by exists m, r.
Qed.

Lemma verify_binding_facts metadata artifact digest binding test : verify_binding metadata artifact digest binding = Ok test ->
  test = test_metrics binding /\ bound_evaluation metadata artifact binding.
Proof.
  unfold verify_binding. intros H. apply raise_seq_Ok in H as [_ H]. apply rbind_Ok in H as (model & Hmodel & H).
  apply rbind_Ok in H as (dataset & Hdata & H). apply rbind_Ok in H as ([] & Hb & H). apply rbind_Ok in H as (threshold & Hth & H).
  apply raise_seq_Ok in H as [Hthr H]. apply rbind_Ok in H as ([] & Hm & H). apply rbind_Ok in H as (sel & Hsel & H).
  apply raise_seq_Ok in H as [Hs [= <-]]. split; [done|]. cbn [foldR] in Hb. apply rbind_Ok in Hb as ([] & B1 & Hb).
  apply rbind_Ok in Hb as ([] & _ & Hb). apply rbind_Ok in Hb as ([] & B3 & _).
  apply raise_if_Ok, negb_false_iff in B1, B3. cbn [fst snd] in *. apply negb_false_iff in Hthr. apply negb_false_iff, py_eq_text in Hs. subst sel.
  constructor; [by exists model|by exists dataset|by exists threshold|done|by apply metrics_recorded].
Qed.

Section promotion.
Context {W : Type}.
Variable json_loads : list Z -> result val.
Variable safe_load : list Z -> result val.
Variable provenance_valid : mapping -> bool.
Variable schema_file : string -> option (list Z).
Variable clock : M W Z.
Notation S := (Promotion W).
Notation directory := (string -> M W (option (list Z))).

(** What a file of a directory was read as. *)
Definition read_as (read : directory) (name : string) (d : mapping) : Prop :=
  exists w bytes w', read name w = (Ok (Some bytes), w') /\ json_loads bytes = Ok (VDict d).

(** The artifact a record names has the digest it gives. *)
Definition holds_artifact (read : directory) (artifact : mapping) : Prop :=
  exists name w bytes w', item "path" artifact = Ok (VStr name) /\ read name w = (Ok (Some bytes), w') /\
    item "sha256" artifact = Ok (VStr (hexdigest (sha256 bytes))).

(** What a candidate that was verified is known to be: its record is the directory's, valid, with status
    candidate; its artifact has the digest of the record; and the directory's [evaluation.json] is bound
    to both and clears the policy. *)
Record verified (read : directory) (policy metadata : mapping) : Prop := {
  v_read : read_as read "metadata.json" metadata;
  v_valid : provenance_valid metadata = true /\ finite_val (VDict metadata) = true;
  v_status : get "status" metadata = VStr "candidate";
  v_evaluation : exists artifact binding, item "artifact" metadata = Ok (VDict artifact) /\ holds_artifact read artifact /\
    read_as read "evaluation.json" binding /\ bound_evaluation metadata artifact binding /\ clears policy (test_metrics binding) }.

Lemma read_returns read name : returns (@_load W json_loads read name) (read_as read name).
Proof.
  intros s d s'. unfold _load, mbind, on_disk. destruct (read name (disk s)) as [[[bytes|]|e] w'] eqn:Er; try done.
  unfold lift. destruct (try_except _ _ _) as [v|e] eqn:Ev; [|done]. destruct v; try done. intros [= <- _].
  apply try_except_Ok in Ev as [Ev|(e & _ & _ & [=])]. by exists (disk s), bytes, w'.
Qed.

Lemma verify_artifact_returns is_file read metadata :
  returns (@verify_artifact W is_file read metadata) (fun d => item "artifact" metadata = Ok (VDict d) /\ holds_artifact read d).
Proof.
  unfold verify_artifact. apply returns_lift. intros algorithm _. apply returns_lift. intros [format name] _.
  apply returns_lift. intros artifact Ha. apply returns_lift. intros f _. apply returns_lift. intros matches Hm.
  apply returns_when. intros ->%negb_false_iff. cbn [fst snd] in *. apply (returns_bind _ _ (fun _ => True)); [apply returns_any|]. intros present _.
  apply returns_when. intros _. apply (returns_bind _ _ (fun o => exists w w', read name w = (Ok o, w'))).
  { intros s o s'. unfold on_disk. destruct (read name (disk s)) as [[b|e] w'] eqn:E; [|done]. intros [= <- _]. by eexists _, _. }
  intros [bytes|] (w & w' & Hr); [|apply returns_raise]. apply returns_lift. intros digest Hd. apply returns_when. intros Hdig%negb_false_iff.
  apply (returns_bind _ _ (fun _ => True)); [apply returns_any|]. intros [again|] _; [|apply returns_raise].
  apply returns_lift. intros size _. apply returns_when. intros _. destruct artifact as [| | | | |d]; try apply returns_raise.
  apply returns_ret. split; [done|]. exists name, w, bytes, w'. split; [|split; [done|]].
  - destruct (negb _); [done|]. apply rbind_Ok in Hm as (path & Hp & [= Hm]). apply py_eq_text in Hm. by subst.
  - cbn [subscript] in Hd. rewrite Hd. destruct digest; try done. cbn [py_eq] in Hdig. by apply String.eqb_eq in Hdig as <-.
Qed.

Lemma verify_candidate_returns is_file read policy :
  returns (@verify_candidate W json_loads provenance_valid schema_file is_file read policy) (fun p => verified read policy p.1).
Proof.
  unfold verify_candidate. apply (returns_bind _ _ _ _ (read_returns read _)). intros metadata Hmeta.
  apply (returns_bind _ _ _ _ (read_returns read _)). intros binding Hbind. apply returns_lift. intros [] Hv.
  apply returns_lift. intros status Hs. apply returns_when. intros Hc%negb_false_iff%py_eq_text.
  apply (returns_bind _ _ _ _ (verify_artifact_returns is_file read metadata)). intros artifact [Ha Hart]. apply returns_lift. intros digest _.
  apply returns_lift. intros test Ht. apply returns_lift. intros [] Hp. apply returns_ret. cbn.
  apply verify_binding_facts in Ht as [-> Hb]. constructor.
  - done.
  - unfold _validate_provenance in Hv. cbn [dict_of] in Hv. apply raise_if_Ok, orb_false_elim in Hv as [H1 H2]. by apply negb_false_iff in H1, H2.
  - subst. unfold item in Hs. unfold get. by destruct (assoc "status" metadata); simplify_eq/=.
  - exists artifact, binding. repeat (split; [done|]). by eapply check_policy_clears; [apply Hb|].
Qed.

(** Where a policy comes from. *)
Definition policy_of (policy_file : M W (option (list Z))) (policy : mapping) (digest : string) : Prop :=
  exists w raw w', policy_file w = (Ok (Some raw), w') /\ safe_load raw = Ok (VDict policy) /\ digest = hexdigest (sha256 raw).

Lemma load_policy_returns read : returns (@load_policy W safe_load read) (fun p => policy_of read p.1 p.2).
Proof.
  unfold load_policy. apply (returns_bind _ _ (fun o => exists w w', read w = (Ok o, w'))).
  { intros s o s'. unfold on_disk. destruct (read (disk s)) as [[b|e] w'] eqn:E; [|done]. intros [= <- _]. by eexists _, _. }
  intros [raw|] (w & w' & Hr); [|apply returns_raise].
  apply returns_lift. intros policy Hp. destruct policy; try apply returns_raise. apply returns_when. intros _. apply returns_lift. intros ? _.
  apply returns_when. intros _. apply returns_lift. intros ? _. apply returns_when. intros _. apply returns_ret. by exists w, raw, w'.
Qed.

(** [metadata.json] in the output, and what keeps it. *)
Definition has_metadata (body : list Z) (s : S) : Prop := assoc "metadata.json" (output s) = Some body.

Lemma write_keeps body name bytes : name <> "metadata.json" -> keeps (has_metadata body) (write_file name bytes).
Proof.
  intros Hn. apply keeps_modify. intros s Hs. unfold has_metadata in *. cbn. by rewrite assoc_set_ne.
Qed.

Lemma on_disk_keeps {X} body (m : M W X) : keeps (has_metadata body) (on_disk m).
Proof. intros s Hs. unfold on_disk. by destruct (m (disk s)) as [[x|e] w]. Qed.

Lemma write_registry_writes is_file read metadata names (P : S -> Prop) :
  triple P (_write_registry is_file read metadata names)
    (fun digest s => digest = hexdigest (sha256 (json_file (VDict metadata))) /\ has_metadata (json_file (VDict metadata)) s) (fun _ _ => True).
Proof.
  intros s _. unfold _write_registry, mbind, gets, raise_when, raise_if, lift.
  destruct (negb _); [done|]. destruct (mapM_ _ names s) as [[u|e] s1]; [|done].
  unfold write_file, modify, ret. split; [done|]. unfold has_metadata. cbn. by rewrite assoc_set_eq.
Qed.

Lemma copy_required_keeps body read name : name <> "metadata.json" -> keeps (has_metadata body) (@copy_required W read name).
Proof.
  intros Hn. unfold copy_required. apply keeps_bind; [apply on_disk_keeps|]. intros [b|]; [by apply write_keeps|apply keeps_raise].
Qed.

Lemma after_writing_keeps body read comparison :
  keeps (has_metadata body) (match comparison with Some c => mapM_ (@copy_required W c) COMPARISON_FILES ;;! ret tt | None => ret tt end) /\
  keeps (has_metadata body) (@revalidate W json_loads provenance_valid) /\ keeps (has_metadata body) (@file_digest W read "metadata.json").
Proof.
  split; [|split].
  - destruct comparison as [c|]; [|apply keeps_ret]. apply keeps_bind; [|intros; apply keeps_ret]. unfold COMPARISON_FILES. cbn [mapM_].
    apply keeps_bind; [by apply copy_required_keeps|]. intros. apply keeps_bind; [|intros; apply keeps_ret].
    apply keeps_bind; [by apply copy_required_keeps|]. intros. apply keeps_bind; intros; apply keeps_ret.
  - unfold revalidate. apply keeps_bind; [apply keeps_gets|]. intros files. destruct (assoc _ files); [|apply keeps_raise].
    apply keeps_bind; [apply keeps_lift|]. intros. apply keeps_lift.
  - unfold file_digest. apply keeps_bind; [apply on_disk_keeps|]. intros [b|]; [apply keeps_ret|apply keeps_raise].
Qed.

(** What holds when a promotion returns [(digest, policy_digest)]. *)
Definition promoted (read : directory) (policy_file : M W (option (list Z))) (approver : string) (r : string * string) (s : S) : Prop :=
  exists policy metadata, policy_of policy_file policy r.2 /\ verified read policy metadata /\
    r.1 = hexdigest (sha256 (json_file (VDict (assoc_set "status" (VStr "approved") metadata)))) /\
    has_metadata (json_file (VDict (assoc_set "status" (VStr "approved") metadata))) s /\ strip approver <> "".

Lemma triple_knowing {X} (m : M S X) (P : X -> Prop) (K : Prop) :
  returns m P -> triple (fun _ => K) m (fun x _ => P x /\ K) (fun _ _ => True).
Proof. intros Hm s HK. specialize (Hm s). destruct (m s) as [[x|e] s1]; [|done]. split; [by eapply Hm|done]. Qed.

Lemma triple_keeping {X} (m : M S X) (K : Prop) body :
  keeps (has_metadata body) m -> triple (fun s => K /\ has_metadata body s) m (fun _ s => K /\ has_metadata body s) (fun _ _ => True).
Proof. intros Hm s [HK Hs]. specialize (Hm s Hs). by destruct (m s) as [[x|e] s1]. Qed.

(** The files written after the metadata leave it alone. *)
Lemma approval_triple body read comparison now (id : result val) (text : Z -> val -> string -> list Z) (digests : string * string) (K : Prop) :
  triple (fun s => K /\ has_metadata body s)
    (match comparison with Some c => mapM_ (@copy_required W c) COMPARISON_FILES ;;! ret tt | None => ret tt end ;;!
     revalidate json_loads provenance_valid ;;!
     let! t := match now with Some t => ret t | None => on_disk clock end in
     let! id := lift id in
     let! candidate_digest := file_digest read "metadata.json" in
     write_file "approval.json" (text t id candidate_digest) ;;!
     ret digests)
    (fun r s => r = digests /\ K /\ has_metadata body s) (fun _ _ => True).
Proof.
  destruct (after_writing_keeps body read comparison) as (H1 & H2 & H3).
  eapply triple_bind; [by apply triple_keeping|]. intros u. eapply triple_bind; [by apply triple_keeping|]. intros u'.
  eapply triple_bind; [apply triple_keeping; destruct now; [apply keeps_ret|apply on_disk_keeps]|]. intros t.
  eapply triple_bind; [apply triple_keeping, keeps_lift|]. intros i. eapply triple_bind; [by apply triple_keeping|]. intros cd.
  eapply triple_bind; [by apply triple_keeping, write_keeps|]. intros w. by apply triple_ret.
Qed.

(** What holds when a retirement returns [digest]. *)
Lemma retire_writes is_file (read : directory) status reason : 
  triple (fun _ => True) (@retire W json_loads provenance_valid is_file read status reason)
    (fun digest s => exists metadata, (status = "retired" \/ status = "revoked") /\ read_as read "metadata.json" metadata /\
       digest = hexdigest (sha256 (json_file (VDict (assoc_set "status" (VStr status) metadata)))) /\
       has_metadata (json_file (VDict (assoc_set "status" (VStr status) metadata))) s) (fun _ _ => True).
Proof.
  unfold retire. apply (triple_bind _ _ _ (fun _ _ => status = "retired" \/ status = "revoked")).
  { apply triple_raise_when; [|done]. intros s0 [H _]%orb_false_elim _. apply negb_false_iff, str_in_elem in H. set_solver. }
  intros []. eapply triple_bind; [apply triple_knowing, read_returns|]. intros metadata. eapply triple_bind; [apply triple_knowing, returns_any|]. intros ?.
  eapply triple_bind; [apply triple_knowing, returns_any|]. intros path.
  set (retired := assoc_set "status" (VStr status) metadata).
  set (K := (status = "retired" \/ status = "revoked") /\ read_as read "metadata.json" metadata).
  apply (triple_bind _ _ _ (fun d s => (K /\ d = hexdigest (sha256 (json_file (VDict retired)))) /\ has_metadata (json_file (VDict retired)) s)).
  { intros s0 (_ & _ & Hr & Hs). pose proof (write_registry_writes is_file read retired (str_val path :: CARRIED_FILES ++ COMPARISON_FILES ++ ["approval.json"]) (fun _ => True) s0 I) as H.
    by destruct (_write_registry _ _ _ _ s0) as [[d|e] s1]; [destruct H|]. }
  intros d. eapply triple_bind; [by apply triple_keeping, write_keeps|]. intros u. apply triple_ret.
  intros s0 (((Hst & Hr) & Hd) & Hs). by exists metadata.
Qed.

(** C14: what is promoted has cleared the reviewed policy.  When [promote] returns, the output holds as
    [metadata.json] the record of the candidate's directory, with its status alone changed to approved;
    its digest is the one printed; the record is valid, its artifact has the digest it gives, and the
    directory's [evaluation.json] is of that artifact, dataset and threshold, with the metrics of the
    record, which are numbers that meet every floor and every ceiling of the policy whose digest is
    printed; so does the share of detected scenarios, for any counts of a run.  (A quotient of the
    counts that is a NaN passes; [clears] says so.) *)
Theorem promoted_models_clear_the_policy is_file (read : directory) approver policy_file note now comparison (s s' : S) digest policy_digest :
  promote json_loads safe_load provenance_valid schema_file clock is_file read approver policy_file note now comparison s = (Ok (digest, policy_digest), s') ->
  promoted read policy_file approver (digest, policy_digest) s'.
Proof.
  enough (triple (fun _ => True) (promote json_loads safe_load provenance_valid schema_file clock is_file read approver policy_file note now comparison)
    (promoted read policy_file approver) (fun _ _ => True)) as H.
  { intros Hp. specialize (H s I). by rewrite Hp in H. }
  unfold promote. apply (triple_bind _ _ _ (fun _ _ => strip approver <> "")); [apply triple_raise_when; [by intros ? ?%String.eqb_neq|done]|]. intros [].
  eapply triple_bind; [apply triple_knowing, load_policy_returns|]. intros [policy pd].
  eapply triple_bind; [apply triple_knowing, verify_candidate_returns|]. intros [metadata binding]. cbn [fst snd].
  set (K := verified read policy metadata /\ policy_of policy_file policy pd /\ strip approver <> "").
  eapply triple_bind; [apply triple_knowing, returns_any|]. intros ?. eapply triple_bind; [apply triple_knowing, returns_any|]. intros path.
  set (body := json_file (VDict (assoc_set "status" (VStr "approved") metadata))).
  apply (triple_bind _ _ _ (fun d s => (K /\ d = hexdigest (sha256 body)) /\ has_metadata body s)).
  { intros s0 (_ & _ & HK). pose proof (write_registry_writes is_file read (assoc_set "status" (VStr "approved") metadata) (str_val path :: CARRIED_FILES) (fun _ => True) s0 I) as H.
    by destruct (_write_registry _ _ _ _ s0) as [[d|e] s1]; [destruct H|]. }
  intros d. eapply triple_conseq; [apply (approval_triple body read comparison now _ (fun t id cd => json_file (VDict
      [("approver", VStr (strip approver)); ("approved_at", VStr (isoformat_auto t)); ("model_id", id); ("metadata_sha256", VStr d);
       ("policy_sha256", VStr pd); ("candidate_metadata_sha256", VStr cd); ("note", VStr note)])) (d, pd) (K /\ d = hexdigest (sha256 body)))|done| |done].
  intros r s0 (-> & ((Hv & Hp & Ha) & Hd) & Hs). by exists policy, metadata.
Qed.

End promotion.

(** The status that was set is the one that reads back. *)
Lemma written_status_reads status d : printable (VDict d) = true ->
  exists r, loads_bytes (json_file (VDict (assoc_set "status" (VStr status) d))) = Ok (VDict r) /\ get "status" r = VStr status.
Proof.
  intros Hp. pose proof (set_printable "status" (VStr status) d Hp eq_refl) as Hw.
  rewrite (loads_json_file _ Hw), arranged_dict. eexists. split; [reflexivity|]. unfold arrange.
  rewrite <- (sort_by_map (fun kv => (kv.1, arranged true kv.2))) by done.
  rewrite get_arranged by by apply printable_keys. by rewrite get_set_eq.
Qed.

(** C16: what is retired is never served again.  The [metadata.json] that [retire] writes, read back by
    [json.loads], has the status it was given, so a registry that holds it gives no model to any loader
    that trusts the digest printed, whatever its other files hold and whatever is unpickled.  The record
    retired is any that prints: its keys are distinct and its numbers read back from their [repr]. *)
Theorem retired_models_are_never_served {W} provenance_valid schema_file is_file (read : string -> M W (option (list Z)))
    status reason (s s' : Promotion W) digest :
  retire loads_bytes provenance_valid is_file read status reason s = (Ok digest, s') ->
  exists metadata body, read_as loads_bytes read "metadata.json" metadata /\ has_metadata body s' /\ digest = hexdigest (sha256 body) /\
    (printable (VDict metadata) = true ->
     (exists record, loads_bytes body = Ok (VDict record) /\ get "status" record = VStr status) /\
     forall W' (read_bytes : string -> M W' (option (list Z))) present resolve joblib lstm,
       (forall w, exists w', read_bytes "metadata.json" w = (Ok (Some body), w')) ->
       forall w, is_ok (load_approved_model read_bytes present resolve loads_bytes provenance_valid schema_file joblib lstm (Some digest) w).1 = false).
Proof.
  intros Hr. pose proof (retire_writes loads_bytes provenance_valid schema_file is_file read status reason s I) as H. rewrite Hr in H.
  destruct H as (metadata & Hst & Hread & Hd & Hs). eexists metadata, _. split; [done|]. split; [exact Hs|]. split; [done|]. intros Hp.
  destruct (written_status_reads status metadata Hp) as (r & Hl & Hg). split; [by exists r|].
  intros W' read_bytes present resolve joblib lstm Hfile w.
  destruct (load_approved_model _ _ _ _ _ _ _ _ _ w) as [[m|e] w'] eqn:E; [|done].
  apply (load_reads _ _ _ _ _ _ _ _ _ _ Hfile) in E as [Hm Ha]. assert (r = Registry.metadata m) as -> by congruence. rewrite Hg in Ha. by destruct Hst as [-> | ->].
Qed.

(** * Witnesses *)
Lemma promoted_models_clear_the_policy_witness : exists digests s',
  promote_sample = (Ok digests, s') /\
  promoted promotion_json_loads (fun _ => Ok policy_file) sample_provenance (in_directory candidate_files) (ret (Some [])) "reviewer" digests s'.
Proof.
  eexists (_, _), _. split; [by vm_compute|].
  refine (promoted_models_clear_the_policy promotion_json_loads (fun _ => Ok policy_file) sample_provenance sample_schema_file june (has_file candidate_files)
    (in_directory candidate_files) "reviewer" (ret (Some [])) "" None None empty_output _ _ _ _). by vm_compute.
Defined.

Lemma retired_models_are_never_served_witness : exists digest s' metadata body,
  retire_sample = (Ok digest, s') /\ has_metadata body s' /\ printable (VDict metadata) = true /\
  (exists record, loads_bytes body = Ok (VDict record) /\ get "status" record = VStr "retired") /\
  forall W' (read_bytes : string -> M W' (option (list Z))) present resolve joblib lstm,
    (forall w, exists w', read_bytes "metadata.json" w = (Ok (Some body), w')) ->
    forall w, is_ok (load_approved_model read_bytes present resolve loads_bytes sample_provenance sample_schema_file joblib lstm (Some digest) w).1 = false.
Proof.
  assert (exists digest s', retire_sample = (Ok digest, s')) as (digest & s' & E) by (eexists _, _; by vm_compute).
  destruct (retired_models_are_never_served sample_provenance sample_schema_file (has_file (("metadata.json", approved_bytes) :: candidate_files))
    (in_directory (("metadata.json", approved_bytes) :: candidate_files)) "retired" "drift" empty_output s' digest E)
    as (metadata & body & (w & bytes & w' & Hr & Hl) & Hb & _ & H).
  assert (printable (VDict metadata) = true) as Hp.
  { injection Hr as <- _. assert (loads_bytes approved_bytes = Ok (VDict approved_record)) as Ha by by vm_compute.
    assert (metadata = approved_record) as -> by congruence. by vm_compute. }
  exists digest, s', metadata, body. split; [done|]. split; [done|]. split; [done|]. exact (H Hp).
Defined.

(** The operating threshold is the best one the budget allows.  It is an observed score whose false
    positives per hour are within the budget, and no observed score within the budget has a higher
    F1, nor the same at a higher value; only when no observed score is within the budget is it the
    value just above the highest benign score, which is then below 1. *)
Theorem selected_threshold_is_best labels scores seconds budget t :
  Forall is_real scores -> select_threshold labels scores seconds budget = Ok t ->
  exists hours, py_fdiv seconds seconds_per_hour = Ok hours /\ selected (zip labels scores) scores hours budget t.
Proof. apply select_threshold_selected. Qed.

(** A hybrid detector is the disjunction of its parts: at every threshold it fires exactly when the
    static rules or the model would. *)
Theorem hybrid_fires_when_either_does name m vector history x :
  detector_score (HybridDetector name m) vector history = Ok x ->
  exists s y, detector_score StaticRuleDetector vector history = Ok s /\ detector_score (ModelDetector name m) vector history = Ok y /\
    forall t, f_leb t x = f_leb t s || f_leb t y.
Proof.
  cbn [detector_score]. intros (s & Hs & H)%rbind_Ok. apply rbind_Ok in H as (y & Hy & [= <-]). exists s, y. split; [done|]. split; [done|].
  intros t. apply fires_at_max; [|by eapply model_score_real]. unfold static_score in Hs. apply rbind_Ok in Hs as (f & _ & [= <-]). by destruct f.
Qed.

(** C17: a model is only ever trained on a dataset that was checked.  What [load_dataset] gives has passed
    the partition gate; every vector has the label bound to its hash in the label file; no training
    vector is an attack; validation and test have both kinds. *)
Theorem training_data_is_checked manifest_valid json_loads schema_file conforms json_lines document vector_bytes ledger_bytes label_bytes schema d :
  load_dataset manifest_valid json_loads schema_file conforms json_lines document vector_bytes ledger_bytes label_bytes schema = Ok d ->
  trainable json_lines label_bytes d /\
  validate_partitions manifest_valid json_loads schema_file conforms (fun name => map VDict (partitions d name)) vector_bytes (VDict (manifest d)) ledger_bytes = Ok tt.
Proof. apply load_dataset_trainable. Qed.

(** A candidate and its evaluation agree.  The files [write_candidate] gives hold the artifact, a record
    with status candidate that describes it, and an evaluation that passes every check a promotion
    makes of the binding, provided the record has no infinite number, which its validation asks. *)
Theorem written_candidates_are_consistent {W} prf average_precision (elapsed_ms : M W float) resources clock schema_file a d f e s files s' :
  write_candidate prf average_precision elapsed_ms resources clock schema_file a d f e s = (Ok files, s') -> consistent_candidate schema_file f files.
Proof. intros H. exact (write_candidate_consistent prf average_precision elapsed_ms resources clock schema_file a d f e s files s' H). Qed.

(** * Witnesses *)
Lemma selected_threshold_is_best_witness : exists hours, py_fdiv one_hour seconds_per_hour = Ok hours /\
  selected (zip [false; false; true; true] [tenth 1; tenth 7; tenth 6; tenth 9]) [tenth 1; tenth 7; tenth 6; tenth 9] hours (float_of_Z 1) (tenth 6).
Proof.
  refine (selected_threshold_is_best [false; false; true; true] [tenth 1; tenth 7; tenth 6; tenth 9] one_hour (float_of_Z 1) (tenth 6) _ threshold_within_budget).
  by repeat constructor.
Defined.

Lemma training_data_is_checked_witness : exists d, sample_load_dataset = Ok d /\ trainable sample_lines (Some (utf8 "labels")) d.
Proof.
  destruct (proj1 (is_ok_true _) dataset_loads) as [d E]. exists d. split; [done|].
  exact (proj1 (training_data_is_checked any_manifest ledger_json sample_schema_file sample_conforms sample_lines (Ok (VDict split_manifest)) vector_file
    (Some (utf8 "ledger")) (Some (utf8 "labels")) "network-window-v1" d E)).
Defined.

Lemma written_candidates_are_consistent_witness : exists files s', write_sample_candidate = (Ok files, s') /\ consistent_candidate sample_schema_file sample_fitted files.
Proof.
  destruct (proj1 (is_ok_true _) candidate_written) as [files Ef]. set (w := write_sample_candidate) in *.
  assert (w = (Ok files, w.2)) as E by (by rewrite <- Ef; destruct w). exists files, w.2. split; [done|].
  exact (written_candidates_are_consistent perfect_scores perfect_precision sample_elapsed (ret (f_zero, f_one)) (ret 1767571200000000) sample_schema_file
    sample_arguments sample_dataset sample_fitted sample_evidence tt files w.2 E).
Defined.
